(* ===== verification/_CoqProject ===== *)
-Q . S2P
Prelude.v
Utils.v
Address.v
Trojan.v
UdpPacket.v
PipelineProto.v
Caches.v
ReadCache.v
PipelineComponent.v
DomainMatcher.v
Session.v
ServerWorld.v
ServerSide.v
ServerProofs.v
ServerDefined.v
ServerTheorems.v
ClientWorld.v
ClientSide.v
ClientTheorems.v
ServiceTheorems.v
SessionLogic.v
IpMatcher.v
Dns.v
UdpForward.v
UdpForwardProofs.v
UdpForwardTheorems.v
DnsServer.v
DnsServerTheorems.v
Icmp.v
IcmpTheorems.v
ClientProofs.v
ClientRuns.v
TunPacket.v
TunPacketTheorems.v
TunSide.v
TunProofs.v
TunTheorems.v
TunForwarders.v
TunRuns.v
ConfigLoad.v
ConfigTheorems.v
ConfigRuns.v
Authenticator.v
ServiceStart.v
TestCases.v
NatSockets.v
Log.v
Main.v
Headers.v
TunSetup.v
SslShutdown.v
PipelineChannel.v
