(* ===== verification/Prelude.v ===== *)
(** * A verification of trojan-plus

    trojan-plus is a proxy.  A client ([ClientSession]) accepts SOCKS5
    connections, turns each into a trojan request (password, command, target
    address, payload) and sends it over TLS to a server ([ServerSession]), which
    checks the password, connects to the target and relays the octets in both
    directions; a request with an unknown password is handed, unread, to a
    fallback server.  UDP datagrams are framed as [UDPPacket]s in the same
    stream.  In pipeline mode many sessions share one TLS connection: [Pipeline]
    on the client and [PipelineSession] on the server exchange [PipelineRequest]
    commands (CONNECT, DATA, ACK, CLOSE, ICMP), and an acknowledgement window
    limits what each session may read ahead.  [Service] owns the listener, the
    pipelines and the buffer allocator.

    ** Files, and the sources they model (under [src/src/])

    - [Prelude]: octets, machine integers, outcomes ([Ret], [Throw], [Undef]),
      [std::string_view] accesses, the state monad of the handlers with its
      weakest preconditions [wp], record update, tactics and hint databases.
    - [Utils]: [core/utils.h], [core/utils.cpp]: [streambuf_append], the
      big-endian codec, checksum and hash, [SendingDataAllocator],
      [ReadBufWithGuard], [bytes_stat].
    - [Address]: [proto/socks5address.cpp] and Boost's [ip::address] values.
    - [Trojan]: [proto/trojanrequest.cpp].  [UdpPacket]: [proto/udppacket.cpp].
      [PipelineProto]: [proto/pipelinerequest.cpp] and the receiving loop that
      [Pipeline::out_async_recv] and [PipelineSession::process_streaming_data]
      share.
    - [Caches]: [SendDataCache].  [ReadCache]: [ReadDataCache].
      [PipelineComponent]: [session/pipelinecomponent.cpp], session ids and the
      acknowledgement window.  [DomainMatcher]: the domain lists.
    - [IpMatcher]: [IPv4Matcher], the address lists, and [std::binary_search].
    - [Session]: the base class and its UDP timer ([session/session.cpp]) and the
      part of [Config] that is read by the sessions.
    - [ServerWorld], [ServerSide]: [session/serversession.cpp] and
      [session/pipelinesession.cpp].  The objects live in one store and the
      operations in progress are data ([op]), so a run is a list of events:
      completions of any operation in any order with any answer, the clock, new
      connections.  [ServerSide.step] runs the handler of one event.
    - [ServerProofs]: the invariant [I] of the server's worlds, and that every
      handler keeps it.  [ServerDefined]: every object a handler names exists.
      [ServerTheorems]: what follows for every run.
    - [ClientWorld], [ClientSide]: [session/clientsession.cpp], its variants
      [natsession.cpp] and [forwardsession.cpp], [core/pipeline.cpp] and the parts of [core/service.cpp] that start
      sessions and carry their data, in the same style.  [ClientTheorems]: what
      they do, and that the server's definitions understand it.
      [ServiceTheorems]: the choice of a pipeline and the load-balance order.
    - [SessionLogic]: the logic [on] of handlers that work on one session of a
      world ([SessionWorld]), shared by the next two groups.  [ClientProofs]: the
      invariant [CI] of a client session without pipeline and that its handlers
      keep it.  [ClientRuns]: what follows for every run of such a client.
    - [UdpForward]: [session/udpforwardsession.cpp] and the UDP listener of
      [core/service.cpp] ([udp_async_read]), as a world of its own with the same
      kind of events.  [UdpForwardProofs]: the
      invariant [SI] of a session.  [UdpForwardTheorems]: what follows for every run.
    - [Dns]: [proto/dns_header.h], [dns_header.cpp] over a model of
      [std::istream].  [DnsServer]: [tun/dnsserver.cpp] and
      [tun/udplocalforwarder.cpp]; what the server asks of its sessions through
      the proxy is the class [ProxySessions] with its laws [ProxyLaws], and
      [forward_sessions] is the instance [UDPForwardSession] gives.
      [DnsServerTheorems]: what follows for every run.
    - [Icmp]: [proto/ipv4_header.h], [proto/icmp_header.h] and [core/icmpd.cpp].
      [IcmpTheorems]: checksums, packets, the send queue and the way of a ping.
    - [TunPacket]: the parts of [tun/tundev.cpp] that cut the device's stream into
      packets and write packets to it.  [TunPacketTheorems]: what they do.
    - [TunSide]: [tun/tunsession.h], [tunproxysession.cpp], [tunlocalsession.cpp],
      [lwip_tcp_client.cpp] and the rest of [tundev.cpp]: a session and its lwIP
      client under one address ([TunObj]), in the style of the other worlds; the
      callbacks of lwIP are events.  What a local UDP session asks of its forwarder
      is the class [Forwarders]; its laws are [ForwardersLaws] ([TunProofs]) and
      [TunForwarders] gives the instance of [UDPLocalForwarder].
      [TunProofs]: the invariant [OI] of a session without pipeline, by the logic of
      [SessionLogic].  [TunTheorems]: routes, and what follows for every run.
      [TunRuns]: sessions that end by themselves, and concrete runs.
    - [ConfigLoad]: [core/config.h], [config.cpp], [ssl/sslsession.cpp] and the
      restarts of [main.cpp]: reading a property tree ([PropertyTree], the interface
      of Boost's, with its laws) into all members, the calls that prepare a TLS
      context as a list, and [session_config], what the sessions read of it.
      [ConfigTheorems]: what a loaded configuration is like.  [ConfigRuns]: runs of
      a configured client against a configured server, and a concrete tree.
      [Authenticator]: [core/authenticator.cpp], with the connection to MySQL.
    - [ServiceStart]: construction, [run], [stop] and [reload_cert] of
      [core/service.cpp], as the calls they make, with the configuration of
      [ConfigLoad]; what is started for each run type, and the handler that accepts
      connections.
    - [Main]: [main.cpp], the process from its command line through the signals it
      gets to its exit code.  [Log]: [core/log.h], [core/log.cpp].
    - [NatSockets]: the socket options of a transparent proxy, the control messages
      and socket addresses it decodes, and the lock files of [core/utils.cpp].
      [SslShutdown]: [shutdown_ssl_socket], as a step relation.
    - [TunSetup]: constructor and destructor of [TUNDev] and [tcp_remove], the rest of
      [tun/tundev.cpp].  [Headers]: the accessors and printing functions of the IP and
      ICMP headers that no other file needs.  [TestCases]: the test programs the
      sources hold for DNS messages and domain lists, evaluated.
    - [PipelineChannel]: no source of its own; the send cache, the wire format and the
      receiving loop put together as one direction of a pipeline.

    ** What the theorems show

    - Runs of the server: every handler returns (no exception, no object that is
      gone, no unbounded nesting of calls; the one exception is the address
      parser's read outside the one-octet view [03]); octets are relayed in
      order, without loss or repetition; one read at a time on each buffer.
    - Runs of a client without pipelines (SOCKS5, transparent and fixed-target
      sessions): every handler returns, or throws for a failed socket call; both
      directions are relayed in order; what the server has received is a request
      for the target of the application with all that it sent.
    - Wire formats: parsers accept exactly the grammar, generators and parsers
      are inverse, parsing makes progress and is independent of how the stream is
      cut into reads.
    - Components: the send cache is first-in first-out and calls each handler
      once, the receive cache conserves octets and acknowledgements, the window
      bounds the reads, session ids are unique, the UDP timer destroys exactly
      the idle sessions (with its flaw), the domain and address lists match.
    - Composition: what the client session and the pipeline write is what the
      server session understands; one direction of a pipeline refines a queue of
      commands, whatever the order of pushes, writes and reads and however the reads
      cut the stream.
    - UDP forwarding: every step returns; what a session sends is the request and
      one packet for each datagram, in order; what it hands back are the payloads
      of the packets received, however the stream was cut.
    - DNS: names and questions are read back as written; the cache answers exactly
      the questions it has an unexpired entry for, with an answer that was
      received; the addresses to be proxied are those of proxied answers.
    - ICMP: stored checksums are right, packets leave in order, a reply reaches
      the session of its request.  Address lists match what they say, if the
      networks come in ascending order.
    - The tun device: packets are processed as the stream has them, however it was
      cut; datagrams leave as packets that fit the MTU; an address takes the route
      of the lists and the type; without a pipeline a session relays in order in
      both directions with one read and one write at a time, and the ways a step may
      end are known, among them the use of a client that was freed.
    - Configurations: loading gives a well-formed configuration and ends unless files
      name each other in a circle; a client and a server whose files share a password
      understand each other in every run; a client's TLS context makes the checks it
      was asked for; no password gets into a query of MySQL but as 56 digits.
      A service starts with exactly the parts its configuration asks for, and
      [stop] releases them, but for the listener: sent SIGHUP, a process without
      SO_REUSEPORT ends.
    - The rest of the process: a transparent proxy finds the original destination of
      connections and datagrams; a TLS connection that is shut down is closed exactly
      once after at most four steps; a line is logged exactly when its level says so;
      the tun device is set up and taken down with the calls it needs; the sources'
      own test cases pass.
    - Runs and inputs on which the code does not do what it means to.

    ** Conventions

    Integers are [Z] with the wrap-around written ([u8], [u16], [u32], [i32]);
    sizes of objects in memory do not wrap.  [Undef] says what is undefined:
    [OutOfView] an element outside a view, [NoObject] an object that does not
    exist, [EmptyContainer], [SignedOverflow]; [NoEnd] is the outcome of a
    definition whose bound was too small.  The bounds: [PipelineRequest.drain]
    runs with one unit more than the octets in the buffer, each command takes
    three; [id_fuel] is the number of session ids; [depth], how deep
    [in_async_read] may call itself through its handler, is a parameter, and the
    theorems ask for [MAX_BUF_LENGTH + 2], which is enough because every nested
    call makes the buffer of the partial packet longer
    ([ServerProofs.wp_in_async_read]).
    The nesting of [UDPForwardSession::out_async_read] is bounded by a parameter
    [depth] in the same way; one level is enough for every run without data
    before the start ([UdpForwardTheorems]).  The [fuel] of DNS names bounds the
    labels and pointers followed; the theorem on questions asks for more than the
    number of labels, and a name that points to itself exhausts every fuel.  [write_to_tun] and the loops of the tun sessions run with the length of
    what they work on, which each round makes shorter; [ConfigLoad.load] with the
    depth to which files name each other; [handle_write_upd_data] and
    [parse_packet] too, and what makes them stand still is stated.  [depth] of
    [TunSide] bounds the readers as above.  The events [LwipIn], [UdpIn], [Remote],
    [Datagram], [FFromServer], [FromUp], [FromApp] and
    [FromServer] in the traces record what comes
    in; no handler reads them.
    What is outside the sources is a parameter: the answers of the system
    (completions, error codes of socket calls), the target a transparent proxy's
    datagram or connection names, Boost's address parser, the
    authenticator's verdict, the ALPN protocol, what lwIP and the tun device answer,
    badvpn's header checks and checksums (the theorems ask that a checked header has
    its size), Boost's property trees (a number that is read has its type), OpenSSL's
    digest (it has 28 octets), the files, the environment and MySQL's answers.

    ** Not modelled

    TLS, lwIP, the kernel, MySQL and Boost themselves, of which only the calls and
    their answers appear; the variants for Windows, macOS and Android (certificate
    stores, file locks, the Android log); the constants of [core/version.cpp] and
    [ssl/ssldefaults.cpp].  Log lines inside handlers are left out of the worlds of the
    sessions, as is the time they take. *)

From Stdlib Require Import ZArith Lia.
From Stdlib Require Export Strings.Byte.
From stdpp Require Export base list gmap strings numbers countable.

(** ** Bytes

    A [char] of the program is a [Byte.byte].  [b2z] is the [uint8_t] reading
    of it, [schar] the (signed) [char] reading, [z2b] the conversion of an
    integer to [uint8_t] (reduction modulo 256). *)

Abbreviation bytes := (list byte).

Declare Scope trojan_scope.
Delimit Scope trojan_scope with trojan.

Definition b2z (b : byte) : Z := Z.of_N (Byte.to_N b).

Definition u8 (z : Z) : Z := (z mod 256)%Z.
Definition u16 (z : Z) : Z := (z mod 65536)%Z.
Definition u32 (z : Z) : Z := (z mod 4294967296)%Z.
Definition u64 (z : Z) : Z := (z mod 18446744073709551616)%Z.

Definition z2b (z : Z) : byte :=
  match Byte.of_N (Z.to_N (u8 z)) with
  | Some b => b
  | None => Byte.x00
  end.

Definition schar (b : byte) : Z :=
  if (b2z b <? 128)%Z then b2z b else (b2z b - 256)%Z.

(** The conversion of an unsigned 32-bit value to [int]. *)
Definition i32 (z : Z) : Z :=
  ((z + 2147483648) mod 4294967296 - 2147483648)%Z.

Definition str (s : string) : bytes := String.list_byte_of_string s.

#[export] Instance byte_eq_dec : EqDecision byte := Byte.byte_eq_dec.

#[export] Program Instance byte_countable : Countable byte :=
  inj_countable Byte.to_N Byte.of_N _.
Next Obligation. intros b. apply Byte.of_to_N. Qed.

Lemma b2z_range b : (0 <= b2z b < 256)%Z.
Proof.
  unfold b2z. pose proof (Byte.to_N_bounded b). lia.
Qed.

Lemma b2z_z2b z : b2z (z2b z) = u8 z.
Proof.
  unfold z2b. pose proof (Z.mod_pos_bound z 256 ltac:(lia)) as Hb.
  fold (u8 z) in Hb.
  destruct (Byte.of_N (Z.to_N (u8 z))) as [b|] eqn:E.
  - apply Byte.to_of_N in E. unfold b2z. rewrite E. lia.
  - apply Byte.of_N_None_iff in E. lia.
Qed.

Lemma b2z_inj b c : b2z b = b2z c -> b = c.
Proof.
  unfold b2z. intros E%N2Z.inj.
  pose proof (Byte.of_to_N b) as Hb. rewrite E, Byte.of_to_N in Hb. congruence.
Qed.

Lemma z2b_b2z b : z2b (b2z b) = b.
Proof.
  apply b2z_inj. rewrite b2z_z2b. apply Z.mod_small, b2z_range.
Qed.

Lemma u8_range z : (0 <= u8 z < 256)%Z.
Proof. apply Z.mod_pos_bound. lia. Qed.
Lemma u16_range z : (0 <= u16 z < 65536)%Z.
Proof. apply Z.mod_pos_bound. lia. Qed.
Lemma u32_range z : (0 <= u32 z < 4294967296)%Z.
Proof. apply Z.mod_pos_bound. lia. Qed.

Lemma u8_small z : (0 <= z < 256)%Z -> u8 z = z.
Proof. apply Z.mod_small. Qed.
Lemma u16_small z : (0 <= z < 65536)%Z -> u16 z = z.
Proof. apply Z.mod_small. Qed.
Lemma u32_small z : (0 <= z < 4294967296)%Z -> u32 z = z.
Proof. apply Z.mod_small. Qed.

(** [hi << n | lo] is an addition when [lo] fits in [n] bits. *)
Lemma lor_shiftl_add hi lo n :
  (0 <= n)%Z -> (0 <= lo < 2 ^ n)%Z ->
  Z.lor (Z.shiftl hi n) lo = (hi * 2 ^ n + lo)%Z.
Proof.
  intros Hn Hlo.
  assert (Z.land (Z.shiftl hi n) lo = 0%Z) as Hz.
  2:{ pose proof (Z.add_lor_land (Z.shiftl hi n) lo).
      rewrite <- Z.shiftl_mul_pow2 by lia. lia. }
  - apply Z.bits_inj'. intros i Hi.
    rewrite Z.bits_0, Z.land_spec, Z.shiftl_spec by lia.
    destruct (Z.ltb_spec i n) as [Hlt|Hge].
    + rewrite (Z.testbit_neg_r hi) by lia. done.
    + destruct (decide (lo = 0%Z)) as [->|Hne].
      * rewrite Z.bits_0. apply andb_false_r.
      * rewrite (Z.bits_above_log2 lo i), andb_false_r; try done; try lia.
        apply Z.lt_le_trans with n; [apply Z.log2_lt_pow2; lia|lia].
Qed.

(** ** Outcomes

    A C++ function returns, throws, or what it does is not defined: an element
    is read outside a view, an object that does not exist or the first element
    of an empty container is used, a signed sum overflows.  [NoEnd] is the
    outcome of a definition whose bound on a loop or on the nesting of calls was
    too small. *)

Inductive undefined_by :=
| OutOfView (data : bytes) (i : Z)
| NoObject
| EmptyContainer
| SignedOverflow
| NoEnd.

Inductive exn :=
| bad_weak_ptr
| logic_error (what : string)
| runtime_error (what : string)
| out_of_range
| system_error (code : Z).

Inductive outcome (A : Type) :=
| Ret (a : A)
| Throw (e : exn)
| Undef (u : undefined_by).
Arguments Ret {A} a.
Arguments Throw {A} e.
Arguments Undef {A} u.

#[export] Instance exn_eq_dec : EqDecision exn.
Proof. solve_decision. Defined.

Definition obind {A B} (m : outcome A) (k : A -> outcome B) : outcome B :=
  match m with
  | Ret a => k a
  | Throw e => Throw e
  | Undef u => Undef u
  end.

Notation "'let!' x := m 'in' k" := (obind m (fun x => k))
  (at level 10, x name, m at level 100, k at level 200) : trojan_scope.
Notation "'let!' ' p := m 'in' k" := (obind m (fun p => k))
  (at level 10, p strict pattern, m at level 100, k at level 200) : trojan_scope.
Open Scope trojan_scope.

Definition returns {A} (m : outcome A) : Prop := exists a, m = Ret a.

Lemma obind_Ret {A B} (m : outcome A) (k : A -> outcome B) b :
  obind m k = Ret b <-> exists a, m = Ret a /\ k a = Ret b.
Proof.
  split.
  - destruct m; cbn; try discriminate. eauto.
  - intros (a & -> & H). exact H.
Qed.

(** ** String views

    [size_t] quantities are kept in [Z]; a length of an object in memory never
    reaches the width of [size_t], so they do not wrap.  [at_] is the unchecked
    [data[i]] of [std::string_view], [substr] and [substr_from] the checked
    [substr] (it throws when the position is past the end). *)

Definition zlen {A} (l : list A) : Z := Z.of_nat (length l).

Definition at_ (data : bytes) (i : Z) : outcome byte :=
  if (i <? 0)%Z then Undef (OutOfView data i) else
  match data !! Z.to_nat i with
  | Some b => Ret b
  | None => Undef (OutOfView data i)
  end.

Definition sub_ (data : bytes) (pos n : Z) : bytes :=
  take (Z.to_nat n) (drop (Z.to_nat pos) data).

Definition substr (data : bytes) (pos n : Z) : outcome bytes :=
  if (zlen data <? pos)%Z then Throw out_of_range else Ret (sub_ data pos n).

Definition substr_from (data : bytes) (pos : Z) : outcome bytes :=
  if (zlen data <? pos)%Z then Throw out_of_range
  else Ret (drop (Z.to_nat pos) data).

(** [data.find(pat)]: the first position at which [pat] occurs. *)
Fixpoint is_prefix (pat data : bytes) : bool :=
  match pat, data with
  | [], _ => true
  | p :: ps, d :: ds => bool_decide (p = d) && is_prefix ps ds
  | _ :: _, [] => false
  end.

Fixpoint find_ (pat data : bytes) : option Z :=
  if is_prefix pat data then Some 0%Z else
  match data with
  | [] => None
  | _ :: ds => option_map Z.succ (find_ pat ds)
  end.

Definition CR : byte := Byte.x0d.
Definition LF : byte := Byte.x0a.
Definition CRLF : bytes := [CR; LF].

(** *** Lemmas on views *)

Lemma zlen_nonneg {A} (l : list A) : (0 <= zlen l)%Z.
Proof. unfold zlen. lia. Qed.
Lemma zlen_nil {A} : zlen (@nil A) = 0%Z.
Proof. done. Qed.
Lemma zlen_cons {A} (x : A) l : zlen (x :: l) = (1 + zlen l)%Z.
Proof. unfold zlen. cbn [length]. lia. Qed.
Lemma zlen_app {A} (l k : list A) : zlen (l ++ k) = (zlen l + zlen k)%Z.
Proof. unfold zlen. rewrite length_app. lia. Qed.
Lemma zlen_zero {A} (l : list A) : zlen l = 0%Z -> l = [].
Proof. destruct l; [done|]. rewrite zlen_cons. pose proof (zlen_nonneg l). lia. Qed.
Lemma zlen_drop {A} (l : list A) n :
  (0 <= n <= zlen l)%Z -> zlen (drop (Z.to_nat n) l) = (zlen l - n)%Z.
Proof. unfold zlen. rewrite length_drop. lia. Qed.

Lemma at_Some data i b :
  at_ data i = Ret b <-> (0 <= i)%Z /\ data !! Z.to_nat i = Some b.
Proof.
  unfold at_. destruct (Z.ltb_spec i 0).
  - split; [discriminate|lia].
  - destruct (data !! Z.to_nat i); split;
      [intros [= ->]; done | intros [_ [= ->]]; done | done | intros [_ ?]; done].
Qed.

Lemma at_defined data i :
  (0 <= i < zlen data)%Z -> exists b, at_ data i = Ret b.
Proof.
  unfold zlen. intros Hi.
  destruct (lookup_lt_is_Some_2 data (Z.to_nat i)) as [b Hb]; [lia|].
  exists b. apply at_Some. split; [lia|done].
Qed.

Lemma at_undef data i : (zlen data <= i)%Z -> at_ data i = Undef (OutOfView data i).
Proof.
  unfold at_, zlen. intros Hi. destruct (Z.ltb_spec i 0); [done|].
  rewrite lookup_ge_None_2; [done|lia].
Qed.

Lemma at_app_l l k i : (0 <= i < zlen l)%Z -> at_ (l ++ k) i = at_ l i.
Proof.
  intros Hi. destruct (at_defined l i Hi) as [b Hb]. rewrite Hb.
  apply at_Some in Hb as [? Hb]. apply at_Some. split; [done|].
  by apply lookup_app_l_Some.
Qed.

Lemma at_app_r l k i : (zlen l <= i < zlen l + zlen k)%Z -> at_ (l ++ k) i = at_ k (i - zlen l).
Proof.
  intros Hi. pose proof (zlen_nonneg l).
  destruct (at_defined k (i - zlen l)) as [b Hb]; [lia|]. rewrite Hb.
  apply at_Some in Hb as [? Hb]. apply at_Some. split; [lia|]. unfold zlen in *.
  rewrite lookup_app_r by lia.
  by replace (Z.to_nat i - length l) with (Z.to_nat (i - Z.of_nat (length l))) by lia.
Qed.

Lemma at_cons_0 b l : at_ (b :: l) 0 = Ret b.
Proof. done. Qed.

Lemma at_cons_pos b l i : (0 < i <= zlen l)%Z -> at_ (b :: l) i = at_ l (i - 1).
Proof. intros Hi. apply (at_app_r [b] l i). change (zlen [b]) with 1%Z. lia. Qed.

Lemma substr_ok data pos n :
  (pos <= zlen data)%Z -> substr data pos n = Ret (sub_ data pos n).
Proof. unfold substr. intros. destruct (Z.ltb_spec (zlen data) pos); [lia|done]. Qed.

Lemma substr_from_ok data pos :
  (pos <= zlen data)%Z -> substr_from data pos = Ret (drop (Z.to_nat pos) data).
Proof. unfold substr_from. intros. destruct (Z.ltb_spec (zlen data) pos); [lia|done]. Qed.

Lemma drop_zlen_app {A} (a b : list A) : drop (Z.to_nat (zlen a)) (a ++ b) = b.
Proof. unfold zlen. rewrite Nat2Z.id. apply drop_app_length. Qed.

Lemma drop_zlen_app' {A} (a b : list A) n :
  n = zlen a -> drop (Z.to_nat n) (a ++ b) = b.
Proof. intros ->. apply drop_zlen_app. Qed.

Lemma take_zlen_app' {A} (a b : list A) n :
  n = zlen a -> take (Z.to_nat n) (a ++ b) = a.
Proof. intros ->. unfold zlen. rewrite Nat2Z.id. apply take_app_length. Qed.

Lemma sub_app a b c pos n :
  pos = zlen a -> n = zlen b -> sub_ (a ++ b ++ c) pos n = b.
Proof.
  intros -> ->. unfold sub_. rewrite drop_zlen_app. by apply take_zlen_app'.
Qed.

Lemma zlen_sub data pos n :
  (0 <= pos)%Z -> (0 <= n)%Z -> (pos + n <= zlen data)%Z -> zlen (sub_ data pos n) = n.
Proof.
  unfold zlen, sub_. intros. rewrite length_take, length_drop. lia.
Qed.

Lemma is_prefix_spec pat data :
  is_prefix pat data = true <-> exists rest, data = pat ++ rest.
Proof.
  revert data. induction pat as [|p ps IH]; intros data; cbn.
  - split; [eauto|done].
  - destruct data as [|d ds].
    + split; [done|]. intros [? ?]; done.
    + rewrite andb_true_iff, bool_decide_eq_true, IH. split.
      * intros [-> [rest ->]]. by exists rest.
      * intros [rest [= -> ->]]. eauto.
Qed.


Lemma find_range pat data i :
  find_ pat data = Some i -> (0 <= i /\ i + zlen pat <= zlen data)%Z.
Proof.
  revert i. induction data as [|d ds IH]; intros i; cbn [find_].
  - destruct (is_prefix pat []) eqn:E; [|done].
    intros [= <-]. apply is_prefix_spec in E as [rest E].
    destruct pat; [|done]. done.
  - destruct (is_prefix pat (d :: ds)) eqn:E.
    + intros [= <-]. apply is_prefix_spec in E as [rest ->].
      rewrite zlen_app. pose proof (zlen_nonneg rest). lia.
    + destruct (find_ pat ds) as [j|]; [|done]. intros [= <-].
      specialize (IH j eq_refl). rewrite zlen_cons. lia.
Qed.

(** The first CRLF of a text without one, a CRLF and anything. *)
Lemma find_crlf pw rest :
  find_ CRLF pw = None -> find_ CRLF (pw ++ CRLF ++ rest) = Some (zlen pw).
Proof.
  induction pw as [|p ps IH]; intros H.
  - done.
  - change ((p :: ps) ++ CRLF ++ rest) with (p :: (ps ++ CRLF ++ rest)).
    cbn [find_] in H |- *.
    destruct (is_prefix CRLF (p :: ps)) eqn:E1; [discriminate|].
    destruct (is_prefix CRLF (p :: ps ++ CRLF ++ rest)) eqn:E2.
    + exfalso. cbn in E1, E2. apply andb_true_iff in E2 as [E2 E3].
      rewrite E2 in E1. cbn in E1.
      destruct ps as [|q qs]; cbn in E1, E3; [|congruence].
      vm_compute in E3. discriminate.
    + destruct (find_ CRLF ps); [discriminate|].
      rewrite IH by done. cbn. rewrite zlen_cons. f_equal. lia.
Qed.

(** Case analysis on the scrutinee of the goal's or a hypothesis' [if]s and
    [match]es, turning boolean comparisons into propositions. *)
Ltac bool_facts :=
  repeat match goal with
  | H : (_ && _) = true |- _ => apply andb_true_iff in H as [? ?]
  | H : (_ || _) = false |- _ => apply orb_false_iff in H as [? ?]
  | H : negb _ = true |- _ => apply negb_true_iff in H
  | H : negb _ = false |- _ => apply negb_false_iff in H
  | H : (_ =? _)%Z = true |- _ => apply Z.eqb_eq in H
  | H : (_ =? _)%Z = false |- _ => apply Z.eqb_neq in H
  | H : (_ <? _)%Z = true |- _ => apply Z.ltb_lt in H
  | H : (_ <? _)%Z = false |- _ => apply Z.ltb_ge in H
  | H : (_ <=? _)%Z = true |- _ => apply Z.leb_le in H
  | H : (_ <=? _)%Z = false |- _ => apply Z.leb_gt in H
  | H : bool_decide _ = true |- _ => apply bool_decide_eq_true in H
  | H : bool_decide _ = false |- _ => apply bool_decide_eq_false in H
  end.

(** ** The state monad of the event handlers

    A handler reads and updates the state of its object and may throw; an
    exception leaves the handler, so the state is then dropped. *)

Definition M (S A : Type) : Type := S -> outcome (A * S).

Definition ret {S A} (a : A) : M S A := fun s => Ret (a, s).
Definition bind {S A B} (m : M S A) (k : A -> M S B) : M S B :=
  fun s => match m s with
           | Ret (a, s') => k a s'
           | Throw e => Throw e
           | Undef u => Undef u
           end.
Definition throw {S A} (e : exn) : M S A := fun _ => Throw e.
Definition gets {S A} (f : S -> A) : M S A := fun s => Ret (f s, s).
Definition modify {S} (f : S -> S) : M S unit := fun s => Ret (tt, f s).
Definition lift {S A} (m : outcome A) : M S A :=
  fun s => match m with
           | Ret a => Ret (a, s)
           | Throw e => Throw e
           | Undef u => Undef u
           end.
Definition skip {S} : M S unit := ret tt.
Definition when {S} (b : bool) (m : M S unit) : M S unit :=
  if b then m else skip.

Declare Scope handler_scope.
Delimit Scope handler_scope with handler.
Notation "x <- m ;; k" := (bind m (fun x => k))
  (at level 100, m at next level, right associativity) : handler_scope.
Notation "m ;;; k" := (bind m (fun _ => k))
  (at level 100, right associativity) : handler_scope.

Lemma bind_assoc {S A B C} (m : M S A) (k : A -> M S B) (k' : B -> M S C) s :
  bind (bind m k) k' s = bind m (fun a => bind (k a) k') s.
Proof. unfold bind. by destruct (m s) as [[a s']| |]. Qed.
Lemma bind_gets {S A B} (f : S -> A) (k : A -> M S B) s : bind (gets f) k s = k (f s) s.
Proof. done. Qed.

(** A list of one or no element *)
Definition opt {A} (b : bool) (x : A) : list A := if b then [x] else [].
Lemma elem_of_opt {A} b (x y : A) : y ∈ opt b x <-> b = true /\ y = x.
Proof. unfold opt. destruct b; rewrite ?list_elem_of_singleton, ?elem_of_nil; naive_solver. Qed.
Lemma elem_skip_opt {A} (x y : A) b l : x <> y -> x ∈ opt b y ++ l <-> x ∈ l.
Proof. rewrite elem_of_app, elem_of_opt. naive_solver. Qed.
Lemma elem_skip_cons {A} (x y : A) l : x <> y -> x ∈ y :: l <-> x ∈ l.
Proof. rewrite elem_of_cons. naive_solver. Qed.

(** The one read outside a view that the parsers make: [SOCKS5Address::parse]
    reads the second octet of the view [03]. *)
Definition octet03 : undefined_by := OutOfView [Byte.x03] 1.

(** [wp m Q s]: run from [s], [m] throws nothing, and if it returns then [Q]
    holds of the result; nothing else happens but the read [octet03], or the use
    of an object that does not exist (which is excluded separately). *)
Definition wp {S A} (m : M S A) (Q : A -> S -> Prop) (s : S) : Prop :=
  match m s with
  | Ret (a, s') => Q a s'
  | Throw _ => False
  | Undef u => u = octet03 \/ u = NoObject
  end.

Lemma wp_bind {S A B} (m : M S A) (k : A -> M S B) Q s :
  wp m (fun a s' => wp (k a) Q s') s -> wp (bind m k) Q s.
Proof. unfold wp, bind. destruct (m s) as [[a s']| |]; auto. Qed.
Lemma wp_ret {S A} (a : A) (Q : A -> S -> Prop) s : Q a s -> wp (ret a) Q s.
Proof. done. Qed.
Lemma wp_skip {S} (Q : unit -> S -> Prop) s : Q tt s -> wp skip Q s.
Proof. done. Qed.
Lemma wp_gets {S A} (f : S -> A) (Q : A -> S -> Prop) s : Q (f s) s -> wp (gets f) Q s.
Proof. done. Qed.
Lemma wp_modify {S} (f : S -> S) (Q : unit -> S -> Prop) s : Q tt (f s) -> wp (modify f) Q s.
Proof. done. Qed.
Lemma wp_lift {S A} (m : outcome A) (Q : A -> S -> Prop) s :
  (forall e, m <> Throw e) -> (forall u, m = Undef u -> u = octet03) ->
  (forall a, m = Ret a -> Q a s) -> wp (lift m) Q s.
Proof. unfold wp, lift. destruct m; [auto|intros H _; exfalso; exact (H _ eq_refl)|auto]. Qed.
Lemma wp_lift_ok {S A} (m : outcome A) a (Q : A -> S -> Prop) s :
  m = Ret a -> Q a s -> wp (lift m) Q s.
Proof. by intros ->. Qed.
Lemma wp_when {S} (b : bool) (m : M S unit) Q s :
  (b = true -> wp m Q s) -> (b = false -> Q tt s) -> wp (when b m) Q s.
Proof. destruct b; cbn; auto. Qed.
Lemma wp_mono {S A} (m : M S A) (P Q : A -> S -> Prop) s :
  wp m P s -> (forall a s', P a s' -> Q a s') -> wp m Q s.
Proof. unfold wp. destruct (m s) as [[a s']| |]; auto. Qed.

(** ** Record update

    [r <| f := v |>] replaces one field.  [Settable] gives a record's
    constructor applied to all its projections; the setter of a field is that
    term with the projection abstracted. *)

Class Settable (R : Type) := eta_of : R -> R.
Class Setter {R T : Type} (proj : R -> T) := update : (T -> T) -> R -> R.
Arguments update {R T} proj {_} upd r / : rename.

Ltac build_setter :=
  lazymatch goal with
  | |- @Setter ?R ?T ?proj =>
    let inst := constr:(_ : Settable R) in
    let e := eval hnf in inst in
    let e := eval cbv beta in e in
    lazymatch eval pattern proj in e with
    | ?abs proj =>
      let t := eval cbv beta in
        (fun (upd : T -> T) => abs (fun r => upd (proj r))) in
      exact t
    end
  end.
#[export] Hint Extern 1 (Setter _) => build_setter : typeclass_instances.

Notation "r <| f := v |>" := (update f (fun _ => v) r)
  (at level 12, left associativity, f at next level) : trojan_scope.
Notation "r <| f ::= u |>" := (update f u r)
  (at level 12, left associativity, f at next level) : trojan_scope.

(** ** Automation *)

Create HintDb trojan.
Create Rewrite HintDb zlen.
Create Rewrite HintDb streambuf.
#[export] Hint Rewrite @zlen_app @zlen_cons : zlen.
#[export] Hint Resolve b2z_range u8_range u16_range u32_range zlen_nonneg : trojan.

(** Linear arithmetic over the lengths of views. *)
Ltac zlen_consts :=
  repeat match goal with
  | |- context [@zlen ?A nil] => change (@zlen A nil) with 0%Z
  | H : context [@zlen ?A nil] |- _ => change (@zlen A nil) with 0%Z in H
  | |- context [zlen CRLF] => change (zlen CRLF) with 2%Z
  | H : context [zlen CRLF] |- _ => change (zlen CRLF) with 2%Z in H
  end.

Ltac zlen_fact l :=
  lazymatch goal with
  | _ : (0 <= zlen l)%Z |- _ => fail
  | _ => pose proof (zlen_nonneg l)
  end.

Ltac zlen_lia :=
  autorewrite with zlen in *; zlen_consts;
  repeat match goal with
  | |- context [zlen ?l] => zlen_fact l
  | _ : context [zlen ?l] |- _ => zlen_fact l
  end;
  lia.

(** Run a handler: unfold the monad's combinators. *)
Ltac run_in H := cbn [bind ret gets modify lift throw skip when obind] in H.
Ltac run := cbn [bind ret gets modify lift throw skip when obind].
