(* ===== verification/Utils.v ===== *)
(** * Buffers, integers and byte counting

    The free functions and small classes of [src/src/core/utils.h] and
    [src/src/core/utils.cpp]: [streambuf_append] and its overloads, the
    big-endian integer codec, the 16-bit checksum used in the logs,
    [SendingDataAllocator], [ReadBufWithGuard] and [bytes_stat]. *)

From Stdlib Require Import ZArith Lia.
From S2P Require Import Prelude.
Local Open Scope Z_scope.

(** ** streambuf

    A [boost::asio::streambuf] is its readable bytes; [prepare], writing and
    [commit] append, [consume] drops from the front. *)
Module Streambuf.

Definition consume (buf : bytes) (n : Z) : bytes := drop (Z.to_nat n) buf.

(** [buf.consume(buf.size())] *)
Definition consume_all (buf : bytes) : bytes := consume buf (zlen buf).

(** streambuf_append(target, append_buf) *)
Definition append_buf (target other : bytes) : bytes * Z :=
  if zlen other =? 0 then (target, 0)
  else (target ++ other, zlen other).

(** streambuf_append(target, append_buf, start, n) *)
Definition append_range (target other : bytes) (start n : Z) : bytes * Z :=
  if zlen other <=? start then (target, 0)
  else if zlen other <? u64 (start + n) then (target, 0)
  else (target ++ sub_ other start n, n).

(** [strlen]: the bytes before the first NUL of a C string. *)
Fixpoint c_str (s : bytes) : bytes :=
  match s with
  | [] => []
  | b :: s' => if b2z b =? 0 then [] else b :: c_str s'
  end.

(** streambuf_append(target, const char* ); [None] is the null pointer *)
Definition append_cstr (target : bytes) (s : option bytes) : bytes * Z :=
  match s with
  | None => (target, 0)
  | Some s =>
    let length := zlen (c_str s) in
    if length =? 0 then (target, 0) else (target ++ c_str s, length)
  end.

(** streambuf_append(target, const uint8_t* data, length) *)
Definition append_data (target : bytes) (data : option bytes) (append_length : Z)
  : bytes * Z :=
  match data with
  | None => (target, 0)
  | Some d =>
    if append_length =? 0 then (target, 0)
    else (target ++ sub_ d 0 append_length, append_length)
  end.

(** streambuf_append(target, char) *)
Definition append_char (target : bytes) (c : byte) : bytes * Z :=
  (target ++ [c], 1).

(** streambuf_append(target, string_view) *)
Definition append_view (target data : bytes) : bytes * Z :=
  if bool_decide (data = []) then (target, 0)
  else (target ++ data, zlen data).

(** streambuf_append(target, std::string) *)
Definition append_string (target data : bytes) : bytes * Z :=
  if bool_decide (data = []) then (target, 0)
  else (target ++ data, zlen data).

(** [streambuf_to_string_view] *)
Definition to_view (target : bytes) : bytes := target.

Lemma consume_all_nil buf : consume_all buf = [].
Proof.
  unfold consume_all, consume, zlen. apply drop_ge. lia.
Qed.

Lemma append_view_eq target data : fst (append_view target data) = target ++ data.
Proof.
  unfold append_view. case_bool_decide; [subst|done]. by rewrite app_nil_r.
Qed.

Lemma append_string_eq target data : fst (append_string target data) = target ++ data.
Proof. apply append_view_eq. Qed.

Lemma append_buf_eq target other : fst (append_buf target other) = target ++ other.
Proof.
  unfold append_buf. destruct (Z.eqb_spec (zlen other) 0) as [E|]; [|done].
  apply zlen_zero in E as ->. by rewrite app_nil_r.
Qed.

Lemma append_cstr_eq target s : fst (append_cstr target (Some s)) = target ++ c_str s.
Proof.
  unfold append_cstr. destruct (Z.eqb_spec (zlen (c_str s)) 0) as [E|]; [|done].
  apply zlen_zero in E as ->. by rewrite app_nil_r.
Qed.

Lemma append_data_eq target d n :
  n = zlen d -> fst (append_data target (Some d) n) = target ++ d.
Proof.
  intros ->. unfold append_data. destruct (Z.eqb_spec (zlen d) 0) as [E|].
  - apply zlen_zero in E as ->. by rewrite app_nil_r.
  - cbn [fst]. f_equal. rewrite <- (app_nil_r d) at 1. by apply (sub_app [] d []).
Qed.

Lemma append_crlf target : fst (append_cstr target (Some CRLF)) = target ++ CRLF.
Proof. done. Qed.

End Streambuf.
#[export] Hint Rewrite Streambuf.append_view_eq Streambuf.append_string_eq
  Streambuf.append_buf_eq Streambuf.append_crlf Streambuf.consume_all_nil : streambuf.

(** ** Big-endian integers *)
Module Codec.
Import Streambuf.

Definition one_byte_shift_8_bits : Z := 8.
Definition two_bytes_shift_16_bits : Z := 16.
Definition three_bytes_shift_24_bits : Z := 24.
Definition one_byte_mask_0xFF : Z := 255.
Definition two_bytes_mask_0xFFFF : Z := 65535.

Definition parse_uint16 (start_pos : Z) (data : bytes) : outcome Z :=
  let! hi := at_ data (0 + start_pos) in
  let! lo := at_ data (1 + start_pos) in
  Ret (Z.lor (Z.shiftl (b2z hi) one_byte_shift_8_bits) (b2z lo)).

Definition generate_uint16 (data : bytes) (value : Z) : bytes :=
  let data := fst (append_char data
    (z2b (Z.land (Z.shiftr value one_byte_shift_8_bits) one_byte_mask_0xFF))) in
  fst (append_char data (z2b (Z.land value one_byte_mask_0xFF))).

Definition parse_uint32 (start_pos : Z) (data : bytes) : outcome Z :=
  let! b0 := at_ data (0 + start_pos) in
  let! b1 := at_ data (1 + start_pos) in
  let! b2 := at_ data (2 + start_pos) in
  let! b3 := at_ data (3 + start_pos) in
  Ret (Z.lor (Z.lor (Z.lor
        (u32 (Z.shiftl (b2z b0) three_bytes_shift_24_bits))
        (u32 (Z.shiftl (b2z b1) two_bytes_shift_16_bits)))
        (u32 (Z.shiftl (b2z b2) one_byte_shift_8_bits)))
        (b2z b3)).

Definition generate_uint32 (data : bytes) (value : Z) : bytes :=
  let data := fst (append_char data (z2b (Z.shiftr value three_bytes_shift_24_bits))) in
  let data := fst (append_char data
    (z2b (Z.land (Z.shiftr value two_bytes_shift_16_bits) one_byte_mask_0xFF))) in
  let data := fst (append_char data
    (z2b (Z.land (Z.shiftr value one_byte_shift_8_bits) one_byte_mask_0xFF))) in
  fst (append_char data (z2b (Z.land value one_byte_mask_0xFF))).

(** The four octets of a 16- or 32-bit value, most significant first. *)
Definition be16 (v : Z) : bytes := [z2b (v / 256); z2b v].
Definition be32 (v : Z) : bytes :=
  [z2b (v / 16777216); z2b (v / 65536); z2b (v / 256); z2b v].

Lemma z2b_land v : z2b (Z.land v 255) = z2b v.
Proof.
  apply b2z_inj. rewrite !b2z_z2b. unfold u8.
  change 255 with (Z.ones 8). rewrite Z.land_ones by lia.
  change (2 ^ 8) with 256. by rewrite Z.mod_mod by lia.
Qed.

Lemma shiftr_div v n : 0 <= n -> Z.shiftr v n = v / 2 ^ n.
Proof. intros. apply Z.shiftr_div_pow2. lia. Qed.

Lemma generate_uint16_eq data v : generate_uint16 data v = data ++ be16 v.
Proof.
  unfold generate_uint16, append_char, one_byte_mask_0xFF, one_byte_shift_8_bits, be16.
  cbn [fst]. rewrite <- app_assoc, !z2b_land, shiftr_div by lia. done.
Qed.

Lemma generate_uint32_eq data v : generate_uint32 data v = data ++ be32 v.
Proof.
  unfold generate_uint32, append_char, one_byte_mask_0xFF, one_byte_shift_8_bits,
    two_bytes_shift_16_bits, three_bytes_shift_24_bits, be32.
  cbn [fst]. rewrite <- !app_assoc, !z2b_land, !shiftr_div by lia. done.
Qed.

Lemma b2z_be v d : b2z (z2b (v / d)) = (v / d) mod 256.
Proof. apply b2z_z2b. Qed.

(** Reading back two octets written by [generate_uint16]. *)
Lemma parse_uint16_be v pre post n :
  n = zlen pre -> parse_uint16 n (pre ++ be16 v ++ post) = Ret (u16 v).
Proof.
  intros ->. unfold parse_uint16, be16.
  rewrite !(at_app_r pre) by zlen_lia.
  replace (0 + zlen pre - zlen pre) with 0 by lia.
  replace (1 + zlen pre - zlen pre) with 1 by lia. cbn [obind].
  change (at_ _ 0) with (@Ret byte (z2b (v / 256))).
  change (at_ _ 1) with (@Ret byte (z2b v)). cbn [obind]. f_equal.
  unfold one_byte_shift_8_bits.
  rewrite lor_shiftl_add by (try lia; apply b2z_range).
  rewrite !b2z_z2b. unfold u8, u16.
  Z.div_mod_to_equations. lia.
Qed.

Lemma parse_uint16_range n data v :
  parse_uint16 n data = Ret v -> 0 <= v < 65536.
Proof.
  unfold parse_uint16. intros H.
  apply obind_Ret in H as (hi & _ & H). apply obind_Ret in H as (lo & _ & [= <-]).
  unfold one_byte_shift_8_bits.
  rewrite lor_shiftl_add by (try lia; apply b2z_range).
  pose proof (b2z_range hi). pose proof (b2z_range lo). lia.
Qed.

Lemma parse_uint16_defined n data :
  0 <= n -> n + 2 <= zlen data -> exists v, parse_uint16 n data = Ret v.
Proof.
  intros. unfold parse_uint16.
  destruct (at_defined data (0 + n)) as [? ->]; [lia|].
  destruct (at_defined data (1 + n)) as [? ->]; [lia|]. cbn. eauto.
Qed.

Lemma u32_shift b n :
  0 <= n <= 24 -> u32 (Z.shiftl (b2z b) n) = Z.shiftl (b2z b) n.
Proof.
  intros. apply u32_small. rewrite Z.shiftl_mul_pow2 by lia.
  pose proof (b2z_range b). pose proof (Z.pow_pos_nonneg 2 n ltac:(lia) ltac:(lia)).
  pose proof (Z.pow_le_mono_r 2 n 24 ltac:(lia) ltac:(lia)). nia.
Qed.

Lemma parse_uint32_value b0 b1 b2 b3 :
  Z.lor (Z.lor (Z.lor (u32 (Z.shiftl (b2z b0) 24)) (u32 (Z.shiftl (b2z b1) 16)))
    (u32 (Z.shiftl (b2z b2) 8))) (b2z b3)
  = b2z b0 * 16777216 + b2z b1 * 65536 + b2z b2 * 256 + b2z b3.
Proof.
  rewrite !u32_shift by lia.
  pose proof (b2z_range b0). pose proof (b2z_range b1).
  pose proof (b2z_range b2). pose proof (b2z_range b3).
  rewrite <- !Z.lor_assoc.
  rewrite (lor_shiftl_add (b2z b2) (b2z b3) 8) by lia.
  rewrite (lor_shiftl_add (b2z b1) _ 16) by lia.
  rewrite lor_shiftl_add by lia. lia.
Qed.

Lemma parse_uint32_be v pre post n :
  n = zlen pre -> parse_uint32 n (pre ++ be32 v ++ post) = Ret (u32 v).
Proof.
  intros ->. unfold parse_uint32, be32.
  rewrite !(at_app_r pre) by zlen_lia.
  replace (0 + zlen pre - zlen pre) with 0 by lia.
  replace (1 + zlen pre - zlen pre) with 1 by lia.
  replace (2 + zlen pre - zlen pre) with 2 by lia.
  replace (3 + zlen pre - zlen pre) with 3 by lia.
  change (at_ _ 0) with (@Ret byte (z2b (v / 16777216))).
  change (at_ _ 1) with (@Ret byte (z2b (v / 65536))).
  change (at_ _ 2) with (@Ret byte (z2b (v / 256))).
  change (at_ _ 3) with (@Ret byte (z2b v)). cbn [obind].
  unfold one_byte_shift_8_bits, two_bytes_shift_16_bits, three_bytes_shift_24_bits.
  rewrite parse_uint32_value, !b2z_z2b. f_equal. unfold u8, u32.
  Z.div_mod_to_equations. lia.
Qed.

Lemma parse_uint32_range n data v :
  parse_uint32 n data = Ret v -> 0 <= v < 4294967296.
Proof.
  unfold parse_uint32. intros H.
  apply obind_Ret in H as (b0 & _ & H). apply obind_Ret in H as (b1 & _ & H).
  apply obind_Ret in H as (b2 & _ & H). apply obind_Ret in H as (b3 & _ & [= <-]).
  unfold one_byte_shift_8_bits, two_bytes_shift_16_bits, three_bytes_shift_24_bits.
  rewrite parse_uint32_value.
  pose proof (b2z_range b0). pose proof (b2z_range b1).
  pose proof (b2z_range b2). pose proof (b2z_range b3). lia.
Qed.

Lemma parse_uint32_defined n data :
  0 <= n -> n + 4 <= zlen data -> exists v, parse_uint32 n data = Ret v.
Proof.
  intros. unfold parse_uint32.
  destruct (at_defined data (0 + n)) as [? ->]; [lia|].
  destruct (at_defined data (1 + n)) as [? ->]; [lia|].
  destruct (at_defined data (2 + n)) as [? ->]; [lia|].
  destruct (at_defined data (3 + n)) as [? ->]; [lia|]. cbn. eauto.
Qed.

(** The octets after the integer do not matter. *)
Lemma parse_uint16_app n p q :
  0 <= n -> n + 2 <= zlen p -> parse_uint16 n (p ++ q) = parse_uint16 n p.
Proof. intros. unfold parse_uint16. by rewrite !(at_app_l p) by lia. Qed.

Lemma parse_uint32_app n p q :
  0 <= n -> n + 4 <= zlen p -> parse_uint32 n (p ++ q) = parse_uint32 n p.
Proof. intros. unfold parse_uint32. by rewrite !(at_app_l p) by lia. Qed.

End Codec.
#[export] Hint Rewrite Codec.generate_uint16_eq Codec.generate_uint32_eq : streambuf.

(** ** Checksum and hash of a string *)
Module Checksum.
Import Codec.

(** The loop of [get_checksum]: the [unsigned int] accumulator takes the octets
    in pairs. *)
Fixpoint checksum_loop (sum : Z) (s : bytes) : Z :=
  match s with
  | [] => sum
  | [b] => u32 (sum + Z.shiftl (b2z b) one_byte_shift_8_bits)
  | b :: c :: s' =>
    checksum_loop (u32 (u32 (sum + Z.shiftl (b2z b) one_byte_shift_8_bits) + b2z c)) s'
  end.

Definition get_checksum (s : bytes) : Z := u16 (checksum_loop 0 s).

(** The big-endian 16-bit words of a text, the last octet padded with zero. *)
Fixpoint words16 (s : bytes) : list Z :=
  match s with
  | [] => []
  | [b] => [b2z b * 256]
  | b :: c :: s' => (b2z b * 256 + b2z c) :: words16 s'
  end.

Definition sum_list_Z (l : list Z) : Z := foldr Z.add 0 l.

Lemma list_pair_ind {A} (P : list A -> Prop) :
  P [] -> (forall x, P [x]) -> (forall x y l, P l -> P (x :: y :: l)) -> forall l, P l.
Proof.
  intros H0 H1 H2. fix IH 1. intros [|x [|y l]]; [done|done|].
  apply H2, IH.
Qed.

Lemma checksum_loop_words sum s :
  (checksum_loop sum s mod 4294967296 = (sum + sum_list_Z (words16 s)) mod 4294967296)%Z.
Proof.
  revert sum. induction s as [|b|b c s IH] using list_pair_ind; intros sum.
  - cbn. f_equal. lia.
  - cbn [checksum_loop words16 sum_list_Z foldr]. unfold u32, one_byte_shift_8_bits.
    rewrite Z.shiftl_mul_pow2, Z.mod_mod by lia. f_equal. lia.
  - cbn [checksum_loop words16 sum_list_Z foldr]. rewrite IH.
    unfold u32, one_byte_shift_8_bits. rewrite Z.shiftl_mul_pow2 by lia.
    rewrite Zplus_mod_idemp_l, <- Z.add_assoc, Zplus_mod_idemp_l.
    unfold sum_list_Z. f_equal. lia.
Qed.

Lemma u16_of_mod32 x y : x mod 4294967296 = y mod 4294967296 -> u16 x = u16 y.
Proof.
  unfold u16. intros H.
  rewrite <- (Z.mod_mod_divide x 4294967296 65536), H by (by exists 65536).
  apply Z.mod_mod_divide. by exists 65536.
Qed.

Lemma get_checksum_words s : get_checksum s = u16 (sum_list_Z (words16 s)).
Proof.
  unfold get_checksum. apply u16_of_mod32. by rewrite checksum_loop_words.
Qed.

(** [get_hashCode]: [int] arithmetic; a signed overflow is undefined. *)
Definition in_int (z : Z) : bool := (-2147483648 <=? z) && (z <=? 2147483647).

Fixpoint hash_loop (h : Z) (s : bytes) : outcome Z :=
  match s with
  | [] => Ret h
  | c :: s' =>
    let hash_code_magic_number := 31 in
    let p := hash_code_magic_number * h in
    if in_int p && in_int (p + schar c) then hash_loop (p + schar c) s' else Undef SignedOverflow
  end.

Definition get_hashCode (s : bytes) : outcome Z := hash_loop 0 s.

End Checksum.

(** ** SendingDataAllocator

    The buffers live in a store of their own, named by their address; both
    lists hold addresses. *)
Module Allocator.
Import Streambuf.

Record SendingDataAllocator := mkAllocator {
  heap : gmap nat bytes;
  allocated : list nat;
  free_bufs : list nat
}.
#[export] Instance eta_allocator : Settable SendingDataAllocator :=
  fun r => mkAllocator (heap r) (allocated r) (free_bufs r).

(** [std::make_shared<streambuf>]: an address not in the store. *)
Definition fresh_addr (h : gmap nat bytes) : nat := fresh (dom h : gset nat).

Definition allocate (a : SendingDataAllocator) (data : bytes)
  : nat * SendingDataAllocator :=
  let '(buf, a) :=
    match free_bufs a with
    | [] => let b := fresh_addr (heap a) in
            (b, a <| heap ::= <[b := []]> |> <| allocated ::= fun l => l ++ [b] |>)
    | b :: rest => (b, a <| free_bufs := rest |>)
    end in
  (buf, a <| heap ::= alter (fun c => fst (append_view c data)) buf |>).

Definition free (a : SendingDataAllocator) (buf : nat) : outcome SendingDataAllocator :=
  let found := bool_decide (buf ∈ allocated a) in
  if negb found then Throw (logic_error "cannot find the buf in SendingDataAllocator!")
  else Ret (a <| heap ::= alter consume_all buf |>
              <| free_bufs ::= fun l => l ++ [buf] |>).

Definition empty_allocator : SendingDataAllocator := mkAllocator ∅ [] [].

(** The buffers on loan: allocated and not in the free list. *)
Definition in_use (a : SendingDataAllocator) (b : nat) : Prop :=
  b ∈ allocated a /\ b ∉ free_bufs a.

Record wf (a : SendingDataAllocator) : Prop := {
  wf_dom : forall b, b ∈ allocated a <-> is_Some (heap a !! b);
  wf_nodup : NoDup (free_bufs a);
  wf_incl : forall b, b ∈ free_bufs a -> b ∈ allocated a;
  wf_empty : forall b, b ∈ free_bufs a -> heap a !! b = Some []
}.

Lemma wf_empty_allocator : wf empty_allocator.
Proof.
  split; cbn; [|constructor|set_solver|set_solver].
  intros b. rewrite lookup_empty. split; [set_solver|]. intros [? ?]; done.
Qed.

(** [allocate] lends a buffer that nobody holds, with exactly the data, and
    leaves the other buffers as they were. *)
Lemma allocate_spec a data b a' :
  wf a -> allocate a data = (b, a') ->
  wf a' /\ ~ in_use a b /\ in_use a' b /\ heap a' !! b = Some data /\
  (forall c, in_use a c -> in_use a' c /\ heap a' !! c = heap a !! c).
Proof.
  intros [Hdom Hnd Hincl Hemp] E. unfold allocate in E.
  destruct (free_bufs a) as [|f rest] eqn:Ef; cbn in E; injection E as <- <-; cbn.
  - set (n := fresh_addr (heap a)).
    assert (Hn : heap a !! n = None).
    { apply not_elem_of_dom. unfold n, fresh_addr. apply (is_fresh (dom (heap a) : gset nat)). }
    assert (Hna : n ∉ allocated a).
    { intros Hin%Hdom. destruct Hin as [? Hin]. congruence. }
    assert (Hb : alter (λ c, (append_view c data).1) n (<[n:=[]]> (heap a)) !! n = Some data).
    { rewrite lookup_alter_eq, lookup_insert_eq. cbn. by rewrite append_view_eq. }
    split_and!; cbn.
    + split; cbn; rewrite ?Ef; [|constructor|set_solver|set_solver].
      intros c. rewrite elem_of_app, list_elem_of_singleton, Hdom.
      destruct (decide (c = n)) as [->|Hc].
      * rewrite Hb. split; eauto.
      * rewrite lookup_alter_ne, lookup_insert_ne by done. naive_solver.
    + intros [? _]; done.
    + split; cbn; rewrite ?Ef; set_solver.
    + done.
    + intros c [Hc1 Hc2]. assert (c <> n) by (intros ->; done).
      split; [split; cbn; rewrite ?Ef; set_solver|].
      by rewrite lookup_alter_ne, lookup_insert_ne by done.
  - apply list.NoDup_cons in Hnd as [Hf Hnd].
    assert (Hb : alter (λ c, (append_view c data).1) f (heap a) !! f = Some data).
    { rewrite lookup_alter_eq, Hemp by set_solver. cbn. by rewrite append_view_eq. }
    split_and!; cbn.
    + split; cbn.
      * intros c. rewrite Hdom. destruct (decide (c = f)) as [->|].
        -- rewrite Hb, Hemp by set_solver. split; eauto.
        -- by rewrite lookup_alter_ne.
      * done.
      * set_solver.
      * intros c Hc. assert (c <> f) by (intros ->; done).
        rewrite lookup_alter_ne by done. set_solver.
    + intros [_ Hno]. rewrite Ef in Hno. set_solver.
    + split; cbn; [set_solver|done].
    + done.
    + intros c [Hc1 Hc2]. rewrite Ef in Hc2. assert (c <> f) by set_solver.
      split; [split; cbn; [done|set_solver]|]. by rewrite lookup_alter_ne.
Qed.

(** [free] of a buffer on loan succeeds, empties it and keeps the invariant. *)
Lemma free_spec a b :
  wf a -> in_use a b ->
  exists a', free a b = Ret a' /\ wf a' /\ ~ in_use a' b /\
  (forall c, c <> b -> in_use a c -> in_use a' c /\ heap a' !! c = heap a !! c).
Proof.
  intros [Hdom Hnd Hincl Hemp] [Hb1 Hb2]. unfold free.
  rewrite bool_decide_true by done. cbn. eexists. split; [done|].
  destruct (proj1 (Hdom b) Hb1) as [d Hd].
  split_and!.
  - split; cbn.
    + intros c. rewrite Hdom, lookup_alter_is_Some. done.
    + apply list.NoDup_app. split; [done|]. split; [set_solver|]. apply NoDup_singleton.
    + set_solver.
    + intros c Hc. destruct (decide (c = b)) as [->|].
      * rewrite lookup_alter_eq, Hd. cbn. by rewrite consume_all_nil.
      * rewrite lookup_alter_ne by done. set_solver.
  - intros [_ Hno]. cbn in Hno. set_solver.
  - intros c Hc [Hc1 Hc2]. split; [split; cbn; set_solver|].
    cbn. by rewrite lookup_alter_ne.
Qed.

Lemma free_unknown a b :
  b ∉ allocated a ->
  free a b = Throw (logic_error "cannot find the buf in SendingDataAllocator!").
Proof. intros H. unfold free. by rewrite bool_decide_false. Qed.

End Allocator.

(** ** ReadBufWithGuard *)
Module ReadBuf.
Import Streambuf.

Record ReadBufWithGuard := mkReadBuf {
  read_buf : bytes;
  read_buf_guard : bool
}.
#[export] Instance eta_readbuf : Settable ReadBufWithGuard :=
  fun r => mkReadBuf (read_buf r) (read_buf_guard r).

Definition new_read_buf : ReadBufWithGuard := mkReadBuf [] false.

Definition rb_consume_all (r : ReadBufWithGuard) : ReadBufWithGuard :=
  r <| read_buf ::= consume_all |>.
Definition rb_consume (r : ReadBufWithGuard) (length : Z) : ReadBufWithGuard :=
  r <| read_buf ::= fun b => consume b length |>.
(** The socket has written [data] in the prepared area; [commit(length)]. *)
Definition rb_commit (r : ReadBufWithGuard) (data : bytes) : ReadBufWithGuard :=
  r <| read_buf ::= fun b => b ++ data |>.
Definition rb_size (r : ReadBufWithGuard) : Z := zlen (read_buf r).

Definition guard_error : exn :=
  logic_error "!! guard_read_buf failed! Cannot enter this function before _guard_read_buf_end  !! ".

Definition begin_read (r : ReadBufWithGuard) : outcome ReadBufWithGuard :=
  if read_buf_guard r then Throw guard_error
  else Ret (r <| read_buf_guard := true |>).
Definition end_read (r : ReadBufWithGuard) : ReadBufWithGuard :=
  r <| read_buf_guard := false |>.

Lemma begin_read_ok r :
  read_buf_guard r = false -> begin_read r = Ret (r <| read_buf_guard := true |>).
Proof. unfold begin_read. by intros ->. Qed.

End ReadBuf.

(** ** bytes_stat *)
Module Stat.

Record bytes_stat := mkStat { recv_len : Z; sent_len : Z }.
#[export] Instance eta_stat : Settable bytes_stat :=
  fun r => mkStat (recv_len r) (sent_len r).

Definition new_stat : bytes_stat := mkStat 0 0.

Definition inc_recv_len (s : bytes_stat) (inc : Z) : bytes_stat :=
  s <| recv_len ::= fun n => u64 (n + inc) |>.
Definition inc_sent_len (s : bytes_stat) (inc : Z) : bytes_stat :=
  s <| sent_len ::= fun n => u64 (n + inc) |>.

End Stat.

(** ** clear_weak_ptr_list *)
Section WeakList.
Context {A : Type} (expired : A -> bool).

(** The erase loop; the result says whether an element was erased. *)
Fixpoint clear_weak_ptr_list (l : list A) : list A * bool :=
  match l with
  | [] => ([], false)
  | x :: l' =>
    let '(rest, changed) := clear_weak_ptr_list l' in
    if expired x then (rest, true) else (x :: rest, changed)
  end.

Lemma clear_weak_ptr_list_spec l :
  (clear_weak_ptr_list l).1 = filter (fun x => expired x = false) l /\
  ((clear_weak_ptr_list l).2 = true <-> exists x, x ∈ l /\ expired x = true).
Proof.
  induction l as [|x l [IH1 IH2]]; cbn [clear_weak_ptr_list].
  - split; [done|]. split; [done|]. intros (x & Hx & _). set_solver.
  - destruct (clear_weak_ptr_list l) as [rest ch]; cbn [fst snd] in *.
    rewrite filter_cons. destruct (expired x) eqn:E; cbn.
    + destruct (decide (true = false)); [done|]. split; [done|].
      split; [intros _; exists x; split; [set_solver|done]|done].
    + destruct (decide (false = false)); [|done]. split; [by rewrite IH1|].
      rewrite IH2. split; intros (y & Hy & Hye); exists y.
      * split; [set_solver|done].
      * apply elem_of_cons in Hy as [->|]; [congruence|done].
Qed.
End WeakList.

(** ** Properties *)

(** [generate_uint16] and [generate_uint32] append the value in network order
    and [parse_uint16] and [parse_uint32] read it back at that position, modulo
    2^16 and 2^32. *)
Theorem uint_codec_roundtrip buf v rest :
  Codec.parse_uint16 (zlen buf) (Codec.generate_uint16 buf v ++ rest) = Ret (u16 v) /\
  Codec.parse_uint32 (zlen buf) (Codec.generate_uint32 buf v ++ rest) = Ret (u32 v).
Proof.
  rewrite Codec.generate_uint16_eq, Codec.generate_uint32_eq, <- !app_assoc.
  by rewrite Codec.parse_uint16_be, Codec.parse_uint32_be.
Qed.

(** A buffer that [SendingDataAllocator::allocate] lends was not lent before,
    holds exactly the data to send, and no other lent buffer changes; returning
    it with [free] succeeds and again changes no other lent buffer. *)
Theorem allocator_lends_and_takes_back a data b a' :
  Allocator.wf a -> Allocator.allocate a data = (b, a') ->
  ~ Allocator.in_use a b /\ Allocator.heap a' !! b = Some data /\
  (forall c, Allocator.in_use a c -> Allocator.heap a' !! c = Allocator.heap a !! c) /\
  exists a'', Allocator.free a' b = Ret a'' /\ Allocator.wf a'' /\ ~ Allocator.in_use a'' b /\
    (forall c, Allocator.in_use a c ->
       Allocator.in_use a'' c /\ Allocator.heap a'' !! c = Allocator.heap a !! c).
Proof.
  intros Hwf Ha. destruct (Allocator.allocate_spec a data b a' Hwf Ha) as (Hwf' & Hb & Hb' & Hd & Hk).
  destruct (Allocator.free_spec a' b Hwf' Hb') as (a'' & Hf & Hwf'' & Hb'' & Hk').
  split_and!; [done|done|intros c Hc; by apply Hk|]. exists a''. split_and!; [done..|].
  intros c Hc. destruct (Hk c Hc) as [Hc' E]. rewrite <- E. apply Hk'; [congruence|done].
Qed.

Lemma allocator_lends_and_takes_back_witness :
  exists a'', Allocator.free (snd (Allocator.allocate Allocator.empty_allocator (str "data")))
    (fst (Allocator.allocate Allocator.empty_allocator (str "data"))) = Ret a'' /\ Allocator.wf a''.
Proof.
  destruct (allocator_lends_and_takes_back Allocator.empty_allocator (str "data") _ _
    Allocator.wf_empty_allocator eq_refl) as (_ & _ & _ & a'' & H & Hwf & _).
  exists a''. split; [exact H|exact Hwf].
Defined.

(** [get_checksum] is the sum, modulo 2^16, of the text's big-endian 16-bit
    words, the last octet of an odd text padded with zero. *)
Theorem checksum_is_word_sum s :
  Checksum.get_checksum s = u16 (Checksum.sum_list_Z (Checksum.words16 s)).
Proof. apply Checksum.get_checksum_words. Qed.
