(* ===== verification/Address.v ===== *)
(** * Addresses and endpoints

    The boost [ip::address] values the program handles, the decimal and
    hexadecimal text of numbers, and the SOCKS5 address of
    [src/src/proto/socks5address.cpp]. *)

From Stdlib Require Import ZArith Lia.
From S2P Require Import Prelude Utils.
Local Open Scope Z_scope.

(** ** Numbers as text *)
Module Text.

Definition digit (z : Z) : byte := z2b (48 + z).

Fixpoint dec_digits (fuel : nat) (z : Z) (acc : bytes) : bytes :=
  match fuel with
  | O => acc
  | S fuel => if z <? 10 then digit z :: acc
              else dec_digits fuel (z / 10) (digit (z mod 10) :: acc)
  end.

(** [std::to_string] of an unsigned value below 2^64 (at most 20 digits). *)
Definition to_string (z : Z) : bytes := dec_digits 20 z [].

Definition hex_digit (z : Z) : byte := if z <? 10 then z2b (48 + z) else z2b (87 + z).

(** [%02x] of a [uint8_t] *)
Definition hex02 (b : byte) : bytes := [hex_digit (b2z b / 16); hex_digit (b2z b mod 16)].

Definition dot : byte := Byte.x2e.
Definition colon : byte := Byte.x3a.

End Text.

(** ** ip::address, udp::endpoint and tcp::endpoint *)
Inductive address :=
| V4 (b0 b1 b2 b3 : byte)
| V6 (b : bytes).

#[export] Instance address_eq_dec : EqDecision address.
Proof. solve_decision. Defined.

Record endpoint := mkEndpoint { ep_address : address; ep_port : Z }.
#[export] Instance endpoint_eq_dec : EqDecision endpoint.
Proof. solve_decision. Defined.

Definition address_bytes (a : address) : bytes :=
  match a with V4 b0 b1 b2 b3 => [b0; b1; b2; b3] | V6 b => b end.

Definition is_unspecified (a : address) : bool :=
  forallb (fun b => b2z b =? 0) (address_bytes a).

Definition address_wf (a : address) : Prop :=
  match a with V4 _ _ _ _ => True | V6 b => zlen b = 16 end.

(** [udp::endpoint()]: the unspecified v4 address and port 0. *)
Definition default_endpoint : endpoint :=
  mkEndpoint (V4 Byte.x00 Byte.x00 Byte.x00 Byte.x00) 0.

(** [address_v4::to_string] *)
Definition v4_to_string (b0 b1 b2 b3 : byte) : bytes :=
  Text.to_string (b2z b0) ++ [Text.dot] ++ Text.to_string (b2z b1) ++ [Text.dot] ++
  Text.to_string (b2z b2) ++ [Text.dot] ++ Text.to_string (b2z b3).

(** ** SOCKS5Address *)
Module Socks5.
Import Streambuf Codec.

Inductive AddressType := IPv4 | DOMAINNAME | IPv6.
#[export] Instance AddressType_eq_dec : EqDecision AddressType.
Proof. solve_decision. Defined.

Definition address_type_value (t : AddressType) : Z :=
  match t with IPv4 => 1 | DOMAINNAME => 3 | IPv6 => 4 end.

Record SOCKS5Address := mkSocks5 {
  address_type : AddressType;
  addr : bytes;
  port : Z
}.

(** [static_cast<AddressType>(data[0])] after the guard on [data[0]] *)
Definition address_type_of (c : Z) : option AddressType :=
  if c =? 1 then Some IPv4 else if c =? 3 then Some DOMAINNAME
  else if c =? 4 then Some IPv6 else None.

Definition hex02_pair (a b : byte) : bytes := Text.hex02 a ++ Text.hex02 b.

(** The text written by [sprintf] in the IPv6 case, without the final NUL. *)
Definition v6_text (b : bytes) : bytes :=
  match b with
  | [b1;b2;b3;b4;b5;b6;b7;b8;b9;b10;b11;b12;b13;b14;b15;b16] =>
    hex02_pair b1 b2 ++ [Text.colon] ++ hex02_pair b3 b4 ++ [Text.colon] ++
    hex02_pair b5 b6 ++ [Text.colon] ++ hex02_pair b7 b8 ++ [Text.colon] ++
    hex02_pair b9 b10 ++ [Text.colon] ++ hex02_pair b11 b12 ++ [Text.colon] ++
    hex02_pair b13 b14 ++ [Text.colon] ++ hex02_pair b15 b16
  | _ => []
  end.

Definition port_of (hi lo : byte) : Z :=
  u16 (Z.lor (Z.shiftl (b2z hi) one_byte_shift_8_bits) (b2z lo)).

(** [SOCKS5Address::parse]: [None] is [false]; otherwise the parsed members and
    [address_len].  The accesses [data[i]] are unchecked. *)
Definition parse (data : bytes) : outcome (option (SOCKS5Address * Z)) :=
  if zlen data =? 0 then Ret None else
  let! c := at_ data 0 in
  match address_type_of (schar c) with
  | None => Ret None
  | Some IPv4 =>
    if 4 + 2 <? zlen data then
      let! d1 := at_ data 1 in let! d2 := at_ data 2 in
      let! d3 := at_ data 3 in let! d4 := at_ data 4 in
      let! d5 := at_ data 5 in let! d6 := at_ data 6 in
      Ret (Some (mkSocks5 IPv4 (v4_to_string d1 d2 d3 d4) (port_of d5 d6), 1 + 4 + 2))
    else Ret None
  | Some DOMAINNAME =>
    let! d1 := at_ data 1 in
    let domain_len := b2z d1 in
    if domain_len =? 0 then Ret None
    else if 1 + domain_len + 2 <? zlen data then
      let! name := substr data 2 domain_len in
      let! hi := at_ data (domain_len + 2) in
      let! lo := at_ data (domain_len + 3) in
      Ret (Some (mkSocks5 DOMAINNAME name (port_of hi lo), 1 + 1 + domain_len + 2))
    else Ret None
  | Some IPv6 =>
    if 16 + 2 <? zlen data then
      let! b1 := at_ data 1 in let! b2 := at_ data 2 in
      let! b3 := at_ data 3 in let! b4 := at_ data 4 in
      let! b5 := at_ data 5 in let! b6 := at_ data 6 in
      let! b7 := at_ data 7 in let! b8 := at_ data 8 in
      let! b9 := at_ data 9 in let! b10 := at_ data 10 in
      let! b11 := at_ data 11 in let! b12 := at_ data 12 in
      let! b13 := at_ data 13 in let! b14 := at_ data 14 in
      let! b15 := at_ data 15 in let! b16 := at_ data 16 in
      let! hi := at_ data 17 in let! lo := at_ data 18 in
      Ret (Some (mkSocks5 IPv6
        (v6_text [b1;b2;b3;b4;b5;b6;b7;b8;b9;b10;b11;b12;b13;b14;b15;b16])
        (port_of hi lo), 1 + 16 + 2))
    else Ret None
  end.

Definition unspecified_address : bytes :=
  [Byte.x01; Byte.x00; Byte.x00; Byte.x00; Byte.x00; Byte.x00; Byte.x00].

(** [SOCKS5Address::generate] *)
Definition generate (buf : bytes) (ep : endpoint) : bytes :=
  if is_unspecified (ep_address ep) then fst (append_string buf unspecified_address)
  else
    let buf :=
      match ep_address ep with
      | V4 b0 b1 b2 b3 =>
        let buf := fst (append_char buf Byte.x01) in
        fst (append_data buf (Some [b0; b1; b2; b3]) 4)
      | V6 b =>
        let buf := fst (append_char buf Byte.x04) in
        fst (append_data buf (Some b) 16)
      end in
    let buf := fst (append_char buf (z2b (Z.shiftr (ep_port ep) one_byte_shift_8_bits))) in
    fst (append_char buf (z2b (Z.land (ep_port ep) one_byte_mask_0xFF))).

(** *** The wire form of an address

    The octets of an address, as RFC 1928 writes them; [parse] is the reader of
    this grammar. *)
Inductive wire : SOCKS5Address -> bytes -> Prop :=
| wire_v4 d1 d2 d3 d4 hi lo :
  wire (mkSocks5 IPv4 (v4_to_string d1 d2 d3 d4) (port_of hi lo))
    [Byte.x01; d1; d2; d3; d4; hi; lo]
| wire_domain name hi lo :
  1 <= zlen name <= 255 ->
  wire (mkSocks5 DOMAINNAME name (port_of hi lo))
    (Byte.x03 :: z2b (zlen name) :: name ++ [hi; lo])
| wire_v6 b hi lo :
  zlen b = 16 ->
  wire (mkSocks5 IPv6 (v6_text b) (port_of hi lo)) (Byte.x04 :: b ++ [hi; lo]).
#[local] Hint Constructors wire : core.

Lemma wire_length a w : wire a w -> 5 <= zlen w <= 259.
Proof. intros H. inversion H; subst; zlen_lia. Qed.

Lemma port_of_range hi lo : 0 <= port_of hi lo < 65536.
Proof. apply u16_range. Qed.

Lemma wire_port a w : wire a w -> 0 <= port a < 65536.
Proof. intros H. inversion H; subst; apply port_of_range. Qed.

Lemma zlen_16 (b : bytes) : zlen b = 16 ->
  exists b1 b2 b3 b4 b5 b6 b7 b8 b9 b10 b11 b12 b13 b14 b15 b16,
    b = [b1;b2;b3;b4;b5;b6;b7;b8;b9;b10;b11;b12;b13;b14;b15;b16].
Proof.
  unfold zlen. intros H.
  do 16 (destruct b as [|? b]; [cbn in H; lia|]).
  destruct b; [|cbn in H; lia]. by do 16 eexists.
Qed.

Lemma schar_nonneg b : 0 <= schar b -> schar b = b2z b.
Proof. unfold schar. pose proof (b2z_range b). destruct (Z.ltb_spec (b2z b) 128); lia. Qed.

Lemma address_type_of_Some b t :
  address_type_of (schar b) = Some t -> b = z2b (address_type_value t).
Proof.
  unfold address_type_of. intros H. apply b2z_inj. rewrite b2z_z2b.
  destruct (Z.eqb_spec (schar b) 1); [|destruct (Z.eqb_spec (schar b) 3);
    [|destruct (Z.eqb_spec (schar b) 4); [|done]]];
    injection H as <-; rewrite <- schar_nonneg by lia; assumption.
Qed.

(** [parse] accepts the wire form followed by anything. *)
Lemma socks5_parse_wire a w rest : wire a w -> parse (w ++ rest) = Ret (Some (a, zlen w)).
Proof.
  intros H. inversion H; subst; clear H.
  - unfold parse. cbn [app]. set (data := Byte.x01 :: _).
    assert (Hl : zlen data = 7 + zlen rest) by (unfold data; zlen_lia).
    destruct (Z.eqb_spec (zlen data) 0); [zlen_lia|].
    change (at_ data 0) with (Ret Byte.x01). cbn [obind].
    change (address_type_of _) with (Some IPv4). cbv beta iota.
    destruct (Z.ltb_spec (4 + 2) (zlen data)); [done|zlen_lia].
  - unfold parse. cbn [app]. rewrite <- app_assoc.
    set (data := Byte.x03 :: z2b (zlen name) :: name ++ [hi; lo] ++ rest).
    assert (Hl : zlen data = 4 + zlen name + zlen rest) by (unfold data; zlen_lia).
    destruct (Z.eqb_spec (zlen data) 0); [zlen_lia|].
    change (at_ data 0) with (Ret Byte.x03). cbn [obind].
    change (address_type_of _) with (Some DOMAINNAME). cbv beta iota.
    change (at_ data 1) with (Ret (z2b (zlen name))). cbn [obind].
    rewrite b2z_z2b, u8_small by lia.
    destruct (Z.eqb_spec (zlen name) 0); [lia|].
    destruct (Z.ltb_spec (1 + zlen name + 2) (zlen data)); [|zlen_lia].
    rewrite substr_ok by zlen_lia. cbn [obind].
    assert (Ha : forall i, 0 <= i < zlen name + 2 -> at_ data (2 + i) = at_ (name ++ [hi; lo] ++ rest) i).
    { intros i Hi. unfold data. rewrite !at_cons_pos by zlen_lia. f_equal. lia. }
    rewrite (Z.add_comm (zlen name) 2), Ha, (at_app_r name) by zlen_lia.
    replace (zlen name + 3) with (2 + (zlen name + 1)) by lia.
    rewrite Ha, (at_app_r name) by zlen_lia.
    replace (zlen name - zlen name) with 0 by lia.
    replace (zlen name + 1 - zlen name) with 1 by lia.
    change (sub_ data 2 (zlen name)) with (sub_ (name ++ [hi; lo] ++ rest) 0 (zlen name)).
    unfold sub_. change (drop (Z.to_nat 0) ?l) with l. rewrite take_zlen_app' by done.
    cbn [obind]. change (at_ ([hi; lo] ++ rest) 0) with (Ret hi).
    change (at_ ([hi; lo] ++ rest) 1) with (Ret lo). cbn [obind].
    do 3 f_equal. autorewrite with zlen. zlen_lia.
  - apply zlen_16 in H0 as (b1&b2&b3&b4&b5&b6&b7&b8&b9&b10&b11&b12&b13&b14&b15&b16&->).
    unfold parse. cbn [app].
    set (data := Byte.x04 :: _).
    assert (Hl : zlen data = 19 + zlen rest) by (unfold data; zlen_lia).
    destruct (Z.eqb_spec (zlen data) 0); [zlen_lia|].
    change (at_ data 0) with (Ret Byte.x04). cbn [obind].
    change (address_type_of _) with (Some IPv6). cbv beta iota.
    destruct (Z.ltb_spec (16 + 2) (zlen data)); [done|zlen_lia].
Qed.

Lemma socks5_parse_inv data r :
  parse data = Ret r ->
  match r with
  | Some (a, n) => exists w rest, data = w ++ rest /\ wire a w /\ n = zlen w
  | None => True
  end.
Proof.
  unfold parse. destruct (Z.eqb_spec (zlen data) 0); [by intros [= <-]|].
  intros H. apply obind_Ret in H as (c & Hc & H).
  destruct (address_type_of (schar c)) as [[]|] eqn:Ht; [| | |by injection H as <-];
    apply address_type_of_Some in Ht as ->.
  - destruct (Z.ltb_spec (4 + 2) (zlen data)); [|by injection H as <-].
    do 7 (destruct data as [|? data]; [exfalso; zlen_lia|]).
    cbn in Hc. injection Hc as ->. injection H as <-.
    eexists [_;_;_;_;_;_;_], data. split_and!; [done|constructor|done].
  - apply obind_Ret in H as (d1 & Hd & H).
    destruct (Z.eqb_spec (b2z d1) 0); [by injection H as <-|].
    destruct (Z.ltb_spec (1 + b2z d1 + 2) (zlen data)); [|by injection H as <-].
    pose proof (b2z_range d1).
    destruct data as [|x [|y data]]; [exfalso; zlen_lia|exfalso; zlen_lia|].
    injection Hc as ->. injection Hd as ->.
    rewrite substr_ok in H by zlen_lia. cbn [obind] in H.
    apply obind_Ret in H as (hi & Hhi & H). apply obind_Ret in H as (lo & Hlo & H).
    injection H as <-.
    set (k := b2z d1) in *. pose proof (b2z_range d1) as Hr. fold k in Hr.
    rewrite !at_cons_pos in Hhi, Hlo by zlen_lia.
    set (name := take (Z.to_nat k) data).
    assert (Hn : zlen name = k).
    { unfold name, zlen. rewrite length_take. revert H0. rewrite !zlen_cons. unfold zlen. lia. }
    assert (Hdata : data = name ++ [hi; lo] ++ drop 2 (drop (Z.to_nat k) data)).
    { rewrite <- (take_drop (Z.to_nat k) data) at 1. fold name. f_equal.
      apply at_Some in Hhi as [_ Hhi]. apply at_Some in Hlo as [_ Hlo].
      rewrite <- (take_drop 2 (drop (Z.to_nat k) data)) at 1. f_equal.
      erewrite take_S_r; [erewrite take_S_r; [by rewrite take_0|]|].
      all: rewrite lookup_drop.
      - replace (Z.to_nat k + 0)%nat with (Z.to_nat (k + 2 - 1 - 1)) by lia. done.
      - replace (Z.to_nat k + 1)%nat with (Z.to_nat (k + 3 - 1 - 1)) by lia. done. }
    exists (Byte.x03 :: z2b k :: name ++ [hi; lo]), (drop 2 (drop (Z.to_nat k) data)).
    split_and!.
    + cbn [app]. rewrite <- app_assoc. unfold k at 1. rewrite z2b_b2z. by rewrite <- Hdata.
    + change (sub_ _ 2 k) with name. rewrite <- Hn. constructor. lia.
    + zlen_lia.
  - destruct (Z.ltb_spec (16 + 2) (zlen data)); [|by injection H as <-].
    do 19 (destruct data as [|? data]; [exfalso; zlen_lia|]).
    cbn in Hc. injection Hc as ->. injection H as <-.
    eexists (Byte.x04 :: [_;_;_;_;_;_;_;_;_;_;_;_;_;_;_;_] ++ [_;_]), data.
    split_and!; [cbn [app]; done| |done].
    apply (wire_v6 [_;_;_;_;_;_;_;_;_;_;_;_;_;_;_;_]). done.
Qed.

Lemma socks5_parse_Some data a n :
  parse data = Ret (Some (a, n)) <->
  exists w rest, data = w ++ rest /\ wire a w /\ n = zlen w.
Proof.
  split.
  - intros H. apply socks5_parse_inv in H. exact H.
  - intros (w & rest & -> & Hw & ->). by apply socks5_parse_wire.
Qed.

(** Apart from the one-octet view [03], whose [data[1]] lies outside the view,
    [parse] reads inside the view and returns. *)
Lemma socks5_parse_total data :
  (data = [Byte.x03] /\ parse data = Undef octet03) \/
  (data <> [Byte.x03] /\ exists r, parse data = Ret r).
Proof.
  unfold parse. destruct (Z.eqb_spec (zlen data) 0) as [E|Hne].
  { right. apply zlen_zero in E as ->. split; [done|eauto]. }
  pose proof (zlen_nonneg data).
  destruct (at_defined data 0) as [c Hc]; [lia|]. rewrite Hc. cbn [obind].
  destruct (address_type_of (schar c)) as [[]|] eqn:Ht; cycle 3.
  { right. split; [|eauto]. intros ->. injection Hc as <-. by vm_compute in Ht. }
  all: apply address_type_of_Some in Ht as ->.
  - right. split; [intros ->; discriminate Hc|].
    destruct (Z.ltb_spec (4 + 2) (zlen data)); [|eauto].
    do 6 (edestruct (at_defined data) as [? ->]; [split; [|lia]; lia|]; cbn [obind]). eauto.
  - destruct (decide (zlen data = 1)) as [E1|E1].
    + left. destruct data as [|x [|y data]]; [done| |exfalso; zlen_lia].
      injection Hc as ->. done.
    + right. split; [intros ->; done|].
      destruct (at_defined data 1) as [d1 Hd1]; [lia|]. rewrite Hd1. cbn [obind].
      destruct (Z.eqb_spec (b2z d1) 0); [eauto|]. pose proof (b2z_range d1).
      destruct (Z.ltb_spec (1 + b2z d1 + 2) (zlen data)); [|eauto].
      rewrite substr_ok by lia. cbn [obind].
      destruct (at_defined data (b2z d1 + 2)) as [? ->]; [lia|]. cbn [obind].
      destruct (at_defined data (b2z d1 + 3)) as [? ->]; [lia|]. cbn [obind]. eauto.
  - right. split; [intros ->; discriminate Hc|].
    destruct (Z.ltb_spec (16 + 2) (zlen data)); [|eauto].
    do 18 (edestruct (at_defined data) as [? ->]; [split; [|lia]; lia|]; cbn [obind]). eauto.
Qed.

(** The value [generate] writes for an endpoint. *)
Definition socks5_of_endpoint (ep : endpoint) : SOCKS5Address :=
  if is_unspecified (ep_address ep) then mkSocks5 IPv4 (str "0.0.0.0") 0 else
  match ep_address ep with
  | V4 b0 b1 b2 b3 => mkSocks5 IPv4 (v4_to_string b0 b1 b2 b3) (ep_port ep)
  | V6 b => mkSocks5 IPv6 (v6_text b) (ep_port ep)
  end.

Lemma port_of_be p : 0 <= p < 65536 -> port_of (z2b (p / 256)) (z2b p) = p.
Proof.
  intros. unfold port_of, one_byte_shift_8_bits.
  rewrite lor_shiftl_add by (try lia; apply b2z_range).
  rewrite !b2z_z2b. unfold u8, u16. Z.div_mod_to_equations. lia.
Qed.

Lemma generate_port buf p :
  0 <= p < 65536 ->
  fst (append_char (fst (append_char buf (z2b (Z.shiftr p one_byte_shift_8_bits))))
    (z2b (Z.land p one_byte_mask_0xFF))) = buf ++ [z2b (p / 256); z2b p].
Proof.
  intros. unfold append_char, one_byte_mask_0xFF, one_byte_shift_8_bits. cbn [fst].
  rewrite <- app_assoc, z2b_land, shiftr_div by lia. done.
Qed.

Lemma socks5_generate_wire buf ep :
  address_wf (ep_address ep) -> 0 <= ep_port ep < 65536 ->
  exists w, generate buf ep = buf ++ w /\ wire (socks5_of_endpoint ep) w.
Proof.
  intros Hwf Hp. unfold generate, socks5_of_endpoint.
  destruct (is_unspecified (ep_address ep)) eqn:Hu.
  - exists unspecified_address. split; [done|].
    apply (wire_v4 Byte.x00 Byte.x00 Byte.x00 Byte.x00 Byte.x00 Byte.x00).
  - destruct ep as [[b0 b1 b2 b3|b] p]; cbn [ep_address ep_port] in *.
    + rewrite generate_port, append_data_eq by done. unfold append_char. cbn [fst].
      exists [Byte.x01; b0; b1; b2; b3; z2b (p / 256); z2b p]. split.
      * rewrite <- !app_assoc. done.
      * rewrite <- (port_of_be p) at 1 by done. constructor.
    + cbn in Hwf. rewrite generate_port, append_data_eq by done.
      unfold append_char. cbn [fst].
      exists (Byte.x04 :: b ++ [z2b (p / 256); z2b p]). split.
      * rewrite <- !app_assoc. done.
      * rewrite <- (port_of_be p) at 1 by done. by constructor.
Qed.

(** The IPv6 text fits the [char t[40]] of the source with its final NUL. *)
Lemma v6_text_length b : zlen b = 16 -> zlen (v6_text b) = 39.
Proof.
  intros (b1&b2&b3&b4&b5&b6&b7&b8&b9&b10&b11&b12&b13&b14&b15&b16&->)%zlen_16. done.
Qed.

End Socks5.

(** ** Properties *)

(** C30: [SOCKS5Address::parse] accepts a view exactly when it begins with an
    address of the grammar (IPv4, name of 1 to 255 octets, or IPv6, each with a
    port), returns that address, and reports the length of exactly its
    encoding. *)
Theorem socks5_parse_iff_grammar data a n :
  Socks5.parse data = Ret (Some (a, n)) <->
  exists w rest, data = w ++ rest /\ Socks5.wire a w /\ n = zlen w.
Proof. apply Socks5.socks5_parse_Some. Qed.

(** [SOCKS5Address::parse] returns on every view but the one octet [03]: the
    only input on which it reads outside the view it was given. *)
Theorem socks5_parse_reads_outside_once data :
  (data = [Byte.x03] -> Socks5.parse data = Undef (OutOfView data 1)) /\
  (data <> [Byte.x03] -> returns (Socks5.parse data)).
Proof.
  destruct (Socks5.socks5_parse_total data) as [[-> ->]|[Hn [r ->]]]; [done|].
  split; [done|]. intros _. by exists r.
Qed.

(** An endpoint written by [SOCKS5Address::generate] after whatever the
    buffer holds is read back by [parse], whatever follows it: its text, its
    port (0 when the address is unspecified) and the length of its encoding. *)
Theorem socks5_endpoint_roundtrip buf ep rest :
  address_wf (ep_address ep) -> 0 <= ep_port ep < 65536 ->
  exists w, Socks5.generate buf ep = buf ++ w /\
    Socks5.parse (w ++ rest) = Ret (Some (Socks5.socks5_of_endpoint ep, zlen w)).
Proof.
  intros Ha Hp. destruct (Socks5.socks5_generate_wire buf ep Ha Hp) as (w & -> & Hw).
  exists w. split; [done|]. by apply Socks5.socks5_parse_wire.
Qed.

Lemma socks5_endpoint_roundtrip_witness :
  exists w, Socks5.generate [Byte.x05] (mkEndpoint (V4 Byte.x7f Byte.x00 Byte.x00 Byte.x01) 8080)
      = [Byte.x05] ++ w /\
    Socks5.parse (w ++ str "rest") =
      Ret (Some (Socks5.mkSocks5 Socks5.IPv4 (str "127.0.0.1") 8080, zlen w)).
Proof.
  exact (socks5_endpoint_roundtrip [Byte.x05]
    (mkEndpoint (V4 Byte.x7f Byte.x00 Byte.x00 Byte.x01) 8080) (str "rest") Logic.I ltac:(cbn; lia)).
Defined.
