(* ===== verification/Trojan.v ===== *)
(** * The trojan request

    [src/src/proto/trojanrequest.cpp]: the first message of a connection, with
    its password, command, target and payload. *)

From Stdlib Require Import ZArith Lia.
From S2P Require Import Prelude Utils Address.
Local Open Scope Z_scope.

(** ** TrojanRequest *)
Module TrojanRequest.
Import Streambuf Codec.

Inductive Command := CONNECT | UDP_ASSOCIATE.
#[export] Instance Command_eq_dec : EqDecision Command.
Proof. solve_decision. Defined.

Definition command_value (c : Command) : Z :=
  match c with CONNECT => 1 | UDP_ASSOCIATE => 3 end.

Definition command_of (c : Z) : option Command :=
  if c =? 1 then Some CONNECT else if c =? 3 then Some UDP_ASSOCIATE else None.

Record TrojanRequest := mkTrojanRequest {
  password : bytes;
  command : Command;
  req_address : Socks5.SOCKS5Address;
  payload : bytes
}.

(** [TrojanRequest::parse]: the returned [int] and, when it is not -1, the
    members. *)
Definition parse (data : bytes) : outcome (Z * option TrojanRequest) :=
  match find_ CRLF data with
  | None => Ret (-1, None)
  | Some first =>
    let! password := substr data 0 first in
    let! payload := substr_from data (first + 2) in
    if zlen payload =? 0 then Ret (-1, None) else
    let! c := at_ payload 0 in
    match command_of (schar c) with
    | None => Ret (-1, None)
    | Some command =>
      let! rest := substr_from payload 1 in
      let! r := Socks5.parse rest in
      match r with
      | None => Ret (-1, None)
      | Some (address, address_len) =>
        if zlen payload <? address_len + 3 then Ret (-1, None) else
        let! sep := substr payload (address_len + 1) 2 in
        if negb (bool_decide (sep = CRLF)) then Ret (-1, None) else
        let! payload := substr_from payload (address_len + 3) in
        Ret (i32 (zlen data), Some (mkTrojanRequest password command address payload))
      end
    end
  end.

(** [TrojanRequest::generate] *)
Definition generate (password domainname : bytes) (port : Z) (tcp : bool) : bytes :=
  let ret := password ++ CRLF in
  let ret := if tcp then ret ++ [Byte.x01] else ret ++ [Byte.x03] in
  let ret := ret ++ [Byte.x03] in
  let ret := ret ++ [z2b (zlen domainname)] in
  let ret := ret ++ domainname in
  let ret := ret ++ [z2b (Z.shiftr port one_byte_shift_8_bits)] in
  let ret := ret ++ [z2b (Z.land port one_byte_mask_0xFF)] in
  ret ++ CRLF.

(** The request's grammar. *)
Definition wire (r : TrojanRequest) (w : bytes) : Prop :=
  find_ CRLF (password r) = None /\
  exists aw, Socks5.wire (req_address r) aw /\
  w = password r ++ CRLF ++ [z2b (command_value (command r))] ++ aw ++ CRLF ++ payload r.

Lemma command_of_Some b c : command_of (schar b) = Some c <-> b = z2b (command_value c).
Proof.
  unfold command_of. split.
  - intros H. apply b2z_inj. rewrite b2z_z2b.
    destruct (Z.eqb_spec (schar b) 1); [|destruct (Z.eqb_spec (schar b) 3); [|done]];
      injection H as <-; rewrite <- Socks5.schar_nonneg by lia; assumption.
  - intros ->. by destruct c.
Qed.

Lemma request_parse_wire r w : wire r w -> parse w = Ret (i32 (zlen w), Some r).
Proof.
  intros (Hp & aw & Ha & E). unfold parse. subst w.
  rewrite find_crlf by done.
  pose proof (Socks5.wire_length _ _ Ha).
  rewrite substr_ok by zlen_lia. cbn [obind].
  unfold sub_. change (drop (Z.to_nat 0) ?l) with l. rewrite take_zlen_app' by done.
  rewrite substr_from_ok by (change (zlen CRLF) with 2; zlen_lia). cbn [obind].
  rewrite app_assoc, (drop_zlen_app' (password r ++ CRLF)) by zlen_lia.
  set (pl := [z2b (command_value (command r))] ++ aw ++ CRLF ++ payload r).
  assert (Hl : zlen pl = 3 + zlen aw + zlen (payload r)) by (unfold pl; zlen_lia).
  destruct (Z.eqb_spec (zlen pl) 0); [zlen_lia|].
  change (at_ pl 0) with (Ret (z2b (command_value (command r)))). cbn [obind].
  rewrite (proj2 (command_of_Some _ _) eq_refl).
  rewrite substr_from_ok by zlen_lia. cbn [obind].
  change (drop (Z.to_nat 1) pl) with (aw ++ CRLF ++ payload r).
  rewrite (Socks5.socks5_parse_wire _ _ _ Ha). cbn [obind].
  destruct (Z.ltb_spec (zlen pl) (zlen aw + 3)); [zlen_lia|].
  rewrite substr_ok by zlen_lia. cbn [obind].
  replace (sub_ pl (zlen aw + 1) 2) with CRLF.
  2:{ symmetry. apply (sub_app ([z2b (command_value (command r))] ++ aw) CRLF (payload r));
      zlen_lia. }
  rewrite bool_decide_true by done. cbn [negb].
  rewrite substr_from_ok by zlen_lia. cbn [obind].
  replace (drop (Z.to_nat (zlen aw + 3)) pl) with (payload r).
  - by destruct r.
  - symmetry.
    replace pl with (([z2b (command_value (command r))] ++ aw ++ CRLF) ++ payload r)
      by (unfold pl; by rewrite <- !app_assoc).
    apply drop_zlen_app'. zlen_lia.
Qed.

(** What a successful parse has read. *)
Lemma find_crlf_inv data i :
  find_ CRLF data = Some i ->
  exists pw rest, data = pw ++ CRLF ++ rest /\ i = zlen pw /\ find_ CRLF pw = None.
Proof.
  revert i. induction data as [|d ds IH]; intros i; cbn [find_]; [done|].
  destruct (is_prefix CRLF (d :: ds)) eqn:E.
  - intros [= <-]. apply is_prefix_spec in E as [rest ->]. by exists [], rest.
  - destruct (find_ CRLF ds) as [j|] eqn:F; [|done]. intros [= <-].
    destruct (IH j eq_refl) as (pw & rest & -> & -> & Hno).
    exists (d :: pw), rest. split_and!; [done|rewrite zlen_cons; lia|].
    cbn [find_]. destruct (is_prefix CRLF (d :: pw)) eqn:E2.
    + apply is_prefix_spec in E2 as [r2 [= -> ->]].
      rewrite (proj2 (is_prefix_spec _ _)) in E; [done|]. by eexists.
    + by rewrite Hno.
Qed.

Lemma request_parse_inv data v r : parse data = Ret (v, Some r) -> wire r data.
Proof.
  unfold parse. destruct (find_ CRLF data) as [i|] eqn:Hf; [|done].
  apply find_crlf_inv in Hf as (pw & rest & -> & -> & Hno).
  rewrite substr_ok by zlen_lia. cbn [obind].
  unfold sub_. change (drop (Z.to_nat 0) ?l) with l. rewrite take_zlen_app' by done.
  rewrite substr_from_ok by zlen_lia. cbn [obind].
  rewrite app_assoc, (drop_zlen_app' (pw ++ CRLF)) by zlen_lia.
  destruct (Z.eqb_spec (zlen rest) 0); [done|].
  destruct rest as [|c rest]; [done|]. rewrite at_cons_0. cbn [obind].
  destruct (command_of (schar c)) as [cmd|] eqn:Hc; [|done].
  rewrite substr_from_ok by zlen_lia. cbn [obind].
  change (drop (Z.to_nat 1) (c :: rest)) with rest. intros H.
  apply obind_Ret in H as ([[a n']|] & Ha & H); [|done].
  apply Socks5.socks5_parse_Some in Ha as (aw & rest' & -> & Haw & ->).
  destruct (Z.ltb_spec (zlen (c :: aw ++ rest')) (zlen aw + 3)); [done|].
  rewrite substr_ok in H by zlen_lia. cbn [obind] in H.
  case_bool_decide as Hsep; [|done]. cbn [negb] in H.
  rewrite substr_from_ok in H by zlen_lia. cbn [obind] in H.
  injection H as _ <-. apply command_of_Some in Hc as ->.
  split; [done|]. exists aw. cbn [password command req_address payload].
  split; [done|]. rewrite <- app_assoc. do 3 f_equal.
  assert (Hd : forall k, drop (Z.to_nat (zlen aw + 1 + Z.of_nat k))
      (z2b (command_value cmd) :: aw ++ rest') = drop k rest').
  { intros k. change (?c :: aw ++ rest') with (([c] ++ aw) ++ rest').
    replace (Z.to_nat (zlen aw + 1 + Z.of_nat k))
      with (length ([z2b (command_value cmd)] ++ aw) + k)%nat
      by (rewrite length_app; unfold zlen; cbn; lia).
    by rewrite <- drop_drop, drop_app_length. }
  replace (zlen aw + 3) with (zlen aw + 1 + Z.of_nat 2) by lia. rewrite Hd.
  f_equal. rewrite <- (take_drop 2 rest') at 1. f_equal.
  unfold sub_ in Hsep. replace (zlen aw + 1) with (zlen aw + 1 + Z.of_nat 0) in Hsep by lia.
  rewrite Hd in Hsep. exact Hsep.
Qed.

Definition tcp_command (tcp : bool) : Command := if tcp then CONNECT else UDP_ASSOCIATE.

Lemma request_generate_eq password domainname port tcp :
  generate password domainname port tcp =
  password ++ CRLF ++ [z2b (command_value (tcp_command tcp))] ++
  (Byte.x03 :: z2b (zlen domainname) :: domainname ++ [z2b (port / 256); z2b port]) ++ CRLF.
Proof.
  unfold generate. rewrite shiftr_div by (vm_compute; discriminate).
  change (2 ^ one_byte_shift_8_bits) with 256.
  unfold one_byte_mask_0xFF. rewrite z2b_land.
  destruct tcp; rewrite <- !app_assoc; cbn [app]; rewrite <- ?app_assoc; done.
Qed.

Lemma request_generate_wire pw domainname port tcp payload :
  find_ CRLF pw = None -> 1 <= zlen domainname <= 255 -> 0 <= port < 65536 ->
  wire (mkTrojanRequest pw (tcp_command tcp)
          (Socks5.mkSocks5 Socks5.DOMAINNAME domainname port) payload)
       (generate pw domainname port tcp ++ payload).
Proof.
  intros Hp Hd Hport. split; [done|]. cbn [password command req_address TrojanRequest.payload].
  eexists. split.
  - rewrite <- (Socks5.port_of_be port) at 1 by done. by constructor.
  - rewrite request_generate_eq, <- !app_assoc. done.
Qed.

Lemma parse_None data v : parse data = Ret (v, None) -> v = -1.
Proof.
  unfold parse. destruct (find_ CRLF data); [|congruence].
  intros (pw & _ & H)%obind_Ret. apply obind_Ret in H as (pl & _ & H).
  destruct (_ =? 0); [congruence|]. apply obind_Ret in H as (c & _ & H).
  destruct (command_of _); [|congruence]. apply obind_Ret in H as (rest & _ & H).
  apply obind_Ret in H as ([[a n]|] & _ & H); [|congruence].
  destruct (_ <? _); [congruence|]. apply obind_Ret in H as (sep & _ & H).
  destruct (negb _); [congruence|]. apply obind_Ret in H as (p & _ & H). congruence.
Qed.

(** The parser returns on every input but one shape: the one-octet address
    [03] right after the command, where [SOCKS5Address::parse] reads past the
    end of the view. *)
Lemma request_parse_total data :
  (exists pw c, data = pw ++ CRLF ++ [c; Byte.x03] /\ parse data = Undef octet03) \/
  returns (parse data).
Proof.
  unfold parse, returns. destruct (find_ CRLF data) as [i|] eqn:Hf; [|eauto].
  apply find_crlf_inv in Hf as (pw & rest & -> & -> & Hno).
  rewrite substr_ok by zlen_lia. cbn [obind].
  rewrite substr_from_ok by zlen_lia. cbn [obind].
  rewrite app_assoc, (drop_zlen_app' (pw ++ CRLF)) by zlen_lia.
  destruct (Z.eqb_spec (zlen rest) 0); [eauto|].
  destruct rest as [|c rest]; [done|]. rewrite at_cons_0. cbn [obind].
  destruct (command_of (schar c)) as [cmd|] eqn:Hc; [|eauto].
  rewrite substr_from_ok by zlen_lia. cbn [obind].
  change (drop (Z.to_nat 1) (c :: rest)) with rest.
  destruct (Socks5.socks5_parse_total rest) as [[-> ->]|[_ [r ->]]].
  { left. exists pw, c. split; [by rewrite <- app_assoc|done]. }
  right. cbn [obind]. destruct r as [[a n']|]; [|eauto].
  destruct (Z.ltb_spec (zlen (c :: rest)) (n' + 3)); [eauto|].
  rewrite substr_ok by zlen_lia. cbn [obind].
  destruct (negb _); [eauto|].
  rewrite substr_from_ok by zlen_lia. cbn [obind]. eauto.
Qed.

End TrojanRequest.

Lemma Trojan_parse_nothrow d e : TrojanRequest.parse d <> Throw e.
Proof. destruct (TrojanRequest.request_parse_total d) as [(pw & c & _ & ->)|[r ->]]; done. Qed.
Lemma Trojan_parse_octet03 d u : TrojanRequest.parse d = Undef u -> u = octet03.
Proof.
  destruct (TrojanRequest.request_parse_total d) as [(pw & c & _ & ->)|[r ->]]; [|done].
  by intros [= <-].
Qed.

(** ** Properties *)

(** The request [TrojanRequest::generate] writes, followed by any payload, is
    read back by [parse]: password, command, target name, port and payload. *)
Theorem trojan_request_roundtrip pw domainname port tcp payload :
  find_ CRLF pw = None -> 1 <= zlen domainname <= 255 -> 0 <= port < 65536 ->
  let text := TrojanRequest.generate pw domainname port tcp ++ payload in
  TrojanRequest.parse text = Ret (i32 (zlen text), Some
    (TrojanRequest.mkTrojanRequest pw (TrojanRequest.tcp_command tcp)
       (Socks5.mkSocks5 Socks5.DOMAINNAME domainname port) payload)).
Proof.
  intros Hpw Hd Hp. by apply TrojanRequest.request_parse_wire, TrojanRequest.request_generate_wire.
Qed.

Lemma trojan_request_roundtrip_witness :
  TrojanRequest.parse (TrojanRequest.generate (str "pw") (str "a.com") 443 true ++ str "GET") =
  Ret (19, Some (TrojanRequest.mkTrojanRequest (str "pw") TrojanRequest.CONNECT
    (Socks5.mkSocks5 Socks5.DOMAINNAME (str "a.com") 443) (str "GET"))).
Proof.
  exact (trojan_request_roundtrip (str "pw") (str "a.com") 443 true (str "GET")
    eq_refl ltac:(vm_compute; split; discriminate) ltac:(lia)).
Defined.

(** C29: [TrojanRequest::parse] accepts exactly the requests of the grammar: a
    password without CR LF, CR LF, command 1 or 3, an address, CR LF and the
    payload. *)
Theorem trojan_parse_iff_grammar data r :
  (exists v, TrojanRequest.parse data = Ret (v, Some r)) <-> TrojanRequest.wire r data.
Proof.
  split.
  - intros [v H]. by eapply TrojanRequest.request_parse_inv.
  - intros H. eexists. by apply TrojanRequest.request_parse_wire.
Qed.
