(* ===== verification/UdpPacket.v ===== *)
(** * The UDP packet

    [src/src/proto/udppacket.cpp]: the framing of relayed UDP datagrams in the
    stream. *)

From Stdlib Require Import ZArith Lia.
From S2P Require Import Prelude Utils Address.
Local Open Scope Z_scope.

(** ** UDPPacket *)
Module UDPPacket.
Import Streambuf Codec.

Record UDPPacket := mkUDPPacket {
  pkt_address : Socks5.SOCKS5Address;
  length : Z;
  payload : bytes
}.

(** [UDPPacket::parse]: [None] is [false]; otherwise the packet and
    [udp_packet_len]. *)
Definition parse (data : bytes) : outcome (option (UDPPacket * Z)) :=
  if zlen data <=? 0 then Ret None else
  let! r := Socks5.parse data in
  match r with
  | None => Ret None
  | Some (address, address_len) =>
    if zlen data <? address_len + 2 then Ret None else
    let! hi := at_ data address_len in
    let! lo := at_ data (address_len + 1) in
    let length := u16 (Z.lor (Z.shiftl (b2z hi) one_byte_shift_8_bits) (b2z lo)) in
    if zlen data <? address_len + 4 + length then Ret None else
    let! sep := substr data (address_len + 2) 2 in
    if negb (bool_decide (sep = CRLF)) then Ret None else
    let! payload := substr data (address_len + 4) length in
    Ret (Some (mkUDPPacket address length payload, address_len + 4 + length))
  end.

(** The length, separator and payload both [generate]s append. *)
Definition append_tail (buf payload : bytes) : bytes :=
  let buf := fst (append_char buf (z2b (Z.shiftr (zlen payload) one_byte_shift_8_bits))) in
  let buf := fst (append_char buf (z2b (Z.land (zlen payload) one_byte_mask_0xFF))) in
  let buf := fst (append_cstr buf (Some CRLF)) in
  fst (append_view buf payload).

(** [UDPPacket::generate(buf, endpoint, payload)] *)
Definition generate_endpoint (buf : bytes) (ep : endpoint) (payload : bytes) : bytes :=
  append_tail (Socks5.generate buf ep) payload.

(** [UDPPacket::generate(buf, domainname, port, payload)] *)
Definition generate_domain (buf domainname : bytes) (port : Z) (payload : bytes) : bytes :=
  let buf := fst (append_char buf Byte.x03) in
  let buf := fst (append_char buf (z2b (zlen domainname))) in
  let buf := fst (append_string buf domainname) in
  let buf := fst (append_char buf (z2b (Z.shiftr port one_byte_shift_8_bits))) in
  let buf := fst (append_char buf (z2b (Z.land port one_byte_mask_0xFF))) in
  append_tail buf payload.

(** The packet's grammar. *)
Definition wire (p : UDPPacket) (w : bytes) : Prop :=
  zlen (payload p) = length p /\ 0 <= length p < 65536 /\
  exists aw, Socks5.wire (pkt_address p) aw /\
  w = aw ++ be16 (length p) ++ CRLF ++ payload p.

Lemma packet_zlen_be16 v : zlen (be16 v) = 2.
Proof. done. Qed.
#[local] Hint Rewrite packet_zlen_be16 : zlen.

Lemma wire_zlen p aw :
  zlen (payload p) = length p ->
  zlen (aw ++ be16 (length p) ++ CRLF ++ payload p) = zlen aw + 4 + length p.
Proof. intros <-. zlen_lia. Qed.

(** A packet is read off the front of the stream, whatever follows it. *)
Lemma packet_parse_wire p w rest : wire p w -> parse (w ++ rest) = Ret (Some (p, zlen w)).
Proof.
  intros (Hl & Hr & aw & Ha & ->). rewrite wire_zlen by done.
  pose proof (Socks5.wire_length _ _ Ha).
  replace ((aw ++ be16 (length p) ++ CRLF ++ payload p) ++ rest)
    with (aw ++ be16 (length p) ++ CRLF ++ payload p ++ rest) by (by rewrite <- !app_assoc).
  set (data := aw ++ be16 (length p) ++ CRLF ++ payload p ++ rest).
  assert (Hd : zlen data = zlen aw + 4 + length p + zlen rest) by (unfold data; zlen_lia).
  unfold parse. destruct (Z.leb_spec (zlen data) 0); [zlen_lia|].
  unfold data at 1. rewrite (Socks5.socks5_parse_wire _ _ _ Ha). cbn [obind].
  destruct (Z.ltb_spec (zlen data) (zlen aw + 2)); [zlen_lia|].
  pose proof (parse_uint16_be (length p) aw (CRLF ++ payload p ++ rest) (zlen aw) eq_refl) as Hu.
  fold data in Hu. unfold parse_uint16 in Hu.
  apply obind_Ret in Hu as (hi & Hhi & Hu). apply obind_Ret in Hu as (lo & Hlo & [= Hu]).
  rewrite Z.add_0_l in Hhi. rewrite Z.add_comm in Hlo. rewrite Hhi. cbn [obind].
  rewrite Hlo. cbn [obind]. rewrite Hu, !u16_small by (try apply u16_range; lia).
  destruct (Z.ltb_spec (zlen data) (zlen aw + 4 + length p)); [zlen_lia|].
  rewrite substr_ok by zlen_lia. cbn [obind].
  replace (sub_ data (zlen aw + 2) 2) with CRLF.
  2:{ symmetry. unfold data. rewrite app_assoc. apply sub_app; zlen_lia. }
  rewrite bool_decide_true by done. cbn [negb].
  rewrite substr_ok by zlen_lia. cbn [obind].
  replace (sub_ data (zlen aw + 4) (length p)) with (payload p); [by destruct p|].
  symmetry. unfold data. rewrite (app_assoc aw), (app_assoc (aw ++ _)).
  apply sub_app; zlen_lia.
Qed.

Lemma split3 (l : bytes) a n :
  0 <= a -> 0 <= n -> a + n <= zlen l ->
  l = take (Z.to_nat a) l ++ sub_ l a n ++ drop (Z.to_nat (a + n)) l.
Proof.
  intros. unfold sub_. rewrite <- (take_drop (Z.to_nat a) l) at 1. f_equal.
  rewrite <- (take_drop (Z.to_nat n) (drop (Z.to_nat a) l)) at 1. f_equal.
  rewrite drop_drop. f_equal. lia.
Qed.

Lemma packet_parse_inv data p n :
  parse data = Ret (Some (p, n)) ->
  exists w rest, data = w ++ rest /\ wire p w /\ n = zlen w.
Proof.
  unfold parse. destruct (Z.leb_spec (zlen data) 0); [done|]. intros Hp.
  apply obind_Ret in Hp as ([[a k]|] & Ha & Hp); [|done].
  apply Socks5.socks5_parse_Some in Ha as (aw & r0 & -> & Haw & ->).
  destruct (Z.ltb_spec (zlen (aw ++ r0)) (zlen aw + 2)); [done|].
  apply obind_Ret in Hp as (hi & Hhi & Hp). apply obind_Ret in Hp as (lo & Hlo & Hp).
  rewrite at_app_r in Hhi, Hlo by zlen_lia.
  replace (zlen aw - zlen aw) with 0 in Hhi by lia.
  replace (zlen aw + 1 - zlen aw) with 1 in Hlo by lia.
  destruct r0 as [|x [|y r0]]; [done..|]. injection Hhi as ->. injection Hlo as ->.
  set (len := u16 _) in Hp.
  destruct (Z.ltb_spec (zlen (aw ++ hi :: lo :: r0)) (zlen aw + 4 + len)); [done|].
  assert (Hlen : 0 <= len < 65536) by apply u16_range.
  rewrite substr_ok in Hp by zlen_lia. cbn [obind] in Hp.
  case_bool_decide as Hsep; [|done]. cbn [negb] in Hp.
  rewrite substr_ok in Hp by zlen_lia. cbn [obind] in Hp. injection Hp as <- <-.
  assert (Hshift : forall i m, 0 <= i ->
    sub_ (aw ++ hi :: lo :: r0) (zlen aw + 2 + i) m = sub_ r0 i m).
  { intros i m Hi. unfold sub_. f_equal.
    replace (Z.to_nat (zlen aw + 2 + i)) with (List.length aw + (2 + Z.to_nat i))%nat
      by (unfold zlen; lia).
    rewrite <- drop_drop, drop_app_length. done. }
  rewrite <- (Z.add_0_r (zlen aw + 2)), Hshift in Hsep by lia.
  replace (zlen aw + 4) with (zlen aw + 2 + 2) by lia. rewrite Hshift by lia.
  assert (Hr0 : 2 + len <= zlen r0) by zlen_lia.
  assert (Hsplit : r0 = CRLF ++ sub_ r0 2 len ++ drop (Z.to_nat (2 + len)) r0).
  { rewrite (split3 r0 2 len) at 1 by lia. f_equal. exact Hsep. }
  exists (aw ++ be16 len ++ CRLF ++ sub_ r0 2 len), (drop (Z.to_nat (2 + len)) r0).
  assert (Hbe : be16 len = [hi; lo]).
  { unfold be16, len, one_byte_shift_8_bits.
    rewrite lor_shiftl_add by (try lia; apply b2z_range).
    pose proof (b2z_range hi). pose proof (b2z_range lo).
    rewrite u16_small by lia. rewrite <- (z2b_b2z hi) at 2. rewrite <- (z2b_b2z lo) at 2.
    repeat f_equal; apply b2z_inj; rewrite !b2z_z2b; unfold u8;
      Z.div_mod_to_equations; lia. }
  split_and!.
  - rewrite <- !app_assoc, <- Hsplit, Hbe. done.
  - split; [cbn; apply zlen_sub; lia|]. split; [done|]. exists aw. by split.
  - rewrite !zlen_app, packet_zlen_be16, zlen_sub by lia. change (zlen CRLF) with 2. lia.
Qed.

Lemma packet_parse_Some data p n :
  parse data = Ret (Some (p, n)) <->
  exists w rest, data = w ++ rest /\ wire p w /\ n = zlen w.
Proof.
  split; [apply packet_parse_inv|]. intros (w & rest & -> & Hw & ->). by apply packet_parse_wire.
Qed.

Lemma append_tail_eq buf payload :
  append_tail buf payload = buf ++ be16 (zlen payload) ++ CRLF ++ payload.
Proof.
  unfold append_tail. rewrite append_view_eq, append_crlf.
  unfold append_char, one_byte_mask_0xFF, one_byte_shift_8_bits. cbn [fst].
  rewrite <- !app_assoc, z2b_land, shiftr_div by lia. done.
Qed.

Lemma generate_endpoint_wire buf ep payload :
  address_wf (ep_address ep) -> 0 <= ep_port ep < 65536 -> zlen payload < 65536 ->
  exists w, generate_endpoint buf ep payload = buf ++ w /\
    wire (mkUDPPacket (Socks5.socks5_of_endpoint ep) (zlen payload) payload) w.
Proof.
  intros Hwf Hport Hl. unfold generate_endpoint. rewrite append_tail_eq.
  destruct (Socks5.socks5_generate_wire buf ep Hwf Hport) as (aw & -> & Ha).
  eexists. split; [by rewrite <- app_assoc|].
  split; [done|]. split; [cbn [length]; zlen_lia|]. exists aw. by split.
Qed.

Lemma generate_domain_wire buf name port payload :
  1 <= zlen name <= 255 -> 0 <= port < 65536 -> zlen payload < 65536 ->
  exists w, generate_domain buf name port payload = buf ++ w /\
    wire (mkUDPPacket (Socks5.mkSocks5 Socks5.DOMAINNAME name port) (zlen payload) payload) w.
Proof.
  intros Hn Hport Hl. unfold generate_domain.
  rewrite append_tail_eq, Socks5.generate_port, append_string_eq by done.
  unfold append_char. cbn [fst].
  exists ((Byte.x03 :: z2b (zlen name) :: name ++ [z2b (port / 256); z2b port]) ++
          be16 (zlen payload) ++ CRLF ++ payload).
  split.
  - rewrite <- !app_assoc. cbn [app]. by rewrite <- !app_assoc.
  - split; [done|]. split; [cbn [length]; zlen_lia|]. eexists. split; [|done].
    cbn [pkt_address]. rewrite <- (Socks5.port_of_be port) at 1 by done. by constructor.
Qed.

Lemma packet_parse_total data : data <> [Byte.x03] -> returns (parse data).
Proof.
  intros Hd. unfold parse, returns. destruct (Z.leb_spec (zlen data) 0); [eauto|].
  destruct (Socks5.socks5_parse_total data) as [[? _]|[_ [r Hr]]]; [done|]. rewrite Hr. cbn [obind].
  destruct r as [[a k]|]; [|eauto].
  apply Socks5.socks5_parse_Some in Hr as (aw & r0 & -> & Haw & ->).
  destruct (Z.ltb_spec (zlen (aw ++ r0)) (zlen aw + 2)); [eauto|].
  destruct (at_defined (aw ++ r0) (zlen aw)) as [hi ->]; [zlen_lia|]. cbn [obind].
  destruct (at_defined (aw ++ r0) (zlen aw + 1)) as [lo ->]; [zlen_lia|]. cbn [obind].
  set (len := u16 _). assert (0 <= len < 65536) by apply u16_range.
  destruct (Z.ltb_spec (zlen (aw ++ r0)) (zlen aw + 4 + len)); [eauto|].
  rewrite substr_ok by zlen_lia. cbn [obind]. destruct (negb _); [eauto|].
  rewrite substr_ok by zlen_lia. cbn [obind]. eauto.
Qed.

End UDPPacket.

Lemma UDP_parse_nothrow d e : UDPPacket.parse d <> Throw e.
Proof.
  destruct (decide (d = [Byte.x03])) as [->|Hd]; [done|].
  destruct (UDPPacket.packet_parse_total d Hd) as [r ->]. done.
Qed.

Lemma UDP_parse_octet03 d u : UDPPacket.parse d = Undef u -> u = octet03.
Proof.
  destruct (decide (d = [Byte.x03])) as [->|Hd]; [by intros [= <-]|].
  destruct (UDPPacket.packet_parse_total d Hd) as [r ->]. done.
Qed.

(** ** Properties *)

(** A datagram framed for a named target by [UDPPacket::generate] is read
    back by [parse] from the head of the stream, whatever follows it, and the
    reported length is that of the frame: consuming it leaves what follows. *)
Theorem udp_packet_roundtrip name port payload rest :
  1 <= zlen name <= 255 -> 0 <= port < 65536 -> zlen payload < 65536 ->
  let frame := UDPPacket.generate_domain [] name port payload in
  UDPPacket.parse (frame ++ rest) =
    Ret (Some (UDPPacket.mkUDPPacket (Socks5.mkSocks5 Socks5.DOMAINNAME name port)
                 (zlen payload) payload, zlen frame)) /\
  Streambuf.consume (frame ++ rest) (zlen frame) = rest.
Proof.
  intros Hn Hp Hl. destruct (UDPPacket.generate_domain_wire [] name port payload Hn Hp Hl)
    as (w & E & Hw). cbn zeta. rewrite E. cbn [app]. split.
  - by apply UDPPacket.packet_parse_wire.
  - unfold Streambuf.consume. apply drop_zlen_app.
Qed.

Lemma udp_packet_roundtrip_witness :
  UDPPacket.parse (UDPPacket.generate_domain [] (str "dns") 53 (str "query") ++ str "next") =
  Ret (Some (UDPPacket.mkUDPPacket (Socks5.mkSocks5 Socks5.DOMAINNAME (str "dns") 53) 5 (str "query"), 16)).
Proof.
  destruct (udp_packet_roundtrip (str "dns") 53 (str "query") (str "next")
    ltac:(vm_compute; split; discriminate) ltac:(lia) ltac:(vm_compute; reflexivity)) as [H _].
  exact H.
Defined.

(** The same for a datagram that came from an endpoint. *)
Theorem udp_endpoint_roundtrip ep payload rest :
  address_wf (ep_address ep) -> 0 <= ep_port ep < 65536 -> zlen payload < 65536 ->
  let frame := UDPPacket.generate_endpoint [] ep payload in
  UDPPacket.parse (frame ++ rest) =
    Ret (Some (UDPPacket.mkUDPPacket (Socks5.socks5_of_endpoint ep) (zlen payload) payload,
               zlen frame)).
Proof.
  intros Ha Hp Hl. destruct (UDPPacket.generate_endpoint_wire [] ep payload Ha Hp Hl) as (w & E & Hw).
  cbn zeta. rewrite E. by apply UDPPacket.packet_parse_wire.
Qed.

Lemma udp_endpoint_roundtrip_witness :
  UDPPacket.parse (UDPPacket.generate_endpoint []
    (mkEndpoint (V4 Byte.x01 Byte.x02 Byte.x03 Byte.x04) 53) (str "reply") ++ []) =
  Ret (Some (UDPPacket.mkUDPPacket (Socks5.mkSocks5 Socks5.IPv4 (str "1.2.3.4") 53) 5 (str "reply"), 16)).
Proof.
  exact (udp_endpoint_roundtrip (mkEndpoint (V4 Byte.x01 Byte.x02 Byte.x03 Byte.x04) 53)
    (str "reply") [] Logic.I ltac:(cbn; lia) ltac:(vm_compute; reflexivity)).
Defined.

(** [UDPPacket::parse] accepts exactly the views that begin with a packet of
    the grammar, and reports its length. *)
Theorem udp_parse_iff_grammar data p n :
  UDPPacket.parse data = Ret (Some (p, n)) <->
  exists w rest, data = w ++ rest /\ UDPPacket.wire p w /\ n = zlen w.
Proof. apply UDPPacket.packet_parse_Some. Qed.
