(* ===== verification/PipelineProto.v ===== *)
(** * Pipeline commands

    [src/src/proto/pipelinerequest.h] and [pipelinerequest.cpp]: the framing
    of the commands multiplexed on one pipeline connection. *)

From Stdlib Require Import ZArith Lia.
From S2P Require Import Prelude Utils.
Local Open Scope Z_scope.

Module PipelineRequest.
Import Streambuf Codec.

Inductive Command := CONNECT | DATA | ACK | CLOSE | ICMP.
#[export] Instance Command_eq_dec : EqDecision Command.
Proof. solve_decision. Defined.

Definition command_value (c : Command) : Z :=
  match c with CONNECT => 0 | DATA => 1 | ACK => 2 | CLOSE => 3 | ICMP => 4 end.

Definition MAX_COMMANDS : Z := 5.
Definition MAX_ICMP_LENGTH : Z := 65535.
Definition MAX_DATA_LENGTH : Z := 4294967295.
Definition MAX_SESSION_ID_LENGTH : Z := 65535.

(** [(Command)cmd] for a value below [MAX_COMMANDS] *)
Definition command_of (cmd : Z) : Command :=
  if cmd =? 0 then CONNECT else if cmd =? 1 then DATA else if cmd =? 2 then ACK
  else if cmd =? 3 then CLOSE else ICMP.

Definition get_cmd_string (c : Command) : string :=
  match c with
  | CONNECT => "CONNECT" | DATA => "DATA" | ACK => "ACK"
  | CLOSE => "CLOSE" | ICMP => "ICMP"
  end.

Record PipelineRequest := mkPipelineRequest {
  consume_length : Z;
  ack_count : Z;
  packet_data : bytes;
  session_id : Z;
  command : Command
}.

(** [PipelineRequest::parse] on a new object: the returned [int] and, when the
    command is complete, the members. *)
Definition parse (data : bytes) : outcome (Z * option PipelineRequest) :=
  if zlen data <? 1 then Ret (-1, None) else
  let! c := at_ data 0 in
  let cmd := b2z c in
  if MAX_COMMANDS <=? cmd then Ret (-2, None) else
  let done_ r := Ret (i32 (zlen (packet_data r)), Some r) in
  match command_of cmd with
  | DATA =>
    let DATA_CMD_HEADER_LENGTH := 7 in
    if zlen data <? DATA_CMD_HEADER_LENGTH then Ret (-1, None) else
    let! trojan_request_length := parse_uint32 3 data in
    if zlen data <? DATA_CMD_HEADER_LENGTH + trojan_request_length then Ret (-1, None) else
    let! session_id := parse_uint16 1 data in
    let! packet_data := substr data DATA_CMD_HEADER_LENGTH trojan_request_length in
    done_ (mkPipelineRequest (DATA_CMD_HEADER_LENGTH + trojan_request_length) 0
             packet_data (u16 session_id) DATA)
  | ICMP =>
    let ICMP_CMD_HEADER_LENGTH := 3 in
    if zlen data <? ICMP_CMD_HEADER_LENGTH then Ret (-1, None) else
    let! icmp_length := parse_uint16 1 data in
    if zlen data <? ICMP_CMD_HEADER_LENGTH + icmp_length then Ret (-1, None) else
    let! packet_data := substr data ICMP_CMD_HEADER_LENGTH icmp_length in
    done_ (mkPipelineRequest (ICMP_CMD_HEADER_LENGTH + icmp_length) 0 packet_data 0 ICMP)
  | ACK =>
    let ACK_CMD_HEADER_LENGTH := 5 in
    if zlen data <? ACK_CMD_HEADER_LENGTH then Ret (-1, None) else
    let! session_id := parse_uint16 1 data in
    let! count := parse_uint16 3 data in
    done_ (mkPipelineRequest ACK_CMD_HEADER_LENGTH (i32 count) [] (u16 session_id) ACK)
  | c =>
    let CMD_HEADER_LENGTH := 3 in
    if zlen data <? CMD_HEADER_LENGTH then Ret (-1, None) else
    let! session_id := parse_uint16 1 data in
    done_ (mkPipelineRequest CMD_HEADER_LENGTH 0 [] (u16 session_id) c)
  end.

(** [PipelineRequest::generate] *)
Definition generate (buf : bytes) (cmd : Command) (session_id : Z) (data : bytes)
    (ack_count : Z) : outcome bytes :=
  let buf := fst (append_char buf (z2b (command_value cmd))) in
  match cmd with
  | ICMP =>
    if MAX_ICMP_LENGTH <=? zlen data
    then Throw (logic_error "PipelineRequest::generate data.length() > MAX_ICMP_LENGTH")
    else Ret (fst (append_view (generate_uint16 buf (u16 (zlen data))) data))
  | _ =>
    let buf := generate_uint16 buf session_id in
    match cmd with
    | DATA =>
      if MAX_DATA_LENGTH <=? zlen data
      then Throw (logic_error "PipelineRequest::generate data.length() > MAX_DATA_LENGTH")
      else Ret (fst (append_view (generate_uint32 buf (u32 (zlen data))) data))
    | ACK => Ret (generate_uint16 buf (u16 ack_count))
    | _ => Ret buf
    end
  end.

(** ** The frames *)

(** The value a frame carries, and its octets. *)
Inductive frame :=
| FConnect (sid : Z)
| FData (sid : Z) (d : bytes)
| FAck (sid count : Z)
| FClose (sid : Z)
| FIcmp (d : bytes).

Definition encode (f : frame) : bytes :=
  match f with
  | FConnect sid => z2b 0 :: be16 sid
  | FData sid d => z2b 1 :: be16 sid ++ be32 (zlen d) ++ d
  | FAck sid n => z2b 2 :: be16 sid ++ be16 n
  | FClose sid => z2b 3 :: be16 sid
  | FIcmp d => z2b 4 :: be16 (zlen d) ++ d
  end.

Definition frame_wf (f : frame) : Prop :=
  match f with
  | FConnect sid | FClose sid => 0 <= sid < 65536
  | FData sid d => 0 <= sid < 65536 /\ zlen d < 2147483648
  | FAck sid n => 0 <= sid < 65536 /\ 0 <= n < 65536
  | FIcmp d => zlen d < 65536
  end.

Definition request_of (f : frame) : PipelineRequest :=
  match f with
  | FConnect sid => mkPipelineRequest 3 0 [] sid CONNECT
  | FData sid d => mkPipelineRequest (7 + zlen d) 0 d sid DATA
  | FAck sid n => mkPipelineRequest 5 n [] sid ACK
  | FClose sid => mkPipelineRequest 3 0 [] sid CLOSE
  | FIcmp d => mkPipelineRequest (3 + zlen d) 0 d 0 ICMP
  end.

Lemma command_zlen_be16 v : zlen (be16 v) = 2.
Proof. done. Qed.
Lemma zlen_be32 v : zlen (be32 v) = 4.
Proof. done. Qed.
#[export] Hint Rewrite command_zlen_be16 zlen_be32 : zlen.

Lemma encode_zlen f : zlen (encode f) = consume_length (request_of f).
Proof. destruct f; cbn; zlen_lia. Qed.

Lemma encode_length_min f : 3 <= zlen (encode f).
Proof. destruct f; cbn; zlen_lia. Qed.

Lemma i32_small z : 0 <= z < 2147483648 -> i32 z = z.
Proof. intros. unfold i32. rewrite Z.mod_small by lia. lia. Qed.

(** [generate] appends the octets of the frame. *)
Lemma command_generate_eq buf cmd sid data count :
  match cmd with
  | ICMP => zlen data < MAX_ICMP_LENGTH
  | DATA => zlen data < MAX_DATA_LENGTH
  | _ => True
  end ->
  generate buf cmd sid data count =
  Ret (buf ++ encode
    match cmd with
    | CONNECT => FConnect sid
    | DATA => FData sid data
    | ACK => FAck sid (u16 count)
    | CLOSE => FClose sid
    | ICMP => FIcmp data
    end).
Proof.
  pose proof (zlen_nonneg data). unfold generate, MAX_ICMP_LENGTH, MAX_DATA_LENGTH.
  destruct cmd; intros Hd; cbn [encode command_value fst append_char].
  all: rewrite ?generate_uint16_eq.
  - by rewrite <- app_assoc.
  - destruct (Z.leb_spec 4294967295 (zlen data)); [lia|].
    rewrite generate_uint32_eq, append_view_eq, u32_small by lia.
    by rewrite <- !app_assoc.
  - by rewrite <- !app_assoc.
  - by rewrite <- app_assoc.
  - destruct (Z.leb_spec 65535 (zlen data)); [lia|].
    rewrite append_view_eq, u16_small by lia. by rewrite <- !app_assoc.
Qed.

Ltac frame_head :=
  unfold parse;
  match goal with |- context [zlen ?d <? 1] =>
    destruct (Z.ltb_spec (zlen d) 1); [exfalso; zlen_lia|] end;
  rewrite at_cons_0; cbn [obind]; rewrite b2z_z2b;
  match goal with |- context [u8 ?k] => change (u8 k) with k end;
  unfold MAX_COMMANDS; cbn [Z.leb Z.compare Pos.compare Pos.compare_cont command_of Z.eqb Pos.eqb].

(** Rewrite with a lemma about [pre ++ ...] where [pre] is a list literal. *)
Ltac reads L :=
  let E := fresh "E" in
  pose proof L as E; cbn [app] in E; rewrite <- ?app_assoc in E; rewrite E; clear E; cbn [obind].

(** A frame is read off the front of the stream, whatever follows it. *)
Lemma parse_frame f rest :
  frame_wf f ->
  parse (encode f ++ rest) =
  Ret (zlen (packet_data (request_of f)), Some (request_of f)).
Proof.
  intros Hwf. destruct f as [sid|sid d|sid n|sid|d]; cbn [encode frame_wf request_of] in *.
  all: cbn [app]; rewrite <- ?app_assoc; frame_head.
  all: match goal with |- context [zlen ?x <? ?k] =>
    destruct (Z.ltb_spec (zlen x) k); [exfalso; zlen_lia|] end.
  - reads (parse_uint16_be sid [z2b 0] rest 1 eq_refl).
    rewrite !u16_small by (rewrite ?u16_small; lia). done.
  - pose proof (zlen_nonneg d).
    reads (parse_uint32_be (zlen d) (z2b 1 :: be16 sid) (d ++ rest) 3 eq_refl). rewrite u32_small by lia.
    match goal with |- context [zlen ?x <? ?k] =>
      destruct (Z.ltb_spec (zlen x) k); [exfalso; zlen_lia|] end.
    reads (parse_uint16_be sid [z2b 1] (be32 (zlen d) ++ d ++ rest) 1 eq_refl).
    rewrite substr_ok by zlen_lia. cbn [obind].
    reads (sub_app (z2b 1 :: be16 sid ++ be32 (zlen d)) d rest 7 (zlen d) eq_refl eq_refl).
    cbn [packet_data]. rewrite i32_small, !u16_small by (rewrite ?u16_small; lia). done.
  - reads (parse_uint16_be sid [z2b 2] (be16 n ++ rest) 1 eq_refl).
    reads (parse_uint16_be n (z2b 2 :: be16 sid) rest 3 eq_refl).
    rewrite !u16_small, (i32_small n) by (rewrite ?u16_small; lia). done.
  - reads (parse_uint16_be sid [z2b 3] rest 1 eq_refl).
    rewrite !u16_small by (rewrite ?u16_small; lia). done.
  - pose proof (zlen_nonneg d).
    reads (parse_uint16_be (zlen d) [z2b 4] (d ++ rest) 1 eq_refl).
    rewrite u16_small by lia.
    match goal with |- context [zlen ?x <? ?k] =>
      destruct (Z.ltb_spec (zlen x) k); [exfalso; zlen_lia|] end.
    rewrite substr_ok by zlen_lia. cbn [obind].
    reads (sub_app (z2b 4 :: be16 (zlen d)) d rest 3 (zlen d) eq_refl eq_refl).
    cbn [packet_data]. rewrite i32_small by lia. done.
Qed.

(** A frame that has not arrived completely is reported as incomplete. *)
Lemma parse_partial f p q :
  frame_wf f -> encode f = p ++ q -> q <> [] -> parse p = Ret (-1, None).
Proof.
  intros Hwf E Hq. assert (Hz : zlen p < zlen (encode f)).
  { rewrite E, zlen_app. destruct q; [done|]. rewrite zlen_cons. zlen_lia. }
  destruct p as [|c p]; [done|].
  assert (Hc : exists k, c = z2b k /\ hd_error (encode f) = Some (z2b k) /\ 0 <= k < 5).
  { destruct f; cbn in E; injection E as <- _; eexists; split_and!; try done; lia. }
  destruct Hc as (k & -> & Hk & Hrange).
  unfold parse. destruct (Z.ltb_spec (zlen (z2b k :: p)) 1); [exfalso; zlen_lia|].
  rewrite at_cons_0. cbn [obind]. rewrite b2z_z2b, u8_small by lia.
  unfold MAX_COMMANDS. destruct (Z.leb_spec 5 k); [lia|].
  destruct f as [sid|sid d|sid n|sid|d]; cbn [encode frame_wf] in *;
    pose proof E as E0; apply (f_equal hd_error) in E0; injection E0 as E0;
    apply (f_equal b2z) in E0; rewrite !b2z_z2b, !u8_small in E0 by lia;
    subst k; cbn [command_of Z.eqb Pos.eqb].
  all: match goal with |- context [zlen ?x <? ?k] =>
    destruct (Z.ltb_spec (zlen x) k); [done|] end.
  - exfalso. zlen_lia.
  - rewrite <- (parse_uint32_app 3 _ q) by zlen_lia.
    rewrite <- E.
    reads (parse_uint32_be (zlen d) (z2b 1 :: be16 sid) d 3 eq_refl).
    pose proof (zlen_nonneg d). rewrite u32_small by lia.
    match goal with |- context [zlen ?x <? ?k] =>
      destruct (Z.ltb_spec (zlen x) k); [done|exfalso; zlen_lia] end.
  - exfalso. zlen_lia.
  - exfalso. zlen_lia.
  - rewrite <- (parse_uint16_app 1 _ q) by zlen_lia.
    rewrite <- E.
    reads (parse_uint16_be (zlen d) [z2b 4] d 1 eq_refl).
    pose proof (zlen_nonneg d). rewrite u16_small by lia.
    match goal with |- context [zlen ?x <? ?k] =>
      destruct (Z.ltb_spec (zlen x) k); [done|exfalso; zlen_lia] end.
Qed.

(** Every input is answered, without reading outside the view. *)
Lemma command_parse_total data : returns (parse data).
Proof.
  unfold parse, returns. destruct (Z.ltb_spec (zlen data) 1); [eauto|].
  destruct (at_defined data 0) as [c ->]; [lia|]. cbn [obind].
  destruct (MAX_COMMANDS <=? b2z c); [eauto|].
  destruct (command_of (b2z c)).
  all: match goal with |- context [zlen ?x <? ?k] =>
    destruct (Z.ltb_spec (zlen x) k); [eauto|] end.
  1, 4: destruct (parse_uint16_defined 1 data) as [? ->]; [lia..|]; cbn [obind]; eauto.
  - destruct (parse_uint32_defined 3 data) as [n Hn]; [lia..|]. rewrite Hn. cbn [obind].
    destruct (Z.ltb_spec (zlen data) (7 + n)); [eauto|].
    destruct (parse_uint16_defined 1 data) as [? ->]; [lia..|]. cbn [obind].
    rewrite substr_ok by lia. cbn [obind]. eauto.
  - destruct (parse_uint16_defined 1 data) as [? ->]; [lia..|]. cbn [obind].
    destruct (parse_uint16_defined 3 data) as [? ->]; [lia..|]. cbn [obind]. eauto.
  - destruct (parse_uint16_defined 1 data) as [n Hn]; [lia..|]. rewrite Hn. cbn [obind].
    destruct (Z.ltb_spec (zlen data) (3 + n)); [eauto|].
    rewrite substr_ok by lia. cbn [obind]. eauto.
Qed.

(** The consumed length is that of a prefix of the view and at least 3, so a
    loop that consumes it makes progress. *)
Lemma parse_progress data v r :
  parse data = Ret (v, Some r) -> 3 <= consume_length r <= zlen data.
Proof.
  unfold parse. destruct (Z.ltb_spec (zlen data) 1); [done|]. intros Hp.
  apply obind_Ret in Hp as (c & _ & Hp).
  destruct (MAX_COMMANDS <=? b2z c); [done|].
  destruct (command_of (b2z c));
    match type of Hp with context [zlen ?x <? ?k] =>
      destruct (Z.ltb_spec (zlen x) k); [done|] end;
    apply obind_Ret in Hp as (n & Hn & Hp); [by injection Hp as _ <-| | |by injection Hp as _ <-|].
  - apply parse_uint32_range in Hn.
    destruct (Z.ltb_spec (zlen data) (7 + n)); [done|].
    apply obind_Ret in Hp as (? & _ & Hp). apply obind_Ret in Hp as (? & _ & Hp).
    injection Hp as _ <-. cbn. lia.
  - apply obind_Ret in Hp as (? & _ & Hp). injection Hp as _ <-. cbn. lia.
  - apply parse_uint16_range in Hn.
    destruct (Z.ltb_spec (zlen data) (3 + n)); [done|].
    apply obind_Ret in Hp as (? & _ & Hp). injection Hp as _ <-. cbn. lia.
Qed.

(** ** The receive loop

    Both ends of a pipeline read with the same loop ([Pipeline::out_async_recv]
    and [PipelineSession::process_streaming_data]): parse the buffered octets,
    act on the command, consume it, until the buffer is empty or holds an
    incomplete command.  [handle] acts on one command and says whether the loop
    goes on.  The fuel bounds the iterations; each consumes at least 3 octets,
    so the buffer's length plus one is enough. *)
Inductive loop_end := Drained | BadCommand | Stopped | OutOfFuel.

Section Drain.
Context {S : Type} (handle : PipelineRequest -> S -> outcome (S * bool)).

Fixpoint drain (fuel : nat) (buf : bytes) (s : S) : outcome (S * bytes * loop_end) :=
  match fuel with
  | O => Ret (s, buf, OutOfFuel)
  | Datatypes.S fuel =>
    if zlen buf =? 0 then Ret (s, buf, Drained) else
    let! r := parse buf in
    let '(ret, req) := r in
    if ret =? -1 then Ret (s, buf, Drained) else
    if ret =? -2 then Ret (s, buf, BadCommand) else
    match req with
    | None => Undef EmptyContainer
    | Some req =>
      let! r := handle req s in
      let '(s, go) := r in
      if go : bool then drain fuel (consume buf (consume_length req)) s
      else Ret (s, buf, Stopped)
    end
  end.
End Drain.

(** The loop with a handler that always goes on. *)
Definition drain_all {S} (h : PipelineRequest -> S -> S) :=
  drain (fun r s => Ret (h r s, true)).

(** Successive reads of the socket: each chunk is appended to what is left. *)
Fixpoint feed {S} (h : PipelineRequest -> S -> S) (chunks : list bytes) (buf : bytes) (s : S)
  : outcome (S * bytes * loop_end) :=
  match chunks with
  | [] => Ret (s, buf, Drained)
  | c :: cs =>
    let! r := drain_all h (Datatypes.S (length (buf ++ c))) (buf ++ c) s in
    let '(s, buf, e) := r in
    match e with
    | Drained => feed h cs buf s
    | _ => Ret (s, buf, e)
    end
  end.

Definition stream (fs : list frame) : bytes := concat (map encode fs).

Lemma drain_step {S} (h : PipelineRequest -> S -> S) fuel f rest s :
  frame_wf f ->
  drain_all h (Datatypes.S fuel) (encode f ++ rest) s =
  drain_all h fuel rest (h (request_of f) s).
Proof.
  intros Hwf. unfold drain_all at 1. cbn [drain].
  pose proof (encode_length_min f).
  destruct (Z.eqb_spec (zlen (encode f ++ rest)) 0); [exfalso; zlen_lia|].
  rewrite parse_frame by done. cbn [obind].
  pose proof (zlen_nonneg (packet_data (request_of f))).
  destruct (Z.eqb_spec (zlen (packet_data (request_of f))) (-1)); [lia|].
  destruct (Z.eqb_spec (zlen (packet_data (request_of f))) (-2)); [lia|].
  unfold consume. by rewrite <- encode_zlen, drop_zlen_app.
Qed.

Lemma drain_partial {S} (h : PipelineRequest -> S -> S) fuel f p q s :
  frame_wf f -> encode f = p ++ q -> q <> [] ->
  drain_all h (Datatypes.S fuel) p s = Ret (s, p, Drained).
Proof.
  intros Hwf E Hq. unfold drain_all. cbn [drain].
  destruct (Z.eqb_spec (zlen p) 0); [done|].
  by rewrite (parse_partial f p q).
Qed.

(** What one read delivers: the complete commands, in order, and the rest is
    kept. *)
Lemma drain_prefix {S} (h : PipelineRequest -> S -> S) fs c rest s fuel :
  Forall frame_wf fs -> c ++ rest = stream fs -> (length c < fuel)%nat ->
  exists fs1 p fs2, fs = fs1 ++ fs2 /\ p ++ rest = stream fs2 /\
    match fs2 with [] => p = [] | f :: _ => zlen p < zlen (encode f) end /\
    drain_all h fuel c s = Ret (foldl (fun s f => h (request_of f) s) s fs1, p, Drained).
Proof.
  intros Hwf. revert c s fuel. induction Hwf as [|f fs Hf Hfs IH]; intros c s fuel E Hfuel.
  { exists [], [], []. cbn in E. apply app_eq_nil in E as [-> ->].
    destruct fuel; [cbn in Hfuel; lia|]. done. }
  destruct (decide (zlen (encode f) <= zlen c)) as [Hle|Hgt].
  - assert (Hc : c = encode f ++ drop (length (encode f)) c).
    { rewrite <- (take_drop (length (encode f)) c) at 1. f_equal.
      apply (f_equal (take (length (encode f)))) in E. cbn in E.
      rewrite take_app_length in E. rewrite take_app_le in E; [done|].
      unfold zlen in Hle. lia. }
    set (c' := drop _ c) in Hc. rewrite Hc in E. cbn in E.
    rewrite <- app_assoc in E. apply app_inv_head in E.
    pose proof (encode_length_min f) as Hmin.
    destruct fuel as [|fuel]; [lia|].
    assert (Hf' : (length c' < fuel)%nat).
    { rewrite Hc, length_app in Hfuel. unfold zlen in Hmin. lia. }
    destruct (IH c' (h (request_of f) s) fuel E Hf') as (fs1 & p & fs2 & -> & Hp & Hs & Hd).
    exists (f :: fs1), p, fs2. split_and!; [done|done|done|]. rewrite Hc.
    rewrite drain_step by done. exact Hd.
  - exists [], c, (f :: fs). split_and!; [done|done|lia|].
    destruct fuel as [|fuel]; [lia|]. cbn in E.
    assert (He : encode f = c ++ take (length (encode f) - length c) rest).
    { apply (f_equal (take (length (encode f)))) in E. rewrite take_app_length in E.
      rewrite <- E at 1. rewrite take_app. f_equal. apply take_ge. unfold zlen in Hgt. lia. }
    cbn [foldl]. eapply drain_partial; [done|exact He|].
    intros Hn. rewrite Hn, app_nil_r in He. rewrite He in Hgt. lia.
Qed.

Lemma feed_stream {S} (h : PipelineRequest -> S -> S) fs chunks p s :
  Forall frame_wf fs -> p ++ concat chunks = stream fs ->
  (chunks = [] -> p = []) ->
  feed h chunks p s = Ret (foldl (fun s f => h (request_of f) s) s fs, [], Drained).
Proof.
  revert fs p s. induction chunks as [|c cs IH]; intros fs p s Hwf E Hp.
  - rewrite Hp in E |- * by done. cbn in E.
    destruct fs as [|f fs]; [done|]. cbn in E. symmetry in E.
    apply app_eq_nil in E as [E _]. pose proof (encode_length_min f). rewrite E in H. done.
  - cbn [feed]. cbn [concat] in E. rewrite app_assoc in E.
    destruct (drain_prefix h fs (p ++ c) (concat cs) s _ Hwf E (Nat.lt_succ_diag_r _))
      as (fs1 & p' & fs2 & -> & Hp' & Hs & ->). cbn [obind].
    apply Forall_app in Hwf as [Hwf1 Hwf2].
    rewrite foldl_app. apply IH; [done|done|].
    intros ->. cbn in Hp'. rewrite app_nil_r in Hp'. subst p'.
    destruct fs2 as [|f fs2]; [done|]. cbn in Hs. exfalso. zlen_lia.
Qed.

(** Only an accepted command leaves the parser without an error code. *)
Lemma parse_None_code data v : parse data = Ret (v, None) -> v = -1 \/ v = -2.
Proof.
  unfold parse. intros H. destruct (_ <? 1); [injection H as <-; auto|].
  apply obind_Ret in H as (c & _ & H). destruct (_ <=? _); [injection H as <-; auto|].
  destruct (command_of _);
    (destruct (_ <? _); [injection H as <-; auto|]);
    repeat (let a := fresh in apply obind_Ret in H as (a & _ & H));
    try (destruct (_ <? _); [injection H as <-; auto|]);
    repeat (let a := fresh in apply obind_Ret in H as (a & _ & H)); congruence.
Qed.

(** The loop ends for lack of octets, a bad command or a handler's decision,
    never for lack of fuel. *)
Lemma drain_fuel {S} (handle : PipelineRequest -> S -> outcome (S * bool)) fuel buf s s' b e :
  (length buf < fuel)%nat -> drain handle fuel buf s = Ret (s', b, e) -> e <> OutOfFuel.
Proof.
  revert buf s. induction fuel as [|fuel IH]; intros buf s Hf; [lia|]. cbn [drain].
  destruct (zlen buf =? 0); [intros [= _ _ <-]; done|]. intros H.
  apply obind_Ret in H as ([ret req] & Hp & H).
  destruct (ret =? -1); [injection H as _ _ <-; done|].
  destruct (ret =? -2); [injection H as _ _ <-; done|].
  destruct req as [req|]; [|done].
  apply obind_Ret in H as ([s1 go] & _ & H). destruct go; [|injection H as _ _ <-; done].
  apply parse_progress in Hp.
  apply (IH _ _) in H; [done|]. unfold consume, zlen in *. rewrite length_drop. lia.
Qed.

End PipelineRequest.

(** ** Properties *)

(** The pipeline's framing does not depend on how the stream is cut: whatever
    chunks the reads return, the receiving loop hands every command of the
    stream to its handler, once, in order and unchanged, and ends with an empty
    buffer. *)
Theorem pipeline_stream_segmentation {S} (h : PipelineRequest.PipelineRequest -> S -> S) fs chunks s :
  Forall PipelineRequest.frame_wf fs -> concat chunks = PipelineRequest.stream fs ->
  PipelineRequest.feed h chunks [] s =
    Ret (foldl (fun s f => h (PipelineRequest.request_of f) s) s fs, [], PipelineRequest.Drained).
Proof. intros Hwf Hc. by apply PipelineRequest.feed_stream. Qed.

Lemma pipeline_stream_segmentation_witness :
  PipelineRequest.feed (fun r l => l ++ [PipelineRequest.command r])
    [[Byte.x00]; [Byte.x00; Byte.x07; Byte.x03; Byte.x00]; [Byte.x07]] [] [] =
  Ret ([PipelineRequest.CONNECT; PipelineRequest.CLOSE], [], PipelineRequest.Drained).
Proof.
  exact (pipeline_stream_segmentation (fun r l => l ++ [PipelineRequest.command r])
    [PipelineRequest.FConnect 7; PipelineRequest.FClose 7] _ []
    ltac:(repeat constructor; cbn; lia) eq_refl).
Defined.

(** A command written by [PipelineRequest::generate] is parsed back from the
    head of the receiver's buffer, whatever follows, with its session id, data
    and acknowledgement count, and [consume_length] is what it wrote. *)
Theorem pipeline_data_roundtrip sid data rest :
  0 <= sid < 65536 -> zlen data < 2147483648 ->
  exists w, PipelineRequest.generate [] PipelineRequest.DATA sid data 0 = Ret w /\
    PipelineRequest.parse (w ++ rest) =
      Ret (zlen data, Some (PipelineRequest.mkPipelineRequest (zlen w) 0 data sid PipelineRequest.DATA)).
Proof.
  intros Hs Hd. exists (PipelineRequest.encode (PipelineRequest.FData sid data)). split.
  - rewrite PipelineRequest.command_generate_eq; [done|]. unfold PipelineRequest.MAX_DATA_LENGTH. lia.
  - rewrite PipelineRequest.parse_frame by done. by rewrite PipelineRequest.encode_zlen.
Qed.

Lemma pipeline_data_roundtrip_witness :
  exists w, PipelineRequest.generate [] PipelineRequest.DATA 7 (str "hello") 0 = Ret w /\
    PipelineRequest.parse (w ++ str "x") =
      Ret (5, Some (PipelineRequest.mkPipelineRequest (zlen w) 0 (str "hello") 7 PipelineRequest.DATA)).
Proof.
  exact (pipeline_data_roundtrip 7 (str "hello") (str "x") ltac:(lia) ltac:(vm_compute; reflexivity)).
Defined.

(** [PipelineRequest::parse] never throws and never reads outside its buffer,
    and when it accepts a command it consumes at least three octets and no more
    than there are: the receiving loop ends, before its fuel does. *)
Theorem pipeline_parse_total_progress data :
  exists v r, PipelineRequest.parse data = Ret (v, r) /\
    match r with
    | Some req => 3 <= PipelineRequest.consume_length req <= zlen data
    | None => True
    end.
Proof.
  destruct (PipelineRequest.command_parse_total data) as [[v [r|]] E]; exists v; eexists;
    (split; [done|]); [by eapply PipelineRequest.parse_progress|done].
Qed.

(** A command that has not arrived completely is left alone: [parse] asks for
    more data on every proper prefix of it. *)
Theorem pipeline_partial_waits f p q :
  PipelineRequest.frame_wf f -> PipelineRequest.encode f = p ++ q -> q <> [] ->
  PipelineRequest.parse p = Ret (-1, None).
Proof. apply PipelineRequest.parse_partial. Qed.

Lemma pipeline_partial_waits_witness :
  PipelineRequest.parse [Byte.x02; Byte.x00; Byte.x07; Byte.x00] = Ret (-1, None).
Proof.
  exact (pipeline_partial_waits (PipelineRequest.FAck 7 1)
    [Byte.x02; Byte.x00; Byte.x07; Byte.x00] [Byte.x01] ltac:(cbn; lia) eq_refl ltac:(discriminate)).
Defined.
