(* ===== verification/Caches.v ===== *)
(** * The send cache

    [SendDataCache] of [src/src/core/utils.h] and [src/src/core/utils.cpp]: what
    is pushed while a write is in progress goes out with the next one. *)

From Stdlib Require Import ZArith Lia.
From S2P Require Import Prelude Utils.
Local Open Scope Z_scope.

(** A [boost::system::error_code]: 0 is success. *)
Definition error_code := Z.
Definition no_error : error_code := 0.
Definition broken_pipe : error_code := 32.
Definition operation_aborted : error_code := 125.
Definition no_permission : error_code := 1.

(** ** SendDataCache

    Two buffers with a vector of handlers each; one is being filled, the other
    is being written.  [connected] is what [is_connected()] answers;
    [flight] is the pair of pointers captured by the completion handler of the
    write in progress.  A handler is a token; calling it may push more data,
    as [react] says.  The log records the calls made to the outside. *)
Module SendDataCache.
Import Streambuf.

Section Cache.
Context {H : Type}.
Variable react : H -> error_code -> list (bytes * H).

Inductive event :=
| Written (data : bytes)          (* async_writer called with these octets *)
| Called (h : H) (ec : error_code) (* a SentHandler called *)
| Pushed (data : bytes)           (* octets appended by push_data *)
| Registered (h : H).             (* a SentHandler handed to push_data *)

Record cache := mkCache {
  handler_queue : list H;
  data_queue : bytes;
  handler_queue_other : list H;
  data_queue_other : bytes;
  current_is_first : bool;
  is_async_sending : bool;
  destroyed : bool;
  connected : bool;
  flight : option bool;
  log : list event
}.
#[export] Instance eta_cache : Settable cache :=
  fun r => mkCache (handler_queue r) (data_queue r) (handler_queue_other r)
    (data_queue_other r) (current_is_first r) (is_async_sending r) (destroyed r)
    (connected r) (flight r) (log r).

(** The constructor; [connected] starts as the owner's predicate answers. *)
Definition new_cache (connected : bool) : cache :=
  mkCache [] [] [] [] true false false connected None [].

(** [*current_recv_queue], [*current_recv_handler] and writes to them *)
Definition queue_at (first : bool) (c : cache) : bytes :=
  if first then data_queue c else data_queue_other c.
Definition handlers_at (first : bool) (c : cache) : list H :=
  if first then handler_queue c else handler_queue_other c.
Definition set_queue (first : bool) (d : bytes) (c : cache) : cache :=
  if first then c <| data_queue := d |> else c <| data_queue_other := d |>.
Definition set_handlers (first : bool) (l : list H) (c : cache) : cache :=
  if first then c <| handler_queue := l |> else c <| handler_queue_other := l |>.

Definition current_recv_queue (c : cache) : bytes := queue_at (current_is_first c) c.
Definition current_recv_handler (c : cache) : list H := handlers_at (current_is_first c) c.

Definition emit (e : event) (c : cache) : cache := c <| log ::= fun l => l ++ [e] |>.

Definition swap_recv (c : cache) : cache := c <| current_is_first ::= negb |>.

(** [async_send] up to the call of [async_writer] *)
Definition async_send (c : cache) : cache :=
  if (zlen (current_recv_queue c) =? 0) || negb (connected c) || is_async_sending c ||
     destroyed c
  then c
  else
    let c := c <| is_async_sending := true |> in
    let sending := current_is_first c in
    let c := swap_recv c in
    emit (Written (queue_at sending c)) (c <| flight := Some sending |>).

Definition push_data (d : bytes) (h : H) (c : cache) : cache :=
  let c := emit (Registered h) c in
  if destroyed c then emit (Called h broken_pipe) c
  else
    let c := emit (Pushed d) (set_queue (current_is_first c) (current_recv_queue c ++ d) c) in
    let c := set_handlers (current_is_first c) (current_recv_handler c ++ [h]) c in
    async_send c.

Definition insert_data (d : bytes) (c : cache) : cache :=
  if destroyed c then c
  else
    let copy_data_queue := fst (append_buf [] (current_recv_queue c)) in
    let q := consume_all (current_recv_queue c) in
    let q := fst (append_view q d) in
    let q := fst (append_buf q copy_data_queue) in
    async_send (set_queue (current_is_first c) q c).

(** A handler is called and pushes what it wants. *)
Definition call_and_react (ec : error_code) (c : cache) (h : H) : cache :=
  foldl (fun c '(d, h') => push_data d h' c) (emit (Called h ec) c) (react h ec).

Definition destroy (c : cache) : cache :=
  if destroyed c then c
  else
    let c := c <| destroyed := true |> in
    let c := foldl (call_and_react broken_pipe) c (handler_queue_other c) in
    let c := c <| handler_queue_other := [] |> in
    let c := foldl (call_and_react broken_pipe) c (handler_queue c) in
    c <| handler_queue := [] |>.

(** The completion handler [async_send] gives to [async_writer]. *)
Definition write_done (ec : error_code) (c : cache) : cache :=
  match flight c with
  | None => c
  | Some sending =>
    let c := foldl (call_and_react ec) c (handlers_at sending c) in
    let c := set_handlers sending [] c in
    let c := set_queue sending (consume_all (queue_at sending c)) c in
    let c := c <| is_async_sending := false |> <| flight := None |> in
    if ec =? 0 then async_send c else c
  end.

(** The connection of the owner becomes usable; nothing is sent by itself. *)
Definition connect (c : cache) : cache := c <| connected := true |>.

Inductive op :=
| Push (d : bytes) (h : H)
| Insert (d : bytes)
| Send
| WriteDone (ec : error_code)
| Connect
| Destroy.

Definition step (c : cache) (o : op) : cache :=
  match o with
  | Push d h => push_data d h c
  | Insert d => insert_data d c
  | Send => async_send c
  | WriteDone ec => write_done ec c
  | Connect => connect c
  | Destroy => destroy c
  end.

Definition run (c : cache) (ops : list op) : cache := foldl step c ops.

(** *** What the log says *)

Definition written (l : list event) : bytes :=
  flat_map (fun e => match e with Written d => d | _ => [] end) l.
Definition pushed (l : list event) : bytes :=
  flat_map (fun e => match e with Pushed d => d | _ => [] end) l.
Definition registered (l : list event) : list H :=
  flat_map (fun e => match e with Registered h => [h] | _ => [] end) l.
Definition called (l : list event) : list H :=
  flat_map (fun e => match e with Called h _ => [h] | _ => [] end) l.

Arguments written : simpl never.
Arguments pushed : simpl never.
Arguments registered : simpl never.
Arguments called : simpl never.

(** *** Invariant *)

Record inv (c : cache) : Prop := {
  inv_flight : flight c =
    if is_async_sending c then Some (negb (current_is_first c)) else None;
  inv_idle : is_async_sending c = false ->
    queue_at (negb (current_is_first c)) c = [] /\
    handlers_at (negb (current_is_first c)) c = [];
  inv_handlers : registered (log c) ≡ₚ
    called (log c) ++ current_recv_handler c ++ handlers_at (negb (current_is_first c)) c
}.

(** The octets handed to the writer and those waiting are those pushed, after
    [pre]. *)
Definition fifo (pre : bytes) (c : cache) : Prop :=
  written (log c) ++ current_recv_queue c = pre ++ pushed (log c).

Lemma flat_map_snoc {A B} (f : A -> list B) l x : flat_map f (l ++ [x]) = flat_map f l ++ f x.
Proof. rewrite flat_map_app. cbn. by rewrite app_nil_r. Qed.

Lemma written_emit l e : written (l ++ [e]) = written l ++ match e with Written d => d | _ => [] end.
Proof. apply flat_map_snoc. Qed.
Lemma pushed_emit l e : pushed (l ++ [e]) = pushed l ++ match e with Pushed d => d | _ => [] end.
Proof. apply flat_map_snoc. Qed.
Lemma registered_emit l e :
  registered (l ++ [e]) = registered l ++ match e with Registered h => [h] | _ => [] end.
Proof. apply flat_map_snoc. Qed.
Lemma called_emit l e :
  called (l ++ [e]) = called l ++ match e with Called h _ => [h] | _ => [] end.
Proof. apply flat_map_snoc. Qed.

Ltac log_simpl :=
  cbn [emit update log] in *;
  rewrite ?written_emit, ?pushed_emit, ?registered_emit, ?called_emit, ?app_nil_r in *.

Lemma new_cache_inv b : inv (new_cache b).
Proof. by split. Qed.

Lemma async_send_inv c : inv c -> inv (async_send c) /\ (forall pre, fifo pre c -> fifo pre (async_send c)).
Proof.
  intros [Hf Hi Hh]. unfold async_send.
  destruct (_ || _) eqn:E; [done|]. bool_facts.
  destruct c as [h0 q0 h1 q1 cur snd des con fl lg]; cbn in *. subst snd.
  destruct (Hi eq_refl) as [Hq Hh1]. unfold fifo, current_recv_queue, current_recv_handler in *.
  destruct cur; cbn in *; subst.
  all: split; [split; cbn; [done|done|]|intros pre F; cbn]; log_simpl.
  all: try (rewrite Hh; solve_Permutation).
  all: by rewrite <- F.
Qed.

Lemma push_data_inv d h c : inv c -> inv (push_data d h c) /\ (forall pre, fifo pre c -> fifo pre (push_data d h c)).
Proof.
  intros [Hf Hi Hh]. unfold push_data. cbn.
  destruct (destroyed c) eqn:E.
  - split; [split; cbn; [done|done|]|by unfold fifo; intros pre F; log_simpl].
    log_simpl. change (current_recv_handler _) with (current_recv_handler c).
    change (handlers_at _ _) with (handlers_at (negb (current_is_first c)) c).
    rewrite Hh. solve_Permutation.
  - set (c1 := set_handlers _ _ _).
    assert (inv c1 /\ (forall pre, fifo pre c -> fifo pre c1)) as [H1 F1].
    { destruct c as [h0 q0 h1 q1 cur snd des con fl lg]; cbn in *. subst c1.
      unfold fifo, current_recv_queue, current_recv_handler in *.
      destruct cur; cbn in *; (split; [split; cbn; [done|done|]|intros pre F; cbn]); log_simpl.
      all: try (rewrite Hh; solve_Permutation).
      all: by rewrite !app_assoc, F. }
    destruct (async_send_inv c1 H1) as [H2 F2]. split; [done|auto].
Qed.

(** While a write is in progress or the cache is destroyed, a push changes
    neither the buffer being written nor the mode. *)
Record quiet (c c' : cache) : Prop := {
  quiet_sending : is_async_sending c' = is_async_sending c;
  quiet_flight : flight c' = flight c;
  quiet_current : current_is_first c' = current_is_first c;
  quiet_destroyed : destroyed c' = destroyed c;
  quiet_queue : queue_at (negb (current_is_first c)) c' =
    queue_at (negb (current_is_first c)) c;
  quiet_handlers : handlers_at (negb (current_is_first c)) c' =
    handlers_at (negb (current_is_first c)) c;
  quiet_count : forall hs,
    registered (log c) ≡ₚ called (log c) ++ current_recv_handler c ++ hs ->
    registered (log c') ≡ₚ called (log c') ++ current_recv_handler c' ++ hs;
  quiet_fifo : forall pre, fifo pre c -> fifo pre c'
}.

Lemma quiet_refl c : quiet c c.
Proof. by split. Qed.

Lemma quiet_trans c1 c2 c3 : quiet c1 c2 -> quiet c2 c3 -> quiet c1 c3.
Proof.
  intros [] []. split; try congruence; auto.
Qed.

Lemma async_send_busy c :
  is_async_sending c = true \/ destroyed c = true -> async_send c = c.
Proof.
  intros Hb. unfold async_send.
  destruct (_ || _) eqn:E; [done|]. bool_facts. destruct Hb; congruence.
Qed.

Lemma push_quiet d h c :
  is_async_sending c = true \/ destroyed c = true -> quiet c (push_data d h c).
Proof.
  intros Hb. unfold push_data. cbn.
  destruct (destroyed c) eqn:E.
  - split; cbn; try done.
    + intros hs Hh. log_simpl. change (current_recv_handler _) with (current_recv_handler c).
      rewrite Hh. solve_Permutation.
    + unfold fifo. intros pre F. log_simpl. exact F.
  - destruct Hb as [Hs|]; [|done].
    destruct c as [h0 q0 h1 q1 cur snd des con fl lg]; cbn in *. subst.
    rewrite async_send_busy by (left; by destruct cur).
    unfold current_recv_queue, current_recv_handler in *.
    destruct cur; split; cbn; try done.
    all: try (intros hs Hh; log_simpl; rewrite Hh; solve_Permutation).
    all: unfold fifo, current_recv_queue; cbn; intros pre F; log_simpl; by rewrite !app_assoc, F.
Qed.

Lemma reactions_quiet ps c :
  is_async_sending c = true \/ destroyed c = true ->
  quiet c (foldl (fun c '(d, h') => push_data d h' c) c ps).
Proof.
  revert c. induction ps as [|[d h] ps IH]; intros c Hb; cbn [foldl]; [apply quiet_refl|].
  pose proof (push_quiet d h c Hb) as Q. eapply quiet_trans; [exact Q|].
  apply IH. destruct Q. rewrite quiet_sending0, quiet_destroyed0. done.
Qed.

(** Calling the handlers of one vector. *)
Lemma calls_quiet ec hs c rest :
  is_async_sending c = true \/ destroyed c = true ->
  registered (log c) ≡ₚ called (log c) ++ current_recv_handler c ++ hs ++ rest ->
  let c' := foldl (call_and_react ec) c hs in
  (is_async_sending c' = is_async_sending c /\ flight c' = flight c /\
   current_is_first c' = current_is_first c /\ destroyed c' = destroyed c /\
   queue_at (negb (current_is_first c)) c' = queue_at (negb (current_is_first c)) c /\
   handlers_at (negb (current_is_first c)) c' = handlers_at (negb (current_is_first c)) c) /\
  registered (log c') ≡ₚ called (log c') ++ current_recv_handler c' ++ rest /\
  (forall pre, fifo pre c -> fifo pre c').
Proof.
  revert c. induction hs as [|h hs IH]; intros c Hb Hh; cbn [foldl]; [done|].
  set (c1 := emit (Called h ec) c).
  pose proof (reactions_quiet (react h ec) c1 Hb) as Q.
  change (call_and_react ec c h) with (foldl (fun c '(d, h') => push_data d h' c) c1 (react h ec)).
  set (c2 := foldl _ c1 _) in *. destruct Q as [Q1 Q2 Q3 Q4 Q5 Q6 Q7 Q8].
  cbn in Q1, Q2, Q3, Q4. subst c1. change (queue_at ?b (emit _ c)) with (queue_at b c) in Q5.
  change (handlers_at ?b (emit _ c)) with (handlers_at b c) in Q6.
  cbn [current_is_first emit update] in Q5, Q6.
  destruct (IH c2) as ((R1&R2&R3&R4&R5&R6)&R7&R8).
  - rewrite Q1, Q4. done.
  - apply Q7. log_simpl. change (current_recv_handler (emit _ c)) with (current_recv_handler c).
    rewrite Hh. solve_Permutation.
  - rewrite Q3 in R5, R6. split_and!; try congruence.
    intros pre F. apply R8, Q8. unfold fifo in *. log_simpl. exact F.
Qed.

Lemma handlers_split c :
  handler_queue c ++ handler_queue_other c ≡ₚ
  current_recv_handler c ++ handlers_at (negb (current_is_first c)) c.
Proof.
  unfold current_recv_handler, handlers_at. destruct (current_is_first c); cbn; [done|].
  solve_Permutation.
Qed.

(** On a destroyed cache a push only calls its handler. *)
Record silent (c c' : cache) : Prop := {
  silent_state : c' = c <| log := log c' |>;
  silent_count : forall r,
    registered (log c) ≡ₚ called (log c) ++ r -> registered (log c') ≡ₚ called (log c') ++ r;
  silent_written : written (log c') = written (log c);
  silent_pushed : pushed (log c') = pushed (log c)
}.

Lemma silent_refl c : silent c c.
Proof. split; try done. by destruct c. Qed.

Lemma silent_trans c1 c2 c3 : silent c1 c2 -> silent c2 c3 -> silent c1 c3.
Proof.
  intros [E1 ???] [E2 ???]. split; [|by eauto|congruence|congruence].
  rewrite E2, E1. done.
Qed.

Lemma push_silent d h c : destroyed c = true -> silent c (push_data d h c).
Proof.
  intros Hd. unfold push_data. cbn. rewrite Hd.
  split; cbn; [done| |by log_simpl|by log_simpl].
  intros r Hr. log_simpl. rewrite Hr. solve_Permutation.
Qed.

Lemma silent_destroyed c c' : silent c c' -> destroyed c' = destroyed c.
Proof. intros [E _ _ _]. by rewrite E. Qed.

Lemma reactions_silent ps c :
  destroyed c = true -> silent c (foldl (fun c '(d, h') => push_data d h' c) c ps).
Proof.
  revert c. induction ps as [|[d h] ps IH]; intros c Hd; cbn [foldl]; [apply silent_refl|].
  pose proof (push_silent d h c Hd) as Q. eapply silent_trans; [exact Q|].
  apply IH. by rewrite (silent_destroyed _ _ Q).
Qed.

Lemma calls_silent ec hs c r :
  destroyed c = true -> registered (log c) ≡ₚ called (log c) ++ hs ++ r ->
  let c' := foldl (call_and_react ec) c hs in
  c' = c <| log := log c' |> /\ registered (log c') ≡ₚ called (log c') ++ r /\
  written (log c') = written (log c) /\ pushed (log c') = pushed (log c).
Proof.
  revert c. induction hs as [|h hs IH]; intros c Hd Hr; cbn [foldl].
  { split; [by destruct c|done]. }
  set (c1 := emit (Called h ec) c).
  pose proof (reactions_silent (react h ec) c1 Hd) as Q.
  change (call_and_react ec c h) with (foldl (fun c '(d, h') => push_data d h' c) c1 (react h ec)).
  set (c2 := foldl _ c1 _) in *.
  assert (Hd2 : destroyed c2 = true) by (by rewrite (silent_destroyed _ _ Q)).
  destruct Q as [Q1 Q2 Q3 Q4].
  destruct (IH c2 Hd2) as (R1 & R2 & R3 & R4).
  { apply Q2. unfold c1. log_simpl. rewrite Hr. solve_Permutation. }
  cbv zeta in *. unfold c1 in *. split_and!.
  - rewrite R1, Q1. done.
  - done.
  - rewrite R3, Q3. by log_simpl.
  - rewrite R4, Q4. by log_simpl.
Qed.

(** [destroy] calls the handlers of both vectors and empties them. *)
Lemma destroy_eq c :
  inv c -> destroyed c = false ->
  exists l,
    destroy c = c <| destroyed := true |> <| handler_queue := [] |>
                  <| handler_queue_other := [] |> <| log := l |> /\
    registered l ≡ₚ called l /\ written l = written (log c) /\ pushed l = pushed (log c).
Proof.
  intros [Hf Hi Hh] Hd. unfold destroy. rewrite Hd.
  set (c0 := c <| destroyed := true |>).
  assert (H0 : registered (log c0) ≡ₚ
    called (log c0) ++ handler_queue_other c0 ++ handler_queue c0 ++ []).
  { unfold c0. cbn. rewrite Hh, app_nil_r, <- handlers_split. solve_Permutation. }
  destruct (calls_silent broken_pipe (handler_queue_other c0) c0 _ eq_refl H0)
    as (E1 & P1 & W1 & U1).
  set (c1 := foldl _ c0 _) in *. set (c2 := c1 <| handler_queue_other := [] |>).
  assert (Hq : handler_queue c2 = handler_queue c0) by (unfold c2; by rewrite E1).
  assert (Hd2 : destroyed c2 = true) by (unfold c2; by rewrite E1).
  assert (H2 : registered (log c2) ≡ₚ called (log c2) ++ handler_queue c2 ++ []) by (by rewrite Hq).
  destruct (calls_silent broken_pipe (handler_queue c2) c2 _ Hd2 H2) as (E3 & P3 & W3 & U3).
  set (c3 := foldl _ c2 _) in *.
  exists (log c3). split_and!.
  - rewrite E3. unfold c2. rewrite E1. done.
  - by rewrite P3, app_nil_r.
  - rewrite W3. exact W1.
  - rewrite U3. exact U1.
Qed.

Lemma destroy_inv c : inv c -> inv (destroy c) /\ (forall pre, fifo pre c -> fifo pre (destroy c)).
Proof.
  intros Hc. destruct (destroyed c) eqn:Hd.
  { unfold destroy. by rewrite Hd. }
  destruct (destroy_eq c Hc Hd) as (l & -> & Hr & Hw & Hp). destruct Hc as [Hf Hi Hh].
  split; [split|]; cbn.
  - done.
  - intros Hs. destruct (Hi Hs) as [Hq' _]. split; [exact Hq'|].
    unfold handlers_at. cbn. by destruct (negb _).
  - unfold current_recv_handler, handlers_at. cbn. rewrite Hr.
    destruct (current_is_first c); cbn; by rewrite app_nil_r.
  - unfold fifo. cbn. intros pre F. by rewrite Hw, Hp.
Qed.

Lemma write_done_inv ec c :
  inv c -> inv (write_done ec c) /\ (forall pre, fifo pre c -> fifo pre (write_done ec c)).
Proof.
  intros Hc. pose proof Hc as [Hf Hi Hh]. unfold write_done.
  destruct (flight c) as [b|] eqn:Ef; [|done].
  destruct (is_async_sending c) eqn:Es; [|done]. injection Hf as ->.
  destruct (calls_quiet ec (handlers_at (negb (current_is_first c)) c) c [])
    as ((R1&R2&R3&R4&R5&R6)&R7&R8); [by left|by rewrite app_nil_r|].
  set (c1 := foldl _ c _) in *. clearbody c1. rewrite app_nil_r in R7.
  set (c2 := _ <| is_async_sending := false |> <| flight := None |>).
  assert (inv c2 /\ (forall pre, fifo pre c -> fifo pre c2)) as [H2 F2].
  { subst c2. unfold fifo, current_recv_queue, current_recv_handler in *.
    destruct c1 as [h0 q0 h1 q1 cur snd des con fl lg]. cbn in *. subst.
    destruct (current_is_first c); cbn in *; rewrite consume_all_nil; split;
      [split; cbn; [done|done|by rewrite app_nil_r] | exact R8 |
       split; cbn; [done|done|by rewrite app_nil_r] | exact R8]. }
  destruct (ec =? 0); [|done]. destruct (async_send_inv c2 H2). split; auto.
Qed.

Lemma insert_data_inv d c : inv c -> inv (insert_data d c).
Proof.
  intros Hc. unfold insert_data. destruct (destroyed c); [done|].
  apply async_send_inv. destruct Hc as [Hf Hi Hh].
  destruct c as [h0 q0 h1 q1 cur snd des con fl lg].
  unfold current_recv_handler in *. by destruct cur; split.
Qed.

Lemma step_inv c o : inv c -> inv (step c o).
Proof.
  intros Hc. destruct o; cbn [step].
  - by apply push_data_inv.
  - by apply insert_data_inv.
  - by apply async_send_inv.
  - by apply write_done_inv.
  - destruct Hc as [Hf Hi Hh]. by split.
  - by apply destroy_inv.
Qed.

Lemma run_inv ops c : inv c -> inv (run c ops).
Proof.
  revert c. induction ops as [|o ops IH]; intros c Hc; cbn; [done|].
  by apply IH, step_inv.
Qed.

Definition is_insert (o : op) : bool := match o with Insert _ => true | _ => false end.

Lemma step_fifo pre c o : inv c -> is_insert o = false -> fifo pre c -> fifo pre (step c o).
Proof.
  intros Hc Ho F. destruct o; cbn [step]; try done.
  - by apply push_data_inv.
  - by apply async_send_inv.
  - by apply write_done_inv.
  - by apply destroy_inv.
Qed.

Lemma run_fifo pre ops c :
  inv c -> Forall (fun o => is_insert o = false) ops -> fifo pre c -> fifo pre (run c ops).
Proof.
  revert c. induction ops as [|o ops IH]; intros c Hc Ho F; cbn; [done|].
  inversion Ho; subst. apply IH; [by apply step_inv|done|by apply step_fifo].
Qed.

(** [insert_data] puts its octets in front of those waiting. *)
Lemma insert_data_front d c :
  inv c -> destroyed c = false ->
  written (log (insert_data d c)) ++ current_recv_queue (insert_data d c) =
  written (log c) ++ d ++ current_recv_queue c.
Proof.
  intros Hc Hd. unfold insert_data. rewrite Hd.
  rewrite append_buf_eq, append_view_eq, append_buf_eq, consume_all_nil. cbn [app].
  set (c1 := set_queue _ _ c).
  assert (Hi1 : inv c1).
  { destruct Hc as [Hf Hi Hh]. destruct c as [h0 q0 h1 q1 cur snd des con fl lg].
    subst c1. unfold current_recv_handler in *. by destruct cur; split. }
  assert (Hl : log c1 = log c) by (subst c1; unfold set_queue; by destruct (current_is_first c)).
  assert (Hq : current_recv_queue c1 = d ++ current_recv_queue c).
  { subst c1. unfold current_recv_queue, set_queue. by destruct c as [???? []]. }
  rewrite <- Hq, <- Hl. clearbody c1. clear - Hi1.
  unfold async_send. destruct (_ || _) eqn:E; [done|]. bool_facts.
  destruct Hi1 as [Hf Hi Hh]. destruct c1 as [h0 q0 h1 q1 cur snd des con fl lg]; cbn in *. subst.
  destruct (Hi eq_refl) as [Hq _].
  unfold current_recv_queue. destruct cur; cbn in *; subst; log_simpl; done.
Qed.

(** The buffer being written stays as it is until its completion. *)
Lemma flight_stable c o b :
  inv c -> flight c = Some b ->
  (forall ec, o <> WriteDone ec) ->
  flight (step c o) = Some b /\ queue_at b (step c o) = queue_at b c.
Proof.
  intros Hc Hb Ho. pose proof Hc as [Hf _ _]. rewrite Hb in Hf.
  destruct (is_async_sending c) eqn:Es; [|done]. injection Hf as ->.
  destruct o as [d h|d| |ec| |]; cbn [step]; [| | |by destruct (Ho ec)| |].
  - destruct (push_quiet d h c) as []; [by left|]. by rewrite quiet_flight0.
  - unfold insert_data. destruct (destroyed c); [done|].
    rewrite async_send_busy by (left; unfold set_queue; by destruct (current_is_first c)).
    destruct c as [???? []]; by cbn in *.
  - by rewrite async_send_busy by (by left).
  - done.
  - destruct (destroyed c) eqn:Hd; [unfold destroy; by rewrite Hd|].
    destruct (destroy_eq c Hc Hd) as (l & -> & _). done.
Qed.

(** Destruction is final and leaves no handler behind. *)
Lemma destroyed_async_send c : destroyed (async_send c) = destroyed c.
Proof. unfold async_send. by destruct (_ || _). Qed.
Lemma destroyed_push d h c : destroyed (push_data d h c) = destroyed c.
Proof.
  unfold push_data. cbn. destruct (destroyed c) eqn:E; [done|].
  rewrite destroyed_async_send. destruct (current_is_first c) eqn:F; cbn; rewrite ?F; exact E.
Qed.
Lemma destroyed_react ec h c : destroyed (call_and_react ec c h) = destroyed c.
Proof.
  unfold call_and_react. set (c0 := emit _ _). change (destroyed c) with (destroyed c0).
  clearbody c0. generalize (react h ec). intros ps. revert c0.
  induction ps as [|[d h'] ps IH]; intros c0; cbn [foldl]; [done|].
  by rewrite IH, destroyed_push.
Qed.
Lemma destroyed_calls ec hs c : destroyed (foldl (call_and_react ec) c hs) = destroyed c.
Proof. revert c. induction hs as [|h hs IH]; intros c; cbn [foldl]; [done|]. by rewrite IH, destroyed_react. Qed.

Definition no_handlers (c : cache) : Prop := handler_queue c = [] /\ handler_queue_other c = [].

Lemma step_no_handlers c o :
  inv c -> (destroyed c = true -> no_handlers c) ->
  destroyed (step c o) = true -> no_handlers (step c o).
Proof.
  intros Hinv Hc Hd. destruct (destroyed c) eqn:E.
  - specialize (Hc eq_refl) as [H1 H2]. destruct o; cbn [step].
    + unfold push_data. cbn. rewrite E. by split.
    + unfold insert_data. rewrite E. by split.
    + unfold async_send. rewrite E, !orb_true_r. by split.
    + unfold write_done. destruct (flight c) as [sending|]; [|by split].
      assert (Hh : handlers_at sending c = []) by (unfold handlers_at; by destruct sending).
      rewrite Hh. cbn [foldl]. destruct sending; cbn; destruct (ec =? 0); unfold async_send; cbn;
        rewrite ?E, ?orb_true_r; by split.
    + by split.
    + unfold destroy. rewrite E. by split.
  - destruct o; cbn [step] in *.
    + by rewrite destroyed_push, E in Hd.
    + unfold insert_data in Hd. rewrite E, destroyed_async_send in Hd. cbn in Hd.
      destruct (current_is_first c); cbn in Hd; congruence.
    + by rewrite destroyed_async_send, E in Hd.
    + unfold write_done in Hd. destruct (flight c) as [sending|]; [|congruence].
      destruct (ec =? 0); rewrite ?destroyed_async_send in Hd; destruct sending; cbn in Hd;
        rewrite destroyed_calls in Hd; congruence.
    + cbn in Hd. congruence.
    + destruct (destroy_eq c Hinv E) as (l & -> & _). by split.
Qed.

Lemma run_no_handlers ops c :
  inv c -> (destroyed c = true -> no_handlers c) ->
  destroyed (run c ops) = true -> no_handlers (run c ops).
Proof.
  revert c. induction ops as [|o ops IH]; intros c Hinv Hc; cbn; [done|].
  apply IH; [by apply step_inv|]. by apply step_no_handlers.
Qed.
End Cache.
End SendDataCache.

(** ** Properties *)

(** C12: whatever is pushed, sent, connected, completed and destroyed, in any order
    and with handlers that push more data when they are called, what
    [SendDataCache] has handed to its writer, followed by what it still holds,
    is exactly what it accepted (everything pushed before its destruction), in
    order. *)
Theorem send_cache_fifo {H} react connected (ops : list (@SendDataCache.op H)) :
  Forall (fun o => SendDataCache.is_insert o = false) ops ->
  let c := SendDataCache.run react (SendDataCache.new_cache connected) ops in
  SendDataCache.written (SendDataCache.log c) ++ SendDataCache.current_recv_queue c =
  SendDataCache.pushed (SendDataCache.log c).
Proof.
  intros Hops. apply (SendDataCache.run_fifo react [] ops); [|done|done].
  apply SendDataCache.new_cache_inv.
Qed.

Definition react_once (h : nat) (_ : error_code) : list (bytes * nat) :=
  if (h =? 0)%nat then [(str "more", 1%nat)] else [].

Definition no_react (_ : nat) (_ : error_code) : list (bytes * nat) := [].

Lemma send_cache_fifo_witness :
  let c := SendDataCache.run react_once (SendDataCache.new_cache true)
    [SendDataCache.Push (str "a") 0%nat; SendDataCache.Push (str "b") 2%nat;
     SendDataCache.WriteDone 0] in
  SendDataCache.written (SendDataCache.log c) ++ SendDataCache.current_recv_queue c = str "abmore".
Proof.
  cbv zeta. rewrite (send_cache_fifo react_once true); [vm_compute; reflexivity|repeat constructor].
Defined.

(** C24: every completion handler given to the cache is called exactly once or is
    still in one of its two queues; when the cache is destroyed, every handler
    has been called. *)
Theorem send_cache_handlers_once {H} react connected (ops : list (@SendDataCache.op H)) :
  let c := SendDataCache.run react (SendDataCache.new_cache connected) ops in
  SendDataCache.registered (SendDataCache.log c) ≡ₚ
    SendDataCache.called (SendDataCache.log c) ++ SendDataCache.handler_queue c ++
    SendDataCache.handler_queue_other c /\
  (SendDataCache.destroyed c = true ->
   SendDataCache.registered (SendDataCache.log c) ≡ₚ SendDataCache.called (SendDataCache.log c)).
Proof.
  cbn zeta. set (c := SendDataCache.run _ _ _).
  assert (Hinv : SendDataCache.inv c) by apply SendDataCache.run_inv, SendDataCache.new_cache_inv.
  assert (E : SendDataCache.registered (SendDataCache.log c) ≡ₚ
    SendDataCache.called (SendDataCache.log c) ++ SendDataCache.handler_queue c ++
    SendDataCache.handler_queue_other c).
  { destruct Hinv as [_ _ Hh]. rewrite Hh. f_equiv. symmetry. apply SendDataCache.handlers_split. }
  split; [done|]. intros Hd. rewrite E.
  destruct (SendDataCache.run_no_handlers react ops (SendDataCache.new_cache connected)
    (SendDataCache.new_cache_inv _) ltac:(done) Hd) as [H1 H2].
  unfold c. by rewrite H1, H2, app_nil_r.
Qed.

(** [insert_data] puts its octets before everything that was not handed to the
    writer yet, which is how the password precedes the commands queued while the
    pipeline was connecting. *)
Theorem send_cache_insert_first {H} react connected (ops : list (@SendDataCache.op H)) d :
  let c := SendDataCache.run react (SendDataCache.new_cache connected) ops in
  SendDataCache.destroyed c = false ->
  SendDataCache.written (SendDataCache.log (SendDataCache.insert_data d c)) ++
    SendDataCache.current_recv_queue (SendDataCache.insert_data d c) =
  SendDataCache.written (SendDataCache.log c) ++ d ++ SendDataCache.current_recv_queue c.
Proof.
  intros c Hd. apply SendDataCache.insert_data_front; [|done].
  apply SendDataCache.run_inv, SendDataCache.new_cache_inv.
Qed.

Lemma send_cache_insert_first_witness :
  let c := SendDataCache.run no_react (SendDataCache.new_cache false)
    [SendDataCache.Push (str "data") 0%nat; SendDataCache.Connect] in
  SendDataCache.written (SendDataCache.log (SendDataCache.insert_data (str "password") c)) ++
    SendDataCache.current_recv_queue (SendDataCache.insert_data (str "password") c) =
  str "passworddata".
Proof.
  cbv zeta. rewrite (send_cache_insert_first no_react false); vm_compute; reflexivity.
Defined.

(** While a write is in progress nothing changes the buffer it was given: only
    its own completion does. *)
Theorem send_cache_flight_stable {H} react connected (ops : list (@SendDataCache.op H)) o b :
  let c := SendDataCache.run react (SendDataCache.new_cache connected) ops in
  SendDataCache.flight c = Some b -> (forall ec, o <> SendDataCache.WriteDone ec) ->
  SendDataCache.flight (SendDataCache.step react c o) = Some b /\
  SendDataCache.queue_at b (SendDataCache.step react c o) = SendDataCache.queue_at b c.
Proof.
  intros c Hf Ho. apply SendDataCache.flight_stable; [|done|done].
  apply SendDataCache.run_inv, SendDataCache.new_cache_inv.
Qed.

Lemma send_cache_flight_stable_witness :
  SendDataCache.queue_at true (SendDataCache.step no_react
    (SendDataCache.run no_react (SendDataCache.new_cache true)
      [SendDataCache.Push (str "a") 0%nat]) (SendDataCache.Push (str "b") 1%nat)) = str "a".
Proof.
  destruct (send_cache_flight_stable no_react true [SendDataCache.Push (str "a") 0%nat]
    (SendDataCache.Push (str "b") 1%nat) true eq_refl ltac:(discriminate)) as [_ H].
  rewrite H. vm_compute. reflexivity.
Defined.
