(* ===== verification/ReadCache.v ===== *)
(** * The receive cache

    [ReadDataCache] of [src/src/core/utils.h]: data of a pipelined session that
    waits for its reader. *)

From Stdlib Require Import ZArith Lia.
From S2P Require Import Prelude Utils.
Local Open Scope Z_scope.

(** ** ReadDataCache

    A call of the read handler is a value [(data, push_count)]; the owner makes
    the call.  [async_read] consumes the queue only after the handler has
    returned, so it is in two parts around the call. *)
Module ReadDataCache.
Import Streambuf.

Record cache := mkCache {
  data_queue : bytes;
  push_ack_count : Z;
  is_waiting : bool
}.
#[export] Instance eta_cache : Settable cache :=
  fun r => mkCache (data_queue r) (push_ack_count r) (is_waiting r).

Definition new_cache : cache := mkCache [] 0 false.

Definition call : Type := bytes * Z.

Definition push_data (data : bytes) (c : cache) : cache * option call :=
  if is_waiting c then (c <| is_waiting := false |>, Some (data, 1))
  else
    let c := c <| push_ack_count ::= fun n => u64 (n + 1) |> in
    (c <| data_queue ::= fun q => fst (append_view q data) |>, None).

Definition async_read_begin (c : cache) : cache * option call :=
  if zlen (data_queue c) =? 0 then (c <| is_waiting := true |>, None)
  else (c, Some (data_queue c, push_ack_count c)).

(** After the handler called by the second branch has returned. *)
Definition async_read_end (c : cache) : cache :=
  c <| data_queue ::= consume_all |> <| push_ack_count := 0 |>.

Definition has_queued_data (c : cache) : bool := 0 <? zlen (data_queue c).

(** *** A handler that does not read again before it returns *)

Inductive op := Push (data : bytes) | Read.
#[export] Instance op_eq_dec : EqDecision op.
Proof. solve_decision. Defined.

(** One call from the outside; the result lists the handler calls made. *)
Definition step (c : cache) (o : op) : cache * list call :=
  match o with
  | Push d => let '(c, k) := push_data d c in (c, option_list k)
  | Read =>
    match async_read_begin c with
    | (c, None) => (c, [])
    | (c, Some k) => (async_read_end c, [k])
    end
  end.

Fixpoint run (c : cache) (ops : list op) : cache * list call :=
  match ops with
  | [] => (c, [])
  | o :: ops =>
    let '(c, k) := step c o in
    let '(c, ks) := run c ops in (c, k ++ ks)
  end.

Definition pushed (ops : list op) : bytes :=
  flat_map (fun o => match o with Push d => d | Read => [] end) ops.
Definition push_number (ops : list op) : Z :=
  Z.of_nat (length (filter (fun o => o <> Read) ops)).
Definition delivered (ks : list call) : bytes := flat_map fst ks.
Definition delivered_count (ks : list call) : Z := foldr (fun k n => snd k + n) 0 ks.

(** Waiting for data and holding data exclude each other. *)
Definition inv (c : cache) : Prop :=
  0 <= push_ack_count c /\ (is_waiting c = true -> data_queue c = []).

Lemma delivered_app a b : delivered (a ++ b) = delivered a ++ delivered b.
Proof. apply flat_map_app. Qed.

Lemma delivered_count_app a b :
  delivered_count (a ++ b) = delivered_count a + delivered_count b.
Proof. unfold delivered_count. induction a as [|k a IH]; cbn [app foldr]; lia. Qed.

Lemma push_number_cons o ops :
  push_number (o :: ops) = (if decide (o <> Read) then 1 else 0) + push_number ops.
Proof.
  unfold push_number. rewrite filter_cons. destruct (decide _); cbn [length]; lia.
Qed.

Lemma step_spec c o :
  inv c -> push_ack_count c + 1 < 18446744073709551616 ->
  let '(c', ks) := step c o in
  inv c' /\
  delivered ks ++ data_queue c' = data_queue c ++ pushed [o] /\
  delivered_count ks + push_ack_count c' = push_ack_count c + push_number [o].
Proof.
  intros [Hc Hw] Hb. destruct o as [d|]; cbn [step].
  - unfold push_data. destruct (is_waiting c) eqn:E.
    + cbn. rewrite Hw by done. rewrite !app_nil_r. cbn.
      split_and!; [split; cbn; [lia|done]|done|].
      change (push_number [Push d]) with 1. lia.
    + cbn. rewrite append_view_eq, app_nil_r.
      split_and!; [split; cbn; [unfold u64; rewrite Z.mod_small; lia|congruence]|done|].
      change (push_number [Push d]) with 1. unfold u64. rewrite Z.mod_small by lia. lia.
  - unfold async_read_begin. destruct (Z.eqb_spec (zlen (data_queue c)) 0) as [E|E]; cbn.
    + apply zlen_zero in E. rewrite E. split_and!; [split; cbn; auto|done|].
      change (push_number [Read]) with 0. lia.
    + rewrite consume_all_nil. split_and!;
        [split; cbn; [lia|intros _; apply consume_all_nil]|by rewrite !app_nil_r|].
      cbn [delivered_count foldr snd].
      change (push_number [Read]) with 0. lia.
Qed.

Lemma step_count_bound c o :
  inv c -> push_ack_count c + 1 < 18446744073709551616 ->
  push_ack_count (step c o).1 <= push_ack_count c + push_number [o].
Proof.
  intros Hc Hb. pose proof (step_spec c o Hc Hb) as H.
  destruct (step c o) as [c' ks] eqn:E. destruct H as (_ & _ & H).
  assert (0 <= delivered_count ks); [|cbn; lia].
  clear H. destruct Hc as [Hc _]. destruct o; cbn in E.
  - unfold push_data in E. destruct (is_waiting c); injection E as _ <-; cbn; lia.
  - unfold async_read_begin in E. destruct (_ =? 0); injection E as _ <-; cbn; lia.
Qed.

Lemma run_spec ops c :
  inv c -> push_ack_count c + push_number ops + 1 < 18446744073709551616 ->
  let '(c', ks) := run c ops in
  inv c' /\
  delivered ks ++ data_queue c' = data_queue c ++ pushed ops /\
  delivered_count ks + push_ack_count c' = push_ack_count c + push_number ops.
Proof.
  revert c. induction ops as [|o ops IH]; intros c Hc Hb; cbn [run].
  - split_and!; [done|cbn; by rewrite app_nil_r|]. change (push_number []) with 0. cbn. lia.
  - rewrite push_number_cons in Hb.
    assert (0 <= push_number ops) by (unfold push_number; lia).
    assert (Hb1 : push_ack_count c + 1 < 18446744073709551616)
      by (destruct (decide (o <> Read)); lia).
    pose proof (step_spec c o Hc Hb1) as Hs. pose proof (step_count_bound c o Hc Hb1) as Hk.
    rewrite push_number_cons in Hk. change (push_number []) with 0 in Hk.
    destruct (step c o) as [c1 k1]. destruct Hs as (Hi & Hd & Hn). cbn in Hk.
    specialize (IH c1 Hi). destruct (run c1 ops) as [c2 k2].
    destruct IH as (Hi2 & Hd2 & Hn2); [destruct (decide (o <> Read)); lia|].
    split_and!; [done| |].
    + change (o :: ops) with ([o] ++ ops). unfold pushed. rewrite flat_map_app.
      rewrite delivered_app, <- app_assoc, Hd2, !app_assoc. by rewrite Hd.
    + rewrite delivered_count_app. change (o :: ops) with ([o] ++ ops).
      cbn [app]. rewrite push_number_cons in Hn |- *.
      change (push_number []) with 0 in Hn. lia.
Qed.

(** *** A handler that reads again before it returns

    [rearm] says whether the handler called with these octets calls
    [async_read] before it returns.  [None]: the calls are still nested when
    the fuel ends. *)
Fixpoint async_read_nested (fuel : nat) (rearm : bytes -> bool) (c : cache)
  : option (cache * list call) :=
  match fuel with
  | O => None
  | S fuel =>
    match async_read_begin c with
    | (c, None) => Some (c, [])
    | (c, Some k) =>
      if rearm (fst k) then
        match async_read_nested fuel rearm c with
        | Some (c, ks) => Some (async_read_end c, k :: ks)
        | None => None
        end
      else Some (async_read_end c, [k])
    end
  end.

Lemma async_read_nested_diverges fuel rearm c :
  data_queue c <> [] -> rearm (data_queue c) = true ->
  async_read_nested fuel rearm c = None.
Proof.
  intros Hq Hr. induction fuel as [|fuel IH]; cbn [async_read_nested]; [done|].
  unfold async_read_begin. destruct (Z.eqb_spec (zlen (data_queue c)) 0) as [E|_].
  { by apply zlen_zero in E. }
  cbn [fst]. by rewrite Hr, IH.
Qed.

End ReadDataCache.

(** ** Properties *)



(** [async_read] calls its reader before it empties the queue, so a reader that
    asks for more data from inside the call is handed the same data again, and
    again: the calls never end. *)
Theorem read_cache_nested_read_diverges fuel rearm c :
  ReadDataCache.data_queue c <> [] -> rearm (ReadDataCache.data_queue c) = true ->
  ReadDataCache.async_read_nested fuel rearm c = None.
Proof. apply ReadDataCache.async_read_nested_diverges. Qed.

Lemma read_cache_nested_read_diverges_witness :
  ReadDataCache.async_read_nested 100 (fun _ => true) (ReadDataCache.mkCache (str "x") 1 false) = None.
Proof.
  exact (read_cache_nested_read_diverges 100 (fun _ => true) (ReadDataCache.mkCache (str "x") 1 false)
    ltac:(discriminate) eq_refl).
Defined.
