(* ===== verification/PipelineComponent.v ===== *)
(** * The pipeline part of a session

    [src/src/session/pipelinecomponent.h] and [.cpp]: allocation of 16-bit
    session ids, the acknowledgement window and the received-data cache. *)

From Stdlib Require Import ZArith Lia.
From S2P Require Import Prelude Utils Caches ReadCache.
Local Open Scope Z_scope.

Module PipelineComponent.

Record PipelineComponent := mkPipelineComponent {
  m_session_id : Z;
  m_is_use_pipeline : bool;
  m_is_async_writing : bool;
  m_write_close_future : bool;
  pipeline_ack_counter : Z;
  pipeline_wait_for_ack : bool;
  pipeline_first_call_ack : bool;
  pipeline_data_cache : ReadDataCache.cache
}.
#[export] Instance eta_component : Settable PipelineComponent :=
  fun r => mkPipelineComponent (m_session_id r) (m_is_use_pipeline r)
    (m_is_async_writing r) (m_write_close_future r) (pipeline_ack_counter r)
    (pipeline_wait_for_ack r) (pipeline_first_call_ack r) (pipeline_data_cache r).

(** The constructor; the window goes through [static_cast<int>]. *)
Definition new_component (pipeline_ack_window : Z) : PipelineComponent :=
  mkPipelineComponent 0 false false false (u64 (i32 pipeline_ack_window)) false true
    ReadDataCache.new_cache.

Definition set_session_id (id : Z) (c : PipelineComponent) : PipelineComponent :=
  c <| m_session_id := id |>.
Definition set_use_pipeline (c : PipelineComponent) : PipelineComponent :=
  c <| m_is_use_pipeline := true |>.
Definition set_async_writing_data (b : bool) (c : PipelineComponent) : PipelineComponent :=
  c <| m_is_async_writing := b |>.
Definition set_write_close_future (b : bool) (c : PipelineComponent) : PipelineComponent :=
  c <| m_write_close_future := b |>.

Definition canbe_closed_by_pipeline (c : PipelineComponent) : bool :=
  negb (m_is_async_writing c) &&
  negb (ReadDataCache.has_queued_data (pipeline_data_cache c)).

(** [pipeline_in_recv]: the component and the call of the read handler. *)
Definition pipeline_in_recv (data : bytes) (c : PipelineComponent)
  : outcome (PipelineComponent * option ReadDataCache.call) :=
  if negb (m_is_use_pipeline c)
  then Throw (logic_error "cannot call pipeline_in_recv without pipeline!")
  else
    let '(cache, k) := ReadDataCache.push_data data (pipeline_data_cache c) in
    Ret (c <| pipeline_data_cache := cache |>, k).

(** ** The acknowledgement window *)

Definition recv_ack_cmd (ack_count : Z) (c : PipelineComponent) : PipelineComponent :=
  c <| pipeline_ack_counter ::= fun n => u64 (n + ack_count) |>.

Definition pre_call_ack_func (c : PipelineComponent) : PipelineComponent * bool :=
  if negb (pipeline_first_call_ack c) && (pipeline_ack_counter c <=? 0)
  then (c <| pipeline_wait_for_ack := true |>, false)
  else
    let c := if pipeline_first_call_ack c then c
             else c <| pipeline_ack_counter ::= fun n => u64 (n - 1) |> in
    (c <| pipeline_wait_for_ack := false |> <| pipeline_first_call_ack := false |>, true).

(** A sequence of acknowledgements and of attempts to read. *)
Inductive ack_op := RecvAck (n : Z) | PreCall.

Definition ack_step (s : PipelineComponent * Z) (o : ack_op) : PipelineComponent * Z :=
  let '(c, permits) := s in
  match o with
  | RecvAck n => (recv_ack_cmd n c, permits)
  | PreCall => let '(c, ok) := pre_call_ack_func c in
               (c, if ok : bool then permits + 1 else permits)
  end.

Definition ack_run (s : PipelineComponent * Z) (ops : list ack_op) : PipelineComponent * Z :=
  foldl ack_step s ops.

Definition acks (ops : list ack_op) : Z :=
  foldr (fun o n => match o with RecvAck k => k | PreCall => 0 end + n) 0 ops.

Definition free_first (c : PipelineComponent) : Z := if pipeline_first_call_ack c then 0 else 1.

(** Permitted calls and remaining credit account for the window, the received
    acknowledgements and the free first call. *)
Lemma ack_step_balance c p o :
  0 <= pipeline_ack_counter c ->
  match o with RecvAck n => 0 <= n /\ pipeline_ack_counter c + n < 18446744073709551616
             | PreCall => pipeline_ack_counter c < 18446744073709551616 end ->
  let '(c', p') := ack_step (c, p) o in
  0 <= pipeline_ack_counter c' /\ p <= p' /\
  p' + pipeline_ack_counter c' - free_first c' =
  p + pipeline_ack_counter c - free_first c + acks [o].
Proof.
  intros Hc Ho. destruct o as [n|]; cbn [ack_step].
  - unfold recv_ack_cmd, free_first, u64, acks. cbn. rewrite Z.mod_small by lia. lia.
  - unfold pre_call_ack_func, free_first, acks. destruct (pipeline_first_call_ack c) eqn:E; cbn.
    + lia.
    + destruct (Z.leb_spec (pipeline_ack_counter c) 0); cbn; rewrite ?E; [lia|].
      unfold u64. rewrite Z.mod_small by lia. lia.
Qed.

Lemma ack_run_balance ops c p :
  0 <= pipeline_ack_counter c ->
  Forall (fun o => match o with RecvAck n => 0 <= n | PreCall => True end) ops ->
  pipeline_ack_counter c + acks ops < 18446744073709551616 ->
  let '(c', p') := ack_run (c, p) ops in
  0 <= pipeline_ack_counter c' /\
  p' + pipeline_ack_counter c' - free_first c' =
  p + pipeline_ack_counter c - free_first c + acks ops.
Proof.
  revert c p. induction ops as [|o ops IH]; intros c p Hc Hops Hb.
  - cbn. lia.
  - inversion Hops as [|? ? Ho Hops']; subst.
    assert (Ha : 0 <= acks ops).
    { clear - Hops'. induction Hops' as [|o ops Ho _ IH]; unfold acks in *; cbn; [lia|].
      destruct o; lia. }
    change (acks (o :: ops)) with (match o with RecvAck k => k | PreCall => 0 end + acks ops) in Hb |- *.
    pose proof (ack_step_balance c p o Hc) as Hs.
    change (ack_run (c, p) (o :: ops)) with (ack_run (ack_step (c, p) o) ops).
    assert (Hpre : match o with RecvAck n => 0 <= n /\ pipeline_ack_counter c + n < 18446744073709551616
             | PreCall => pipeline_ack_counter c < 18446744073709551616 end) by (destruct o; lia).
    specialize (Hs Hpre). assert (Hle : pipeline_ack_counter (ack_step (c, p) o).1 <=
      pipeline_ack_counter c + acks [o]).
    { destruct o; cbn [ack_step].
      - unfold recv_ack_cmd, u64, acks. cbn. rewrite Z.mod_small by lia. lia.
      - unfold pre_call_ack_func, acks. destruct (pipeline_first_call_ack c); cbn; [lia|].
        destruct (Z.leb_spec (pipeline_ack_counter c) 0); cbn; [lia|].
        unfold u64. rewrite Z.mod_small by lia. lia. }
    destruct (ack_step (c, p) o) as [c1 p1]. destruct Hs as (H1 & H2 & H3). cbn in Hle.
    unfold acks in Hle, H3. cbn [foldr] in Hle, H3.
    specialize (IH c1 p1 H1 Hops'). destruct (ack_run (c1, p1) ops) as [c2 p2].
    destruct IH as [H4 H5]; [destruct o; lia|]. destruct o; lia.
Qed.

(** A session that waits for an acknowledgement reads again after one. *)
Lemma ack_wakes c n :
  0 <= pipeline_ack_counter c -> 0 < n -> pipeline_ack_counter c + n < 18446744073709551616 ->
  (pre_call_ack_func (recv_ack_cmd n c)).2 = true.
Proof.
  intros. unfold pre_call_ack_func, recv_ack_cmd, u64. cbn. rewrite Z.mod_small by lia.
  destruct (Z.leb_spec (pipeline_ack_counter c + n) 0); [lia|]. by rewrite andb_false_r.
Qed.

(** ** Session ids

    The static members [s_session_id_counter] and [s_session_used_ids]. *)
Record ids := mkIds {
  s_session_id_counter : Z;
  s_session_used_ids : gset Z
}.
#[export] Instance eta_ids : Settable ids :=
  fun r => mkIds (s_session_id_counter r) (s_session_used_ids r).

Definition no_ids : ids := mkIds 0 ∅.

(** The do-while loop: the id taken and the counter after it.  The counter has
    65536 values, so that many iterations visit all of them. *)
Fixpoint allocate_loop (fuel : nat) (counter : Z) (used : gset Z) : option (Z * Z) :=
  match fuel with
  | O => None
  | S fuel =>
    let id := counter in
    let counter := u16 (counter + 1) in
    if decide (id ∈ used) then allocate_loop fuel counter used else Some (id, counter)
  end.

Definition id_fuel : nat := Z.to_nat 65536.

Definition id_over : exn :=
  logic_error "session id is over !! pipeline reached the session id limits !!".

(** [allocate_session_id]: the new id and the static members.  [NoEnd] stands
    for a loop that does not end. *)
Definition allocate_session_id (s : ids) : outcome (Z * ids) :=
  if 65535 <=? Z.of_nat (size (s_session_used_ids s)) then Throw id_over
  else
    match allocate_loop id_fuel (s_session_id_counter s) (s_session_used_ids s) with
    | None => Undef NoEnd
    | Some (id, counter) => Ret (id, mkIds counter ({[id]} ∪ s_session_used_ids s))
    end.

(** [free_session_id] of a component: its id and the static members. *)
Definition free_session_id (id : Z) (s : ids) : Z * ids :=
  (0, s <| s_session_used_ids ::= fun u => u ∖ {[id]} |>).

Definition ids_wf (s : ids) : Prop :=
  0 <= s_session_id_counter s < 65536 /\
  forall i, i ∈ s_session_used_ids s -> 0 <= i < 65536.

Lemma allocate_loop_spec fuel counter used id counter' :
  0 <= counter < 65536 -> allocate_loop fuel counter used = Some (id, counter') ->
  id ∉ used /\ 0 <= id < 65536 /\ 0 <= counter' < 65536.
Proof.
  revert counter. induction fuel as [|fuel IH]; intros counter Hc; cbn [allocate_loop]; [done|].
  destruct (decide _).
  - apply IH, u16_range.
  - intros [= <- <-]. pose proof (u16_range (counter + 1)). done.
Qed.

(** The values the counter takes. *)
Definition visited (counter : Z) (n : nat) : list Z :=
  (fun i => u16 (counter + Z.of_nat i)) <$> seq 0 n.

Lemma visited_NoDup counter n : (Z.of_nat n <= 65536) -> NoDup (visited counter n).
Proof.
  intros Hn. unfold visited. apply NoDup_fmap_2_strong; [|apply NoDup_seq].
  intros i j Hi%elem_of_seq Hj%elem_of_seq E. unfold u16 in E.
  assert (Hz : (Z.of_nat i - Z.of_nat j) mod 65536 = 0).
  { replace (Z.of_nat i - Z.of_nat j)
      with ((counter + Z.of_nat i) - (counter + Z.of_nat j)) by lia.
    rewrite Zminus_mod, E, Z.sub_diag. done. }
  apply Z.mod_divide in Hz as [k Hk]; lia.
Qed.

Lemma allocate_loop_None fuel counter used :
  0 <= counter < 65536 -> allocate_loop fuel counter used = None ->
  forall x, x ∈ visited counter fuel -> x ∈ used.
Proof.
  revert counter. induction fuel as [|fuel IH]; intros counter Hc H x Hx.
  { unfold visited in Hx. cbn in Hx. set_solver. }
  cbn [allocate_loop] in H. destruct (decide _) as [Hin|]; [|done].
  unfold visited in Hx. apply list_elem_of_fmap in Hx as (i & -> & Hi%elem_of_seq).
  destruct i as [|i].
  - rewrite Z.add_0_r, u16_small by done. done.
  - apply (IH _ (u16_range _) H). unfold visited. apply list_elem_of_fmap.
    exists i. split; [|apply elem_of_seq; lia].
    unfold u16. rewrite Zplus_mod_idemp_l. f_equal. lia.
Qed.

Lemma id_fuel_value : Z.of_nat id_fuel = 65536.
Proof. apply Z2Nat.id. lia. Qed.

(** Below the limit the loop ends, with an id nobody uses. *)
Lemma allocate_session_id_ok s :
  ids_wf s -> Z.of_nat (size (s_session_used_ids s)) < 65535 ->
  exists id s', allocate_session_id s = Ret (id, s') /\
    id ∉ s_session_used_ids s /\ 0 <= id < 65536 /\
    s_session_used_ids s' = {[id]} ∪ s_session_used_ids s /\ ids_wf s'.
Proof.
  intros [Hc Hu] Hs. unfold allocate_session_id.
  destruct (Z.leb_spec 65535 (Z.of_nat (size (s_session_used_ids s)))); [lia|].
  destruct (allocate_loop _ _ _) as [[id counter]|] eqn:E.
  - apply allocate_loop_spec in E as (H1 & H2 & H3); [|done].
    exists id, (mkIds counter ({[id]} ∪ s_session_used_ids s)).
    split_and!; try done; [lia..|]. split; [done|]. cbn.
    intros i [->%elem_of_singleton|Hi]%elem_of_union; auto.
  - exfalso.
    pose proof (allocate_loop_None _ _ _ Hc E) as Hall.
    pose proof id_fuel_value as Hfuel. revert Hfuel E Hall. generalize id_fuel.
    intros fuel Hfuel E Hall.
    pose proof (visited_NoDup (s_session_id_counter s) fuel ltac:(lia)) as Hnd.
    assert (Hsub : list_to_set (visited (s_session_id_counter s) fuel)
      ⊆ s_session_used_ids s).
    { intros x Hx%elem_of_list_to_set. auto. }
    apply subseteq_size in Hsub.
    rewrite size_list_to_set in Hsub by done.
    unfold visited in Hsub. rewrite length_fmap, length_seq in Hsub. lia.
Qed.

Lemma allocate_session_id_full s :
  65535 <= Z.of_nat (size (s_session_used_ids s)) -> allocate_session_id s = Throw id_over.
Proof.
  intros. unfold allocate_session_id.
  destruct (Z.leb_spec 65535 (Z.of_nat (size (s_session_used_ids s)))); [done|lia].
Qed.

(** The sessions alive at one time, by id. *)
Inductive id_op := Alloc | FreeAt (n : nat).

Definition id_step (s : list Z * ids) (o : id_op) : outcome (list Z * ids) :=
  let '(live, s) := s in
  match o with
  | Alloc => let! r := allocate_session_id s in Ret (live ++ [fst r], snd r)
  | FreeAt n =>
    match live !! n with
    | Some id => Ret (delete n live, snd (free_session_id id s))
    | None => Ret (live, s)
    end
  end.

Fixpoint id_run (s : list Z * ids) (ops : list id_op) : outcome (list Z * ids) :=
  match ops with
  | [] => Ret s
  | o :: ops => let! s := id_step s o in id_run s ops
  end.

Definition id_inv (s : list Z * ids) : Prop :=
  NoDup (fst s) /\ ids_wf (snd s) /\ s_session_used_ids (snd s) = list_to_set (fst s).

Lemma id_step_inv s o s' : id_inv s -> id_step s o = Ret s' -> id_inv s'.
Proof.
  destruct s as [live s]. intros (Hnd & Hwf & Hu). cbn in Hnd, Hwf, Hu.
  destruct o as [|n]; cbn [id_step].
  - destruct (decide (Z.of_nat (size (s_session_used_ids s)) < 65535)) as [Hlt|Hge].
    + destruct (allocate_session_id_ok s Hwf Hlt) as (id & s1 & -> & Hid & _ & Hu1 & Hwf1).
      cbn [obind fst snd]. intros [= <-]. split_and!; cbn; [|done|].
      * apply list.NoDup_app. split; [done|]. split; [|apply NoDup_singleton].
        intros x Hx ->%list_elem_of_singleton. apply Hid. rewrite Hu. by apply elem_of_list_to_set.
      * rewrite Hu1, Hu, list_to_set_app_L. set_solver.
    + rewrite allocate_session_id_full by lia. done.
  - destruct (live !! n) as [id|] eqn:E; intros [= <-]; [|done].
    rewrite delete_take_drop. apply take_drop_middle in E. rewrite <- E in Hnd, Hu.
    apply list.NoDup_app in Hnd as (Hn1 & Hdisj & Hn2).
    apply list.NoDup_cons in Hn2 as [Hni Hn2].
    destruct Hwf as [Hc Hwf].
    split_and!; cbn.
    + apply list.NoDup_app. split; [done|]. split; [|done].
      intros x Hx Hx2. apply (Hdisj x Hx). set_solver.
    + split; cbn; [done|]. set_solver.
    + rewrite Hu. rewrite !list_to_set_app_L, list_to_set_cons.
      assert (id ∉ take n live) by (intros Hin; apply (Hdisj id Hin); set_solver).
      apply set_eq. intros x.
      rewrite elem_of_difference, !elem_of_union, !elem_of_list_to_set, elem_of_singleton.
      split; [tauto|]. intros Hx. split; [tauto|]. intros ->. tauto.
Qed.

Lemma id_run_inv ops s s' : id_inv s -> id_run s ops = Ret s' -> id_inv s'.
Proof.
  revert s. induction ops as [|o ops IH]; intros s Hs; cbn [id_run].
  - by intros [= <-].
  - intros H. apply obind_Ret in H as (s1 & H1 & H). eapply IH; [|done]. by eapply id_step_inv.
Qed.

Lemma id_inv_init : id_inv ([], no_ids).
Proof.
  split_and!; [constructor| |done]. split; cbn; [lia|set_solver].
Qed.

End PipelineComponent.

(** ** Properties *)

(** C26: the window is never overrun: over any sequence of acknowledgements received
    and reads asked for, the reads permitted are at most the initial window, the
    acknowledgements received and the one free first read; the counter never
    goes below zero. *)
Theorem ack_window_bounds_reads window ops :
  0 <= window < 2147483648 ->
  Forall (fun o => match o with PipelineComponent.RecvAck n => 0 <= n | PipelineComponent.PreCall => True end) ops ->
  window + PipelineComponent.acks ops < 18446744073709551616 ->
  let '(c, permits) := PipelineComponent.ack_run (PipelineComponent.new_component window, 0) ops in
  0 <= PipelineComponent.pipeline_ack_counter c /\
  permits + PipelineComponent.pipeline_ack_counter c =
    window + PipelineComponent.acks ops + PipelineComponent.free_first c /\
  permits <= window + PipelineComponent.acks ops + 1.
Proof.
  intros Hw Hops Hb.
  assert (E : PipelineComponent.pipeline_ack_counter (PipelineComponent.new_component window) = window).
  { cbn. unfold u64, i32. rewrite (Z.mod_small (window + _)), Z.mod_small by lia. lia. }
  pose proof (PipelineComponent.ack_run_balance ops (PipelineComponent.new_component window) 0
    ltac:(rewrite E; lia) Hops ltac:(by rewrite E)) as H. rewrite E in H.
  destruct (PipelineComponent.ack_run _ _) as [c p]. destruct H as [H1 H2].
  change (PipelineComponent.free_first (PipelineComponent.new_component window)) with 0 in H2.
  split_and!; [done|lia|]. unfold PipelineComponent.free_first in *.
  destruct (PipelineComponent.pipeline_first_call_ack c); lia.
Qed.

Lemma ack_window_bounds_reads_witness :
  let '(c, permits) := PipelineComponent.ack_run (PipelineComponent.new_component 1, 0)
    [PipelineComponent.PreCall; PipelineComponent.PreCall; PipelineComponent.PreCall;
     PipelineComponent.RecvAck 1; PipelineComponent.PreCall] in
  permits <= 1 + 1 + 1.
Proof.
  pose proof (ack_window_bounds_reads 1
    [PipelineComponent.PreCall; PipelineComponent.PreCall; PipelineComponent.PreCall;
     PipelineComponent.RecvAck 1; PipelineComponent.PreCall] ltac:(lia)
    ltac:(repeat constructor; done) ltac:(vm_compute; reflexivity)) as H.
  destruct (PipelineComponent.ack_run _ _) as [c p]. destruct H as (_ & _ & H). exact H.
Defined.

(** C27: the ids of the live sessions are always distinct, whatever the order in
    which sessions are created and destroyed; with fewer than 65535 live, another
    id is always found, and with 65535 allocation throws. *)
Theorem session_ids_unique ops live s :
  PipelineComponent.id_run ([], PipelineComponent.no_ids) ops = Ret (live, s) ->
  NoDup live /\
  (Z.of_nat (length live) < 65535 ->
     exists id s', PipelineComponent.allocate_session_id s = Ret (id, s') /\ id ∉ live /\ 0 <= id < 65536) /\
  (65535 <= Z.of_nat (length live) ->
     PipelineComponent.allocate_session_id s = Throw PipelineComponent.id_over).
Proof.
  intros H. destruct (PipelineComponent.id_run_inv _ _ _ PipelineComponent.id_inv_init H) as (Hn & Hwf & Hu).
  cbn [fst snd] in *.
  assert (Hsz : size (PipelineComponent.s_session_used_ids s) = length live).
  { rewrite Hu. by apply size_list_to_set. }
  split_and!; [done| |].
  - intros Hl. destruct (PipelineComponent.allocate_session_id_ok s Hwf ltac:(lia))
      as (id & s' & Ha & Hi & Hr & _). exists id, s'. split_and!; [done| |lia|lia].
    rewrite Hu in Hi. by rewrite elem_of_list_to_set in Hi.
  - intros Hl. apply PipelineComponent.allocate_session_id_full. lia.
Qed.

Definition one_id : PipelineComponent.ids := PipelineComponent.mkIds 2 {[1]}.

Lemma session_ids_unique_witness :
  exists id s', PipelineComponent.allocate_session_id one_id = Ret (id, s') /\
    id ∉ [1] /\ 0 <= id < 65536.
Proof.
  destruct (session_ids_unique
    [PipelineComponent.Alloc; PipelineComponent.Alloc; PipelineComponent.FreeAt 0] [1]
    one_id ltac:(vm_compute; reflexivity)) as (_ & H & _).
  exact (H ltac:(vm_compute; reflexivity)).
Defined.
