(* ===== verification/DomainMatcher.v ===== *)
(** * DomainMatcher

    The domain lists of [src/src/core/utils.h] and [utils.cpp]: a tree of
    labels built from the lines of a file, searched by [std::lower_bound]. *)

From Stdlib Require Import ZArith Lia Sorting.Sorted.
From S2P Require Import Prelude Utils.
Local Open Scope Z_scope.

Module DomainMatcher.

(** [std::string]'s [operator<]: lexicographic, octets compared as unsigned. *)
Fixpoint str_lt (a b : bytes) : bool :=
  match a, b with
  | _, [] => false
  | [], _ :: _ => true
  | x :: a', y :: b' =>
    if b2z x <? b2z y then true
    else if b2z y <? b2z x then false else str_lt a' b'
  end.

Inductive DomainLinkData := Link (suffix : bytes) (is_top : bool) (prefix : list DomainLinkData).

Definition suffix (d : DomainLinkData) : bytes := let 'Link s _ _ := d in s.
Definition is_top (d : DomainLinkData) : bool := let 'Link _ t _ := d in t.
Definition prefix (d : DomainLinkData) : list DomainLinkData := let 'Link _ _ p := d in p.

(** The generic top-level labels of the constructor. *)
Definition generic_top (s : bytes) : bool :=
  bool_decide (s = str "com" \/ s = str "org" \/ s = str "net" \/ s = str "int" \/
               s = str "edu" \/ s = str "gov" \/ s = str "mil").

Definition new_link (s : bytes) : DomainLinkData := Link s (generic_top s) [].

(** [insert_domain_seg] finds or appends the link of [seg]; the caller goes on
    in its [prefix], which [k] updates in place. *)
Fixpoint insert_domain_seg (l : list DomainLinkData) (seg : bytes)
    (k : list DomainLinkData -> list DomainLinkData) : list DomainLinkData :=
  match l with
  | [] => [Link seg (generic_top seg) (k [])]
  | d :: l' =>
    if bool_decide (seg = suffix d) then Link (suffix d) (is_top d) (k (prefix d)) :: l'
    else d :: insert_domain_seg l' seg k
  end.

(** [std::lower_bound] over the range [first, first + len): the first index
    whose suffix is not below [seg], if the range is sorted. *)
Fixpoint lower_bound (fuel : nat) (l : list DomainLinkData) (seg : bytes) (first len : nat) : nat :=
  match fuel with
  | O => first
  | S fuel =>
    if (len =? 0)%nat then first
    else
      let half := (len / 2)%nat in
      let mid := (first + half)%nat in
      match l !! mid with
      | None => first
      | Some d =>
        if str_lt (suffix d) seg then lower_bound fuel l seg (mid + 1) (len - half - 1)
        else lower_bound fuel l seg first half
      end
  end.

Definition find_domain_seg (l : list DomainLinkData) (seg : bytes) : option DomainLinkData :=
  match l !! lower_bound (length l) l seg 0 (length l) with
  | Some d => if negb (str_lt seg (suffix d)) then Some d else None
  | None => None
  end.

Definition dot : byte := Byte.x2e.

(** The loop over a name from its end: the labels that end at a dot, last
    label first, and the first label of the name. *)
Fixpoint split_from_end (chars : bytes) (seg : bytes) : list bytes * bytes :=
  match chars with
  | [] => ([], seg)
  | c :: chars =>
    if bool_decide (c = dot) then
      let '(segs, last) := split_from_end chars [] in (seg :: segs, last)
    else split_from_end chars (c :: seg)
  end.

Definition split_domain (name : bytes) : list bytes * bytes := split_from_end (rev name) [].

(** The path [parse_line] inserts. *)
Definition line_path (line : bytes) : list bytes :=
  let '(segs, last) := split_domain line in
  if bool_decide (last = []) then segs else segs ++ [last].

Fixpoint insert_path (path : list bytes) (l : list DomainLinkData) : list DomainLinkData :=
  match path with
  | [] => l
  | seg :: path => insert_domain_seg l seg (insert_path path)
  end.

Definition parse_line (line : bytes) (domains : list DomainLinkData) : list DomainLinkData :=
  if bool_decide (line = []) then domains else insert_path (line_path line) domains.

(** [std::sort] by suffix: the labels of one list are distinct, so the sorted
    permutation is unique and insertion sort computes it. *)
Fixpoint insert_sorted (d : DomainLinkData) (l : list DomainLinkData) : list DomainLinkData :=
  match l with
  | [] => [d]
  | e :: l' => if str_lt (suffix d) (suffix e) then d :: e :: l' else e :: insert_sorted d l'
  end.
Definition sort_links (l : list DomainLinkData) : list DomainLinkData := foldr insert_sorted [] l.

Definition is_domain_char (a : byte) : bool :=
  let c := schar a in
  ((97 <=? c) && (c <=? 122)) || ((65 <=? c) && (c <=? 90)) ||
  ((48 <=? c) && (c <=? 57)) || (c =? 45) || (c =? 46).

(** The character loop of [load_from_stream]. *)
Fixpoint load_loop (chars line : bytes) (count : Z) (domains : list DomainLinkData)
  : bytes * Z * list DomainLinkData :=
  match chars with
  | [] => (line, count, domains)
  | a :: chars =>
    let '(line, count, domains) :=
      if bool_decide (a = LF) && negb (bool_decide (line = []))
      then ([], count + 1, parse_line line domains) else (line, count, domains) in
    let line := if is_domain_char a then line ++ [a] else line in
    load_loop chars line count domains
  end.

(** [load_from_stream] on a good stream holding [text]: the loaded count and
    the tree; only the first two levels are sorted. *)
Definition load_from_stream (text : bytes) (domains : list DomainLinkData)
  : Z * list DomainLinkData :=
  let '(line, count, domains) := load_loop text [] 0 domains in
  let '(count, domains) :=
    if bool_decide (line = []) then (count, domains)
    else (count + 1, parse_line line domains) in
  let domains := sort_links domains in
  (count, map (fun d => Link (suffix d) (is_top d) (sort_links (prefix d))) domains).

(** The search of [is_match] along the labels that end at a dot.  [inl] is an
    early return; [inr] is the link reached and the level. *)
Fixpoint match_segs (domains : list DomainLinkData) (link : option DomainLinkData)
    (domain_level : Z) (segs : list bytes) : bool + (option DomainLinkData * Z) :=
  match segs with
  | [] => inr (link, domain_level)
  | seg :: segs =>
    let top := match link with None => true | Some d => is_top d end in
    let l := match link with None => domains | Some d => prefix d end in
    match find_domain_seg l seg with
    | None => if top then inl false else inl (2 <? domain_level)
    | Some d => match_segs domains (Some d) (domain_level + 1) segs
    end
  end.

Definition is_match (domains : list DomainLinkData) (domain : bytes) : bool :=
  if bool_decide (domain = []) then false
  else
    let '(segs, seg) := split_domain domain in
    match match_segs domains None 1 segs with
    | inl b => b
    | inr (link, domain_level) =>
      if domain_level =? 1 then
        match find_domain_seg domains domain with
        | Some link => bool_decide (prefix link = [])
        | None => false
        end
      else
        match link with
        | None => false
        | Some link =>
          if bool_decide (prefix link = []) then true
          else match find_domain_seg (prefix link) seg with
               | Some link => bool_decide (prefix link = [])
               | None => false
               end
        end
    end.

Definition gfw_list : bytes := str "singledomain-in-gfw
 		google.com
 		facebook.com
 		twitter.com
 		api.others.com
 		some.com.cn
 		".

Definition is_match_in (text q : string) : bool :=
  is_match (snd (load_from_stream (str text) [])) (str q).


(** ** The order on labels *)

Lemma str_lt_irrefl a : str_lt a a = false.
Proof. induction a as [|x a IH]; cbn; [done|]. by rewrite Z.ltb_irrefl. Qed.

Lemma str_lt_trans a b c : str_lt a b = true -> str_lt b c = true -> str_lt a c = true.
Proof.
  revert b c. induction a as [|x a IH]; intros [|y b] [|z c]; cbn; try done.
  destruct (Z.ltb_spec (b2z x) (b2z y)), (Z.ltb_spec (b2z y) (b2z x)),
    (Z.ltb_spec (b2z y) (b2z z)), (Z.ltb_spec (b2z z) (b2z y)),
    (Z.ltb_spec (b2z x) (b2z z)), (Z.ltb_spec (b2z z) (b2z x)); try done; try lia.
  apply IH.
Qed.

Lemma str_lt_total a b : str_lt a b = false -> str_lt b a = false -> a = b.
Proof.
  revert b. induction a as [|x a IH]; intros [|y b]; cbn; try done.
  destruct (Z.ltb_spec (b2z x) (b2z y)), (Z.ltb_spec (b2z y) (b2z x)); try done.
  intros Ha Hb. f_equal; [apply b2z_inj; lia|auto].
Qed.

Definition link_lt (a b : DomainLinkData) : Prop := str_lt (suffix a) (suffix b) = true.
Definition sorted (l : list DomainLinkData) : Prop := StronglySorted link_lt l.

Lemma sorted_lookup_lt l i j a b :
  sorted l -> l !! i = Some a -> l !! j = Some b -> (i < j)%nat -> link_lt a b.
Proof.
  intros Hs. revert i j. induction Hs as [|x l Hs IH Hx]; intros i j Hi Hj Hij; [done|].
  destruct i as [|i], j as [|j]; try lia; cbn in Hi, Hj.
  - injection Hi as ->. rewrite list.Forall_forall in Hx. apply Hx.
    apply list_elem_of_lookup. eauto.
  - eapply IH; [done|done|lia].
Qed.

(** ** Binary search *)

Lemma lower_bound_spec fuel l seg first len :
  sorted l -> (len <= fuel)%nat -> (first + len <= length l)%nat ->
  (forall i d, (i < first)%nat -> l !! i = Some d -> str_lt (suffix d) seg = true) ->
  (forall i d, (first + len <= i)%nat -> l !! i = Some d -> str_lt (suffix d) seg = false) ->
  let r := lower_bound fuel l seg first len in
  (forall i d, (i < r)%nat -> l !! i = Some d -> str_lt (suffix d) seg = true) /\
  (forall i d, (r <= i)%nat -> l !! i = Some d -> str_lt (suffix d) seg = false).
Proof.
  intros Hs. revert first len. induction fuel as [|fuel IH]; intros first len Hf Hl Hlo Hhi.
  { cbn. replace (first + len)%nat with first in Hhi by lia. done. }
  cbn [lower_bound]. destruct (Nat.eqb_spec len 0) as [->|Hne].
  { replace (first + 0)%nat with first in Hhi by lia. done. }
  assert (Hh : (len / 2 < len)%nat) by (apply Nat.div_lt; lia).
  destruct (lookup_lt_is_Some_2 l (first + len / 2)) as [d Hd]; [lia|].
  cbv zeta. rewrite Hd. destruct (str_lt (suffix d) seg) eqn:E.
  - apply IH; [lia|lia| |].
    + intros i e Hi He. destruct (decide (i = (first + len / 2)%nat)) as [->|]; [congruence|].
      apply str_lt_trans with (suffix d); [|done]. eapply sorted_lookup_lt; eauto. lia.
    + intros i e Hi. apply Hhi. lia.
  - apply IH; [lia|lia|done|].
    intros i e Hi He. destruct (decide (i = (first + len / 2)%nat)) as [->|]; [congruence|].
    destruct (str_lt (suffix e) seg) eqn:E2; [|done].
    assert (link_lt d e) by (eapply sorted_lookup_lt; eauto; lia).
    unfold link_lt in *. rewrite (str_lt_trans _ _ _ H E2) in E. done.
Qed.

(** The linear search [insert_domain_seg] uses. *)
Fixpoint assoc (l : list DomainLinkData) (seg : bytes) : option DomainLinkData :=
  match l with
  | [] => None
  | d :: l' => if bool_decide (seg = suffix d) then Some d else assoc l' seg
  end.

Lemma assoc_Some l seg d : assoc l seg = Some d -> d ∈ l /\ suffix d = seg.
Proof.
  induction l as [|e l IH]; cbn; [done|]. case_bool_decide.
  - intros [= <-]. split; [set_solver|done].
  - intros [? ?]%IH. split; [set_solver|done].
Qed.

Lemma assoc_None l seg : assoc l seg = None <-> forall d, d ∈ l -> suffix d <> seg.
Proof.
  induction l as [|e l IH]; cbn.
  - split; [intros _ d Hd; set_solver|done].
  - case_bool_decide as Hseg; [split; [done|]|].
    + intros Hall. exfalso. apply (Hall e); [set_solver|done].
    + rewrite IH. split.
      * intros Hall d [->|Hd]%elem_of_cons; [congruence|auto].
      * intros Hall d Hd. apply Hall. set_solver.
Qed.

Lemma assoc_NoDup l d :
  NoDup (map suffix l) -> d ∈ l -> assoc l (suffix d) = Some d.
Proof.
  induction l as [|e l IH]; cbn; intros Hnd Hd; [set_solver|].
  apply list.NoDup_cons in Hnd as [Hn Hnd].
  apply elem_of_cons in Hd as [->|Hd]; [by rewrite bool_decide_true|].
  rewrite bool_decide_false; [by apply IH|]. intros E. apply Hn. rewrite <- E.
  by apply list_elem_of_fmap_2.
Qed.

Lemma sorted_NoDup l : sorted l -> NoDup (map suffix l).
Proof.
  induction 1 as [|d l Hs IH Hd]; cbn; [constructor|]. apply list.NoDup_cons. split; [|done].
  intros Hin. apply list_elem_of_fmap in Hin as (e & E & He).
  rewrite list.Forall_forall in Hd. specialize (Hd e He). unfold link_lt in Hd.
  rewrite E, str_lt_irrefl in Hd. done.
Qed.

(** On a sorted list the binary search finds what the linear search finds. *)
Lemma find_domain_seg_sorted l seg : sorted l -> find_domain_seg l seg = assoc l seg.
Proof.
  intros Hs. unfold find_domain_seg.
  destruct (lower_bound_spec (length l) l seg 0 (length l) Hs) as [Hlo Hhi];
    [lia|lia|intros; lia|intros i d Hi Hd; apply lookup_lt_Some in Hd; lia|].
  set (r := lower_bound _ _ _ _ _) in *.
  destruct (l !! r) as [d|] eqn:Hr.
  - pose proof (Hhi r d ltac:(lia) Hr) as Hge.
    destruct (str_lt seg (suffix d)) eqn:E; cbn [negb].
    + symmetry. apply assoc_None. intros e He Heq.
      apply list_elem_of_lookup in He as [i Hi].
      destruct (decide (i < r)%nat) as [Hlt|Hnl].
      * specialize (Hlo i e Hlt Hi). rewrite Heq, str_lt_irrefl in Hlo. done.
      * destruct (decide (i = r)) as [->|].
        -- assert (d = e) by congruence. subst e. rewrite Heq, str_lt_irrefl in E. done.
        -- pose proof (sorted_lookup_lt l r i d e Hs Hr Hi ltac:(lia)) as H.
           unfold link_lt in H. rewrite Heq in H.
           pose proof (str_lt_trans _ _ _ E H) as Hc. rewrite str_lt_irrefl in Hc. done.
    + assert (suffix d = seg) as <- by (by apply str_lt_total).
      symmetry. apply assoc_NoDup; [by apply sorted_NoDup|]. apply list_elem_of_lookup. eauto.
  - symmetry. apply assoc_None. intros e He Heq.
    apply list_elem_of_lookup in He as [i Hi].
    assert (i < r)%nat.
    { apply lookup_lt_Some in Hi. apply lookup_ge_None in Hr. lia. }
    specialize (Hlo i e H Hi). rewrite Heq, str_lt_irrefl in Hlo. done.
Qed.

(** ** Sorting *)

Lemma insert_sorted_perm d l : insert_sorted d l ≡ₚ d :: l.
Proof.
  induction l as [|e l IH]; cbn; [done|]. destruct (str_lt _ _); [done|].
  rewrite IH. apply Permutation_swap.
Qed.

Lemma sort_links_perm l : sort_links l ≡ₚ l.
Proof. induction l as [|d l IH]; cbn; [done|]. by rewrite insert_sorted_perm, IH. Qed.

Lemma insert_sorted_sorted d l :
  sorted l -> suffix d ∉ map suffix l -> sorted (insert_sorted d l).
Proof.
  induction 1 as [|e l Hs IH He]; intros Hn; cbn in *.
  - repeat constructor.
  - destruct (str_lt (suffix d) (suffix e)) eqn:E.
    + constructor; [by constructor|]. constructor; [done|].
      eapply list.Forall_impl; [exact He|]. intros x Hx. by apply str_lt_trans with (suffix e).
    + constructor; [apply IH; set_solver|].
      rewrite insert_sorted_perm. constructor; [|done].
      unfold link_lt. destruct (str_lt (suffix e) (suffix d)) eqn:E2; [done|].
      exfalso. apply Hn. rewrite (str_lt_total _ _ E E2). set_solver.
Qed.

Lemma sort_links_sorted l : NoDup (map suffix l) -> sorted (sort_links l).
Proof.
  induction l as [|d l IH]; cbn; intros Hnd; [constructor|].
  apply list.NoDup_cons in Hnd as [Hn Hnd]. apply insert_sorted_sorted; [auto|].
  intros Hin. apply Hn. apply list_elem_of_fmap in Hin as (e & -> & He).
  rewrite sort_links_perm in He. by apply list_elem_of_fmap_2.
Qed.

Lemma assoc_perm l k seg :
  l ≡ₚ k -> NoDup (map suffix k) -> assoc l seg = assoc k seg.
Proof.
  intros Hp Hnd. destruct (assoc l seg) as [d|] eqn:E.
  - apply assoc_Some in E as [Hd <-]. symmetry. apply assoc_NoDup; [done|]. by rewrite <- Hp.
  - symmetry. rewrite assoc_None in E |- *. intros d Hd. apply E. by rewrite Hp.
Qed.

(** ** Insertion *)

Definition prefix_at (l : list DomainLinkData) (seg : bytes) : list DomainLinkData :=
  match assoc l seg with Some d => prefix d | None => [] end.

Definition tops_ok (l : list DomainLinkData) : Prop :=
  Forall (fun d => is_top d = generic_top (suffix d)) l.

Lemma insert_domain_seg_assoc l seg k seg' :
  tops_ok l ->
  assoc (insert_domain_seg l seg k) seg' =
  if bool_decide (seg' = seg) then Some (Link seg (generic_top seg) (k (prefix_at l seg)))
  else assoc l seg'.
Proof.
  unfold prefix_at. induction 1 as [|d l Ht _ IH]; cbn.
  - by case_bool_decide.
  - destruct (bool_decide (seg = suffix d)) eqn:E; bool_facts; subst; cbn.
    + rewrite Ht. by case_bool_decide.
    + rewrite IH. repeat case_bool_decide; congruence.
Qed.

Lemma insert_domain_seg_suffixes l seg k :
  map suffix (insert_domain_seg l seg k) =
  if bool_decide (seg ∈ map suffix l) then map suffix l else map suffix l ++ [seg].
Proof.
  induction l as [|d l IH]; cbn; [done|].
  destruct (bool_decide (seg = suffix d)) eqn:E; bool_facts; cbn.
  - rewrite bool_decide_true; [done|set_solver].
  - rewrite IH. do 2 case_bool_decide; try done; set_solver.
Qed.

Lemma insert_domain_seg_NoDup l seg k :
  NoDup (map suffix l) -> NoDup (map suffix (insert_domain_seg l seg k)).
Proof.
  intros Hnd. rewrite insert_domain_seg_suffixes. case_bool_decide; [done|].
  apply list.NoDup_app. split; [done|]. split; [set_solver|apply NoDup_singleton].
Qed.

Lemma insert_domain_seg_tops l seg k : tops_ok l -> tops_ok (insert_domain_seg l seg k).
Proof.
  unfold tops_ok. induction 1 as [|d l Ht Hl IH]; cbn; [by repeat constructor|].
  case_bool_decide; constructor; done.
Qed.

(** ** Lists of two-label names *)

(** A tree that holds exactly the two-label names of [listed]. *)
Record two_level (listed : list (bytes * bytes)) (l : list DomainLinkData) : Prop := {
  two_tops : tops_ok l;
  two_NoDup : NoDup (map suffix l);
  two_prefix : forall t d, assoc l t = Some d ->
    tops_ok (prefix d) /\ NoDup (map suffix (prefix d)) /\
    (forall n e, assoc (prefix d) n = Some e -> prefix e = []) /\ prefix d <> [];
  two_listed : forall t n, (t, n) ∈ listed <-> is_Some (assoc (prefix_at l t) n)
}.

Lemma two_level_nil : two_level [] [].
Proof.
  split; try done; [constructor|constructor|].
  intros t n. cbn. split; [set_solver|by intros [? ?]].
Qed.

Lemma insert_not_nil l seg k : insert_domain_seg l seg k <> [].
Proof. destruct l; cbn; [done|]. by case_bool_decide. Qed.

Lemma prefix_at_insert l seg k t :
  tops_ok l ->
  prefix_at (insert_domain_seg l seg k) t =
  if bool_decide (t = seg) then k (prefix_at l seg) else prefix_at l t.
Proof.
  intros Ht. unfold prefix_at at 1. rewrite insert_domain_seg_assoc by done. by case_bool_decide.
Qed.

Lemma prefix_at_ok listed l t :
  two_level listed l -> tops_ok (prefix_at l t) /\ NoDup (map suffix (prefix_at l t)) /\
    (forall n e, assoc (prefix_at l t) n = Some e -> prefix e = []).
Proof.
  intros [_ _ Hp _]. unfold prefix_at. destruct (assoc l t) as [d|] eqn:E.
  - destruct (Hp t d E) as (?&?&?&?). done.
  - split_and!; [constructor|constructor|done].
Qed.

Lemma two_level_insert listed l t n :
  two_level listed l -> two_level (listed ++ [(t, n)]) (insert_path [t; n] l).
Proof.
  intros Hl. destruct (prefix_at_ok _ _ t Hl) as (Pt & Pn & Pp). destruct Hl as [Ht Hn Hp Hs].
  cbn [insert_path]. split.
  - by apply insert_domain_seg_tops.
  - by apply insert_domain_seg_NoDup.
  - intros t' d. rewrite insert_domain_seg_assoc by done. case_bool_decide; [|apply Hp].
    intros [= <-]. cbn [prefix]. split_and!;
      [by apply insert_domain_seg_tops|by apply insert_domain_seg_NoDup| |apply insert_not_nil].
    intros n' e. rewrite insert_domain_seg_assoc by done. case_bool_decide; [|apply Pp].
    intros [= <-]. cbn [prefix]. unfold prefix_at at 1.
    destruct (assoc _ n) as [e|] eqn:E; [by eapply Pp|done].
  - intros t' n'. rewrite prefix_at_insert by done.
    rewrite elem_of_app, list_elem_of_singleton, Hs.
    destruct (bool_decide (t' = t)) eqn:Et; bool_facts; subst.
    + rewrite insert_domain_seg_assoc by done.
      destruct (bool_decide (n' = n)) eqn:En; bool_facts; subst.
      * split; [by eauto|by right].
      * split; [intros [?|[= ?]]; done|by left].
    + split; [intros [?|[= ? ?]]; done|by left].
Qed.

Definition sort_two (l : list DomainLinkData) : list DomainLinkData :=
  map (fun d => Link (suffix d) (is_top d) (sort_links (prefix d))) (sort_links l).

Lemma assoc_map_prefix f l t :
  assoc (map (fun d => Link (suffix d) (is_top d) (f (prefix d))) l) t =
  option_map (fun d => Link (suffix d) (is_top d) (f (prefix d))) (assoc l t).
Proof. induction l as [|d l IH]; cbn; [done|]. by case_bool_decide. Qed.

Lemma sorted_map_prefix f l :
  sorted l -> sorted (map (fun d => Link (suffix d) (is_top d) (f (prefix d))) l).
Proof.
  unfold sorted. induction 1 as [|d l Hs IH Hd]; cbn; constructor; [done|].
  clear - Hd. induction Hd; cbn; constructor; done.
Qed.

(** After sorting, the binary searches of both levels answer as the tree says. *)
Lemma find_sort_two listed l t :
  two_level listed l ->
  find_domain_seg (sort_two l) t =
  option_map (fun d => Link (suffix d) (is_top d) (sort_links (prefix d))) (assoc l t).
Proof.
  intros [Ht Hn Hp Hs]. unfold sort_two.
  rewrite find_domain_seg_sorted by (apply sorted_map_prefix, sort_links_sorted; done).
  rewrite assoc_map_prefix. by rewrite (assoc_perm _ l) by (done || apply sort_links_perm).
Qed.

Lemma find_sort_links l n :
  NoDup (map suffix l) -> find_domain_seg (sort_links l) n = assoc l n.
Proof.
  intros Hn. rewrite find_domain_seg_sorted by by apply sort_links_sorted.
  apply assoc_perm; [apply sort_links_perm|done].
Qed.

Lemma tops_assoc l t d : tops_ok l -> assoc l t = Some d -> is_top d = generic_top t.
Proof.
  intros Ht [Hd <-]%assoc_Some. unfold tops_ok in Ht. rewrite list.Forall_forall in Ht. auto.
Qed.

(** The answer for a query, from its labels, last label first. *)
Definition two_label_match (listed : list (bytes * bytes)) (path : list bytes) : Prop :=
  exists t n ext, path = t :: n :: ext /\ (t, n) ∈ listed /\
    ((length ext <= 1)%nat \/ generic_top n = false).

Definition query_path (q : bytes) : list bytes :=
  let '(segs, seg) := split_domain q in segs ++ [seg].

Lemma sort_links_nil l : sort_links l = [] -> l = [].
Proof.
  intros E. pose proof (sort_links_perm l) as Hp. rewrite E in Hp.
  by apply Permutation_nil in Hp.
Qed.

Lemma find_nil seg : find_domain_seg [] seg = None.
Proof. done. Qed.

Lemma match_nil_prefix domains d lvl segs :
  prefix d = [] -> segs <> [] ->
  match_segs domains (Some d) lvl segs = inl (if is_top d then false else 2 <? lvl).
Proof.
  intros Hp Hs. destruct segs as [|s segs]; [done|]. cbn [match_segs]. rewrite Hp, find_nil.
  by destruct (is_top d).
Qed.

Lemma match_segs_level domains link lvl segs d lvl' :
  match_segs domains link lvl segs = inr (d, lvl') -> lvl' = lvl + zlen segs.
Proof.
  revert link lvl. induction segs as [|s segs IH]; intros link lvl; cbn [match_segs].
  - intros [= _ <-]. zlen_lia.
  - destruct (find_domain_seg _ s); [|by destruct (match link with None => true | Some d => is_top d end)].
    intros ->%IH. rewrite zlen_cons. lia.
Qed.

(** The search below a top-level link. *)
Lemma match_below listed l q t d segs seg :
  two_level listed l -> assoc l t = Some d ->
  split_domain q = (t :: segs, seg) ->
  is_match (sort_two l) q = true <-> two_label_match listed (t :: segs ++ [seg]).
Proof.
  intros Hl Hd Hq. pose proof (find_sort_two _ _ t Hl) as Hf. rewrite Hd in Hf. cbn in Hf.
  destruct Hl as [Ht Hn Hp Hs]. destruct (Hp t d Hd) as (Pt & Pn & Pp & Pne).
  assert (Hpre : prefix_at l t = prefix d) by (unfold prefix_at; by rewrite Hd).
  unfold is_match, two_label_match. rewrite Hq.
  destruct (bool_decide (q = [])) eqn:Eq; bool_facts; [subst; done|].
  cbn [match_segs]. rewrite Hf. destruct segs as [|n segs].
  - cbn [match_segs Z.eqb prefix app]. rewrite bool_decide_false by (by intros ?%sort_links_nil).
    rewrite find_sort_links by done. split.
    + destruct (assoc (prefix d) seg) eqn:E; [|done]. intros _.
      exists t, seg, []. split_and!; [done| |cbn; lia]. apply Hs. rewrite Hpre, E. eauto.
    + intros (t' & n' & ext & [= <- <- <-] & Hin & _). apply Hs in Hin as [e He].
      rewrite Hpre in He. rewrite He, (Pp _ _ He). done.
  - cbn [match_segs prefix is_top]. rewrite find_sort_links by done.
    destruct (assoc (prefix d) n) as [e|] eqn:He.
    + pose proof (Pp _ _ He) as Hpe. pose proof (tops_assoc _ _ _ Pt He) as Hte.
      assert (Hin : (t, n) ∈ listed) by (apply Hs; rewrite Hpre, He; eauto).
      destruct segs as [|s segs].
      * cbn [match_segs]. change (1 + 1 + 1 =? 1) with false. cbn iota. rewrite Hpe.
        split; [|done]. intros _. exists t, n, [seg]. split_and!; [done|done|left; cbn; lia].
      * rewrite match_nil_prefix, Hte by done. change (2 <? 1 + 1 + 1) with true. split.
        -- destruct (generic_top n) eqn:Eg; [done|]. intros _. exists t, n, ((s :: segs) ++ [seg]). eauto.
        -- intros (t' & n' & ext & [= <- <- <-] & _ & [Hlen | Hg]); [|by rewrite Hg].
           rewrite length_cons, length_app in Hlen. cbn in Hlen. lia.
    + split.
      * destruct (is_top d); done.
      * intros (t' & n' & ext & [= <- <- _] & Hin & _). apply Hs in Hin as [e Hin].
        rewrite Hpre in Hin. congruence.
Qed.

Lemma split_from_end_nil chars seg segs last :
  split_from_end chars seg = (segs, last) -> segs = [] -> last = rev chars ++ seg.
Proof.
  revert seg segs. induction chars as [|c chars IH]; intros seg segs; cbn.
  - by intros [= _ ->].
  - case_bool_decide.
    + destruct (split_from_end chars []) as [? ?]. intros [= <- _]. done.
    + intros E ->. rewrite (IH _ _ E) by done. by rewrite <- app_assoc.
Qed.

Lemma is_match_two_level listed l q :
  two_level listed l ->
  is_match (sort_two l) q = true <-> two_label_match listed (query_path q).
Proof.
  intros Hl. unfold query_path. destruct (split_domain q) as [segs seg] eqn:Hq.
  destruct segs as [|t segs].
  - split.
    + unfold is_match. rewrite Hq. cbn. rewrite (find_sort_two _ _ q Hl).
      destruct (bool_decide (q = [])); [done|]. destruct (assoc l q) as [d|] eqn:E; [|done].
      cbn. intros Hb%bool_decide_eq_true%sort_links_nil.
      destruct (two_prefix _ _ Hl q d E) as (_ & _ & _ & Hne). done.
    + by intros (t & n & ext & [=] & _).
  - destruct (assoc l t) as [d|] eqn:Hd; [by eapply match_below|].
    split.
    + unfold is_match. rewrite Hq. cbn [match_segs]. rewrite (find_sort_two _ _ t Hl), Hd. cbn.
      by destruct (bool_decide (q = [])).
    + intros (t' & n & ext & [= <- _] & Hin & _). apply (two_listed _ _ Hl) in Hin as [e He].
      unfold prefix_at in He. rewrite Hd in He. done.
Qed.

(** *** Loading *)

Lemma line_chars_loop line acc count domains rest :
  Forall (fun a => is_domain_char a = true) line ->
  load_loop (line ++ rest) acc count domains = load_loop rest (acc ++ line) count domains.
Proof.
  intros Hl. revert acc. induction Hl as [|a line Ha _ IH]; intros acc.
  - by rewrite app_nil_r.
  - cbn [app load_loop]. rewrite Ha.
    rewrite (bool_decide_false (a = LF)) by (intros ->; done). cbn [andb].
    rewrite IH, <- app_assoc. done.
Qed.

Lemma load_loop_lines lines count domains :
  Forall (fun l => l <> [] /\ Forall (fun a => is_domain_char a = true) l) lines ->
  load_loop (flat_map (fun l => l ++ [LF]) lines) [] count domains =
  ([], count + zlen lines, foldl (fun d l => insert_path (line_path l) d) domains lines).
Proof.
  intros Hl. revert count domains. induction Hl as [|l lines [Hne Hc] _ IH]; intros count domains.
  - cbn. zlen_consts. by rewrite Z.add_0_r.
  - cbn [flat_map foldl]. rewrite <- app_assoc, line_chars_loop by done. cbn [app load_loop].
    rewrite (bool_decide_false (l = [])) by done. cbn [negb andb].
    change (bool_decide (LF = LF)) with true. cbn iota.
    change (is_domain_char LF) with false. cbn -[load_loop zlen parse_line flat_map]. rewrite IH, zlen_cons.
    unfold parse_line at 1. rewrite (bool_decide_false (l = [])) by done.
    f_equal. f_equal. lia.
Qed.

Lemma split_from_end_label label acc rest :
  dot ∉ label -> split_from_end (rev label ++ rest) acc = split_from_end rest (label ++ acc).
Proof.
  revert acc rest. induction label as [|c label IH]; intros acc rest Hn; [done|].
  cbn [rev]. rewrite <- app_assoc, IH by set_solver. cbn [app split_from_end].
  rewrite bool_decide_false by set_solver. done.
Qed.

(** A name is split into its labels, the last label first. *)
Definition join_labels (first : bytes) (rest : list bytes) : bytes :=
  first ++ flat_map (fun l => dot :: l) rest.

Lemma split_domain_join first rest :
  dot ∉ first -> Forall (fun l => dot ∉ l) rest ->
  split_domain (join_labels first rest) = (rev rest, first).
Proof.
  unfold split_domain, join_labels. intros Hf Hr. rewrite rev_app_distr.
  induction rest as [|l rest IH] using rev_ind.
  - cbn. rewrite <- (app_nil_r (rev first)), split_from_end_label by done. cbn. by rewrite app_nil_r.
  - apply Forall_app in Hr as [Hr Hl]. apply Forall_inv in Hl.
    rewrite flat_map_app, rev_app_distr. cbn [flat_map]. rewrite app_nil_r.
    cbn [rev]. rewrite <- !app_assoc. rewrite split_from_end_label by done.
    cbn [app split_from_end]. rewrite (bool_decide_true (dot = dot)) by done.
    rewrite IH by done. by rewrite app_nil_r, rev_app_distr.
Qed.

Definition label_ok (l : bytes) : Prop :=
  l <> [] /\ Forall (fun a => is_domain_char a = true /\ a <> dot) l.

Lemma label_ok_dot l : label_ok l -> dot ∉ l.
Proof. intros [_ H] Hin. rewrite list.Forall_forall in H. by destruct (H _ Hin). Qed.

(** The text of a list of two-label names. *)
Definition two_label_text (listed : list (bytes * bytes)) : bytes :=
  flat_map (fun l => l ++ [LF]) (map (fun '(t, n) => join_labels n [t]) listed).

Lemma two_label_load listed :
  Forall (fun '(t, n) => label_ok t /\ label_ok n) listed ->
  exists l, two_level listed l /\
    load_from_stream (two_label_text listed) [] = (zlen listed, sort_two l).
Proof.
  intros Hl. set (lines := map (fun '(t, n) => join_labels n [t]) listed).
  exists (foldl (fun d l => insert_path (line_path l) d) [] lines). split.
  - subst lines. induction listed as [|[t n] listed IH] using rev_ind; [apply two_level_nil|].
    apply Forall_app in Hl as [Hl [Ht Hn]%Forall_inv].
    rewrite map_app, foldl_app. cbn [map foldl]. unfold line_path.
    rewrite split_domain_join by (repeat constructor; by apply label_ok_dot).
    cbn [rev app]. rewrite bool_decide_false by apply Hn. apply two_level_insert. auto.
  - unfold load_from_stream, two_label_text. fold lines. rewrite load_loop_lines.
    + subst lines. unfold zlen at 1. rewrite length_map. done.
    + subst lines. clear - Hl. induction Hl as [|[t n] listed [[_ Ht] [Hn Hn2]] _ IH]; cbn; constructor; [|done].
      split; [by destruct n|]. unfold join_labels. cbn [flat_map]. rewrite app_nil_r.
      apply Forall_app. split; [eapply list.Forall_impl; [exact Hn2|naive_solver]|].
      constructor; [done|]. eapply list.Forall_impl; [exact Ht|naive_solver].
Qed.

End DomainMatcher.

(** ** Properties *)

(** On a sorted level, the binary search of [find_domain_seg] finds what a
    linear search finds. *)
Theorem find_segment_is_linear_search l seg :
  DomainMatcher.sorted l -> DomainMatcher.find_domain_seg l seg = DomainMatcher.assoc l seg.
Proof. apply DomainMatcher.find_domain_seg_sorted. Qed.

Lemma find_segment_is_linear_search_witness :
  DomainMatcher.find_domain_seg
    [DomainMatcher.new_link (str "a"); DomainMatcher.new_link (str "b"); DomainMatcher.new_link (str "c")]
    (str "b") = Some (DomainMatcher.new_link (str "b")).
Proof.
  rewrite find_segment_is_linear_search; [reflexivity|].
  repeat constructor.
Defined.

(** C33: a list file of two-label names, loaded with [load_from_stream] (which
    counts its lines), matches exactly the queries whose last two labels are
    listed, and that have at most one label before them when the listed name is
    itself a generic top domain such as "com". *)
Theorem two_label_list_matches_iff listed q :
  Forall (fun '(t, n) => DomainMatcher.label_ok t /\ DomainMatcher.label_ok n) listed ->
  let '(count, domains) := DomainMatcher.load_from_stream (DomainMatcher.two_label_text listed) [] in
  count = zlen listed /\
  (DomainMatcher.is_match domains q = true <->
   DomainMatcher.two_label_match listed (DomainMatcher.query_path q)).
Proof.
  intros Hl. destruct (DomainMatcher.two_label_load listed Hl) as (l & Ht & ->).
  split; [done|]. by apply DomainMatcher.is_match_two_level.
Qed.

Lemma two_label_list_matches_iff_witness :
  let '(count, domains) := DomainMatcher.load_from_stream
    (DomainMatcher.two_label_text [(str "com", str "google"); (str "org", str "example")]) [] in
  count = 2 /\
  (DomainMatcher.is_match domains (str "www.google.com") = true <->
   DomainMatcher.two_label_match [(str "com", str "google"); (str "org", str "example")]
     (DomainMatcher.query_path (str "www.google.com"))).
Proof.
  exact (two_label_list_matches_iff [(str "com", str "google"); (str "org", str "example")]
    (str "www.google.com") ltac:(repeat constructor; discriminate)).
Defined.
