(* ===== verification/Session.v ===== *)
(** * Session

    The base of all sessions, [src/src/session/session.h] and [session.cpp]:
    the byte counters, the pipeline component and the timer that destroys a
    UDP session nobody uses.  Also the part of [Config]
    ([src/src/core/config.h]) that the sessions read. *)

From Stdlib Require Import ZArith Lia.
From S2P Require Import Prelude Utils Address Caches ReadCache PipelineComponent.
Import Streambuf.
Local Open Scope Z_scope.

(** ** Config *)
Record Config := mkConfig {
  remote_addr : bytes;
  remote_port : Z;
  target_addr : bytes;
  target_port : Z;
  password : list (bytes * bytes);    (* std::map, in key order *)
  udp_timeout : Z;
  udp_recv_buf : Z;
  alpn_port_override : list (bytes * Z);
  plain_http_response : bytes;
  prefer_ipv4 : bool;
  connect_time_out : Z;
  pipeline_ack_window : Z;
  pipeline_num : Z
}.

(** [std::map::find] on one of them *)
Definition map_find {A} (k : bytes) (m : list (bytes * A)) : option A :=
  match filter (fun p => fst p = k) m with
  | [] => None
  | (_, v) :: _ => Some v
  end.

Definition MAX_BUF_LENGTH : Z := 8192.
(** [EVP_MAX_MD_SIZE << 1] *)
Definition MAX_PASSWORD_LENGTH : Z := 128.
Definition RECV_BUF_LENGTH : Z := 8192 * 10.

(** [make_udp_endpoint_safe] of [utils.cpp]; [make_address] is Boost's. *)
Section MakeEndpoint.
Variable make_address : bytes -> option address.

Definition make_udp_endpoint_safe (addr : bytes) (port : Z) : option endpoint :=
  let text := if bool_decide (addr = str "0") || (zlen addr =? 0) then str "127.0.0.1"
              else c_str addr in
  match make_address text with
  | Some a => Some (mkEndpoint a port)
  | None => None
  end.
End MakeEndpoint.

(** ** The UDP session timer *)
Module UdpTimer.

Record timer := mkTimer {
  is_udp_forward : bool;
  udp_gc_timer_checker : Z
}.
#[export] Instance eta_timer : Settable timer :=
  fun r => mkTimer (is_udp_forward r) (udp_gc_timer_checker r).

Definition new_timer : timer := mkTimer false 0.

Definition set_udp_forward_session (udp : bool) (t : timer) : timer :=
  t <| is_udp_forward := udp |>.

(** What the caller has to do: nothing, start a wait of that many seconds (the
    one before is cancelled), or call [destroy()]. *)
Inductive action := NoAct | Arm (timeout : Z) | Expire.

(** [udp_timer_async_wait]: [curr] is what [time(nullptr)] answers,
    [timeout_val] is [get_udp_timer_timeout_val()], [ec] is the error of
    [cancel]. *)
Definition udp_timer_async_wait (curr timeout_val : Z) (ec : error_code) (timeout : Z)
    (t : timer) : timer * action :=
  if negb (is_udp_forward t) then (t, NoAct)
  else
    let check := timeout =? -1 in
    let timeout := if timeout =? -1 then timeout_val else timeout in
    let start t := if negb (ec =? 0) then (t, Expire) else (t, Arm timeout) in
    if negb (udp_gc_timer_checker t =? 0) && check then
      if curr - udp_gc_timer_checker t <? timeout
      then (t <| udp_gc_timer_checker := curr |>, NoAct)
      else start t
    else start (t <| udp_gc_timer_checker := curr |>).

(** The handler of the wait started with [timeout]. *)
Definition udp_timer_fired (curr timeout_val : Z) (ec : error_code) (timeout : Z)
    (error : error_code) (t : timer) : timer * action :=
  if negb (error =? 0) then (t, NoAct)
  else if curr - udp_gc_timer_checker t <? timeout then
    let diff := i32 (timeout - (curr - udp_gc_timer_checker t)) in
    udp_timer_async_wait curr timeout_val ec diff (t <| udp_gc_timer_checker := 0 |>)
  else (t, Expire).

(** [udp_timer_cancel] asks for a cancellation only when a wait was started. *)
Definition udp_timer_cancel (t : timer) : bool := negb (udp_gc_timer_checker t =? 0).

(** *** One session's timer over time

    An event is some use of the session, or the end of the pending wait. *)
Inductive tick := Use (curr : Z) | Fire (curr : Z).

Record run_state := mkRun {
  rt : timer;
  waiting : option (Z * Z);   (* when it ends, with what it was started *)
  last_use : Z;
  expired_at : option Z
}.

Definition apply (curr : Z) (s : run_state) (r : timer * action) : run_state :=
  match snd r with
  | NoAct => mkRun (fst r) (waiting s) (last_use s) (expired_at s)
  | Arm timeout => mkRun (fst r) (Some (curr + timeout, timeout)) (last_use s) (expired_at s)
  | Expire => mkRun (fst r) None (last_use s) (Some curr)
  end.

Definition tick_step (timeout_val : Z) (s : run_state) (e : tick) : run_state :=
  match expired_at s with
  | Some _ => s
  | None =>
    match e with
    | Use curr =>
      let s := mkRun (rt s) (waiting s) curr (expired_at s) in
      apply curr s (udp_timer_async_wait curr timeout_val 0 (-1) (rt s))
    | Fire curr =>
      match waiting s with
      | Some (at_time, timeout) =>
        if at_time <=? curr
        then apply curr (mkRun (rt s) None (last_use s) None)
               (udp_timer_fired curr timeout_val 0 timeout 0 (rt s))
        else s
      | None => s
      end
    end
  end.

Definition tick_run (timeout_val : Z) (s : run_state) (es : list tick) : run_state :=
  foldl (tick_step timeout_val) s es.

(** A session at its first use. *)
Definition started (timeout_val curr : Z) : run_state :=
  tick_step timeout_val (mkRun (mkTimer true 0) None 0 None) (Use curr).

(** Times go up, and are positive. *)
Fixpoint increasing (from : Z) (es : list tick) : Prop :=
  match es with
  | [] => True
  | (Use c | Fire c) :: es => from <= c /\ increasing c es
  end.

(** What holds of a live session's timer: the wait in progress was started with
    a positive time-out, and either it was started at the last use or later, or
    the checker holds the last use. *)
Record inv (timeout_val : Z) (now : Z) (s : run_state) : Prop := {
  inv_udp : is_udp_forward (rt s) = true;
  inv_checker : 0 < udp_gc_timer_checker (rt s) <= now;
  inv_use : last_use s <= now;
  inv_wait : exists e n, waiting s = Some (e, n) /\ 1 <= n <= timeout_val /\
    e <= now + n /\
    (last_use s <= udp_gc_timer_checker (rt s) \/ last_use s + n <= e)
}.

Section Run.
Variable timeout_val : Z.
Hypothesis Htimeout : 1 <= timeout_val < 2147483648.

Lemma started_inv curr : 0 < curr -> inv timeout_val curr (started timeout_val curr).
Proof.
  intros Hc. unfold started, tick_step, apply, udp_timer_async_wait. cbn.
  split; cbn; [done|lia|lia|]. exists (curr + timeout_val), timeout_val.
  split_and!; [done|lia..|left; lia].
Qed.

Lemma use_inv now curr s :
  inv timeout_val now s -> expired_at s = None -> now <= curr ->
  inv timeout_val curr (tick_step timeout_val s (Use curr)) /\
  expired_at (tick_step timeout_val s (Use curr)) = None.
Proof.
  intros [Hu Hc Hl (e & n & Hw & Hn & He & Hd)] Hx Hnow.
  unfold tick_step. rewrite Hx. cbn [rt]. unfold udp_timer_async_wait. rewrite Hu. cbn [negb].
  change (-1 =? -1) with true. cbn iota.
  destruct (Z.eqb_spec (udp_gc_timer_checker (rt s)) 0); [lia|]. cbn [negb andb].
  destruct (Z.ltb_spec (curr - udp_gc_timer_checker (rt s)) timeout_val).
  - unfold apply. cbn. split; [|done]. split; cbn; [done|lia|lia|].
    exists e, n. split_and!; [done|lia..|left; lia].
  - cbn. split; [|done]. split; cbn; [done|lia|lia|].
    exists (curr + timeout_val), timeout_val. split_and!; [done|lia..|right; lia].
Qed.

(** A wait that ends destroys a session that was idle for as long as the wait
    was started for, or starts a shorter one. *)
Lemma fire_inv now curr s e n :
  inv timeout_val now s -> expired_at s = None -> now <= curr -> waiting s = Some (e, n) ->
  e <= curr ->
  let s' := tick_step timeout_val s (Fire curr) in
  last_use s' = last_use s /\
  ((expired_at s' = Some curr /\ last_use s + n <= curr) \/
   (expired_at s' = None /\ inv timeout_val curr s' /\ udp_gc_timer_checker (rt s') = curr)).
Proof.
  intros [Hu Hc Hl (e' & n' & Hw & Hn & He & Hd)] Hx Hnow Hw' Hend.
  assert (e' = e /\ n' = n) as [-> ->] by (split; congruence).
  unfold tick_step. rewrite Hx, Hw'. destruct (Z.leb_spec e curr); [|lia].
  unfold udp_timer_fired. cbn [negb Z.eqb].
  destruct (Z.ltb_spec (curr - udp_gc_timer_checker (rt s)) n).
  - set (diff := i32 _).
    assert (Hi : diff = n - (curr - udp_gc_timer_checker (rt s))).
    { unfold diff, i32. rewrite Z.mod_small by lia. lia. }
    unfold udp_timer_async_wait. cbn [is_udp_forward update]. rewrite Hu. cbn [negb].
    destruct (Z.eqb_spec diff (-1)); [lia|]. rewrite andb_false_r. cbn.
    split; [done|]. right. split; [done|]. split; [|done].
    split; cbn; [done|lia|lia|]. exists (curr + diff), diff.
    split_and!; [done|lia..|left; lia].
  - cbn. split; [done|]. left. split; [done|]. lia.
Qed.

Lemma fire_early curr s e n :
  expired_at s = None -> waiting s = Some (e, n) -> curr < e ->
  tick_step timeout_val s (Fire curr) = s.
Proof.
  intros Hx Hw Hlt. unfold tick_step. rewrite Hx, Hw. destruct (Z.leb_spec e curr); [lia|done].
Qed.

Lemma expired_stays s es c : expired_at s = Some c -> tick_run timeout_val s es = s.
Proof.
  intros Hx. induction es as [|e es IH]; cbn; [done|]. unfold tick_step at 2. by rewrite Hx.
Qed.

(** The end of a run: the session is alive with the invariant, or it was
    destroyed after at least a second without use. *)
Lemma tick_run_spec now s es rest :
  inv timeout_val now s -> expired_at s = None -> increasing now (es ++ rest) ->
  let s' := tick_run timeout_val s es in
  match expired_at s' with
  | Some c => last_use s' + 1 <= c
  | None => exists now', increasing now' rest /\ inv timeout_val now' s'
  end.
Proof.
  revert now s. induction es as [|ev es IH]; intros now s Hi Hx Hinc; cbn [tick_run foldl].
  { cbn. rewrite Hx. by exists now. }
  destruct ev as [c|c]; destruct Hinc as [Hle Hinc].
  - destruct (use_inv now c s Hi Hx Hle) as [H1 H2]. specialize (IH c _ H1 H2 Hinc).
    unfold tick_run in IH. cbn in IH |- *. exact IH.
  - destruct (inv_wait _ _ _ Hi) as (e & n & Hw & Hn & _).
    destruct (Z.le_gt_cases e c).
    + destruct (fire_inv now c s e n Hi Hx Hle Hw H) as [Hl [[He Hidle]|(He & Hi' & _)]].
      * change (foldl _ _ es) with (tick_run timeout_val (tick_step timeout_val s (Fire c)) es).
        rewrite (expired_stays _ es c He). cbn zeta. rewrite He, Hl. lia.
      * specialize (IH c _ Hi' He Hinc). unfold tick_run in IH. cbn zeta in IH |- *.
        exact IH.
    + rewrite (fire_early c s e n Hx Hw H).
      assert (Hi' : inv timeout_val c s).
      { destruct Hi as [? [? ?] ? (e' & n' & ?&?&?&?)].
        split; [done|lia|lia|]. exists e', n'. split_and!; [done|lia..|done]. }
      specialize (IH c s Hi' Hx Hinc). unfold tick_run in IH. cbn zeta in IH |- *.
      exact IH.
Qed.

(** An unused session is destroyed by the second wait that ends. *)
Lemma two_fires now s c1 c2 e1 n1 :
  inv timeout_val now s -> expired_at s = None -> now <= c1 -> waiting s = Some (e1, n1) ->
  e1 <= c1 -> c1 + timeout_val <= c2 ->
  is_Some (expired_at (tick_run timeout_val s [Fire c1; Fire c2])).
Proof.
  intros Hi Hx Hnow Hw H1 H2. cbn [tick_run foldl].
  destruct (fire_inv now c1 s e1 n1 Hi Hx Hnow Hw H1) as [Hl [[He _]|(He & Hi' & Hc)]].
  - change (tick_step timeout_val ?s1 (Fire c2)) with (tick_run timeout_val s1 [Fire c2]).
    rewrite (expired_stays _ [Fire c2] c1 He). eauto.
  - destruct (inv_wait _ _ _ Hi') as (e2 & n2 & Hw2 & Hn2 & He2 & _).
    destruct (fire_inv c1 c2 _ e2 n2 Hi' He ltac:(lia) Hw2 ltac:(lia)) as [_ [[He' _]|(_ & _ & Hc')]].
    + cbn [foldl]. rewrite He'. eauto.
    + exfalso. cbn in Hc'. revert Hc'. unfold tick_step at 1. rewrite He, Hw2.
      destruct (Z.leb_spec e2 c2); [|lia]. unfold udp_timer_fired. cbn [negb Z.eqb].
      rewrite Hc. destruct (Z.ltb_spec (c2 - c1) n2); [lia|]. cbn. rewrite Hc. lia.
Qed.

End Run.

End UdpTimer.

(** ** Properties *)

(** A UDP session whose timer was started at [curr] is never destroyed by it
    less than a second after it was last used, over any later uses and timer
    ends; until it is destroyed the timer is running. *)
Theorem udp_timer_spares_used_session timeout_val curr es :
  1 <= timeout_val < 2147483648 -> 0 < curr -> UdpTimer.increasing curr es ->
  let s := UdpTimer.tick_run timeout_val (UdpTimer.started timeout_val curr) es in
  match UdpTimer.expired_at s with
  | Some c => UdpTimer.last_use s + 1 <= c
  | None => is_Some (UdpTimer.waiting s)
  end.
Proof.
  intros Ht Hc Hi. cbn zeta.
  pose proof (UdpTimer.tick_run_spec timeout_val Ht curr (UdpTimer.started timeout_val curr) es []
    (UdpTimer.started_inv timeout_val Ht curr Hc) eq_refl) as H. rewrite app_nil_r in H. specialize (H Hi).
  cbn zeta in H. destruct (UdpTimer.expired_at (UdpTimer.tick_run _ _ _)); [done|].
  destruct H as (now' & _ & Hinv).
  destruct (UdpTimer.inv_wait _ _ _ Hinv) as (e & n & -> & _). by eexists.
Qed.

Lemma udp_timer_spares_used_session_witness :
  is_Some (UdpTimer.waiting (UdpTimer.tick_run 60 (UdpTimer.started 60 1)
    [UdpTimer.Use 30; UdpTimer.Fire 61])).
Proof.
  exact (udp_timer_spares_used_session 60 1 [UdpTimer.Use 30; UdpTimer.Fire 61]
    ltac:(lia) ltac:(lia) ltac:(cbn; lia)).
Defined.

(** C36: an idle UDP session is destroyed: after its last use, two ends of the
    timer, the second at least a timeout after the first, always destroy it. *)
Theorem udp_timer_reaps_idle_session timeout_val curr es c1 c2 :
  1 <= timeout_val < 2147483648 -> 0 < curr ->
  UdpTimer.increasing curr (es ++ [UdpTimer.Fire c1; UdpTimer.Fire c2]) ->
  let s := UdpTimer.tick_run timeout_val (UdpTimer.started timeout_val curr) es in
  (forall e n, UdpTimer.waiting s = Some (e, n) -> e <= c1) -> c1 + timeout_val <= c2 ->
  is_Some (UdpTimer.expired_at (UdpTimer.tick_run timeout_val s [UdpTimer.Fire c1; UdpTimer.Fire c2])).
Proof.
  intros Ht Hc Hi s Hw Hc2.
  pose proof (UdpTimer.tick_run_spec timeout_val Ht curr (UdpTimer.started timeout_val curr) es _
    (UdpTimer.started_inv timeout_val Ht curr Hc) eq_refl Hi) as H. cbn zeta in H. fold s in H.
  destruct (UdpTimer.expired_at s) as [c|] eqn:E.
  - rewrite (UdpTimer.expired_stays timeout_val s _ c E), E. by eexists.
  - destruct H as (now' & [Hn _] & Hinv). destruct (UdpTimer.inv_wait _ _ _ Hinv) as (e & n & Hen & _).
    by eapply (UdpTimer.two_fires timeout_val Ht now'); eauto.
Qed.

Lemma udp_timer_reaps_idle_session_witness :
  is_Some (UdpTimer.expired_at (UdpTimer.tick_run 60
    (UdpTimer.tick_run 60 (UdpTimer.started 60 1) [UdpTimer.Use 30])
    [UdpTimer.Fire 61; UdpTimer.Fire 121])).
Proof.
  apply (udp_timer_reaps_idle_session 60 1 [UdpTimer.Use 30] 61 121 ltac:(lia) ltac:(lia) ltac:(cbn; lia)).
  - vm_compute. intros e n H. injection H as <- <-. discriminate.
  - vm_compute. discriminate.
Defined.

(** The timer may destroy a session long before it was idle for the timeout:
    with a timeout of 60 seconds, a session last used at 61 is destroyed at 62,
    because a wait started for the remaining time is compared with that time
    only, not with the timeout. *)
Theorem udp_timer_expires_early :
  let s := UdpTimer.tick_run 60 (UdpTimer.started 60 1)
    [UdpTimer.Use 2; UdpTimer.Fire 61; UdpTimer.Use 61; UdpTimer.Fire 62] in
  UdpTimer.last_use s = 61 /\ UdpTimer.expired_at s = Some 62.
Proof. vm_compute. split; reflexivity. Qed.
