(* ===== verification/ServerWorld.v ===== *)
(** * The server side: data

    [PipelineSession] and [ServerSession]
    ([src/src/session/pipelinesession.h], [serversession.h]) hold pointers to
    each other, so both live in one store: a pipeline session, the server
    sessions by their address, the shared buffer allocator, and the
    asynchronous operations in progress.  An operation in progress is its
    completion handler, as data; [ServerSide] gives the handlers' code. *)

From Stdlib Require Import ZArith Lia.
From S2P Require Import Prelude Utils Address Trojan UdpPacket PipelineProto Caches ReadCache PipelineComponent Session.
Import ReadBuf Stat Allocator.
Local Open Scope Z_scope.

#[export] Existing Instance SendDataCache.eta_cache.
#[export] Existing Instance ReadDataCache.eta_cache.

(** ** ServerSession *)
Inductive Status := HANDSHAKE | FORWARD | UDP_FORWARD | DESTROY.
#[export] Instance Status_eq_dec : EqDecision Status.
Proof. solve_decision. Defined.

(** [in_socket] is [Some open] for a socket the session holds; [pipeline_session]
    says whether [set_pipeline_session] was called. *)
Record ServerSession := mkServerSession {
  status : Status;
  pipeline_com : PipelineComponent.PipelineComponent;
  gc_timer : UdpTimer.timer;
  stat : bytes_stat;
  in_read_buf : ReadBufWithGuard;
  out_read_buf : ReadBufWithGuard;
  udp_read_buf : ReadBufWithGuard;
  out_open : bool;
  udp_open : bool;
  out_write_buf : bytes;
  udp_data_buf : bytes;
  udp_associate_endpoint : endpoint;
  auth_password : bytes;
  pipeline_session : bool;
  has_queried_out : bool
}.
#[export] Instance eta_ServerSession : Settable ServerSession :=
  fun r => mkServerSession (status r) (pipeline_com r) (gc_timer r) (stat r) (in_read_buf r)
    (out_read_buf r) (udp_read_buf r) (out_open r) (udp_open r) (out_write_buf r)
    (udp_data_buf r) (udp_associate_endpoint r) (auth_password r) (pipeline_session r)
    (has_queried_out r).

Definition new_ServerSession (cfg : Config) : ServerSession :=
  mkServerSession HANDSHAKE (PipelineComponent.new_component (pipeline_ack_window cfg))
    UdpTimer.new_timer new_stat new_read_buf new_read_buf new_read_buf false false [] []
    default_endpoint [] false false.

(** ** PipelineSession *)
Inductive PStatus := P_HANDSHAKE | P_STREAMING | P_DESTROY.
#[export] Instance PStatus_eq_dec : EqDecision PStatus.
Proof. solve_decision. Defined.

(** The [SentHandler]s given to the send cache: of [in_async_write], of
    [out_async_write]'s acknowledgement, and one that does nothing. *)
Inductive sent_handler := HInSent (this : nat) | HAckSent (this : nat) | HNothing.
#[export] Instance sent_handler_eq_dec : EqDecision sent_handler.
Proof. solve_decision. Defined.

Record PipelineSession := mkPipelineSession {
  p_status : PStatus;
  sessions : list nat;
  p_in_read_buf : ReadBufWithGuard;
  sending_data_cache : @SendDataCache.cache sent_handler;
  live_socket : bool;
  icmp_processor : bool
}.
#[export] Instance eta_PipelineSession : Settable PipelineSession :=
  fun r => mkPipelineSession (p_status r) (sessions r) (p_in_read_buf r)
    (sending_data_cache r) (live_socket r) (icmp_processor r).

Definition new_PipelineSession : PipelineSession :=
  mkPipelineSession P_HANDSHAKE [] new_read_buf (SendDataCache.new_cache true) true false.

(** ** Operations in progress

    [this] is the session whose member function started the operation. *)
Inductive op :=
| OpHandshake (this : nat)
| OpPlainHttp (this : nat)
| OpInRead (this : nat)
| OpInWrite (this : nat) (data_copy : nat)
| OpOutRead (this : nat)
| OpOutWrite (this : nat) (data_copy : nat) (ack_count : Z)
| OpUdpRead (this : nat)
| OpUdpWrite (this : nat) (data_copy : nat)
| OpResolve (this : nat)
| OpConnect (this : nat)
| OpConnectTimer (this : nat)
| OpUdpResolve (this : nat) (packet : UDPPacket.UDPPacket) (packet_len : Z)
| OpTimer (this : nat) (timeout : Z)
| OpPHandshake | OpPPlainHttp | OpPRead | OpPWrite | OpPTimer.

(** What the system answers: an error code, or data. *)
Inductive completion :=
| Done (ec : error_code)
| Handshaken (ec : error_code) (is_http_request : bool)
| Received (ec : error_code) (data : bytes) (from : endpoint)
| Resolved (ec : error_code) (results : list endpoint).

(** ** What the outside sees *)
Inductive effect :=
| OutWritten (this : nat) (data : bytes)                     (* async_write on out_socket *)
| InWritten (this : nat) (data : bytes)                      (* async_write on in_socket *)
| UdpSent (this : nat) (data : bytes) (to : endpoint)
| Connecting (this : nat) (addr port : bytes)
| InData (this : nat) (data : bytes)                         (* data handed to the session *)
| OutData (this : nat) (data : bytes)                        (* data read from out_socket *)
| AuthRecord (pw : bytes) (download upload : Z)
| IcmpOut (data : bytes)
| PlainHttp (data : bytes)
| Destroyed (this : nat).

Record world := mkWorld {
  objs : gmap nat ServerSession;
  pipe : PipelineSession;
  pipe_alive : bool;             (* the weak_ptr to it has not expired *)
  alloc : SendingDataAllocator;
  pending : list op;
  trace : list effect;
  now : Z;
  calls : nat                    (* number of answers taken from the system *)
}.
#[export] Instance eta_world : Settable world :=
  fun r => mkWorld (objs r) (pipe r) (pipe_alive r) (alloc r) (pending r) (trace r)
    (now r) (calls r).

Definition HM := M world.

(** ** Access to the store *)
Definition getS (this : nat) : HM ServerSession :=
  fun w => match objs w !! this with Some s => Ret (s, w) | None => Undef NoObject end.
Definition modS (this : nat) (f : ServerSession -> ServerSession) : HM unit :=
  modify (fun w => w <| objs ::= alter f this |>).
Definition getP : HM PipelineSession := gets pipe.
Definition modP (f : PipelineSession -> PipelineSession) : HM unit :=
  modify (fun w => w <| pipe ::= f |>).
Definition start_op (o : op) : HM unit := modify (fun w => w <| pending ::= fun l => l ++ [o] |>).
Definition emit (e : effect) : HM unit := modify (fun w => w <| trace ::= fun l => l ++ [e] |>).

(** A buffer lent for a write, and its return. *)
Definition allocate_buf (data : bytes) : HM nat :=
  fun w => let '(b, a) := allocate (alloc w) data in Ret (b, w <| alloc := a |>).
Definition free_buf (b : nat) : HM unit :=
  fun w => match free (alloc w) b with
           | Ret a => Ret (tt, w <| alloc := a |>)
           | Throw e => Throw e
           | Undef u => Undef u
           end.

(** [begin_read] on one of the guarded buffers of a session. *)
Inductive which_buf := InBuf | OutBuf | UdpBuf.
#[export] Instance which_buf_eq_dec : EqDecision which_buf.
Proof. solve_decision. Defined.

Definition buf_of (b : which_buf) (s : ServerSession) : ReadBufWithGuard :=
  match b with InBuf => in_read_buf s | OutBuf => out_read_buf s | UdpBuf => udp_read_buf s end.
Definition set_buf (b : which_buf) (r : ReadBufWithGuard) (s : ServerSession) : ServerSession :=
  match b with
  | InBuf => s <| in_read_buf := r |>
  | OutBuf => s <| out_read_buf := r |>
  | UdpBuf => s <| udp_read_buf := r |>
  end.

Local Open Scope handler_scope.

(** [begin_read]; [consume_all]; the read started. *)
Definition guarded_read (this : nat) (b : which_buf) (o : op) : HM unit :=
  s <- getS this ;;
  r <- lift (begin_read (buf_of b s)) ;;
  modS this (set_buf b (rb_consume_all r)) ;;;
  start_op o.

(** [end_read] and, without error, [commit]. *)
Definition finish_read (this : nat) (b : which_buf) (ec : error_code) (data : bytes) : HM bytes :=
  s <- getS this ;;
  let r := end_read (buf_of b s) in
  let r := if ec =? 0 then rb_commit r data else r in
  modS this (set_buf b r) ;;;
  ret (read_buf r).
