(* ===== verification/ServerSide.v ===== *)
(** * The server side: operations

    [src/src/session/serversession.cpp], [pipelinesession.cpp] and the parts of
    [session.cpp] and [utils.h] they call.  A member function of
    [ServerSession] is [ss_...] and takes its object's address; one of
    [PipelineSession] is [ps_...]. *)

From Stdlib Require Import ZArith Lia.
From S2P Require Import Prelude Utils Address Trojan UdpPacket PipelineProto Caches ReadCache PipelineComponent Session.
From S2P Require Import ServerWorld.
Import Streambuf ReadBuf Stat Allocator PipelineComponent.
Local Open Scope Z_scope.
Local Open Scope handler_scope.

Section Server.
(** The configuration and what is outside the sources: the authenticator
    (absent or not), Boost's address parser, the ALPN protocol of a session's
    TLS connection, and the error codes of opening and binding a socket, of
    [remote_endpoint] and of the timer's [cancel]. *)
Context (cfg : Config) (auth : option (bytes -> bool)).
Context (make_address : bytes -> option address) (alpn_selected : nat -> option bytes).
Context (system_ec remote_ec cancel_ec : nat -> error_code).
(** How deep [in_async_read] may call itself through the read handler. *)
Context (depth : nat).

(** ** Helpers *)

Definition ask (answers : nat -> error_code) : HM error_code :=
  fun w => Ret (answers (calls w), w <| calls ::= S |>).

Definition undefined {A} (u : undefined_by) : HM A := fun _ => Undef u.

(** [is_using_pipeline() && !pipeline_session.expired()] *)
Definition ss_using_pipeline (this : nat) : HM bool :=
  s <- getS this ;; ret (m_is_use_pipeline (pipeline_com s)).
Definition ss_has_pipeline (this : nat) : HM bool :=
  s <- getS this ;; alive <- gets pipe_alive ;;
  ret (m_is_use_pipeline (pipeline_com s) && (pipeline_session s && alive)).
Definition ss_session_id (this : nat) : HM Z :=
  s <- getS this ;; ret (m_session_id (pipeline_com s)).
Definition modCom (this : nat) (f : PipelineComponent -> PipelineComponent) : HM unit :=
  modS this (fun s => s <| pipeline_com ::= f |>).

Fixpoint for_each {A} (f : A -> HM unit) (l : list A) : HM unit :=
  match l with
  | [] => skip
  | x :: l => f x ;;; for_each f l
  end.

(** ** PipelineSession: the send cache *)

Definition put_cache (c c' : @SendDataCache.cache sent_handler) : HM unit :=
  modP (fun p => p <| sending_data_cache := c' |>) ;;;
  when (negb (SendDataCache.is_async_sending c) && SendDataCache.is_async_sending c')
    (start_op OpPWrite).

Definition mod_cache
    (f : @SendDataCache.cache sent_handler -> @SendDataCache.cache sent_handler) : HM unit :=
  modP (fun p => p <| sending_data_cache ::= f |>).

(** [sending_data_cache.push_data] with [PipelineRequest::generate]; on a
    destroyed cache the handler is called at once, by [call]. *)
Definition ps_push (call : sent_handler -> HM unit) (cmd : PipelineRequest.Command) (sid : Z)
    (data : bytes) (h : sent_handler) (ack_count : Z) : HM unit :=
  p <- getP ;;
  let c := sending_data_cache p in
  if SendDataCache.destroyed c then
    put_cache c (SendDataCache.push_data [] h c) ;;; call h
  else
    d <- lift (PipelineRequest.generate [] cmd sid data ack_count) ;;
    put_cache c (SendDataCache.push_data d h c).

(** The list's first session with this id. *)
Fixpoint find_session (objs : gmap nat ServerSession) (sid : Z) (l : list nat) : option nat :=
  match l with
  | [] => None
  | h :: l =>
    match objs !! h with
    | Some s => if m_session_id (pipeline_com s) =? sid then Some h else find_session objs sid l
    | None => find_session objs sid l
    end
  end.

(** [find_and_process_session] *)
Definition find_and_process_session (sid : Z) (processor : nat -> HM unit) : HM bool :=
  w <- gets id ;;
  match find_session (objs w) sid (sessions (pipe w)) with
  | Some h => processor h ;;; ret true
  | None => ret false
  end.

(** [sessions.erase(it)] *)
Fixpoint remove_one (h : nat) (l : list nat) : list nat :=
  match l with
  | [] => []
  | x :: l => if (x =? h)%nat then l else x :: remove_one h l
  end.
Definition ps_erase (h : nat) : HM unit :=
  modP (fun p => p <| sessions ::= remove_one h |>).

(** ** ServerSession::destroy *)

(** All of it but the call of the pipeline session; [true] unless the session
    was destroyed before. *)
Definition ss_destroy_self (this : nat) : HM bool :=
  s <- getS this ;;
  if bool_decide (status s = DESTROY) then ret false else
  modS this (fun s => s <| status := DESTROY |>) ;;;
  emit (Destroyed this) ;;;
  when (match auth with Some _ => negb (bool_decide (auth_password s = [])) | None => false end)
    (emit (AuthRecord (auth_password s) (recv_len (stat s)) (sent_len (stat s)))) ;;;
  modS this (fun s => s <| out_open := false |>) ;;;
  modS this (fun s => s <| udp_open := false |>) ;;;
  ret true.

(** [destroy(true)] *)
Definition ss_destroy_by_pipeline (this : nat) : HM unit := ss_destroy_self this ;;; skip.

(** [PipelineSession::in_send] *)
Definition ps_in_send (call : sent_handler -> HM unit) (cmd : PipelineRequest.Command)
    (this : nat) (session_data : bytes) (h : sent_handler) (ack_count : Z) : HM unit :=
  sid <- ss_session_id this ;;
  found <- find_and_process_session sid (fun _ => ps_push call cmd sid session_data h ack_count) ;;
  if found : bool then skip else ss_destroy_by_pipeline this.

(** [PipelineSession::remove_session_after_destroy] *)
Definition ps_remove_session_after_destroy (this : nat) : HM unit :=
  p <- getP ;;
  when (negb (bool_decide (p_status p = P_DESTROY)))
    (sid <- ss_session_id this ;;
     found <- find_and_process_session sid (fun it =>
       ps_in_send (fun _ => skip) PipelineRequest.CLOSE this [] HNothing 0 ;;;
       ps_erase it) ;;
     skip).

(** [destroy(pipeline_call)] *)
Definition ss_destroy (this : nat) (pipeline_call : bool) : HM unit :=
  first <- ss_destroy_self this ;;
  if first : bool then
    has <- ss_has_pipeline this ;;
    when (negb pipeline_call && has) (ps_remove_session_after_destroy this)
  else skip.

(** A [SentHandler] called with [broken_pipe]. *)
Definition call_broken (h : sent_handler) : HM unit :=
  match h with
  | HInSent this | HAckSent this => ss_destroy this false
  | HNothing => skip
  end.

(** [session_write_data], [session_write_ack], [session_write_icmp] *)
Definition ps_session_write_data (this : nat) (data : bytes) (h : sent_handler) : HM unit :=
  ps_in_send call_broken PipelineRequest.DATA this data h 0.
Definition ps_session_write_ack (this : nat) (h : sent_handler) (ack_count : Z) : HM unit :=
  ps_in_send call_broken PipelineRequest.ACK this [] h ack_count.
Definition ps_session_write_icmp (data : bytes) (h : sent_handler) : HM unit :=
  ps_push call_broken PipelineRequest.ICMP 0 data h 0.

(** ** ServerSession *)

Definition ss_udp_timer_async_wait (this : nat) (timeout : Z) : HM unit :=
  s <- getS this ;; curr <- gets now ;; ec <- ask cancel_ec ;;
  let '(t, act) := UdpTimer.udp_timer_async_wait curr (udp_timeout cfg) ec timeout (gc_timer s) in
  modS this (fun s => s <| gc_timer := t |>) ;;;
  match act with
  | UdpTimer.NoAct => skip
  | UdpTimer.Arm n => start_op (OpTimer this n)
  | UdpTimer.Expire => ss_destroy this false
  end.

Definition ss_udp_timer_fired (this : nat) (timeout : Z) (error : error_code) : HM unit :=
  s <- getS this ;; curr <- gets now ;; ec <- ask cancel_ec ;;
  let '(t, act) :=
    UdpTimer.udp_timer_fired curr (udp_timeout cfg) ec timeout error (gc_timer s) in
  modS this (fun s => s <| gc_timer := t |>) ;;;
  match act with
  | UdpTimer.NoAct => skip
  | UdpTimer.Arm n => start_op (OpTimer this n)
  | UdpTimer.Expire => ss_destroy this false
  end.

Definition ss_in_async_write (this : nat) (data : bytes) : HM unit :=
  piped <- ss_using_pipeline this ;;
  if piped : bool then
    has <- ss_has_pipeline this ;;
    if has : bool then ps_session_write_data this data (HInSent this)
    else ss_destroy this false
  else
    b <- allocate_buf data ;;
    emit (InWritten this data) ;;;
    start_op (OpInWrite this b).

Definition ss_out_async_read (this : nat) : HM unit :=
  s <- getS this ;;
  if m_is_use_pipeline (pipeline_com s) then
    let '(com, permit) := pre_call_ack_func (pipeline_com s) in
    modS this (fun s => s <| pipeline_com := com |>) ;;;
    (if permit : bool then guarded_read this OutBuf (OpOutRead this) else skip)
  else guarded_read this OutBuf (OpOutRead this).

Definition ss_out_async_write (this : nat) (data : bytes) (ack_count : Z) : HM unit :=
  has <- ss_has_pipeline this ;;
  when has (modCom this (set_async_writing_data true)) ;;;
  b <- allocate_buf data ;;
  emit (OutWritten this data) ;;;
  start_op (OpOutWrite this b ack_count).

Definition ss_out_udp_async_read (this : nat) : HM unit :=
  guarded_read this UdpBuf (OpUdpRead this).

Definition ss_out_udp_async_write (this : nat) (data : bytes) (ep : endpoint) : HM unit :=
  b <- allocate_buf data ;;
  emit (UdpSent this data ep) ;;;
  start_op (OpUdpWrite this b).

(** The lambda [cb] of [out_udp_sent] *)
Definition ss_udp_open (this : nat) : HM bool :=
  ec <- ask system_ec ;;
  if negb (ec =? 0) then ss_destroy this false ;;; ret false else
  modS this (fun s => s <| udp_open := true |>) ;;;
  ec <- ask system_ec ;;
  if negb (ec =? 0) then ss_destroy this false ;;; ret false else
  ss_out_udp_async_read this ;;; ret true.

Definition ss_udp_forward (this : nat) (packet : UDPPacket.UDPPacket) (packet_len : Z)
    (dst_endpoint : endpoint) : HM unit :=
  s <- getS this ;;
  ok <- (if udp_open s then ret true else ss_udp_open this) ;;
  if ok : bool then
    modS this (fun s => s <| stat ::= fun st => inc_sent_len st (UDPPacket.length packet) |>) ;;;
    ss_out_udp_async_write this (UDPPacket.payload packet) dst_endpoint ;;;
    modS this (fun s => s <| udp_data_buf ::= fun b => consume b packet_len |>)
  else skip.

(** [out_udp_sent]; [in_async_read] is what it calls to read again. *)
Definition ss_out_udp_sent_ (in_async_read : HM unit) (this : nat) : HM unit :=
  s <- getS this ;;
  if negb (bool_decide (status s = UDP_FORWARD)) then skip else
  ss_udp_timer_async_wait this (-1) ;;;
  s <- getS this ;;
  if zlen (udp_data_buf s) =? 0 then in_async_read else
  parsed <- lift (UDPPacket.parse (udp_data_buf s)) ;;
  match parsed with
  | None =>
    if MAX_BUF_LENGTH <? zlen (udp_data_buf s) then ss_destroy this false else in_async_read
  | Some (packet, packet_len) =>
    let addr := UDPPacket.pkt_address packet in
    let ep := make_udp_endpoint_safe make_address (Socks5.addr addr) (Socks5.port addr) in
    match Socks5.address_type addr, ep with
    | _, Some dst_endpoint => ss_udp_forward this packet packet_len dst_endpoint
    | Socks5.DOMAINNAME, None => start_op (OpUdpResolve this packet packet_len)
    | _, None => ss_destroy this false
    end
  end.

(** The port asked for: of the request, or of the fallback server, which the
    ALPN protocol may override. *)
Definition ss_fallback_port (this : nat) : Z :=
  match alpn_selected this with
  | None => remote_port cfg
  | Some proto => match map_find proto (alpn_port_override cfg) with
                  | None => remote_port cfg
                  | Some port => port
                  end
  end.

(** The password check of [in_recv]: the request when it is accepted. *)
Definition ss_check_request (this : nat) (data : bytes) : HM (option TrojanRequest.TrojanRequest) :=
  parsed <- lift (TrojanRequest.parse data) ;;
  if fst parsed =? -1 then ret None else
  match snd parsed with
  | None => undefined EmptyContainer
  | Some req =>
    match map_find (TrojanRequest.password req) (Session.password cfg) with
    | Some _ => ret (Some req)
    | None =>
      match auth with
      | Some ok => if ok (TrojanRequest.password req) then
                     modS this (fun s => s <| auth_password := TrojanRequest.password req |>) ;;;
                     ret (Some req)
                   else ret None
      | None => ret None
      end
    end
  end.

(** The end of the HANDSHAKE branch: [connect_out_socket]. *)
Definition ss_query_out (this : nat) (payload query_addr : bytes) (query_port : Z) : HM unit :=
  modS this (fun s => s <| out_write_buf ::= fun b => fst (append_view b payload) |>) ;;;
  modS this (fun s => s <| stat ::= fun st => inc_sent_len st (zlen (out_write_buf s)) |>) ;;;
  modS this (fun s => s <| has_queried_out := true |>) ;;;
  emit (Connecting this query_addr (Text.to_string query_port)) ;;;
  start_op (OpResolve this).

(** The UDP_ASSOCIATE branch. *)
Definition ss_udp_associate (in_async_read : HM unit) (this : nat)
    (req : TrojanRequest.TrojanRequest) : HM unit :=
  modS this (fun s => s <| gc_timer ::= UdpTimer.set_udp_forward_session true |>) ;;;
  ss_udp_timer_async_wait this (-1) ;;;
  let addr := TrojanRequest.req_address req in
  match make_udp_endpoint_safe make_address (Socks5.addr addr) (Socks5.port addr) with
  | None =>
    modS this (fun s => s <| udp_associate_endpoint := default_endpoint |>) ;;;
    ss_destroy this false
  | Some ep =>
    modS this (fun s => s <| udp_associate_endpoint := ep |>) ;;;
    modS this (fun s => s <| status := UDP_FORWARD |>) ;;;
    modS this (fun s => s <| udp_data_buf :=
      fst (append_view (consume_all (udp_data_buf s)) (TrojanRequest.payload req)) |>) ;;;
    ss_out_udp_sent_ in_async_read this
  end.

(** [in_recv] *)
Definition ss_in_recv_ (in_async_read : HM unit) (this : nat) (data : bytes) (ack_count : Z)
  : HM unit :=
  s <- getS this ;;
  match status s with
  | HANDSHAKE =>
    if has_queried_out s then
      modS this (fun s => s <| out_write_buf ::= fun b => fst (append_view b data) |>) ;;;
      modS this (fun s => s <| stat ::= fun st => inc_sent_len st (zlen data) |>)
    else
      accepted <- ss_check_request this data ;;
      match accepted with
      | None => ss_query_out this data (remote_addr cfg) (ss_fallback_port this)
      | Some req =>
        match TrojanRequest.command req with
        | TrojanRequest.UDP_ASSOCIATE => ss_udp_associate in_async_read this req
        | TrojanRequest.CONNECT =>
          ss_query_out this (TrojanRequest.payload req)
            (Socks5.addr (TrojanRequest.req_address req))
            (Socks5.port (TrojanRequest.req_address req))
        end
      end
  | FORWARD =>
    modS this (fun s => s <| stat ::= fun st => inc_sent_len st (zlen data) |>) ;;;
    ss_out_async_write this data ack_count
  | UDP_FORWARD =>
    modS this (fun s => s <| udp_data_buf ::= fun b => fst (append_view b data) |>) ;;;
    ss_out_udp_sent_ in_async_read this
  | DESTROY => skip
  end.

(** [in_async_read]: from the pipeline's cache, whose handler is [in_recv] and
    is called before the cache is emptied, or from the socket. *)
Fixpoint ss_in_async_read_ (depth : nat) (this : nat) : HM unit :=
  match depth with
  | O => undefined NoEnd
  | S depth =>
    s <- getS this ;;
    if m_is_use_pipeline (pipeline_com s) then
      match ReadDataCache.async_read_begin (pipeline_data_cache (pipeline_com s)) with
      | (cache, None) => modCom this (fun c => c <| pipeline_data_cache := cache |>)
      | (_, Some (data, count)) =>
        ss_in_recv_ (ss_in_async_read_ depth this) this data count ;;;
        modCom this (fun c => c <| pipeline_data_cache ::= ReadDataCache.async_read_end |>)
      end
    else guarded_read this InBuf (OpInRead this)
  end.

Definition ss_in_async_read (this : nat) : HM unit := ss_in_async_read_ depth this.
Definition ss_in_recv (this : nat) : bytes -> Z -> HM unit :=
  ss_in_recv_ (ss_in_async_read this) this.
Definition ss_out_udp_sent (this : nat) : HM unit :=
  ss_out_udp_sent_ (ss_in_async_read this) this.

Definition ss_in_sent (this : nat) : HM unit :=
  s <- getS this ;;
  match status s with
  | FORWARD => ss_out_async_read this
  | UDP_FORWARD => ss_out_udp_async_read this
  | _ => skip
  end.

Definition ss_out_recv (this : nat) (data : bytes) : HM unit :=
  s <- getS this ;;
  when (bool_decide (status s = FORWARD))
    (modS this (fun s => s <| stat ::= fun st => inc_recv_len st (zlen data) |>) ;;;
     ss_in_async_write this data).

Definition ss_out_sent (this : nat) : HM unit :=
  s <- getS this ;;
  when (bool_decide (status s = FORWARD)) (ss_in_async_read this).

Definition ss_out_udp_recv (this : nat) (data : bytes) (ep : endpoint) : HM unit :=
  s <- getS this ;;
  when (bool_decide (status s = UDP_FORWARD))
    (ss_udp_timer_async_wait this (-1) ;;;
     modS this (fun s => s <| stat ::= fun st => inc_recv_len st (zlen data) |>) ;;;
     let packet := UDPPacket.generate_endpoint [] ep data in
     modS this (fun s => s <| out_write_buf := packet |>) ;;;
     ss_in_async_write this packet).

Definition ss_start (this : nat) : HM unit :=
  piped <- ss_using_pipeline this ;;
  if piped : bool then ss_in_async_read this
  else
    ec <- ask remote_ec ;;
    if negb (ec =? 0) then ss_destroy this false else start_op (OpHandshake this).

(** The [connected_handler] of [in_recv] *)
Definition ss_connected (this : nat) : HM unit :=
  modS this (fun s => s <| status := FORWARD |>) ;;;
  ss_out_async_read this ;;;
  s <- getS this ;;
  if negb (zlen (out_write_buf s) =? 0)
  then ss_out_async_write this (to_view (out_write_buf s)) 0
  else ss_in_async_read this.

(** ** Completion handlers of ServerSession *)

Definition ss_handshake_done (this : nat) (error : error_code) (is_http_request : bool) : HM unit :=
  if negb (error =? 0) then
    if is_http_request && bool_decide (plain_http_response cfg = []) then
      modS this (fun s => s <| stat ::= fun st => inc_recv_len st (zlen (plain_http_response cfg)) |>) ;;;
      emit (PlainHttp (plain_http_response cfg)) ;;;
      start_op (OpPlainHttp this)
    else ss_destroy this false
  else ss_in_async_read this.

Definition ss_in_read_done (this : nat) (error : error_code) (data : bytes) : HM unit :=
  view <- finish_read this InBuf error data ;;
  if negb (error =? 0) then ss_destroy this false else
  emit (InData this data) ;;;
  ss_in_recv this view 0.

Definition ss_in_write_done (this data_copy : nat) (error : error_code) : HM unit :=
  free_buf data_copy ;;;
  if negb (error =? 0) then ss_destroy this false else ss_in_sent this.

Definition ss_out_read_done (this : nat) (error : error_code) (data : bytes) : HM unit :=
  view <- finish_read this OutBuf error data ;;
  if negb (error =? 0) then ss_destroy this false else
  emit (OutData this data) ;;;
  ss_out_recv this view.

Definition ss_out_write_done (this data_copy : nat) (ack_count : Z) (error : error_code) : HM unit :=
  free_buf data_copy ;;;
  if negb (error =? 0) then ss_destroy this false else
  has <- ss_has_pipeline this ;;
  if has : bool then
    s <- getS this ;;
    if m_write_close_future (pipeline_com s) &&
       negb (ReadDataCache.has_queued_data (pipeline_data_cache (pipeline_com s)))
    then ss_destroy this false
    else
      modCom this (set_async_writing_data false) ;;;
      ps_session_write_ack this (HAckSent this) ack_count
  else ss_out_sent this.

Definition ss_udp_read_done (this : nat) (error : error_code) (data : bytes) (from : endpoint)
  : HM unit :=
  view <- finish_read this UdpBuf error data ;;
  if negb (error =? 0) then ss_destroy this false else ss_out_udp_recv this view from.

Definition ss_udp_write_done (this data_copy : nat) (error : error_code) : HM unit :=
  free_buf data_copy ;;;
  if negb (error =? 0) then ss_destroy this false else ss_out_udp_sent this.

(** [connect_out_socket]'s handlers *)
Definition ss_resolve_done (this : nat) (error : error_code) (results : list endpoint) : HM unit :=
  match results with
  | [] => ss_destroy this false
  | _ :: _ =>
    if negb (error =? 0) then ss_destroy this false else
    ec <- ask system_ec ;;
    if negb (ec =? 0) then ss_destroy this false else
    modS this (fun s => s <| out_open := true |>) ;;;
    when (0 <? connect_time_out cfg) (start_op (OpConnectTimer this)) ;;;
    start_op (OpConnect this)
  end.

Definition ss_connect_done (this : nat) (error : error_code) : HM unit :=
  if negb (error =? 0) then ss_destroy this false else ss_connected this.

(** The handler of [udp_resolver.async_resolve] in [out_udp_sent] *)
Definition pick_result (results : list endpoint) (first : endpoint) : endpoint :=
  if prefer_ipv4 cfg then
    match List.find (fun e => match ep_address e with V4 _ _ _ _ => true | V6 _ => false end) results with
    | Some e => e
    | None => first
    end
  else first.

Definition ss_udp_resolve_done (this : nat) (packet : UDPPacket.UDPPacket) (packet_len : Z)
    (error : error_code) (results : list endpoint) : HM unit :=
  match results with
  | [] => ss_destroy this false
  | first :: _ =>
    if negb (error =? 0) then ss_destroy this false else
    let chosen := pick_result results first in
    ss_udp_forward this packet packet_len
      (mkEndpoint (ep_address chosen) (Socks5.port (UDPPacket.pkt_address packet)))
  end.

(** ** PipelineSession *)

Definition ps_destroy : HM unit :=
  p <- getP ;;
  if bool_decide (p_status p = P_DESTROY) then skip else
  modP (fun p => p <| p_status := P_DESTROY |>) ;;;
  let call h := mod_cache (SendDataCache.emit (SendDataCache.Called h broken_pipe)) ;;;
                call_broken h in
  (if SendDataCache.destroyed (sending_data_cache p) then skip else
   mod_cache (fun c => c <| SendDataCache.destroyed := true |>) ;;;
   p <- getP ;;
   for_each call (SendDataCache.handler_queue_other (sending_data_cache p)) ;;;
   mod_cache (fun c => c <| SendDataCache.handler_queue_other := [] |>) ;;;
   p <- getP ;;
   for_each call (SendDataCache.handler_queue (sending_data_cache p)) ;;;
   mod_cache (fun c => c <| SendDataCache.handler_queue := [] |>)) ;;;
  p <- getP ;;
  for_each ss_destroy_by_pipeline (sessions p) ;;;
  modP (fun p => p <| sessions := [] |>).

(** A [SentHandler] called without error. *)
Definition call_sent (h : sent_handler) : HM unit :=
  match h with
  | HInSent this => ss_in_sent this
  | HAckSent this => ss_out_sent this
  | HNothing => skip
  end.

(** The handler given to [async_write] on [live_socket], then the one
    [async_send] gives to the writer. *)
Definition ps_write_done (ec : error_code) : HM unit :=
  if negb (ec =? 0) then ps_destroy else
  p <- getP ;;
  match SendDataCache.flight (sending_data_cache p) with
  | None => skip
  | Some sending =>
    for_each (fun h => mod_cache (SendDataCache.emit (SendDataCache.Called h ec)) ;;; call_sent h)
      (SendDataCache.handlers_at sending (sending_data_cache p)) ;;;
    mod_cache (fun c =>
      let c := SendDataCache.set_handlers sending [] c in
      let c := SendDataCache.set_queue sending (consume_all (SendDataCache.queue_at sending c)) c in
      c <| SendDataCache.is_async_sending := false |> <| SendDataCache.flight := None |>) ;;;
    p <- getP ;;
    put_cache (sending_data_cache p) (SendDataCache.async_send (sending_data_cache p))
  end.

Definition ps_in_async_read : HM unit :=
  p <- getP ;;
  r <- lift (begin_read (p_in_read_buf p)) ;;
  modP (fun p => p <| p_in_read_buf := r |>) ;;;
  start_op OpPRead.

(** A session made for the pipeline; it is started before it is listed. *)
Definition ps_new_session (sid : Z) : HM unit :=
  w <- gets id ;;
  let h := fresh (dom (objs w) : gset nat) in
  let s := new_ServerSession cfg in
  let s := s <| pipeline_session := true |> in
  let s := s <| pipeline_com ::= set_session_id sid |> in
  let s := s <| pipeline_com ::= set_use_pipeline |> in
  modify (fun w => w <| objs ::= <[h := s]> |>) ;;;
  ss_start h ;;;
  modP (fun p => p <| sessions ::= fun l => l ++ [h] |>).

(** [pipeline_in_recv] of a session *)
Definition ss_pipeline_in_recv (this : nat) (data : bytes) : HM unit :=
  s <- getS this ;;
  emit (InData this data) ;;;
  r <- lift (pipeline_in_recv data (pipeline_com s)) ;;
  modS this (fun s => s <| pipeline_com := fst r |>) ;;;
  match snd r with
  | Some (d, count) => ss_in_recv this d count
  | None => skip
  end.

(** The branches of [process_streaming_data] *)
Definition ps_command (req : PipelineRequest.PipelineRequest) : HM bool :=
  let sid := PipelineRequest.session_id req in
  match PipelineRequest.command req with
  | PipelineRequest.CONNECT =>
    find_and_process_session sid (fun it => ss_destroy_by_pipeline it ;;; ps_erase it) ;;;
    ps_new_session sid ;;;
    ret true
  | PipelineRequest.DATA =>
    find_and_process_session sid (fun it =>
      ss_pipeline_in_recv it (PipelineRequest.packet_data req)) ;;;
    ret true
  | PipelineRequest.CLOSE =>
    find_and_process_session sid (fun it =>
      s <- getS it ;;
      if canbe_closed_by_pipeline (pipeline_com s)
      then ss_destroy_by_pipeline it ;;; ps_erase it
      else modCom it (set_write_close_future true)) ;;;
    ret true
  | PipelineRequest.ACK =>
    find_and_process_session sid (fun it =>
      modCom it (recv_ack_cmd (PipelineRequest.ack_count req)) ;;;
      s <- getS it ;;
      when (pipeline_wait_for_ack (pipeline_com s)) (ss_out_async_read it)) ;;;
    ret true
  | PipelineRequest.ICMP =>
    p <- getP ;;
    when (icmp_processor p) (emit (IcmpOut (PipelineRequest.packet_data req))) ;;;
    ret true
  end.

Definition ps_handle (req : PipelineRequest.PipelineRequest) (w : world) : outcome (world * bool) :=
  match ps_command req w with
  | Ret (go, w') => Ret (w', go)
  | Throw e => Throw e
  | Undef u => Undef u
  end.

Definition ps_process_streaming_data : HM unit :=
  p <- getP ;;
  let buf := read_buf (p_in_read_buf p) in
  e <- (fun w => match PipelineRequest.drain ps_handle (S (length buf)) buf w with
                 | Ret (w', rest, e) =>
                   Ret (e, w' <| pipe ::= fun p =>
                     p <| p_in_read_buf ::= fun r => r <| read_buf := rest |> |> |>)
                 | Throw x => Throw x
                 | Undef u => Undef u
                 end) ;;
  match e with
  | PipelineRequest.Drained => ps_in_async_read
  | PipelineRequest.BadCommand => ps_destroy
  | _ => skip
  end.

(** The second constructor of [ServerSession]: its [destroy()] would ask for a
    [shared_ptr] to an object under construction. *)
Definition ps_move_socket_to_serversession (data : bytes) : HM unit :=
  w <- gets id ;;
  let h := fresh (dom (objs w) : gset nat) in
  ec <- ask remote_ec ;;
  if negb (ec =? 0) then throw bad_weak_ptr else
  modify (fun w => w <| objs ::= <[h := new_ServerSession cfg]> |>) ;;;
  emit (InData h data) ;;;
  ss_in_recv h data 0 ;;;
  modP (fun p => p <| live_socket := false |>) ;;;
  ps_destroy.

Definition ps_in_recv : HM unit :=
  p <- getP ;;
  match p_status p with
  | P_HANDSHAKE =>
    let data := read_buf (p_in_read_buf p) in
    match find_ CRLF data with
    | None =>
      if zlen data <? MAX_PASSWORD_LENGTH then ps_in_async_read
      else ps_move_socket_to_serversession data
    | Some npos =>
      match Session.password cfg with
      | [] => undefined EmptyContainer
      | (pw, _) :: _ =>
        got <- lift (substr data 0 npos) ;;
        if negb (bool_decide (got = pw)) then ps_move_socket_to_serversession data
        else
          modP (fun p => p <| p_status := P_STREAMING |>) ;;;
          modP (fun p => p <| p_in_read_buf ::= fun r => rb_consume r (npos + 2) |>) ;;;
          ps_process_streaming_data
      end
    end
  | P_STREAMING => ps_process_streaming_data
  | P_DESTROY => skip
  end.

Definition ps_read_done (error : error_code) (data : bytes) : HM unit :=
  modP (fun p => p <| p_in_read_buf ::= end_read |>) ;;;
  if negb (error =? 0) then ps_destroy else
  modP (fun p => p <| p_in_read_buf ::= fun r => rb_commit r data |>) ;;;
  ps_in_recv.

Definition ps_start : HM unit :=
  start_op OpPTimer ;;;
  ec <- ask remote_ec ;;
  if negb (ec =? 0) then ps_destroy else start_op OpPHandshake.

Definition ps_handshake_done (error : error_code) (is_http_request : bool) : HM unit :=
  if negb (error =? 0) then
    if is_http_request && bool_decide (plain_http_response cfg = []) then
      emit (PlainHttp (plain_http_response cfg)) ;;; start_op OpPPlainHttp
    else ps_destroy
  else ps_in_async_read.

Definition ps_timer_fired (error : error_code) : HM unit :=
  if error =? 0 then ps_destroy else skip.

(** ** Runs

    An event is the end of an operation in progress, the passing of time, a new
    connection, or the end of the pipeline session's life. *)
Definition complete (o : op) (c : completion) : HM unit :=
  match o, c with
  | OpHandshake this, Handshaken ec http => ss_handshake_done this ec http
  | OpPlainHttp this, Done _ => ss_destroy this false
  | OpInRead this, Received ec data _ => ss_in_read_done this ec data
  | OpInWrite this b, Done ec => ss_in_write_done this b ec
  | OpOutRead this, Received ec data _ => ss_out_read_done this ec data
  | OpOutWrite this b n, Done ec => ss_out_write_done this b n ec
  | OpUdpRead this, Received ec data from => ss_udp_read_done this ec data from
  | OpUdpWrite this b, Done ec => ss_udp_write_done this b ec
  | OpResolve this, Resolved ec results => ss_resolve_done this ec results
  | OpConnect this, Done ec => ss_connect_done this ec
  | OpConnectTimer this, Done ec => if ec =? 0 then ss_destroy this false else skip
  | OpUdpResolve this p n, Resolved ec results => ss_udp_resolve_done this p n ec results
  | OpTimer this n, Done ec => ss_udp_timer_fired this n ec
  | OpPHandshake, Handshaken ec http => ps_handshake_done ec http
  | OpPPlainHttp, Done _ => ps_destroy
  | OpPRead, Received ec data _ => ps_read_done ec data
  | OpPWrite, Done ec => ps_write_done ec
  | OpPTimer, Done ec => ps_timer_fired ec
  | _, _ => skip
  end.

(** The answer is of the operation's kind, and a read returns no more than was
    asked for. *)
Definition answers (o : op) (c : completion) : bool :=
  match o, c with
  | (OpHandshake _ | OpPHandshake), Handshaken _ _ => true
  | (OpPlainHttp _ | OpInWrite _ _ | OpOutWrite _ _ _ | OpUdpWrite _ _ | OpConnect _ |
     OpConnectTimer _ | OpTimer _ _ | OpPPlainHttp | OpPWrite | OpPTimer), Done _ => true
  | (OpInRead _ | OpOutRead _), Received _ data _ => zlen data <=? MAX_BUF_LENGTH
  | OpUdpRead _, Received _ data _ => zlen data <=? udp_recv_buf cfg
  | OpPRead, Received _ data _ => zlen data <=? RECV_BUF_LENGTH
  | (OpResolve _ | OpUdpResolve _ _ _), Resolved _ _ => true
  | _, _ => false
  end.

Inductive event :=
| Complete (i : nat) (c : completion)
| Clock (t : Z)
| Accept                      (* a connection for a new ServerSession *)
| PipelineFreed.              (* only after its [destroy] *)

Definition accept : HM unit :=
  w <- gets id ;;
  let h := fresh (dom (objs w) : gset nat) in
  modify (fun w => w <| objs ::= <[h := new_ServerSession cfg]> |>) ;;;
  ss_start h.

Definition step (e : event) : HM unit :=
  match e with
  | Complete i c =>
    w <- gets id ;;
    match pending w !! i with
    | Some o =>
      if answers o c then
        modify (fun w => w <| pending ::= delete i |>) ;;; complete o c
      else skip
    | None => skip
    end
  | Clock t => modify (fun w => w <| now := t |>)
  | Accept => accept
  | PipelineFreed =>
    p <- getP ;;
    when (bool_decide (p_status p = P_DESTROY)) (modify (fun w => w <| pipe_alive := false |>))
  end.

Fixpoint run (es : list event) : HM unit :=
  match es with
  | [] => skip
  | e :: es => step e ;;; run es
  end.

Definition init : world :=
  mkWorld ∅ new_PipelineSession true empty_allocator [] [] 1 0.

(** The life of a server: the pipeline session starts, then events come. *)
Definition serve (es : list event) : outcome (unit * world) := (ps_start ;;; run es) init.

End Server.
