(* ===== verification/ServerProofs.v ===== *)
(** * The server side: invariant

    What holds of every world the server reaches: each guarded buffer has
    exactly the read in progress its guard says, a session's activity towards
    the client and towards the target is one chain each, and the octets handed
    to the target are those received from the client. *)

From Stdlib Require Import ZArith Lia.
From S2P Require Import Prelude Utils Address Trojan UdpPacket PipelineProto Caches ReadCache PipelineComponent Session.
From S2P Require Import ServerWorld ServerSide.
Import Streambuf ReadBuf Stat Allocator PipelineComponent.
Local Open Scope Z_scope.
Local Open Scope handler_scope.

#[local] Arguments SendDataCache.registered : simpl never.
#[local] Arguments SendDataCache.called : simpl never.

(** ** Counting operations *)

Definition Zb (b : bool) : Z := if b then 1 else 0.
Definition cntp (f : op -> bool) (l : list op) : Z := zlen (List.filter f l).

Lemma cntp_app f l k : cntp f (l ++ k) = cntp f l + cntp f k.
Proof. unfold cntp. by rewrite List.filter_app, zlen_app. Qed.
Lemma cntp_nonneg f l : 0 <= cntp f l.
Proof. apply zlen_nonneg. Qed.
Lemma cntp_one f o : cntp f [o] = Zb (f o).
Proof. unfold cntp. cbn. by destruct (f o). Qed.
Lemma cntp_nil f : cntp f [] = 0.
Proof. done. Qed.
Lemma cntp_delete f l i o : l !! i = Some o -> cntp f (delete i l) = cntp f l - Zb (f o).
Proof.
  intros H. rewrite delete_take_drop. rewrite <- (take_drop_middle l i o H) at 3.
  rewrite !cntp_app. change (o :: drop (S i) l) with ([o] ++ drop (S i) l).
  rewrite cntp_app, cntp_one. lia.
Qed.
Lemma cntp_zero f l : (forall o, o ∈ l -> f o = false) -> cntp f l = 0.
Proof.
  unfold cntp. induction l as [|o l IH]; intros H; cbn; [done|].
  rewrite (H o) by set_solver. apply IH. set_solver.
Qed.
Lemma cntp_elem f l o : o ∈ l -> f o = true -> 1 <= cntp f l.
Proof.
  intros [i Hi]%list_elem_of_lookup Hf. pose proof (cntp_delete f l i o Hi).
  pose proof (cntp_nonneg f (delete i l)). rewrite Hf in H. cbn in H. lia.
Qed.

Lemma cntp_le f g l : (forall o, f o = true -> g o = true) -> cntp f l <= cntp g l.
Proof.
  intros H. unfold cntp. induction l as [|o l IH]; cbn; [lia|].
  destruct (f o) eqn:E; [rewrite (H o E), !zlen_cons; lia|].
  destruct (g o); rewrite ?zlen_cons; lia.
Qed.

(** The session an operation belongs to, the buffer it was lent. *)
Definition op_this (o : op) : option nat :=
  match o with
  | OpHandshake h | OpPlainHttp h | OpInRead h | OpInWrite h _ | OpOutRead h | OpOutWrite h _ _
  | OpUdpRead h | OpUdpWrite h _ | OpResolve h | OpConnect h | OpConnectTimer h
  | OpUdpResolve h _ _ | OpTimer h _ => Some h
  | _ => None
  end.
Definition op_buf (o : op) : option nat :=
  match o with
  | OpInWrite _ b | OpOutWrite _ b _ | OpUdpWrite _ b => Some b
  | _ => None
  end.

Definition is_in (h : nat) (o : op) : bool :=
  match o with OpInRead t => (t =? h)%nat | _ => false end.
Definition is_outr (h : nat) (o : op) : bool :=
  match o with OpOutRead t => (t =? h)%nat | _ => false end.
Definition is_udpr (h : nat) (o : op) : bool :=
  match o with OpUdpRead t => (t =? h)%nat | _ => false end.
Definition is_inw (h : nat) (o : op) : bool :=
  match o with OpInWrite t _ => (t =? h)%nat | _ => false end.
Definition is_conn (h : nat) (o : op) : bool :=
  match o with OpResolve t | OpConnect t => (t =? h)%nat | _ => false end.
Definition is_udpres (h : nat) (o : op) : bool :=
  match o with OpUdpResolve t _ _ => (t =? h)%nat | _ => false end.
(** The chain from the client to the target. *)
Definition is_up (h : nat) (o : op) : bool :=
  match o with
  | OpHandshake t | OpInRead t | OpResolve t | OpConnect t | OpOutWrite t _ _ | OpUdpWrite t _
  | OpUdpResolve t _ _ => (t =? h)%nat
  | _ => false
  end.
Definition is_ptok (o : op) : bool :=
  match o with OpPHandshake | OpPRead => true | _ => false end.
Definition is_pread (o : op) : bool := match o with OpPRead => true | _ => false end.

(** ** Handlers not called yet *)

Definition handler_this (t : sent_handler) : option nat :=
  match t with HInSent h | HAckSent h => Some h | HNothing => None end.

Definition occ (h : nat) (l : list sent_handler) : Z :=
  zlen (filter (fun t => t = HInSent h) l).
Definition tok (h : nat) (lg : list SendDataCache.event) : Z :=
  occ h (SendDataCache.registered lg) - occ h (SendDataCache.called lg).

Lemma occ_app h l k : occ h (l ++ k) = occ h l + occ h k.
Proof. unfold occ. by rewrite list.filter_app, zlen_app. Qed.
Lemma occ_perm h l k : l ≡ₚ k -> occ h l = occ h k.
Proof. unfold occ, zlen. intros ->. done. Qed.
Lemma occ_nonneg h l : 0 <= occ h l.
Proof. apply zlen_nonneg. Qed.
Lemma occ_zero h l : HInSent h ∉ l -> occ h l = 0.
Proof.
  unfold occ. induction l as [|t l IH]; intros Hn; [done|].
  rewrite filter_cons, decide_False by set_solver. apply IH. set_solver.
Qed.
Lemma occ_one h t : occ h [t] = Zb (bool_decide (t = HInSent h)).
Proof. unfold occ. cbn. by repeat case_decide; repeat case_bool_decide. Qed.

(** ** The cache, in the three situations it is used *)

Inductive mode :=
| Idle                                  (* no handler is being called *)
| Busy (rem : list sent_handler) (sending : bool)
    (* [write_done] of buffer [sending] has [rem] left to call *)
| Dead (rem : list sent_handler) (c0 : @SendDataCache.cache sent_handler).
    (* [destroy] of [c0] has [rem] left to call *)

Definition cache_in (m : mode) (c : @SendDataCache.cache sent_handler) : Prop :=
  match m with
  | Idle => SendDataCache.inv c
  | Busy rem sending =>
    SendDataCache.is_async_sending c = true /\
    SendDataCache.flight c = Some sending /\
    SendDataCache.current_is_first c = negb sending /\
    SendDataCache.registered (SendDataCache.log c) ≡ₚ
      SendDataCache.called (SendDataCache.log c) ++ SendDataCache.current_recv_handler c ++ rem
  | Dead rem c0 =>
    SendDataCache.destroyed c0 = true /\ c = c0 <| SendDataCache.log := SendDataCache.log c |> /\
    SendDataCache.registered (SendDataCache.log c) ≡ₚ
      SendDataCache.called (SendDataCache.log c) ++ rem
  end.

Lemma cache_tok_nonneg m c h : cache_in m c -> 0 <= tok h (SendDataCache.log c).
Proof.
  intros H. unfold tok. destruct m; cbn in H.
  - destruct H as [_ _ H]. rewrite (occ_perm _ _ _ H), occ_app.
    pose proof (occ_nonneg h (SendDataCache.current_recv_handler c ++
      SendDataCache.handlers_at (negb (SendDataCache.current_is_first c)) c)). lia.
  - destruct H as (_ & _ & _ & H). rewrite (occ_perm _ _ _ H), occ_app.
    pose proof (occ_nonneg h (SendDataCache.current_recv_handler c ++ rem)). lia.
  - destruct H as (_ & _ & H). rewrite (occ_perm _ _ _ H), occ_app.
    pose proof (occ_nonneg h rem). lia.
Qed.

Lemma called_registered m c t :
  cache_in m c -> t ∈ SendDataCache.called (SendDataCache.log c) ->
  t ∈ SendDataCache.registered (SendDataCache.log c).
Proof.
  intros H Ht. destruct m; cbn in H.
  - destruct H as [_ _ H]. rewrite H. set_solver.
  - destruct H as (_ & _ & _ & H). rewrite H. set_solver.
  - destruct H as (_ & _ & H). rewrite H. set_solver.
Qed.

Lemma push_flight c (d : bytes) (t : sent_handler) :
  SendDataCache.is_async_sending c = true \/ SendDataCache.destroyed c = true ->
  SendDataCache.is_async_sending (SendDataCache.push_data d t c) = SendDataCache.is_async_sending c.
Proof. intros H. apply (SendDataCache.quiet_sending _ _ (SendDataCache.push_quiet d t c H)). Qed.

Lemma cache_push m c d t : cache_in m c -> cache_in m (SendDataCache.push_data d t c).
Proof.
  destruct m; cbn; intros H.
  - by apply SendDataCache.push_data_inv.
  - destruct H as (H1 & H2 & H3 & H4).
    pose proof (SendDataCache.push_quiet d t c (or_introl H1)) as Q.
    destruct Q as [Q1 Q2 Q3 Q4 Q5 Q6 Q7 Q8].
    rewrite Q1, Q2, Q3. split_and!; [done|done|done|by apply Q7].
  - destruct H as (H1 & H2 & H3).
    assert (Hd : SendDataCache.destroyed c = true) by (rewrite H2; exact H1).
    pose proof (SendDataCache.push_silent d t c Hd) as Q. split_and!; [done| |].
    + rewrite (SendDataCache.silent_state _ _ Q) at 1. rewrite H2 at 1. done.
    + by apply (SendDataCache.silent_count _ _ Q).
Qed.

Lemma registered_push c d (t : sent_handler) :
  SendDataCache.registered (SendDataCache.log (SendDataCache.push_data d t c)) =
  SendDataCache.registered (SendDataCache.log c) ++ [t].
Proof.
  unfold SendDataCache.push_data. cbn. destruct (SendDataCache.destroyed c).
  - cbn. rewrite !SendDataCache.registered_emit, app_nil_r. done.
  - destruct (SendDataCache.current_is_first c) eqn:E; unfold SendDataCache.async_send; cbn;
      rewrite ?E; cbn; destruct (_ || _); cbn;
      rewrite ?E, !SendDataCache.registered_emit, !app_nil_r; done.
Qed.

Lemma called_push c d (t : sent_handler) :
  SendDataCache.called (SendDataCache.log (SendDataCache.push_data d t c)) =
  SendDataCache.called (SendDataCache.log c) ++ (if SendDataCache.destroyed c then [t] else []).
Proof.
  unfold SendDataCache.push_data. cbn. destruct (SendDataCache.destroyed c).
  - cbn. rewrite !SendDataCache.called_emit, app_nil_r. done.
  - destruct (SendDataCache.current_is_first c) eqn:E; unfold SendDataCache.async_send; cbn;
      rewrite ?E; cbn; destruct (_ || _); cbn;
      rewrite ?E, !SendDataCache.called_emit, !app_nil_r; done.
Qed.

Lemma tok_push h c d t :
  tok h (SendDataCache.log (SendDataCache.push_data d t c)) =
  tok h (SendDataCache.log c) +
  (if SendDataCache.destroyed c then 0 else Zb (bool_decide (t = HInSent h))).
Proof.
  unfold tok. rewrite registered_push, called_push, !occ_app, occ_one.
  destruct (SendDataCache.destroyed c); [rewrite occ_one|change (occ h []) with 0]; lia.
Qed.

(** ** What the trace says of one session *)

Definition eff_this (e : effect) : option nat :=
  match e with
  | OutWritten h _ | InWritten h _ | UdpSent h _ _ | Connecting h _ _ | InData h _ | OutData h _
  | Destroyed h => Some h
  | _ => None
  end.

(** The chunks received from the client, the octets handed to the target. *)
Definition ins (h : nat) (tr : list effect) : list bytes :=
  flat_map (fun e => match e with InData t d => if (t =? h)%nat then [d] else [] | _ => [] end) tr.
Definition outs (h : nat) (tr : list effect) : bytes :=
  flat_map (fun e => match e with OutWritten t d => if (t =? h)%nat then d else [] | _ => [] end) tr.

Lemma ins_app h a b : ins h (a ++ b) = ins h a ++ ins h b.
Proof. apply flat_map_app. Qed.
Lemma outs_app h a b : outs h (a ++ b) = outs h a ++ outs h b.
Proof. apply flat_map_app. Qed.

Lemma flat_map_nil {A B} (f : A -> list B) l : (forall x, x ∈ l -> f x = []) -> flat_map f l = [].
Proof.
  induction l as [|x l IH]; intros H; cbn; [done|]. rewrite H by set_solver.
  apply IH. set_solver.
Qed.
Lemma ins_other h tr : (forall e, e ∈ tr -> eff_this e <> Some h) -> ins h tr = [].
Proof.
  intros H. apply flat_map_nil. intros e He. specialize (H e He).
  destruct e; try done. destruct (Nat.eqb_spec this h); [cbn in H; congruence|done].
Qed.
Lemma outs_other h tr : (forall e, e ∈ tr -> eff_this e <> Some h) -> outs h tr = [].
Proof.
  intros H. apply flat_map_nil. intros e He. specialize (H e He).
  destruct e; try done. destruct (Nat.eqb_spec this h); [cbn in H; congruence|done].
Qed.

Definition quiet_eff (e : effect) : bool :=
  match e with InData _ _ | OutWritten _ _ => false | _ => true end.
Lemma ins_quiet h tr : (forall e, e ∈ tr -> quiet_eff e = true) -> ins h tr = [].
Proof. intros H. apply flat_map_nil. intros e He. specialize (H e He). by destruct e. Qed.
Lemma outs_quiet h tr : (forall e, e ∈ tr -> quiet_eff e = true) -> outs h tr = [].
Proof. intros H. apply flat_map_nil. intros e He. specialize (H e He). by destruct e. Qed.

Lemma find_session_Some o sid l h :
  find_session o sid l = Some h ->
  h ∈ l /\ exists s, o !! h = Some s /\ m_session_id (pipeline_com s) = sid.
Proof.
  induction l as [|h' l IH]; cbn; [done|]. destruct (o !! h') as [s|] eqn:E.
  - destruct (Z.eqb_spec (m_session_id (pipeline_com s)) sid).
    + intros [= <-]. split; [set_solver|eauto].
    + intros [H1 H2]%IH. split; [set_solver|done].
  - intros [H1 H2]%IH. split; [set_solver|done].
Qed.

Section Proofs.
Context (cfg : Config) (auth : option (bytes -> bool)).
Context (make_address : bytes -> option address) (alpn_selected : nat -> option bytes).
Context (system_ec remote_ec cancel_ec : nat -> error_code).
Context (depth : nat).

(** The request in a first chunk, when its password is accepted. *)
Definition accepted (d : bytes) : option TrojanRequest.TrojanRequest :=
  match TrojanRequest.parse d with
  | Ret (n, Some req) =>
    if n =? -1 then None else
    match map_find (TrojanRequest.password req) (Session.password cfg) with
    | Some _ => Some req
    | None => match auth with
              | Some ok => if ok (TrojanRequest.password req) then Some req else None
              | None => None
              end
    end
  | _ => None
  end.

(** What the target has to receive: the request's payload, or everything when
    there is no acceptable request, then all that follows. *)
Definition relayed (chunks : list bytes) : bytes :=
  match chunks with
  | [] => []
  | d :: rest =>
    (match accepted d with Some req => TrojanRequest.payload req | None => d end) ++ concat rest
  end.

Lemma relayed_snoc chunks d : chunks <> [] -> relayed (chunks ++ [d]) = relayed chunks ++ d.
Proof.
  destruct chunks as [|c cs]; [done|]. intros _. cbn. rewrite concat_app. cbn.
  by rewrite app_nil_r, app_assoc.
Qed.

(** Relay of session [h], when [q] is received but not handed over yet. *)
Definition relay (q : bytes) (tr : list effect) (h : nat) (s : ServerSession) : Prop :=
  match status s with
  | HANDSHAKE =>
    outs h tr = [] /\
    if has_queried_out s then ins h tr <> [] /\ out_write_buf s ++ q = relayed (ins h tr)
    else out_write_buf s = [] /\ ((ins h tr = [] /\ q = []) \/ ins h tr = [q])
  | FORWARD => ins h tr <> [] /\ outs h tr ++ q = relayed (ins h tr)
  | UDP_FORWARD => outs h tr = []
  | DESTROY => outs h tr `prefix_of` relayed (ins h tr)
  end.

Definition queue (s : ServerSession) : bytes :=
  ReadDataCache.data_queue (pipeline_data_cache (pipeline_com s)).
Definition waits (s : ServerSession) : bool :=
  ReadDataCache.is_waiting (pipeline_data_cache (pipeline_com s)).
Definition piped (s : ServerSession) : bool := m_is_use_pipeline (pipeline_com s).

(** The chain from the target to the client. *)
Definition down (l : list op) (lg : list SendDataCache.event) (h : nat) (s : ServerSession) : Z :=
  cntp (is_outr h) l + cntp (is_udpr h) l + cntp (is_inw h) l + tok h lg +
  Zb (pipeline_wait_for_ack (pipeline_com s)).

Record ok (l : list op) (lg : list SendDataCache.event) (h : nat) (s : ServerSession) : Prop := {
  ok_in : cntp (is_in h) l = Zb (read_buf_guard (in_read_buf s));
  ok_out : cntp (is_outr h) l = Zb (read_buf_guard (out_read_buf s));
  ok_udp : cntp (is_udpr h) l = Zb (read_buf_guard (udp_read_buf s));
  ok_in_buf : read_buf_guard (in_read_buf s) = true -> read_buf (in_read_buf s) = [];
  ok_out_buf : read_buf_guard (out_read_buf s) = true -> read_buf (out_read_buf s) = [];
  ok_udp_buf : read_buf_guard (udp_read_buf s) = true -> read_buf (udp_read_buf s) = [];
  ok_up : piped s = false -> cntp (is_up h) l <= 1;
  ok_down : down l lg h s <= 1;
  ok_hs : status s = HANDSHAKE -> down l lg h s = 0 /\ udp_open s = false;
  ok_conn : cntp (is_conn h) l <= 1;
  ok_conn_hs : status s = HANDSHAKE -> has_queried_out s = false -> cntp (is_conn h) l = 0;
  ok_conn_fwd : status s = FORWARD \/ status s = UDP_FORWARD -> cntp (is_conn h) l = 0;
  ok_udpres : status s = HANDSHAKE \/ status s = FORWARD -> cntp (is_udpres h) l = 0;
  ok_udp_closed : status s = UDP_FORWARD -> udp_open s = false -> down l lg h s = 0;
  ok_wait : pipeline_wait_for_ack (pipeline_com s) = true -> piped s = true;
  ok_direct : piped s = false -> queue s = [];
  ok_in_direct : piped s = true -> cntp (is_in h) l = 0;
  ok_waits : waits s = true -> queue s = []
}.

(** During a handler one session may be in between: a chunk of it is in the
    hands of [in_recv], or has just left them, or the session is known to relay
    UDP or to be destroyed. *)
Inductive hold := NoHold | Held (h : nat) (q : bytes) | Given (h : nat) | Late (h : nat).

Definition late (s : ServerSession) : Prop := status s = UDP_FORWARD \/ status s = DESTROY.

Definition relay_rest (tr : list effect) (h : nat) (s : ServerSession) : Prop :=
  relay (queue s) tr h s /\
  (status s = HANDSHAKE -> has_queried_out s = false ->
     ins h tr = [] /\ (piped s = true -> waits s = true)).

Definition relay_ok (x : hold) (tr : list effect) (h : nat) (s : ServerSession) : Prop :=
  match x with
  | NoHold => relay_rest tr h s
  | Held h' q => if (h' =? h)%nat then relay q tr h s else relay_rest tr h s
  | Given h' => if (h' =? h)%nat
      then relay [] tr h s /\ (status s = HANDSHAKE -> has_queried_out s = true)
      else relay_rest tr h s
  | Late h' => if (h' =? h)%nat then relay [] tr h s /\ late s else relay_rest tr h s
  end.

Definition log_of (w : world) : list SendDataCache.event :=
  SendDataCache.log (sending_data_cache (pipe w)).

(** [k] operations of the pipeline session's own reading are in progress. *)
Record I (x : hold) (m : mode) (k : Z) (w : world) : Prop := {
  I_ok : forall h s, objs w !! h = Some s -> ok (pending w) (log_of w) h s;
  I_relay : forall h s, objs w !! h = Some s -> relay_ok x (trace w) h s;
  I_ops : forall o h, o ∈ pending w -> op_this o = Some h -> is_Some (objs w !! h);
  I_effs : forall e h, e ∈ trace w -> eff_this e = Some h -> is_Some (objs w !! h);
  I_handlers : forall t h, t ∈ SendDataCache.registered (log_of w) -> handler_this t = Some h ->
    exists s, objs w !! h = Some s /\ piped s = true;
  I_sessions : forall h, h ∈ sessions (pipe w) -> exists s, objs w !! h = Some s /\ piped s = true;
  I_bufs : forall o b, o ∈ pending w -> op_buf o = Some b -> b ∈ allocated (alloc w);
  I_alloc : forall b, b ∈ free_bufs (alloc w) -> b ∈ allocated (alloc w);
  I_cache : cache_in m (sending_data_cache (pipe w));
  I_ptok : cntp is_ptok (pending w) = k;
  I_pread : cntp is_pread (pending w) = Zb (read_buf_guard (p_in_read_buf (pipe w)))
}.

(** ** Local steps

    A world in which session [h] is [s], the operations in progress are [l],
    [effs] were added to the trace, and the allocator is [a]. *)
Definition loc (w : world) (h : nat) (s : ServerSession) (l : list op) (effs : list effect)
    (a : SendingDataAllocator) (c : nat) : world :=
  mkWorld (<[h := s]> (objs w)) (pipe w) (pipe_alive w) a l (trace w ++ effs) (now w) c.

Lemma loc_intro w h s :
  objs w !! h = Some s -> w = loc w h s (pending w) [] (alloc w) (calls w).
Proof.
  intros H. unfold loc. rewrite insert_id by done. rewrite app_nil_r. by destruct w.
Qed.

Lemma wp_loc_intro {A} (m : HM A) Q w h s :
  objs w !! h = Some s -> wp m Q (loc w h s (pending w) [] (alloc w) (calls w)) -> wp m Q w.
Proof. intros Hs. by rewrite <- (loc_intro w h s Hs). Qed.

Lemma loc_delete w h s i :
  objs w !! h = Some s ->
  w <| pending ::= delete i |> = loc w h s (delete i (pending w)) [] (alloc w) (calls w).
Proof.
  intros H. unfold loc. rewrite insert_id by done. rewrite app_nil_r. by destruct w.
Qed.

(** The operations of the other sessions are those of [w]; lent buffers are
    known to the allocator. *)
Record local (w : world) (h : nat) (l : list op) (a : SendingDataAllocator) : Prop := {
  lo_cnt : forall f, (forall o, op_this o = Some h -> f o = false) -> cntp f l = cntp f (pending w);
  lo_mem : forall o, o ∈ l -> o ∈ pending w \/ op_this o = Some h;
  lo_alloc : forall b, b ∈ free_bufs a -> b ∈ allocated a;
  lo_bufs : forall o b, o ∈ l -> op_buf o = Some b -> b ∈ allocated a
}.

Lemma local_refl x m k w h : I x m k w -> local w h (pending w) (alloc w).
Proof. intros HI. split; [done|auto|apply HI|apply HI]. Qed.

Lemma local_delete x m k w h i o :
  I x m k w -> pending w !! i = Some o -> op_this o = Some h ->
  local w h (delete i (pending w)) (alloc w).
Proof.
  intros HI Hi Ho.
  assert (Hsub : forall o', o' ∈ delete i (pending w) -> o' ∈ pending w).
  { intros o'. rewrite delete_take_drop. intros [H|H]%elem_of_app.
    - by apply elem_of_take in H as (? & ? & _); apply list_elem_of_lookup; eauto.
    - apply list_elem_of_lookup in H as [j H]. rewrite lookup_drop in H.
      apply list_elem_of_lookup. eauto. }
  split.
  - intros f Hf. rewrite (cntp_delete f _ _ _ Hi), (Hf o Ho). cbn. lia.
  - auto.
  - apply HI.
  - intros o' b Ho'. apply (I_bufs _ _ _ _ HI). auto.
Qed.

Lemma local_snoc w h l a o :
  local w h l a -> op_this o = Some h -> (forall b, op_buf o = Some b -> b ∈ allocated a) ->
  local w h (l ++ [o]) a.
Proof.
  intros [H1 H2 H3 H4] Ho Hb. split; [|set_solver|done|].
  - intros f Hf. rewrite cntp_app, cntp_one, (Hf o Ho), H1 by done. cbn. lia.
  - intros o' b [H|H]%elem_of_app Hb'; [eauto|].
    apply list_elem_of_singleton in H as ->. auto.
Qed.

Lemma allocate_allocated a data b a' :
  (forall b, b ∈ free_bufs a -> b ∈ allocated a) -> allocate a data = (b, a') ->
  (forall c, c ∈ allocated a -> c ∈ allocated a') /\ b ∈ allocated a' /\
  (forall c, c ∈ free_bufs a' -> c ∈ allocated a').
Proof.
  intros Hf E. unfold allocate in E. destruct (free_bufs a) as [|f rest] eqn:Ef;
    cbn in E; injection E as <- <-; cbn; rewrite ?Ef; set_solver.
Qed.

Lemma local_allocate w h l a data b a' :
  local w h l a -> allocate a data = (b, a') -> local w h l a' /\ b ∈ allocated a'.
Proof.
  intros [H1 H2 H3 H4] E. destruct (allocate_allocated _ _ _ _ H3 E) as (A1 & A2 & A3).
  split; [|done]. split; [done|done|done|]. eauto.
Qed.

Lemma local_free w h l a b :
  local w h l a -> b ∈ allocated a -> exists a', free a b = Ret a' /\ local w h l a'.
Proof.
  intros [H1 H2 H3 H4] Hb. unfold free. rewrite bool_decide_true by done. cbn.
  eexists. split; [done|]. split; cbn; [done|done|set_solver|done].
Qed.

Definition near (x : hold) (h : nat) : Prop :=
  match x with Held h' _ | Given h' | Late h' => h' = h | NoHold => True end.

Lemma relay_quiet q tr effs h s :
  (forall e, e ∈ effs -> quiet_eff e = true) -> relay q tr h s -> relay q (tr ++ effs) h s.
Proof.
  intros He. unfold relay. rewrite ins_app, outs_app, (ins_quiet h effs), (outs_quiet h effs), !app_nil_r by done.
  done.
Qed.

Lemma relay_ok_quiet x tr effs h s :
  (forall e, e ∈ effs -> quiet_eff e = true) -> relay_ok x tr h s -> relay_ok x (tr ++ effs) h s.
Proof.
  intros He. unfold relay_ok, relay_rest. rewrite ins_app, (ins_quiet h effs), app_nil_r by done.
  destruct x; try destruct (_ =? _)%nat; intuition auto using relay_quiet.
Qed.

Lemma relay_ok_far x h h' tr s : near x h -> h' <> h -> relay_ok x tr h' s = relay_rest tr h' s.
Proof.
  intros Hx Hne. destruct x as [|h1 q|h1|h1]; cbn in *; subst;
    rewrite ?(proj2 (Nat.eqb_neq h h')) by done; done.
Qed.

Lemma relay_ok_late x h tr s :
  near x h -> late s -> outs h tr `prefix_of` relayed (ins h tr) ->
  (status s = UDP_FORWARD -> outs h tr = []) -> relay_ok x tr h s.
Proof.
  intros Hx Hl Hp Hu.
  assert (Hr : forall q, relay q tr h s) by (intros q; unfold relay; destruct Hl as [E|E]; rewrite E; auto).
  destruct x; cbn in *; subst; rewrite ?Nat.eqb_refl; auto;
    (split; [auto|]; destruct Hl; congruence).
Qed.

Lemma relay_ok_prefix x h tr s :
  near x h -> relay_ok x tr h s -> outs h tr `prefix_of` relayed (ins h tr).
Proof.
  intros Hx H. assert (exists q, relay q tr h s) as [q Hr].
  { destruct x; cbn in *; subst; rewrite ?Nat.eqb_refl in H; [destruct H| |destruct H..]; eauto. }
  unfold relay in Hr. destruct (status s).
  - destruct Hr as [-> _]. apply prefix_nil.
  - destruct Hr as [_ <-]. by apply prefix_app_r.
  - rewrite Hr. apply prefix_nil.
  - done.
Qed.

Lemma relay_ok_destroyed x h tr s s' :
  near x h -> relay_ok x tr h s -> status s' = DESTROY -> relay_ok x tr h s'.
Proof.
  intros Hx H E. apply relay_ok_late; [done|by right|by eapply relay_ok_prefix|congruence].
Qed.

Lemma ok_other l l' lg h s :
  (forall f, (forall o, op_this o <> Some h -> f o = false) -> cntp f l' = cntp f l) ->
  ok l lg h s -> ok l' lg h s.
Proof.
  intros Hc [].
  assert (E : forall f, f = is_in h \/ f = is_outr h \/ f = is_udpr h \/ f = is_inw h \/
    f = is_conn h \/ f = is_up h \/ f = is_udpres h -> cntp f l' = cntp f l).
  { intros f Hf. apply Hc. intros o Ho.
    naive_solver (destruct o; try done; cbn in *; apply Nat.eqb_neq; congruence). }
  assert (Ed : down l' lg h s = down l lg h s).
  { unfold down. rewrite !E by tauto. done. }
  split; rewrite ?Ed, ?E by tauto; auto.
Qed.

Lemma relay_ok_other x x' tr effs h h' s :
  near x h -> near x' h -> h' <> h ->
  (forall e, e ∈ effs -> eff_this e = Some h \/ eff_this e = None) ->
  relay_ok x tr h' s -> relay_ok x' (tr ++ effs) h' s.
Proof.
  intros Hx Hx' Hne He H.
  assert (Ei : ins h' effs = []) by (apply ins_other; intros e Hin; destruct (He e Hin); congruence).
  assert (Eo : outs h' effs = []) by (apply outs_other; intros e Hin; destruct (He e Hin); congruence).
  rewrite (relay_ok_far x h) in H by done. rewrite (relay_ok_far x' h) by done.
  unfold relay_rest, relay in *. by rewrite ins_app, outs_app, Ei, Eo, !app_nil_r.
Qed.

Lemma I_local x x' m k w h s s' l effs a c :
  I x m k w -> objs w !! h = Some s -> near x h -> near x' h -> local w h l a ->
  (forall b, b ∈ allocated (alloc w) -> b ∈ allocated a) ->
  (forall e, e ∈ effs -> eff_this e = Some h \/ eff_this e = None) ->
  piped s' = piped s ->
  ok l (log_of w) h s' -> relay_ok x' (trace w ++ effs) h s' ->
  I x' m k (loc w h s' l effs a c).
Proof.
  intros HI Hs Hx Hx' [L1 L2 L3 L4] Ha He Hp Hok Hr. destruct HI.
  assert (Hdom : forall h', is_Some (objs w !! h') -> is_Some (<[h:=s']> (objs w) !! h')).
  { intros h' Hh'. rewrite lookup_insert. case_decide; eauto. }
  assert (Hpip : forall h', (exists s, objs w !! h' = Some s /\ piped s = true) ->
    exists s, <[h:=s']> (objs w) !! h' = Some s /\ piped s = true).
  { intros h' (s1 & H1 & H2). rewrite lookup_insert. case_decide; [|eauto]. subst.
    exists s'. split; [done|]. congruence. }
  split; cbn [objs pending trace pipe alloc loc].
  - intros h' s1. rewrite lookup_insert. case_decide.
    + intros [= <-]. by subst.
    + intros H1. apply ok_other with (pending w); [|by apply I_ok0].
      intros f Hf. apply L1. intros o Ho. apply Hf. congruence.
  - intros h' s1. rewrite lookup_insert. case_decide.
    + intros [= <-]. by subst.
    + intros H1. eapply relay_ok_other; [exact Hx|exact Hx'|done|done|by apply I_relay0].
  - intros o h' Hin Ho. apply Hdom. destruct (L2 o Hin) as [Hold|Hnew]; [eauto|].
    assert (h' = h) as -> by congruence. eauto.
  - intros e h' [Hin|Hin]%elem_of_app Hh'; apply Hdom; [eauto|].
    destruct (He e Hin); [|congruence]. assert (h' = h) as -> by congruence. eauto.
  - intros t h' Ht Hh'. eapply Hpip, I_handlers0; eauto.
  - intros h' Hh'. by apply Hpip, I_sessions0.
  - intros o b Hin Hb. eauto.
  - auto.
  - done.
  - rewrite L1; [done|]. by intros [].
  - rewrite L1; [done|]. by intros [].
Qed.

(** *** Symbolic execution of local steps *)

Section LocRules.
Context (w : world) (h : nat) (s : ServerSession) (l : list op) (effs : list effect).
Context (a : SendingDataAllocator) (c : nat).

Lemma wp_loc_getS Q : Q s (loc w h s l effs a c) -> wp (getS h) Q (loc w h s l effs a c).
Proof. unfold wp, getS, loc. cbn. by rewrite lookup_insert_eq. Qed.
Lemma wp_loc_modS f Q :
  Q tt (loc w h (f s) l effs a c) -> wp (modS h f) Q (loc w h s l effs a c).
Proof.
  intros HQ. unfold wp, modS, modify, loc, update in *. cbn -[alter insert].
  by rewrite alter_insert_eq.
Qed.
Lemma wp_loc_modCom f Q :
  Q tt (loc w h (s <| pipeline_com ::= f |>) l effs a c) ->
  wp (modCom h f) Q (loc w h s l effs a c).
Proof. apply (wp_loc_modS (fun s => s <| pipeline_com ::= f |>)). Qed.
Lemma wp_loc_start_op o Q :
  Q tt (loc w h s (l ++ [o]) effs a c) -> wp (start_op o) Q (loc w h s l effs a c).
Proof. done. Qed.
Lemma wp_loc_emit e Q :
  Q tt (loc w h s l (effs ++ [e]) a c) -> wp (emit e) Q (loc w h s l effs a c).
Proof. intros HQ. unfold wp, emit, modify, loc in *. cbn. by rewrite app_assoc in HQ. Qed.
Lemma wp_loc_ask answers Q :
  Q (answers c) (loc w h s l effs a (S c)) -> wp (ask answers) Q (loc w h s l effs a c).
Proof. done. Qed.
Lemma wp_loc_allocate data Q :
  (forall b a', allocate a data = (b, a') -> Q b (loc w h s l effs a' c)) ->
  wp (allocate_buf data) Q (loc w h s l effs a c).
Proof.
  intros HQ. unfold wp, allocate_buf. cbn. destruct (allocate a data) as [b a'] eqn:E.
  by apply HQ.
Qed.
Lemma wp_loc_free b a' Q :
  free a b = Ret a' -> Q tt (loc w h s l effs a' c) -> wp (free_buf b) Q (loc w h s l effs a c).
Proof. intros E HQ. unfold wp, free_buf. cbn. by rewrite E. Qed.
Lemma wp_loc_using Q :
  Q (piped s) (loc w h s l effs a c) -> wp (ss_using_pipeline h) Q (loc w h s l effs a c).
Proof. intros HQ. unfold ss_using_pipeline. by apply wp_bind, wp_loc_getS. Qed.
Lemma wp_loc_has Q :
  Q (piped s && (pipeline_session s && pipe_alive w)) (loc w h s l effs a c) ->
  wp (ss_has_pipeline h) Q (loc w h s l effs a c).
Proof. intros HQ. unfold ss_has_pipeline. by apply wp_bind, wp_loc_getS. Qed.
Lemma wp_loc_session_id Q :
  Q (m_session_id (pipeline_com s)) (loc w h s l effs a c) ->
  wp (ss_session_id h) Q (loc w h s l effs a c).
Proof. intros HQ. unfold ss_session_id. by apply wp_bind, wp_loc_getS. Qed.
End LocRules.

(** A guarded read begins when none is in progress. *)
Lemma wp_loc_guarded_read w h s l effs a c b o Q :
  read_buf_guard (buf_of b s) = false ->
  Q tt (loc w h (set_buf b (mkReadBuf [] true) s) (l ++ [o]) effs a c) ->
  wp (guarded_read h b o) Q (loc w h s l effs a c).
Proof.
  intros Hg HQ. unfold guarded_read. apply wp_bind, wp_loc_getS, wp_bind.
  eapply wp_lift_ok; [by apply begin_read_ok|].
  apply wp_bind, wp_loc_modS, wp_loc_start_op.
  cbn. unfold rb_consume_all. cbn. by rewrite consume_all_nil.
Qed.

(** A read ends; its buffer was empty. *)
Lemma wp_loc_finish_read w h s l effs a c b ec data Q :
  read_buf (buf_of b s) = [] ->
  Q (if ec =? 0 then data else [])
    (loc w h (set_buf b (mkReadBuf (if ec =? 0 then data else []) false) s) l effs a c) ->
  wp (finish_read h b ec data) Q (loc w h s l effs a c).
Proof.
  intros Hb HQ. unfold finish_read. apply wp_bind, wp_loc_getS, wp_bind, wp_loc_modS, wp_ret.
  unfold end_read, rb_commit in *. cbn. destruct (ec =? 0); cbn; rewrite Hb; exact HQ.
Qed.

Lemma wp_getS h Q w :
  (forall s, objs w !! h = Some s -> Q s w) -> wp (getS h) Q w.
Proof. unfold wp, getS. destruct (objs w !! h); auto. Qed.

(** ** Destruction *)

Lemma wp_destroy_self x m k w h :
  I x m k w -> near x h ->
  wp (ss_destroy_self auth h) (fun b w' => I x m k w' /\ pipe w' = pipe w /\
    forall s, objs w' !! h = Some s -> status s = DESTROY) w.
Proof.
  intros HI Hx. unfold ss_destroy_self. apply wp_bind, wp_getS. intros s Hs.
  case_bool_decide as Hst.
  { apply wp_ret. split_and!; [done|done|]. intros s' Hs'. congruence. }
  apply (wp_loc_intro _ _ w h s Hs).
  apply wp_bind, wp_loc_modS, wp_bind, wp_loc_emit.
  set (rec := match auth with Some _ => _ | None => _ end).
  apply wp_bind, wp_mono with
    (P := fun _ w' => exists effs, w' = loc w h (s <| status := DESTROY |>) (pending w)
      ([] ++ [Destroyed h] ++ effs) (alloc w) (calls w) /\
      forall e, e ∈ effs -> eff_this e = None /\ quiet_eff e = true).
  { apply wp_when; intros _.
    - apply wp_loc_emit. eexists. rewrite <- app_assoc. split; [done|].
      intros e ->%list_elem_of_singleton. done.
    - exists []. split; [done|]. set_solver. }
  intros _ w' (effs & -> & He).
  apply wp_bind, wp_loc_modS, wp_bind, wp_loc_modS, wp_ret.
  split_and!; [|done|].
  2:{ intros s'. cbn. rewrite lookup_insert_eq. by intros [= <-]. }
  pose proof (I_ok _ _ _ _ HI h s Hs) as Hok. pose proof (I_relay _ _ _ _ HI h s Hs) as Hr.
  eapply I_local; [done|done|done|done|by eapply local_refl|done| |done| |].
  - intros e Hin. apply elem_of_app in Hin as [Hin|Hin]; [set_solver|].
    apply elem_of_app in Hin as [->%list_elem_of_singleton|Hin]; [by left|right; by apply He].
  - destruct Hok. split; try done; cbn; intros [|]; done.
  - apply relay_ok_destroyed with s; [done| |done]. apply relay_ok_quiet; [|done].
    intros e Hin. cbn in Hin. apply elem_of_cons in Hin as [->|Hin]; [done|by apply He].
Qed.

(** *** Changing what is held *)

Lemma I_change x x' m k w h :
  I x m k w -> near x h -> near x' h ->
  (forall s, objs w !! h = Some s -> relay_ok x' (trace w) h s) -> I x' m k w.
Proof.
  intros [] Hx Hx' Hr. split; try done.
  intros h' s Hs. destruct (decide (h' = h)) as [->|Hne]; [by apply Hr|].
  rewrite (relay_ok_far x' h) by done. rewrite <- (relay_ok_far x h) by done. by apply I_relay0.
Qed.

Lemma relay_late_udp q tr h s : relay q tr h s -> status s = UDP_FORWARD -> outs h tr = [].
Proof. unfold relay. intros H E. by rewrite E in H. Qed.

Lemma I_late x x' m k w h :
  I x m k w -> near x h -> near x' h ->
  (forall s, objs w !! h = Some s -> late s) -> I x' m k w.
Proof.
  intros HI Hx Hx' Hl. eapply I_change; [done|exact Hx|done|].
  intros s Hs. pose proof (I_relay _ _ _ _ HI h s Hs) as Hr.
  apply relay_ok_late; [done|auto|exact (relay_ok_prefix _ _ _ _ Hx Hr)|].
  intros Hu. destruct x; cbn in Hx, Hr; subst; rewrite ?Nat.eqb_refl in Hr;
    [destruct Hr as [Hr _]| |destruct Hr as [Hr _]..]; by eapply relay_late_udp.
Qed.

Lemma late_of m k w h : I (Late h) m k w -> forall s, objs w !! h = Some s -> late s.
Proof.
  intros HI s Hs. pose proof (I_relay _ _ _ _ HI h s Hs) as Hr. cbn in Hr.
  rewrite Nat.eqb_refl in Hr. apply Hr.
Qed.

Lemma wp_destroy_by_pipeline x m k w h :
  I x m k w -> near x h ->
  wp (ss_destroy_by_pipeline auth h) (fun _ w' => I x m k w' /\ pipe w' = pipe w) w.
Proof.
  intros HI Hx. unfold ss_destroy_by_pipeline. apply wp_bind.
  eapply wp_mono; [by eapply wp_destroy_self|]. intros b w' (H1 & H2 & _). by apply wp_skip.
Qed.

(** ** Pushing a handler *)

(** Session [h] may be given an [in_sent] to come: nothing else is on its way
    towards the client. *)
Definition may_send (l : list op) (lg : list SendDataCache.event) (h : nat) (s : ServerSession) : Prop :=
  down l lg h s = 0 /\ status s <> HANDSHAKE /\ (status s = UDP_FORWARD -> udp_open s = true).

Lemma ok_log l lg lg' h s :
  ok l lg h s -> tok h lg' = tok h lg -> ok l lg' h s.
Proof.
  intros [] E. assert (Ed : down l lg' h s = down l lg h s) by (unfold down; by rewrite E).
  split; rewrite ?Ed; auto.
Qed.

Lemma ok_log_send l lg lg' h s :
  ok l lg h s -> may_send l lg h s -> tok h lg' = tok h lg + 1 -> ok l lg' h s.
Proof.
  intros [] (Hd & Hh & Hu) E.
  assert (Ed : down l lg' h s = 1) by (unfold down in *; rewrite E; lia).
  split; rewrite ?Ed; auto; [lia|done|]. intros H1 H2. rewrite Hu in H2; done.
Qed.

Lemma cntp_pwrite f l : f OpPWrite = false -> cntp f (l ++ [OpPWrite]) = cntp f l.
Proof. intros E. rewrite cntp_app, cntp_one, E. cbn. lia. Qed.

Lemma ok_pwrite l lg h s : ok l lg h s -> ok (l ++ [OpPWrite]) lg h s.
Proof. apply ok_other. intros f Hf. apply cntp_pwrite, Hf. done. Qed.

(** The world after a change of the cache, a write of which may have begun. *)
Definition with_cache (w : world) (c' : @SendDataCache.cache sent_handler) (started : bool) : world :=
  w <| pipe ::= fun p => p <| sending_data_cache := c' |> |>
    <| pending ::= fun l => if started then l ++ [OpPWrite] else l |>.

Lemma I_cache_step x m m' k w c' b :
  I x m k w -> cache_in m' c' ->
  (forall t, t ∈ SendDataCache.registered (SendDataCache.log c') ->
     t ∈ SendDataCache.registered (log_of w) \/
     forall h, handler_this t = Some h -> exists s, objs w !! h = Some s /\ piped s = true) ->
  (forall h s, objs w !! h = Some s -> ok (pending w) (log_of w) h s ->
     ok (pending w) (SendDataCache.log c') h s) ->
  I x m' k (with_cache w c' b).
Proof.
  intros HI Hc Hreg Hok.
  assert (Hl : forall f, f OpPWrite = false ->
    cntp f (if b then pending w ++ [OpPWrite] else pending w) = cntp f (pending w)).
  { intros f Hf. destruct b; [by apply cntp_pwrite|done]. }
  assert (Hin : forall o, o ∈ (if b then pending w ++ [OpPWrite] else pending w) ->
    o ∈ pending w \/ o = OpPWrite) by (destruct b; set_solver).
  destruct HI. unfold with_cache. split; cbn.
  - intros h s Hs. specialize (Hok h s Hs (I_ok0 h s Hs)). unfold log_of. cbn.
    destruct b; [by apply ok_pwrite|done].
  - done.
  - intros o h Ho Hh. destruct (Hin o Ho) as [ | -> ]; [eauto|done].
  - done.
  - intros t h Ht Hh. destruct (Hreg t Ht) as [|Hnew]; eauto.
  - done.
  - intros o bf Ho Hb. destruct (Hin o Ho) as [ | -> ]; [eauto|done].
  - done.
  - done.
  - by rewrite Hl.
  - by rewrite Hl.
Qed.

Lemma put_cache_eq c c' w :
  put_cache c c' w =
  Ret (tt, with_cache w c' (negb (SendDataCache.is_async_sending c) && SendDataCache.is_async_sending c')).
Proof.
  unfold put_cache, with_cache, bind, modP, modify, when, start_op. cbn.
  destruct (_ && _); done.
Qed.

Lemma I_push x m k w d t b :
  I x m k w ->
  (forall h, handler_this t = Some h -> exists s, objs w !! h = Some s /\ piped s = true) ->
  (SendDataCache.destroyed (sending_data_cache (pipe w)) = false -> forall h s, t = HInSent h ->
     objs w !! h = Some s -> may_send (pending w) (log_of w) h s) ->
  I x m k (with_cache w (SendDataCache.push_data d t (sending_data_cache (pipe w))) b).
Proof.
  intros HI Ht Hsend. eapply I_cache_step; [done|apply cache_push, HI| |].
  - intros t'. rewrite registered_push. set_solver.
  - intros h s Hs Hok.
    destruct (SendDataCache.destroyed (sending_data_cache (pipe w))) eqn:E.
    { apply (ok_log _ _ _ _ _ Hok). rewrite tok_push, E. unfold log_of. lia. }
    destruct (decide (t = HInSent h)) as [->|Hne].
    + apply (ok_log_send _ _ _ _ _ Hok); [by eapply Hsend|].
      rewrite tok_push, E, bool_decide_true by done. done.
    + apply (ok_log _ _ _ _ _ Hok). rewrite tok_push, E, bool_decide_false by done.
      unfold log_of. cbn. lia.
Qed.

Definition data_fits (cmd : PipelineRequest.Command) (data : bytes) : Prop :=
  match cmd with
  | PipelineRequest.ICMP => zlen data < PipelineRequest.MAX_ICMP_LENGTH
  | PipelineRequest.DATA => zlen data < PipelineRequest.MAX_DATA_LENGTH
  | _ => True
  end.

Lemma wp_push x m k w call cmd sid data t n :
  I x m k w -> data_fits cmd data ->
  (forall h, handler_this t = Some h -> exists s, objs w !! h = Some s /\ piped s = true) ->
  (forall h s, t = HInSent h -> objs w !! h = Some s -> may_send (pending w) (log_of w) h s) ->
  (forall w', I x m k w' -> wp (call t) (fun _ w' => I x m k w') w') ->
  wp (ps_push call cmd sid data t n) (fun _ w' => I x m k w') w.
Proof.
  intros HI Hfit Ht Hsend Hcall. unfold ps_push. apply wp_bind, wp_gets. cbv zeta.
  destruct (SendDataCache.destroyed _) eqn:E.
  - apply wp_bind. unfold wp at 1. rewrite put_cache_eq. apply Hcall, I_push; [done|done|].
    congruence.
  - apply wp_bind. eapply wp_lift_ok; [by apply PipelineRequest.command_generate_eq|].
    unfold wp. rewrite put_cache_eq. apply I_push; [done|done|]. eauto.
Qed.

Lemma wp_find sid proc w (Q : bool -> world -> Prop) :
  (forall h s, h ∈ sessions (pipe w) -> objs w !! h = Some s ->
     m_session_id (pipeline_com s) = sid -> wp (proc h) (fun _ w' => Q true w') w) ->
  (find_session (objs w) sid (sessions (pipe w)) = None -> Q false w) ->
  wp (find_and_process_session sid proc) Q w.
Proof.
  intros H1 H2. unfold find_and_process_session. apply wp_bind, wp_gets. cbn.
  destruct (find_session _ _ _) as [h|] eqn:E; [|by apply wp_ret, H2].
  apply find_session_Some in E as (Hin & s & Hs & Hid).
  apply wp_bind. eapply wp_mono; [by eapply H1|]. intros ? w' HQ. by apply wp_ret.
Qed.

Lemma wp_in_send x m k w call cmd this data t n :
  I x m k w -> near x this -> data_fits cmd data ->
  (forall h, handler_this t = Some h -> exists s, objs w !! h = Some s /\ piped s = true) ->
  (forall h s, t = HInSent h -> objs w !! h = Some s -> may_send (pending w) (log_of w) h s) ->
  (forall w', I x m k w' -> wp (call t) (fun _ w' => I x m k w') w') ->
  wp (ps_in_send auth call cmd this data t n) (fun _ w' => I x m k w') w.
Proof.
  intros HI Hx Hfit Ht Hsend Hcall. unfold ps_in_send, ss_session_id.
  apply wp_bind, wp_bind, wp_getS. intros s Hs. apply wp_ret, wp_bind, wp_find.
  - intros h s' _ _ _. eapply wp_mono; [by eapply wp_push|]. intros ? w' HI'. by apply wp_skip.
  - intros _. eapply wp_mono; [by eapply wp_destroy_by_pipeline|]. by intros ? w' [HI' _].
Qed.

Lemma remove_one_incl h l y : y ∈ remove_one h l -> y ∈ l.
Proof. induction l as [|z l IH]; cbn; [done|]. destruct (_ =? _)%nat; set_solver. Qed.

Lemma I_erase x m k w h : I x m k w -> wp (ps_erase h) (fun _ w' => I x m k w') w.
Proof.
  intros []. apply wp_modify. split; cbn; try done.
  intros h' Hh'%remove_one_incl. eauto.
Qed.

Lemma wp_remove_session x m k w h :
  I x m k w -> near x h ->
  wp (ps_remove_session_after_destroy auth h) (fun _ w' => I x m k w') w.
Proof.
  intros HI Hx. unfold ps_remove_session_after_destroy. apply wp_bind, wp_gets, wp_when; [|done].
  intros _. unfold ss_session_id. apply wp_bind, wp_bind, wp_getS. intros s Hs.
  apply wp_ret, wp_bind, wp_find; [|intros _; by apply wp_skip].
  intros h' s' _ _ _. apply wp_bind. eapply wp_mono.
  - eapply wp_in_send; [done|done|done|done|done|]. intros w' HI'. by apply wp_skip.
  - intros ? w' HI'. eapply wp_mono; [exact (I_erase _ _ _ _ _ HI')|]. intros ? w2 HI2. by apply wp_skip.
Qed.

(** A destroyed session is out of whatever it was in. *)
Lemma wp_destroy_late x m k w h b :
  I x m k w -> near x h -> wp (ss_destroy auth h b) (fun _ w' => I (Late h) m k w') w.
Proof.
  intros HI Hx. unfold ss_destroy. apply wp_bind.
  eapply wp_mono; [by eapply wp_destroy_self|]. intros first w1 (HI1 & _ & Hd).
  assert (HL : I (Late h) m k w1).
  { eapply I_late; [done|exact Hx|done|]. intros s Hs. right. auto. }
  destruct first; [|by apply wp_skip].
  unfold ss_has_pipeline. apply wp_bind, wp_bind, wp_getS. intros s Hs.
  apply wp_bind, wp_gets, wp_ret, wp_when; [|done]. intros _. by apply wp_remove_session.
Qed.

Lemma wp_destroy x m k w h b :
  I x m k w -> near x h -> wp (ss_destroy auth h b) (fun _ w' => I x m k w') w.
Proof.
  intros HI Hx. eapply wp_mono; [by apply (wp_destroy_late x)|]. intros ? w' HI'.
  eapply I_late; [exact HI'|done|done|]. exact (late_of _ _ _ _ HI').
Qed.

Lemma wp_call_broken x m k w t :
  I x m k w -> (forall h, handler_this t = Some h -> near x h) ->
  wp (call_broken auth t) (fun _ w' => I x m k w') w.
Proof. intros HI Hx. destruct t; [apply wp_destroy; [done|by apply Hx]..|exact HI]. Qed.

(** ** Steps of a session *)

(** Cancelling a timer succeeds; the size of the UDP buffer is an [int]. *)
Hypothesis cancel_ok : forall n, cancel_ec n = 0.
Hypothesis recv_buf_int : udp_recv_buf cfg < 2147483648.
Hypothesis depth_enough : MAX_BUF_LENGTH + 1 < Z.of_nat depth.
Hypothesis password_some : Session.password cfg <> [].

Lemma ok_irrelevant l lg h s s' :
  ok l lg h s -> status s' = status s -> pipeline_com s' = pipeline_com s ->
  in_read_buf s' = in_read_buf s -> out_read_buf s' = out_read_buf s ->
  udp_read_buf s' = udp_read_buf s -> udp_open s' = udp_open s ->
  has_queried_out s' = has_queried_out s -> ok l lg h s'.
Proof.
  intros [] E1 E2 E3 E4 E5 E6 E7.
  split; unfold down, piped, waits, queue in *; rewrite ?E1, ?E2, ?E3, ?E4, ?E5, ?E6, ?E7; auto.
Qed.

Lemma cntp_timer l h n f :
  f (OpTimer h n) = false -> cntp f (l ++ [OpTimer h n]) = cntp f l.
Proof. intros E. rewrite cntp_app, cntp_one, E. cbn. lia. Qed.

(** The timer changes nothing the invariant reads. *)
Lemma wp_loc_timer w h s l effs a c timeout Q :
  (forall t l', (l' = l \/ exists n, l' = l ++ [OpTimer h n]) ->
     Q tt (loc w h (s <| gc_timer := t |>) l' effs a (S c))) ->
  wp (ss_udp_timer_async_wait cfg auth cancel_ec h timeout) Q (loc w h s l effs a c).
Proof.
  intros HQ. unfold ss_udp_timer_async_wait.
  apply wp_bind, wp_loc_getS, wp_bind, wp_gets, wp_bind, wp_loc_ask. cbn [now loc].
  rewrite cancel_ok. unfold UdpTimer.udp_timer_async_wait. cbn [negb Z.eqb].
  destruct (negb _).
  { apply wp_bind, wp_loc_modS, wp_skip. apply HQ. by left. }
  destruct (_ && _); [destruct (_ <? _)|]; apply wp_bind, wp_loc_modS;
    (apply wp_skip || apply wp_loc_start_op); apply HQ; eauto.
Qed.

Lemma relay_ok_same x tr h s s' :
  relay_ok x tr h s -> status s' = status s -> out_write_buf s' = out_write_buf s ->
  has_queried_out s' = has_queried_out s -> queue s' = queue s -> piped s' = piped s ->
  (waits s = true -> waits s' = true) -> relay_ok x tr h s'.
Proof.
  intros H E1 E2 E3 E4 E5 E6.
  unfold relay_ok, relay_rest, relay, late in *. rewrite E1, E2, E3, E4, E5.
  destruct x; try destruct (_ =? _)%nat; try exact H;
    (destruct H as [Hr Hq]; split; [exact Hr|]; intros H1 H2; destruct (Hq H1 H2); auto).
Qed.

Ltac cnt :=
  rewrite ?cntp_app, ?cntp_one, ?cntp_nil in *;
  cbn [is_in is_outr is_udpr is_inw is_conn is_up is_udpres] in *;
  rewrite ?Nat.eqb_refl in *; cbn [Zb] in *; rewrite ?Z.add_0_r in *; try lia.

Ltac effs_ok :=
  let e := fresh "e" in let Hin := fresh "Hin" in
  intros e Hin; cbn [app] in Hin;
  repeat (apply elem_of_cons in Hin as [->|Hin]; [cbn; auto; fail|]);
  exfalso; by apply not_elem_of_nil in Hin.

(** What reading towards the client leaves alone. *)
Record up_frame (h : nat) (w w' : world) : Prop := {
  uf_state : forall s, objs w !! h = Some s -> exists s', objs w' !! h = Some s' /\
    status s' = status s /\ out_write_buf s' = out_write_buf s /\ queue s' = queue s /\
    piped s' = piped s;
  uf_up : cntp (is_up h) (pending w') = cntp (is_up h) (pending w)
}.

Lemma pre_call_ack_same c c' b :
  pre_call_ack_func c = (c', b) ->
  m_is_use_pipeline c' = m_is_use_pipeline c /\
  pipeline_data_cache c' = pipeline_data_cache c /\ pipeline_wait_for_ack c' = negb b.
Proof.
  unfold pre_call_ack_func. destruct (negb _ && _); intros [= <- <-]; cbn; [done|].
  by destruct (pipeline_first_call_ack c).
Qed.

Lemma wp_out_async_read x m k w h s :
  I x m k w -> near x h -> objs w !! h = Some s -> status s <> HANDSHAKE ->
  (status s = UDP_FORWARD -> udp_open s = true) ->
  down (pending w) (log_of w) h s = Zb (pipeline_wait_for_ack (pipeline_com s)) ->
  wp (ss_out_async_read h) (fun _ w' => I x m k w' /\ up_frame h w w') w.
Proof.
  intros HI Hx Hs Hst Hu Hd. pose proof (I_ok _ _ _ _ HI h s Hs) as Hok.
  pose proof (I_relay _ _ _ _ HI h s Hs) as Hr.
  pose proof (cache_tok_nonneg _ _ h (I_cache _ _ _ _ HI)) as Ht.
  pose proof (cntp_nonneg (is_outr h) (pending w)). pose proof (cntp_nonneg (is_udpr h) (pending w)).
  pose proof (cntp_nonneg (is_inw h) (pending w)). unfold down in Hd. fold (log_of w) in Ht.
  assert (Hz : cntp (is_outr h) (pending w) = 0 /\ cntp (is_udpr h) (pending w) = 0 /\
    cntp (is_inw h) (pending w) = 0 /\ tok h (log_of w) = 0) by lia.
  destruct Hz as (Z1 & Z2 & Z3 & Z4).
  assert (Hg : read_buf_guard (out_read_buf s) = false).
  { pose proof (ok_out _ _ _ _ Hok) as Ho. rewrite Z1 in Ho. by destruct (read_buf_guard _). }
  (* the read begins in a session whose component is [com] *)
  assert (Hread : forall com, m_is_use_pipeline com = piped s ->
    pipeline_data_cache com = pipeline_data_cache (pipeline_com s) ->
    pipeline_wait_for_ack com = false ->
    wp (guarded_read h OutBuf (OpOutRead h)) (fun _ w' => I x m k w' /\ up_frame h w w')
      (loc w h (s <| pipeline_com := com |>) (pending w) [] (alloc w) (calls w))).
  { intros com E1 E2 E3. apply wp_loc_guarded_read; [done|]. cbn [set_buf]. cbv beta. split.
    - eapply I_local; [done|done|done|done| |done|effs_ok|exact E1| |].
      + apply local_snoc; [by eapply local_refl|done|done].
      + destruct Hok. split; unfold down, piped, waits, queue in *; cbn; rewrite ?E1, ?E2, ?E3; cnt;
          try done; try (intros; cnt; try done; auto; fail).
        intros Hc1 Hc2. rewrite Hu in Hc2; done.
      + rewrite app_nil_r. eapply relay_ok_same; [done|done|done|done|..];
          unfold queue, piped, waits in *; cbn; rewrite ?E1, ?E2; done.
    - split; [|cbn; cnt]. intros s0 Hs0. cbn. rewrite lookup_insert_eq.
      eexists. split; [done|]. unfold queue, piped. cbn. rewrite E1, E2.
      assert (s0 = s) as -> by congruence. done. }
  unfold ss_out_async_read. apply wp_bind, wp_getS. intros s0 Hs0.
  assert (s0 = s) as -> by congruence. clear Hs0.
  apply (wp_loc_intro _ _ w h s Hs).
  destruct (m_is_use_pipeline (pipeline_com s)) eqn:Ep.
  - destruct (pre_call_ack_func _) as [com permit] eqn:E.
    apply pre_call_ack_same in E as (E1 & E2 & E3). apply wp_bind, wp_loc_modS. destruct permit.
    + by apply Hread.
    + apply wp_skip. split.
      * eapply I_local; [done|done|done|done|by eapply local_refl|done|effs_ok|exact E1| |].
        -- destruct Hok. split; unfold down, piped, waits, queue in *; cbn; rewrite ?E1, ?E2, ?E3; cnt;
             try done; try (intros; cnt; try done; auto; fail); cbn [negb Zb]; [lia|].
           intros Hc1 Hc2. rewrite Hu in Hc2; done.
        -- rewrite app_nil_r. eapply relay_ok_same; [done|done|done|done|..];
             unfold queue, piped, waits in *; cbn; rewrite ?E1, ?E2; done.
      * split; [|done]. intros s0 Hs0. cbn. rewrite lookup_insert_eq.
        eexists. split; [done|]. unfold queue, piped. cbn. rewrite E1, E2.
        assert (s0 = s) as -> by congruence. done.
  - replace s with (s <| pipeline_com := pipeline_com s |>) at 1 by by destruct s.
    apply Hread; [done|done|]. destruct (pipeline_wait_for_ack _) eqn:Ew; [|done].
    pose proof (ok_wait _ _ _ _ Hok Ew). unfold piped in *; congruence.
Qed.

(** *** Writing *)

Lemma wp_in_async_write x m k w h s data :
  I x m k w -> near x h -> objs w !! h = Some s -> may_send (pending w) (log_of w) h s ->
  zlen data < PipelineRequest.MAX_DATA_LENGTH ->
  wp (ss_in_async_write auth h data) (fun _ w' => I x m k w') w.
Proof.
  intros HI Hx Hs Hsend Hlen. unfold ss_in_async_write.
  apply wp_bind, (wp_loc_intro _ _ w h s Hs), wp_loc_using.
  pose proof (I_ok _ _ _ _ HI h s Hs) as Hok. pose proof (I_relay _ _ _ _ HI h s Hs) as Hr.
  destruct (piped s) eqn:Ep.
  - apply wp_bind, wp_loc_has. rewrite <- (loc_intro w h s Hs).
    destruct (_ && _); [|by apply wp_destroy].
    apply wp_in_send; [done|done|done| | |].
    + intros h' [= <-]. eauto.
    + intros h' s' [= <-] Hs'. assert (s' = s) as -> by congruence. done.
    + intros w' HI'. apply wp_call_broken; [done|]. by intros h' [= <-].
  - apply wp_bind, wp_loc_allocate. intros b a Ea. apply wp_bind, wp_loc_emit, wp_loc_start_op.
    destruct (local_allocate w h _ _ _ _ _ (local_refl _ _ _ _ h HI) Ea) as [Hl Hb].
    destruct (allocate_allocated _ _ _ _ (I_alloc _ _ _ _ HI) Ea) as [Ha _].
    destruct Hsend as (Hd & Hns & Hu).
    eapply I_local; [done|done|done|done| |done|effs_ok|done| |].
    + apply local_snoc; [done|done|]. by intros ? [= <-].
    + unfold down in Hd. destruct Hok. split; unfold down in *; cnt; try done; try (intros; cnt; try done; auto; fail).
      intros Hc1 Hc2. rewrite Hu in Hc2; done.
    + apply relay_ok_quiet; [effs_ok|done].
Qed.

Lemma wp_out_async_write m k w h s data q n :
  I (Held h (data ++ q)) m k w -> objs w !! h = Some s -> status s = FORWARD ->
  (piped s = false -> cntp (is_up h) (pending w) = 0) ->
  wp (ss_out_async_write h data n) (fun _ w' => I (Held h q) m k w' /\
    exists s', objs w' !! h = Some s' /\ status s' = FORWARD /\ queue s' = queue s) w.
Proof.
  intros HI Hs Hst Hup. pose proof (I_ok _ _ _ _ HI h s Hs) as Hok.
  pose proof (I_relay _ _ _ _ HI h s Hs) as Hr. cbn in Hr. rewrite Nat.eqb_refl in Hr.
  unfold ss_out_async_write. apply wp_bind, (wp_loc_intro _ _ w h s Hs), wp_loc_has, wp_bind.
  (* the flag of the component is not read by the invariant *)
  assert (Hrest : forall com, m_is_use_pipeline com = piped s ->
    pipeline_data_cache com = pipeline_data_cache (pipeline_com s) ->
    pipeline_wait_for_ack com = pipeline_wait_for_ack (pipeline_com s) ->
    wp (b <- allocate_buf data ;; emit (OutWritten h data) ;;; start_op (OpOutWrite h b n))
      (fun _ w' => I (Held h q) m k w' /\
        exists s', objs w' !! h = Some s' /\ status s' = FORWARD /\ queue s' = queue s)
      (loc w h (s <| pipeline_com := com |>) (pending w) [] (alloc w) (calls w))).
  { intros com E1 E2 E3. apply wp_bind, wp_loc_allocate. intros b a Ea.
    apply wp_bind, wp_loc_emit, wp_loc_start_op.
    destruct (local_allocate w h _ _ _ _ _ (local_refl _ _ _ _ h HI) Ea) as [Hl Hb].
    destruct (allocate_allocated _ _ _ _ (I_alloc _ _ _ _ HI) Ea) as [Ha _]. split.
    - eapply I_local; [exact HI|done|done|done| |done|effs_ok|exact E1| |].
      + apply local_snoc; [done|done|]. by intros ? [= <-].
      + destruct Hok. split; unfold down, piped, waits, queue in *; cbn; rewrite ?E1, ?E2, ?E3; cnt;
          try done; try (intros; cnt; try done; auto; fail).
        intros Hc. rewrite (Hup Hc). lia.
      + cbn. rewrite Nat.eqb_refl. unfold relay in *. cbn. rewrite Hst in *.
        rewrite ins_app, outs_app. cbn. rewrite Nat.eqb_refl, !app_nil_r, <- app_assoc. done.
    - cbn. rewrite lookup_insert_eq. eexists. split; [done|]. cbn. split; [done|].
      unfold queue. cbn. by rewrite E2. }
  apply wp_when; intros _.
  - apply wp_loc_modCom. by apply Hrest.
  - specialize (Hrest (pipeline_com s) eq_refl eq_refl eq_refl).
    by replace (s <| pipeline_com := pipeline_com s |>) with s in Hrest by by destruct s.
Qed.

(** *** UDP *)

Lemma wp_timer x m k w h s timeout :
  I x m k w -> near x h -> objs w !! h = Some s ->
  wp (ss_udp_timer_async_wait cfg auth cancel_ec h timeout) (fun _ w' => I x m k w' /\
    (exists t, objs w' !! h = Some (s <| gc_timer := t |>)) /\ log_of w' = log_of w /\
    forall f, (forall n, f (OpTimer h n) = false) -> cntp f (pending w') = cntp f (pending w)) w.
Proof.
  intros HI Hx Hs. pose proof (I_ok _ _ _ _ HI h s Hs) as Hok.
  pose proof (I_relay _ _ _ _ HI h s Hs) as Hr.
  apply (wp_loc_intro _ _ w h s Hs), wp_loc_timer. intros t l' Hl'.
  assert (Hc : forall f, (forall n, f (OpTimer h n) = false) -> cntp f l' = cntp f (pending w)).
  { intros f Hf. destruct Hl' as [-> | [n ->]]; [done|]. by apply cntp_timer. }
  split_and!; [|cbn; rewrite lookup_insert_eq; eauto|done|done].
  eapply I_local; [done|done|done|done| |done|effs_ok|done| |].
  - destruct Hl' as [-> | [n ->]]; [by eapply local_refl|].
    apply local_snoc; [by eapply local_refl|done|done].
  - apply (ok_irrelevant _ _ _ s); try done.
    destruct Hok. split; unfold down in *; rewrite ?Hc by done; auto.
  - rewrite app_nil_r. by apply (relay_ok_same _ _ _ s).
Qed.

Lemma ok_closed_down l lg h s m c :
  ok l lg h s -> lg = SendDataCache.log c -> cache_in m c ->
  status s = UDP_FORWARD -> udp_open s = false ->
  down l lg h s = 0 /\ read_buf_guard (udp_read_buf s) = false /\ cntp (is_udpr h) l = 0.
Proof.
  intros Hok -> Hc Hst Hu. pose proof (ok_udp_closed _ _ _ _ Hok Hst Hu) as Hd.
  split; [done|]. unfold down in Hd. pose proof (cache_tok_nonneg _ _ h Hc).
  pose proof (cntp_nonneg (is_outr h) l). pose proof (cntp_nonneg (is_udpr h) l).
  pose proof (cntp_nonneg (is_inw h) l). pose proof (ok_udp _ _ _ _ Hok) as Hg.
  destruct (pipeline_wait_for_ack _); cbn in Hd; [lia|].
  assert (E : cntp (is_udpr h) l = 0) by lia. rewrite E in Hg. split; [|done].
  by destruct (read_buf_guard _).
Qed.

(** The socket opened, its first read begun. *)
Lemma wp_udp_open x m k w h s :
  I x m k w -> near x h -> objs w !! h = Some s -> status s = UDP_FORWARD -> udp_open s = false ->
  wp (ss_udp_open auth system_ec h) (fun b w' => I x m k w' /\ (b = true -> exists s',
    objs w' !! h = Some s' /\ status s' = UDP_FORWARD /\ udp_open s' = true /\ piped s' = piped s /\
    cntp (is_up h) (pending w') = cntp (is_up h) (pending w))) w.
Proof.
  intros HI Hx Hs Hst Hu. pose proof (I_ok _ _ _ _ HI h s Hs) as Hok.
  pose proof (I_relay _ _ _ _ HI h s Hs) as Hr.
  destruct (ok_closed_down _ _ _ _ _ _ Hok eq_refl (I_cache _ _ _ _ HI) Hst Hu) as (Hd & Hg & _).
  assert (Hfail : forall w1, I x m k w1 -> wp (ss_destroy auth h false ;;; ret false)
    (fun (b : bool) w' => I x m k w' /\ (b = true -> exists s',
    objs w' !! h = Some s' /\ status s' = UDP_FORWARD /\ udp_open s' = true /\ piped s' = piped s /\
    cntp (is_up h) (pending w') = cntp (is_up h) (pending w))) w1).
  { intros w1 H1. apply wp_bind. eapply wp_mono; [by apply wp_destroy|].
    intros ? w2 H2. by apply wp_ret. }
  unfold ss_udp_open. apply wp_bind, (wp_loc_intro _ _ w h s Hs), wp_loc_ask.
  destruct (negb _).
  { apply Hfail. eapply I_local; [done|done|done|done|by eapply local_refl|done|effs_ok|done|done|].
    by rewrite app_nil_r. }
  apply wp_bind, wp_loc_modS, wp_bind, wp_loc_ask. destruct (negb _).
  { apply Hfail. eapply I_local; [done|done|done|done|by eapply local_refl|done|effs_ok|done| |].
    - unfold down in Hd. destruct Hok. split; unfold down in *; cbn; try done; try congruence; auto.
    - rewrite app_nil_r. by apply (relay_ok_same _ _ _ s). }
  unfold ss_out_udp_async_read. apply wp_bind, wp_loc_guarded_read; [done|]. apply wp_ret. split.
  - eapply I_local; [done|done|done|done| |done|effs_ok|done| |].
    + apply local_snoc; [by eapply local_refl|done|done].
    + unfold down in Hd. destruct Hok. split; unfold down in *; cbn; cnt; try done; try congruence;
        try (intros; cnt; try done; auto; fail). cbn in Hg. rewrite Hg in *. cbn in *. lia.
    + rewrite app_nil_r. by apply (relay_ok_same _ _ _ s).
  - intros _. cbn. rewrite lookup_insert_eq. eexists. split; [done|]. cbn. split_and!; try done. cnt.
Qed.

Lemma wp_udp_forward x m k w h s packet n ep :
  I x m k w -> near x h -> objs w !! h = Some s -> status s = UDP_FORWARD ->
  (piped s = false -> cntp (is_up h) (pending w) = 0) ->
  wp (ss_udp_forward auth system_ec h packet n ep) (fun _ w' => I x m k w') w.
Proof.
  intros HI Hx Hs Hst Hup. unfold ss_udp_forward. apply wp_bind, wp_getS. intros s0 Hs0.
  assert (s0 = s) as -> by congruence. clear Hs0.
  apply wp_bind, wp_mono with (P := fun b w' => I x m k w' /\ (b = true -> exists s',
    objs w' !! h = Some s' /\ status s' = UDP_FORWARD /\ udp_open s' = true /\ piped s' = piped s /\
    cntp (is_up h) (pending w') = cntp (is_up h) (pending w))).
  { destruct (udp_open s) eqn:Eu; [|by apply wp_udp_open]. apply wp_ret. split; [done|].
    intros _. exists s. done. }
  intros [] w1 [HI1 H1]; [|by apply wp_skip].
  destruct (H1 eq_refl) as (s1 & Hs1 & Hst1 & Ho1 & Hp1 & Hup1). clear H1.
  pose proof (I_ok _ _ _ _ HI1 h s1 Hs1) as Hok. pose proof (I_relay _ _ _ _ HI1 h s1 Hs1) as Hr.
  apply wp_bind, (wp_loc_intro _ _ w1 h s1 Hs1), wp_loc_modS.
  unfold ss_out_udp_async_write. apply wp_bind, wp_bind, wp_loc_allocate. intros b a Ea.
  apply wp_bind, wp_loc_emit, wp_loc_start_op, wp_loc_modS.
  destruct (local_allocate w1 h _ _ _ _ _ (local_refl _ _ _ _ h HI1) Ea) as [Hl Hb].
  destruct (allocate_allocated _ _ _ _ (I_alloc _ _ _ _ HI1) Ea) as [Ha _].
  eapply I_local; [done|done|done|done| |done|effs_ok|done| |].
  - apply local_snoc; [done|done|]. by intros ? [= <-].
  - apply (ok_irrelevant _ _ _ s1); try done. destruct Hok.
    split; unfold down in *; cnt; try done; try (intros; cnt; try done; auto; fail).
    intros Hc. rewrite Hp1 in Hc. rewrite Hup1, Hup by done. lia.
  - apply relay_ok_quiet; [effs_ok|]. by apply (relay_ok_same _ _ _ s1).
Qed.

(** [in_async_read] and [out_udp_sent] call each other while the buffer of a
    partial packet grows, so [d] nested calls are enough when the buffer has
    passed its limit before they are used up. *)
Definition deep (d : Z) (h : nat) (w : world) : Prop :=
  forall s, objs w !! h = Some s -> MAX_BUF_LENGTH < zlen (udp_data_buf s) + d.

(** The session can read from the client again, by at most [d] nested calls. *)
Definition rd_ok (d : Z) (rd : HM unit) (h : nat) : Prop := forall m k w,
  I (Late h) m k w -> deep d h w -> 0 < d ->
  (forall s, objs w !! h = Some s -> piped s = false -> cntp (is_up h) (pending w) = 0) ->
  wp rd (fun _ w' => I (Late h) m k w') w.

Lemma wp_out_udp_sent_late d rd m k w h :
  rd_ok d rd h -> I (Late h) m k w -> deep d h w ->
  (forall s, objs w !! h = Some s -> piped s = false -> cntp (is_up h) (pending w) = 0) ->
  wp (ss_out_udp_sent_ cfg auth make_address system_ec cancel_ec rd h) (fun _ w' => I (Late h) m k w') w.
Proof.
  intros Hrd HI Hdeep Hup. unfold ss_out_udp_sent_. apply wp_bind, wp_getS. intros s Hs.
  destruct (bool_decide (status s = UDP_FORWARD)) eqn:Est; [|by apply wp_skip]. cbn [negb]. bool_facts.
  apply wp_bind. eapply wp_mono; [by apply (wp_timer (Late h) m k w h s)|].
  intros ? w1 (HI1 & (t & Hs1) & Hlg & Hc). apply wp_bind, wp_getS. intros s1 Hs1'.
  assert (s1 = s <| gc_timer := t |>) as -> by congruence. clear Hs1'.
  assert (Hup1 : piped s = false -> cntp (is_up h) (pending w1) = 0).
  { intros Hp. rewrite Hc by done. by apply (Hup s Hs). }
  assert (Hup1' : forall s', objs w1 !! h = Some s' -> piped s' = false -> cntp (is_up h) (pending w1) = 0).
  { intros s' Hs'. assert (s' = s <| gc_timer := t |>) as -> by congruence. done. }
  assert (Hdeep1 : deep d h w1).
  { intros s' Hs'. assert (s' = s <| gc_timer := t |>) as -> by congruence. exact (Hdeep s Hs). }
  pose proof (Hdeep s Hs) as Hd. change (udp_data_buf (s <| gc_timer := t |>)) with (udp_data_buf s).
  destruct (Z.eqb_spec (zlen (udp_data_buf s)) 0) as [E0|E0].
  { apply Hrd; try done. unfold MAX_BUF_LENGTH in Hd. lia. }
  apply wp_bind, wp_lift; [apply UDP_parse_nothrow|apply UDP_parse_octet03|]. intros parsed _.
  destruct parsed as [[packet n]|].
  - set (ep := make_udp_endpoint_safe _ _ _). cbv zeta.
    destruct ep as [ep|].
    + assert (H : wp (ss_udp_forward auth system_ec h packet n ep) (fun _ w' => I (Late h) m k w') w1).
      { by eapply wp_udp_forward. }
      by destruct (Socks5.address_type _).
    + destruct (Socks5.address_type _); try by apply wp_destroy.
      apply (wp_loc_intro _ _ w1 h _ Hs1), wp_loc_start_op.
      pose proof (I_ok _ _ _ _ HI1 h _ Hs1) as Hok. pose proof (I_relay _ _ _ _ HI1 h _ Hs1) as Hr.
      eapply I_local; [done|done|done|done| |done|effs_ok|done| |].
      * apply local_snoc; [by eapply local_refl|done|done].
      * destruct Hok. split; unfold down in *; cbn in *; cnt; try done; try (intros; cnt; try done; auto; fail).
        -- intros Hp. rewrite Hup1 by done. lia.
        -- intros [Hc1|Hc1]; congruence.
      * by rewrite app_nil_r.
  - destruct (Z.ltb_spec MAX_BUF_LENGTH (zlen (udp_data_buf s))); [by apply wp_destroy|].
    apply Hrd; try done. lia.
Qed.

(** *** The first chunk *)

Lemma wp_loc_check w h s l effs a c data Q :
  (forall pw, Q (accepted data) (loc w h (s <| auth_password := pw |>) l effs a c)) ->
  wp (ss_check_request cfg auth h data) Q (loc w h s l effs a c).
Proof.
  intros HQ. unfold ss_check_request. apply wp_bind, wp_lift; [apply Trojan_parse_nothrow|apply Trojan_parse_octet03|].
  intros [n r] E. cbn [fst snd].
  assert (HQ0 : Q (accepted data) (loc w h s l effs a c)).
  { specialize (HQ (auth_password s)).
    by replace (s <| auth_password := auth_password s |>) with s in HQ by by destruct s. }
  unfold accepted in *. rewrite E in *.
  destruct (Z.eqb_spec n (-1)); [apply wp_ret; by destruct r|].
  destruct r as [req|]; [|by apply TrojanRequest.parse_None in E].
  destruct (map_find _ _); [by apply wp_ret|].
  destruct auth as [ok0|]; [|by apply wp_ret]. destruct (ok0 _); [|by apply wp_ret].
  apply wp_bind, wp_loc_modS, wp_ret, HQ.
Qed.

(** The session begins to connect with [payload] to hand over. *)
Lemma wp_query_out m k w h s d payload addr port :
  I (Held h d) m k w -> objs w !! h = Some s -> status s = HANDSHAKE -> has_queried_out s = false ->
  ins h (trace w) = [d] -> relayed [d] = payload ->
  (piped s = false -> cntp (is_up h) (pending w) = 0) ->
  wp (ss_query_out h payload addr port) (fun _ w' => I (Given h) m k w' /\
    forall s', objs w' !! h = Some s' -> queue s' = queue s) w.
Proof.
  intros HI Hs Hst Hq Hins Hrel Hup. pose proof (I_ok _ _ _ _ HI h s Hs) as Hok.
  pose proof (I_relay _ _ _ _ HI h s Hs) as Hr. cbn in Hr. rewrite Nat.eqb_refl in Hr.
  unfold relay in Hr. rewrite Hst, Hq in Hr. destruct Hr as (Ho & Hb & _).
  unfold ss_query_out. apply wp_bind, (wp_loc_intro _ _ w h s Hs), wp_loc_modS.
  apply wp_bind, wp_loc_modS, wp_bind, wp_loc_modS, wp_bind, wp_loc_emit, wp_loc_start_op.
  split; [|intros s'; cbn; rewrite lookup_insert_eq; by intros [= <-]].
  eapply I_local; [exact HI|done|done|done| |done|effs_ok|done| |].
  - apply local_snoc; [by eapply local_refl|done|done].
  - pose proof (ok_conn_hs _ _ _ _ Hok Hst Hq) as Hconn.
    destruct Hok. split; unfold down in *; cbn in *; cnt; try done; try (intros; cnt; try done; auto; fail).
    + intros Hp. unfold piped in Hup. rewrite (Hup Hp). lia.
    + intros [Hc|Hc]; congruence.
  - cbn. rewrite Nat.eqb_refl. unfold relay. cbn. rewrite Hst.
    rewrite ins_app, outs_app. cbn. rewrite !app_nil_r, Hins, Ho, Hb, append_view_eq. cbn.
    split; [|done]. split; [done|]. split; [done|]. rewrite <- Hrel. cbn. by rewrite app_nil_r.
Qed.

Lemma wp_udp_associate dp rd m k w h s d req :
  rd_ok dp rd h -> MAX_BUF_LENGTH < dp -> I (Held h d) m k w -> objs w !! h = Some s -> status s = HANDSHAKE ->
  has_queried_out s = false -> (piped s = false -> cntp (is_up h) (pending w) = 0) ->
  wp (ss_udp_associate cfg auth make_address system_ec cancel_ec rd h req)
    (fun _ w' => I (Late h) m k w') w.
Proof.
  intros Hrd Hdp HI Hs Hst Hq Hup. unfold ss_udp_associate.
  (* the flag and the timer *)
  apply wp_bind, (wp_loc_intro _ _ w h s Hs), wp_loc_modS.
  set (s1 := s <| gc_timer ::= _ |>). set (w1 := loc w h s1 _ _ _ _).
  assert (HI1 : I (Held h d) m k w1).
  { eapply I_local; [exact HI|done|done|done|by eapply local_refl|done|effs_ok|done| |].
    - apply (ok_irrelevant _ _ _ s); try done. by apply HI.
    - rewrite app_nil_r. apply (relay_ok_same _ _ _ s); [by apply HI|done..]. }
  assert (Hs1 : objs w1 !! h = Some s1) by (cbn; by rewrite lookup_insert_eq).
  apply wp_bind. eapply wp_mono; [by apply (wp_timer (Held h d) m k w1 h s1)|].
  intros ? w2 (HI2 & (t & Hs2) & Hlg & Hc). cbv zeta.
  assert (Hup2 : piped s = false -> cntp (is_up h) (pending w2) = 0).
  { intros Hp. rewrite Hc by done. by apply Hup. }
  pose proof (I_ok _ _ _ _ HI2 h _ Hs2) as Hok. pose proof (I_relay _ _ _ _ HI2 h _ Hs2) as Hr.
  destruct (make_udp_endpoint_safe _ _ _) as [ep|].
  - apply wp_bind, (wp_loc_intro _ _ w2 h _ Hs2), wp_loc_modS, wp_bind, wp_loc_modS.
    apply wp_bind, wp_loc_modS. set (w3 := loc _ _ _ _ _ _ _).
    assert (HI3 : I (Late h) m k w3).
    { eapply I_local; [exact HI2|done|done|done|by eapply local_refl|done|effs_ok|done| |].
      - pose proof (ok_hs _ _ _ _ Hok Hst) as [Hd Hu].
        pose proof (ok_conn_hs _ _ _ _ Hok Hst Hq) as Hconn.
        destruct Hok. split; unfold down in *; cbn in *; try done; try (intros; congruence). by intros [|].
      - rewrite app_nil_r. cbn in Hr |- *. rewrite Nat.eqb_refl in Hr |- *.
        unfold relay in *. cbn in Hr |- *. rewrite Hst in Hr. destruct Hr as [Ho _].
        split; [done|]. by left. }
    apply (wp_out_udp_sent_late dp rd m k w3 h Hrd HI3); [intros s' _; zlen_lia|].
    intros s' Hs'. cbn in Hs'. rewrite lookup_insert_eq in Hs'. by injection Hs' as <-.
  - apply wp_bind, (wp_loc_intro _ _ w2 h _ Hs2), wp_loc_modS.
    apply (wp_destroy_late (Held h d) m k); [|done].
    eapply I_local; [exact HI2|done|done|done|by eapply local_refl|done|effs_ok|done| |].
    + by apply (ok_irrelevant _ _ _ _ _ Hok).
    + rewrite app_nil_r. by apply (relay_ok_same _ _ _ _ _ Hr).
Qed.

(** *** Receiving from the client *)

Lemma I_same x m k w h s s' c :
  I x m k w -> near x h -> objs w !! h = Some s ->
  ok (pending w) (log_of w) h s' -> piped s' = piped s -> relay_ok x (trace w) h s' ->
  I x m k (loc w h s' (pending w) [] (alloc w) c).
Proof.
  intros HI Hx Hs Hok Hp Hr.
  eapply I_local; [done|done|done|done|by eapply local_refl|done|effs_ok|done|done|].
  by rewrite app_nil_r.
Qed.

Lemma wp_in_recv_late d rd m k w h data n :
  rd_ok d rd h -> I (Late h) m k w -> deep (zlen data + d) h w ->
  (forall s, objs w !! h = Some s -> piped s = false -> cntp (is_up h) (pending w) = 0) ->
  wp (ss_in_recv_ cfg auth make_address alpn_selected system_ec cancel_ec rd h data n)
    (fun _ w' => I (Late h) m k w') w.
Proof.
  intros Hrd HI Hdeep Hup. unfold ss_in_recv_. apply wp_bind, wp_getS. intros s Hs.
  destruct (late_of _ _ _ _ HI s Hs) as [E|E]; rewrite E; [|by apply wp_skip].
  apply wp_bind, (wp_loc_intro _ _ w h s Hs), wp_loc_modS. apply (wp_out_udp_sent_late d); [done| | |].
  - apply (I_same _ _ _ _ _ s); [done|done|done| |done|].
    + apply (ok_irrelevant _ _ _ s); try done. by apply HI.
    + apply (relay_ok_same _ _ _ s); try done. by apply HI.
  - intros s'. cbn. rewrite lookup_insert_eq. intros [= <-]. cbn.
    specialize (Hdeep s Hs). rewrite append_view_eq. zlen_lia.
  - intros s'. cbn. rewrite lookup_insert_eq. intros [= <-]. apply (Hup s Hs).
Qed.

Lemma wp_in_recv d rd m k w h s data n :
  rd_ok d rd h -> MAX_BUF_LENGTH < d -> I (Held h data) m k w -> objs w !! h = Some s ->
  (piped s = false -> cntp (is_up h) (pending w) = 0) ->
  (status s = HANDSHAKE -> has_queried_out s = false -> ins h (trace w) = [data]) ->
  wp (ss_in_recv_ cfg auth make_address alpn_selected system_ec cancel_ec rd h data n)
    (fun _ w' => I (Given h) m k w' /\
       forall s', objs w' !! h = Some s' -> late s' \/ queue s' = queue s) w.
Proof.
  intros Hrd Hd HI Hs Hup Hins.
  pose proof (I_ok _ _ _ _ HI h s Hs) as Hok. pose proof (I_relay _ _ _ _ HI h s Hs) as Hr.
  cbn in Hr. rewrite Nat.eqb_refl in Hr.
  assert (Hlate : late s -> wp (ss_in_recv_ cfg auth make_address alpn_selected system_ec cancel_ec
    rd h data n) (fun _ w' => I (Given h) m k w' /\
       forall s', objs w' !! h = Some s' -> late s' \/ queue s' = queue s) w).
  { intros Hl. eapply wp_mono; [apply (wp_in_recv_late d rd m k w h); [done| |intros s' _; zlen_lia|]|].
    - eapply I_late; [exact HI|done|done|]. intros s' Hs'. congruence.
    - intros s' Hs'. by assert (s' = s) as -> by congruence.
    - intros ? w4 HI4. split; [|intros s' Hs'; left; exact (late_of _ _ _ _ HI4 s' Hs')].
      eapply I_late; [exact HI4|done|done|exact (late_of _ _ _ _ HI4)]. }
  destruct (status s) eqn:Est; [| |apply Hlate; by left|apply Hlate; by right]; clear Hlate.
  - unfold ss_in_recv_. apply wp_bind, (wp_loc_intro _ _ w h s Hs), wp_loc_getS. rewrite Est.
    destruct (has_queried_out s) eqn:Eq.
    + apply wp_bind, wp_loc_modS, wp_loc_modS.
      split; [|intros s'; cbn; rewrite lookup_insert_eq; intros [= <-]; by right].
      eapply I_local; [exact HI|done|done|done
        |by eapply local_refl|done|effs_ok|done|by apply (ok_irrelevant _ _ _ _ _ Hok)|].
      rewrite app_nil_r. cbn. rewrite Nat.eqb_refl. unfold relay in *. cbn. rewrite Est, Eq in *.
      rewrite append_view_eq, app_nil_r. by destruct Hr.
    + apply wp_bind, wp_loc_check. intros pw.
      specialize (Hins eq_refl eq_refl).
      set (s1 := s <| auth_password := pw |>).
      assert (HI1 : I (Held h data) m k (loc w h s1 (pending w) [] (alloc w) (calls w))).
      { apply (I_same _ _ _ _ _ s); [done|done|done| |done|].
        - by apply (ok_irrelevant _ _ _ _ _ Hok).
        - apply (relay_ok_same _ _ _ s); try done. by apply HI. }
      assert (Hs1 : objs (loc w h s1 (pending w) [] (alloc w) (calls w)) !! h = Some s1)
        by (cbn; by rewrite lookup_insert_eq).
      assert (Hrel : relayed [data] = match accepted data with
        Some req => TrojanRequest.payload req | None => data end) by (cbn; by rewrite app_nil_r).
      assert (Hins1 : ins h (trace (loc w h s1 (pending w) [] (alloc w) (calls w))) = [data])
        by (cbn; by rewrite app_nil_r).
      assert (Hquery : forall payload addr port, relayed [data] = payload ->
        wp (ss_query_out h payload addr port) (fun _ w' => I (Given h) m k w' /\
          forall s', objs w' !! h = Some s' -> late s' \/ queue s' = queue s)
          (loc w h s1 (pending w) [] (alloc w) (calls w))).
      { intros payload addr port Hp. eapply wp_mono.
        - eapply wp_query_out; [exact HI1|exact Hs1|done|done|exact Hins1|exact Hp|done].
        - intros ? w' [HI' Hq']. split; [done|]. intros s' Hs'. right. by apply Hq'. }
      destruct (accepted data) as [req|] eqn:Ea; [|by apply Hquery].
      destruct (TrojanRequest.command req); [by apply Hquery|].
      eapply wp_mono; [eapply (wp_udp_associate d); [done|done|exact HI1|exact Hs1|done|done|done]|].
      intros ? w4 HI4. split; [|intros s' Hs'; left; exact (late_of _ _ _ _ HI4 s' Hs')].
      eapply I_late; [exact HI4|done|done|exact (late_of _ _ _ _ HI4)].
  - unfold ss_in_recv_. apply wp_bind, (wp_loc_intro _ _ w h s Hs), wp_loc_getS. rewrite Est.
    apply wp_bind, wp_loc_modS. eapply wp_mono.
    + eapply (wp_out_async_write m k _ h _ data [] n).
      * apply (I_same (Held h (data ++ [])) _ _ _ _ s); [by rewrite app_nil_r|done|done| |done|].
        -- by apply (ok_irrelevant _ _ _ _ _ Hok).
        -- rewrite app_nil_r. apply (relay_ok_same _ _ _ s); try done. by apply HI.
      * cbn. by rewrite lookup_insert_eq.
      * done.
      * done.
    + intros ? w' (HI' & s' & Hs' & Hst' & Hq').
      split; [|intros s2 Hs2; right; by assert (s2 = s') as -> by congruence].
      eapply I_change; [exact HI'|done|done|].
      intros s2 Hs2. assert (s2 = s') as -> by congruence.
      pose proof (I_relay _ _ _ _ HI' h s' Hs') as Hr'. cbn in Hr' |- *.
      rewrite Nat.eqb_refl in *. split; [done|congruence].
Qed.

Lemma guard_in_false l lg h s :
  ok l lg h s -> cntp (is_up h) l = 0 -> read_buf_guard (in_read_buf s) = false.
Proof.
  intros Hok Hup. pose proof (ok_in _ _ _ _ Hok) as Hin.
  assert (Hle : cntp (is_in h) l <= cntp (is_up h) l) by (apply cntp_le; by intros []).
  pose proof (cntp_nonneg (is_in h) l). destruct (read_buf_guard _); [cbn in Hin; lia|done].
Qed.

(** A read from the client's socket begins. *)
Lemma wp_in_socket_read x m k w h s :
  I x m k w -> near x h -> objs w !! h = Some s -> piped s = false ->
  cntp (is_up h) (pending w) = 0 ->
  wp (guarded_read h InBuf (OpInRead h)) (fun _ w' => I x m k w') w.
Proof.
  intros HI Hx Hs Hp Hup. pose proof (I_ok _ _ _ _ HI h s Hs) as Hok.
  pose proof (guard_in_false _ _ _ _ Hok Hup) as Hg.
  apply (wp_loc_intro _ _ w h s Hs), wp_loc_guarded_read; [done|].
  eapply I_local; [done|done|done|done| |done|effs_ok|done| |].
  - apply local_snoc; [by eapply local_refl|done|done].
  - destruct Hok. split; unfold down in *; cbn in *; cnt; try done; try (intros; cnt; try done; auto; fail).
    + rewrite Hg in *. cbn in *. lia.
    + intros Hp1. unfold piped in *. cbn in Hp1. congruence.
  - rewrite app_nil_r. apply (relay_ok_same _ _ _ s); try done. by apply HI.
Qed.

(** With an empty queue nothing is left over. *)
Lemma I_given m k w h :
  I (Given h) m k w -> (forall s, objs w !! h = Some s -> late s \/ queue s = []) ->
  I NoHold m k w.
Proof.
  intros HI Hq. eapply I_change; [exact HI|done|done|]. intros s Hs.
  pose proof (I_relay _ _ _ _ HI h s Hs) as Hr. cbn in Hr |- *. rewrite Nat.eqb_refl in Hr.
  destruct Hr as [Hr Hh]. split.
  - destruct (Hq s Hs) as [[E|E]|E]; [..|by rewrite E]; unfold relay in *; by rewrite E in *.
  - intros H1 H2. rewrite Hh in H2; done.
Qed.

(** The cache is emptied after the handler has returned. *)
Lemma wp_read_end x m k w h :
  I x m k w -> x = Given h \/ x = Late h ->
  wp (modCom h (fun c => c <| pipeline_data_cache ::= ReadDataCache.async_read_end |>))
    (fun _ w' => I (match x with Given _ => NoHold | _ => x end) m k w') w.
Proof.
  intros HI Hx. set (x' := match x with Given _ => NoHold | _ => x end).
  assert (near x h /\ near x' h) as [Hn Hn'] by (destruct Hx as [-> | ->]; done).
  destruct (objs w !! h) as [s|] eqn:Hs.
  - pose proof (I_ok _ _ _ _ HI h s Hs) as Hok. pose proof (I_relay _ _ _ _ HI h s Hs) as Hr.
    apply (wp_loc_intro _ _ w h s Hs), wp_loc_modCom.
    eapply I_local; [exact HI|done|done|done|by eapply local_refl|done|effs_ok|done| |].
    + destruct Hok. split; unfold down, waits, queue in *; cbn in *; auto.
      all: intros _; apply consume_all_nil.
    + rewrite app_nil_r. subst x'. destruct Hx as [-> | ->]; cbn in Hr |- *;
        rewrite Nat.eqb_refl in *.
      * destruct Hr as [Hr Hq]. unfold relay_rest, relay, queue in *. cbn.
        rewrite consume_all_nil. split; [exact Hr|]. intros H1 H2. rewrite Hq in H2; done.
      * exact Hr.
  - apply wp_modify. unfold modCom.
    replace (w <| objs ::= _ |>) with w.
    + eapply I_change; [exact HI|done|done|]. congruence.
    + destruct w. cbn in *. f_equal. symmetry. apply map_eq. intros i.
      destruct (decide (i = h)) as [->|]; [by rewrite lookup_alter_eq, Hs|by rewrite lookup_alter_ne].
Qed.

Lemma wp_in_async_read d h :
  rd_ok (Z.of_nat d) (ss_in_async_read_ cfg auth make_address alpn_selected system_ec cancel_ec d h) h /\
  forall m k w, I NoHold m k w -> MAX_BUF_LENGTH + 1 < Z.of_nat d ->
    (forall s, objs w !! h = Some s -> piped s = false -> cntp (is_up h) (pending w) = 0) ->
    wp (ss_in_async_read_ cfg auth make_address alpn_selected system_ec cancel_ec d h)
      (fun _ w' => I NoHold m k w') w.
Proof.
  induction d as [|d [IH _]].
  { split; [intros ? ? ? ? ? ?|intros ? ? ? ? ?]; unfold MAX_BUF_LENGTH in *; lia. }
  split; [intros m k w HI Hdeep _ Hup|intros m k w HI Hd Hup];
    cbn [ss_in_async_read_]; apply wp_bind, wp_getS; intros s Hs;
    pose proof (I_ok _ _ _ _ HI h s Hs) as Hok; pose proof (I_relay _ _ _ _ HI h s Hs) as Hr;
    (destruct (m_is_use_pipeline (pipeline_com s)) eqn:Ep;
      [|eapply wp_in_socket_read; [done|done|exact Hs|exact Ep|by apply (Hup s Hs)]]);
    unfold ReadDataCache.async_read_begin;
    (destruct (Z.eqb_spec (zlen (ReadDataCache.data_queue (pipeline_data_cache (pipeline_com s)))) 0) as [E|E];
      [apply (wp_loc_intro _ _ w h s Hs), wp_loc_modCom; apply zlen_zero in E;
       (apply (I_same _ _ _ _ _ s); [done|done|done| |done|by apply (relay_ok_same _ _ _ s)]);
       destruct Hok; split; unfold down, waits, queue in *; cbn in *; auto|]).
  - apply wp_bind. eapply wp_mono; [apply (wp_in_recv_late _ _ m k w h _ _ IH HI); [|done]|].
    { intros s' Hs'. specialize (Hdeep s' Hs'). zlen_lia. }
    intros ? w1 HI1. apply (wp_read_end (Late h)); [exact HI1|by right].
  - set (data := ReadDataCache.data_queue _) in *.
    assert (HI' : I (Held h data) m k w).
    { eapply I_change; [exact HI|done|done|]. intros s' Hs'. assert (s' = s) as -> by congruence.
      cbn in Hr |- *. rewrite Nat.eqb_refl. apply Hr. }
    apply wp_bind. eapply wp_mono; [apply (wp_in_recv _ _ m k w h s data _ IH ltac:(lia) HI' Hs)|].
    + by apply (Hup s Hs).
    + intros H1 H2. destruct Hr as [Hr Hq]. destruct (Hq H1 H2) as [Hq0 _]. rewrite Hq0.
      unfold relay in Hr. rewrite H1, H2, Hq0 in Hr. destruct Hr as (_ & _ & [[Hi Hn]|Hi]); [|congruence].
      exfalso. apply E. unfold queue in Hn. fold data in Hn. by rewrite Hn.
    + intros ? w1 [HI1 _]. apply (wp_read_end (Given h)); [exact HI1|by left].
Qed.

(** ** Completion of a session's operations *)

Definition is_read (o : op) : bool :=
  match o with OpInRead _ | OpOutRead _ | OpUdpRead _ => true | _ => false end.

(** An operation that is not a guarded read is over. *)
Lemma ok_delete l lg h s i o c m :
  ok l lg h s -> lg = SendDataCache.log c -> cache_in m c ->
  l !! i = Some o -> is_read o = false -> ok (delete i l) lg h s.
Proof.
  intros Hok -> Hc Hi Hr.
  assert (D : forall f, cntp f (delete i l) = cntp f l - Zb (f o)) by (intros; by apply cntp_delete).
  assert (Hn : forall f, 0 <= cntp f (delete i l)) by (intros; apply cntp_nonneg).
  assert (Hle : forall f, cntp f (delete i l) <= cntp f l)
    by (intros f; rewrite D; destruct (f o); cbn; lia).
  assert (R : is_in h o = false /\ is_outr h o = false /\ is_udpr h o = false) by (by destruct o).
  destruct R as (R1 & R2 & R3). pose proof (cache_tok_nonneg _ _ h Hc) as Ht.
  assert (Hd : down (delete i l) (SendDataCache.log c) h s =
    down l (SendDataCache.log c) h s - Zb (is_inw h o)).
  { unfold down. rewrite !D, R2, R3. cbn. lia. }
  assert (Hdn : 0 <= down (delete i l) (SendDataCache.log c) h s).
  { unfold down. pose proof (Hn (is_outr h)). pose proof (Hn (is_udpr h)). pose proof (Hn (is_inw h)).
    destruct (pipeline_wait_for_ack _); cbn; lia. }
  assert (Hz : down l (SendDataCache.log c) h s = 0 -> down (delete i l) (SendDataCache.log c) h s = 0)
    by (destruct (is_inw h o); cbn in Hd; lia).
  pose proof (Hle (is_up h)). pose proof (Hle (is_conn h)). pose proof (Hle (is_udpres h)).
  pose proof (Hn (is_conn h)). pose proof (Hn (is_udpres h)).
  destruct Hok. split; rewrite ?(D (is_in h)), ?(D (is_outr h)), ?(D (is_udpr h)), ?R1, ?R2, ?R3;
    cbn [Zb]; rewrite ?Z.sub_0_r; auto.
  - intros Hp. specialize (ok_up0 Hp). lia.
  - destruct (is_inw h o); cbn in Hd; lia.
  - intros Hs. destruct (ok_hs0 Hs). auto.
  - lia.
  - intros H5 H6. specialize (ok_conn_hs0 H5 H6). lia.
  - intros H5. specialize (ok_conn_fwd0 H5). lia.
  - intros H5. specialize (ok_udpres0 H5). lia.
Qed.

Lemma I_delete m k w h s i o :
  I NoHold m k w -> pending w !! i = Some o -> op_this o = Some h -> objs w !! h = Some s ->
  is_read o = false -> I NoHold m k (w <| pending ::= delete i |>).
Proof.
  intros HI Hi Ho Hs Hr. rewrite (loc_delete w h s i Hs).
  eapply I_local; [done|done|done|done|by eapply local_delete|done|effs_ok|done| |].
  - eapply ok_delete; [by apply HI|done|apply HI|done|done].
  - rewrite app_nil_r. by apply HI.
Qed.

(** What is known when operation [o] of session [h] has been taken out. *)
Record taken (o : op) (h : nat) (s : ServerSession) (w : world) : Prop := {
  tk_s : objs w !! h = Some s;
  tk_up : is_up h o = true -> piped s = false -> cntp (is_up h) (pending w) = 0;
  tk_down : is_inw h o = true ->
    down (pending w) (log_of w) h s = 0 /\ status s <> HANDSHAKE /\
    (status s = UDP_FORWARD -> udp_open s = true) /\
    pipeline_wait_for_ack (pipeline_com s) = false;
  tk_conn : is_conn h o = true -> cntp (is_conn h) (pending w) = 0 /\
    (status s = DESTROY \/ (status s = HANDSHAKE /\ has_queried_out s = true));
  tk_udpres : is_udpres h o = true -> late s;
  tk_buf : forall b, op_buf o = Some b -> b ∈ allocated (alloc w)
}.

Lemma take_op k w i o h :
  I NoHold Idle k w -> pending w !! i = Some o -> op_this o = Some h -> is_read o = false ->
  exists s, taken o h s (w <| pending ::= delete i |>) /\ I NoHold Idle k (w <| pending ::= delete i |>).
Proof.
  intros HI Hi Ho Hr. assert (Hin : o ∈ pending w) by (apply list_elem_of_lookup; eauto).
  destruct (I_ops _ _ _ _ HI o h Hin Ho) as [s Hs]. exists s.
  split; [|by eapply I_delete].
  pose proof (I_ok _ _ _ _ HI h s Hs) as Hok.
  assert (D : forall f, cntp f (delete i (pending w)) = cntp f (pending w) - Zb (f o))
    by (intros; by apply cntp_delete).
  assert (Hn : forall f, 0 <= cntp f (delete i (pending w))) by (intros; apply cntp_nonneg).
  pose proof (cache_tok_nonneg _ _ h (I_cache _ _ _ _ HI)) as Ht. fold (log_of w) in Ht.
  split; cbn.
  - done.
  - intros Hu Hp. pose proof (ok_up _ _ _ _ Hok Hp). specialize (D (is_up h)). rewrite Hu in D. cbn in D.
    pose proof (Hn (is_up h)). lia.
  - intros Hw.
    assert (R : is_outr h o = false /\ is_udpr h o = false) by (by destruct o). destruct R as [R1 R2].
    pose proof (D (is_inw h)) as D1. rewrite Hw in D1. cbn in D1.
    pose proof (D (is_outr h)) as D2. rewrite R1 in D2. pose proof (D (is_udpr h)) as D3. rewrite R2 in D3.
    pose proof (Hn (is_inw h)). pose proof (Hn (is_outr h)). pose proof (Hn (is_udpr h)).
    pose proof (ok_down _ _ _ _ Hok) as Hd. cbn in D2, D3.
    assert (Hge : 1 <= down (pending w) (log_of w) h s).
    { unfold down. destruct (pipeline_wait_for_ack _); cbn; lia. }
    assert (Hs1 : status s <> HANDSHAKE).
    { intros Hst. destruct (ok_hs _ _ _ _ Hok Hst) as [Hz _]. lia. }
    assert (Hs2 : status s = UDP_FORWARD -> udp_open s = true).
    { intros Hst. destruct (udp_open s) eqn:E; [done|].
      pose proof (ok_udp_closed _ _ _ _ Hok Hst E) as Hz. lia. }
    unfold down, log_of in *. cbn. rewrite D1, D2, D3.
    destruct (pipeline_wait_for_ack _); cbn in *; [lia|]. split_and!; [lia|done|done|done].
  - intros Hc. specialize (D (is_conn h)). rewrite Hc in D. cbn in D.
    pose proof (ok_conn _ _ _ _ Hok). pose proof (Hn (is_conn h)). split; [lia|].
    destruct (status s) eqn:E; [|exfalso..|by left].
    + right. split; [done|]. destruct (has_queried_out s) eqn:E2; [done|].
      pose proof (ok_conn_hs _ _ _ _ Hok E E2). lia.
    + pose proof (ok_conn_fwd _ _ _ _ Hok (or_introl E)). lia.
    + pose proof (ok_conn_fwd _ _ _ _ Hok (or_intror E)). lia.
  - intros Hc. specialize (D (is_udpres h)). rewrite Hc in D. cbn in D. pose proof (Hn (is_udpres h)).
    destruct (status s) eqn:E; [exfalso..|by left|by right].
    + pose proof (ok_udpres _ _ _ _ Hok (or_introl E)). lia.
    + pose proof (ok_udpres _ _ _ _ Hok (or_intror E)). lia.
  - intros b Hb. eapply (I_bufs _ _ _ _ HI); eauto.
Qed.

Lemma wp_free x m k w b :
  I x m k w -> b ∈ allocated (alloc w) ->
  wp (free_buf b) (fun _ w' => I x m k w' /\ objs w' = objs w /\ pending w' = pending w /\
    pipe w' = pipe w /\ pipe_alive w' = pipe_alive w) w.
Proof.
  intros HI Hb. unfold wp, free_buf, free. rewrite bool_decide_true by done. cbn.
  split_and!; try done. destruct HI. split; cbn; try done. set_solver.
Qed.

Lemma down_zero_wait l lg h s m c :
  lg = SendDataCache.log c -> cache_in m c -> down l lg h s = 0 ->
  pipeline_wait_for_ack (pipeline_com s) = false /\ cntp (is_udpr h) l = 0 /\
  cntp (is_outr h) l = 0 /\ cntp (is_inw h) l = 0.
Proof.
  intros -> Hc Hd. pose proof (cache_tok_nonneg _ _ h Hc).
  pose proof (cntp_nonneg (is_outr h) l). pose proof (cntp_nonneg (is_udpr h) l).
  pose proof (cntp_nonneg (is_inw h) l). unfold down in Hd.
  destruct (pipeline_wait_for_ack _); cbn in Hd; [lia|]. split_and!; [done|lia..].
Qed.

Lemma wp_in_sent m k w h s :
  I NoHold m k w -> objs w !! h = Some s -> may_send (pending w) (log_of w) h s ->
  wp (ss_in_sent h) (fun _ w' => I NoHold m k w') w.
Proof.
  intros HI Hs (Hd & Hns & Hu). pose proof (I_ok _ _ _ _ HI h s Hs) as Hok.
  destruct (down_zero_wait _ _ _ _ _ _ eq_refl (I_cache _ _ _ _ HI) Hd) as (Hw & Hz & _).
  unfold ss_in_sent. apply wp_bind, wp_getS. intros s0 Hs0.
  assert (s0 = s) as -> by congruence. destruct (status s) eqn:Est; try by apply wp_skip.
  - eapply wp_mono; [apply (wp_out_async_read NoHold m k w h s); try done|].
    + congruence.
    + intros E. congruence.
    + by rewrite Hw.
    + by intros ? w' [? _].
  - unfold ss_out_udp_async_read. apply (wp_loc_intro _ _ w h s Hs).
    apply wp_loc_guarded_read.
    { pose proof (ok_udp _ _ _ _ Hok) as Hg. rewrite Hz in Hg. cbn. by destruct (read_buf_guard _). }
    eapply I_local; [done|done|done|done| |done|effs_ok|done| |].
    + apply local_snoc; [by eapply local_refl|done|done].
    + unfold down in Hd. destruct Hok. split; unfold down in *; cbn in *; cnt; try done;
        try (intros; cnt; try done; auto; fail); try congruence.
      intros _ Hc. rewrite Hu in Hc; done.
    + rewrite app_nil_r. apply (relay_ok_same _ _ _ s); try done. by apply HI.
Qed.

Notation in_async_read' :=
  (ss_in_async_read cfg auth make_address alpn_selected system_ec cancel_ec depth).

Lemma wp_read m k w h :
  I NoHold m k w ->
  (forall s, objs w !! h = Some s -> piped s = false -> cntp (is_up h) (pending w) = 0) ->
  wp (in_async_read' h) (fun _ w' => I NoHold m k w') w.
Proof. intros HI Hup. apply wp_in_async_read; [done|lia|done]. Qed.

Lemma rd_ok_read h : rd_ok (Z.of_nat depth) (in_async_read' h) h.
Proof. apply wp_in_async_read. Qed.

Lemma wp_out_sent m k w h :
  I NoHold m k w ->
  (forall s, objs w !! h = Some s -> piped s = false -> cntp (is_up h) (pending w) = 0) ->
  wp (ss_out_sent cfg auth make_address alpn_selected system_ec cancel_ec depth h)
    (fun _ w' => I NoHold m k w') w.
Proof.
  intros HI Hup. unfold ss_out_sent. apply wp_bind, wp_getS. intros s Hs.
  apply wp_when; [|done]. intros _. by apply wp_read.
Qed.

Lemma wp_handshake_done k w h s ec http :
  I NoHold Idle k w -> taken (OpHandshake h) h s w ->
  wp (ss_handshake_done cfg auth make_address alpn_selected system_ec cancel_ec depth h ec http)
    (fun _ w' => I NoHold Idle k w') w.
Proof.
  intros HI [Hs Hup _ _ _ _]. unfold ss_handshake_done. destruct (negb _).
  - destruct (_ && _); [|by apply wp_destroy].
    apply wp_bind, (wp_loc_intro _ _ w h s Hs), wp_loc_modS, wp_bind, wp_loc_emit, wp_loc_start_op.
    pose proof (I_ok _ _ _ _ HI h s Hs) as Hok.
    eapply I_local; [done|done|done|done| |done|effs_ok|done| |].
    + apply local_snoc; [by eapply local_refl|done|done].
    + apply (ok_irrelevant _ _ _ s); try done. destruct Hok.
      split; unfold down in *; cnt; try done; try (intros; cnt; try done; auto; fail).
    + apply relay_ok_quiet; [effs_ok|]. apply (relay_ok_same _ _ _ s); try done. by apply HI.
  - apply wp_read; [done|]. intros s' Hs' Hp. assert (s' = s) as -> by congruence.
    apply Hup; [cbn; apply Nat.eqb_refl|done].
Qed.

Lemma wp_in_write_done k w h s b ec :
  I NoHold Idle k w -> taken (OpInWrite h b) h s w ->
  wp (ss_in_write_done auth h b ec) (fun _ w' => I NoHold Idle k w') w.
Proof.
  intros HI [Hs _ Hd _ _ Hb]. destruct Hd as (Hd & H1 & H2 & H3); [cbn; apply Nat.eqb_refl|].
  unfold ss_in_write_done. apply wp_bind. eapply wp_mono; [by eapply wp_free; eauto|].
  intros ? w1 (HI1 & E1 & E2 & E3 & _). destruct (negb _); [by apply wp_destroy|].
  eapply wp_in_sent; [done|by rewrite E1|]. unfold may_send, log_of. by rewrite E2, E3.
Qed.

Lemma wp_out_write_done k w h s b n ec :
  I NoHold Idle k w -> taken (OpOutWrite h b n) h s w ->
  wp (ss_out_write_done cfg auth make_address alpn_selected system_ec cancel_ec depth h b n ec)
    (fun _ w' => I NoHold Idle k w') w.
Proof.
  intros HI [Hs Hup _ _ _ Hb]. unfold ss_out_write_done. apply wp_bind.
  eapply wp_mono; [by eapply wp_free; eauto|].
  intros ? w1 (HI1 & E1 & E2 & E3 & _). destruct (negb _); [by apply wp_destroy|].
  rewrite <- E1 in Hs. pose proof (I_ok _ _ _ _ HI1 h s Hs) as Hok.
  apply wp_bind, (wp_loc_intro _ _ w1 h s Hs), wp_loc_has.
  destruct (piped s) eqn:Ep; cbn [andb].
  - destruct (pipeline_session s && pipe_alive w1); cycle 1.
    { rewrite <- (loc_intro w1 h s Hs). apply wp_out_sent; [done|]. intros s' Hs'. congruence. }
    apply wp_bind, wp_loc_getS. destruct (_ && _).
    { rewrite <- (loc_intro w1 h s Hs). by apply wp_destroy. }
    apply wp_bind, wp_loc_modCom. set (w2 := loc _ _ _ _ _ _ _).
    assert (HI2 : I NoHold Idle k w2).
    { apply (I_same _ _ _ _ _ s); [done|done|done| |done|].
      - destruct Hok. split; unfold down in *; cbn in *; auto.
      - apply (relay_ok_same _ _ _ s); try done. by apply HI1. }
    apply wp_in_send; [done|done|done| |done|].
    + intros h' [= <-]. cbn. rewrite lookup_insert_eq. eexists. split; [done|exact Ep].
    + intros w' HI'. apply wp_call_broken; [done|]. by intros h' [= <-].
  - rewrite <- (loc_intro w1 h s Hs). apply wp_out_sent; [done|].
    intros s' Hs' Hp. rewrite E2. apply Hup; [cbn; apply Nat.eqb_refl|done].
Qed.

Lemma wp_udp_write_done k w h s b ec :
  I NoHold Idle k w -> taken (OpUdpWrite h b) h s w ->
  wp (ss_udp_write_done cfg auth make_address alpn_selected system_ec cancel_ec depth h b ec)
    (fun _ w' => I NoHold Idle k w') w.
Proof.
  intros HI [Hs Hup _ _ _ Hb]. unfold ss_udp_write_done. apply wp_bind.
  eapply wp_mono; [by eapply wp_free; eauto|].
  intros ? w1 (HI1 & E1 & E2 & E3 & _). destruct (negb _); [by apply wp_destroy|].
  rewrite <- E1 in Hs. unfold ss_out_udp_sent.
  destruct (decide (status s = UDP_FORWARD)) as [Hu|Hu].
  - eapply wp_mono; [apply (wp_out_udp_sent_late _ _ Idle k w1 h (rd_ok_read h))|].
    + eapply I_late; [exact HI1|done|done|]. intros s' Hs'. left. congruence.
    + intros s' _. zlen_lia.
    + intros s' Hs' Hp. rewrite E2. apply Hup; [cbn; apply Nat.eqb_refl|congruence].
    + intros ? w4 HI4. eapply (I_late _ NoHold _ _ _ h); [exact HI4|done|done|exact (late_of _ _ _ _ HI4)].
  - unfold ss_out_udp_sent_. apply wp_bind, wp_getS. intros s' Hs'.
    assert (s' = s) as -> by congruence. rewrite bool_decide_false by done. by apply wp_skip.
Qed.

(** *** Guarded reads *)

Definition read_op (b : which_buf) (h : nat) : op :=
  match b with InBuf => OpInRead h | OutBuf => OpOutRead h | UdpBuf => OpUdpRead h end.

(** The session after a read of [b] is over, [data] in its buffer. *)
Definition after_read (b : which_buf) (data : bytes) (s : ServerSession) : ServerSession :=
  set_buf b (mkReadBuf data false) s.

Lemma read_guard l lg h s b :
  ok l lg h s -> read_op b h ∈ l ->
  read_buf_guard (buf_of b s) = true /\ read_buf (buf_of b s) = [].
Proof.
  intros Hok Hin. destruct b; cbn in *.
  - pose proof (cntp_elem (is_in h) _ _ Hin (Nat.eqb_refl h)) as H. rewrite (ok_in _ _ _ _ Hok) in H.
    destruct (read_buf_guard (in_read_buf s)) eqn:E; [|cbn in H; lia]. split; [done|by apply Hok].
  - pose proof (cntp_elem (is_outr h) _ _ Hin (Nat.eqb_refl h)) as H. rewrite (ok_out _ _ _ _ Hok) in H.
    destruct (read_buf_guard (out_read_buf s)) eqn:E; [|cbn in H; lia]. split; [done|by apply Hok].
  - pose proof (cntp_elem (is_udpr h) _ _ Hin (Nat.eqb_refl h)) as H. rewrite (ok_udp _ _ _ _ Hok) in H.
    destruct (read_buf_guard (udp_read_buf s)) eqn:E; [|cbn in H; lia]. split; [done|by apply Hok].
Qed.

Lemma ok_after_read l lg h s b i data m c :
  ok l lg h s -> lg = SendDataCache.log c -> cache_in m c -> l !! i = Some (read_op b h) ->
  ok (delete i l) lg h (after_read b data s) /\
  (b <> InBuf -> may_send (delete i l) lg h s) /\
  (b = InBuf -> piped s = false /\ cntp (is_up h) (delete i l) = 0).
Proof.
  intros Hok -> Hc Hi.
  assert (Hin : read_op b h ∈ l) by (apply list_elem_of_lookup; eauto).
  destruct (read_guard _ _ _ _ _ Hok Hin) as [Hg Hb].
  assert (D : forall f, cntp f (delete i l) = cntp f l - Zb (f (read_op b h)))
    by (intros; by apply cntp_delete).
  assert (Hn : forall f, 0 <= cntp f (delete i l)) by (intros; apply cntp_nonneg).
  pose proof (cache_tok_nonneg _ _ h Hc) as Ht.
  pose proof (D (is_in h)) as D1. pose proof (D (is_outr h)) as D2. pose proof (D (is_udpr h)) as D3.
  pose proof (D (is_inw h)) as D4. pose proof (D (is_conn h)) as D5. pose proof (D (is_up h)) as D6.
  pose proof (D (is_udpres h)) as D7.
  pose proof (Hn (is_outr h)). pose proof (Hn (is_udpr h)). pose proof (Hn (is_inw h)).
  pose proof (Hn (is_up h)). pose proof (Hn (is_in h)). pose proof (ok_down _ _ _ _ Hok) as Hd. unfold down in Hd.
  assert (Hge : b <> InBuf -> 1 <= down l (SendDataCache.log c) h s).
  { intros Hne. unfold down. destruct (pipeline_wait_for_ack _), b; try done; cbn in *;
      rewrite ?Nat.eqb_refl in *; cbn in *; lia. }
  split_and!.
  - destruct b; cbn in *; rewrite ?Nat.eqb_refl in *; cbn in *; rewrite ?Z.sub_0_r in *;
      destruct Hok; split; unfold down, piped, waits, queue in *; cbn in *;
      rewrite ?D1, ?D2, ?D3, ?D4, ?D5, ?D6, ?D7; rewrite ?Hg in *; cbn in *; auto; try done; try lia.
    all: intros Hh; try specialize (Hge ltac:(done)); first
      [ specialize (ok_up0 Hh); lia
      | destruct (ok_hs0 Hh); lia
      | intros Hh2; specialize (ok_udp_closed0 Hh Hh2); lia ].
  - intros Hne. specialize (Hge Hne). split_and!.
    + unfold down in *. destruct (pipeline_wait_for_ack _), b; try done; cbn in *;
        rewrite ?Nat.eqb_refl in *; cbn in *; lia.
    + intros Hst. destruct (ok_hs _ _ _ _ Hok Hst). lia.
    + intros Hst. destruct (udp_open s) eqn:E; [done|].
      pose proof (ok_udp_closed _ _ _ _ Hok Hst E). lia.
  - intros ->. cbn in *. rewrite Nat.eqb_refl in *. cbn in *.
    destruct (piped s) eqn:Ep; [pose proof (ok_in_direct _ _ _ _ Hok Ep); lia|].
    split; [done|]. pose proof (ok_up _ _ _ _ Hok Ep). lia.
Qed.

(** Any read ends: the session in its new state, and the data. *)
Lemma wp_finish k w i h b ec data (Q : bytes -> world -> Prop) :
  I NoHold Idle k w -> pending w !! i = Some (read_op b h) ->
  (forall s, objs w !! h = Some s ->
     ok (delete i (pending w)) (log_of w) h (after_read b (if ec =? 0 then data else []) s) ->
     (b <> InBuf -> may_send (delete i (pending w)) (log_of w) h s) ->
     (b = InBuf -> piped s = false /\ cntp (is_up h) (delete i (pending w)) = 0) ->
     local w h (delete i (pending w)) (alloc w) ->
     Q (if ec =? 0 then data else [])
       (loc w h (after_read b (if ec =? 0 then data else []) s)
          (delete i (pending w)) [] (alloc w) (calls w))) ->
  wp (finish_read h b ec data) Q (w <| pending ::= delete i |>).
Proof.
  intros HI Hi HQ. assert (Hin : read_op b h ∈ pending w) by (apply list_elem_of_lookup; eauto).
  destruct (I_ops _ _ _ _ HI _ h Hin) as [s Hs]; [by destruct b|].
  pose proof (I_ok _ _ _ _ HI h s Hs) as Hok.
  destruct (read_guard _ _ _ _ _ Hok Hin) as [Hg Hb].
  rewrite (loc_delete w h s i Hs). apply wp_loc_finish_read; [done|].
  destruct (ok_after_read _ _ _ _ _ _ (if ec =? 0 then data else []) _ _ Hok eq_refl
    (I_cache _ _ _ _ HI) Hi) as (H1 & H2 & H3).
  apply HQ; try done. eapply local_delete; [done|done|by destruct b].
Qed.

Lemma after_read_same b data s :
  status (after_read b data s) = status s /\ out_write_buf (after_read b data s) = out_write_buf s /\
  has_queried_out (after_read b data s) = has_queried_out s /\ queue (after_read b data s) = queue s /\
  piped (after_read b data s) = piped s /\ udp_open (after_read b data s) = udp_open s /\
  pipeline_com (after_read b data s) = pipeline_com s.
Proof. by destruct b. Qed.

Lemma I_after_read k w h s b data l effs c :
  I NoHold Idle k w -> objs w !! h = Some s -> ok l (log_of w) h (after_read b data s) ->
  local w h l (alloc w) -> (forall e, e ∈ effs -> eff_this e = Some h /\ quiet_eff e = true) ->
  I NoHold Idle k (loc w h (after_read b data s) l effs (alloc w) c).
Proof.
  intros HI Hs Hok Hl He. destruct (after_read_same b data s) as (E1 & E2 & E3 & E4 & E5 & _).
  eapply I_local; [done|done|done|done|done|done| |done|done|].
  - intros e Hin. left. by apply He.
  - apply relay_ok_quiet; [intros e Hin; by apply He|].
    apply (relay_ok_same _ _ _ s); [by apply HI|by destruct b..].
Qed.

Lemma relay_new_chunk tr h s data :
  relay_rest tr h s -> queue s = [] ->
  relay data (tr ++ [InData h data]) h s.
Proof.
  intros [Hr Hq] He. rewrite He in Hr. unfold relay in *. rewrite ins_app, outs_app. cbn.
  rewrite Nat.eqb_refl, !app_nil_r in *. destruct (status s).
  - destruct Hr as [Ho Hr]. split; [done|]. destruct (has_queried_out s).
    + destruct Hr as [Hn Hr]. split; [by destruct (ins h tr)|].
      rewrite ?app_nil_r in Hr. rewrite relayed_snoc by done. by rewrite <- Hr.
    + destruct Hr as [Hb _]. split; [done|]. right. destruct (Hq eq_refl eq_refl) as [-> _]. done.
  - destruct Hr as [Hn Hr]. split; [by destruct (ins h tr)|].
    rewrite ?app_nil_r in Hr. rewrite relayed_snoc by done. by rewrite <- Hr.
  - done.
  - destruct (ins h tr) as [|c cs] eqn:E.
    + cbn in Hr. apply prefix_nil_inv in Hr. rewrite Hr. apply prefix_nil.
    + rewrite relayed_snoc by done. by apply prefix_app_r.
Qed.

Lemma wp_in_read_done k w i h ec data :
  I NoHold Idle k w -> pending w !! i = Some (OpInRead h) ->
  wp (ss_in_read_done cfg auth make_address alpn_selected system_ec cancel_ec depth h ec data)
    (fun _ w' => I NoHold Idle k w') (w <| pending ::= delete i |>).
Proof.
  intros HI Hi. unfold ss_in_read_done. apply wp_bind, (wp_finish k w i h InBuf); [done|done|].
  intros s Hs Hok _ Hup Hl. destruct (Hup eq_refl) as [Hp Hz]. clear Hup.
  pose proof (I_ok _ _ _ _ HI h s Hs) as Hok0. pose proof (I_relay _ _ _ _ HI h s Hs) as Hr.
  pose proof (ok_direct _ _ _ _ Hok0 Hp) as Hq.
  destruct (Z.eqb_spec ec 0) as [->|Hec]; cbn [negb].
  - apply wp_bind, wp_loc_emit. set (w1 := loc _ _ _ _ _ _ _).
    assert (HI1 : I (Held h data) Idle k w1).
    { eapply I_local; [exact HI|done|done|done|done|done|effs_ok|done|done|].
      cbn [relay_ok]. rewrite Nat.eqb_refl. cbn [app]. by apply relay_new_chunk. }
    assert (Hs1 : objs w1 !! h = Some (after_read InBuf data s)) by (cbn; by rewrite lookup_insert_eq).
    eapply wp_mono; [apply (wp_in_recv _ _ Idle k w1 h _ data 0 (rd_ok_read h) ltac:(lia) HI1 Hs1)|].
    + intros _. exact Hz.
    + intros H1 H2. destruct Hr as [_ Hr]. change (trace w1) with (trace w ++ [InData h data]).
      rewrite ins_app. destruct (Hr H1 H2) as [-> _]. cbn. by rewrite Nat.eqb_refl.
    + intros ? w2 [HI2 Hq2]. apply (I_given _ _ _ h); [done|].
      intros s2 Hs2. destruct (Hq2 s2 Hs2) as [|E]; [by left|right]. by rewrite E.
  - apply wp_destroy; [|done]. apply (I_after_read k w h s InBuf); try done. set_solver.
Qed.

Lemma wp_out_read_done k w i h ec data :
  I NoHold Idle k w -> pending w !! i = Some (OpOutRead h) -> zlen data <= MAX_BUF_LENGTH ->
  wp (ss_out_read_done auth h ec data) (fun _ w' => I NoHold Idle k w') (w <| pending ::= delete i |>).
Proof.
  intros HI Hi Hlen. unfold ss_out_read_done. apply wp_bind, (wp_finish k w i h OutBuf); [done|done|].
  intros s Hs Hok Hsend _ Hl. specialize (Hsend ltac:(done)).
  destruct (Z.eqb_spec ec 0) as [->|Hec]; cbn [negb].
  - apply wp_bind, wp_loc_emit. unfold ss_out_recv. apply wp_bind, wp_loc_getS, wp_when; intros _.
    2:{ apply (I_after_read k w h s OutBuf); try done.
        intros e Hin. cbn in Hin. by apply list_elem_of_singleton in Hin as ->. }
    apply wp_bind, wp_loc_modS. eapply wp_in_async_write.
    + eapply I_local; [exact HI|done|done|done|done|done|effs_ok|done| |].
      * by apply (ok_irrelevant _ _ _ _ _ Hok).
      * apply relay_ok_quiet; [effs_ok|]. apply (relay_ok_same _ _ _ s); try done. by apply HI.
    + done.
    + cbn. by rewrite lookup_insert_eq.
    + exact Hsend.
    + unfold MAX_BUF_LENGTH, PipelineRequest.MAX_DATA_LENGTH in *. lia.
  - apply wp_destroy; [|done]. apply (I_after_read k w h s OutBuf); try done. set_solver.
Qed.

(** *** Connecting *)

Lemma wp_resolve_done k w h s ec results :
  I NoHold Idle k w -> taken (OpResolve h) h s w ->
  wp (ss_resolve_done cfg auth system_ec h ec results) (fun _ w' => I NoHold Idle k w') w.
Proof.
  intros HI [Hs Hup _ Hc _ _]. unfold ss_resolve_done.
  destruct results as [|r rs]; [by apply wp_destroy|].
  destruct (negb _); [by apply wp_destroy|].
  destruct Hc as [Hc Hst]; [cbn; apply Nat.eqb_refl|].
  specialize (Hup (Nat.eqb_refl h)). pose proof (I_ok _ _ _ _ HI h s Hs) as Hok.
  pose proof (I_relay _ _ _ _ HI h s Hs) as Hr.
  apply wp_bind, (wp_loc_intro _ _ w h s Hs), wp_loc_ask. destruct (negb _).
  { apply wp_destroy; [|done]. by apply (I_same _ _ _ _ _ s). }
  apply wp_bind, wp_loc_modS.
  (* with or without the timer *)
  assert (Hend : forall l, (l = pending w \/ l = pending w ++ [OpConnectTimer h]) ->
    wp (start_op (OpConnect h)) (fun _ w' => I NoHold Idle k w')
      (loc w h (s <| out_open := true |>) l [] (alloc w) (S (calls w)))).
  { intros l Hl. apply wp_loc_start_op.
    assert (C : forall f, f (OpConnectTimer h) = false -> cntp f l = cntp f (pending w)).
    { intros f Hf. destruct Hl as [-> | ->]; [done|]. rewrite cntp_app, cntp_one, Hf. cbn. lia. }
    eapply I_local; [done|done|done|done| |done|effs_ok|done| |].
    - apply local_snoc; [|done|done]. destruct Hl as [-> | ->]; [by eapply local_refl|].
      apply local_snoc; [by eapply local_refl|done|done].
    - apply (ok_irrelevant _ _ _ s); try done. destruct Hok.
      split; unfold down in *; cnt; rewrite ?C by done; try done; try (intros; cnt; try done; auto; fail).
      all: first
        [ lia
        | intros Hp; rewrite (Hup Hp); lia
        | intros H1 H2; destruct Hst as [E|[_ E]]; congruence
        | intros [H1|H1]; destruct Hst as [E|[E _]]; congruence
        | intros H1; rewrite Z.add_0_r, ?C by done; auto ].
    - rewrite app_nil_r. by apply (relay_ok_same _ _ _ s). }
  apply wp_bind, wp_when; intros _; [apply wp_loc_start_op|]; apply Hend; auto.
Qed.

Lemma relay_connected tr h s s' :
  relay_rest tr h s -> status s = HANDSHAKE -> has_queried_out s = true ->
  status s' = FORWARD -> relay (out_write_buf s ++ queue s) tr h s'.
Proof.
  intros [Hr _] H1 H2 H3. unfold relay in *. rewrite H1, H2 in Hr. rewrite H3.
  destruct Hr as (Ho & Hn & Hr). by rewrite Ho.
Qed.

Lemma I_held_queue m k w h s :
  I (Held h (queue s)) m k w -> objs w !! h = Some s -> status s <> HANDSHAKE -> I NoHold m k w.
Proof.
  intros HI Hs Hst. eapply I_change; [exact HI|done|done|]. intros s' Hs'.
  assert (s' = s) as -> by congruence. pose proof (I_relay _ _ _ _ HI h s Hs) as Hr.
  cbn in Hr |- *. rewrite Nat.eqb_refl in Hr. by split.
Qed.

Lemma wp_connect_done k w h s ec :
  I NoHold Idle k w -> taken (OpConnect h) h s w -> (ec = 0 -> status s <> DESTROY) ->
  wp (ss_connect_done cfg auth make_address alpn_selected system_ec cancel_ec depth h ec)
    (fun _ w' => I NoHold Idle k w') w.
Proof.
  intros HI [Hs Hup _ Hc _ _] Hec. unfold ss_connect_done.
  destruct (Z.eqb_spec ec 0) as [->|]; cbn [negb]; [|by apply wp_destroy].
  destruct Hc as [Hc [Hst|[Hst Hq]]]; [cbn; apply Nat.eqb_refl|by specialize (Hec eq_refl)|].
  clear Hec. specialize (Hup (Nat.eqb_refl h)). pose proof (I_ok _ _ _ _ HI h s Hs) as Hok.
  pose proof (I_relay _ _ _ _ HI h s Hs) as Hr.
  pose proof (ok_hs _ _ _ _ Hok Hst) as [Hd Hu].
  destruct (down_zero_wait _ _ _ _ _ _ eq_refl (I_cache _ _ _ _ HI) Hd) as (Hw & _).
  unfold ss_connected. apply wp_bind, (wp_loc_intro _ _ w h s Hs), wp_loc_modS.
  set (s1 := s <| status := FORWARD |>). set (w1 := loc _ _ _ _ _ _ _).
  assert (HI1 : I (Held h (out_write_buf s ++ queue s)) Idle k w1).
  { eapply I_local; [exact HI|done|done|done|by eapply local_refl|done|effs_ok|done| |].
    - destruct Hok. split; unfold down in *; cbn in *; auto; try done; try congruence.
    - rewrite app_nil_r. cbn [relay_ok]. rewrite Nat.eqb_refl. by apply (relay_connected _ _ s). }
  assert (Hs1 : objs w1 !! h = Some s1) by (cbn; by rewrite lookup_insert_eq).
  apply wp_bind. eapply wp_mono; [apply (wp_out_async_read _ Idle k w1 h s1 HI1)|]; try done.
  { change (down (pending w1) (log_of w1) h s1) with (down (pending w) (log_of w) h s).
    cbn. by rewrite Hw. }
  intros ? w2 [HI2 [Hf Hup2]]. destruct (Hf s1 Hs1) as (s2 & Hs2 & E1 & E2 & E3 & E4).
  apply wp_bind, wp_getS. intros s' Hs'. assert (s' = s2) as -> by congruence. clear Hs'.
  assert (Hup2' : piped s2 = false -> cntp (is_up h) (pending w2) = 0).
  { intros Hp. rewrite Hup2. cbn. apply Hup. rewrite E4 in Hp. exact Hp. }
  change (queue s1) with (queue s) in E3. rewrite <- E3 in HI2.
  change (out_write_buf s1) with (out_write_buf s) in E2. rewrite <- E2 in HI2.
  destruct (Z.eqb_spec (zlen (out_write_buf s2)) 0) as [E|E]; cbn [negb].
  - apply zlen_zero in E. rewrite E in HI2. cbn in HI2.
    apply wp_read; [eapply I_held_queue; [exact HI2|done|by rewrite E1]|].
    intros s' Hs'. by assert (s' = s2) as -> by congruence.
  - eapply wp_mono; [apply (wp_out_async_write _ _ _ _ _ _ _ 0 HI2 Hs2); [by rewrite E1|done]|].
    intros ? w3 (HI3 & s3 & Hs3 & Hst3 & Hq3). rewrite <- Hq3 in HI3.
    eapply I_held_queue; [exact HI3|done|congruence].
Qed.

Lemma wp_udp_resolve_done k w h s packet n ec results :
  I NoHold Idle k w -> taken (OpUdpResolve h packet n) h s w -> (ec = 0 -> status s <> DESTROY) ->
  wp (ss_udp_resolve_done cfg auth system_ec h packet n ec results) (fun _ w' => I NoHold Idle k w') w.
Proof.
  intros HI [Hs Hup _ _ Hl _] Hec. unfold ss_udp_resolve_done.
  destruct results as [|r rs]; [by apply wp_destroy|].
  destruct (Z.eqb_spec ec 0) as [->|]; cbn [negb]; [|by apply wp_destroy].
  destruct Hl as [Hl|Hl]; [cbn; apply Nat.eqb_refl| |by specialize (Hec eq_refl)].
  eapply wp_udp_forward; [done|done|exact Hs|done|]. apply Hup. cbn. apply Nat.eqb_refl.
Qed.

Lemma wp_timer_fired k w h s timeout ec :
  I NoHold Idle k w -> objs w !! h = Some s ->
  wp (ss_udp_timer_fired cfg auth cancel_ec h timeout ec) (fun _ w' => I NoHold Idle k w') w.
Proof.
  intros HI Hs. unfold ss_udp_timer_fired. apply wp_bind, (wp_loc_intro _ _ w h s Hs), wp_loc_getS.
  apply wp_bind, wp_gets, wp_bind, wp_loc_ask.
  destruct (UdpTimer.udp_timer_fired _ _ _ _ _ _) as [t act].
  apply wp_bind, wp_loc_modS.
  pose proof (I_ok _ _ _ _ HI h s Hs) as Hok. pose proof (I_relay _ _ _ _ HI h s Hs) as Hr.
  assert (HI1 : I NoHold Idle k (loc w h (s <| gc_timer := t |>) (pending w) [] (alloc w) (S (calls w)))).
  { apply (I_same _ _ _ _ _ s); [done|done|done|by apply (ok_irrelevant _ _ _ _ _ Hok)|done|].
    by apply (relay_ok_same _ _ _ s). }
  destruct act; [by apply wp_skip| |by apply wp_destroy].
  apply wp_loc_start_op. eapply I_local; [done|done|done|done| |done|effs_ok|done| |].
  - apply local_snoc; [by eapply local_refl|done|done].
  - apply (ok_irrelevant _ _ _ s); try done. destruct Hok.
    split; unfold down in *; cnt; try done; try (intros; cnt; try done; auto; fail).
  - rewrite app_nil_r. by apply (relay_ok_same _ _ _ s).
Qed.

(** *** Datagrams from the target *)

Lemma socks5_generate_bound ep : zlen (Socks5.generate [] ep) <= 19.
Proof.
  unfold Socks5.generate. destruct (is_unspecified _); [done|].
  destruct (ep_address ep) as [b0 b1 b2 b3|b]; cbn [fst append_char append_data]; [done|].
  change (16 =? 0) with false. cbv iota. cbn [fst]. rewrite !zlen_app.
  unfold sub_, zlen. rewrite length_take. cbn. lia.
Qed.

Lemma udp_packet_bound ep data : zlen (UDPPacket.generate_endpoint [] ep data) <= zlen data + 23.
Proof.
  unfold UDPPacket.generate_endpoint. rewrite UDPPacket.append_tail_eq.
  pose proof (socks5_generate_bound ep). rewrite !zlen_app. zlen_consts.
  change (zlen (Codec.be16 (zlen data))) with 2. lia.
Qed.

Lemma wp_udp_read_done k w i h ec data from :
  I NoHold Idle k w -> pending w !! i = Some (OpUdpRead h) -> zlen data <= udp_recv_buf cfg ->
  wp (ss_udp_read_done cfg auth cancel_ec h ec data from) (fun _ w' => I NoHold Idle k w')
    (w <| pending ::= delete i |>).
Proof.
  intros HI Hi Hlen. unfold ss_udp_read_done. apply wp_bind, (wp_finish k w i h UdpBuf); [done|done|].
  intros s Hs Hok Hsend _ Hl. specialize (Hsend ltac:(done)).
  destruct (Z.eqb_spec ec 0) as [->|Hec]; cbn [negb].
  2:{ apply wp_destroy; [|done]. apply (I_after_read k w h s UdpBuf); try done. set_solver. }
  set (s1 := after_read UdpBuf data s). set (w1 := loc _ _ _ _ _ _ _).
  assert (HI1 : I NoHold Idle k w1).
  { apply (I_after_read k w h s UdpBuf); try done. set_solver. }
  assert (Hs1 : objs w1 !! h = Some s1) by (cbn; by rewrite lookup_insert_eq).
  unfold ss_out_udp_recv. apply wp_bind, wp_getS. intros s' Hs'.
  assert (s' = s1) as -> by congruence. apply wp_when; [|done]. intros Hst. bool_facts.
  apply wp_bind. eapply wp_mono; [by apply (wp_timer NoHold Idle k w1 h s1)|].
  intros ? w2 (HI2 & (t & Hs2) & Hlg & Hc).
  pose proof (I_ok _ _ _ _ HI2 h _ Hs2) as Hok2. pose proof (I_relay _ _ _ _ HI2 h _ Hs2) as Hr2.
  apply wp_bind, (wp_loc_intro _ _ w2 h _ Hs2), wp_loc_modS, wp_bind, wp_loc_modS.
  eapply wp_in_async_write.
  - eapply I_same; [exact HI2|done|exact Hs2|by apply (ok_irrelevant _ _ _ _ _ Hok2)|done|].
    destruct Hr2 as [Hr2 _]. unfold relay in Hr2. cbn in Hr2, Hst. rewrite Hst in Hr2.
    split; [unfold relay; cbn; by rewrite Hst|cbn; congruence].
  - done.
  - cbn. by rewrite lookup_insert_eq.
  - destruct Hsend as (Hd & Hns & Hu). split; [|done].
    change (log_of (loc w2 _ _ _ _ _ _)) with (log_of w2).
    change (pending (loc w2 _ _ _ _ _ _)) with (pending w2).
    rewrite Hlg. change (log_of w1) with (log_of w). unfold down in *. rewrite !Hc by done. exact Hd.
  - pose proof (udp_packet_bound from data). unfold PipelineRequest.MAX_DATA_LENGTH. lia.
Qed.

(** ** The pipeline session *)

Lemma I_modP x m k w f :
  I x m k w ->
  (forall p, sending_data_cache (f p) = sending_data_cache p) ->
  (forall p h, h ∈ sessions (f p) -> h ∈ sessions p) ->
  (forall p, read_buf_guard (p_in_read_buf (f p)) = read_buf_guard (p_in_read_buf p)) ->
  I x m k (w <| pipe ::= f |>).
Proof.
  intros [] Hc Hs Hg. split; unfold log_of in *; cbn; rewrite ?Hc, ?Hg; eauto.
Qed.

Lemma ok_log_called l lg lg' h s :
  ok l lg h s -> tok h lg' = tok h lg - 1 -> 0 <= tok h lg' ->
  ok l lg' h s /\ may_send l lg' h s.
Proof.
  intros Hok E Ht. pose proof (cntp_nonneg (is_outr h) l). pose proof (cntp_nonneg (is_udpr h) l).
  pose proof (cntp_nonneg (is_inw h) l). pose proof (ok_down _ _ _ _ Hok) as Hd.
  assert (Hz : down l lg h s = 1 /\ down l lg' h s = 0).
  { unfold down in *. rewrite E in *. destruct (pipeline_wait_for_ack _); cbn in *; lia. }
  destruct Hz as [Hz1 Hz].
  assert (Hs1 : status s <> HANDSHAKE) by (intros Hst; destruct (ok_hs _ _ _ _ Hok Hst); lia).
  assert (Hs2 : status s = UDP_FORWARD -> udp_open s = true).
  { intros Hst. destruct (udp_open s) eqn:Eu; [done|].
    pose proof (ok_udp_closed _ _ _ _ Hok Hst Eu). lia. }
  split; [|by split_and!]. destruct Hok. split; rewrite ?Hz; auto; [lia|done].
Qed.

(** The first of the handlers left is called: it is no longer counted. *)
Definition call_mode (m : mode) (t : sent_handler) : option mode :=
  match m with
  | Busy (t' :: rem) sending => if bool_decide (t' = t) then Some (Busy rem sending) else None
  | Dead (t' :: rem) c0 => if bool_decide (t' = t) then Some (Dead rem c0) else None
  | _ => None
  end.

Lemma cache_called m m' t ec c :
  call_mode m t = Some m' -> cache_in m c ->
  cache_in m' (SendDataCache.emit (SendDataCache.Called t ec) c).
Proof.
  destruct m as [|[|t' rem] sending|[|t' rem] c0]; cbn; try done; case_bool_decide; try done;
    subst; intros [= <-]; cbn.
  - intros (H1 & H2 & H3 & H4). split_and!; try done.
    change (SendDataCache.current_recv_handler (SendDataCache.emit _ c))
      with (SendDataCache.current_recv_handler c).
    rewrite SendDataCache.registered_emit, SendDataCache.called_emit, app_nil_r, H4. solve_Permutation.
  - intros (H1 & H2 & H3). split_and!; [done| |].
    + rewrite H2 at 1. done.
    + rewrite SendDataCache.registered_emit, SendDataCache.called_emit, app_nil_r, H3. solve_Permutation.
Qed.

Lemma tok_called h t ec lg :
  tok h (lg ++ [SendDataCache.Called t ec]) = tok h lg - Zb (bool_decide (t = HInSent h)).
Proof.
  unfold tok. rewrite SendDataCache.registered_emit, SendDataCache.called_emit, app_nil_r, occ_app, occ_one.
  lia.
Qed.

Lemma I_called m m' k w t ec :
  I NoHold m k w -> call_mode m t = Some m' ->
  let w' := w <| pipe ::= fun p => p <| sending_data_cache ::= SendDataCache.emit (SendDataCache.Called t ec) |> |> in
  I NoHold m' k w' /\
  (forall h s, t = HInSent h -> objs w !! h = Some s -> may_send (pending w') (log_of w') h s).
Proof.
  intros HI Hm w'.
  pose proof (cache_called _ _ _ ec _ Hm (I_cache _ _ _ _ HI)) as Hc.
  assert (Hlog : log_of w' = log_of w ++ [SendDataCache.Called t ec]) by done.
  assert (Hok : forall h s, objs w !! h = Some s -> ok (pending w) (log_of w') h s /\
    (t = HInSent h -> may_send (pending w) (log_of w') h s)).
  { intros h s Hs. pose proof (I_ok _ _ _ _ HI h s Hs) as Hok. rewrite Hlog.
    pose proof (cache_tok_nonneg _ _ h Hc) as Ht. change (SendDataCache.log _) with (log_of w') in Ht.
    rewrite Hlog in Ht. pose proof (tok_called h t ec (log_of w)) as Et.
    destruct (decide (t = HInSent h)) as [->|Hne].
    - rewrite bool_decide_true in Et by done. cbn in Et.
      destruct (ok_log_called _ _ _ _ _ Hok Et Ht). by split.
    - rewrite bool_decide_false in Et by done. cbn in Et. rewrite Z.sub_0_r in Et.
      split; [by apply (ok_log _ _ _ _ _ Hok)|done]. }
  split; [|intros h s Ht Hs; by apply Hok].
  destruct HI. split; try done.
  - intros h s Hs. by apply Hok.
  - intros t' h. rewrite Hlog, SendDataCache.registered_emit, app_nil_r. eauto.
Qed.

Lemma I_mode x m m' k w :
  I x m k w -> cache_in m' (sending_data_cache (pipe w)) -> I x m' k w.
Proof. intros [] Hc. by split. Qed.

Lemma with_cache_false w f :
  w <| pipe ::= fun p => p <| sending_data_cache ::= f |> |> =
  with_cache w (f (sending_data_cache (pipe w))) false.
Proof. destruct w. done. Qed.

Lemma wp_mod_cache f (Q : unit -> world -> Prop) w :
  Q tt (with_cache w (f (sending_data_cache (pipe w))) false) -> wp (mod_cache f) Q w.
Proof. intros HQ. apply wp_modify. by rewrite with_cache_false. Qed.

(** A change of the cache that calls nobody. *)
Lemma I_cache_same x m m' k w c' b :
  I x m k w -> cache_in m' c' ->
  SendDataCache.registered (SendDataCache.log c') = SendDataCache.registered (log_of w) ->
  SendDataCache.called (SendDataCache.log c') = SendDataCache.called (log_of w) ->
  I x m' k (with_cache w c' b).
Proof.
  intros HI Hc Hr Hk. eapply I_cache_step; [done|done| |].
  - intros t. rewrite Hr. by left.
  - intros h s Hs Hok. apply (ok_log _ _ _ _ _ Hok). unfold tok. by rewrite Hr, Hk.
Qed.

Lemma left_registered m t m' c :
  call_mode m t = Some m' -> cache_in m c ->
  t ∈ SendDataCache.registered (SendDataCache.log c).
Proof.
  destruct m as [|[|t' rem] sending|[|t' rem] c0]; cbn; try done; case_bool_decide; try done; subst;
    intros _; [intros (_ & _ & _ & H)|intros (_ & _ & H)]; rewrite H; set_solver.
Qed.

(** The loop that calls all handlers left; [call] is told the handler is counted
    no more. *)
Lemma wp_call_loop (call : sent_handler -> HM unit) (mk : list sent_handler -> mode) ec k ts :
  (forall t ts, call_mode (mk (t :: ts)) t = Some (mk ts)) ->
  (forall m w t, I NoHold m k w ->
     (forall h, handler_this t = Some h -> exists s, objs w !! h = Some s /\ piped s = true) ->
     (forall h s, t = HInSent h -> objs w !! h = Some s -> may_send (pending w) (log_of w) h s) ->
     wp (call t) (fun _ w' => I NoHold m k w') w) ->
  forall w, I NoHold (mk ts) k w ->
  wp (for_each (fun t => mod_cache (SendDataCache.emit (SendDataCache.Called t ec)) ;;; call t) ts)
    (fun _ w' => I NoHold (mk []) k w') w.
Proof.
  intros Hmk Hcall. induction ts as [|t ts IH]; intros w HI; [by apply wp_skip|].
  cbn [for_each]. apply wp_bind, wp_bind, wp_modify.
  pose proof (left_registered _ _ _ _ (Hmk t ts) (I_cache _ _ _ _ HI)) as Hin.
  destruct (I_called _ _ _ w t ec HI (Hmk t ts)) as [HI1 Hsend].
  eapply wp_mono; [apply Hcall; [exact HI1| |exact Hsend]|].
  - intros h Hh. by apply (I_handlers _ _ _ _ HI t h).
  - intros ? w' HI'. by apply IH.
Qed.

Lemma wp_call_sent m k w t :
  I NoHold m k w ->
  (forall h, handler_this t = Some h -> exists s, objs w !! h = Some s /\ piped s = true) ->
  (forall h s, t = HInSent h -> objs w !! h = Some s -> may_send (pending w) (log_of w) h s) ->
  wp (call_sent cfg auth make_address alpn_selected system_ec cancel_ec depth t)
    (fun _ w' => I NoHold m k w') w.
Proof.
  intros HI Ht Hsend. destruct t as [h|h|].
  - destruct (Ht h eq_refl) as (s & Hs & _). eapply wp_in_sent; eauto.
  - destruct (Ht h eq_refl) as (s & Hs & Hp). apply wp_out_sent; [done|]. intros s' Hs'. congruence.
  - by apply wp_skip.
Qed.

Lemma registered_async_send (c : @SendDataCache.cache sent_handler) :
  SendDataCache.registered (SendDataCache.log (SendDataCache.async_send c)) =
  SendDataCache.registered (SendDataCache.log c).
Proof.
  unfold SendDataCache.async_send. destruct (_ || _); [done|]. cbn.
  by rewrite SendDataCache.registered_emit, app_nil_r.
Qed.
Lemma called_async_send (c : @SendDataCache.cache sent_handler) :
  SendDataCache.called (SendDataCache.log (SendDataCache.async_send c)) =
  SendDataCache.called (SendDataCache.log c).
Proof.
  unfold SendDataCache.async_send. destruct (_ || _); [done|]. cbn.
  by rewrite SendDataCache.called_emit, app_nil_r.
Qed.

Lemma dead_loop k c0 ts rest w :
  I NoHold (Dead (ts ++ rest) c0) k w ->
  wp (for_each (fun t => mod_cache (SendDataCache.emit (SendDataCache.Called t broken_pipe)) ;;;
    call_broken auth t) ts) (fun _ w' => I NoHold (Dead rest c0) k w') w.
Proof.
  intros HI. apply (wp_call_loop _ (fun ts => Dead (ts ++ rest) c0)); [| |done].
  - intros t ts'. cbn. by rewrite bool_decide_true.
  - intros m w' t HI' _ _. by apply wp_call_broken.
Qed.

Lemma wp_destroy_all l k w :
  I NoHold Idle k w -> wp (for_each (ss_destroy_by_pipeline auth) l) (fun _ w' => I NoHold Idle k w') w.
Proof.
  revert w. induction l as [|h l IH]; intros w HI; [by apply wp_skip|]. cbn [for_each].
  apply wp_bind. eapply wp_mono; [by apply (wp_destroy_by_pipeline NoHold)|].
  intros ? w' [HI' _]. by apply IH.
Qed.

(** [sending_data_cache.destroy()] *)
Lemma wp_cache_destroy k w :
  I NoHold Idle k w ->
  wp (mod_cache (fun c => c <| SendDataCache.destroyed := true |>) ;;;
      p <- getP ;;
      for_each (fun t => mod_cache (SendDataCache.emit (SendDataCache.Called t broken_pipe)) ;;;
        call_broken auth t) (SendDataCache.handler_queue_other (sending_data_cache p)) ;;;
      mod_cache (fun c => c <| SendDataCache.handler_queue_other := [] |>) ;;;
      p <- getP ;;
      for_each (fun t => mod_cache (SendDataCache.emit (SendDataCache.Called t broken_pipe)) ;;;
        call_broken auth t) (SendDataCache.handler_queue (sending_data_cache p)) ;;;
      mod_cache (fun c => c <| SendDataCache.handler_queue := [] |>))
    (fun _ w' => I NoHold Idle k w') w.
Proof.
  intros HI. set (c := sending_data_cache (pipe w)).
  pose proof (I_cache _ _ _ _ HI) as Hinv. cbn in Hinv. fold c in Hinv.
  set (c0 := c <| SendDataCache.destroyed := true |>).
  apply wp_bind, wp_mod_cache. fold c. fold c0. apply wp_bind, wp_gets. cbn [pipe with_cache sending_data_cache].
  assert (HI0 : I NoHold (Dead (SendDataCache.handler_queue_other c ++ SendDataCache.handler_queue c) c0) k
    (with_cache w c0 false)).
  { apply (I_cache_same _ Idle); [done| |done|done]. split_and!; [done|done|].
    destruct Hinv as [_ _ Hh]. cbn. rewrite Hh. f_equiv.
    rewrite <- (SendDataCache.handlers_split c). apply Permutation_app_comm. }
  apply wp_bind. eapply wp_mono; [exact (dead_loop _ _ _ _ _ HI0)|]. intros ? w1 HI1.
  pose proof (I_cache _ _ _ _ HI1) as (_ & Hc1 & Hp1).
  apply wp_bind, wp_mod_cache. set (c1 := sending_data_cache (pipe w1)) in *.
  apply wp_bind, wp_gets. cbn [pipe with_cache sending_data_cache].
  set (c2 := c1 <| SendDataCache.handler_queue_other := [] |>).
  assert (HI2 : I NoHold (Dead (SendDataCache.handler_queue c2 ++ []) c2) k (with_cache w1 c2 false)).
  { apply (I_cache_same _ (Dead (SendDataCache.handler_queue c) c0)); [done| |done|done].
    rewrite app_nil_r. split_and!; [by unfold c2; rewrite Hc1|done|].
    unfold c2. rewrite Hc1 at 3. exact Hp1. }
  apply wp_bind. eapply wp_mono; [exact (dead_loop _ _ _ _ _ HI2)|]. intros ? w3 HI3.
  pose proof (I_cache _ _ _ _ HI3) as (_ & Hc3 & Hp3).
  apply wp_mod_cache. set (c3 := sending_data_cache (pipe w3)) in *.
  apply (I_cache_same _ (Dead [] c2)); [done| |done|done].
  rewrite app_nil_r in Hp3.
  destruct Hinv as [Hf Hi _]. rewrite Hc3. unfold c2. rewrite Hc1.
  split; cbn.
  - exact Hf.
  - intros Hs. destruct (Hi Hs) as [Hq _]. unfold SendDataCache.queue_at, SendDataCache.handlers_at in *.
    cbn. split; [exact Hq|]. by destruct (negb _).
  - unfold SendDataCache.current_recv_handler, SendDataCache.handlers_at. cbn.
    rewrite Hp3. destruct (SendDataCache.current_is_first c); cbn; by rewrite app_nil_r.
Qed.

Lemma wp_ps_destroy k w :
  I NoHold Idle k w -> wp (ps_destroy auth) (fun _ w' => I NoHold Idle k w') w.
Proof.
  intros HI. unfold ps_destroy. apply wp_bind, wp_gets. case_bool_decide; [by apply wp_skip|].
  apply wp_bind, wp_modify. set (w1 := w <| pipe ::= _ |>).
  assert (HI1 : I NoHold Idle k w1) by (by apply I_modP).
  apply wp_bind. eapply wp_mono with (P := fun _ w' => I NoHold Idle k w').
  { destruct (SendDataCache.destroyed _); [by apply wp_skip|]. by apply wp_cache_destroy. }
  intros ? w2 HI2. apply wp_bind, wp_gets, wp_bind.
  eapply wp_mono; [by apply wp_destroy_all|]. intros ? w3 HI3.
  apply wp_modify, I_modP; try done. cbn. intros p h Hh. by apply not_elem_of_nil in Hh.
Qed.

Lemma wp_put_cache c c' (Q : unit -> world -> Prop) w :
  Q tt (with_cache w c' (negb (SendDataCache.is_async_sending c) && SendDataCache.is_async_sending c')) ->
  wp (put_cache c c') Q w.
Proof. intros HQ. unfold wp. by rewrite put_cache_eq. Qed.

Lemma wp_ps_write_done k w ec :
  I NoHold Idle k w ->
  wp (ps_write_done cfg auth make_address alpn_selected system_ec cancel_ec depth ec)
    (fun _ w' => I NoHold Idle k w') w.
Proof.
  intros HI. unfold ps_write_done. destruct (negb _); [by apply wp_ps_destroy|].
  apply wp_bind, wp_gets. set (c := sending_data_cache (pipe w)).
  pose proof (I_cache _ _ _ _ HI) as [Hf Hi Hh]. fold c in Hf, Hi, Hh.
  destruct (SendDataCache.flight c) as [sending|] eqn:Ef; [|by apply wp_skip].
  destruct (SendDataCache.is_async_sending c) eqn:Es; [|done]. injection Hf as ->.
  set (sending := negb (SendDataCache.current_is_first c)) in *.
  assert (HI1 : I NoHold (Busy (SendDataCache.handlers_at sending c) sending) k w).
  { eapply I_mode; [done|]. split_and!; [done|done| |done]. unfold sending. by rewrite negb_involutive. }
  apply wp_bind. eapply wp_mono.
  { apply (wp_call_loop _ (fun ts => Busy ts sending)); [| |exact HI1].
    - intros t ts. cbn. by rewrite bool_decide_true.
    - intros m w' t HI' Ht Hs. by apply wp_call_sent. }
  intros ? w1 HI2. pose proof (I_cache _ _ _ _ HI2) as (H1 & H2 & H3 & H4).
  apply wp_bind, wp_mod_cache. set (c1 := sending_data_cache (pipe w1)) in *.
  set (c2 := _ <| SendDataCache.is_async_sending := false |> <| SendDataCache.flight := None |>).
  assert (Hinv : SendDataCache.inv c2).
  { unfold c2. clearbody sending. destruct c1 as [h0 q0 h1 q1 cur sn des con fl lg]. cbn in *. subst.
    unfold SendDataCache.current_recv_handler in H4.
    destruct sending; cbn in *; (split; cbn; [done| |exact H4]); intros _; by rewrite consume_all_nil. }
  assert (Hlog : SendDataCache.log c2 = SendDataCache.log c1).
  { unfold c2. by destruct sending. }
  assert (HI3 : I NoHold Idle k (with_cache w1 c2 false)).
  { apply (I_cache_same _ (Busy [] sending)); [done|done|by rewrite Hlog|by rewrite Hlog]. }
  apply wp_bind, wp_gets, wp_put_cache.
  apply (I_cache_same _ Idle); [done| |apply registered_async_send|apply called_async_send].
  by apply SendDataCache.async_send_inv.
Qed.

Lemma ptok_zero_guard w :
  cntp is_ptok (pending w) = 0 -> cntp is_pread (pending w) = 0.
Proof.
  intros H. pose proof (cntp_nonneg is_pread (pending w)).
  assert (cntp is_pread (pending w) <= cntp is_ptok (pending w)) by (apply cntp_le; by intros []).
  lia.
Qed.

Lemma ok_pread l lg h s : ok l lg h s -> ok (l ++ [OpPRead]) lg h s.
Proof.
  apply ok_other. intros f Hf. rewrite cntp_app, cntp_one, (Hf OpPRead) by done. cbn. lia.
Qed.

Lemma wp_ps_in_async_read w :
  I NoHold Idle 0 w -> wp ps_in_async_read (fun _ w' => I NoHold Idle 1 w') w.
Proof.
  intros HI. unfold ps_in_async_read. apply wp_bind, wp_gets.
  assert (Hg : read_buf_guard (p_in_read_buf (pipe w)) = false).
  { pose proof (I_pread _ _ _ _ HI) as H. rewrite ptok_zero_guard in H by apply HI.
    by destruct (read_buf_guard _). }
  apply wp_bind. eapply wp_lift_ok; [by apply begin_read_ok|].
  apply wp_bind, wp_modify, wp_modify. pose proof (I_ptok _ _ _ _ HI) as Hk.
  pose proof (ptok_zero_guard w Hk) as Hz. destruct HI. split; unfold log_of in *; cbn; eauto.
  - intros h s Hs. by apply ok_pread, I_ok0.
  - intros o h [Hin|Hin]%elem_of_app Ho; [eauto|]. by apply list_elem_of_singleton in Hin as ->.
  - intros o b [Hin|Hin]%elem_of_app Ho; [eauto|]. by apply list_elem_of_singleton in Hin as ->.
  - rewrite cntp_app, cntp_one, Hk. done.
  - rewrite cntp_app, cntp_one, Hz. done.
Qed.

(** *** New sessions *)

Lemma fresh_counts x m k w h :
  I x m k w -> objs w !! h = None ->
  (forall f, (forall o, op_this o <> Some h -> f o = false) -> cntp f (pending w) = 0) /\
  tok h (log_of w) = 0 /\ ins h (trace w) = [] /\ outs h (trace w) = [].
Proof.
  intros HI Hn. split_and!.
  - intros f Hf. apply cntp_zero. intros o Ho. apply Hf. intros E.
    destruct (I_ops _ _ _ _ HI o h Ho E). congruence.
  - assert (Hz : HInSent h ∉ SendDataCache.registered (log_of w)).
    { intros Hin. destruct (I_handlers _ _ _ _ HI _ h Hin eq_refl) as (s & Hs & _). congruence. }
    unfold tok. rewrite !occ_zero; [done| |done].
    intros Hin. by apply Hz, (called_registered m _ _ (I_cache _ _ _ _ HI)).
  - apply ins_other. intros e He E. destruct (I_effs _ _ _ _ HI e h He E). congruence.
  - apply outs_other. intros e He E. destruct (I_effs _ _ _ _ HI e h He E). congruence.
Qed.

Definition fresh_session (s : ServerSession) : Prop :=
  status s = HANDSHAKE /\ has_queried_out s = false /\ out_write_buf s = [] /\ udp_open s = false /\
  in_read_buf s = new_read_buf /\ out_read_buf s = new_read_buf /\ udp_read_buf s = new_read_buf /\
  queue s = [] /\ pipeline_wait_for_ack (pipeline_com s) = false.

Lemma I_fresh m k w h s c effs x :
  I NoHold m k w -> objs w !! h = None -> fresh_session s -> near x h ->
  (forall e, e ∈ effs -> eff_this e = Some h) ->
  relay_ok x (trace w ++ effs) h s ->
  I x m k (loc w h s (pending w) effs (alloc w) c).
Proof.
  intros HI Hn (F1 & F2 & F3 & F4 & F5 & F6 & F7 & F8 & F9) Hx He Hr.
  destruct (fresh_counts _ _ _ _ _ HI Hn) as (Hc & Ht & _ & _).
  assert (C : forall f, f = is_in h \/ f = is_outr h \/ f = is_udpr h \/ f = is_inw h \/
    f = is_conn h \/ f = is_up h \/ f = is_udpres h -> cntp f (pending w) = 0).
  { intros f Hf. apply Hc. intros o Ho.
    naive_solver (destruct o; try done; cbn in *; apply Nat.eqb_neq; congruence). }
  assert (Hd : down (pending w) (log_of w) h s = 0).
  { unfold down. rewrite !C, Ht, F9 by tauto. done. }
  assert (Hne : forall h' s', objs w !! h' = Some s' -> <[h:=s]> (objs w) !! h' = Some s').
  { intros h' s' Hs'. rewrite lookup_insert_ne; [done|]. intros ->. congruence. }
  destruct HI. split; unfold log_of in *; cbn.
  - intros h' s'. rewrite lookup_insert. case_decide; [|eauto]. intros [= <-]. subst h'.
    split; rewrite ?Hd, ?C, ?F5, ?F6, ?F7, ?F8 by tauto; cbn; auto; try done; try lia. congruence.
  - intros h' s'. rewrite lookup_insert. case_decide as Hh.
    + intros [= <-]. by subst.
    + intros Hs'. eapply (relay_ok_other NoHold x _ _ h); [done|done|done| |by apply I_relay0].
      intros e Hin. left. by apply He.
  - intros o h' Ho Hh'. destruct (I_ops0 o h' Ho Hh') as [s' Hs']. eauto.
  - intros e h' [Hin|Hin]%elem_of_app Hh'.
    + destruct (I_effs0 e h' Hin Hh') as [s' Hs']. eauto.
    + rewrite (He e Hin) in Hh'. injection Hh' as <-. rewrite lookup_insert_eq. eauto.
  - intros t h' Hin Hh'. destruct (I_handlers0 t h' Hin Hh') as (s' & Hs' & Hp). eauto.
  - intros h' Hin. destruct (I_sessions0 h' Hin) as (s' & Hs' & Hp). eauto.
  - done.
  - done.
  - done.
  - done.
  - done.
Qed.

Lemma insert_loc w h s :
  w <| objs ::= <[h := s]> |> = loc w h s (pending w) [] (alloc w) (calls w).
Proof. unfold loc. rewrite app_nil_r. by destruct w. Qed.

Lemma fresh_none w : objs w !! fresh (dom (objs w) : gset nat) = None.
Proof. apply not_elem_of_dom, is_fresh. Qed.

Lemma relay_fresh m k w h s :
  I NoHold m k w -> objs w !! h = None -> fresh_session s ->
  (piped s = true -> waits s = true) -> relay_rest (trace w ++ []) h s.
Proof.
  intros HI Hn (F1 & F2 & F3 & _ & _ & _ & _ & F8 & _) Hw.
  destruct (fresh_counts _ _ _ _ _ HI Hn) as (_ & _ & Hi & Ho). rewrite app_nil_r.
  split; [|by rewrite Hi]. unfold relay. rewrite F1, F2, F3, F8, Hi, Ho. eauto.
Qed.

Lemma new_session_fresh : fresh_session (new_ServerSession cfg).
Proof. by repeat split. Qed.

Lemma wp_accept k w :
  I NoHold Idle k w ->
  wp (accept cfg auth make_address alpn_selected system_ec remote_ec cancel_ec depth)
    (fun _ w' => I NoHold Idle k w') w.
Proof.
  intros HI. unfold accept. apply wp_bind, wp_gets. cbn [id].
  set (h := fresh _). pose proof (fresh_none w) as Hn. fold h in Hn.
  apply wp_bind, wp_modify. rewrite insert_loc. unfold ss_start.
  apply wp_bind, wp_loc_using. change (piped (new_ServerSession cfg)) with false. cbn iota.
  apply wp_bind, wp_loc_ask.
  assert (HI1 : I NoHold Idle k (loc w h (new_ServerSession cfg) (pending w) [] (alloc w) (S (calls w)))).
  { apply I_fresh; [done|done|apply new_session_fresh|done|effs_ok|].
    eapply relay_fresh; [done|done|apply new_session_fresh|done]. }
  destruct (negb _); [by apply wp_destroy|]. set (w1 := loc _ _ _ _ _ _ _) in *.
  assert (Hs1 : objs w1 !! h = Some (new_ServerSession cfg)) by (cbn; by rewrite lookup_insert_eq).
  destruct (fresh_counts _ _ _ _ _ HI Hn) as (Hc & _).
  apply (wp_loc_intro _ _ w1 h _ Hs1), wp_loc_start_op.
  pose proof (I_ok _ _ _ _ HI1 h _ Hs1) as Hok. pose proof (I_relay _ _ _ _ HI1 h _ Hs1) as Hr.
  eapply I_local; [done|done|done|done| |done|effs_ok|done| |].
  - apply local_snoc; [by eapply local_refl|done|done].
  - assert (Hu : cntp (is_up h) (pending w1) = 0).
    { apply Hc. intros [] Ho; try done; cbn in *; apply Nat.eqb_neq; congruence. }
    destruct Hok. split; unfold down in *; cnt; try done; try (intros; cnt; try done; auto; fail).
  - by rewrite app_nil_r.
Qed.

Lemma I_list x m k w h s :
  I x m k w -> objs w !! h = Some s -> piped s = true ->
  I x m k (w <| pipe ::= fun p => p <| sessions ::= fun l => l ++ [h] |> |>).
Proof.
  intros [] Hs Hp. split; unfold log_of in *; cbn; eauto.
  intros h' [Hin|Hin]%elem_of_app; [eauto|]. apply list_elem_of_singleton in Hin as ->. eauto.
Qed.

Lemma wp_new_session k w sid :
  I NoHold Idle k w ->
  wp (ps_new_session cfg auth make_address alpn_selected system_ec remote_ec cancel_ec depth sid)
    (fun _ w' => I NoHold Idle k w') w.
Proof.
  intros HI. unfold ps_new_session. apply wp_bind, wp_gets. cbn [id]. cbv zeta.
  set (h := fresh _). pose proof (fresh_none w) as Hn. fold h in Hn.
  set (s := _ <| pipeline_com ::= set_use_pipeline |>).
  apply wp_bind, wp_modify. rewrite insert_loc. unfold ss_start.
  apply wp_bind, wp_bind, wp_loc_using. change (piped s) with true. cbn iota.
  unfold ss_in_async_read. destruct depth as [|d]; [unfold MAX_BUF_LENGTH in *; lia|]. cbn [ss_in_async_read_].
  apply wp_bind, wp_loc_getS. change (m_is_use_pipeline (pipeline_com s)) with true. cbn iota.
  cbn [ReadDataCache.async_read_begin]. apply wp_loc_modCom, wp_modify.
  set (s1 := s <| pipeline_com ::= _ |>).
  assert (Hf : fresh_session s1) by by repeat split.
  eapply (I_list _ _ _ _ h s1); [|cbn; by rewrite lookup_insert_eq|done].
  apply I_fresh; [done|done|done|done|effs_ok|]. by eapply relay_fresh.
Qed.

(** More data of a session that is not reading. *)
Lemma relay_queued tr h s s' data :
  relay_rest tr h s -> status s' = status s -> has_queried_out s' = has_queried_out s ->
  out_write_buf s' = out_write_buf s -> piped s = true -> waits s = false ->
  queue s' = queue s ++ data -> relay_rest (tr ++ [InData h data]) h s'.
Proof.
  intros [Hr Hq] E1 E2 E3 Hp Hw E4.
  assert (Hx : status s = HANDSHAKE -> has_queried_out s = true).
  { intros Hst. destruct (has_queried_out s) eqn:E; [done|]. destruct (Hq Hst eq_refl) as [_ Hw'].
    rewrite Hw' in Hw; done. }
  unfold relay_rest, relay in *. rewrite ins_app, outs_app, E1, E2, E3, E4. cbn.
  rewrite Nat.eqb_refl, !app_nil_r. destruct (status s).
  - rewrite Hx in * by done. destruct Hr as (Ho & Hn & Hr). split; [|done]. split; [done|].
    split; [by destruct (ins h tr)|]. by rewrite relayed_snoc, <- Hr, app_assoc by done.
  - destruct Hr as (Hn & Hr). split; [|done]. split; [by destruct (ins h tr)|].
    by rewrite relayed_snoc, <- Hr, app_assoc by done.
  - done.
  - split; [|done]. destruct (ins h tr) as [|c cs] eqn:E.
    + cbn in Hr. apply prefix_nil_inv in Hr. rewrite Hr. apply prefix_nil.
    + rewrite relayed_snoc by done. by apply prefix_app_r.
Qed.

Lemma relay_any_com tr h s com q data :
  relay q (tr ++ [InData h data]) h s -> relay q (tr ++ [InData h data]) h (s <| pipeline_com := com |>).
Proof. done. Qed.

Lemma wp_pipeline_in_recv k w h s data :
  I NoHold Idle k w -> objs w !! h = Some s -> piped s = true ->
  wp (ss_pipeline_in_recv cfg auth make_address alpn_selected system_ec cancel_ec depth h data)
    (fun _ w' => I NoHold Idle k w') w.
Proof.
  intros HI Hs Hp. pose proof (I_ok _ _ _ _ HI h s Hs) as Hok.
  pose proof (I_relay _ _ _ _ HI h s Hs) as Hr.
  unfold ss_pipeline_in_recv. apply wp_bind, (wp_loc_intro _ _ w h s Hs), wp_loc_getS.
  apply wp_bind, wp_loc_emit. unfold pipeline_in_recv, ReadDataCache.push_data.
  unfold piped in Hp. rewrite Hp. cbn [negb]. cbn [app].
  destruct (ReadDataCache.is_waiting (pipeline_data_cache (pipeline_com s))) eqn:Ew.
  - apply wp_bind, wp_lift; [done|done|]. intros r [= <-]. cbn [fst snd].
    apply wp_bind, wp_loc_modS. set (s1 := s <| pipeline_com := _ |>). set (w1 := loc _ _ _ _ _ _ _).
    pose proof (ok_waits _ _ _ _ Hok Ew) as Hq.
    assert (HI1 : I (Held h data) Idle k w1).
    { eapply I_local; [exact HI|done|done|done|by eapply local_refl|done|effs_ok|done| |].
      - destruct Hok. split; unfold down, waits, queue, piped in *; cbn in *; auto; try done.
      - cbn [relay_ok]. rewrite Nat.eqb_refl. by apply relay_any_com, relay_new_chunk. }
    assert (Hs1 : objs w1 !! h = Some s1) by (cbn; by rewrite lookup_insert_eq).
    eapply wp_mono; [apply (wp_in_recv _ _ Idle k w1 h s1 data 1 (rd_ok_read h) ltac:(lia) HI1 Hs1)|].
    + intros Hc. unfold piped in Hc. cbn in Hc. congruence.
    + intros H1 H2. destruct Hr as [_ Hr]. change (trace w1) with (trace w ++ [InData h data]).
      rewrite ins_app. destruct (Hr H1 H2) as [-> _]. cbn. by rewrite Nat.eqb_refl.
    + intros ? w2 [HI2 Hq2]. apply (I_given _ _ _ h); [done|].
      intros s2 Hs2. destruct (Hq2 s2 Hs2) as [|E]; [by left|right]. by rewrite E.
  - apply wp_bind, wp_lift; [done|done|]. intros r [= <-]. cbn [fst snd].
    apply wp_bind, wp_loc_modS, wp_skip.
    eapply I_local; [exact HI|done|done|done|by eapply local_refl|done|effs_ok|done| |].
    + destruct Hok. split; unfold down, waits, queue, piped in *; cbn in *; auto; try congruence.
    + cbn [relay_ok]. apply (relay_queued _ _ s); try done. unfold queue. cbn. by rewrite append_view_eq.
Qed.

Lemma wp_command k w req :
  I NoHold Idle k w ->
  wp (ps_command cfg auth make_address alpn_selected system_ec remote_ec cancel_ec depth req)
    (fun _ w' => I NoHold Idle k w') w.
Proof.
  intros HI. unfold ps_command.
  assert (Hclose : forall h, wp (ss_destroy_by_pipeline auth h ;;; ps_erase h)
    (fun _ w' => I NoHold Idle k w') w).
  { intros h. apply wp_bind. eapply wp_mono; [by apply (wp_destroy_by_pipeline NoHold)|].
    intros ? w1 [HI1 _]. by apply I_erase. }
  destruct (PipelineRequest.command req).
  - apply wp_bind. eapply wp_mono with (P := fun _ w' => I NoHold Idle k w').
    { apply wp_find; [|done]. intros h s _ _ _. apply Hclose. }
    intros ? w1 HI1. apply wp_bind. eapply wp_mono; [by apply wp_new_session|].
    intros ? w2 HI2. by apply wp_ret.
  - apply wp_bind. eapply wp_mono with (P := fun _ w' => I NoHold Idle k w').
    { apply wp_find; [|done]. intros h s Hin Hs _.
      destruct (I_sessions _ _ _ _ HI h Hin) as (s' & Hs' & Hp). by eapply wp_pipeline_in_recv. }
    intros ? w1 HI1. by apply wp_ret.
  - apply wp_bind. eapply wp_mono with (P := fun _ w' => I NoHold Idle k w').
    { apply wp_find; [|done]. intros h s Hin Hs _.
      pose proof (I_ok _ _ _ _ HI h s Hs) as Hok. pose proof (I_relay _ _ _ _ HI h s Hs) as Hr.
      apply wp_bind, (wp_loc_intro _ _ w h s Hs), wp_loc_modCom.
      set (s1 := s <| pipeline_com ::= _ |>). set (w1 := loc _ _ _ _ _ _ _).
      assert (HI1 : I NoHold Idle k w1).
      { apply (I_same _ _ _ _ _ s); [done|done|done| |done|].
        - destruct Hok. split; unfold down, waits, queue, piped in *; cbn in *; auto.
        - by apply (relay_ok_same _ _ _ s). }
      assert (Hs1 : objs w1 !! h = Some s1) by (cbn; by rewrite lookup_insert_eq).
      apply wp_bind, wp_getS. intros s' Hs'. assert (s' = s1) as -> by congruence.
      apply wp_when; [|done]. intros Hw. pose proof (I_ok _ _ _ _ HI1 h s1 Hs1) as Hok1.
      pose proof (cache_tok_nonneg _ _ h (I_cache _ _ _ _ HI1)) as Ht. fold (log_of w1) in Ht.
      pose proof (cntp_nonneg (is_outr h) (pending w1)). pose proof (cntp_nonneg (is_udpr h) (pending w1)).
      pose proof (cntp_nonneg (is_inw h) (pending w1)). pose proof (ok_down _ _ _ _ Hok1) as Hd.
      assert (Hd1 : down (pending w1) (log_of w1) h s1 = 1) by (unfold down in *; rewrite Hw in *; cbn in *; lia).
      eapply wp_mono; [apply (wp_out_async_read NoHold Idle k w1 h s1 HI1); [done|done| | |]|].
      - intros Hst. destruct (ok_hs _ _ _ _ Hok1 Hst). lia.
      - intros Hst. destruct (udp_open s1) eqn:Eu; [done|].
        pose proof (ok_udp_closed _ _ _ _ Hok1 Hst Eu). lia.
      - by rewrite Hd1, Hw.
      - by intros ? w2 [HI2 _]. }
    intros ? w1 HI1. by apply wp_ret.
  - apply wp_bind. eapply wp_mono with (P := fun _ w' => I NoHold Idle k w').
    { apply wp_find; [|done]. intros h s Hin Hs _. apply wp_bind, wp_getS. intros s' Hs'.
      assert (s' = s) as -> by congruence. destruct (canbe_closed_by_pipeline _); [apply Hclose|].
      pose proof (I_ok _ _ _ _ HI h s Hs) as Hok. pose proof (I_relay _ _ _ _ HI h s Hs) as Hr.
      apply (wp_loc_intro _ _ w h s Hs), wp_loc_modCom.
      apply (I_same _ _ _ _ _ s); [done|done|done| |done|].
      - destruct Hok. split; unfold down, waits, queue, piped in *; cbn in *; auto.
      - by apply (relay_ok_same _ _ _ s). }
    intros ? w1 HI1. by apply wp_ret.
  - apply wp_bind, wp_gets, wp_bind. apply wp_when; [|intros _; by apply wp_ret].
    intros _. apply wp_modify, wp_ret. destruct HI. split; cbn; try done.
    + intros h s Hs. apply (relay_ok_quiet NoHold); [|by apply I_relay0].
      intros e Hin. by apply list_elem_of_singleton in Hin as ->.
    + intros e h [Hin|Hin]%elem_of_app He; [eauto|]. by apply list_elem_of_singleton in Hin as ->.
Qed.

(** *** The loop over the commands of one read *)

Notation handle := (ps_handle cfg auth make_address alpn_selected system_ec remote_ec cancel_ec depth).

Lemma drain_keeps k fuel buf w :
  I NoHold Idle k w ->
  match PipelineRequest.drain handle fuel buf w with
  | Ret (w', _, _) => I NoHold Idle k w'
  | Throw _ => False
  | Undef u => u = octet03 \/ u = NoObject
  end.
Proof.
  revert buf w. induction fuel as [|fuel IH]; intros buf w HI; cbn [PipelineRequest.drain]; [done|].
  destruct (zlen buf =? 0); [done|].
  destruct (PipelineRequest.command_parse_total buf) as [[r req] E]. rewrite E. cbn [obind].
  destruct (Z.eqb_spec r (-1)); [done|]. destruct (Z.eqb_spec r (-2)); [done|].
  destruct req as [req|]; [|by destruct (PipelineRequest.parse_None_code _ _ E)].
  pose proof (wp_command k w req HI) as Hw. unfold wp in Hw. unfold ps_handle.
  destruct (ps_command _ _ _ _ _ _ _ _ req w) as [[go w1]|e|]; cbn [obind]; [|done|done].
  destruct go; [by apply IH|done].
Qed.

(** After a read is handled at most one more is in progress. *)
Definition kept (w : world) : Prop := exists k, 0 <= k <= 1 /\ I NoHold Idle k w.

Lemma kept_intro k w : I NoHold Idle k w -> 0 <= k <= 1 -> kept w.
Proof. intros HI Hk. by exists k. Qed.

Lemma wp_process_streaming_data w :
  I NoHold Idle 0 w ->
  wp (ps_process_streaming_data cfg auth make_address alpn_selected system_ec remote_ec cancel_ec depth)
    (fun _ w' => kept w') w.
Proof.
  intros HI. unfold ps_process_streaming_data. apply wp_bind, wp_gets, wp_bind.
  set (buf := read_buf _). pose proof (drain_keeps 0 (S (length buf)) buf w HI) as Hd.
  unfold wp at 1. destruct (PipelineRequest.drain _ _ _ _) as [[[w1 rest] e]| |]; [|done|done].
  set (w2 := w1 <| pipe ::= _ |>). assert (HI2 : I NoHold Idle 0 w2) by (by apply I_modP).
  destruct e.
  - eapply wp_mono; [by apply wp_ps_in_async_read|]. intros ? w3 HI3. exact (kept_intro _ _ HI3 ltac:(lia)).
  - eapply wp_mono; [by apply wp_ps_destroy|]. intros ? w3 HI3. exact (kept_intro _ _ HI3 ltac:(lia)).
  - apply wp_skip. exact (kept_intro _ _ HI2 ltac:(lia)).
  - apply wp_skip. exact (kept_intro _ _ HI2 ltac:(lia)).
Qed.

(** *** Handing the connection to a session of its own *)

Hypothesis remote_ok : forall n, remote_ec n = 0.

Lemma wp_move_socket k w data :
  I NoHold Idle k w ->
  wp (ps_move_socket_to_serversession cfg auth make_address alpn_selected system_ec remote_ec
        cancel_ec depth data) (fun _ w' => I NoHold Idle k w') w.
Proof.
  intros HI. unfold ps_move_socket_to_serversession. apply wp_bind, wp_gets. cbn [id].
  set (h := fresh _). pose proof (fresh_none w) as Hn. fold h in Hn.
  apply wp_bind. unfold ask at 1, wp at 1. rewrite remote_ok. cbn [Z.eqb negb].
  set (w0 := w <| calls ::= S |>).
  assert (HI0 : I NoHold Idle k w0) by (destruct HI; by split).
  apply wp_bind, wp_modify. rewrite insert_loc. apply wp_bind, wp_loc_emit.
  set (s := new_ServerSession cfg). set (w1 := loc _ _ _ _ _ _ _).
  destruct (fresh_counts _ _ _ _ _ HI0 Hn) as (Hc & _ & Hi & Ho).
  assert (HI1 : I (Held h data) Idle k w1).
  { apply I_fresh; [done|done|apply new_session_fresh|done|effs_ok|].
    cbn [relay_ok]. rewrite Nat.eqb_refl. unfold relay. rewrite ins_app, outs_app, Hi, Ho. cbn.
    rewrite Nat.eqb_refl. auto. }
  assert (Hs1 : objs w1 !! h = Some s) by (cbn; by rewrite lookup_insert_eq).
  apply wp_bind. eapply wp_mono.
  { apply (wp_in_recv _ _ Idle k w1 h s data 0 (rd_ok_read h) ltac:(lia) HI1 Hs1).
    - intros _. apply Hc. intros [] He; try done; cbn in *; apply Nat.eqb_neq; congruence.
    - intros _ _. change (trace w1) with (trace w0 ++ [InData h data]). rewrite ins_app, Hi.
      cbn. by rewrite Nat.eqb_refl. }
  intros ? w2 [HI2 Hq2].
  assert (HI3 : I NoHold Idle k w2).
  { apply (I_given _ _ _ h); [done|]. intros s2 Hs2. by apply Hq2. }
  apply wp_bind, wp_modify, wp_ps_destroy, I_modP; done.
Qed.

Lemma wp_ps_in_recv w :
  I NoHold Idle 0 w ->
  wp (ps_in_recv cfg auth make_address alpn_selected system_ec remote_ec cancel_ec depth)
    (fun _ w' => kept w') w.
Proof.
  intros HI. unfold ps_in_recv. apply wp_bind, wp_gets.
  assert (Hmove : forall d, wp (ps_move_socket_to_serversession cfg auth make_address alpn_selected
    system_ec remote_ec cancel_ec depth d) (fun _ w' => kept w') w).
  { intros d. eapply wp_mono; [by apply wp_move_socket|]. intros ? w1 HI1.
    exact (kept_intro _ _ HI1 ltac:(lia)). }
  destruct (p_status _); [|by apply wp_process_streaming_data|apply wp_skip, (kept_intro 0); [done|lia]].
  destruct (find_ _ _) as [npos|] eqn:Ef.
  - assert (exists pw pl rest, Session.password cfg = (pw, pl) :: rest) as (pw & pl & rest & ->).
    { destruct (Session.password cfg) as [|[] ?]; [done|eauto]. }
    apply find_range in Ef. change (zlen CRLF) with 2 in Ef. apply wp_bind. eapply wp_lift_ok; [apply substr_ok; lia|]. destruct (negb _); [apply Hmove|].
    apply wp_bind, wp_modify, wp_bind, wp_modify, wp_process_streaming_data.
    by apply I_modP; [apply I_modP|..].
  - destruct (_ <? _); [|apply Hmove].
    eapply wp_mono; [by apply wp_ps_in_async_read|]. intros ? w1 HI1.
    exact (kept_intro _ _ HI1 ltac:(lia)).
Qed.

(** *** The end of an operation of the pipeline session *)

Lemma elem_delete {A} i (l : list A) x : x ∈ delete i l -> x ∈ l.
Proof.
  rewrite delete_take_drop. intros [H|H]%elem_of_app.
  - by eapply elem_of_take in H as (? & ? & _); eapply list_elem_of_lookup_2.
  - apply list_elem_of_lookup in H as [j Hj]. rewrite lookup_drop in Hj. by eapply list_elem_of_lookup_2.
Qed.

Lemma I_delete_p k k' w g i o :
  I NoHold Idle k w -> pending w !! i = Some o -> op_this o = None ->
  k' = k - Zb (is_ptok o) ->
  (forall p, sending_data_cache (g p) = sending_data_cache p /\ sessions (g p) = sessions p) ->
  Zb (read_buf_guard (p_in_read_buf (g (pipe w)))) =
    Zb (read_buf_guard (p_in_read_buf (pipe w))) - Zb (is_pread o) ->
  I NoHold Idle k' (w <| pending ::= delete i |> <| pipe ::= g |>).
Proof.
  intros HI Hi Ho -> Hg Hr. destruct (Hg (pipe w)) as [Hg1 Hg2].
  destruct HI. split; unfold log_of in *; cbn; rewrite ?Hg1, ?Hg2; eauto using elem_delete.
  - intros h s Hs. apply (ok_other (pending w)); [|auto]. intros f Hf.
    rewrite (cntp_delete _ _ _ _ Hi), (Hf o) by (by rewrite Ho). cbn. lia.
  - rewrite (cntp_delete _ _ _ _ Hi). lia.
  - rewrite (cntp_delete _ _ _ _ Hi). lia.
Qed.

Lemma pipe_id (w : world) : w = w <| pipe ::= fun p => p |>.
Proof. by destruct w. Qed.

Lemma I_take_p k w i o :
  I NoHold Idle k w -> pending w !! i = Some o -> op_this o = None -> is_pread o = false ->
  I NoHold Idle (k - Zb (is_ptok o)) (w <| pending ::= delete i |>).
Proof.
  intros HI Hi Ho Hp. rewrite (pipe_id (w <| pending ::= delete i |>)).
  apply (I_delete_p k _ w (fun p => p) i o); try done. rewrite Hp. cbn. lia.
Qed.

Lemma take_ptok w i o k :
  I NoHold Idle k w -> k <= 1 -> pending w !! i = Some o -> is_ptok o = true -> k = 1.
Proof.
  intros HI Hk Hi Hp. rewrite <- (I_ptok _ _ _ _ HI) in *.
  assert (1 <= cntp is_ptok (pending w)); [|lia].
  eapply cntp_elem; [by eapply list_elem_of_lookup_2|done].
Qed.

Lemma wp_ps_read_done w i ec data :
  kept w -> pending w !! i = Some OpPRead ->
  wp (ps_read_done cfg auth make_address alpn_selected system_ec remote_ec cancel_ec depth ec data)
    (fun _ w' => kept w') (w <| pending ::= delete i |>).
Proof.
  intros (k & Hk & HI) Hi. assert (k = 1) as -> by (by eapply take_ptok; eauto; lia).
  unfold ps_read_done. apply wp_bind, wp_modify. set (w1 := w <| pending ::= _ |> <| pipe ::= _ |>).
  assert (HI1 : I NoHold Idle 0 w1).
  { assert (Hg : read_buf_guard (p_in_read_buf (pipe w)) = true).
    { pose proof (I_pread _ _ _ _ HI) as H. destruct (read_buf_guard _); [done|].
      pose proof (cntp_elem is_pread _ _ (list_elem_of_lookup_2 _ _ _ Hi) eq_refl). cbn in H. lia. }
    apply (I_delete_p 1 _ w _ i OpPRead); try done. cbn. by rewrite Hg. }
  destruct (negb _).
  - eapply wp_mono; [by apply wp_ps_destroy|]. intros ? w2 HI2. exact (kept_intro _ _ HI2 ltac:(lia)).
  - apply wp_bind, wp_modify, wp_ps_in_recv. by apply I_modP.
Qed.

Lemma wp_ps_handshake_done w i ec http :
  kept w -> pending w !! i = Some OpPHandshake ->
  wp (ps_handshake_done cfg auth ec http) (fun _ w' => kept w') (w <| pending ::= delete i |>).
Proof.
  intros (k & Hk & HI) Hi. assert (k = 1) as -> by (by eapply take_ptok; eauto; lia).
  pose proof (I_take_p _ _ _ _ HI Hi eq_refl eq_refl) as HI1. cbn [is_ptok Zb Z.sub] in HI1.
  set (w1 := w <| pending ::= delete i |>) in *.
  unfold ps_handshake_done. destruct (negb _).
  - destruct (_ && _).
    + apply wp_bind, wp_modify, wp_modify, (kept_intro 0); [|lia].
      destruct HI1. split; unfold log_of in *; cbn; eauto.
      * intros h s Hs. apply (ok_other (pending w1)); [|by apply I_ok0]. intros f Hf.
        rewrite cntp_app, cntp_one, (Hf OpPPlainHttp) by done. cbn. lia.
      * intros h s Hs. apply (relay_ok_quiet NoHold); [|by apply I_relay0].
        intros e Hin. by apply list_elem_of_singleton in Hin as ->.
      * intros o h [Hin|Hin]%elem_of_app Ho; [eauto|]. by apply list_elem_of_singleton in Hin as ->.
      * intros e h [Hin|Hin]%elem_of_app He; [eauto|]. by apply list_elem_of_singleton in Hin as ->.
      * intros o b [Hin|Hin]%elem_of_app Ho; [eauto|]. by apply list_elem_of_singleton in Hin as ->.
      * rewrite cntp_app, cntp_one. cbn in *. lia.
      * rewrite cntp_app, cntp_one. cbn in *. lia.
    + eapply wp_mono; [by apply wp_ps_destroy|]. intros ? w2 HI2. exact (kept_intro _ _ HI2 ltac:(lia)).
  - eapply wp_mono; [by apply wp_ps_in_async_read|]. intros ? w2 HI2. exact (kept_intro _ _ HI2 ltac:(lia)).
Qed.

(** ** Runs *)

(** A connection or a name resolution that succeeds for a destroyed session. *)
Definition late_success (w : world) (e : event) : bool :=
  match e with
  | Complete i c =>
    match pending w !! i, c with
    | Some (OpConnect h), Done ec | Some (OpUdpResolve h _ _), Resolved ec _ =>
      (ec =? 0) && match objs w !! h with
                   | Some s => bool_decide (status s = DESTROY)
                   | None => false
                   end
    | _, _ => false
    end
  | _ => false
  end.

Lemma wp_session_done w i o h c :
  kept w -> pending w !! i = Some o -> op_this o = Some h -> answers cfg o c = true ->
  late_success w (Complete i c) = false ->
  wp (complete cfg auth make_address alpn_selected system_ec remote_ec cancel_ec depth o c)
    (fun _ w' => kept w') (w <| pending ::= delete i |>).
Proof.
  intros (k & Hk & HI) Hi Ho Ha Hl.
  eapply wp_mono with (P := fun _ w' => I NoHold Idle k w'); [|intros ? w' HI'; exact (kept_intro _ _ HI' Hk)].
  destruct (is_read o) eqn:Hr.
  - destruct o; try done; cbn in Ho; injection Ho as ->; destruct c; try done; cbn in Ha; cbn [complete].
    + by apply wp_in_read_done.
    + apply wp_out_read_done; [done|done|lia].
    + apply wp_udp_read_done; [done|done|lia].
  - destruct (take_op _ _ _ _ _ HI Hi Ho Hr) as (s & Ht & HI1).
    pose proof (tk_s _ _ _ _ Ht) as Hs. cbn in Hs.
    assert (Hd : forall ec, (ec =? 0) && match objs w !! h with
      | Some s => bool_decide (status s = DESTROY) | None => false end = false ->
      ec = 0 -> status s <> DESTROY).
    { intros ec H -> E. rewrite Hs, bool_decide_true in H; done. }
    unfold late_success in Hl. rewrite Hi in Hl.
    destruct o; try done; cbn in Ho; injection Ho as ->; destruct c; try done; cbn [complete].
    + by eapply wp_handshake_done.
    + by apply wp_destroy.
    + by eapply wp_in_write_done.
    + by eapply wp_out_write_done.
    + by eapply wp_udp_write_done.
    + by eapply wp_resolve_done.
    + eapply wp_connect_done; eauto.
    + destruct (_ =? 0); [by apply wp_destroy|by apply wp_skip].
    + eapply wp_udp_resolve_done; eauto.
    + by eapply wp_timer_fired.
Qed.

Lemma wp_pipeline_done w i o c :
  kept w -> pending w !! i = Some o -> op_this o = None -> answers cfg o c = true ->
  wp (complete cfg auth make_address alpn_selected system_ec remote_ec cancel_ec depth o c)
    (fun _ w' => kept w') (w <| pending ::= delete i |>).
Proof.
  intros Hkept Hi Ho Ha.
  destruct o; try done; destruct c; try done; cbn [complete];
    try (by apply wp_ps_read_done); try (by apply wp_ps_handshake_done);
    destruct Hkept as (k & Hk & HI);
    pose proof (I_take_p _ _ _ _ HI Hi eq_refl eq_refl) as HI1; cbn [is_ptok Zb] in HI1;
    rewrite Z.sub_0_r in HI1;
    (eapply wp_mono with (P := fun _ w' => I NoHold Idle k w'); [|intros ? w' HI'; exact (kept_intro _ _ HI' Hk)]).
  - by apply wp_ps_destroy.
  - by apply wp_ps_write_done.
  - unfold ps_timer_fired. destruct (_ =? 0); [by apply wp_ps_destroy|by apply wp_skip].
Qed.

Lemma I_clock x m k w t : I x m k w -> I x m k (w <| now := t |>).
Proof. intros []. by split. Qed.
Lemma I_freed x m k w b : I x m k w -> I x m k (w <| pipe_alive := b |>).
Proof. intros []. by split. Qed.

Lemma wp_step w e :
  kept w -> late_success w e = false ->
  wp (step cfg auth make_address alpn_selected system_ec remote_ec cancel_ec depth e)
    (fun _ w' => kept w') w.
Proof.
  intros Hkept Hl. destruct e as [i c|t| |]; cbn [step].
  - apply wp_bind, wp_gets. cbn [id]. destruct (pending w !! i) as [o|] eqn:Hi; [|by apply wp_skip].
    destruct (answers cfg o c) eqn:Ha; [|by apply wp_skip].
    apply wp_bind, wp_modify. destruct (op_this o) as [h|] eqn:Ho.
    + by eapply wp_session_done.
    + by apply wp_pipeline_done.
  - destruct Hkept as (k & Hk & HI). apply wp_modify, (kept_intro k); [by apply I_clock|done].
  - destruct Hkept as (k & Hk & HI).
    eapply wp_mono; [by apply wp_accept|]. intros ? w' HI'. exact (kept_intro _ _ HI' Hk).
  - destruct Hkept as (k & Hk & HI). apply wp_bind, wp_gets, wp_when.
    + intros _. apply wp_modify, (kept_intro k); [by apply I_freed|done].
    + intros _. by exists k.
Qed.

End Proofs.
