(* ===== verification/ServerDefined.v ===== *)
(** * The server side: every object a handler uses exists

    In the program a handler holds a [shared_ptr] to its session, so it never
    uses one that is gone.  In the model a session is named by its address:
    here every address that is in the world, in an operation in progress, in the
    send cache's handlers or in the list of sessions, is that of an object, and
    stays so.  So no handler ends with [NoObject]. *)

From Stdlib Require Import ZArith Lia.
From S2P Require Import Prelude Utils Address Trojan UdpPacket PipelineProto Caches ReadCache PipelineComponent Session.
From S2P Require Import ServerWorld ServerSide ServerProofs.
Import Streambuf ReadBuf Stat Allocator PipelineComponent.
Local Open Scope Z_scope.
Local Open Scope handler_scope.

Definition lives (w : world) (h : nat) : Prop := is_Some (objs w !! h).

(** The handlers the send cache has not called. *)
Definition waiting (p : PipelineSession) : list sent_handler :=
  SendDataCache.handler_queue (sending_data_cache p) ++
  SendDataCache.handler_queue_other (sending_data_cache p).

(** The sessions the pipeline session names. *)
Definition names (p : PipelineSession) (h : nat) : Prop :=
  h ∈ sessions p \/ exists t, t ∈ waiting p /\ handler_this t = Some h.

Record closed (w : world) : Prop := {
  closed_ops : forall o h, o ∈ pending w -> op_this o = Some h -> lives w h;
  closed_pipe : forall h, names (pipe w) h -> lives w h
}.

(** [good D w]: [w] is closed and the addresses in [D] are those of objects. *)
Definition good (D : nat -> Prop) (w : world) : Prop :=
  closed w /\ forall h, D h -> lives w h.

(** [def D m]: from a good world [m] comes to a good world, throws, or ends
    otherwise, but never for lack of an object. *)
Definition def {A} (D : nat -> Prop) (m : HM A) : Prop :=
  forall w, good D w ->
  match m w with
  | Ret (_, w') => good D w'
  | Throw _ => True
  | Undef u => u <> NoObject
  end.



Section Rules.
Context (D : nat -> Prop).

Lemma def_bind {A B} (m : HM A) (k : A -> HM B) :
  def D m -> (forall a, def D (k a)) -> def D (bind m k).
Proof.
  intros Hm Hk w Hw. specialize (Hm w Hw). unfold bind.
  destruct (m w) as [[a w']| |]; [by apply Hk|done|done].
Qed.
Lemma def_ret {A} (a : A) : def D (ret a).
Proof. by intros w Hw. Qed.
Lemma def_skip : def D skip.
Proof. by intros w Hw. Qed.
Lemma def_throw {A} e : def D (@throw world A e).
Proof. by intros w Hw. Qed.
Lemma def_gets {A} (f : world -> A) : def D (gets f).
Proof. by intros w Hw. Qed.
Lemma def_when b m : def D m -> def D (when b m).
Proof. destruct b; [done|]. intros _. apply def_skip. Qed.
Lemma def_lift {A} (m : outcome A) : (forall u, m = Undef u -> u <> NoObject) -> def D (lift m).
Proof. intros Hm w Hw. unfold lift. destruct m; try done. by apply Hm. Qed.
Lemma def_undefined {A} u : u <> NoObject -> def D (@undefined A u).
Proof. by intros Hu w Hw. Qed.

Lemma def_getS h : D h -> def D (getS h).
Proof. intros Hh w Hw. unfold getS. destruct (proj2 Hw h Hh) as [s ->]. done. Qed.

(** Changes that leave the objects, the operations and the names alone. *)
Lemma def_modify f :
  (forall w h, lives w h -> lives (f w) h) ->
  (forall w o, o ∈ pending (f w) -> o ∈ pending w) ->
  (forall w h, names (pipe (f w)) h -> names (pipe w) h) -> def D (modify f).
Proof.
  intros Hl Ho Hp w [[C1 C2] Hd]. cbn. split; [split|]; eauto.
Qed.

Lemma lives_alter w f this h : lives w h -> lives (w <| objs ::= alter f this |>) h.
Proof.
  intros [s Hs]. unfold lives. cbn. destruct (decide (this = h)) as [->|].
  - rewrite lookup_alter_eq, Hs. by eexists.
  - rewrite lookup_alter_ne by done. by eexists.
Qed.
Lemma def_modS this f : def D (modS this f).
Proof. apply def_modify; [intros; by apply lives_alter|done|done]. Qed.
Lemma def_modP f : (forall p h, names (f p) h -> names p h) -> def D (modP f).
Proof. intros H. apply def_modify; [done|done|intros w; apply H]. Qed.
Lemma def_emit e : def D (emit e).
Proof. by apply def_modify. Qed.
Lemma def_ask f : def D (ask f).
Proof. intros w Hw. unfold ask. destruct Hw as [[] ?]. by split. Qed.
Lemma def_start_op o : (forall h, op_this o = Some h -> D h) -> def D (start_op o).
Proof.
  intros Ho w [[C1 C2] Hd]. cbn. split; [split|]; [|done|done].
  intros o' h [Hin|Hin]%elem_of_app Ht; [by eapply C1|].
  apply list_elem_of_singleton in Hin as ->. by apply Hd, Ho.
Qed.
Lemma def_allocate d : def D (allocate_buf d).
Proof.
  intros w Hw. unfold allocate_buf. destruct (allocate _ _). destruct Hw as [[] ?]. by split.
Qed.
Lemma def_free b : def D (free_buf b).
Proof.
  intros w Hw. unfold free_buf, free. destruct (negb _); [done|]. destruct Hw as [[] ?]. by split.
Qed.
Lemma def_for_each {A} (f : A -> HM unit) l :
  (forall x, x ∈ l -> def D (f x)) -> def D (for_each f l).
Proof.
  induction l as [|x l IH]; intros H; cbn; [apply def_skip|].
  apply def_bind; [apply H; set_solver|]. intros _. apply IH. set_solver.
Qed.

(** What the pipeline session names may be used. *)
Lemma def_getP {B} (k : PipelineSession -> HM B) :
  (forall p, def (fun h => names p h \/ D h) (k p)) -> def D (p <- getP ;; k p).
Proof.
  intros Hk w Hw. unfold bind, getP, gets.
  assert (Hg : good (fun h => names (pipe w) h \/ D h) w).
  { destruct Hw as [C Hd]. split; [done|]. intros h [Hn|Hh]; [by apply C|auto]. }
  specialize (Hk (pipe w) w Hg). destruct (k _ w) as [[? w']| |]; [|done|done].
  destruct Hk as [C Hd]. split; auto.
Qed.

Lemma def_find sid f :
  (forall it, def (fun h => h = it \/ D h) (f it)) -> def D (find_and_process_session sid f).
Proof.
  intros Hf w Hw. unfold find_and_process_session, bind at 1, gets. cbn [id].
  destruct (find_session _ _ _) as [it|] eqn:E; [|done].
  apply find_session_Some in E as (_ & s & Hs & _).
  assert (Hg : good (fun h => h = it \/ D h) w).
  { destruct Hw as [C Hd]. split; [done|]. intros h [->|Hh]; [by exists s|auto]. }
  specialize (Hf it w Hg). unfold bind. destruct (f it w) as [[? w']| |]; [|done|done].
  destruct Hf as [C Hd]. exact (conj C (fun h Hh => Hd h (or_intror Hh))).
Qed.

End Rules.

(** *** The send cache *)

Definition cache_waiting (c : @SendDataCache.cache sent_handler) : list sent_handler :=
  SendDataCache.handler_queue c ++ SendDataCache.handler_queue_other c.

Lemma waiting_async_send c : cache_waiting (SendDataCache.async_send c) = cache_waiting c.
Proof. unfold SendDataCache.async_send. by destruct (_ || _). Qed.

Lemma waiting_push d t c x :
  x ∈ cache_waiting (SendDataCache.push_data d t c) -> x ∈ cache_waiting c \/ x = t.
Proof.
  unfold SendDataCache.push_data. cbn. destruct (SendDataCache.destroyed c); [by left|].
  rewrite waiting_async_send. unfold cache_waiting, SendDataCache.current_recv_handler.
  destruct c as [h0 q0 h1 q1 []]; cbn; set_solver.
Qed.

Lemma def_put_cache D c c' :
  (forall t h, t ∈ cache_waiting c' -> handler_this t = Some h -> D h) -> def D (put_cache c c').
Proof.
  intros Hc. apply def_bind; [|intros _; by apply def_when, def_start_op].
  intros w [[C1 C2] Hd]. cbn. split; [split|done]; [done|].
  intros h [Hs|(t & Ht & Hh)]; [apply C2; by left|]. apply Hd. eapply Hc; [exact Ht|done].
Qed.

Lemma def_mod_cache D f :
  (forall c x, x ∈ cache_waiting (f c) -> x ∈ cache_waiting c) -> def D (mod_cache f).
Proof.
  intros Hf. apply def_modP. intros p h [Hs|(t & Ht & Hh)]; [by left|]. right. exists t.
  split; [|done]. by apply Hf.
Qed.

(** A new object. *)
Lemma def_new D {B} h s (k : HM B) :
  def (fun x => x = h \/ D x) k ->
  def D (modify (fun w => w <| objs ::= <[h := s]> |>) ;;; k).
Proof.
  intros Hk w [[C1 C2] Hd]. unfold bind, modify. set (w' := w <| objs ::= _ |>).
  assert (Hl : forall x, lives w x -> lives w' x).
  { intros x [s' Hs']. unfold lives. cbn. destruct (decide (h = x)) as [->|].
    - rewrite lookup_insert_eq. by eexists.
    - rewrite lookup_insert_ne by done. by eexists. }
  assert (Hg : good (fun x => x = h \/ D x) w').
  { split; [split; eauto|]. intros x [->|Hx]; [|eauto]. unfold lives. cbn. rewrite lookup_insert_eq. by eexists. }
  specialize (Hk w' Hg). destruct (k w') as [[? w2]| |]; [|done|done].
  destruct Hk as [C Hd']. split; auto.
Qed.

(** The address is one of those known. *)
Ltac known := intros; cbn in *; simplify_eq; try (by auto); try tauto; eauto.

Create HintDb def.
#[export] Hint Resolve def_ret def_skip def_throw def_gets def_getS def_modS def_emit def_ask
  def_start_op def_allocate def_free : def.

Ltac def_step :=
  lazymatch goal with
  | |- def _ (bind _ _) => apply def_bind; [|intro]
  | |- def _ (when _ _) => apply def_when
  | |- def _ (match ?x with _ => _ end) => destruct x eqn:?
  | |- def _ (let _ := _ in _) => cbv zeta
  | |- def _ (undefined _) => by apply def_undefined
  | |- def _ getP => apply def_gets
  | |- def _ (modCom _ _) => apply def_modS
  | |- def _ _ => first [solve [eauto with def] | solve [apply def_start_op; known] | solve [apply def_getS; known] ]
  end.
Ltac def_tac := repeat def_step.

Section Handlers.
Context (cfg : Config) (auth : option (bytes -> bool)).
Context (make_address : bytes -> option address) (alpn_selected : nat -> option bytes).
Context (system_ec remote_ec cancel_ec : nat -> error_code).
Context (depth : nat).
Implicit Types (D : nat -> Prop) (this h : nat).

Lemma def_using_pipeline D this : D this -> def D (ss_using_pipeline this).
Proof. unfold ss_using_pipeline. intros. def_tac. Qed.
Lemma def_has_pipeline D this : D this -> def D (ss_has_pipeline this).
Proof. unfold ss_has_pipeline. intros. def_tac. Qed.
Lemma def_session_id D this : D this -> def D (ss_session_id this).
Proof. unfold ss_session_id. intros. def_tac. Qed.
Lemma def_guarded_read D this b o :
  D this -> (forall h, op_this o = Some h -> D h) -> def D (guarded_read this b o).
Proof.
  unfold guarded_read. intros. def_tac. apply def_lift.
  unfold begin_read. by destruct (read_buf_guard _).
Qed.
Lemma def_finish_read D this b ec data : D this -> def D (finish_read this b ec data).
Proof. unfold finish_read. intros. def_tac. Qed.
#[local] Hint Resolve def_using_pipeline def_has_pipeline def_session_id def_guarded_read
  def_finish_read : def.

Lemma generate_defined b cmd sid d n u :
  PipelineRequest.generate b cmd sid d n = Undef u -> u <> NoObject.
Proof. unfold PipelineRequest.generate. by repeat case_match. Qed.

Lemma def_push D call cmd sid data t n :
  (forall h, handler_this t = Some h -> D h) ->
  (forall E, (forall h, D h -> E h) -> def E (call t)) ->
  def D (ps_push call cmd sid data t n).
Proof.
  intros Ht Hcall. apply def_getP. intros p. cbv zeta.
  assert (Hput : forall d, def (fun h => names p h \/ D h)
    (put_cache (sending_data_cache p) (SendDataCache.push_data d t (sending_data_cache p)))).
  { intros d. apply def_put_cache. intros t' h Hin Hh. apply waiting_push in Hin as [Hin| ->]; [|auto].
    left. right. by exists t'. }
  destruct (SendDataCache.destroyed _).
  - apply def_bind; [done|]. intros _. apply Hcall. auto.
  - apply def_bind; [apply def_lift, generate_defined|]. done.
Qed.

Lemma def_erase D h : def D (ps_erase h).
Proof.
  apply def_modP. intros p h' [Hs|Ht]; [left|by right]. revert Hs. cbn.
  induction (sessions p) as [|x l IH]; cbn; [done|]. destruct (_ =? _)%nat; set_solver.
Qed.

Lemma def_destroy_self D this : D this -> def D (ss_destroy_self auth this).
Proof. unfold ss_destroy_self. intros. def_tac. Qed.
#[local] Hint Resolve def_erase def_destroy_self : def.
Lemma def_destroy_by_pipeline D this : D this -> def D (ss_destroy_by_pipeline auth this).
Proof. unfold ss_destroy_by_pipeline. intros. def_tac. Qed.
#[local] Hint Resolve def_destroy_by_pipeline : def.

Lemma def_in_send D call cmd this data t n :
  D this -> (forall h, handler_this t = Some h -> D h) ->
  (forall E, (forall h, D h -> E h) -> def E (call t)) ->
  def D (ps_in_send auth call cmd this data t n).
Proof.
  intros Hd Ht Hcall. unfold ps_in_send. def_tac. apply def_find. intros it.
  apply def_push; [auto|]. intros E HE. apply Hcall. auto.
Qed.

Lemma def_remove_session D this : D this -> def D (ps_remove_session_after_destroy auth this).
Proof.
  intros Hd. unfold ps_remove_session_after_destroy. def_tac. apply def_find. intros it.
  def_tac. apply def_in_send; [auto|done|]. intros. apply def_skip.
Qed.
#[local] Hint Resolve def_remove_session : def.
Lemma def_destroy D this b : D this -> def D (ss_destroy auth this b).
Proof. unfold ss_destroy. intros. def_tac. Qed.
#[local] Hint Resolve def_destroy : def.

Lemma def_call_broken D t : (forall h, handler_this t = Some h -> D h) -> def D (call_broken auth t).
Proof. destruct t; cbn; intros; def_tac. Qed.
#[local] Hint Resolve def_call_broken : def.

Lemma def_write_data D this data t :
  D this -> (forall h, handler_this t = Some h -> D h) ->
  def D (ps_session_write_data auth this data t).
Proof. intros. apply def_in_send; eauto with def. Qed.
Lemma def_write_ack D this t n :
  D this -> (forall h, handler_this t = Some h -> D h) ->
  def D (ps_session_write_ack auth this t n).
Proof. intros. apply def_in_send; eauto with def. Qed.

Lemma def_timer D this n : D this -> def D (ss_udp_timer_async_wait cfg auth cancel_ec this n).
Proof. unfold ss_udp_timer_async_wait. intros. def_tac. Qed.
Lemma def_timer_fired D this n ec : D this -> def D (ss_udp_timer_fired cfg auth cancel_ec this n ec).
Proof. unfold ss_udp_timer_fired. intros. def_tac. Qed.
#[local] Hint Resolve def_timer def_timer_fired : def.

Lemma def_in_async_write D this data : D this -> def D (ss_in_async_write auth this data).
Proof.
  unfold ss_in_async_write. intros. def_tac. apply def_write_data; known.
Qed.
Lemma def_out_async_read D this : D this -> def D (ss_out_async_read this).
Proof. unfold ss_out_async_read. intros. def_tac; apply def_guarded_read; known. Qed.
Lemma def_out_async_write D this data n : D this -> def D (ss_out_async_write this data n).
Proof. unfold ss_out_async_write. intros. def_tac. Qed.
Lemma def_out_udp_async_read D this : D this -> def D (ss_out_udp_async_read this).
Proof. unfold ss_out_udp_async_read. intros. apply def_guarded_read; known. Qed.
Lemma def_out_udp_async_write D this data ep : D this -> def D (ss_out_udp_async_write this data ep).
Proof. unfold ss_out_udp_async_write. intros. def_tac. Qed.
#[local] Hint Resolve def_in_async_write def_out_async_read def_out_async_write
  def_out_udp_async_read def_out_udp_async_write : def.

Lemma def_udp_forward D this p n ep : D this -> def D (ss_udp_forward auth system_ec this p n ep).
Proof. unfold ss_udp_forward, ss_udp_open. intros. def_tac. Qed.
#[local] Hint Resolve def_udp_forward : def.

Lemma octet03_object u : u = octet03 -> u <> NoObject.
Proof. by intros ->. Qed.

Lemma def_out_udp_sent_ D rd this :
  D this -> def D rd -> def D (ss_out_udp_sent_ cfg auth make_address system_ec cancel_ec rd this).
Proof.
  unfold ss_out_udp_sent_. intros. def_tac. apply def_lift. intros u Hu.
  eapply octet03_object, UDP_parse_octet03, Hu.
Qed.

Lemma def_check_request D this data : def D (ss_check_request cfg auth this data).
Proof.
  unfold ss_check_request. def_tac. apply def_lift. intros u Hu.
  eapply octet03_object, Trojan_parse_octet03, Hu.
Qed.
Lemma def_query_out D this payload addr port :
  D this -> def D (ss_query_out this payload addr port).
Proof. unfold ss_query_out. intros. def_tac. Qed.
#[local] Hint Resolve def_out_udp_sent_ def_check_request def_query_out : def.
Lemma def_udp_associate D rd this req :
  D this -> def D rd -> def D (ss_udp_associate cfg auth make_address system_ec cancel_ec rd this req).
Proof. unfold ss_udp_associate. intros. def_tac. Qed.
#[local] Hint Resolve def_udp_associate : def.

Lemma def_in_recv_ D rd this data n :
  D this -> def D rd ->
  def D (ss_in_recv_ cfg auth make_address alpn_selected system_ec cancel_ec rd this data n).
Proof. unfold ss_in_recv_. intros. def_tac. Qed.
#[local] Hint Resolve def_in_recv_ : def.

Lemma def_in_async_read_ D d this :
  D this -> def D (ss_in_async_read_ cfg auth make_address alpn_selected system_ec cancel_ec d this).
Proof.
  intros Hd. induction d as [|d IH]; cbn [ss_in_async_read_]; def_tac. apply def_guarded_read; known.
Qed.
#[local] Hint Resolve def_in_async_read_ : def.

Lemma def_in_sent D this : D this -> def D (ss_in_sent this).
Proof. unfold ss_in_sent. intros. def_tac. Qed.
Lemma def_out_recv D this data : D this -> def D (ss_out_recv auth this data).
Proof. unfold ss_out_recv. intros. def_tac. Qed.
Lemma def_out_sent D this :
  D this -> def D (ss_out_sent cfg auth make_address alpn_selected system_ec cancel_ec depth this).
Proof. unfold ss_out_sent, ss_in_async_read. intros. def_tac. Qed.
Lemma def_out_udp_recv D this data ep :
  D this -> def D (ss_out_udp_recv cfg auth cancel_ec this data ep).
Proof. unfold ss_out_udp_recv. intros. def_tac. Qed.
Lemma def_start D this :
  D this ->
  def D (ss_start cfg auth make_address alpn_selected system_ec remote_ec cancel_ec depth this).
Proof. unfold ss_start, ss_in_async_read. intros. def_tac. Qed.
#[local] Hint Resolve def_in_sent def_out_recv def_out_sent def_out_udp_recv def_start : def.

Lemma def_call_sent D t :
  (forall h, handler_this t = Some h -> D h) ->
  def D (call_sent cfg auth make_address alpn_selected system_ec cancel_ec depth t).
Proof. destruct t; cbn; intros; def_tac. Qed.
#[local] Hint Resolve def_call_sent : def.

(** *** PipelineSession *)

Lemma def_ps_destroy D : def D (ps_destroy auth).
Proof.
  unfold ps_destroy. apply def_bind; [apply def_gets|]. intros p0. def_step; [def_tac|].
  apply def_bind; [by apply def_modP|]. intros _. cbv zeta.
  assert (Hcalls : forall p E l, (forall t, t ∈ l -> t ∈ waiting p) -> (forall h, names p h -> E h) ->
    def E (for_each (fun t =>
      mod_cache (SendDataCache.emit (SendDataCache.Called t broken_pipe)) ;;; call_broken auth t) l)).
  { intros p E l Hl HE. apply def_for_each. intros t Ht. apply def_bind; [by apply def_mod_cache|].
    intros _. apply def_call_broken. intros h Hh. apply HE. right. exists t. auto. }
  apply def_bind; [def_step; [def_tac|]|intros _].
  - apply def_bind; [by apply def_mod_cache|]. intros _. apply def_getP. intros p1.
    apply def_bind; [apply (Hcalls p1); [unfold waiting; set_solver|auto]|]. intros _.
    apply def_bind; [apply def_mod_cache; unfold cache_waiting; cbn; set_solver|]. intros _.
    apply def_getP. intros p2.
    apply def_bind; [apply (Hcalls p2); [unfold waiting; set_solver|auto]|]. intros _.
    apply def_mod_cache. unfold cache_waiting. cbn. set_solver.
  - apply def_getP. intros p3. apply def_bind.
    + apply def_for_each. intros h Hh. apply def_destroy_by_pipeline. left. by left.
    + intros _. apply def_modP. intros p h [Hs|Ht]; [cbn in Hs; set_solver|by right].
Qed.
#[local] Hint Resolve def_ps_destroy : def.

Lemma def_write_done D ec :
  def D (ps_write_done cfg auth make_address alpn_selected system_ec cancel_ec depth ec).
Proof.
  unfold ps_write_done. def_step; [def_tac|]. apply def_getP. intros p. def_step; [|def_tac].
  apply def_bind.
  { apply def_for_each. intros t Ht. apply def_bind; [by apply def_mod_cache|]. intros _.
    apply def_call_sent. intros h Hh. left. right. exists t. split; [|done].
    unfold waiting. unfold SendDataCache.handlers_at in Ht. destruct b; set_solver. }
  intros _. apply def_bind.
  - apply def_mod_cache. intros c x. unfold cache_waiting. destruct b; cbn; set_solver.
  - intros _. apply def_getP. intros p2. apply def_put_cache. intros t h.
    rewrite waiting_async_send. intros Ht Hh. left. right. by exists t.
Qed.

Lemma def_ps_read D : def D ps_in_async_read.
Proof.
  unfold ps_in_async_read. def_tac.
  - apply def_lift. unfold begin_read. by destruct (read_buf_guard _).
  - by apply def_modP.
Qed.
#[local] Hint Resolve def_write_done def_ps_read : def.

Lemma def_new_session D sid :
  def D (ps_new_session cfg auth make_address alpn_selected system_ec remote_ec cancel_ec depth sid).
Proof.
  unfold ps_new_session. apply def_bind; [apply def_gets|]. intros w0. cbv zeta. apply def_new.
  set (h := fresh _). apply def_bind; [apply def_start; by left|]. intros _ w [[C1 C2] Hd]. cbn.
  split; [split|done]; [done|].
  intros h' [[Hs|Hs]%elem_of_app|Ht]; [apply C2; by left| |apply C2; by right].
  apply list_elem_of_singleton in Hs as ->. apply Hd. by left.
Qed.

Lemma def_pipeline_in_recv D this data :
  D this ->
  def D (ss_pipeline_in_recv cfg auth make_address alpn_selected system_ec cancel_ec depth this data).
Proof.
  unfold ss_pipeline_in_recv, ss_in_recv, ss_in_async_read. intros. def_tac. apply def_lift.
  unfold pipeline_in_recv. by repeat case_match.
Qed.
#[local] Hint Resolve def_new_session def_pipeline_in_recv : def.

Lemma def_command D req :
  def D (ps_command cfg auth make_address alpn_selected system_ec remote_ec cancel_ec depth req).
Proof.
  unfold ps_command. destruct (PipelineRequest.command req); cbv zeta; def_tac.
  all: apply def_find; intros it; def_tac; known.
Qed.

Lemma def_drain D fuel buf w :
  good D w ->
  match PipelineRequest.drain (ps_handle cfg auth make_address alpn_selected system_ec remote_ec
    cancel_ec depth) fuel buf w with
  | Ret (w', _, _) => good D w'
  | Throw _ => True
  | Undef u => u <> NoObject
  end.
Proof.
  revert buf w. induction fuel as [|fuel IH]; intros buf w Hw; cbn [PipelineRequest.drain]; [done|].
  destruct (zlen buf =? 0); [done|].
  destruct (PipelineRequest.command_parse_total buf) as [[r req] ->]. cbn [obind].
  destruct (r =? -1); [done|]. destruct (r =? -2); [done|]. destruct req as [req|]; [|done].
  pose proof (def_command D req w Hw) as Hc. unfold ps_handle.
  destruct (ps_command _ _ _ _ _ _ _ _ req w) as [[go w1]|e|u]; cbn [obind]; [|done|done].
  destruct go; [by apply IH|done].
Qed.

Lemma def_process D :
  def D (ps_process_streaming_data cfg auth make_address alpn_selected system_ec remote_ec cancel_ec depth).
Proof.
  unfold ps_process_streaming_data. apply def_bind; [apply def_gets|]. intros p. cbv zeta.
  apply def_bind; [|intros []; def_tac]. intros w Hw.
  pose proof (def_drain D (S (length (read_buf (p_in_read_buf p)))) (read_buf (p_in_read_buf p)) w Hw) as H.
  destruct (PipelineRequest.drain _ _ _ _) as [[[w1 rest] e]| |]; [|done|done].
  destruct H as [[C1 C2] Hd]. by split.
Qed.

Lemma def_move_socket D data :
  def D (ps_move_socket_to_serversession cfg auth make_address alpn_selected system_ec remote_ec
    cancel_ec depth data).
Proof.
  unfold ps_move_socket_to_serversession, ss_in_recv, ss_in_async_read.
  apply def_bind; [apply def_gets|]. intros w0. cbv zeta. def_step; [def_tac|]. def_step; [def_tac|].
  apply def_new. def_tac. by apply def_modP.
Qed.
#[local] Hint Resolve def_command def_process def_move_socket : def.

Lemma def_ps_in_recv D :
  def D (ps_in_recv cfg auth make_address alpn_selected system_ec remote_ec cancel_ec depth).
Proof.
  unfold ps_in_recv. def_tac; [|by apply def_modP..].
  apply def_lift. unfold substr. by destruct (_ <? _).
Qed.
#[local] Hint Resolve def_ps_in_recv : def.

Lemma def_complete D o c :
  (forall h, op_this o = Some h -> D h) ->
  def D (complete cfg auth make_address alpn_selected system_ec remote_ec cancel_ec depth o c).
Proof.
  intros Ho. unfold complete.
  destruct o; cbn in Ho; try specialize (Ho _ eq_refl); destruct c; def_tac;
    unfold ss_handshake_done, ss_in_read_done, ss_in_write_done, ss_out_read_done, ss_out_write_done,
      ss_udp_read_done, ss_udp_write_done, ss_resolve_done, ss_connect_done, ss_udp_resolve_done,
      ps_handshake_done, ps_read_done, ps_timer_fired, ss_connected, ss_in_recv, ss_out_udp_sent,
      ss_in_async_read; def_tac.
  all: try (by apply def_modP).
  apply def_write_ack; known.
Qed.
End Handlers.

(** Every step from a closed world finds the objects it uses. *)
Lemma step_finds_objects cfg auth make_address alpn_selected system_ec remote_ec cancel_ec depth w e :
  closed w ->
  step cfg auth make_address alpn_selected system_ec remote_ec cancel_ec depth e w <> Undef NoObject.
Proof.
  intros Hc.
  assert (Hd : forall (m : HM unit) w1, def (lives w) m -> good (lives w) w1 -> m w1 <> Undef NoObject).
  { intros m w1 Hm H1. specialize (Hm w1 H1). by destruct (m w1) as [[] | |u]; [..|intros [= ->]]. }
  assert (Hg : good (lives w) w) by by split.
  destruct e as [i c|t| |]; cbn [step].
  - unfold bind, gets. cbn [id]. destruct (pending w !! i) as [o|] eqn:Ei; [|done].
    destruct (answers cfg o c); [|done]. cbn [modify]. apply Hd.
    + apply def_complete. intros h Hh. eapply closed_ops; [done| |done]. by eapply list_elem_of_lookup_2.
    + destruct Hc as [C1 C2]. split; [split|done]; [|done]. intros o' h Ho'. cbn in Ho'.
      apply elem_delete in Ho'. by apply C1.
  - done.
  - apply Hd; [|done]. unfold accept. apply def_bind; [apply def_gets|]. intros w0. cbv zeta.
    apply def_new, def_start. by left.
  - apply Hd; [|done]. def_tac. by apply def_modify.
Qed.

Lemma kept_closed cfg auth w : kept cfg auth w -> closed w.
Proof.
  intros (k & _ & HI). split; [apply HI|]. intros h [Hs|(t & Ht & Hh)].
  - destruct (I_sessions _ _ _ _ _ _ HI h Hs) as (s & Hs' & _). by exists s.
  - destruct (I_handlers _ _ _ _ _ _ HI t h) as (s & Hs & _); [|done|by exists s].
    pose proof (SendDataCache.inv_handlers _ (I_cache _ _ _ _ _ _ HI)) as Hp. unfold log_of.
    rewrite Hp, <- SendDataCache.handlers_split. apply elem_of_app. by right.
Qed.
