(* ===== verification/ServerTheorems.v ===== *)
(** * The server side: what holds of every run

    The runs of [ServerSide] and the invariant of [ServerProofs] give the
    properties of the server: no handler throws, octets are relayed in order,
    each guarded buffer has at most one read.  Then what the handlers do with a
    connection's first data, and runs in which the code goes wrong. *)

From Stdlib Require Import ZArith Lia.
From S2P Require Import Prelude Utils Address Trojan UdpPacket PipelineProto Caches ReadCache PipelineComponent Session.
From S2P Require Import ServerWorld ServerSide ServerProofs ServerDefined.
Import Streambuf ReadBuf Stat Allocator PipelineComponent.
Local Open Scope Z_scope.
Local Open Scope handler_scope.

Section Runs.
Context (cfg : Config) (auth : option (bytes -> bool)).
Context (make_address : bytes -> option address) (alpn_selected : nat -> option bytes).
Context (system_ec remote_ec cancel_ec : nat -> error_code).
Context (depth : nat).

Notation step' := (step cfg auth make_address alpn_selected system_ec remote_ec cancel_ec depth).
Notation in_recv' := (ss_in_recv cfg auth make_address alpn_selected system_ec cancel_ec depth).

(** The worlds a server comes through; a connection or a name resolution that
    succeeds for a session already destroyed is left out. *)
Inductive reachable : world -> Prop :=
| reach_start w : ps_start auth remote_ec init = Ret (tt, w) -> reachable w
| reach_step w e w' :
    reachable w -> late_success w e = false -> step' e w = Ret (tt, w') -> reachable w'.

Section Sound.
Hypothesis cancel_ok : forall n, cancel_ec n = 0.
Hypothesis remote_ok : forall n, remote_ec n = 0.
Hypothesis recv_buf_int : udp_recv_buf cfg < 2147483648.
Hypothesis depth_enough : MAX_BUF_LENGTH + 1 < Z.of_nat depth.
Hypothesis password_some : Session.password cfg <> [].

Lemma kept_init : wp (ps_start auth remote_ec) (fun _ w' => kept cfg auth w') init.
Proof.
  unfold ps_start. apply wp_bind, wp_modify, wp_bind. unfold wp at 1, ask. rewrite remote_ok.
  cbn [Z.eqb negb]. apply wp_modify, (kept_intro _ _ 1); [|lia].
  split; cbn; try done; try (intros; exfalso; set_solver).
Qed.

Lemma reachable_kept w : reachable w -> kept cfg auth w.
Proof.
  induction 1 as [w H|w e w' _ IH Hl H].
  - pose proof kept_init as Hk. unfold wp in Hk. by rewrite H in Hk.
  - pose proof (wp_step cfg auth make_address alpn_selected system_ec remote_ec cancel_ec depth
      cancel_ok recv_buf_int depth_enough password_some remote_ok w e IH Hl) as Hk. unfold wp in Hk. by rewrite H in Hk.
Qed.


(** C2: what a session hands to its target is what its client sent, in order,
    without loss or repetition: while it relays TCP, the octets written to the
    target and those still queued are the request's payload (everything, for
    data that is no acceptable request) and all that followed; when it has been
    destroyed, they are a prefix of it; before the connection and for UDP,
    nothing. *)
Theorem server_relays_in_order w h s :
  reachable w -> objs w !! h = Some s ->
  match status s with
  | FORWARD => outs h (trace w) ++ queue s = relayed cfg auth (ins h (trace w))
  | DESTROY => outs h (trace w) `prefix_of` relayed cfg auth (ins h (trace w))
  | HANDSHAKE | UDP_FORWARD => outs h (trace w) = []
  end.
Proof.
  intros Hw Hs. destruct (reachable_kept w Hw) as (k & _ & HI).
  destruct (I_relay _ _ _ _ _ _ HI h s Hs) as [Hr _]. unfold relay in Hr.
  destruct (status s); tauto.
Qed.

(** C15: of each session, and of the pipeline session, at most one read of each
    kind is in progress, and exactly when its buffer's guard is set; the buffer
    is then empty. *)
Theorem server_single_reader w h s :
  reachable w -> objs w !! h = Some s ->
  cntp (is_in h) (pending w) = Zb (read_buf_guard (in_read_buf s)) /\
  cntp (is_outr h) (pending w) = Zb (read_buf_guard (out_read_buf s)) /\
  cntp (is_udpr h) (pending w) = Zb (read_buf_guard (udp_read_buf s)) /\
  cntp is_pread (pending w) = Zb (read_buf_guard (p_in_read_buf (pipe w))) /\
  forall b, read_buf_guard (buf_of b s) = true -> read_buf (buf_of b s) = [].
Proof.
  intros Hw Hs. destruct (reachable_kept w Hw) as (k & _ & HI).
  pose proof (I_ok _ _ _ _ _ _ HI h s Hs) as []. pose proof (I_pread _ _ _ _ _ _ HI).
  split_and!; try done. by intros [].
Qed.

(** The two directions of a session's relay are one chain each: towards the
    client at most one of reading, writing and waiting for an acknowledgement
    is going on; towards the target, for a session without pipeline, at most
    one operation is in progress. *)
Theorem server_one_chain w h s :
  reachable w -> objs w !! h = Some s ->
  down (pending w) (log_of w) h s <= 1 /\
  (piped s = false -> cntp (is_up h) (pending w) <= 1).
Proof.
  intros Hw Hs. destruct (reachable_kept w Hw) as (k & _ & HI).
  by pose proof (I_ok _ _ _ _ _ _ HI h s Hs) as [].
Qed.
End Sound.

(** *** What the first data of a connection brings about *)

Lemma query_out_spec w h s payload addr port :
  objs w !! h = Some s -> out_write_buf s = [] ->
  exists w', ss_query_out h payload addr port w = Ret (tt, w') /\
    trace w' = trace w ++ [Connecting h addr (Text.to_string port)] /\
    pending w' = pending w ++ [OpResolve h] /\
    exists s', objs w' !! h = Some s' /\ out_write_buf s' = payload /\
      status s' = status s /\ has_queried_out s' = true.
Proof.
  intros H1 H2. eexists. split; [reflexivity|]. cbn. split_and!; [done|done|].
  rewrite !lookup_alter_eq, H1. cbn. eexists. split; [done|]. cbn. by rewrite append_view_eq, H2.
Qed.

Lemma check_request_spec w h s data :
  objs w !! h = Some s -> returns (TrojanRequest.parse data) ->
  exists w' s', ss_check_request cfg auth h data w = Ret (accepted cfg auth data, w') /\
    objs w' !! h = Some s' /\ trace w' = trace w /\ pending w' = pending w /\
    out_write_buf s' = out_write_buf s /\ status s' = status s.
Proof.
  intros Hs [[n r] E]. unfold ss_check_request, accepted, bind, lift. rewrite E. cbn [fst snd].
  destruct r as [req|].
  2:{ apply TrojanRequest.parse_None in E as ->. by exists w, s. }
  destruct (n =? -1); [by exists w, s|].
  destruct (map_find _ _); [by exists w, s|].
  destruct auth as [ok|]; [|by exists w, s].
  destruct (ok _); [|by exists w, s]. eexists _, _. split; [reflexivity|]. cbn.
  rewrite lookup_alter_eq, Hs. cbn. by split_and!.
Qed.

(** C14: a session whose first data is no request, or one whose password nobody
    accepts, asks for a connection to the fallback server ([remote_addr], at the
    port its ALPN protocol selects), and everything it received, unchanged, is
    what will be written there. *)
Theorem unaccepted_data_goes_to_fallback w h s data :
  objs w !! h = Some s -> status s = HANDSHAKE -> has_queried_out s = false ->
  out_write_buf s = [] -> returns (TrojanRequest.parse data) ->
  accepted cfg auth data = None ->
  exists w', in_recv' h data 0 w = Ret (tt, w') /\
    trace w' = trace w ++
      [Connecting h (remote_addr cfg) (Text.to_string (ss_fallback_port cfg alpn_selected h))] /\
    pending w' = pending w ++ [OpResolve h] /\
    exists s', objs w' !! h = Some s' /\ out_write_buf s' = data /\
      status s' = HANDSHAKE /\ has_queried_out s' = true.
Proof.
  intros Hs Hst Hq Hb Hp Ha. destruct (check_request_spec w h s data Hs Hp)
    as (w1 & s1 & Hc & Hs1 & Ht & Hpe & Hb1 & Hst1).
  unfold ss_in_recv, ss_in_recv_, bind, getS. rewrite Hs, Hst, Hq, Hc, Ha, <- Ht, <- Hpe, <- Hst, <- Hst1.
  apply query_out_spec; [done|congruence].
Qed.

Lemma in_recv_connects w h s data req :
  objs w !! h = Some s -> status s = HANDSHAKE -> has_queried_out s = false ->
  out_write_buf s = [] -> accepted cfg auth data = Some req ->
  TrojanRequest.command req = TrojanRequest.CONNECT ->
  exists w', in_recv' h data 0 w = Ret (tt, w') /\
    trace w' = trace w ++
      [Connecting h (Socks5.addr (TrojanRequest.req_address req))
         (Text.to_string (Socks5.port (TrojanRequest.req_address req)))] /\
    pending w' = pending w ++ [OpResolve h] /\
    exists s', objs w' !! h = Some s' /\ out_write_buf s' = TrojanRequest.payload req /\
      status s' = HANDSHAKE /\ has_queried_out s' = true.
Proof.
  intros Hs Hst Hq Hb Ha Hcmd.
  assert (Hp : returns (TrojanRequest.parse data)).
  { unfold accepted in Ha. destruct (TrojanRequest.parse data) as [r| |]; [by eexists|done|done]. }
  destruct (check_request_spec w h s data Hs Hp) as (w1 & s1 & Hc & Hs1 & Ht & Hpe & Hb1 & Hst1).
  unfold ss_in_recv, ss_in_recv_, bind, getS.
  rewrite Hs, Hst, Hq, Hc, Ha, Hcmd, <- Ht, <- Hpe, <- Hst, <- Hst1.
  apply query_out_spec; [done|congruence].
Qed.

(** A request to connect whose password is accepted makes the session ask
    for a connection to the requested address and port, and the request's
    payload alone is what will be written there. *)
Theorem accepted_request_connects w h s data req :
  objs w !! h = Some s -> status s = HANDSHAKE -> has_queried_out s = false ->
  out_write_buf s = [] -> accepted cfg auth data = Some req ->
  TrojanRequest.command req = TrojanRequest.CONNECT ->
  exists w', in_recv' h data 0 w = Ret (tt, w') /\
    trace w' = trace w ++
      [Connecting h (Socks5.addr (TrojanRequest.req_address req))
         (Text.to_string (Socks5.port (TrojanRequest.req_address req)))] /\
    pending w' = pending w ++ [OpResolve h] /\
    exists s', objs w' !! h = Some s' /\ out_write_buf s' = TrojanRequest.payload req /\
      status s' = HANDSHAKE /\ has_queried_out s' = true.
Proof. apply in_recv_connects. Qed.

(** When the connection is made, a session that is not pipelined starts to
    read from the target and writes exactly the octets kept for it. *)
Theorem connected_session_writes_kept_data w h s :
  objs w !! h = Some s -> piped s = false -> read_buf_guard (out_read_buf s) = false ->
  out_write_buf s <> [] ->
  exists w' b, ss_connect_done cfg auth make_address alpn_selected system_ec cancel_ec depth h 0 w
      = Ret (tt, w') /\
    trace w' = trace w ++ [OutWritten h (out_write_buf s)] /\
    pending w' = pending w ++ [OpOutRead h; OpOutWrite h b 0] /\
    exists s', objs w' !! h = Some s' /\ status s' = FORWARD.
Proof.
  intros Hs Hp Hg Hb. unfold piped in Hp.
  assert (Hz : (zlen (out_write_buf s) =? 0) = false).
  { apply Z.eqb_neq. by destruct (out_write_buf s). }
  unfold ss_connect_done, ss_connected, ss_out_async_read, ss_out_async_write, ss_has_pipeline,
    guarded_read, begin_read, bind, getS, modS, modCom, modify, when, lift, allocate_buf.
  cbn -[alter lookup zlen]. rewrite lookup_alter_eq, Hs. cbn -[alter lookup zlen].
  rewrite Hp. cbn -[alter lookup zlen]. rewrite lookup_alter_eq, Hs. cbn -[alter lookup zlen].
  rewrite Hg. cbn -[alter lookup zlen]. rewrite !lookup_alter_eq, Hs. cbn -[alter lookup zlen].
  rewrite Hz. cbn -[alter lookup zlen]. rewrite !lookup_alter_eq, Hs. cbn -[alter lookup zlen].
  rewrite Hp. cbn -[alter lookup zlen]. unfold to_view.
  destruct (allocate (alloc w) (out_write_buf s)) as [b a] eqn:E.
  eexists _, b. split; [reflexivity|]. cbn -[alter lookup]. split_and!; [done|by rewrite <- app_assoc|].
  rewrite !lookup_alter_eq, Hs. cbn. by eexists.
Qed.

(** *** Runs that are computed *)

Fixpoint safe_run (es : list event) (w : world) : option world :=
  match es with
  | [] => Some w
  | e :: es =>
    if late_success w e then None else
    match step' e w with
    | Ret (_, w') => safe_run es w'
    | _ => None
    end
  end.
Definition safe_serve (es : list event) : option world :=
  match ps_start auth remote_ec init with
  | Ret (_, w) => safe_run es w
  | _ => None
  end.

Lemma safe_run_reachable es w w' : safe_run es w = Some w' -> reachable w -> reachable w'.
Proof.
  revert w. induction es as [|e es IH]; intros w; cbn [safe_run]; [by intros [= ->]|].
  destruct (late_success w e) eqn:El; [done|].
  destruct (step' e w) as [[[] w1]| |] eqn:E; [|done|done]. intros H Hw.
  eapply IH; [done|]. by eapply reach_step.
Qed.
Lemma safe_serve_reachable es w : safe_serve es = Some w -> reachable w.
Proof.
  unfold safe_serve. destruct (ps_start _ _ _) as [[[] w0]| |] eqn:E; [|done|done].
  intros H. eapply safe_run_reachable; [done|]. by apply reach_start.
Qed.

End Runs.

(** ** A concrete server *)
Module Demo.

Definition cfg : Config :=
  mkConfig (str "127.0.0.1") 80 [] 0 [(str "pw", str "secret")] 60 8192 [] (str "x") true 10 200 0.
Definition peer_address : address := V4 Byte.x01 Byte.x02 Byte.x03 Byte.x04.
Definition make_address (b : bytes) : option address :=
  if bool_decide (b = str "1.2.3.4") then Some peer_address else None.
Definition ok (_ : nat) : error_code := 0.
(** Enough for any nesting: one call for each octet of a full buffer. *)
Definition depth : nat := Z.to_nat 8194.
Definition ep : endpoint := mkEndpoint peer_address 80.
Definition request : bytes := TrojanRequest.generate (str "pw") (str "example.com") 80 true ++ str "hello".
Definition udp_request : bytes :=
  TrojanRequest.generate (str "pw") (str "1.2.3.4") 0 false ++
  UDPPacket.generate_domain [] (str "example.com") 53 (str "query").

Definition server := serve cfg None make_address (fun _ => None) ok ok ok depth.
Definition safe := safe_serve cfg None make_address (fun _ => None) ok ok ok depth.

(** A connection of its own that relays in both directions. *)
Definition direct : list event :=
  [Accept; Complete 2 (Handshaken 0 false); Complete 2 (Received 0 request ep);
   Complete 2 (Resolved 0 [ep]); Complete 3 (Done 0); Complete 4 (Done 0);
   Complete 4 (Received 0 (str "more") ep); Complete 3 (Received 0 (str "answer") ep)].
(** A session of the pipeline: data, then CLOSE while a write is in progress. *)
Definition piped_run : list event :=
  [Complete 1 (Handshaken 0 false);
   Complete 1 (Received 0 (str "pw" ++ CRLF ++ PipelineRequest.stream
     [PipelineRequest.FConnect 7; PipelineRequest.FData 7 request; PipelineRequest.FData 7 (str "bye")])
     ep);
   Complete 1 (Resolved 0 [ep]); Complete 3 (Done 0); Complete 4 (Done 0)].

Definition after (es : list event) : world := default init (safe es).
Definition nth_session (w : world) (h : nat) : ServerSession :=
  default (new_ServerSession cfg) (objs w !! h).

Lemma after_reachable es :
  bool_decide (is_Some (safe es)) = true ->
  reachable cfg None make_address (fun _ => None) ok ok ok depth (after es).
Proof.
  intros [w Hw]%bool_decide_eq_true. unfold after. rewrite Hw. cbn.
  by eapply safe_serve_reachable.
Qed.

Lemma depth_ok : MAX_BUF_LENGTH + 1 < Z.of_nat depth.
Proof. reflexivity. Qed.
Lemma password_ok : Session.password cfg <> [].
Proof. discriminate. Qed.


Lemma server_relays_in_order_witness :
  outs 0 (trace (after piped_run)) ++ queue (nth_session (after piped_run) 0) = str "hellobye".
Proof.
  assert (H := server_relays_in_order cfg None make_address (fun _ => None) ok ok ok depth
    (fun n => eq_refl) (fun n => eq_refl) ltac:(reflexivity) depth_ok password_ok (after piped_run) 0
    (nth_session (after piped_run) 0)
    (after_reachable piped_run ltac:(vm_compute; reflexivity)) ltac:(vm_compute; reflexivity)).
  assert (E : status (nth_session (after piped_run) 0) = FORWARD) by (vm_compute; reflexivity).
  rewrite E in H. rewrite H. vm_compute. reflexivity.
Defined.

Lemma server_single_reader_witness :
  cntp (is_outr 0) (pending (after direct)) =
  Zb (read_buf_guard (out_read_buf (nth_session (after direct) 0))).
Proof.
  destruct (server_single_reader cfg None make_address (fun _ => None) ok ok ok depth
    (fun n => eq_refl) (fun n => eq_refl) ltac:(reflexivity) depth_ok password_ok (after direct) 0
    (nth_session (after direct) 0)
    (after_reachable direct ltac:(vm_compute; reflexivity)) ltac:(vm_compute; reflexivity))
    as (_ & H & _).
  exact H.
Defined.

Lemma server_one_chain_witness :
  down (pending (after piped_run)) (log_of (after piped_run)) 0 (nth_session (after piped_run) 0) <= 1.
Proof.
  destruct (server_one_chain cfg None make_address (fun _ => None) ok ok ok depth
    (fun n => eq_refl) (fun n => eq_refl) ltac:(reflexivity) depth_ok password_ok (after piped_run) 0
    (nth_session (after piped_run) 0)
    (after_reachable piped_run ltac:(vm_compute; reflexivity)) ltac:(vm_compute; reflexivity))
    as (H & _).
  exact H.
Defined.

(** A world with one new session. *)
Definition accepted_world : world := init <| objs := {[ 0%nat := new_ServerSession cfg ]} |>.
Definition connecting_world : world := init <| objs := {[ 0%nat :=
  new_ServerSession cfg <| out_write_buf := str "hello" |> <| has_queried_out := true |> ]} |>.

Lemma unaccepted_data_goes_to_fallback_witness :
  exists w', ss_in_recv cfg None make_address (fun _ => None) ok ok depth 0 (str "GET / HTTP/1.1") 0
      accepted_world = Ret (tt, w') /\
    trace w' = [Connecting 0 (str "127.0.0.1") (str "80")].
Proof.
  destruct (unaccepted_data_goes_to_fallback cfg None make_address (fun _ => None) ok ok depth
    accepted_world 0 (new_ServerSession cfg) (str "GET / HTTP/1.1") eq_refl eq_refl eq_refl eq_refl
    (ex_intro _ _ eq_refl) eq_refl) as (w' & H & Ht & _).
  exists w'. split; [exact H|]. rewrite Ht. vm_compute. reflexivity.
Defined.

Lemma accepted_request_connects_witness :
  exists w', ss_in_recv cfg None make_address (fun _ => None) ok ok depth 0 request 0
      accepted_world = Ret (tt, w') /\
    trace w' = [Connecting 0 (str "example.com") (str "80")].
Proof.
  destruct (accepted_request_connects cfg None make_address (fun _ => None) ok ok depth
    accepted_world 0 (new_ServerSession cfg) request
    (TrojanRequest.mkTrojanRequest (str "pw") TrojanRequest.CONNECT
       (Socks5.mkSocks5 Socks5.DOMAINNAME (str "example.com") 80) (str "hello"))
    eq_refl eq_refl eq_refl eq_refl ltac:(vm_compute; reflexivity) eq_refl) as (w' & H & Ht & _).
  exists w'. split; [exact H|]. rewrite Ht. vm_compute. reflexivity.
Defined.

Lemma connected_session_writes_kept_data_witness :
  exists w' b, ss_connect_done cfg None make_address (fun _ => None) ok ok depth 0 0 connecting_world
      = Ret (tt, w') /\
    trace w' = [OutWritten 0 (str "hello")] /\ pending w' = [OpOutRead 0; OpOutWrite 0 b 0].
Proof.
  destruct (connected_session_writes_kept_data cfg None make_address (fun _ => None) ok ok depth
    connecting_world 0 _ eq_refl eq_refl eq_refl ltac:(vm_compute; discriminate)) as (w' & b & H & Ht & Hp & _).
  exists w', b. split_and!; [exact H|exact Ht|exact Hp].
Defined.

(** ** Runs that go wrong *)

Definition udp_direct : list event :=
  [Accept; Complete 2 (Handshaken 0 false);
   Complete 2 (Received 0 (TrojanRequest.generate (str "pw") (str "1.2.3.4") 0 false ++
     UDPPacket.generate_endpoint [] ep (str "first")) ep);
   Complete 4 (Done 0);
   Complete 4 (Received 0 (UDPPacket.generate_domain [] (str "example.com") 53 (str "query")) ep);
   Clock 70; Complete 2 (Done 0); Complete 3 (Resolved 0 [ep])].

(** Without the exclusion of late successes C1 is false: a UDP session with a
    read in progress is destroyed by its timer, then a name resolution that had
    succeeded is delivered; its handler opens the socket again and reads into the
    buffer that is still in use, so the guard throws [logic_error]. *)
Theorem late_resolution_throws :
  exists msg, server udp_direct = Throw (logic_error msg).
Proof. eexists. vm_compute. reflexivity. Qed.

(** When [remote_endpoint] fails while a connection that is no pipeline is
    handed to a [ServerSession], its constructor asks for a [shared_ptr] to
    itself and [bad_weak_ptr] is thrown. *)
Theorem move_socket_remote_error_throws :
  serve cfg None make_address (fun _ => None) ok (fun n => if (n =? 0)%nat then 0 else 107) ok depth
    [Complete 1 (Handshaken 0 false);
     Complete 1 (Received 0 (str "GET / HTTP/1.1" ++ CRLF) ep)] = Throw bad_weak_ptr.
Proof. vm_compute. reflexivity. Qed.

(** A pipelined session that receives its CLOSE before the target is
    connected is destroyed at once: the payload it had accepted is never
    written. *)
Theorem close_while_connecting_drops_payload :
  let w := after [Complete 1 (Handshaken 0 false);
    Complete 1 (Received 0 (str "pw" ++ CRLF ++ PipelineRequest.stream
      [PipelineRequest.FConnect 7; PipelineRequest.FData 7 request; PipelineRequest.FClose 7]) ep)] in
  status (nth_session w 0) = DESTROY /\
  relayed cfg None (ins 0 (trace w)) = str "hello" /\ outs 0 (trace w) = [].
Proof. vm_compute. auto. Qed.

End Demo.
