(* ===== verification/ClientWorld.v ===== *)
(** * The client side: data

    [Pipeline], [ClientSession] and the part of [Service] that ties them
    ([src/src/core/pipeline.h], [src/src/session/clientsession.h],
    [src/src/core/service.h]) live in one store, as on the server side: client
    sessions and pipelines by their address, the service's list of pipelines,
    the session ids, the buffer allocator, and the operations in progress as
    data. *)

From Stdlib Require Import ZArith Lia.
From S2P Require Import Prelude Utils Address Caches ReadCache PipelineComponent Session.
Import ReadBuf Stat Allocator.
Local Open Scope Z_scope.

#[export] Existing Instance SendDataCache.eta_cache.
#[export] Existing Instance ReadDataCache.eta_cache.

(** ** ClientSession *)
Inductive CStatus :=
| C_HANDSHAKE | C_REQUEST | C_CONNECT | C_FORWARD | C_UDP_FORWARD | C_INVALID | C_DESTROY.
#[export] Instance CStatus_eq_dec : EqDecision CStatus.
Proof. solve_decision. Defined.

(** [NATSession] and [ForwardSession] are [ClientSession]s with virtual functions of
    their own. *)
Inductive CKind := KClient | KNat | KForward.
#[export] Instance CKind_eq_dec : EqDecision CKind.
Proof. solve_decision. Defined.

Record ClientSession := mkClientSession {
  c_kind : CKind;
  c_status : CStatus;
  first_packet_recv : bool;
  c_com : PipelineComponent.PipelineComponent;
  c_timer : UdpTimer.timer;
  c_stat : bytes_stat;
  c_in_open : bool;
  c_out_open : bool;
  c_udp_open : bool;
  c_in_read_buf : ReadBufWithGuard;
  c_out_read_buf : ReadBufWithGuard;
  c_udp_read_buf : ReadBufWithGuard;
  c_udp_recv_endpoint : endpoint;
  c_udp_recv_buf : bytes;
  c_udp_send_buf : bytes;
  c_out_write_buf : bytes;
  c_udp_data_buf : bytes
}.
#[export] Instance eta_ClientSession : Settable ClientSession :=
  fun r => mkClientSession (c_kind r) (c_status r) (first_packet_recv r) (c_com r) (c_timer r) (c_stat r)
    (c_in_open r) (c_out_open r) (c_udp_open r) (c_in_read_buf r) (c_out_read_buf r)
    (c_udp_read_buf r) (c_udp_recv_endpoint r) (c_udp_recv_buf r) (c_udp_send_buf r)
    (c_out_write_buf r) (c_udp_data_buf r).

(** The constructor, with the id it was allocated; the acceptor has opened the
    socket towards the application. *)
Definition new_ClientSession (cfg : Config) (id : Z) : ClientSession :=
  mkClientSession KClient C_HANDSHAKE false
    (PipelineComponent.set_session_id id (PipelineComponent.new_component (pipeline_ack_window cfg)))
    UdpTimer.new_timer new_stat true false false new_read_buf new_read_buf new_read_buf
    default_endpoint [] [] [] [].
Definition new_NATSession (cfg : Config) (id : Z) : ClientSession :=
  new_ClientSession cfg id <| c_kind := KNat |> <| c_status := C_CONNECT |>.
Definition new_ForwardSession (cfg : Config) (id : Z) : ClientSession :=
  new_NATSession cfg id <| c_kind := KForward |>.
Definition new_session_of (kind : CKind) : Config -> Z -> ClientSession :=
  match kind with
  | KClient => new_ClientSession
  | KNat => new_NATSession
  | KForward => new_ForwardSession
  end.

(** ** Pipeline *)

(** The [SentHandler]s: of [start_session] for an accepted session, of the
    acknowledgement in [in_async_write], of [out_async_write], and one that does
    nothing. *)
Inductive chandler := HStarted (this : nat) | HAcked (this : nat) | HOutSent (this : nat) | HNone.
#[export] Instance chandler_eq_dec : EqDecision chandler.
Proof. solve_decision. Defined.

(** [pl_config] is 0 for the service's own configuration and [i + 1] for the
    [i]-th load-balance configuration. *)
Record Pipeline := mkPipeline {
  pl_destroyed : bool;
  pl_connected : bool;
  pl_out_open : bool;
  pl_read_buf : ReadBufWithGuard;
  pl_cache : @SendDataCache.cache chandler;
  pl_sessions : list nat;
  pl_config : nat;
  pl_icmp : bool;
  pl_id : Z
}.
#[export] Instance eta_Pipeline : Settable Pipeline :=
  fun r => mkPipeline (pl_destroyed r) (pl_connected r) (pl_out_open r) (pl_read_buf r) (pl_cache r)
    (pl_sessions r) (pl_config r) (pl_icmp r) (pl_id r).

Definition new_Pipeline (config : nat) (id : Z) : Pipeline :=
  mkPipeline false false false new_read_buf (SendDataCache.new_cache false) [] config false id.

(** ** Operations in progress *)
Inductive cop :=
| CInRead (this : nat)
| CInWrite (this : nat) (data_copy : nat) (ack_count : Z)
| COutRead (this : nat)
| COutWrite (this : nat) (data_copy : nat)
| CUdpRead (this : nat)
| CUdpWrite (this : nat) (data_copy : nat)
| CResolve (this : nat)
| CConnect (this : nat)
| CConnectTimer (this : nat)
| CSslHandshake (this : nat)
| CTimer (this : nat) (timeout : Z)
| LResolve (p : nat)
| LConnect (p : nat)
| LConnectTimer (p : nat)
| LSslHandshake (p : nat)
| LRead (p : nat)
| LWrite (p : nat).

Inductive ccompletion :=
| CDone (ec : error_code)
| CReceived (ec : error_code) (data : bytes) (from : endpoint)
| CResolved (ec : error_code) (results : list endpoint).

(** ** What the outside sees *)
Inductive ceffect :=
| FromApp (this : nat) (data : bytes)               (* read from in_socket *)
| FromServer (this : nat) (data : bytes)            (* read from the session's own out_socket *)
| ToApp (this : nat) (data : bytes)                 (* async_write on in_socket *)
| ToServer (this : nat) (data : bytes)              (* async_write on the session's own out_socket *)
| ToPipeline (p : nat) (data : bytes)               (* async_write on a pipeline's out_socket *)
| UdpToApp (this : nat) (data : bytes) (to : endpoint)
| CancelIn (this : nat) | CancelUdp (this : nat)
| ConnectTo (this : nat) (addr port : bytes)
| PipelineTo (p : nat) (addr port : bytes)
| IcmpIn (data : bytes)
| Closed (this : nat).

Record cworld := mkCWorld {
  c_objs : gmap nat ClientSession;
  c_next : nat;                         (* the address of the next session: none is used again *)
  pipes : gmap nat Pipeline;            (* those a shared_ptr still holds *)
  pipelines : list nat;                 (* Service::pipelines, weak pointers *)
  pipeline_select_idx : Z;
  s_pipeline_id_counter : Z;
  c_ids : PipelineComponent.ids;
  c_alloc : SendingDataAllocator;
  c_pending : list cop;
  c_trace : list ceffect;
  c_now : Z;
  c_calls : nat
}.
#[export] Instance eta_cworld : Settable cworld :=
  fun r => mkCWorld (c_objs r) (c_next r) (pipes r) (pipelines r) (pipeline_select_idx r)
    (s_pipeline_id_counter r) (c_ids r) (c_alloc r) (c_pending r) (c_trace r) (c_now r) (c_calls r).

Definition CM := M cworld.

(** ** Access to the store *)
Definition getC (this : nat) : CM ClientSession :=
  fun w => match c_objs w !! this with Some s => Ret (s, w) | None => Undef NoObject end.
Definition modC (this : nat) (f : ClientSession -> ClientSession) : CM unit :=
  modify (fun w => w <| c_objs ::= alter f this |>).
Definition getL (p : nat) : CM Pipeline :=
  fun w => match pipes w !! p with Some s => Ret (s, w) | None => Undef NoObject end.
Definition modL (p : nat) (f : Pipeline -> Pipeline) : CM unit :=
  modify (fun w => w <| pipes ::= alter f p |>).
Definition c_start_op (o : cop) : CM unit :=
  modify (fun w => w <| c_pending ::= fun l => l ++ [o] |>).
Definition c_emit (e : ceffect) : CM unit :=
  modify (fun w => w <| c_trace ::= fun l => l ++ [e] |>).
Definition c_allocate_buf (data : bytes) : CM nat :=
  fun w => let '(b, a) := allocate (c_alloc w) data in Ret (b, w <| c_alloc := a |>).
Definition c_free_buf (b : nat) : CM unit :=
  fun w => match free (c_alloc w) b with
           | Ret a => Ret (tt, w <| c_alloc := a |>)
           | Throw e => Throw e
           | Undef u => Undef u
           end.

Inductive cbuf := CInBuf | COutBuf | CUdpBuf.
Definition cbuf_of (b : cbuf) (s : ClientSession) : ReadBufWithGuard :=
  match b with
  | CInBuf => c_in_read_buf s | COutBuf => c_out_read_buf s | CUdpBuf => c_udp_read_buf s
  end.
Definition set_cbuf (b : cbuf) (r : ReadBufWithGuard) (s : ClientSession) : ClientSession :=
  match b with
  | CInBuf => s <| c_in_read_buf := r |>
  | COutBuf => s <| c_out_read_buf := r |>
  | CUdpBuf => s <| c_udp_read_buf := r |>
  end.

Local Open Scope handler_scope.

Definition c_guarded_read (this : nat) (b : cbuf) (o : cop) : CM unit :=
  s <- getC this ;;
  r <- lift (begin_read (cbuf_of b s)) ;;
  modC this (set_cbuf b (rb_consume_all r)) ;;;
  c_start_op o.
Definition c_end_read (this : nat) (b : cbuf) : CM unit :=
  s <- getC this ;; modC this (set_cbuf b (end_read (cbuf_of b s))).
Definition c_commit (this : nat) (b : cbuf) (data : bytes) : CM bytes :=
  s <- getC this ;;
  let r := rb_commit (cbuf_of b s) data in
  modC this (set_cbuf b r) ;;;
  ret (read_buf r).
