(* ===== verification/ClientSide.v ===== *)
(** * The client side: operations

    [src/src/core/pipeline.cpp], [src/src/session/clientsession.cpp], the part of
    [src/src/core/service.cpp] that starts sessions and carries their data to
    the pipelines, and [connect_remote_server_ssl] of [src/src/core/utils.h].
    A member function of [ClientSession] is [cs_...], one of [Pipeline] is
    [pl_...], one of [Service] is [sv_...]; each takes its object's address. *)

From Stdlib Require Import ZArith Lia.
From S2P Require Import Prelude Utils Address Trojan UdpPacket PipelineProto Caches ReadCache.
From S2P Require Import PipelineComponent Session ClientWorld.
Import Streambuf ReadBuf Stat Allocator PipelineComponent Codec.
Local Open Scope Z_scope.
Local Open Scope handler_scope.

(** ** The SOCKS5 messages *)

Definition socks_version : Z := 5.

Definition socks5_is_invalid_handshake_data (data : bytes) : bool :=
  (zlen data <? 2) ||
  match data with
  | v :: n :: _ => negb (schar v =? socks_version) || negb (zlen data =? b2z n + 2)
  | _ => false
  end.

Definition socks5_is_invalid_quest_data (data : bytes) : bool :=
  (zlen data <? 7) ||
  match data with
  | v :: _ :: r :: _ => negb (schar v =? socks_version) || negb (schar r =? 0)
  | _ => false
  end.

(** The loop over the methods: its bound is the signed [char]. *)
Definition has_method (data : bytes) : bool :=
  match data with
  | _ :: n :: methods => existsb (fun m => schar m =? 0) (take (Z.to_nat (schar n)) methods)
  | _ => false
  end.

Definition socks5_handshake_reply_failed : bytes := [Byte.x05; Byte.xff].
Definition socks5_handshake_reply_succ : bytes := [Byte.x05; Byte.x00].
Definition socks5_request_reply_failed : bytes :=
  [Byte.x05; Byte.x07; Byte.x00; Byte.x01; Byte.x00; Byte.x00; Byte.x00; Byte.x00; Byte.x00; Byte.x00].
Definition socks5_request_reply_succ_tcp : bytes :=
  [Byte.x05; Byte.x00; Byte.x00; Byte.x01; Byte.x00; Byte.x00; Byte.x00; Byte.x00; Byte.x00; Byte.x00].
Definition socks5_request_reply_succ_udp_header : bytes := [Byte.x05; Byte.x00; Byte.x00].

(** ** The choice of a pipeline *)

(** The loop of [start_session]: [i] is [idx]; the chosen position and
    [pipeline_select_idx]. *)
Fixpoint scan_pipelines (connected : list bool) (i select_idx : Z) : option Z * Z :=
  match connected with
  | [] => (None, select_idx)
  | c :: connected =>
    if select_idx <=? i then
      if c : bool then (Some i, select_idx)
      else scan_pipelines connected (i + 1) (select_idx + 1)
    else scan_pipelines connected (i + 1) select_idx
  end.

Definition select_pipeline (connected : list bool) (select_idx : Z) : Z * Z :=
  let wraps := zlen connected <=? select_idx in
  let select_idx := if wraps then 0 else select_idx in
  if wraps && match connected with c :: _ => c | [] => false end then (0, select_idx)
  else
    match scan_pipelines connected 0 select_idx with
    | (Some i, select_idx) => (i, select_idx + 1)
    | (None, select_idx) => (0, select_idx + 1)
    end.

(** The rearrangement for load balancing: the first pipeline of configuration
    [target] behind the current one is swapped with it. *)
Fixpoint split_config (cfg_of : nat -> nat) (target : nat) (l : list nat)
  : option (list nat * nat * list nat) :=
  match l with
  | [] => None
  | y :: l =>
    if (cfg_of y =? target)%nat then Some ([], y, l)
    else match split_config cfg_of target l with
         | Some (pre, z, post) => Some (y :: pre, z, post)
         | None => None
         end
  end.

Fixpoint arrange (fuel : nat) (cfg_of : nat -> nat) (all_configs config_idx : nat) (l : list nat)
  : list nat :=
  match fuel, l with
  | S fuel, x :: rest =>
    match split_config cfg_of config_idx rest with
    | Some (pre, y, post) =>
      let next := if (all_configs <=? S config_idx)%nat then O else S config_idx in
      y :: arrange fuel cfg_of all_configs next (pre ++ x :: post)
    | None => x :: arrange fuel cfg_of all_configs config_idx rest
    end
  | _, _ => l
  end.

Section Client.
(** The configurations (0 is the service's own), how many there are for load
    balancing, their [compare_hash]; whether ICMP is relayed.  From outside the
    sources: Boost's address parser, the local endpoint of a bound UDP socket, the
    error codes of opening and binding a socket, of [remote_endpoint] and of the
    timer's [cancel]. *)
Context (configs : nat -> Config) (balance_num : nat) (config_hash : nat -> Z) (icmp : bool).
Context (make_address : bytes -> option address).
Context (udp_local : nat -> endpoint).
(** The class of the sessions a service makes, by its [run_type]; where the
    connection of a [NATSession] was meant to go ([recv_target_endpoint]) *)
Context (accept_kind : CKind) (socket_target : nat -> bytes * Z).
Context (system_ec remote_ec cancel_ec : nat -> error_code).
(** How deep [out_async_read] may call itself through the read handler. *)
Context (depth : nat).

Definition ccfg : Config := configs 0%nat.

Definition c_ask (answers : nat -> error_code) : CM error_code :=
  fun w => Ret (answers (c_calls w), w <| c_calls ::= S |>).
Definition c_undefined {A} (u : undefined_by) : CM A := fun _ => Undef u.
Fixpoint c_for_each {A} (f : A -> CM unit) (l : list A) : CM unit :=
  match l with [] => skip | x :: l => f x ;;; c_for_each f l end.

(** ** Pipeline: the send cache *)

(** A cache that has begun a write hands its buffer to [async_write]. *)
Definition pl_put_cache (p : nat) (c c' : @SendDataCache.cache chandler) : CM unit :=
  modL p (fun l => l <| pl_cache := c' |>) ;;;
  when (negb (SendDataCache.is_async_sending c) && SendDataCache.is_async_sending c')
    (match SendDataCache.flight c' with
     | Some sending => c_emit (ToPipeline p (SendDataCache.queue_at sending c'))
     | None => skip
     end ;;;
     c_start_op (LWrite p)).

Definition pl_mod_cache (p : nat)
    (f : @SendDataCache.cache chandler -> @SendDataCache.cache chandler) : CM unit :=
  modL p (fun l => l <| pl_cache ::= f |>).

Definition pl_push (call : chandler -> CM unit) (p : nat) (cmd : PipelineRequest.Command) (sid : Z)
    (data : bytes) (h : chandler) (ack_count : Z) : CM unit :=
  l <- getL p ;;
  let c := pl_cache l in
  if SendDataCache.destroyed c then
    pl_put_cache p c (SendDataCache.push_data [] h c) ;;; call h
  else
    d <- lift (PipelineRequest.generate [] cmd sid data ack_count) ;;
    pl_put_cache p c (SendDataCache.push_data d h c).

(** [session_async_send_cmd]; [call] calls the handler with [broken_pipe]. *)
Definition pl_session_async_send_cmd (call : chandler -> CM unit) (p : nat)
    (cmd : PipelineRequest.Command) (this : nat) (data : bytes) (h : chandler) (ack_count : Z)
  : CM unit :=
  l <- getL p ;;
  if pl_destroyed l then call h else
  s <- getC this ;;
  pl_push call p cmd (m_session_id (c_com s)) data h ack_count.

Definition pl_session_async_send_icmp (call : chandler -> CM unit) (p : nat) (data : bytes)
    (h : chandler) : CM unit :=
  l <- getL p ;;
  if pl_destroyed l then call h else pl_push call p PipelineRequest.ICMP 0 data h 0.

(** ** Service: the pipeline of a session *)

Fixpoint list_erase (x : nat) (l : list nat) : list nat :=
  match l with
  | [] => []
  | y :: l => if (y =? x)%nat then l else y :: list_erase x l
  end.

Definition is_in_pipeline (l : Pipeline) (this : nat) : bool := bool_decide (this ∈ pl_sessions l).

(** The loops of [session_async_send_to_pipeline] and
    [session_destroy_in_pipeline]: expired pointers are erased on the way. *)
Fixpoint search_pipeline (ps : gmap nat Pipeline) (this : nat) (l : list nat)
  : list nat * option nat :=
  match l with
  | [] => ([], None)
  | p :: l =>
    match ps !! p with
    | None => search_pipeline ps this l
    | Some pl =>
      if is_in_pipeline pl this then (p :: l, Some p)
      else let '(l, r) := search_pipeline ps this l in (p :: l, r)
    end
  end.

Definition sv_search (this : nat) : CM (option nat) :=
  w <- gets id ;;
  let '(l, r) := search_pipeline (pipes w) this (pipelines w) in
  modify (fun w => w <| pipelines := l |>) ;;;
  ret r.

(** [Pipeline::session_destroyed] *)
Definition pl_session_destroyed (p this : nat) : CM unit :=
  l <- getL p ;;
  when (negb (pl_destroyed l))
    (modL p (fun l => l <| pl_sessions ::= list_erase this |>) ;;;
     pl_session_async_send_cmd (fun _ => skip) p PipelineRequest.CLOSE this [] HNone 0).

Definition sv_session_destroy_in_pipeline (this : nat) : CM unit :=
  r <- sv_search this ;;
  match r with Some p => pl_session_destroyed p this | None => skip end.

(** ** ClientSession::destroy *)

Definition cs_destroy (this : nat) (pipeline_call : bool) : CM unit :=
  s <- getC this ;;
  if bool_decide (c_status s = C_DESTROY) then skip else
  modC this (fun s => s <| c_status := C_DESTROY |>) ;;;
  c_emit (Closed this) ;;;
  modC this (fun s => s <| c_in_open := false |>) ;;;
  modC this (fun s => s <| c_udp_open := false |>) ;;;
  modC this (fun s => s <| c_out_open := false |>) ;;;
  when (negb pipeline_call && m_is_use_pipeline (c_com s)) (sv_session_destroy_in_pipeline this).

(** A handler called with [broken_pipe]. *)
Definition c_call_broken (h : chandler) : CM unit :=
  match h with
  | HStarted this | HAcked this | HOutSent this => cs_destroy this false
  | HNone => skip
  end.

Definition sv_session_async_send_to_pipeline (this : nat) (cmd : PipelineRequest.Command)
    (data : bytes) (h : chandler) (ack_count : Z) : CM unit :=
  if 0 <? pipeline_num ccfg then
    r <- sv_search this ;;
    match r with
    | None => c_call_broken h
    | Some p => pl_session_async_send_cmd c_call_broken p cmd this data h ack_count
    end
  else skip.

(** ** ClientSession: reads and writes *)

Definition cs_udp_timer_act (this : nat) (r : UdpTimer.timer * UdpTimer.action) : CM unit :=
  modC this (fun s => s <| c_timer := fst r |>) ;;;
  match snd r with
  | UdpTimer.NoAct => skip
  | UdpTimer.Arm n => c_start_op (CTimer this n)
  | UdpTimer.Expire => cs_destroy this false
  end.
Definition cs_udp_timer_async_wait (this : nat) (timeout : Z) : CM unit :=
  s <- getC this ;; curr <- gets c_now ;; ec <- c_ask cancel_ec ;;
  cs_udp_timer_act this
    (UdpTimer.udp_timer_async_wait curr (udp_timeout ccfg) ec timeout (c_timer s)).
Definition cs_udp_timer_fired (this : nat) (timeout : Z) (error : error_code) : CM unit :=
  s <- getC this ;; curr <- gets c_now ;; ec <- c_ask cancel_ec ;;
  cs_udp_timer_act this
    (UdpTimer.udp_timer_fired curr (udp_timeout ccfg) ec timeout error (c_timer s)).

(** [is_using_pipeline() && status == FORWARD] *)
Definition forwards_in_pipeline (s : ClientSession) : bool :=
  m_is_use_pipeline (c_com s) && bool_decide (c_status s = C_FORWARD).

Definition cs_in_async_read (this : nat) : CM unit :=
  s <- getC this ;;
  if forwards_in_pipeline s then
    let '(com, permit) := pre_call_ack_func (c_com s) in
    modC this (fun s => s <| c_com := com |>) ;;;
    (if permit : bool then c_guarded_read this CInBuf (CInRead this) else skip)
  else c_guarded_read this CInBuf (CInRead this).

Definition cs_in_async_write (this : nat) (data : bytes) (ack_count : Z) : CM unit :=
  s <- getC this ;;
  when (forwards_in_pipeline s) (modC this (fun s => s <| c_com ::= set_async_writing_data true |>)) ;;;
  b <- c_allocate_buf data ;;
  c_emit (ToApp this data) ;;;
  c_start_op (CInWrite this b ack_count).

Definition cs_out_async_write (this : nat) (data : bytes) : CM unit :=
  s <- getC this ;;
  if m_is_use_pipeline (c_com s)
  then sv_session_async_send_to_pipeline this PipelineRequest.DATA data (HOutSent this) 0
  else
    b <- c_allocate_buf data ;;
    c_emit (ToServer this data) ;;;
    c_start_op (COutWrite this b).

Definition cs_udp_async_read (this : nat) : CM unit := c_guarded_read this CUdpBuf (CUdpRead this).
Definition cs_udp_async_write (this : nat) (data : bytes) (ep : endpoint) : CM unit :=
  b <- c_allocate_buf data ;;
  c_emit (UdpToApp this data ep) ;;;
  c_start_op (CUdpWrite this b).

(** [udp_sent]; [out_async_read] is what it calls to read again. *)
Definition cs_udp_sent_ (out_async_read : CM unit) (this : nat) : CM unit :=
  s <- getC this ;;
  if negb (bool_decide (c_status s = C_UDP_FORWARD)) then skip else
  cs_udp_timer_async_wait this (-1) ;;;
  s <- getC this ;;
  let parse_data := to_view (c_udp_data_buf s) in
  parsed <- lift (UDPPacket.parse parse_data) ;;
  match parsed with
  | None =>
    if MAX_BUF_LENGTH <? zlen (c_udp_data_buf s) then cs_destroy this false else out_async_read
  | Some (packet, packet_len) =>
    address <- lift (Socks5.parse parse_data) ;;
    match address with
    | None => cs_destroy this false
    | Some (_, address_len) =>
      let buf := consume_all (c_udp_send_buf s) in
      let buf := fst (append_data buf (Some [Byte.x00; Byte.x00; Byte.x00]) 3) in
      let buf := fst (append_range buf (c_udp_data_buf s) 0 address_len) in
      let buf := fst (append_view buf (UDPPacket.payload packet)) in
      modC this (fun s => s <| c_udp_send_buf := buf |>) ;;;
      modC this (fun s => s <| c_stat ::= fun st => inc_recv_len st (UDPPacket.length packet) |>) ;;;
      cs_udp_async_write this (to_view buf) (c_udp_recv_endpoint s) ;;;
      modC this (fun s => s <| c_udp_data_buf ::= fun b => consume b packet_len |>)
    end
  end.

(** [out_recv] *)
Definition cs_out_recv_ (out_async_read : CM unit) (this : nat) (data : bytes) (ack_count : Z)
  : CM unit :=
  s <- getC this ;;
  match c_status s with
  | C_FORWARD =>
    modC this (fun s => s <| c_stat ::= fun st => inc_recv_len st (zlen data) |>) ;;;
    cs_in_async_write this data ack_count
  | C_UDP_FORWARD =>
    modC this (fun s => s <| c_udp_data_buf ::= fun b => fst (append_view b data) |>) ;;;
    cs_udp_sent_ out_async_read this
  | _ => skip
  end.

(** [out_async_read]: from the pipeline's cache, whose handler is [out_recv] and
    is called before the cache is emptied, or from the socket. *)
Fixpoint cs_out_async_read_ (depth : nat) (this : nat) : CM unit :=
  match depth with
  | O => c_undefined NoEnd
  | S depth =>
    s <- getC this ;;
    if m_is_use_pipeline (c_com s) then
      match ReadDataCache.async_read_begin (pipeline_data_cache (c_com s)) with
      | (cache, None) => modC this (fun s => s <| c_com ::= fun c => c <| pipeline_data_cache := cache |> |>)
      | (_, Some (data, count)) =>
        cs_out_recv_ (cs_out_async_read_ depth this) this data count ;;;
        modC this (fun s => s <| c_com ::= fun c =>
          c <| pipeline_data_cache ::= ReadDataCache.async_read_end |> |>)
      end
    else c_guarded_read this COutBuf (COutRead this)
  end.

Definition cs_out_async_read (this : nat) : CM unit := cs_out_async_read_ depth this.
Definition cs_out_recv (this : nat) : bytes -> Z -> CM unit :=
  cs_out_recv_ (cs_out_async_read this) this.
Definition cs_udp_sent (this : nat) : CM unit := cs_udp_sent_ (cs_out_async_read this) this.

Definition cs_out_sent (this : nat) : CM unit :=
  s <- getC this ;;
  match c_status s with
  | C_FORWARD => cs_in_async_read this
  | C_UDP_FORWARD => cs_udp_async_read this
  | _ => skip
  end.

(** The lambda [cb] of [request_remote] *)
Definition cs_remote_ready (this : nat) : CM unit :=
  s <- getC this ;;
  (if UdpTimer.is_udp_forward (c_timer s) then
     when (negb (first_packet_recv s)) (c_emit (CancelUdp this)) ;;;
     modC this (fun s => s <| c_status := C_UDP_FORWARD |>)
   else
     when (negb (first_packet_recv s)) (c_emit (CancelIn this)) ;;;
     modC this (fun s => s <| c_status := C_FORWARD |>)) ;;;
  cs_out_async_read this ;;;
  s <- getC this ;;
  cs_out_async_write this (to_view (c_out_write_buf s)).

Definition cs_request_remote (this : nat) : CM unit :=
  s <- getC this ;;
  if m_is_use_pipeline (c_com s) then cs_remote_ready this
  else
    c_emit (ConnectTo this (remote_addr ccfg) (Text.to_string (remote_port ccfg))) ;;;
    c_start_op (CResolve this).

(** [connect_remote_server_ssl] for a session *)
Definition cs_resolve_done (this : nat) (error : error_code) (results : list endpoint) : CM unit :=
  match results with
  | [] => cs_destroy this false
  | _ :: _ =>
    if negb (error =? 0) then cs_destroy this false else
    ec <- c_ask system_ec ;;
    if negb (ec =? 0) then cs_destroy this false else
    modC this (fun s => s <| c_out_open := true |>) ;;;
    when (0 <? connect_time_out ccfg) (c_start_op (CConnectTimer this)) ;;;
    c_start_op (CConnect this)
  end.
Definition cs_connect_done (this : nat) (error : error_code) : CM unit :=
  if negb (error =? 0) then cs_destroy this false else c_start_op (CSslHandshake this).
Definition cs_ssl_done (this : nat) (error : error_code) : CM unit :=
  if negb (error =? 0) then cs_destroy this false else cs_remote_ready this.

Definition cs_in_sent (this : nat) : CM unit :=
  s <- getC this ;;
  match c_status s with
  | C_HANDSHAKE => modC this (fun s => s <| c_status := C_REQUEST |>) ;;; cs_in_async_read this
  | C_REQUEST => modC this (fun s => s <| c_status := C_CONNECT |>) ;;; cs_request_remote this
  | C_FORWARD => cs_out_async_read this
  | C_INVALID => cs_destroy this false
  | _ => skip
  end.

(** ** ClientSession::in_recv *)

Definition cs_in_handshake (this : nat) (data : bytes) : CM unit :=
  if socks5_is_invalid_handshake_data data then cs_destroy this false
  else if negb (has_method data) then
    cs_in_async_write this socks5_handshake_reply_failed 0 ;;;
    modC this (fun s => s <| c_status := C_INVALID |>)
  else cs_in_async_write this socks5_handshake_reply_succ 0.

Definition cs_refuse_request (this : nat) : CM unit :=
  cs_in_async_write this socks5_request_reply_failed 0 ;;;
  modC this (fun s => s <| c_status := C_INVALID |>).

(** The request for the server: password, CR LF, command, address, CR LF. *)
Definition cs_build_request (pw data : bytes) : outcome bytes :=
  let buf := fst (append_string [] pw) in
  let buf := fst (append_cstr buf (Some CRLF)) in
  let! c := at_ data 1 in
  let buf := fst (append_char buf c) in
  let! rest := substr_from data 3 in
  let buf := fst (append_view buf rest) in
  Ret (fst (append_cstr buf (Some CRLF))).

(** The socket for a UDP association; binding it may throw. *)
Definition cs_udp_associate (this : nat) : CM unit :=
  cs_udp_timer_async_wait this (-1) ;;;
  ec <- c_ask system_ec ;;
  if negb (ec =? 0) then cs_destroy this false else
  modC this (fun s => s <| c_udp_open := true |>) ;;;
  ec <- c_ask system_ec ;;
  if negb (ec =? 0) then throw (system_error ec) else
  s <- getC this ;;
  let buf := fst (append_string (consume_all (c_udp_send_buf s)) socks5_request_reply_succ_udp_header) in
  let buf := Socks5.generate buf (udp_local this) in
  modC this (fun s => s <| c_udp_send_buf := buf |>) ;;;
  cs_in_async_write this (to_view buf) 0.

Definition cs_in_request (this : nat) (data : bytes) : CM unit :=
  if socks5_is_invalid_quest_data data then cs_destroy this false else
  match Session.password ccfg with
  | [] => c_undefined EmptyContainer
  | (pw, _) :: _ =>
    buf <- lift (cs_build_request pw data) ;;
    modC this (fun s => s <| c_out_write_buf := buf |>) ;;;
    parsed <- lift (TrojanRequest.parse buf) ;;
    if fst parsed =? -1 then cs_refuse_request this else
    match snd parsed with
    | None => c_undefined EmptyContainer
    | Some req =>
      let addr := TrojanRequest.req_address req in
      let bad :=
        match Socks5.address_type addr with
        | Socks5.DOMAINNAME => false
        | _ => match make_udp_endpoint_safe make_address (Socks5.addr addr) (Socks5.port addr) with
               | Some _ => false
               | None => true
               end
        end in
      if bad : bool then cs_refuse_request this else
      let udp := match TrojanRequest.command req with
                 | TrojanRequest.UDP_ASSOCIATE => true
                 | TrojanRequest.CONNECT => false
                 end in
      modC this (fun s => s <| c_timer ::= UdpTimer.set_udp_forward_session udp |>) ;;;
      if udp then cs_udp_associate this
      else cs_in_async_write this socks5_request_reply_succ_tcp 0
    end
  end.

Definition cs_in_recv (this : nat) (data : bytes) : CM unit :=
  s <- getC this ;;
  match c_status s with
  | C_HANDSHAKE => cs_in_handshake this data
  | C_REQUEST => cs_in_request this data
  | C_CONNECT =>
    modC this (fun s => s <| c_stat ::= fun st => inc_sent_len st (zlen data) |>) ;;;
    modC this (fun s => s <| first_packet_recv := true |>) ;;;
    modC this (fun s => s <| c_out_write_buf ::= fun b => fst (append_view b data) |>)
  | C_FORWARD =>
    modC this (fun s => s <| c_stat ::= fun st => inc_sent_len st (zlen data) |>) ;;;
    cs_out_async_write this data
  | C_UDP_FORWARD => cs_destroy this false
  | C_INVALID | C_DESTROY => skip
  end.

(** ** ClientSession: datagrams from the application *)

(** The packet for the server, "same as UDPPacket::generate": appended to [buf]. *)
Definition cs_udp_packet (buf data : bytes) (address_len length : Z) : outcome bytes :=
  let! addr := substr data 3 address_len in
  let buf := fst (append_view buf addr) in
  let buf := fst (append_char buf (z2b (Z.shiftr length one_byte_shift_8_bits))) in
  let buf := fst (append_char buf (z2b (Z.land length one_byte_mask_0xFF))) in
  let buf := fst (append_cstr buf (Some CRLF)) in
  let! payload := substr_from data (address_len + 3) in
  Ret (fst (append_view buf payload)).

Definition udp_header_bad (data : bytes) : bool :=
  match data with
  | a :: b :: c :: _ => negb (schar a =? 0) || negb (schar b =? 0) || negb (schar c =? 0)
  | _ => true
  end.

Definition cs_udp_recv (this : nat) (data : bytes) : CM unit :=
  if zlen data =? 0 then skip
  else if udp_header_bad data then cs_destroy this false
  else
    rest <- lift (substr_from data 3) ;;
    parsed <- lift (Socks5.parse rest) ;;
    match parsed with
    | None => cs_destroy this false
    | Some (address, address_len) =>
      cs_udp_timer_async_wait this (-1) ;;;
      let length := u64 (zlen data - 3 - address_len) in
      modC this (fun s => s <| c_stat ::= fun st => inc_sent_len st length |>) ;;;
      s <- getC this ;;
      match c_status s with
      | C_CONNECT =>
        modC this (fun s => s <| first_packet_recv := true |>) ;;;
        buf <- lift (cs_udp_packet (c_out_write_buf s) data address_len length) ;;
        modC this (fun s => s <| c_out_write_buf := buf |>)
      | C_UDP_FORWARD =>
        buf <- lift (cs_udp_packet (consume_all (c_udp_recv_buf s)) data address_len length) ;;
        modC this (fun s => s <| c_udp_recv_buf := buf |>) ;;;
        cs_out_async_write this (to_view buf)
      | _ => skip
      end
    end.

(** ** NATSession and ForwardSession *)

Definition get_target_endpoint (this : nat) (s : ClientSession) : bytes * Z :=
  match c_kind s with
  | KForward => (target_addr ccfg, target_port ccfg)
  | _ => socket_target this
  end.

Definition ns_in_recv (this : nat) (data : bytes) : CM unit :=
  s <- getC this ;;
  match c_status s with
  | C_CONNECT =>
    modC this (fun s => s <| c_stat ::= fun st => inc_sent_len st (zlen data) |>) ;;;
    modC this (fun s => s <| first_packet_recv := true |>) ;;;
    modC this (fun s => s <| c_out_write_buf ::= fun b => fst (append_view b data) |>)
  | C_FORWARD =>
    modC this (fun s => s <| c_stat ::= fun st => inc_sent_len st (zlen data) |>) ;;;
    cs_out_async_write this data
  | _ => skip
  end.

Definition ns_in_sent (this : nat) : CM unit :=
  s <- getC this ;;
  when (bool_decide (c_status s = C_FORWARD)) (cs_out_async_read this).

(** The virtual functions [in_recv] and [in_sent] *)
Definition v_in_recv (this : nat) (data : bytes) : CM unit :=
  s <- getC this ;;
  match c_kind s with KClient => cs_in_recv this data | _ => ns_in_recv this data end.
Definition v_in_sent (this : nat) : CM unit :=
  s <- getC this ;;
  match c_kind s with KClient => cs_in_sent this | _ => ns_in_sent this end.

(** ** ClientSession: start and acknowledgements *)

Definition cs_prepare_session (this : nat) : CM bool :=
  ec <- c_ask remote_ec ;;
  if negb (ec =? 0) then cs_destroy this false ;;; ret false else ret true.
Definition cs_start (this : nat) : CM unit :=
  ok <- cs_prepare_session this ;; when ok (cs_in_async_read this).
Definition ns_start (this : nat) : CM unit :=
  ok <- cs_prepare_session this ;;
  if negb ok then skip else
  s <- getC this ;;
  let '(target_addr, target_port) := get_target_endpoint this s in
  if target_port =? 0 then cs_destroy this false else
  match Session.password ccfg with
  | [] => c_undefined EmptyContainer
  | (pw, _) :: _ =>
    modC this (fun s => s <| c_out_write_buf ::= consume_all |>) ;;;
    modC this (fun s => s <| c_out_write_buf ::= fun b =>
      fst (append_string b (TrojanRequest.generate pw target_addr target_port true)) |>) ;;;
    cs_request_remote this
  end.
(** The virtual function [start] *)
Definition v_start (this : nat) : CM unit :=
  s <- getC this ;;
  match c_kind s with KClient => cs_start this | _ => ns_start this end.
Definition cs_recv_ack_cmd (this : nat) (ack_count : Z) : CM unit :=
  modC this (fun s => s <| c_com ::= recv_ack_cmd ack_count |>) ;;;
  s <- getC this ;;
  when (pipeline_wait_for_ack (c_com s)) (cs_in_async_read this).

(** [pipeline_in_recv]; the reader that waits is [out_recv]. *)
Definition cs_pipeline_in_recv (this : nat) (data : bytes) : CM unit :=
  s <- getC this ;;
  r <- lift (pipeline_in_recv data (c_com s)) ;;
  modC this (fun s => s <| c_com := fst r |>) ;;;
  match snd r with
  | Some (d, count) => cs_out_recv this d count
  | None => skip
  end.

(** ** Completion handlers of ClientSession *)

Definition cs_in_read_done (this : nat) (error : error_code) (data : bytes) : CM unit :=
  c_end_read this CInBuf ;;;
  if error =? operation_aborted then skip
  else if negb (error =? 0) then cs_destroy this false
  else c_emit (FromApp this data) ;;; view <- c_commit this CInBuf data ;; v_in_recv this view.

Definition cs_in_write_done (this data_copy : nat) (ack_count : Z) (error : error_code) : CM unit :=
  c_free_buf data_copy ;;;
  if negb (error =? 0) then cs_destroy this false else
  s <- getC this ;;
  if forwards_in_pipeline s then
    if m_write_close_future (c_com s) &&
       negb (ReadDataCache.has_queued_data (pipeline_data_cache (c_com s)))
    then cs_destroy this false
    else
      modC this (fun s => s <| c_com ::= set_async_writing_data false |>) ;;;
      sv_session_async_send_to_pipeline this PipelineRequest.ACK [] (HAcked this) ack_count
  else v_in_sent this.

Definition cs_out_read_done (this : nat) (error : error_code) (data : bytes) : CM unit :=
  c_end_read this COutBuf ;;;
  if negb (error =? 0) then cs_destroy this false
  else c_emit (FromServer this data) ;;; view <- c_commit this COutBuf data ;; cs_out_recv this view 0.

Definition cs_out_write_done (this data_copy : nat) (error : error_code) : CM unit :=
  c_free_buf data_copy ;;;
  if negb (error =? 0) then cs_destroy this false else cs_out_sent this.

Definition cs_udp_read_done (this : nat) (error : error_code) (data : bytes) (from : endpoint)
  : CM unit :=
  c_end_read this CUdpBuf ;;;
  modC this (fun s => s <| c_udp_recv_endpoint := from |>) ;;;
  if error =? operation_aborted then skip
  else if negb (error =? 0) then cs_destroy this false
  else view <- c_commit this CUdpBuf data ;; cs_udp_recv this view.

Definition cs_udp_write_done (this data_copy : nat) (error : error_code) : CM unit :=
  c_free_buf data_copy ;;;
  if negb (error =? 0) then cs_destroy this false else cs_udp_sent this.

(** A [SentHandler] called without error *)
Definition c_call_sent (h : chandler) : CM unit :=
  match h with
  | HStarted this => v_start this
  | HAcked this => v_in_sent this
  | HOutSent this => cs_out_sent this
  | HNone => skip
  end.
Definition c_call (ec : error_code) (h : chandler) : CM unit :=
  if ec =? 0 then c_call_sent h else c_call_broken h.

(** ** Pipeline *)

Definition pl_cache_destroy (p : nat) : CM unit :=
  let call h := pl_mod_cache p (SendDataCache.emit (SendDataCache.Called h broken_pipe)) ;;;
                c_call_broken h in
  l <- getL p ;;
  if SendDataCache.destroyed (pl_cache l) then skip else
  pl_mod_cache p (fun c => c <| SendDataCache.destroyed := true |>) ;;;
  l <- getL p ;;
  c_for_each call (SendDataCache.handler_queue_other (pl_cache l)) ;;;
  pl_mod_cache p (fun c => c <| SendDataCache.handler_queue_other := [] |>) ;;;
  l <- getL p ;;
  c_for_each call (SendDataCache.handler_queue (pl_cache l)) ;;;
  pl_mod_cache p (fun c => c <| SendDataCache.handler_queue := [] |>).

Definition pl_destroy (p : nat) : CM unit :=
  l <- getL p ;;
  if pl_destroyed l then skip else
  modL p (fun l => l <| pl_destroyed := true |>) ;;;
  pl_cache_destroy p ;;;
  l <- getL p ;;
  c_for_each (fun s => cs_destroy s true) (pl_sessions l) ;;;
  modL p (fun l => l <| pl_sessions := [] |>) ;;;
  modL p (fun l => l <| pl_out_open := false |>).

(** The handler of [async_write]; then the cache's own. *)
Definition pl_write_done (p : nat) (ec : error_code) : CM unit :=
  when (negb (ec =? 0)) (pl_destroy p) ;;;
  l <- getL p ;;
  match SendDataCache.flight (pl_cache l) with
  | None => skip
  | Some sending =>
    c_for_each (fun h => pl_mod_cache p (SendDataCache.emit (SendDataCache.Called h ec)) ;;; c_call ec h)
      (SendDataCache.handlers_at sending (pl_cache l)) ;;;
    pl_mod_cache p (fun c =>
      let c := SendDataCache.set_handlers sending [] c in
      let c := SendDataCache.set_queue sending (consume_all (SendDataCache.queue_at sending c)) c in
      c <| SendDataCache.is_async_sending := false |> <| SendDataCache.flight := None |>) ;;;
    when (ec =? 0)
      (l <- getL p ;; pl_put_cache p (pl_cache l) (SendDataCache.async_send (pl_cache l)))
  end.

Definition pl_out_async_recv (p : nat) : CM unit :=
  l <- getL p ;;
  r <- lift (begin_read (pl_read_buf l)) ;;
  modL p (fun l => l <| pl_read_buf := r |>) ;;;
  c_start_op (LRead p).

Fixpoint find_client (objs : gmap nat ClientSession) (sid : Z) (l : list nat) : option nat :=
  match l with
  | [] => None
  | h :: l =>
    match objs !! h with
    | Some s => if m_session_id (c_com s) =? sid then Some h else find_client objs sid l
    | None => find_client objs sid l
    end
  end.

(** One command of [out_async_recv]'s loop *)
Definition pl_command (p : nat) (req : PipelineRequest.PipelineRequest) : CM bool :=
  match PipelineRequest.command req with
  | PipelineRequest.ICMP =>
    l <- getL p ;;
    when (pl_icmp l) (c_emit (IcmpIn (PipelineRequest.packet_data req))) ;;;
    ret true
  | cmd =>
    l <- getL p ;;
    objs <- gets c_objs ;;
    match find_client objs (PipelineRequest.session_id req) (pl_sessions l) with
    | None => ret true
    | Some h =>
      (match cmd with
       | PipelineRequest.CLOSE =>
         s <- getC h ;;
         if canbe_closed_by_pipeline (c_com s) then
           cs_destroy h true ;;;
           modL p (fun l => l <| pl_sessions ::= list_erase h |>)
         else modC h (fun s => s <| c_com ::= set_write_close_future true |>)
       | PipelineRequest.ACK => cs_recv_ack_cmd h (PipelineRequest.ack_count req)
       | _ => cs_pipeline_in_recv h (PipelineRequest.packet_data req)
       end) ;;;
      ret true
    end
  end.

Definition pl_handle (p : nat) (req : PipelineRequest.PipelineRequest) (w : cworld)
  : outcome (cworld * bool) :=
  match pl_command p req w with
  | Ret (go, w') => Ret (w', go)
  | Throw e => Throw e
  | Undef u => Undef u
  end.

Definition pl_read_done (p : nat) (error : error_code) (data : bytes) : CM unit :=
  modL p (fun l => l <| pl_read_buf ::= end_read |>) ;;;
  if negb (error =? 0) then pl_destroy p else
  modL p (fun l => l <| pl_read_buf ::= fun r => rb_commit r data |>) ;;;
  l <- getL p ;;
  let buf := read_buf (pl_read_buf l) in
  e <- (fun w => match PipelineRequest.drain (pl_handle p) (S (length buf)) buf w with
                 | Ret (w', rest, e) =>
                   Ret (e, w' <| pipes ::= alter (fun l =>
                     l <| pl_read_buf ::= fun r => r <| read_buf := rest |> |>) p |>)
                 | Throw x => Throw x
                 | Undef u => Undef u
                 end) ;;
  match e with
  | PipelineRequest.Drained => pl_out_async_recv p
  | PipelineRequest.BadCommand => pl_destroy p
  | _ => skip
  end.

(** The connected handler of [start]: the password goes before what was queued. *)
Definition pl_ready (p : nat) : CM unit :=
  modL p (fun l => l <| pl_connected := true |>) ;;;
  pl_mod_cache p SendDataCache.connect ;;;
  ec <- c_ask remote_ec ;;
  if negb (ec =? 0) then throw (system_error ec) else
  l <- getL p ;;
  match Session.password (configs (pl_config l)) with
  | [] => c_undefined EmptyContainer
  | (pw, _) :: _ =>
    pl_put_cache p (pl_cache l) (SendDataCache.insert_data (pw ++ CRLF) (pl_cache l)) ;;;
    pl_out_async_recv p
  end.

Definition pl_start (p : nat) : CM unit :=
  l <- getL p ;;
  let c := configs (pl_config l) in
  c_emit (PipelineTo p (remote_addr c) (Text.to_string (remote_port c))) ;;;
  c_start_op (LResolve p).

(** [connect_remote_server_ssl] for a pipeline *)
Definition pl_resolve_done (p : nat) (error : error_code) (results : list endpoint) : CM unit :=
  match results with
  | [] => pl_destroy p
  | _ :: _ =>
    if negb (error =? 0) then pl_destroy p else
    ec <- c_ask system_ec ;;
    if negb (ec =? 0) then pl_destroy p else
    modL p (fun l => l <| pl_out_open := true |>) ;;;
    l <- getL p ;;
    when (0 <? connect_time_out (configs (pl_config l))) (c_start_op (LConnectTimer p)) ;;;
    c_start_op (LConnect p)
  end.
Definition pl_connect_done (p : nat) (error : error_code) : CM unit :=
  if negb (error =? 0) then pl_destroy p else c_start_op (LSslHandshake p).
Definition pl_ssl_done (p : nat) (error : error_code) : CM unit :=
  if negb (error =? 0) then pl_destroy p else pl_ready p.

Definition pl_session_start (p this : nat) (h : chandler) : CM unit :=
  modL p (fun l => l <| pl_sessions ::= fun s => s ++ [this] |>) ;;;
  pl_session_async_send_cmd c_call_broken p PipelineRequest.CONNECT this [] h 0.

(** ** Service *)

(** [make_shared<Pipeline>], [start], [emplace_back], [set_icmpd] *)
Definition sv_new_pipeline (config : nat) (with_icmp : bool) : CM unit :=
  w <- gets id ;;
  let p := fresh (dom (pipes w) ∪ list_to_set (pipelines w) : gset nat) in
  modify (fun w => w <| pipes ::= <[p := new_Pipeline config (s_pipeline_id_counter w)]> |>
                     <| s_pipeline_id_counter ::= fun n => u32 (n + 1) |>) ;;;
  pl_start p ;;;
  modify (fun w => w <| pipelines ::= fun l => l ++ [p] |>) ;;;
  when with_icmp (modL p (fun l => l <| pl_icmp := true |>)).

Fixpoint sv_new_pipelines (n : nat) (config : nat) (with_icmp : bool) : CM unit :=
  match n with
  | O => skip
  | S n => sv_new_pipeline config with_icmp ;;; sv_new_pipelines n config with_icmp
  end.

Definition count_pipelines (f : Pipeline -> bool) (w : cworld) : Z :=
  zlen (List.filter (fun p => match pipes w !! p with Some l => f l | None => false end) (pipelines w)).

(** The pipelines missing to [pipeline_num]: how many were made. *)
Definition sv_fill (f : Pipeline -> bool) (config : nat) (with_icmp : bool) : CM bool :=
  w <- gets id ;;
  let missing := pipeline_num ccfg - count_pipelines f w in
  sv_new_pipelines (Z.to_nat missing) config with_icmp ;;;
  ret (0 <? missing).

Fixpoint sv_fill_balance (n : nat) : CM bool :=
  match n with
  | O => ret false
  | S n =>
    changed <- sv_fill_balance n ;;
    made <- sv_fill (fun l => (pl_config l =? S n)%nat) (S n) false ;;
    ret (changed || made)
  end.

Definition config_of (w : cworld) (p : nat) : nat :=
  match pipes w !! p with Some l => pl_config l | None => 0 end.

(** [prepare_pipelines] of a service that is no server *)
Definition sv_prepare_pipelines : CM unit :=
  if negb (0 <? pipeline_num ccfg) then skip else
  w <- gets id ;;
  let '(l, changed) := clear_weak_ptr_list (fun p => bool_decide (pipes w !! p = None)) (pipelines w) in
  modify (fun w => w <| pipelines := l |>) ;;;
  made <- sv_fill (fun l => config_hash (pl_config l) =? config_hash 0%nat) 0%nat icmp ;;
  if (balance_num =? 0)%nat then skip else
  balanced <- sv_fill_balance balance_num ;;
  when (changed || made || balanced)
    (modify (fun w => w <| pipelines ::= fun l =>
       arrange (length l) (config_of w) (S balance_num) 0 l |>)).

(** [start_session] *)
Definition sv_start_session (this : nat) (h : chandler) : CM unit :=
  if 0 <? pipeline_num ccfg then
    sv_prepare_pipelines ;;;
    w <- gets id ;;
    match pipelines w with
    | [] => throw (logic_error "pipeline is empty after preparing!")
    | _ :: _ =>
      let connected := map (fun p => match pipes w !! p with
                                     | Some l => pl_connected l | None => false end) (pipelines w) in
      let '(i, idx) := select_pipeline connected (pipeline_select_idx w) in
      modify (fun w => w <| pipeline_select_idx := idx |>) ;;;
      match pipelines w !! Z.to_nat i with
      | None => c_undefined EmptyContainer
      | Some p =>
        modC this (fun s => s <| c_com ::= set_use_pipeline |>) ;;;
        pl_session_start p this h
      end
    end
  else c_call_sent h.

(** [search_default_pipeline]: the first pipeline of the service's own
    configuration. *)
Fixpoint search_default (ps : gmap nat Pipeline) (l : list nat) : list nat * option nat :=
  match l with
  | [] => ([], None)
  | p :: l =>
    match ps !! p with
    | None => search_default ps l
    | Some pl =>
      if (pl_config pl =? 0)%nat then (p :: l, Some p)
      else let '(l, r) := search_default ps l in (p :: l, r)
    end
  end.
Definition sv_search_default_pipeline : CM (option nat) :=
  sv_prepare_pipelines ;;;
  w <- gets id ;;
  match pipelines w with
  | [] => throw (logic_error "pipeline is empty after preparing!")
  | _ :: _ =>
    let '(l, r) := search_default (pipes w) (pipelines w) in
    modify (fun w => w <| pipelines := l |>) ;;;
    ret r
  end.

Definition sv_session_async_send_to_pipeline_icmp (data : bytes) (h : chandler) : CM unit :=
  if 0 <? pipeline_num ccfg then
    r <- sv_search_default_pipeline ;;
    match r with
    | None => c_call_broken h
    | Some p => pl_session_async_send_icmp c_call_broken p data h
    end
  else skip.

(** [stop]: the part that concerns the pipelines. *)
Definition sv_stop_pipelines : CM unit :=
  w <- gets id ;;
  match pipelines w with
  | [] => skip
  | _ :: _ =>
    let l := fst (clear_weak_ptr_list (fun p => bool_decide (pipes w !! p = None)) (pipelines w)) in
    modify (fun w => w <| pipelines := l |>) ;;;
    c_for_each pl_destroy l ;;;
    modify (fun w => w <| pipelines := [] |>)
  end.

(** A new session for the next connection, and the end of [async_accept]. *)
Definition sv_accepted : CM unit :=
  w <- gets id ;;
  r <- lift (allocate_session_id (c_ids w)) ;;
  let h := c_next w in
  modify (fun w => w <| c_ids := snd r |> <| c_next ::= S |>
                     <| c_objs ::= <[h := new_session_of accept_kind ccfg (fst r)]> |>) ;;;
  ec <- c_ask remote_ec ;;
  when (ec =? 0) (sv_start_session h (HStarted h)).

(** ** Runs *)

Definition c_complete (o : cop) (c : ccompletion) : CM unit :=
  match o, c with
  | CInRead this, CReceived ec data _ => cs_in_read_done this ec data
  | CInWrite this b n, CDone ec => cs_in_write_done this b n ec
  | COutRead this, CReceived ec data _ => cs_out_read_done this ec data
  | COutWrite this b, CDone ec => cs_out_write_done this b ec
  | CUdpRead this, CReceived ec data from => cs_udp_read_done this ec data from
  | CUdpWrite this b, CDone ec => cs_udp_write_done this b ec
  | CResolve this, CResolved ec results => cs_resolve_done this ec results
  | CConnect this, CDone ec => cs_connect_done this ec
  | CConnectTimer this, CDone ec => if ec =? 0 then cs_destroy this false else skip
  | CSslHandshake this, CDone ec => cs_ssl_done this ec
  | CTimer this n, CDone ec => cs_udp_timer_fired this n ec
  | LResolve p, CResolved ec results => pl_resolve_done p ec results
  | LConnect p, CDone ec => pl_connect_done p ec
  | LConnectTimer p, CDone ec => if ec =? 0 then pl_destroy p else skip
  | LSslHandshake p, CDone ec => pl_ssl_done p ec
  | LRead p, CReceived ec data _ => pl_read_done p ec data
  | LWrite p, CDone ec => pl_write_done p ec
  | _, _ => skip
  end.

(** The shared pointers to a session: of operations in progress, of pipelines, of
    handlers in their caches. *)
Definition cop_this (o : cop) : option nat :=
  match o with
  | CInRead h | CInWrite h _ _ | COutRead h | COutWrite h _ | CUdpRead h | CUdpWrite h _
  | CResolve h | CConnect h | CConnectTimer h | CSslHandshake h | CTimer h _ => Some h
  | _ => None
  end.
Definition cop_pipe (o : cop) : option nat :=
  match o with
  | LResolve p | LConnect p | LConnectTimer p | LSslHandshake p | LRead p | LWrite p => Some p
  | _ => None
  end.
Definition chandler_this (h : chandler) : option nat :=
  match h with HStarted t | HAcked t | HOutSent t => Some t | HNone => None end.
Definition c_referenced (w : cworld) (h : nat) : bool :=
  existsb (fun o => bool_decide (cop_this o = Some h)) (c_pending w) ||
  existsb (fun '(_, l) =>
    is_in_pipeline l h ||
    existsb (fun t => bool_decide (chandler_this t = Some h))
      (SendDataCache.handler_queue (pl_cache l) ++ SendDataCache.handler_queue_other (pl_cache l)))
    (map_to_list (pipes w)).

(** The destructors: of a session nothing points to (it gives its id back), of a
    pipeline no operation in progress holds. *)
Definition cs_freed (h : nat) : CM unit :=
  w <- gets id ;;
  match c_objs w !! h with
  | Some s =>
    when (negb (c_referenced w h))
      (modify (fun w => w <| c_ids := snd (free_session_id (m_session_id (c_com s)) (c_ids w)) |>
                          <| c_objs ::= delete h |>))
  | None => skip
  end.
Definition pl_freed (p : nat) : CM unit :=
  w <- gets id ;;
  when (negb (existsb (fun o => bool_decide (cop_pipe o = Some p)) (c_pending w)))
    (modify (fun w => w <| pipes ::= delete p |>)).

Inductive cevent :=
| CComplete (i : nat) (c : ccompletion)
| CClock (t : Z)
| CAccept
| CFreed (h : nat)
| CPipeFreed (p : nat).

(** An operation ends with its kind of completion. *)
Definition c_answers (o : cop) (c : ccompletion) : bool :=
  match o, c with
  | (CInRead _ | COutRead _ | CUdpRead _ | LRead _), CReceived _ _ _ => true
  | (CResolve _ | LResolve _), CResolved _ _ => true
  | (CInRead _ | COutRead _ | CUdpRead _ | LRead _ | CResolve _ | LResolve _), _ => false
  | _, CDone _ => true
  | _, _ => false
  end.

Definition c_step (e : cevent) : CM unit :=
  match e with
  | CComplete i c =>
    w <- gets id ;;
    match c_pending w !! i with
    | Some o =>
      if c_answers o c then modify (fun w => w <| c_pending ::= delete i |>) ;;; c_complete o c else skip
    | None => skip
    end
  | CClock t => modify (fun w => w <| c_now := t |>)
  | CAccept => sv_accepted
  | CFreed h => cs_freed h
  | CPipeFreed p => pl_freed p
  end.

Fixpoint c_run (es : list cevent) : CM unit :=
  match es with
  | [] => skip
  | e :: es => c_step e ;;; c_run es
  end.

Definition c_init : cworld :=
  mkCWorld ∅ 0 ∅ [] 0 0 no_ids empty_allocator [] [] 1 0.

End Client.
