(* ===== verification/ClientTheorems.v ===== *)
(** * The client side: what its operations do, and that the server understands it

    The SOCKS5 negotiation, the translation of the application's requests and
    datagrams into what [ServerSession] parses, the first octets of a pipeline,
    and the choice of a pipeline for a session. *)

From Stdlib Require Import ZArith Lia.
From S2P Require Import Prelude Utils Address Trojan UdpPacket PipelineProto Caches ReadCache.
From S2P Require Import PipelineComponent Session ServerWorld ServerSide ServerProofs ServerTheorems.
From S2P Require Import ClientWorld ClientSide.
Import Streambuf ReadBuf Stat Allocator PipelineComponent Codec.
Local Open Scope Z_scope.
Local Open Scope handler_scope.

(** ** The SOCKS5 greeting *)

(** A greeting: version, number of methods, methods. *)
Definition greeting (methods : bytes) : bytes := Byte.x05 :: z2b (zlen methods) :: methods.

Lemma greeting_valid methods :
  zlen methods <= 255 -> socks5_is_invalid_handshake_data (greeting methods) = false.
Proof.
  intros Hm. unfold socks5_is_invalid_handshake_data, greeting.
  pose proof (zlen_nonneg methods). rewrite !zlen_cons.
  destruct (Z.ltb_spec (1 + (1 + zlen methods)) 2); [lia|]. cbn [orb].
  change (schar Byte.x05) with 5. cbn [Z.eqb negb orb].
  rewrite b2z_z2b, u8_small by lia. apply negb_false_iff, Z.eqb_eq. lia.
Qed.

Lemma greeting_has_method methods :
  zlen methods <= 127 -> has_method (greeting methods) = true <-> Byte.x00 ∈ methods.
Proof.
  intros Hm. pose proof (zlen_nonneg methods). unfold has_method, greeting.
  assert (E : schar (z2b (zlen methods)) = zlen methods).
  { unfold schar. rewrite b2z_z2b, u8_small by lia. destruct (Z.ltb_spec (zlen methods) 128); lia. }
  rewrite E. unfold zlen at 1. rewrite Nat2Z.id, firstn_all. rewrite existsb_exists. split.
  - intros (m & Hin & Hm0). apply list_elem_of_In in Hin.
    assert (m = Byte.x00) as ->; [|done]. apply b2z_inj. change (b2z Byte.x00) with 0.
    apply Z.eqb_eq in Hm0.
    unfold schar in Hm0. pose proof (b2z_range m). destruct (Z.ltb_spec (b2z m) 128); lia.
  - intros Hin. exists Byte.x00. split; [by apply list_elem_of_In|done].
Qed.

(** With more than 127 methods the signed bound of the loop is negative. *)
Lemma greeting_many_methods methods :
  128 <= zlen methods <= 255 -> has_method (greeting methods) = false.
Proof.
  intros Hm. unfold has_method, greeting.
  assert (E : schar (z2b (zlen methods)) = zlen methods - 256).
  { unfold schar. rewrite b2z_z2b, u8_small by lia. destruct (Z.ltb_spec (zlen methods) 128); lia. }
  rewrite E. replace (Z.to_nat (zlen methods - 256)) with O by lia. done.
Qed.

Section Session.
Context (configs : nat -> Config) (balance_num : nat) (config_hash : nat -> Z) (icmp : bool).
Context (make_address : bytes -> option address) (udp_local : nat -> endpoint).
Context (system_ec remote_ec cancel_ec : nat -> error_code) (depth : nat).

Notation in_recv' := (cs_in_recv configs make_address udp_local system_ec cancel_ec).
Notation ready' := (cs_remote_ready configs cancel_ec depth).

(** What a write to the application leaves behind. *)
Lemma in_async_write_spec w h s data n :
  c_objs w !! h = Some s -> forwards_in_pipeline s = false ->
  exists w' b, cs_in_async_write h data n w = Ret (tt, w') /\
    c_objs w' = c_objs w /\ c_trace w' = c_trace w ++ [ToApp h data] /\
    c_pending w' = c_pending w ++ [CInWrite h b n] /\ pipes w' = pipes w.
Proof.
  intros Hs Hf. unfold cs_in_async_write, bind, getC, c_allocate_buf. rewrite Hs, Hf. cbn [when skip ret].
  destruct (allocate (c_alloc w) data) as [b a] eqn:E. eexists _, b.
  split; [reflexivity|]. by split_and!.
Qed.

(** A greeting of at most 127 methods is answered with "no authentication"
    exactly when it offers that method, and refused otherwise; the session then
    closes after the refusal. *)
Theorem socks5_greeting_answer w h s methods :
  c_objs w !! h = Some s -> c_status s = C_HANDSHAKE -> zlen methods <= 127 ->
  exists w' b, in_recv' h (greeting methods) w = Ret (tt, w') /\
    c_pending w' = c_pending w ++ [CInWrite h b 0] /\
    c_trace w' = c_trace w ++ [ToApp h (if bool_decide (Byte.x00 ∈ methods)
      then socks5_handshake_reply_succ else socks5_handshake_reply_failed)] /\
    (c_status <$> c_objs w' !! h) =
      Some (if bool_decide (Byte.x00 ∈ methods) then C_HANDSHAKE else C_INVALID).
Proof.
  intros Hs Hst Hm. unfold cs_in_recv, bind at 1, getC at 1. rewrite Hs, Hst.
  unfold cs_in_handshake. rewrite greeting_valid by lia.
  assert (Hf : forwards_in_pipeline s = false).
  { unfold forwards_in_pipeline. rewrite Hst. by rewrite andb_false_r. }
  destruct (has_method (greeting methods)) eqn:E; cbn [negb].
  - apply greeting_has_method in E; [|done]. rewrite bool_decide_true by done.
    destruct (in_async_write_spec w h s socks5_handshake_reply_succ 0 Hs Hf)
      as (w' & b & H & Ho & Ht & Hp & _).
    exists w', b. split_and!; [done|done|done|]. by rewrite Ho, Hs, <- Hst.
  - assert (Hn : Byte.x00 ∉ methods) by (intros Hin%greeting_has_method; [congruence|done]).
    rewrite bool_decide_false by done.
    destruct (in_async_write_spec w h s socks5_handshake_reply_failed 0 Hs Hf)
      as (w' & b & H & Ho & Ht & Hp & _).
    unfold bind. rewrite H. eexists _, b. split; [reflexivity|]. cbn. split_and!; [done|done|].
    by rewrite Ho, lookup_alter_eq, Hs.
Qed.

(** A greeting of 128 to 255 methods is refused even when it offers "no
    authentication": the loop over the methods compares with a signed [char]. *)
Theorem socks5_greeting_many_methods_refused w h s methods :
  c_objs w !! h = Some s -> c_status s = C_HANDSHAKE -> 128 <= zlen methods <= 255 ->
  exists w', in_recv' h (greeting methods) w = Ret (tt, w') /\
    c_trace w' = c_trace w ++ [ToApp h socks5_handshake_reply_failed].
Proof.
  intros Hs Hst Hm. unfold cs_in_recv, bind at 1, getC at 1. rewrite Hs, Hst.
  unfold cs_in_handshake. rewrite greeting_valid, greeting_many_methods by lia. cbn [negb].
  assert (Hf : forwards_in_pipeline s = false).
  { unfold forwards_in_pipeline. rewrite Hst. by rewrite andb_false_r. }
  destruct (in_async_write_spec w h s socks5_handshake_reply_failed 0 Hs Hf)
    as (w' & b & H & _ & Ht & _). unfold bind. rewrite H. by eexists.
Qed.

(** ** The request *)

(** A SOCKS5 request with command [c] for the address encoded as [aw]. *)
Definition socks5_request (c : TrojanRequest.Command) (aw : bytes) : bytes :=
  [Byte.x05; z2b (TrojanRequest.command_value c); Byte.x00] ++ aw.

(** What the session prepares for the server. *)
Definition request_text (pw : bytes) (c : TrojanRequest.Command) (aw : bytes) : bytes :=
  pw ++ CRLF ++ [z2b (TrojanRequest.command_value c)] ++ aw ++ CRLF.

Lemma build_request_eq pw c aw :
  cs_build_request pw (socks5_request c aw) = Ret (request_text pw c aw).
Proof.
  unfold cs_build_request, request_text, socks5_request. cbn [app].
  change (at_ (Byte.x05 :: z2b (TrojanRequest.command_value c) :: Byte.x00 :: aw) 1)
    with (Ret (z2b (TrojanRequest.command_value c))). cbn [obind].
  rewrite substr_from_ok by zlen_lia. cbn [obind].
  change (drop (Z.to_nat 3) (Byte.x05 :: z2b (TrojanRequest.command_value c) :: Byte.x00 :: aw)) with aw.
  rewrite !append_crlf, append_string_eq, append_view_eq. cbn [append_char fst].
  by rewrite <- !app_assoc.
Qed.

Lemma request_text_wire pw c a aw payload :
  find_ CRLF pw = None -> Socks5.wire a aw ->
  TrojanRequest.wire (TrojanRequest.mkTrojanRequest pw c a payload) (request_text pw c aw ++ payload).
Proof.
  intros Hpw Ha. split; [done|]. exists aw. split; [done|].
  unfold request_text. by rewrite <- !app_assoc.
Qed.

Lemma request_valid c a aw :
  Socks5.wire a aw -> socks5_is_invalid_quest_data (socks5_request c aw) = false.
Proof.
  intros Ha. pose proof (Socks5.wire_length a aw Ha). unfold socks5_is_invalid_quest_data, socks5_request.
  cbn [app]. rewrite !zlen_cons. by destruct (Z.ltb_spec (1 + (1 + (1 + zlen aw))) 7); [lia|].
Qed.

(** The server's parser and password check accept it. *)
Lemma request_accepted scfg auth pw c a aw payload v :
  find_ CRLF pw = None -> Socks5.wire a aw -> map_find pw (Session.password scfg) = Some v ->
  zlen (request_text pw c aw ++ payload) < 2147483648 ->
  accepted scfg auth (request_text pw c aw ++ payload) =
    Some (TrojanRequest.mkTrojanRequest pw c a payload).
Proof.
  intros Hpw Ha Hv Hl. unfold accepted.
  rewrite (TrojanRequest.request_parse_wire _ _ (request_text_wire pw c a aw payload Hpw Ha)).
  pose proof (zlen_nonneg (request_text pw c aw ++ payload)).
  rewrite PipelineRequest.i32_small by lia.
  destruct (Z.eqb_spec (zlen (request_text pw c aw ++ payload)) (-1)); [lia|].
  cbn [TrojanRequest.password]. by rewrite Hv.
Qed.

(** The addresses the session takes: names, and those Boost can read. *)
Definition address_usable (a : Socks5.SOCKS5Address) : Prop :=
  Socks5.address_type a = Socks5.DOMAINNAME \/
  is_Some (make_udp_endpoint_safe make_address (Socks5.addr a) (Socks5.port a)).

Lemma in_request_connect w h s pw v rest a aw :
  c_objs w !! h = Some s -> c_status s = C_REQUEST ->
  Session.password (configs 0%nat) = (pw, v) :: rest -> find_ CRLF pw = None ->
  Socks5.wire a aw -> address_usable a -> zlen (request_text pw TrojanRequest.CONNECT aw) < 2147483648 ->
  exists w' b, in_recv' h (socks5_request TrojanRequest.CONNECT aw) w = Ret (tt, w') /\
    c_trace w' = c_trace w ++ [ToApp h socks5_request_reply_succ_tcp] /\
    c_pending w' = c_pending w ++ [CInWrite h b 0] /\
    c_objs w' !! h = Some (s <| c_out_write_buf := request_text pw TrojanRequest.CONNECT aw |>
                             <| c_timer ::= UdpTimer.set_udp_forward_session false |>).
Proof.
  intros Hs Hst Hcfg Hpw Ha Hu Hl. unfold cs_in_recv, bind at 1, getC at 1. rewrite Hs, Hst.
  unfold cs_in_request. rewrite (request_valid _ a) by done. unfold ccfg. rewrite Hcfg.
  unfold bind at 1, lift at 1. rewrite build_request_eq.
  unfold bind at 1, modC at 1, modify at 1. set (w1 := w <| c_objs ::= _ |>).
  unfold bind at 1, lift at 1.
  pose proof (request_text_wire pw TrojanRequest.CONNECT a aw [] Hpw Ha) as Hw. rewrite app_nil_r in Hw.
  rewrite (TrojanRequest.request_parse_wire _ _ Hw). cbn [fst snd].
  pose proof (zlen_nonneg (request_text pw TrojanRequest.CONNECT aw)).
  rewrite PipelineRequest.i32_small by lia.
  destruct (Z.eqb_spec (zlen (request_text pw TrojanRequest.CONNECT aw)) (-1)); [lia|].
  cbn [TrojanRequest.req_address TrojanRequest.command].
  set (bad := match Socks5.address_type a with Socks5.DOMAINNAME => false | _ => _ end).
  assert (bad = false) as ->.
  { unfold bad. destruct Hu as [->|[ep ->]]; [done|]. by destruct (Socks5.address_type a). }
  unfold bind at 1, modC at 1, modify at 1. set (w2 := w1 <| c_objs ::= _ |>).
  set (s2 := s <| c_out_write_buf := request_text pw TrojanRequest.CONNECT aw |>
               <| c_timer ::= UdpTimer.set_udp_forward_session false |>).
  assert (Hs2 : c_objs w2 !! h = Some s2).
  { unfold w2, w1. cbn. by rewrite !lookup_alter_eq, Hs. }
  assert (Hf : forwards_in_pipeline s2 = false).
  { unfold forwards_in_pipeline. cbn. rewrite Hst. by rewrite andb_false_r. }
  destruct (in_async_write_spec w2 h s2 socks5_request_reply_succ_tcp 0 Hs2 Hf)
    as (w' & b & H' & Ho & Ht & Hp & _).
  exists w', b. split; [done|]. rewrite Ho. by split_and!.
Qed.

(** A SOCKS5 request to connect, to a name or to an address that can be read,
    is answered with success, and the session keeps for the server exactly the
    password, the command, the requested address as it was encoded, and the
    separators. *)
Theorem socks5_connect_request_kept w h s pw v rest a aw :
  c_objs w !! h = Some s -> c_status s = C_REQUEST ->
  Session.password (configs 0%nat) = (pw, v) :: rest -> find_ CRLF pw = None ->
  Socks5.wire a aw -> address_usable a -> zlen (request_text pw TrojanRequest.CONNECT aw) < 2147483648 ->
  exists w' b s', in_recv' h (socks5_request TrojanRequest.CONNECT aw) w = Ret (tt, w') /\
    c_trace w' = c_trace w ++ [ToApp h socks5_request_reply_succ_tcp] /\
    c_pending w' = c_pending w ++ [CInWrite h b 0] /\
    c_objs w' !! h = Some s' /\ c_status s' = C_REQUEST /\
    c_out_write_buf s' = request_text pw TrojanRequest.CONNECT aw.
Proof.
  intros Hs Hst Hcfg Hpw Ha Hu Hl.
  destruct (in_request_connect w h s pw v rest a aw Hs Hst Hcfg Hpw Ha Hu Hl) as (w' & b & ?&?&?&Ho).
  eexists w', b, _. by split_and!.
Qed.

(** *** The tunnel is ready *)

Lemma remote_ready_direct w h s :
  c_objs w !! h = Some s -> m_is_use_pipeline (c_com s) = false ->
  UdpTimer.is_udp_forward (c_timer s) = false -> first_packet_recv s = false ->
  read_buf_guard (c_out_read_buf s) = false -> depth <> O ->
  exists w' b s', ready' h w = Ret (tt, w') /\
    c_trace w' = c_trace w ++ [CancelIn h; ToServer h (c_out_write_buf s)] /\
    c_pending w' = c_pending w ++ [COutRead h; COutWrite h b] /\
    c_objs w' !! h = Some s' /\ c_status s' = C_FORWARD.
Proof.
  intros Hs Hp Hu Hf Hg Hd. destruct depth as [|d]; [done|].
  unfold cs_remote_ready, cs_out_async_read, cs_out_async_write, c_guarded_read, begin_read, bind,
    getC, modC, modify, when, c_emit, lift, c_allocate_buf. cbn [cs_out_async_read_].
  unfold c_guarded_read, begin_read, bind, getC, modC, modify, when, lift.
  rewrite Hs, Hu, Hf. cbn -[alter lookup]. rewrite lookup_alter_eq, Hs. cbn -[alter lookup].
  rewrite Hp. cbn -[alter lookup]. rewrite lookup_alter_eq, Hs. cbn -[alter lookup].
  rewrite Hg. cbn -[alter lookup]. rewrite !lookup_alter_eq, Hs. cbn -[alter lookup].
  rewrite !lookup_alter_eq, Hs. cbn -[alter lookup]. rewrite Hp. cbn -[alter lookup].
  unfold to_view. destruct (allocate (c_alloc w) (c_out_write_buf s)) as [b a] eqn:E.
  eexists _, b, _. split; [reflexivity|]. cbn -[alter lookup].
  split_and!; [by rewrite <- app_assoc|by rewrite <- app_assoc| |].
  - by rewrite !lookup_alter_eq, Hs.
  - done.
Qed.

Lemma in_sent_requests w h s :
  c_objs w !! h = Some s -> c_status s = C_REQUEST -> m_is_use_pipeline (c_com s) = false ->
  exists w', cs_in_sent configs cancel_ec depth h w = Ret (tt, w') /\
    c_trace w' = c_trace w ++
      [ConnectTo h (remote_addr (configs 0%nat)) (Text.to_string (remote_port (configs 0%nat)))] /\
    c_pending w' = c_pending w ++ [CResolve h] /\
    c_objs w' !! h = Some (s <| c_status := C_CONNECT |>).
Proof.
  intros Hs Hst Hp. unfold cs_in_sent, cs_request_remote, bind, getC, modC, modify. rewrite Hs, Hst.
  cbn -[alter lookup]. rewrite lookup_alter_eq, Hs. cbn -[alter lookup]. rewrite Hp.
  eexists. split; [reflexivity|]. cbn -[alter lookup]. split_and!; [done|done|].
  by rewrite lookup_alter_eq, Hs.
Qed.

(** The handlers of a request, in the order they are called: the request is
    read, the answer is written, the tunnel is ready. *)
Definition serve_request (h : nat) (data : bytes) : CM unit :=
  in_recv' h data ;;; cs_in_sent configs cancel_ec depth h ;;; cs_ssl_done configs cancel_ec depth h 0.

Lemma in_request_keeps w h s pw v rest a aw :
  c_objs w !! h = Some s -> c_status s = C_REQUEST ->
  Session.password (configs 0%nat) = (pw, v) :: rest -> find_ CRLF pw = None ->
  Socks5.wire a aw -> address_usable a -> zlen (request_text pw TrojanRequest.CONNECT aw) < 2147483648 ->
  m_is_use_pipeline (c_com s) = false -> first_packet_recv s = false ->
  read_buf_guard (c_out_read_buf s) = false -> depth <> O ->
  exists w', serve_request h (socks5_request TrojanRequest.CONNECT aw) w = Ret (tt, w') /\
    c_trace w' = c_trace w ++
      [ToApp h socks5_request_reply_succ_tcp;
       ConnectTo h (remote_addr (configs 0%nat)) (Text.to_string (remote_port (configs 0%nat)));
       CancelIn h; ToServer h (request_text pw TrojanRequest.CONNECT aw)].
Proof.
  intros Hs Hst Hcfg Hpw Ha Hu Hl Hp Hf Hg Hd.
  destruct (in_request_connect w h s pw v rest a aw Hs Hst Hcfg Hpw Ha Hu Hl) as (w1 & b1 & E1 & T1 & _ & S1).
  edestruct (in_sent_requests w1 h _ S1) as (w2 & E2 & T2 & _ & S2); [done|done|].
  edestruct (remote_ready_direct w2 h _ S2) as (w3 & b3 & s3 & E3 & T3 & _ & _); try done.
  exists w3. unfold serve_request, bind. rewrite E1, E2. unfold cs_ssl_done. cbn [Z.eqb negb].
  split; [exact E3|]. by rewrite T3, T2, T1, <- !app_assoc.
Qed.

(** ** Datagrams *)

(** A datagram of the application: three zero octets, the target, the payload. *)
Definition socks5_datagram (aw payload : bytes) : bytes :=
  [Byte.x00; Byte.x00; Byte.x00] ++ aw ++ payload.

Lemma udp_packet_eq buf aw payload :
  zlen payload < 65536 ->
  cs_udp_packet buf (socks5_datagram aw payload) (zlen aw) (zlen payload) =
    Ret (buf ++ aw ++ be16 (zlen payload) ++ CRLF ++ payload).
Proof.
  intros Hl. unfold cs_udp_packet, socks5_datagram.
  rewrite substr_ok by zlen_lia. cbn [obind].
  rewrite substr_from_ok by zlen_lia. cbn [obind].
  change (sub_ ([Byte.x00; Byte.x00; Byte.x00] ++ aw ++ payload) 3 (zlen aw)) with
    (sub_ ([Byte.x00; Byte.x00; Byte.x00] ++ aw ++ payload) (zlen [Byte.x00; Byte.x00; Byte.x00]) (zlen aw)).
  rewrite sub_app by done.
  rewrite (app_assoc [Byte.x00; Byte.x00; Byte.x00] aw payload), drop_zlen_app' by zlen_lia.
  rewrite !append_view_eq, append_crlf. cbn [append_char fst].
  rewrite shiftr_div by (vm_compute; discriminate). change (2 ^ one_byte_shift_8_bits) with 256.
  unfold one_byte_mask_0xFF. rewrite z2b_land, <- !app_assoc. done.
Qed.

Lemma timer_keeps w h s :
  c_objs w !! h = Some s -> (forall n, cancel_ec n = 0) ->
  exists w' t, cs_udp_timer_async_wait configs cancel_ec h (-1) w = Ret (tt, w') /\
    c_objs w' !! h = Some (s <| c_timer := t |>) /\ c_trace w' = c_trace w /\ pipes w' = pipes w /\
    pipelines w' = pipelines w.
Proof.
  intros Hs Hc. unfold cs_udp_timer_async_wait, cs_udp_timer_act, bind, getC, gets, c_ask.
  rewrite Hs, Hc. set (r := UdpTimer.udp_timer_async_wait _ _ _ _ _).
  assert (Hr : snd r <> UdpTimer.Expire).
  { unfold r, UdpTimer.udp_timer_async_wait. cbn [Z.eqb negb].
    repeat (match goal with |- context [if ?b then _ else _] => destruct b end); done. }
  unfold modC, modify. cbn -[alter lookup].
  destruct (snd r) eqn:Er; [| |done]; eexists _, (fst r); (split; [reflexivity|]); cbn -[alter lookup];
    rewrite lookup_alter_eq, Hs; by split_and!.
Qed.

(** A datagram of the application, relayed by a session with a tunnel of its
    own, is written to the server as one packet that the server's parser reads
    back, whatever follows it: the same target and the same payload. *)
Theorem udp_datagram_reaches_server w h s a aw payload :
  c_objs w !! h = Some s -> c_status s = C_UDP_FORWARD -> m_is_use_pipeline (c_com s) = false ->
  (forall n, cancel_ec n = 0) -> Socks5.wire a aw -> zlen payload < 65536 ->
  exists w' packet, cs_udp_recv configs cancel_ec h (socks5_datagram aw payload) w = Ret (tt, w') /\
    c_trace w' = c_trace w ++ [ToServer h packet] /\
    forall rest, UDPPacket.parse (packet ++ rest) =
      Ret (Some (UDPPacket.mkUDPPacket a (zlen payload) payload, zlen packet)).
Proof.
  intros Hs Hst Hp Hc Ha Hl. pose proof (Socks5.wire_length a aw Ha) as Hw.
  set (packet := aw ++ be16 (zlen payload) ++ CRLF ++ payload).
  assert (Hpk : UDPPacket.wire (UDPPacket.mkUDPPacket a (zlen payload) payload) packet).
  { split; [done|]. split; [pose proof (zlen_nonneg payload); cbn; lia|]. by exists aw. }
  destruct (timer_keeps w h s Hs Hc) as (w1 & t & E1 & S1 & T1 & _).
  unfold cs_udp_recv. assert (Hz : zlen (socks5_datagram aw payload) =? 0 = false).
  { apply Z.eqb_neq. unfold socks5_datagram. zlen_lia. }
  rewrite Hz. change (udp_header_bad (socks5_datagram aw payload)) with false. cbn iota.
  unfold bind at 1, lift at 1. rewrite substr_from_ok by (unfold socks5_datagram; zlen_lia).
  change (drop (Z.to_nat 3) (socks5_datagram aw payload)) with (aw ++ payload).
  unfold bind at 1, lift at 1. rewrite (Socks5.socks5_parse_wire _ _ _ Ha).
  unfold bind at 1. rewrite E1.
  assert (Hlen : u64 (zlen (socks5_datagram aw payload) - 3 - zlen aw) = zlen payload).
  { unfold u64, socks5_datagram. rewrite Z.mod_small; zlen_lia. }
  rewrite Hlen. unfold bind at 1, modC at 1, modify at 1. unfold bind at 1, getC at 1.
  cbn [c_objs update]. rewrite lookup_alter_eq, S1. cbn [fmap option_fmap option_map].
  cbn [c_status update]. rewrite Hst.
  unfold bind at 1, lift at 1. rewrite udp_packet_eq by done. fold packet.
  cbn [c_udp_recv_buf update]. rewrite consume_all_nil. cbn [app].
  unfold bind at 1, modC at 1, modify at 1. unfold cs_out_async_write, bind at 1, getC at 1.
  cbn [c_objs update]. rewrite !lookup_alter_eq, S1. cbn -[alter lookup]. rewrite Hp.
  unfold bind, c_allocate_buf. cbn -[alter lookup].
  destruct (allocate (c_alloc w1) packet) as [b al] eqn:Eal. unfold to_view. rewrite Eal.
  eexists _, packet. split; [reflexivity|]. cbn -[alter lookup]. split; [by rewrite T1|].
  intros rest. by apply UDPPacket.packet_parse_wire.
Qed.

(** A packet the server's framing carries back is written to the application
    as one datagram with the same source and payload, and exactly that packet
    leaves the buffer. *)
Theorem udp_packet_reaches_application w h s p aw rest :
  c_objs w !! h = Some s -> c_status s = C_UDP_FORWARD -> (forall n, cancel_ec n = 0) ->
  Socks5.wire (UDPPacket.pkt_address p) aw -> zlen (UDPPacket.payload p) = UDPPacket.length p ->
  UDPPacket.length p < 65536 ->
  c_udp_data_buf s = aw ++ be16 (UDPPacket.length p) ++ CRLF ++ UDPPacket.payload p ++ rest ->
  exists w' s', cs_udp_sent configs cancel_ec depth h w = Ret (tt, w') /\
    c_trace w' = c_trace w ++
      [UdpToApp h (socks5_datagram aw (UDPPacket.payload p)) (c_udp_recv_endpoint s)] /\
    c_objs w' !! h = Some s' /\ c_udp_data_buf s' = rest.
Proof.
  intros Hs Hst Hc Ha Hlen Hl Hbuf.
  set (packet := aw ++ be16 (UDPPacket.length p) ++ CRLF ++ UDPPacket.payload p).
  assert (Hpk : UDPPacket.wire p packet).
  { split; [done|]. split; [pose proof (zlen_nonneg (UDPPacket.payload p)); lia|]. by exists aw. }
  assert (Hbuf' : c_udp_data_buf s = packet ++ rest) by (rewrite Hbuf; unfold packet; by rewrite <- !app_assoc).
  destruct (timer_keeps w h s Hs Hc) as (w1 & t & E1 & S1 & T1 & _).
  unfold cs_udp_sent, cs_udp_sent_, bind at 1, getC at 1. rewrite Hs, bool_decide_true by done. cbn [negb].
  unfold bind at 1. rewrite E1. unfold bind at 1, getC at 1. rewrite S1. cbn [c_udp_data_buf update].
  unfold to_view. unfold bind at 1, lift at 1. rewrite Hbuf', (UDPPacket.packet_parse_wire _ _ _ Hpk).
  unfold bind at 1, lift at 1.
  assert (Haddr : Socks5.parse (packet ++ rest) = Ret (Some (UDPPacket.pkt_address p, zlen aw))).
  { unfold packet. rewrite <- app_assoc. by apply Socks5.socks5_parse_wire. }
  rewrite Haddr. cbn [c_udp_send_buf update].
  set (buf := fst (append_view _ _)).
  assert (Hb : buf = socks5_datagram aw (UDPPacket.payload p)).
  { unfold buf, socks5_datagram. rewrite append_view_eq, consume_all_nil.
    change (fst (append_data [] (Some [Byte.x00; Byte.x00; Byte.x00]) 3)) with [Byte.x00; Byte.x00; Byte.x00].
    pose proof (Socks5.wire_length _ _ Ha) as Hw. unfold append_range.
    assert (Hpl : zlen aw <= zlen (packet ++ rest)) by (unfold packet; zlen_lia).
    unfold u64. rewrite Z.mod_small by lia.
    destruct (Z.leb_spec (zlen (packet ++ rest)) 0); [lia|].
    destruct (Z.ltb_spec (zlen (packet ++ rest)) (0 + zlen aw)); [lia|]. cbn [fst].
    assert (Hsub : sub_ (packet ++ rest) 0 (zlen aw) = aw).
    { unfold packet. rewrite <- app_assoc. by apply (sub_app [] aw). }
    by rewrite Hsub, <- app_assoc. }
  unfold bind at 1, modC at 1, modify at 1. unfold bind at 1, modC at 1, modify at 1.
  unfold cs_udp_async_write, bind, c_allocate_buf. cbn -[alter lookup].
  destruct (allocate (c_alloc w1) buf) as [b al] eqn:Eal.
  eexists _, _. split; [reflexivity|]. cbn -[alter lookup]. split_and!; [by rewrite T1, Hb| |].
  - rewrite !lookup_alter_eq, S1. cbn. reflexivity.
  - cbn. rewrite Hbuf'. unfold consume. apply drop_zlen_app.
Qed.

End Session.

(** ** From the application to the target *)

(** C3: client and server agree on the request: what a client session writes to
    the server for a SOCKS5 request to connect, received by a server session
    that knows the password together with any first payload, makes that session
    ask for a connection to the requested address and port, with that payload as
    what will be written there. *)
Theorem request_reaches_target configs make_address udp_local csys ccancel cdepth w h s pw v rest a aw
    scfg auth smake alpn ssys scancel sdepth ws hs ss payload u :
  c_objs w !! h = Some s -> c_status s = C_REQUEST ->
  Session.password (configs 0%nat) = (pw, v) :: rest -> find_ CRLF pw = None ->
  Socks5.wire a aw -> address_usable make_address a ->
  m_is_use_pipeline (c_com s) = false -> first_packet_recv s = false ->
  read_buf_guard (c_out_read_buf s) = false -> cdepth <> O ->
  objs ws !! hs = Some ss -> status ss = HANDSHAKE -> has_queried_out ss = false ->
  out_write_buf ss = [] -> map_find pw (Session.password scfg) = Some u ->
  zlen (request_text pw TrojanRequest.CONNECT aw ++ payload) < 2147483648 ->
  exists w' text ws',
    serve_request configs make_address udp_local csys ccancel cdepth h
      (socks5_request TrojanRequest.CONNECT aw) w = Ret (tt, w') /\
    (exists before, c_trace w' = before ++ [ToServer h text]) /\
    ss_in_recv scfg auth smake alpn ssys scancel sdepth hs (text ++ payload) 0 ws = Ret (tt, ws') /\
    trace ws' = trace ws ++ [Connecting hs (Socks5.addr a) (Text.to_string (Socks5.port a))] /\
    exists ss', objs ws' !! hs = Some ss' /\ out_write_buf ss' = payload.
Proof.
  intros Hs Hst Hcfg Hpw Ha Hu Hp Hf Hg Hd Hss Hsst Hq Hb Hk Hl.
  assert (Hl' : zlen (request_text pw TrojanRequest.CONNECT aw) < 2147483648)
    by (pose proof (zlen_nonneg payload); rewrite zlen_app in Hl; lia).
  destruct (in_request_keeps configs make_address udp_local csys ccancel cdepth w h s pw v rest a aw
    Hs Hst Hcfg Hpw Ha Hu Hl' Hp Hf Hg Hd) as (w' & E & T).
  destruct (in_recv_connects scfg auth smake alpn ssys scancel sdepth ws hs ss
    (request_text pw TrojanRequest.CONNECT aw ++ payload) _ Hss Hsst Hq Hb
    (request_accepted scfg auth pw TrojanRequest.CONNECT a aw payload u Hpw Ha Hk Hl) eq_refl)
    as (ws' & Es & Ts & _ & ss' & Hss' & Hb' & _).
  exists w', (request_text pw TrojanRequest.CONNECT aw), ws'. split_and!; [done| |done|done|eauto].
  eexists. rewrite T. exact (app_assoc _ [_; _; _] [_]).
Qed.

(** ** The first octets of a pipeline *)

#[local] Arguments SendDataCache.written : simpl never.
#[local] Arguments SendDataCache.pushed : simpl never.

Definition is_push {H} (o : @SendDataCache.op H) : bool :=
  match o with SendDataCache.Push _ _ => true | _ => false end.

(** Nothing is written before the pipeline is connected. *)
Record waiting_cache {H} (c : @SendDataCache.cache H) : Prop := {
  wc_connected : SendDataCache.connected c = false;
  wc_sending : SendDataCache.is_async_sending c = false;
  wc_destroyed : SendDataCache.destroyed c = false;
  wc_written : SendDataCache.written (SendDataCache.log c) = []
}.

Lemma push_waits {H} d (h : H) c : waiting_cache c -> waiting_cache (SendDataCache.push_data d h c).
Proof.
  intros [H1 H2 H3 H4]. unfold SendDataCache.push_data. cbn. rewrite H3.
  unfold SendDataCache.async_send. destruct (SendDataCache.current_is_first c) eqn:E; cbn; rewrite ?E; cbn;
    rewrite H1; cbn; rewrite orb_true_r; (split; cbn; [done|done|done|]);
    by rewrite !SendDataCache.written_emit, H4.
Qed.

Lemma run_waits {H} react (ops : list (@SendDataCache.op H)) c :
  Forall (fun o => is_push o = true) ops -> waiting_cache c ->
  waiting_cache (SendDataCache.run react c ops).
Proof.
  intros Hops. revert c. induction Hops as [|o ops Ho Hops IH]; intros c Hc; cbn; [done|].
  apply IH. destruct o; try done. by apply push_waits.
Qed.

(** A cache as sessions leave it while the pipeline connects. *)
Definition queued_before_connect {H} (c : @SendDataCache.cache H) : Prop :=
  exists react ops, Forall (fun o => is_push o = true) ops /\
    c = SendDataCache.run react (SendDataCache.new_cache false) ops.

Lemma queued_before_connect_spec {H} (c : @SendDataCache.cache H) :
  queued_before_connect c ->
  waiting_cache c /\ SendDataCache.current_recv_queue c = SendDataCache.pushed (SendDataCache.log c).
Proof.
  intros (react & ops & Hops & ->).
  assert (Hw : waiting_cache (SendDataCache.run react (SendDataCache.new_cache false) ops))
    by (by apply run_waits).
  split; [done|].
  assert (Hf : SendDataCache.fifo [] (SendDataCache.run react (SendDataCache.new_cache false) ops)).
  { apply SendDataCache.run_fifo; [apply SendDataCache.new_cache_inv| |done].
    apply (list.Forall_impl _ _ _ Hops). by intros []. }
  unfold SendDataCache.fifo in Hf. by rewrite (wc_written _ Hw) in Hf.
Qed.

Lemma insert_sends {H} d (c : @SendDataCache.cache H) :
  SendDataCache.connected c = true -> SendDataCache.is_async_sending c = false ->
  SendDataCache.destroyed c = false -> d <> [] ->
  SendDataCache.is_async_sending (SendDataCache.insert_data d c) = true /\
  exists sending, SendDataCache.flight (SendDataCache.insert_data d c) = Some sending /\
    SendDataCache.queue_at sending (SendDataCache.insert_data d c) =
      d ++ SendDataCache.current_recv_queue c.
Proof.
  intros H1 H2 H3 Hd. unfold SendDataCache.insert_data. rewrite H3.
  rewrite append_buf_eq, append_view_eq, consume_all_nil, append_buf_eq. cbn [app].
  set (q := d ++ _). assert (Hq : (zlen q =? 0) = false).
  { apply Z.eqb_neq. unfold q. destruct d; [done|]. zlen_lia. }
  destruct c as [h0 q0 h1 q1 cur sn des con fl lg]. cbn in *. subst.
  unfold SendDataCache.async_send, SendDataCache.current_recv_queue.
  destruct cur; cbn -[zlen] in *; fold q; rewrite Hq; cbn; (split; [done|]); eexists; by split.
Qed.

(** The first octets a pipeline writes, in one write when its tunnel is ready,
    are the password, CR LF and every command its sessions queued in the
    meantime, in order; it then reads. *)
Theorem pipeline_sends_password_first configs remote_ec w p l pw v rest :
  pipes w !! p = Some l -> queued_before_connect (pl_cache l) ->
  read_buf_guard (pl_read_buf l) = false -> (forall n, remote_ec n = 0) ->
  Session.password (configs (pl_config l)) = (pw, v) :: rest ->
  exists w', pl_ready configs remote_ec p w = Ret (tt, w') /\
    c_trace w' = c_trace w ++
      [ToPipeline p (pw ++ CRLF ++ SendDataCache.pushed (SendDataCache.log (pl_cache l)))] /\
    c_pending w' = c_pending w ++ [LWrite p; LRead p].
Proof.
  intros Hl Hq Hg Hr Hpw. destruct (queued_before_connect_spec _ Hq) as [[W1 W2 W3 W4] Hqueue].
  unfold pl_ready, pl_mod_cache, pl_put_cache, pl_out_async_recv, bind, getL, modL, modify, c_ask.
  rewrite Hr. cbn -[alter lookup insert CRLF SendDataCache.insert_data].
  rewrite !lookup_alter_eq, Hl. cbn -[alter lookup CRLF SendDataCache.insert_data]. rewrite Hpw.
  set (c0 := pl_cache l) in *. set (c1 := SendDataCache.connect c0).
  destruct (insert_sends (pw ++ CRLF) c1 eq_refl W2 W3 ltac:(by destruct pw)) as (Hs & sending & Hf & Hd).
  rewrite W2, Hs, Hf, Hd. cbn -[alter lookup CRLF]. rewrite !lookup_alter_eq, Hl. cbn -[alter lookup CRLF].
  unfold begin_read. rewrite Hg. cbn -[alter lookup CRLF]. eexists. split; [reflexivity|].
  cbn -[alter lookup CRLF]. split; [|by rewrite <- app_assoc].
  change (SendDataCache.current_recv_queue c1) with (SendDataCache.current_recv_queue c0).
  by rewrite Hqueue, <- app_assoc.
Qed.

(** A server that knows the password and has received such octets switches to
    streaming and handles exactly the commands that follow the password. *)
Theorem pipeline_password_understood scfg auth smake alpn ssys srem scancel sdepth ws pw v rest fs :
  p_status (pipe ws) = P_HANDSHAKE -> Session.password scfg = (pw, v) :: rest ->
  find_ CRLF pw = None ->
  read_buf (p_in_read_buf (pipe ws)) = pw ++ CRLF ++ PipelineRequest.stream fs ->
  let ws' := ws <| pipe ::= fun p => p <| p_status := P_STREAMING |> <| p_in_read_buf ::= fun r =>
    r <| read_buf := PipelineRequest.stream fs |> |> |> in
  ps_in_recv scfg auth smake alpn ssys srem scancel sdepth ws =
  ps_process_streaming_data scfg auth smake alpn ssys srem scancel sdepth ws'.
Proof.
  intros Hst Hpw Hn Hbuf ws'. unfold ps_in_recv, bind, getP, gets. rewrite Hst, Hbuf, find_crlf by done.
  rewrite Hpw. unfold lift. rewrite substr_ok by zlen_lia.
  assert (Hsub : sub_ (pw ++ CRLF ++ PipelineRequest.stream fs) 0 (zlen pw) = pw)
    by (by apply (sub_app [] pw)).
  rewrite Hsub, bool_decide_true by done. cbn [negb].
  assert (Hdrop : consume (pw ++ CRLF ++ PipelineRequest.stream fs) (zlen pw + 2) = PipelineRequest.stream fs).
  { unfold consume. rewrite app_assoc. apply drop_zlen_app'. zlen_lia. }
  unfold modP, modify. f_equal. unfold ws'. destruct ws as [o p pa al pe tr no ca].
  destruct p as [st se [rb g] sc ls ic]. cbn [read_buf p_in_read_buf pipe] in Hbuf. subst rb.
  unfold rb_consume.
  cbn -[consume CRLF app]. by rewrite Hdrop.
Qed.


(** ** A concrete client *)
Module ClientDemo.

Definition cfg : Config :=
  mkConfig (str "server.example") 443 [] 0 [(str "pw", str "secret")] 60 8192 [] (str "x") true 10 200 0.
Definition configs (_ : nat) : Config := cfg.
Definition peer_address : address := V4 Byte.x01 Byte.x02 Byte.x03 Byte.x04.
Definition make_address (b : bytes) : option address :=
  if bool_decide (b = str "1.2.3.4") then Some peer_address else None.
Definition ok (_ : nat) : error_code := 0.
Definition ep : endpoint := mkEndpoint peer_address 80.
Definition with_session (s : ClientSession) : cworld := c_init <| c_objs := {[ 0%nat := s ]} |>.
Definition new_session : ClientSession := new_ClientSession cfg 0.
Definition requesting : ClientSession := new_session <| c_status := C_REQUEST |>.
Definition udp_relaying : ClientSession := new_session <| c_status := C_UDP_FORWARD |>.
Definition target : Socks5.SOCKS5Address := Socks5.mkSocks5 Socks5.DOMAINNAME (str "a.b") 80.
Definition target_wire : bytes := [Byte.x03; Byte.x03; Byte.x61; Byte.x2e; Byte.x62; Byte.x00; Byte.x50].

Lemma target_ok : Socks5.wire target target_wire.
Proof. exact (Socks5.wire_domain (str "a.b") Byte.x00 Byte.x50 ltac:(vm_compute; split; discriminate)). Qed.

Lemma socks5_greeting_answer_witness :
  exists w' b, cs_in_recv configs make_address (fun _ => ep) ok ok 0 (greeting [Byte.x00; Byte.x02])
      (with_session new_session) = Ret (tt, w') /\
    c_pending w' = [CInWrite 0 b 0] /\ c_trace w' = [ToApp 0 [Byte.x05; Byte.x00]].
Proof.
  destruct (socks5_greeting_answer configs make_address (fun _ => ep) ok ok (with_session new_session) 0
    new_session [Byte.x00; Byte.x02] eq_refl eq_refl ltac:(vm_compute; discriminate)) as (w' & b & H & Hp & Ht & _).
  exists w', b. split; [exact H|]. split; [exact Hp|]. rewrite Ht. vm_compute. reflexivity.
Defined.

Lemma socks5_greeting_many_methods_refused_witness :
  exists w', cs_in_recv configs make_address (fun _ => ep) ok ok 0 (greeting (repeat Byte.x00 200))
      (with_session new_session) = Ret (tt, w') /\ c_trace w' = [ToApp 0 [Byte.x05; Byte.xff]].
Proof.
  destruct (socks5_greeting_many_methods_refused configs make_address (fun _ => ep) ok ok
    (with_session new_session) 0 new_session (repeat Byte.x00 200) eq_refl eq_refl
    ltac:(vm_compute; split; discriminate)) as (w' & H & Ht).
  exists w'. split; [exact H|exact Ht].
Defined.

Lemma socks5_connect_request_kept_witness :
  exists w' b s', cs_in_recv configs make_address (fun _ => ep) ok ok 0
      (socks5_request TrojanRequest.CONNECT target_wire) (with_session requesting) = Ret (tt, w') /\
    c_pending w' = [CInWrite 0 b 0] /\ c_objs w' !! 0%nat = Some s' /\
    c_out_write_buf s' = request_text (str "pw") TrojanRequest.CONNECT target_wire.
Proof.
  destruct (socks5_connect_request_kept configs make_address (fun _ => ep) ok ok (with_session requesting) 0
    requesting (str "pw") (str "secret") [] target target_wire eq_refl eq_refl eq_refl eq_refl target_ok
    (or_introl eq_refl) ltac:(vm_compute; reflexivity)) as (w' & b & s' & H & _ & Hp & Ho & _ & Hb).
  exists w', b, s'. split; [exact H|]. split; [exact Hp|]. split; [exact Ho|exact Hb].
Defined.

Lemma request_reaches_target_witness :
  exists w' text ws',
    serve_request configs make_address (fun _ => ep) ok ok 5 0
      (socks5_request TrojanRequest.CONNECT target_wire) (with_session requesting) = Ret (tt, w') /\
    ss_in_recv Demo.cfg None Demo.make_address (fun _ => None) ok ok 5 0 (text ++ str "GET") 0
      Demo.accepted_world = Ret (tt, ws') /\
    trace ws' = [Connecting 0 (str "a.b") (str "80")].
Proof.
  destruct (request_reaches_target configs make_address (fun _ => ep) ok ok 5 (with_session requesting) 0
    requesting (str "pw") (str "secret") [] target target_wire
    Demo.cfg None Demo.make_address (fun _ => None) ok ok 5 Demo.accepted_world 0
    (new_ServerSession Demo.cfg) (str "GET") (str "secret")
    eq_refl eq_refl eq_refl eq_refl target_ok (or_introl eq_refl) eq_refl eq_refl eq_refl
    ltac:(discriminate) eq_refl eq_refl eq_refl eq_refl eq_refl ltac:(vm_compute; reflexivity))
    as (w' & text & ws' & H & _ & Hs & Ht & _).
  exists w', text, ws'. split; [exact H|]. split; [exact Hs|]. rewrite Ht. vm_compute. reflexivity.
Defined.

Lemma udp_datagram_reaches_server_witness :
  exists w' packet, cs_udp_recv configs ok 0 (socks5_datagram target_wire (str "query"))
      (with_session udp_relaying) = Ret (tt, w') /\
    UDPPacket.parse (packet ++ []) = Ret (Some (UDPPacket.mkUDPPacket target 5 (str "query"), zlen packet)).
Proof.
  destruct (udp_datagram_reaches_server configs ok (with_session udp_relaying) 0 udp_relaying
    target target_wire (str "query") eq_refl eq_refl eq_refl (fun n => eq_refl) target_ok
    ltac:(vm_compute; reflexivity)) as (w' & packet & H & _ & Hp).
  exists w', packet. split; [exact H|exact (Hp [])].
Defined.

Definition reply_frame : bytes := target_wire ++ be16 5 ++ CRLF ++ str "reply" ++ str "next".
Definition udp_answered : ClientSession := udp_relaying <| c_udp_data_buf := reply_frame |>.

Lemma udp_packet_reaches_application_witness :
  exists w' s', cs_udp_sent configs ok 5 0 (with_session udp_answered) = Ret (tt, w') /\
    c_trace w' = [UdpToApp 0 (socks5_datagram target_wire (str "reply")) default_endpoint] /\
    c_objs w' !! 0%nat = Some s' /\ c_udp_data_buf s' = str "next".
Proof.
  exact (udp_packet_reaches_application configs ok 5 (with_session udp_answered) 0 udp_answered
    (UDPPacket.mkUDPPacket target 5 (str "reply")) target_wire (str "next")
    eq_refl eq_refl (fun n => eq_refl) target_ok eq_refl ltac:(vm_compute; reflexivity) eq_refl).
Defined.

Definition queued_pipeline : Pipeline :=
  new_Pipeline 0 0 <| pl_cache :=
    SendDataCache.push_data (PipelineRequest.encode (PipelineRequest.FConnect 3)) (HStarted 0)
      (SendDataCache.new_cache false) |>.
Definition pipeline_world : cworld := c_init <| pipes := {[ 0%nat := queued_pipeline ]} |>.

Lemma queued_pipeline_queued : queued_before_connect (pl_cache queued_pipeline).
Proof.
  exists (fun _ _ => []), [SendDataCache.Push (PipelineRequest.encode (PipelineRequest.FConnect 3)) (HStarted 0)].
  split; [by repeat constructor|done].
Qed.

Lemma pipeline_sends_password_first_witness :
  exists w', pl_ready configs ok 0 pipeline_world = Ret (tt, w') /\
    c_trace w' = [ToPipeline 0 (str "pw" ++ CRLF ++ [Byte.x00; Byte.x00; Byte.x03])].
Proof.
  destruct (pipeline_sends_password_first configs ok pipeline_world 0 queued_pipeline (str "pw")
    (str "secret") [] eq_refl queued_pipeline_queued eq_refl (fun n => eq_refl) eq_refl) as (w' & H & Ht & _).
  exists w'. split; [exact H|]. rewrite Ht. vm_compute. reflexivity.
Defined.

Definition greeted_world : world :=
  init <| pipe ::= fun p => p <| p_in_read_buf ::= fun r => r <| read_buf :=
    str "pw" ++ CRLF ++ PipelineRequest.stream [PipelineRequest.FConnect 3] |> |> |>.

Lemma pipeline_password_understood_witness :
  ps_in_recv Demo.cfg None Demo.make_address (fun _ => None) ok ok ok 5 greeted_world =
  ps_process_streaming_data Demo.cfg None Demo.make_address (fun _ => None) ok ok ok 5
    (greeted_world <| pipe ::= fun p => p <| p_status := P_STREAMING |> <| p_in_read_buf ::= fun r =>
      r <| read_buf := PipelineRequest.stream [PipelineRequest.FConnect 3] |> |> |>).
Proof.
  exact (pipeline_password_understood Demo.cfg None Demo.make_address (fun _ => None) ok ok ok 5
    greeted_world (str "pw") (str "secret") [] [PipelineRequest.FConnect 3] eq_refl eq_refl eq_refl eq_refl).
Defined.

End ClientDemo.
