(* ===== verification/ServiceTheorems.v ===== *)
(** * The service's choice of a pipeline

    [select_pipeline] is the polling of [Service::start_session] and [arrange]
    the load-balance order of [Service::prepare_pipelines]
    ([src/src/core/service.cpp]); both are defined in [ClientSide]. *)

From Stdlib Require Import ZArith Lia.
From S2P Require Import Prelude Utils ClientSide.
Local Open Scope Z_scope.

(** Whether the pipeline at a position is connected. *)
Definition connected_at (l : list bool) (i : Z) : bool :=
  match l !! Z.to_nat i with Some c => c | None => false end.

Lemma connected_at_app_r a b i :
  zlen a <= i -> connected_at (a ++ b) i = connected_at b (i - zlen a).
Proof.
  intros Hi. unfold connected_at, zlen in *. rewrite lookup_app_r by lia.
  by replace (Z.to_nat (i - Z.of_nat (length a))) with (Z.to_nat i - length a)%nat by lia.
Qed.

(** The scan, from position [i] of the whole list. *)
Lemma scan_spec l i sel r sel' :
  0 <= i -> i <= sel -> scan_pipelines l i sel = (r, sel') ->
  match r with
  | Some j => j = sel' /\ sel <= j < i + zlen l /\ connected_at l (j - i) = true /\
      forall k, sel <= k < j -> connected_at l (k - i) = false
  | None => sel' = Z.max sel (i + zlen l) /\
      forall k, sel <= k < i + zlen l -> connected_at l (k - i) = false
  end.
Proof.
  revert i sel. induction l as [|c l IH]; intros i sel Hi Hs; cbn [scan_pipelines].
  { intros [= <- <-]. rewrite zlen_nil. split; [lia|]. intros. lia. }
  assert (Hsh : forall k, i + 1 <= k -> connected_at (c :: l) (k - i) = connected_at l (k - (i + 1))).
  { intros k Hk. change (c :: l) with ([c] ++ l). rewrite connected_at_app_r by (rewrite zlen_cons, zlen_nil; lia).
    rewrite zlen_cons, zlen_nil. f_equal. lia. }
  rewrite zlen_cons. pose proof (zlen_nonneg l). destruct (Z.leb_spec sel i).
  - assert (sel = i) as -> by lia. destruct c.
    + intros [= <- <-]. split_and!; [done|lia|lia| |intros; lia].
      unfold connected_at. rewrite Z.sub_diag. done.
    + intros E. apply IH in E; [|lia|lia].
      assert (Hz : connected_at (false :: l) (i - i) = false) by (by rewrite Z.sub_diag).
      destruct r as [j|].
      * destruct E as (-> & Hj & Hc & Hn). split_and!; [done|lia|lia|by rewrite Hsh by lia|].
        intros k Hk. destruct (decide (k = i)) as [->|]; [done|]. rewrite Hsh by lia. apply Hn. lia.
      * destruct E as (-> & Hn). split; [lia|].
        intros k Hk. destruct (decide (k = i)) as [->|]; [done|]. rewrite Hsh by lia. apply Hn. lia.
  - intros E. apply IH in E; [|lia|lia]. destruct r as [j|].
    + destruct E as (-> & Hj & Hc & Hn). split_and!; [done|lia|lia|by rewrite Hsh by lia|].
      intros k Hk. rewrite Hsh by lia. by apply Hn.
    + destruct E as (-> & Hn). split; [lia|]. intros k Hk. rewrite Hsh by lia. apply Hn. lia.
Qed.

(** When the polling index is a position of the list, a new session gets the
    first connected pipeline from that position on, and the index moves behind
    it; when there is none, it gets the first pipeline of the list. *)
Theorem select_pipeline_polls connected idx :
  0 <= idx < zlen connected ->
  let '(i, idx') := select_pipeline connected idx in
  (idx <= i < zlen connected /\ connected_at connected i = true /\ idx' = i + 1 /\
   forall k, idx <= k < i -> connected_at connected k = false) \/
  (i = 0 /\ idx' = zlen connected + 1 /\
   forall k, idx <= k < zlen connected -> connected_at connected k = false).
Proof.
  intros Hidx. unfold select_pipeline. destruct (Z.leb_spec (zlen connected) idx); [lia|]. cbn [andb].
  destruct (scan_pipelines connected 0 idx) as [r sel'] eqn:E.
  apply scan_spec in E; [|lia|lia]. destruct r as [j|].
  - destruct E as (-> & Hj & Hc & Hn). left. rewrite Z.sub_0_r in Hc. split_and!; [lia|lia|done|done|].
    intros k Hk. specialize (Hn k Hk). by rewrite Z.sub_0_r in Hn.
  - destruct E as (-> & Hn). right. split_and!; [done|lia|].
    intros k Hk. specialize (Hn k ltac:(lia)). by rewrite Z.sub_0_r in Hn.
Qed.

Lemma select_pipeline_polls_witness :
  select_pipeline [true; false; true] 1 = (2, 3).
Proof.
  pose proof (select_pipeline_polls [true; false; true] 1 ltac:(vm_compute; split; [discriminate|reflexivity])) as H.
  destruct H as [(_ & _ & _ & _)|(H & _)]; [reflexivity|discriminate H].
Defined.

(** The polling is uneven: with every pipeline connected, after a round the
    first pipeline is chosen, and chosen again for the next session. *)
Theorem select_pipeline_repeats_first n :
  let connected := repeat true (S n) in
  select_pipeline connected (zlen connected) = (0, 0) /\ select_pipeline connected 0 = (0, 1).
Proof.
  cbn zeta. set (l := repeat true n). change (repeat true (S n)) with (true :: l).
  pose proof (zlen_nonneg l). split.
  - unfold select_pipeline. by destruct (Z.leb_spec (zlen (true :: l)) (zlen (true :: l))); [|lia].
  - unfold select_pipeline. rewrite zlen_cons. by destruct (Z.leb_spec (1 + zlen l) 0); [lia|].
Qed.

(** A session may be given a pipeline that is not connected although another
    one is: behind the polling index nothing is looked at. *)
Theorem select_pipeline_misses_connected :
  select_pipeline [false; true; false] 2 = (0, 4).
Proof. reflexivity. Qed.

(** ** The load-balance order *)

Lemma split_config_spec cfg_of target l pre y post :
  split_config cfg_of target l = Some (pre, y, post) ->
  l = pre ++ y :: post /\ cfg_of y = target /\ Forall (fun x => cfg_of x <> target) pre.
Proof.
  revert pre. induction l as [|x l IH]; intros pre; cbn [split_config]; [done|].
  destruct (Nat.eqb_spec (cfg_of x) target).
  - intros [= <- <- <-]. by split_and!.
  - destruct (split_config cfg_of target l) as [[[p' z] q']|] eqn:E; [|done].
    intros [= <- <- <-]. destruct (IH p' eq_refl) as (-> & ? & ?). split_and!; [done|done|by constructor].
Qed.

Lemma arrange_perm fuel cfg_of all idx l : arrange fuel cfg_of all idx l ≡ₚ l.
Proof.
  revert idx l. induction fuel as [|fuel IH]; intros idx l; cbn [arrange]; [done|].
  destruct l as [|x rest]; [done|].
  destruct (split_config cfg_of idx rest) as [[[pre y] post]|] eqn:E.
  - apply split_config_spec in E as (-> & _ & _). rewrite IH. solve_Permutation.
  - by rewrite IH.
Qed.

(** The order depends on the configurations only. *)
Lemma split_config_map cfg_of target l :
  split_config id target (map cfg_of l) =
  match split_config cfg_of target l with
  | Some (pre, y, post) => Some (map cfg_of pre, cfg_of y, map cfg_of post)
  | None => None
  end.
Proof.
  induction l as [|x l IH]; cbn [split_config map id]; [done|].
  destruct (cfg_of x =? target)%nat; [done|]. rewrite IH.
  by destruct (split_config cfg_of target l) as [[[pre y] post]|].
Qed.

Lemma arrange_map fuel cfg_of all idx l :
  map cfg_of (arrange fuel cfg_of all idx l) = arrange fuel id all idx (map cfg_of l).
Proof.
  revert idx l. induction fuel as [|fuel IH]; intros idx l; cbn [arrange]; [done|].
  destruct l as [|x rest]; cbn [map]; [done|]. rewrite split_config_map.
  destruct (split_config cfg_of idx rest) as [[[pre y] post]|]; cbn [map]; f_equal; rewrite IH; [|done].
  by rewrite map_app.
Qed.

(** Two configurations, in blocks. *)
Fixpoint alternate (n : nat) : list nat :=
  match n with O => [] | S n => 0%nat :: 1%nat :: alternate n end.

Lemma split_ones_after_zeros k n :
  split_config id 1%nat (repeat 0%nat k ++ repeat 1%nat (S n)) =
  Some (repeat 0%nat k, 1%nat, repeat 1%nat n).
Proof.
  induction k as [|k IH]; [done|]. change (repeat 0%nat (S k)) with (0%nat :: repeat 0%nat k).
  cbn [app split_config id Nat.eqb]. by rewrite IH.
Qed.

Lemma arrange_two_step f n :
  arrange (S (S f)) id 2 0 (0%nat :: 0%nat :: repeat 0%nat n ++ repeat 1%nat (S (S n))) =
  0%nat :: 1%nat :: arrange f id 2 0 (repeat 0%nat (S n) ++ repeat 1%nat (S n)).
Proof.
  set (zs := repeat 0%nat n). set (os := repeat 1%nat (S (S n))).
  transitivity (0%nat :: arrange (S f) id 2 1 (0%nat :: zs ++ os)); [done|]. f_equal.
  change (arrange (S f) id 2 1 (0%nat :: zs ++ os)) with
    (match split_config id 1%nat (zs ++ os) with
     | Some (pre, y, post) => y :: arrange f id 2 0 (pre ++ 0%nat :: post)
     | None => 0%nat :: arrange f id 2 1 (zs ++ os)
     end).
  unfold zs, os. rewrite split_ones_after_zeros. do 2 f_equal.
  change (repeat 0%nat (S n)) with (0%nat :: repeat 0%nat n).
  by rewrite repeat_cons, <- app_assoc.
Qed.

Lemma arrange_two n :
  arrange (n + n) id 2 0 (repeat 0%nat n ++ repeat 1%nat n) = alternate n.
Proof.
  induction n as [|[|n] IH]; [done|done|].
  replace (S (S n) + S (S n))%nat with (S (S (S n + S n))) by lia.
  change (repeat 0%nat (S (S n)) ++ repeat 1%nat (S (S n))) with
    (0%nat :: 0%nat :: repeat 0%nat n ++ repeat 1%nat (S (S n))).
  by rewrite arrange_two_step, IH.
Qed.

(** The rearrangement loses and invents no pipeline, and with one
    load-balance configuration, from [n] pipelines of each in blocks it makes the
    alternating order that balances the polling. *)
Theorem load_balance_order cfg_of n l :
  map cfg_of l = repeat 0%nat n ++ repeat 1%nat n ->
  arrange (length l) cfg_of 2 0 l ≡ₚ l /\ map cfg_of (arrange (length l) cfg_of 2 0 l) = alternate n.
Proof.
  intros Hl. split; [apply arrange_perm|]. rewrite arrange_map, Hl.
  assert (length l = n + n)%nat as ->; [|apply arrange_two].
  rewrite <- (length_map cfg_of l), Hl, length_app, !repeat_length. done.
Qed.

Lemma load_balance_order_witness :
  map (fun p => p mod 10)%nat (arrange 4 (fun p => p mod 10)%nat 2 0 [10; 20; 11; 21]%nat) = [0; 1; 0; 1]%nat.
Proof.
  destruct (load_balance_order (fun p => p mod 10)%nat 2 [10; 20; 11; 21]%nat eq_refl) as [_ H]. exact H.
Defined.

(** With three load-balance configurations and two pipelines of each, the order
    made is 0 1 2 3 0 2 1 3, not the 0 1 2 3 0 1 2 3 the comment announces: when
    the wanted configuration is only at the current position, the index is not
    advanced. *)
Theorem load_balance_order_of_four :
  arrange 8 (fun p => p / 10)%nat 4 0 [0; 1; 10; 11; 20; 21; 30; 31]%nat =
    [1; 10; 20; 30; 0; 21; 11; 31]%nat /\
  map (fun p => p / 10)%nat (arrange 8 (fun p => p / 10)%nat 4 0 [0; 1; 10; 11; 20; 21; 30; 31]%nat) =
    [0; 1; 2; 3; 0; 2; 1; 3]%nat.
Proof. vm_compute. split; reflexivity. Qed.
