(* ===== verification/SessionLogic.v ===== *)
(** * Handlers that work on one session

    The handlers of a session change that session, start operations of it, and
    add to its part of the trace; they leave the other sessions of their world
    alone.  A world that tells its objects, operations and effects apart in this
    way ([SessionWorld]) gets a logic of handlers ([on]): what a handler does to
    its session, its operations and its trace, and that the rest is framed. *)

From Stdlib Require Import ZArith Lia.
From S2P Require Import Prelude Utils PipelineComponent.
Import Allocator PipelineComponent.
Local Open Scope Z_scope.
Local Open Scope handler_scope.

(** The session an operation or an effect belongs to, and the buffer lent to an
    operation *)
Class Operation (O : Type) := { op_this : O -> option nat; op_buf : O -> option nat }.
Class Effect (E : Type) := { eff_this : E -> option nat }.

(** [sw_rest] is what no handler of a session changes. *)
Class SessionWorld (W S O E R : Type) := {
  sw_objs : W -> gmap nat S;
  sw_pending : W -> list O;
  sw_trace : W -> list E;
  sw_alloc : W -> SendingDataAllocator;
  sw_rest : W -> R
}.
#[export] Hint Mode SessionWorld + - - - - : typeclass_instances.

(** What a failed socket call throws. *)
Definition socket_failure (e : exn) : Prop :=
  match e with system_error _ | runtime_error _ => True | _ => False end.

Section Logic.
Context {W S O E R : Type} {SW : SessionWorld W S O E R} {OO : Operation O} {EE : Effect E}.

(** One session's part of a world *)
Definition ops (h : nat) (w : W) : list O := filter (fun o => op_this o = Some h) (sw_pending w).
Definition tr (h : nat) (w : W) : list E := filter (fun e => eff_this e = Some h) (sw_trace w).

(** [w'] differs from [w] only in session [h] and in the buffers. *)
Record frame (h : nat) (w w' : W) : Prop := {
  fr_objs : forall k, k <> h -> sw_objs w' !! k = sw_objs w !! k;
  fr_ops : forall k, k <> h -> ops k w' = ops k w;
  fr_none : filter (fun o => op_this o = None) (sw_pending w') =
            filter (fun o => op_this o = None) (sw_pending w);
  fr_tr : forall k, k <> h -> tr k w' = tr k w;
  fr_rest : sw_rest w' = sw_rest w;
  fr_grow : tr h w `prefix_of` tr h w';
  fr_alloc : forall b, b ∈ allocated (sw_alloc w) -> b ∈ allocated (sw_alloc w')
}.

Lemma frame_refl h w : frame h w w.
Proof. by split. Qed.
Lemma frame_trans h w1 w2 w3 : frame h w1 w2 -> frame h w2 w3 -> frame h w1 w3.
Proof.
  intros [A1 A2 A3 A4 A5 A6 A7] [B1 B2 B3 B4 B5 B6 B7]. split; try congruence; auto.
  - intros k Hk. by rewrite B1, A1.
  - intros k Hk. by rewrite B2, A2.
  - intros k Hk. by rewrite B4, A4.
  - by etrans.
Qed.

(** Lent buffers are known to the allocator. *)
Definition lent (w : W) : Prop :=
  (forall o b, o ∈ sw_pending w -> op_buf o = Some b -> b ∈ allocated (sw_alloc w)) /\
  (forall b, b ∈ free_bufs (sw_alloc w) -> b ∈ allocated (sw_alloc w)).

Definition post A := A -> S -> list O -> list E -> Prop.

(** What a handler may throw, and which undefined outcomes are put up with *)
Context (fails : exn -> Prop) (undef : undefined_by -> Prop).

(** [on h m Q s l t]: run for session [h] in state [s], with operations [l] and
    trace [t], [m] leaves the others alone and ends in [Q]. *)
Definition on {A} (h : nat) (m : M W A) (Q : post A) (s : S) (l : list O) (t : list E) : Prop :=
  forall w, sw_objs w !! h = Some s -> ops h w = l -> tr h w = t -> lent w ->
  match m w with
  | Ret (a, w') => frame h w w' /\ lent w' /\
      exists s', sw_objs w' !! h = Some s' /\ Q a s' (ops h w') (tr h w')
  | Throw e => fails e
  | Undef u => undef u
  end.

Section Rules.
Context (h : nat).

Lemma on_bind {A B} (m : M W A) (k : A -> M W B) Q s l t :
  on h m (fun a s l t => on h (k a) Q s l t) s l t -> on h (bind m k) Q s l t.
Proof.
  intros Hm w Hs Hl Ht Hw. specialize (Hm w Hs Hl Ht Hw). unfold bind.
  destruct (m w) as [[a w1]| |]; [|done|done]. destruct Hm as (F1 & L1 & s1 & Hs1 & Hk).
  specialize (Hk w1 Hs1 eq_refl eq_refl L1). destruct (k a w1) as [[b w2]| |]; [|done|done].
  destruct Hk as (F2 & L2 & H2). split; [by eapply frame_trans|]. by split.
Qed.
Lemma on_mono {A} (m : M W A) (P Q : post A) s l t :
  on h m P s l t -> (forall a s l t, P a s l t -> Q a s l t) -> on h m Q s l t.
Proof.
  intros Hm HQ w Hs Hl Ht Hw. specialize (Hm w Hs Hl Ht Hw).
  destruct (m w) as [[a w1]| |]; [|done|done]. destruct Hm as (F1 & L1 & s1 & Hs1 & HP).
  split; [done|]. split; [done|]. eauto.
Qed.
(** The trace only grows. *)
Lemma on_grow {A} (m : M W A) (P Q : post A) s l t :
  on h m P s l t -> (forall a s l t', t `prefix_of` t' -> P a s l t' -> Q a s l t') -> on h m Q s l t.
Proof.
  intros Hm HQ w Hs Hl Ht Hw. specialize (Hm w Hs Hl Ht Hw).
  destruct (m w) as [[a w1]| |]; [|done|done]. destruct Hm as (F1 & L1 & s1 & Hs1 & HP).
  split; [done|]. split; [done|]. exists s1. split; [done|]. apply HQ; [|done].
  rewrite <- Ht. by destruct F1.
Qed.
Lemma on_ret {A} (a : A) (Q : post A) s l t : Q a s l t -> on h (ret a) Q s l t.
Proof. intros HQ w Hs <- <- Hw. split; [apply frame_refl|]. split; [done|]. by exists s. Qed.
Lemma on_skip (Q : post unit) s l t : Q tt s l t -> on h skip Q s l t.
Proof. apply on_ret. Qed.
Lemma on_throw {A} e (Q : post A) s l t : fails e -> on h (throw e) Q s l t.
Proof. by intros He w. Qed.
Lemma on_gets {A} (f : W -> A) (Q : post A) s l t :
  (forall a, Q a s l t) -> on h (gets f) Q s l t.
Proof. intros HQ w Hs <- <- Hw. split; [apply frame_refl|]. split; [done|]. eauto. Qed.
Lemma on_lift {A} (m : outcome A) (Q : post A) s l t :
  (forall e, m = Throw e -> fails e) -> (forall u, m = Undef u -> undef u) ->
  (forall a, m = Ret a -> Q a s l t) -> on h (lift m) Q s l t.
Proof.
  intros Ht Hu HQ w Hs <- <- Hw. unfold lift. destruct m; [|auto|auto].
  split; [apply frame_refl|]. split; [done|]. eauto.
Qed.

(** A handler that reads its session *)
Lemma on_get (m : M W S) (Q : post S) s l t :
  (forall w, m w = match sw_objs w !! h with Some s => Ret (s, w) | None => Undef NoObject end) ->
  Q s s l t -> on h m Q s l t.
Proof.
  intros Hm HQ w Hs <- <- Hw. rewrite Hm, Hs. split; [apply frame_refl|]. split; [done|].
  by exists s.
Qed.

(** [w'] has the parts of [w] the logic speaks of. *)
Record alike (w w' : W) : Prop := {
  al_objs : sw_objs w' = sw_objs w;
  al_pending : sw_pending w' = sw_pending w;
  al_trace : sw_trace w' = sw_trace w;
  al_alloc : sw_alloc w' = sw_alloc w;
  al_rest : sw_rest w' = sw_rest w
}.
Lemma alike_frame w w' : alike w w' -> frame h w w'.
Proof. intros [A1 A2 A3 A4 A5]. split; unfold ops, tr; by rewrite ?A1, ?A2, ?A3, ?A4. Qed.
Lemma on_alike {A} (m : M W A) (Q : post A) s l t :
  (forall w, exists a w', m w = Ret (a, w') /\ alike w w' /\ Q a s l t) -> on h m Q s l t.
Proof.
  intros Hm w Hs <- <- Hw. destruct (Hm w) as (a & w' & -> & Ha & HQ). split; [by apply alike_frame|].
  destruct Ha as [A1 A2 A3 A4 A5]. unfold lent, ops, tr. rewrite A1, A2, A3, A4. eauto.
Qed.

Lemma on_mod (m : M W unit) f (Q : post unit) s l t :
  (forall w, exists w', m w = Ret (tt, w') /\ sw_objs w' = alter f h (sw_objs w) /\
     sw_pending w' = sw_pending w /\ sw_trace w' = sw_trace w /\ sw_alloc w' = sw_alloc w /\
     sw_rest w' = sw_rest w) ->
  Q tt (f s) l t -> on h m Q s l t.
Proof.
  intros Hm HQ w Hs <- <- Hw. destruct (Hm w) as (w' & -> & A1 & A2 & A3 & A4 & A5). split.
  { split; unfold ops, tr; rewrite ?A1, ?A2, ?A3, ?A4; try done. intros k Hk. by rewrite lookup_alter_ne. }
  unfold lent, ops, tr. rewrite A1, A2, A3, A4. split; [exact Hw|]. exists (f s). by rewrite lookup_alter_eq, Hs.
Qed.

(** [w'] is [w] with the effect [e]; with the operation [o]. *)
Record emitted (e : E) (w w' : W) : Prop := {
  em_objs : sw_objs w' = sw_objs w;
  em_pending : sw_pending w' = sw_pending w;
  em_trace : sw_trace w' = sw_trace w ++ [e];
  em_alloc : sw_alloc w' = sw_alloc w;
  em_rest : sw_rest w' = sw_rest w
}.
Record started (o : O) (w w' : W) : Prop := {
  st_objs : sw_objs w' = sw_objs w;
  st_pending : sw_pending w' = sw_pending w ++ [o];
  st_trace : sw_trace w' = sw_trace w;
  st_alloc : sw_alloc w' = sw_alloc w;
  st_rest : sw_rest w' = sw_rest w
}.

Lemma emitted_tr e w w' : emitted e w w' -> eff_this e = Some h -> tr h w' = tr h w ++ [e].
Proof.
  intros [_ _ E3 _ _] He. unfold tr. rewrite E3, list.filter_app, filter_cons.
  by destruct (decide (eff_this e = Some h)).
Qed.
Lemma emitted_frame e w w' : emitted e w w' -> eff_this e = Some h -> frame h w w'.
Proof.
  intros Hem He. pose proof (emitted_tr _ _ _ Hem He) as E0. destruct Hem as [E1 E2 E3 E4 E5].
  split; unfold ops; rewrite ?E1, ?E2, ?E4; try done; [|rewrite E0; by apply prefix_app_r].
  intros k Hk. unfold tr. rewrite E3, list.filter_app, filter_cons.
  destruct (decide (eff_this e = Some k)); [congruence|]. apply app_nil_r.
Qed.
Lemma started_ops o w w' : started o w w' -> op_this o = Some h -> ops h w' = ops h w ++ [o].
Proof.
  intros [_ E2 _ _ _] Ho. unfold ops. rewrite E2, list.filter_app, filter_cons.
  by destruct (decide (op_this o = Some h)).
Qed.
Lemma started_frame o w w' : started o w w' -> op_this o = Some h -> frame h w w'.
Proof.
  intros [E1 E2 E3 E4 E5] Ho. split; unfold tr; rewrite ?E1, ?E3, ?E4; try done; intros; unfold ops;
    rewrite E2, list.filter_app, filter_cons.
  - destruct (decide (op_this o = Some k)); [congruence|]. apply app_nil_r.
  - destruct (decide (op_this o = None)); [congruence|]. apply app_nil_r.
Qed.
Lemma started_lent o w w' :
  started o w w' -> lent w -> (forall b, op_buf o = Some b -> b ∈ allocated (sw_alloc w)) -> lent w'.
Proof.
  intros [_ E2 _ E4 _] [L1 L2] Hb. unfold lent. rewrite E2, E4. split; [|done].
  intros o' b [Hin|Hin]%elem_of_app Hb'; [by eapply L1|].
  apply list_elem_of_singleton in Hin as ->. by apply Hb.
Qed.

Lemma on_emitted (m : M W unit) e (Q : post unit) s l t :
  (forall w, exists w', m w = Ret (tt, w') /\ emitted e w w') -> eff_this e = Some h ->
  Q tt s l (t ++ [e]) -> on h m Q s l t.
Proof.
  intros Hm He HQ w Hs <- <- Hw. destruct (Hm w) as (w' & -> & Hem).
  split; [by eapply emitted_frame|]. rewrite (emitted_tr _ _ _ Hem He).
  destruct Hem as [E1 E2 E3 E4 E5]. unfold lent, ops. rewrite E1, E2, E4. split; [exact Hw|]. eauto.
Qed.
Lemma on_started (m : M W unit) o (Q : post unit) s l t :
  (forall w, exists w', m w = Ret (tt, w') /\ started o w w') -> op_this o = Some h -> op_buf o = None ->
  Q tt s (l ++ [o]) t -> on h m Q s l t.
Proof.
  intros Hm Ho Hb HQ w Hs <- <- Hw. destruct (Hm w) as (w' & -> & Hst).
  split; [by eapply started_frame|]. rewrite (started_ops _ _ _ Hst Ho).
  split; [by eapply started_lent; [done..|congruence]|].
  destruct Hst as [E1 E2 E3 E4 E5]. unfold tr. rewrite E1, E3. eauto.
Qed.

Lemma allocate_known a data b a' :
  allocate a data = (b, a') -> (forall x, x ∈ free_bufs a -> x ∈ allocated a) ->
  b ∈ allocated a' /\ (forall x, x ∈ allocated a -> x ∈ allocated a') /\
  (forall x, x ∈ free_bufs a' -> x ∈ allocated a').
Proof.
  unfold allocate. intros Ea Hf. destruct (free_bufs a) as [|f rest] eqn:Ef; injection Ea as <- <-; cbn.
  - rewrite Ef. split; [set_solver|]. split; set_solver.
  - split; [apply Hf; set_solver|]. split; [done|]. intros x Hx. apply Hf. set_solver.
Qed.

(** A buffer is lent to the write started with it. *)
Lemma on_lend (m : M W unit) data (e : E) (o : nat -> O) (Q : post unit) s l t :
  (forall w, exists w1 w2 w3, m w = Ret (tt, w3) /\
     (let '(b, a) := allocate (sw_alloc w) data in
      sw_alloc w1 = a /\ sw_objs w1 = sw_objs w /\ sw_pending w1 = sw_pending w /\
      sw_trace w1 = sw_trace w /\ sw_rest w1 = sw_rest w /\ emitted e w1 w2 /\ started (o b) w2 w3)) ->
  eff_this e = Some h -> (forall b, op_this (o b) = Some h) -> (forall b b', op_buf (o b) = Some b' -> b' = b) ->
  (forall b, Q tt s (l ++ [o b]) (t ++ [e])) -> on h m Q s l t.
Proof.
  intros Hm He Ho Hb HQ w Hs Hl Ht Hw. destruct (Hm w) as (w1 & w2 & w3 & -> & H). clear Hm.
  destruct (allocate (sw_alloc w) data) as [b a] eqn:Ea.
  destruct H as (A1 & A2 & A3 & A4 & A5 & Hem & Hst).
  destruct (allocate_known _ _ _ _ Ea (proj2 Hw)) as (K1 & K2 & K3).
  assert (F1 : frame h w w1).
  { split; unfold ops, tr; rewrite ?A2, ?A3, ?A4, ?A5; try done. by rewrite A1. }
  assert (L1 : lent w1).
  { destruct Hw as [L1 L2]. unfold lent. rewrite A1, A3. split; [|done]. intros o' b' Hin Hb'. eauto. }
  pose proof (emitted_frame _ _ _ Hem He) as F2. pose proof (emitted_tr _ _ _ Hem He) as E2.
  pose proof (started_frame _ _ _ Hst (Ho b)) as F3. pose proof (started_ops _ _ _ Hst (Ho b)) as E3.
  split; [eapply frame_trans; [exact F1|by eapply frame_trans]|].
  destruct Hem as [M1 M2 M3 M4 M5].
  assert (L2 : lent w2) by (unfold lent; rewrite M2, M4; exact L1).
  split.
  { eapply started_lent; [done..|]. intros b' ->%Hb. by rewrite M4, A1. }
  destruct Hst as [S1 S2 S3 S4 S5]. rewrite S1, M1, A2. exists s. split; [done|]. rewrite E3.
  assert (Ht3 : tr h w3 = tr h w2) by (unfold tr; by rewrite S3).
  assert (Ho2 : ops h w2 = ops h w) by (unfold ops; by rewrite M2, A3).
  assert (Ht1 : tr h w1 = tr h w) by (unfold tr; by rewrite A4).
  rewrite Ht3, E2, Ho2, Ht1. subst l t. apply HQ.
Qed.
End Rules.

(** *** Counting operations *)

Definition cnt (f : O -> bool) (l : list O) : Z := zlen (List.filter f l).
Lemma cnt_snoc f l o : cnt f (l ++ [o]) = cnt f l + (if f o then 1 else 0).
Proof. unfold cnt. rewrite List.filter_app, zlen_app. cbn. by destruct (f o). Qed.
Lemma cnt_nonneg f l : 0 <= cnt f l.
Proof. apply zlen_nonneg. Qed.

(** [l] is [l0] without the operation [o]. *)
Definition after (l0 : list O) (o : O) (l : list O) : Prop :=
  forall f, cnt f l0 = cnt f l + (if f o then 1 else 0).

(** An operation that has ended is taken out of the world. *)
Record ended_op (w : W) (i : nat) (w' : W) : Prop := {
  eo_objs : sw_objs w' = sw_objs w;
  eo_pending : sw_pending w' = delete i (sw_pending w);
  eo_trace : sw_trace w' = sw_trace w;
  eo_alloc : sw_alloc w' = sw_alloc w;
  eo_rest : sw_rest w' = sw_rest w
}.
Lemma deleted_split (w : W) i (o : O) :
  sw_pending w !! i = Some o ->
  exists a b, sw_pending w = a ++ o :: b /\ delete i (sw_pending w) = a ++ b.
Proof.
  intros Hi. exists (take i (sw_pending w)), (drop (Datatypes.S i) (sw_pending w)).
  by rewrite take_drop_middle, delete_take_drop.
Qed.
Lemma ops_other (w : W) i (w' : W) (o : O) k :
  ended_op w i w' -> sw_pending w !! i = Some o -> op_this o <> Some k -> ops k w' = ops k w.
Proof.
  intros [_ E2 _ _ _] Hi Hk. destruct (deleted_split _ _ _ Hi) as (a & b & D1 & D2). unfold ops.
  rewrite E2, D2, D1, !list.filter_app, filter_cons. by rewrite decide_False.
Qed.
Lemma ops_after (w : W) i (w' : W) (o : O) h :
  ended_op w i w' -> sw_pending w !! i = Some o -> op_this o = Some h -> after (ops h w) o (ops h w').
Proof.
  intros [_ E2 _ _ _] Hi Hk. destruct (deleted_split _ _ _ Hi) as (a & b & D1 & D2). unfold ops. intros f.
  rewrite E2, D2, D1, !list.filter_app, filter_cons, decide_True by done. unfold cnt.
  rewrite !List.filter_app, !zlen_app. cbn. destruct (f o); rewrite ?zlen_cons; lia.
Qed.
Lemma ended_op_lent (w : W) i (w' : W) (o : O) : ended_op w i w' -> sw_pending w !! i = Some o -> lent w -> lent w'.
Proof.
  intros [_ E2 _ E4 _] Hi [L1 L2]. unfold lent. rewrite E2, E4. split; [|done].
  intros o' b Hin. apply L1. destruct (deleted_split _ _ _ Hi) as (x & y & D1 & D2).
  rewrite D2 in Hin. rewrite D1. set_solver.
Qed.
Lemma ended_op_nil (w : W) i (w' : W) (o : O) h :
  ended_op w i w' -> sw_pending w !! i = Some o -> ops h w = [] -> ops h w' = [].
Proof.
  intros [_ E2 _ _ _] Hi. destruct (deleted_split _ _ _ Hi) as (x & y & D1 & D2). unfold ops.
  rewrite E2, D2, D1, !list.filter_app, filter_cons. case_decide; [by intros [_ ?]%app_eq_nil|done].
Qed.
End Logic.

#[export] Hint Rewrite @cnt_snoc : sesslog.

(** ** Steps of a run *)

(** What a step may throw: a failed socket call, or no session id is left. *)
Definition may_throw (e : exn) : Prop := socket_failure e \/ e = id_over.

Section Steps.
Context {W : Type}.

(** [m] ends in [Q], or with what a step may throw; the read beyond a short
    request is put up with. *)
Definition ok {A} (m : M W A) (w : W) (Q : A -> W -> Prop) : Prop :=
  match m w with Ret (a, w') => Q a w' | Throw e => may_throw e | Undef u => u = octet03 end.

Lemma ok_bind {A B} (m : M W A) (k : A -> M W B) w Q :
  ok m w (fun a w' => ok (k a) w' Q) -> ok (bind m k) w Q.
Proof. unfold ok, bind. by destruct (m w) as [[a w']| |]. Qed.
Lemma ok_mono {A} (m : M W A) w (P Q : A -> W -> Prop) :
  ok m w P -> (forall a w', P a w' -> Q a w') -> ok m w Q.
Proof. unfold ok. destruct (m w) as [[a w']| |]; auto. Qed.
Lemma ok_modify f w (Q : unit -> W -> Prop) : Q tt (f w) -> ok (modify f) w Q.
Proof. done. Qed.
Lemma ok_gets {A} (f : W -> A) w (Q : A -> W -> Prop) : Q (f w) w -> ok (gets f) w Q.
Proof. done. Qed.
Lemma ok_ret {A} (a : A) w (Q : A -> W -> Prop) : Q a w -> ok (ret a) w Q.
Proof. done. Qed.
End Steps.
