(* ===== verification/IpMatcher.v ===== *)
(** * IPv4Matcher

    The address lists of [src/src/core/utils.h] and [utils.cpp]: single
    addresses and, for each length of a mask, the networks of a file, searched by
    [std::binary_search]; and [safe_atov]. *)

From Stdlib Require Import ZArith Lia Sorting.
From stdpp Require Import sorting gmap.
From S2P Require Import Prelude Utils.
Local Open Scope Z_scope.

(** ** std::binary_search *)
Module Search.

(** [std::binary_search]: the first element not below [v] is found by halving *)
Fixpoint lower_bound (steps : nat) (l : list Z) (first len : nat) (v : Z) : nat :=
  match steps with
  | O => first
  | S steps =>
    match len with
    | O => first
    | _ =>
      let half := Nat.div2 len in
      let middle := (first + half)%nat in
      if nth middle l 0 <? v then lower_bound steps l (S middle) (len - half - 1) v
      else lower_bound steps l first half v
    end
  end.
Definition binary_search (l : list Z) (v : Z) : bool :=
  let i := lower_bound (length l) l 0 (length l) v in
  (i <? length l)%nat && negb (v <? nth i l 0).

Lemma sorted_lookup (l : list Z) i j x y :
  StronglySorted Z.le l -> (i <= j)%nat -> l !! i = Some x -> l !! j = Some y -> x <= y.
Proof.
  intros Hs. revert i j. induction Hs as [|a l _ IH Ha]; intros i j Hij Hx Hy; [done|].
  destruct i as [|i], j as [|j]; cbn in *; [simplify_eq; lia| |lia|].
  - injection Hx as <-. rewrite list.Forall_forall in Ha. eapply Ha, list_elem_of_lookup_2, Hy.
  - apply (IH i j); [lia|done|done].
Qed.

(** All before the result is below [v], all from it on is not. *)
Definition partition_point (l : list Z) (v : Z) (r : nat) : Prop :=
  (r <= length l)%nat /\ (forall i x, (i < r)%nat -> l !! i = Some x -> x < v) /\
  (forall i x, (r <= i)%nat -> l !! i = Some x -> v <= x).

Lemma lower_bound_partition l v steps first len :
  StronglySorted Z.le l -> (first + len <= length l)%nat -> (len <= steps)%nat ->
  (forall i x, (i < first)%nat -> l !! i = Some x -> x < v) ->
  (forall i x, (first + len <= i)%nat -> l !! i = Some x -> v <= x) ->
  partition_point l v (lower_bound steps l first len v).
Proof.
  intros Hs. revert first len.
  induction steps as [|steps IH]; intros first len Hl Hst Hlo Hhi; cbn [lower_bound].
  { assert (len = 0%nat) by lia. subst len. rewrite Nat.add_0_r in *. by split_and!. }
  destruct len as [|len]; [rewrite Nat.add_0_r in *; by split_and!|].
  set (half := Nat.div2 (S len)). set (middle := (first + half)%nat).
  assert (Hh : (half < S len)%nat) by (apply Nat.lt_div2; lia).
  destruct (lookup_lt_is_Some_2 l middle) as [m Hm]; [subst middle; lia|].
  rewrite (nth_lookup_Some l middle 0 m Hm). destruct (Z.ltb_spec m v) as [Hv|Hv].
  - apply IH; [subst middle; lia|lia| |].
    + intros i x Hi Hx. eapply Z.le_lt_trans; [|exact Hv]. apply (sorted_lookup l i middle x m); auto. lia.
    + intros i x Hi Hx. apply (Hhi i); [subst middle; lia|done].
  - apply IH; [lia|lia|done|].
    intros i x Hi Hx. etrans; [exact Hv|]. apply (sorted_lookup l middle i m x); auto.
Qed.

Lemma binary_search_spec l v :
  StronglySorted Z.le l -> binary_search l v = true <-> v ∈ l.
Proof.
  intros Hs. unfold binary_search.
  destruct (lower_bound_partition l v (length l) 0 (length l)) as (H1 & H2 & H3); [done|lia|lia|lia| |].
  { intros i x Hi Hx. apply lookup_lt_Some in Hx. lia. }
  set (r := lower_bound _ _ _ _ _) in *. rewrite andb_true_iff, Nat.ltb_lt, negb_true_iff, Z.ltb_ge. split.
  - intros [Hr Hv]. destruct (lookup_lt_is_Some_2 l r Hr) as [x Hx].
    rewrite (nth_lookup_Some l r 0 x Hx) in Hv. pose proof (H3 r x (le_n _) Hx).
    assert (x = v) as -> by lia. by eapply list_elem_of_lookup_2.
  - intros [i Hi]%list_elem_of_lookup_1. destruct (Nat.lt_ge_cases i r) as [Hlt|Hge].
    { pose proof (H2 i v Hlt Hi). lia. }
    pose proof (lookup_lt_Some _ _ _ Hi). split; [lia|].
    destruct (lookup_lt_is_Some_2 l r) as [x Hx]; [lia|]. rewrite (nth_lookup_Some l r 0 x Hx).
    by apply (sorted_lookup l r i x v).
Qed.

(** What is found is there, also in a range that is not sorted. *)
Lemma lower_bound_hit l v steps first len :
  (len <= steps)%nat -> (first + len = length l)%nat \/ v <= nth (first + len) l 0 ->
  let r := lower_bound steps l first len v in r = length l \/ v <= nth r l 0.
Proof.
  revert first len. induction steps as [|steps IH]; intros first len Hst H; cbn [lower_bound].
  { assert (len = 0%nat) by lia. subst len. by rewrite Nat.add_0_r in H. }
  destruct len as [|len]; [by rewrite Nat.add_0_r in H|].
  assert (Hh : (Nat.div2 (S len) < S len)%nat) by (apply Nat.lt_div2; lia).
  set (half := Nat.div2 (S len)) in *. destruct (Z.ltb_spec (nth (first + half) l 0) v) as [Hv|Hv].
  - apply IH; [lia|]. by replace (S (first + half) + (S len - half - 1))%nat with (first + S len)%nat by lia.
  - apply IH; [lia|]. by right.
Qed.

Lemma binary_search_sound l v : binary_search l v = true -> v ∈ l.
Proof.
  unfold binary_search. rewrite andb_true_iff, Nat.ltb_lt, negb_true_iff, Z.ltb_ge. intros [Hr Hv].
  destruct (lower_bound_hit l v (length l) 0 (length l)) as [H|H]; [lia|by left|lia|].
  destruct (lookup_lt_is_Some_2 l _ Hr) as [x Hx]. rewrite (nth_lookup_Some l _ 0 x Hx) in *.
  assert (x = v) as -> by lia. by eapply list_elem_of_lookup_2.
Qed.

End Search.

Module IPv4Matcher.
Import Search.

(** [isspace] *)
Definition is_space (c : byte) : bool := (b2z c =? 32) || ((9 <=? b2z c) && (b2z c <=? 13)).
Definition is_digit (c : byte) : bool := (48 <=? b2z c) && (b2z c <=? 57).
Fixpoint skip_while (p : byte -> bool) (s : bytes) : bytes * bytes :=
  match s with
  | [] => ([], [])
  | c :: s' => if p c then let '(a, b) := skip_while p s' in (c :: a, b) else ([], s)
  end.
Definition number (digits : bytes) : Z := foldl (fun n c => n * 10 + (b2z c - 48)) 0 digits.

(** [ss >> val] for a [uint32_t] (octets of the sign and the digits after white
    space; a value that does not fit fails, one after a minus sign is negated
    modulo 2^32), then nothing but white space *)
Definition safe_atov (s : bytes) : option Z :=
  let '(_, s) := skip_while is_space s in
  let '(negative, s) :=
    match s with
    | c :: s' =>
      if b2z c =? 45 then (true, s') else if b2z c =? 43 then (false, s') else (false, s)
    | [] => (false, s)
    end in
  let '(digits, rest) := skip_while is_digit s in
  if bool_decide (digits = []) || (4294967295 <? number digits) then None
  else if bool_decide (snd (skip_while is_space rest) = [])
  then Some (if negative then u32 (- number digits) else number digits)
  else None.

Definition mask_values : list Z := [
  0;
  0x80000000; 0xC0000000; 0xE0000000; 0xF0000000;
  0xF8000000; 0xFC000000; 0xFE000000; 0xFF000000;
  0xFF800000; 0xFFC00000; 0xFFE00000; 0xFFF00000;
  0xFFF80000; 0xFFFC0000; 0xFFFE0000; 0xFFFF0000;
  0xFFFF8000; 0xFFFFC000; 0xFFFFE000; 0xFFFFF000;
  0xFFFFF800; 0xFFFFFC00; 0xFFFFFE00; 0xFFFFFF00;
  0xFFFFFF80; 0xFFFFFFC0; 0xFFFFFFE0; 0xFFFFFFF0;
  0xFFFFFFF8; 0xFFFFFFFC; 0xFFFFFFFE; 0xFFFFFFFF].

Record matcher := mkMatcher { subnet : gmap Z (list Z); ips : list Z }.
#[export] Instance eta_matcher : Settable matcher := fun r => mkMatcher (subnet r) (ips r).
Definition new_matcher : matcher := mkMatcher ∅ [].

(** [std::getline] until the stream ends *)
Fixpoint getlines (chars line : bytes) : list bytes :=
  match chars with
  | [] => if bool_decide (line = []) then [] else [line]
  | c :: chars =>
    if bool_decide (c = LF) then line :: getlines chars [] else getlines chars (line ++ [c])
  end.

Fixpoint find_slash (s : bytes) : option nat :=
  match s with
  | [] => None
  | c :: s => if b2z c =? 47 then Some 0%nat else S <$> find_slash s
  end.

Section Load.
(** [make_address_v4], and [to_uint] of its result *)
Context (make_address_v4 : bytes -> option Z).

Definition get_ip_value (ip_str : bytes) : Z := default 0 (make_address_v4 ip_str).

(** One turn of the loop of [load_from_stream] *)
Definition load_line (m : matcher) (loaded_count : Z) (line : bytes) : matcher * Z :=
  let line := List.filter (fun c => negb (b2z c =? 32)) line in
  if bool_decide (line = []) then (m, loaded_count) else
  match find_slash line with
  | Some pos =>
    let net := take pos line in
    let mask_str := drop (pos + 1) line in
    let addr := get_ip_value net in
    match (if addr =? 0 then None else safe_atov mask_str) with
    | Some mask =>
      if (mask =? 0) || (32 <? mask) then (m, loaded_count)
      else
        (m <| subnet ::= fun s =>
           match s !! mask with
           | None => <[mask := [addr]]> s
           | Some l => <[mask := l ++ [addr]]> s
           end |>, loaded_count + 1)
    | None => (m, loaded_count)
    end
  | None =>
    let addr := get_ip_value line in
    if addr =? 0 then (m, loaded_count)
    else (m <| ips ::= fun l => l ++ [addr] |>, loaded_count + 1)
  end.

(** [for (auto it : subnet) sort(...)] sorts a copy of each entry. *)
Definition load_from_stream (text : bytes) (m : matcher) : matcher * Z :=
  let '(m, loaded_count) :=
    foldl (fun r line => load_line (fst r) (snd r) line) (m, 0) (getlines text []) in
  (m <| ips ::= merge_sort Z.le |>, loaded_count).
End Load.

(** [gsl::at] ends the program outside of the array. *)
Fixpoint scan_subnets (l : list (Z * list Z)) (ip : Z) : outcome bool :=
  match l with
  | [] => Ret false
  | (mask, nets) :: l =>
    match mask_values !! Z.to_nat mask with
    | None => Undef (OutOfView [] mask)
    | Some v => if binary_search nets (Z.land ip v) then Ret true else scan_subnets l ip
    end
  end.
Definition is_match (m : matcher) (ip : Z) : outcome bool :=
  if bool_decide (ips m <> []) && binary_search (ips m) ip then Ret true
  else scan_subnets (map_to_list (subnet m)) ip.

(** ** What a list says *)

(** A line names an address or a network. *)
Inductive entry := Single (a : Z) | Net (mask a : Z).
Definition entry_mask (mask : Z) : Z := 2 ^ 32 - 2 ^ (32 - mask).
Definition covers (ip : Z) (e : entry) : Prop :=
  match e with
  | Single a => ip = a
  | Net mask a => Z.land ip (entry_mask mask) = a
  end.
Definition valid (e : entry) : Prop := match e with Single _ => True | Net mask _ => 1 <= mask <= 32 end.

Definition singles (es : list entry) : list Z :=
  omap (fun e => match e with Single a => Some a | _ => None end) es.
Definition nets (k : Z) (es : list entry) : list Z :=
  omap (fun e => match e with Net mask a => if mask =? k then Some a else None | _ => None end) es.

Lemma elem_of_singles es a : a ∈ singles es <-> Single a ∈ es.
Proof.
  unfold singles. rewrite list_elem_of_omap. split.
  - intros ([b|] & H & E); [by injection E as ->|done].
  - intros H. by exists (Single a).
Qed.
Lemma elem_of_nets k es a : a ∈ nets k es <-> Net k a ∈ es.
Proof.
  unfold nets. rewrite list_elem_of_omap. split.
  - intros ([b|mask b] & H & E); [done|]. destruct (Z.eqb_spec mask k) as [->|]; [by injection E as ->|done].
  - intros H. exists (Net k a). by rewrite Z.eqb_refl.
Qed.

Lemma skip_while_all p s : Forall (fun c => p c = true) (fst (skip_while p s)).
Proof.
  induction s as [|c s IH]; cbn; [done|]. destruct (p c) eqn:E; [|done].
  destruct (skip_while p s). cbn in *. by constructor.
Qed.
Lemma number_nonneg ds : Forall (fun c => is_digit c = true) ds -> 0 <= number ds.
Proof.
  intros Hd. unfold number. assert (H : forall n, 0 <= n -> 0 <= foldl (fun n c => n * 10 + (b2z c - 48)) n ds).
  { induction Hd as [|c ds Hc _ IH]; intros n Hn; cbn; [done|]. apply IH.
    unfold is_digit in Hc. apply andb_true_iff in Hc as [Hc _]. apply Z.leb_le in Hc. lia. }
  by apply H.
Qed.
Lemma safe_atov_range s n : safe_atov s = Some n -> 0 <= n.
Proof.
  unfold safe_atov. destruct (skip_while is_space s) as [_ s1]. destruct (match s1 with [] => _ | _ => _ end) as [neg s2].
  pose proof (skip_while_all is_digit s2) as Hd. destruct (skip_while is_digit s2) as [ds rest]. cbn in Hd.
  destruct (_ || _); [done|]. case_bool_decide; [|done]. intros [= <-].
  destruct neg; [apply u32_range|by apply number_nonneg].
Qed.

(** The table of masks *)
Lemma mask_values_spec k : 0 <= k <= 32 -> mask_values !! Z.to_nat k = Some (entry_mask k).
Proof.
  intros H. assert (Hall : forallb (fun n => bool_decide (mask_values !! n = Some (entry_mask (Z.of_nat n))))
    (seq 0 33) = true) by (vm_compute; reflexivity).
  rewrite forallb_forall in Hall. specialize (Hall (Z.to_nat k)). rewrite Z2Nat.id in Hall by lia.
  eapply bool_decide_eq_true_1. apply Hall, in_seq. lia.
Qed.

Section Spec.
Context (make_address_v4 : bytes -> option Z).

Definition address_of (s : bytes) : option Z :=
  match make_address_v4 s with Some a => if a =? 0 then None else Some a | None => None end.
(** The entry of a line: spaces do not count *)
Definition entry_of (line : bytes) : option entry :=
  let line := List.filter (fun c => negb (b2z c =? 32)) line in
  match find_slash line with
  | None => if bool_decide (line = []) then None else Single <$> address_of line
  | Some pos =>
    a ← address_of (take pos line);
    mask ← safe_atov (drop (pos + 1) line);
    if bool_decide (1 <= mask <= 32) then Some (Net mask a) else None
  end.

(** The matcher that has read the entries, in this order *)
Record holds (m : matcher) (es : list entry) : Prop := {
  h_ips : ips m ≡ₚ singles es;
  h_nets : forall k, default [] (subnet m !! k) = nets k es;
  h_valid : Forall valid es;
  h_keys : forall k, is_Some (subnet m !! k) -> 1 <= k <= 32
}.

Lemma holds_new : holds new_matcher [].
Proof. split; [done|done|constructor|]. intros k [? H]. done. Qed.

Lemma holds_single m es a : holds m es -> holds (m <| ips ::= fun l => l ++ [a] |>) (es ++ [Single a]).
Proof.
  intros [H1 H2 H3 H4]. split; cbn; [| |by apply Forall_app_2; [|constructor]|done].
  - unfold singles. rewrite omap_app. cbn. by rewrite H1.
  - intros k. unfold nets. rewrite omap_app. cbn. rewrite app_nil_r. apply H2.
Qed.
Lemma holds_net m es mask a : 1 <= mask <= 32 -> holds m es ->
  holds (m <| subnet ::= fun s =>
    match s !! mask with None => <[mask := [a]]> s | Some l => <[mask := l ++ [a]]> s end |>)
    (es ++ [Net mask a]).
Proof.
  intros Hm [H1 H2 H3 H4]. split; cbn.
  - unfold singles. rewrite omap_app. cbn. by rewrite app_nil_r.
  - intros k. unfold nets. rewrite omap_app. cbn. pose proof (H2 k) as Hk. unfold nets in Hk. rewrite <- Hk.
    destruct (Z.eqb_spec mask k) as [->|Hne].
    + destruct (subnet m !! k); by rewrite lookup_insert_eq.
    + rewrite app_nil_r. destruct (subnet m !! mask); by rewrite lookup_insert_ne.
  - by apply Forall_app_2; [|repeat constructor; cbn; lia].
  - intros k. destruct (decide (mask = k)) as [<-|Hne]; [by intros _|].
    intros Hk. apply H4. by destruct (subnet m !! mask); rewrite lookup_insert_ne in Hk.
Qed.

Lemma load_line_spec m es c line :
  holds m es -> exists m', load_line make_address_v4 m c line = (m', c + zlen (option_list (entry_of line))) /\
    holds m' (es ++ option_list (entry_of line)).
Proof.
  intros H. unfold load_line, entry_of, get_ip_value. set (l := List.filter _ _).
  assert (Hnone : exists m', (m, c) = (m', c + zlen (@nil entry)) /\ holds m' (es ++ [])).
  { exists m. rewrite app_nil_r, Z.add_0_r. done. }
  case_bool_decide as El; [by rewrite El|]. destruct (find_slash l) as [pos|]; unfold address_of.
  - destruct (make_address_v4 _) as [a|]; [cbn|done]. destruct (Z.eqb_spec a 0); [done|cbn].
    destruct (safe_atov _) as [mask|] eqn:Es; [cbn|done]. apply safe_atov_range in Es.
    destruct (Z.eqb_spec mask 0), (Z.ltb_spec 32 mask); cbn; case_bool_decide; try done; try lia.
    eexists. split; [done|]. apply holds_net; [lia|done].
  - destruct (make_address_v4 _) as [a|]; [cbn|done]. destruct (Z.eqb_spec a 0); [done|cbn].
    eexists. split; [done|]. by apply holds_single.
Qed.

(** The entries of a text *)
Definition entries (text : bytes) : list entry := omap entry_of (getlines text []).

Lemma load_lines_spec lines m es c :
  holds m es -> exists m',
    foldl (fun r line => load_line make_address_v4 (fst r) (snd r) line) (m, c) lines =
      (m', c + zlen (omap entry_of lines)) /\ holds m' (es ++ omap entry_of lines).
Proof.
  revert m es c. induction lines as [|line lines IH]; intros m es c H.
  { exists m. cbn. rewrite Z.add_0_r, app_nil_r. done. }
  destruct (load_line_spec m es c line H) as (m1 & E & H1). cbn [foldl fst snd]. rewrite E.
  destruct (IH m1 _ (c + zlen (option_list (entry_of line))) H1) as (m2 & E2 & H2). exists m2.
  assert (Ho : omap entry_of (line :: lines) = option_list (entry_of line) ++ omap entry_of lines).
  { cbn. by destruct (entry_of line). }
  rewrite E2, Ho, zlen_app, Z.add_assoc. split; [done|]. by rewrite app_assoc.
Qed.

Lemma load_spec text m es :
  holds m es -> exists m', load_from_stream make_address_v4 text m = (m', zlen (entries text)) /\
    holds m' (es ++ entries text) /\ StronglySorted Z.le (ips m').
Proof.
  intros H. unfold load_from_stream. destruct (load_lines_spec (getlines text []) m es 0 H) as (m' & -> & [H1 H2 H3 H4]).
  eexists. split; [done|]. split; [split; cbn; try done|].
  - by rewrite merge_sort_Permutation.
  - cbn. apply StronglySorted_merge_sort; apply _.
Qed.

Lemma scan_subnets_spec l ip :
  (forall k ns, (k, ns) ∈ l -> 1 <= k <= 32) ->
  scan_subnets l ip = Ret (existsb (fun e => binary_search (snd e) (Z.land ip (entry_mask (fst e)))) l).
Proof.
  induction l as [|[k ns] l IH]; intros H; [done|]. cbn [scan_subnets existsb fst snd].
  rewrite mask_values_spec by (specialize (H k ns ltac:(left)); lia).
  destruct (binary_search _ _); [done|]. cbn. apply IH. intros k' ns' Hin. apply (H k' ns'). by right.
Qed.

(** The networks of each mask come in ascending order. *)
Definition ordered (es : list entry) : Prop := forall k, StronglySorted Z.le (nets k es).

(** The files that are loaded one after the other, and their counts *)
Fixpoint load_files (texts : list bytes) (m : matcher) : matcher * list Z :=
  match texts with
  | [] => (m, [])
  | text :: texts =>
    let '(m, count) := load_from_stream make_address_v4 text m in
    let '(m, counts) := load_files texts m in (m, count :: counts)
  end.

Lemma load_files_spec texts m es :
  holds m es -> StronglySorted Z.le (ips m) -> exists m',
    load_files texts m = (m', map (fun text => zlen (entries text)) texts) /\
    holds m' (es ++ concat (map entries texts)) /\ StronglySorted Z.le (ips m').
Proof.
  revert m es. induction texts as [|text texts IH]; intros m es H Hs; cbn.
  { exists m. by rewrite app_nil_r. }
  destruct (load_spec text m es H) as (m1 & -> & H1 & Hs1).
  destruct (IH m1 _ H1 Hs1) as (m2 & -> & H2 & Hs2). exists m2. by rewrite app_assoc.
Qed.

(** What [is_match] answers after loading files *)
Lemma lists_match texts ip :
  let es := concat (map entries texts) in
  let '(m, counts) := load_files texts new_matcher in
  counts = map (fun text => zlen (entries text)) texts /\
  exists b, is_match m ip = Ret b /\
    (b = true -> exists e, e ∈ es /\ covers ip e) /\
    (Single ip ∈ es -> b = true) /\
    (ordered es -> forall e, e ∈ es -> covers ip e -> b = true).
Proof.
  cbv zeta. destruct (load_files_spec texts new_matcher [] holds_new) as (m & -> & H & Hs); [constructor|].
  split; [done|]. set (es := concat _) in *. cbn [app] in H. destruct H as [H1 H2 H3 H4].
  unfold is_match. rewrite scan_subnets_spec; cycle 1.
  { intros k ns Hin%elem_of_map_to_list. apply H4. by rewrite Hin. }
  assert (Hsing : Single ip ∈ es <-> binary_search (ips m) ip = true).
  { by rewrite binary_search_spec, H1, elem_of_singles. }
  assert (Hips : bool_decide (ips m <> []) && binary_search (ips m) ip = binary_search (ips m) ip).
  { by destruct (ips m). }
  rewrite Hips. destruct (binary_search (ips m) ip) eqn:Eb.
  { exists true. split_and!; try done. intros _. exists (Single ip). split; [by apply Hsing|done]. }
  eexists. split; [done|]. split_and!.
  - intros ([k ns] & Hin & Hb)%existsb_exists. apply list_elem_of_In, elem_of_map_to_list in Hin.
    apply binary_search_sound in Hb. cbn in Hb. specialize (H2 k). rewrite Hin in H2. cbn in H2. subst ns.
    apply elem_of_nets in Hb. by eexists.
  - intros Hin%Hsing. done.
  - intros Ho e He Hc. destruct e as [a|k a]; cbn in Hc; [subst a; by apply Hsing in He|].
    apply existsb_exists. apply elem_of_nets in He as He'. specialize (H2 k) as Hk.
    destruct (subnet m !! k) as [ns|] eqn:E; cbn in Hk; [|rewrite <- Hk in He'; set_solver].
    exists (k, ns). split; [by apply list_elem_of_In, elem_of_map_to_list|]. cbn [fst snd].
    apply binary_search_spec; [rewrite Hk; apply Ho|]. by rewrite Hc, Hk.
Qed.

(** The lists say what they mean: loading files counts their valid lines;
    [is_match] then always answers (the table of masks is not left); an address
    it accepts is one of the addresses or lies in one of the networks; and it
    accepts each of these addresses, the networks' if the files name the networks
    of each mask in ascending order. *)
Theorem ip_lists_match texts ip :
  let es := concat (map entries texts) in
  let '(m, counts) := load_files texts new_matcher in
  counts = map (fun text => zlen (entries text)) texts /\
  exists b, is_match m ip = Ret b /\
    (b = true -> exists e, e ∈ es /\ covers ip e) /\
    (Single ip ∈ es -> b = true) /\
    (ordered es -> forall e, e ∈ es -> covers ip e -> b = true).
Proof. apply lists_match. Qed.
End Spec.

(** ** A list out of order *)

(** What a line of a network adds *)
Lemma load_net_line make_address_v4 m c line pos net mask_str a mask :
  List.filter (fun x => negb (b2z x =? 32)) line = line -> find_slash line = Some pos ->
  take pos line = net -> drop (pos + 1) line = mask_str ->
  make_address_v4 net = Some a -> a <> 0 -> safe_atov mask_str = Some mask -> 1 <= mask <= 32 ->
  load_line make_address_v4 m c line =
    (m <| subnet ::= fun s =>
       match s !! mask with None => <[mask := [a]]> s | Some l => <[mask := l ++ [a]]> s end |>, c + 1).
Proof.
  intros Hf Hp Hn Hs Ha Hz Hm Hr. unfold load_line, get_ip_value. rewrite Hf.
  destruct line as [|x line]; [done|]. rewrite bool_decide_false by done. rewrite Hp, Hn, Hs, Ha. cbn [default from_option id].
  destruct (Z.eqb_spec a 0); [done|]. rewrite Hm.
  destruct (Z.eqb_spec mask 0), (Z.ltb_spec 32 mask); done || lia.
Qed.

(** Networks that a file names in descending order are not found: the loop
    that is to sort them sorts copies. *)
Theorem unsorted_networks_missed make_address_v4 :
  make_address_v4 (str "10.0.1.0") = Some 0x0A000100 -> make_address_v4 (str "10.0.0.0") = Some 0x0A000000 ->
  let '(m, count) := load_from_stream make_address_v4 (str "10.0.1.0/24
10.0.0.0/24
") new_matcher in
  count = 2 /\ is_match m 0x0A000101 = Ret false /\ is_match m 0x0A000001 = Ret false.
Proof.
  intros H1 H2. unfold load_from_stream.
  assert (El : getlines (str "10.0.1.0/24
10.0.0.0/24
") [] = [str "10.0.1.0/24"; str "10.0.0.0/24"]) by (vm_compute; reflexivity).
  rewrite El. cbn [foldl fst snd].
  rewrite (load_net_line make_address_v4 new_matcher 0 (str "10.0.1.0/24") 8 (str "10.0.1.0") (str "24") _ 24)
    by first [exact H1 | lia | vm_compute; reflexivity].
  rewrite (load_net_line make_address_v4 _ _ (str "10.0.0.0/24") 8 (str "10.0.0.0") (str "24") _ 24)
    by first [exact H2 | lia | vm_compute; reflexivity].
  vm_compute. split_and!; reflexivity.
Qed.

(** A parser of the addresses that are used here *)
Definition some_addresses (s : bytes) : option Z :=
  if bool_decide (s = str "10.0.1.0") then Some 0x0A000100
  else if bool_decide (s = str "10.0.0.0") then Some 0x0A000000 else None.

Lemma unsorted_networks_missed_witness :
  let '(m, count) := load_from_stream some_addresses (str "10.0.1.0/24
10.0.0.0/24
") new_matcher in
  count = 2 /\ is_match m 0x0A000101 = Ret false /\ is_match m 0x0A000001 = Ret false.
Proof. apply unsorted_networks_missed; vm_compute; reflexivity. Defined.

(** In ascending order they are found. *)
Example ascending_networks_found :
  let '(m, count) := load_from_stream some_addresses (str "10.0.0.0/24
 10.0.1.0 / 24
10.0.1.0/33") new_matcher in
  count = 2 /\ is_match m 0x0A000101 = Ret true /\ is_match m 0x0A000201 = Ret false.
Proof. vm_compute. split_and!; reflexivity. Qed.

Lemma ip_lists_match_witness :
  let '(m, _) := load_files some_addresses [str "10.0.0.0/24"] new_matcher in
  is_match m 0x0A000001 = Ret true.
Proof.
  pose proof (ip_lists_match some_addresses [str "10.0.0.0/24"] 0x0A000001) as H.
  destruct (load_files some_addresses [str "10.0.0.0/24"] new_matcher) as [m counts].
  destruct H as (_ & b & H1 & _ & _ & H4). rewrite H1. f_equal.
  apply (H4) with (e := Net 24 0x0A000000).
  - intros k. unfold ordered. replace (concat (map (entries some_addresses) [str "10.0.0.0/24"]))
      with [Net 24 0x0A000000] by (vm_compute; reflexivity).
    unfold nets. cbn [omap list_omap]. destruct (24 =? k); repeat constructor.
  - vm_compute. left.
  - vm_compute. reflexivity.
Defined.

End IPv4Matcher.
