(* ===== verification/Dns.v ===== *)
(** * DNS messages

    [src/src/proto/dns_header.h] and [dns_header.cpp]: the message header, names
    as labels with compression pointers, questions and resource records, read
    from a [std::istream]. *)

From Stdlib Require Import ZArith Lia.
From S2P Require Import Prelude Utils Address.
Local Open Scope Z_scope.

(** ** std::istream

    [noskipws] is set.  In this code end of file is never reached without a
    failure, so one flag stands for [failbit] and [eofbit].  A stream over a
    [boost::asio::streambuf] cannot seek, one over a string can. *)
Module Istream.

Record istream := mkIstream {
  text : bytes;
  pos : Z;
  failed : bool;
  seekable : bool
}.
#[export] Instance eta_istream : Settable istream :=
  fun r => mkIstream (text r) (pos r) (failed r) (seekable r).

Definition istringstream (s : bytes) : istream := mkIstream s 0 false true.
Definition over_streambuf (s : bytes) : istream := mkIstream s 0 false false.

Definition good (i : istream) : bool := negb (failed i).
Definition left_ (i : istream) : bytes := drop (Z.to_nat (pos i)) (text i).

(** [is >> c] *)
Definition get (i : istream) : istream * option byte :=
  if failed i then (i, None) else
  match left_ i with
  | [] => (i <| failed := true |>, None)
  | c :: _ => (i <| pos ::= Z.succ |>, Some c)
  end.

(** [is.read(buf, n)]: the octets stored *)
Definition read (i : istream) (n : Z) : istream * bytes :=
  if failed i then (i, []) else
  let got := take (Z.to_nat n) (left_ i) in
  let i := i <| pos ::= fun p => p + zlen got |> in
  (if zlen got <? n then i <| failed := true |> else i, got).

Definition tellg (i : istream) : Z :=
  if failed i || negb (seekable i) then -1 else pos i.

Definition seekg (i : istream) (p : Z) : istream :=
  if failed i then i
  else if seekable i && (0 <=? p) && (p <=? zlen (text i)) then i <| pos := p |>
  else i <| failed := true |>.

Definition wf (i : istream) : Prop := 0 <= pos i <= zlen (text i).

Lemma left_length i : wf i -> zlen (left_ i) = zlen (text i) - pos i.
Proof. intros Hw. unfold left_. apply zlen_drop. exact Hw. Qed.

Lemma get_wf i : wf i -> wf (fst (get i)).
Proof.
  unfold get. intros Hw. destruct (failed i); [done|].
  pose proof (left_length i Hw). destruct (left_ i) as [|c l]; [done|]. cbn.
  unfold wf in *. cbn. zlen_lia.
Qed.

Lemma read_wf i n : wf i -> wf (fst (read i n)).
Proof.
  unfold read. intros Hw. destruct (failed i); [done|].
  pose proof (left_length i Hw) as Hl.
  assert (zlen (take (Z.to_nat n) (left_ i)) <= zlen (left_ i)).
  { unfold zlen. rewrite length_take. lia. }
  pose proof (zlen_nonneg (take (Z.to_nat n) (left_ i))).
  unfold wf in *. destruct (_ <? _); cbn; lia.
Qed.

Lemma seekg_wf i p : wf i -> wf (seekg i p).
Proof.
  unfold seekg. intros Hw. destruct (failed i); [done|]. destruct (_ && _) eqn:E; [|done].
  bool_facts. unfold wf. cbn. lia.
Qed.

Lemma failed_get i : failed i = true -> get i = (i, None).
Proof. unfold get. by intros ->. Qed.

(** A stream that reads on from [r] after [l]. *)
Lemma left_get i c l :
  wf i -> failed i = false -> left_ i = c :: l ->
  exists i', get i = (i', Some c) /\ wf i' /\ left_ i' = l /\ failed i' = false /\
    text i' = text i /\ seekable i' = seekable i /\ pos i' = pos i + 1.
Proof.
  intros Hw Hf Hl. pose proof (get_wf i Hw) as Hw'. unfold get in *. rewrite Hf, Hl in *.
  eexists. split; [done|]. split_and!; try done; cbn.
  unfold left_ in *. cbn. unfold wf in Hw.
  replace (Z.to_nat (Z.succ (pos i))) with (Z.to_nat (pos i) + 1)%nat by lia.
  by rewrite <- drop_drop, Hl.
Qed.

Lemma left_read i a l :
  wf i -> failed i = false -> left_ i = a ++ l ->
  exists i', read i (zlen a) = (i', a) /\ wf i' /\ left_ i' = l /\ failed i' = false /\
    text i' = text i /\ seekable i' = seekable i /\ pos i' = pos i + zlen a.
Proof.
  intros Hw Hf Hl. pose proof (read_wf i (zlen a) Hw) as Hw'. unfold read in *.
  rewrite Hf, Hl, take_zlen_app' in * by done.
  destruct (Z.ltb_spec (zlen a) (zlen a)); [lia|]. cbn in Hw'.
  eexists. split; [done|]. split_and!; try done.
  unfold left_ in *. cbn. unfold wf in Hw. pose proof (zlen_nonneg a).
  replace (Z.to_nat (pos i + zlen a)) with (Z.to_nat (pos i) + Z.to_nat (zlen a))%nat by lia.
  by rewrite <- drop_drop, Hl, drop_zlen_app.
Qed.

End Istream.

(** ** dns_header *)
Module DnsHeader.
Import Istream Codec.

Definition DNS_HEADER_LENGTH : Z := 12.
Definition QR_QUERY : Z := 0.
Definition QR_RESPONE : Z := 1.
Definition RCODE_NO_ERROR_CONDITION : Z := 0.
Definition QTYPE_A_RECORD : Z := 1.
Definition QTYPE_CNAME_RECORD : Z := 5.
Definition QTYPE_AAAA_RECORD : Z := 28.
Definition QCLASS_INTERNET : Z := 1.
Definition label_split_char : byte := Byte.x2e.
Definition half_byte_mask_0xF : Z := 15.
Definition half_byte_shift_4_bits : Z := 4.

(** [rep_], an array of 12 octets *)
Definition dns_header := bytes.
Definition new_header : dns_header := replicate 12 Byte.x00.
Definition header_wf (h : dns_header) : Prop := zlen h = DNS_HEADER_LENGTH.

Definition rep (h : dns_header) (i : nat) : Z := b2z (nth i h Byte.x00).
Definition set_rep (h : dns_header) (i : nat) (v : Z) : dns_header := <[i := z2b v]> h.

Definition decode (h : dns_header) (a b : nat) : Z :=
  u16 (Z.shiftl (rep h a) one_byte_shift_8_bits + rep h b).
Definition encode (h : dns_header) (a b : nat) (n : Z) : dns_header :=
  let h := set_rep h a (Z.shiftr n one_byte_shift_8_bits) in
  set_rep h b (Z.land n one_byte_mask_0xFF).

Definition ID (h : dns_header) : Z := decode h 0 1.
Definition QR (h : dns_header) : Z := u8 (Z.shiftr (rep h 2) 7).
Definition Opcode (h : dns_header) : Z := u8 (Z.land (Z.shiftr (rep h 2) 3) half_byte_mask_0xF).
Definition AA (h : dns_header) : Z := u8 (Z.land (Z.shiftr (rep h 2) 2) 1).
Definition TC (h : dns_header) : Z := u8 (Z.land (Z.shiftr (rep h 2) 1) 1).
Definition RD (h : dns_header) : Z := u8 (Z.land (rep h 2) 1).
Definition RA (h : dns_header) : Z := u8 (Z.shiftr (rep h 3) 7).
Definition Z_ (h : dns_header) : Z := u8 (Z.land (Z.shiftr (rep h 3) half_byte_shift_4_bits) 7).
Definition RCODE (h : dns_header) : Z := u8 (Z.land (rep h 3) half_byte_mask_0xF).
Definition QDCOUNT (h : dns_header) : Z := decode h 4 5.
Definition ANCOUNT (h : dns_header) : Z := decode h 6 7.
Definition NSCOUNT (h : dns_header) : Z := decode h 8 9.
Definition ARCOUNT (h : dns_header) : Z := decode h 10 11.

(** The flag setters: clear with a mask when [v] is 0, else set. *)
Definition set_ID (h : dns_header) (v : Z) : dns_header := encode h 0 1 v.
Definition set_QR (h : dns_header) (v : Z) : dns_header :=
  if v =? 0 then set_rep h 2 (Z.land (rep h 2) 0x7F) else set_rep h 2 (Z.lor (rep h 2) 0x80).
Definition set_Opcode (h : dns_header) (v : Z) : dns_header :=
  set_rep h 2 (Z.shiftl (Z.land v half_byte_mask_0xF) 3 + Z.land (rep h 2) (0x80 + 0x7)).
Definition set_AA (h : dns_header) (v : Z) : dns_header :=
  if v =? 0 then set_rep h 2 (Z.land (rep h 2) (Z.lnot 0x4)) else set_rep h 2 (Z.lor (rep h 2) 0x4).
Definition set_TC (h : dns_header) (v : Z) : dns_header :=
  if v =? 0 then set_rep h 2 (Z.land (rep h 2) (Z.lnot 0x2)) else set_rep h 2 (Z.lor (rep h 2) 0x2).
Definition set_RD (h : dns_header) (v : Z) : dns_header :=
  if v =? 0 then set_rep h 2 (Z.land (rep h 2) (Z.lnot 0x1)) else set_rep h 2 (Z.lor (rep h 2) 0x1).
Definition set_RA (h : dns_header) (v : Z) : dns_header :=
  if v =? 0 then set_rep h 2 (Z.land (rep h 2) (Z.lnot 0x80)) else set_rep h 3 (Z.lor (rep h 3) 0x80).
Definition set_Z (h : dns_header) (v : Z) : dns_header :=
  set_rep h 3 (Z.shiftl (Z.land v 0x7) half_byte_shift_4_bits +
               Z.land (rep h 3) (0x80 + half_byte_mask_0xF)).
Definition set_RCODE (h : dns_header) (v : Z) : dns_header :=
  set_rep h 3 (Z.land v half_byte_mask_0xF + Z.land (rep h 3) 0xF0).
Definition set_QDCOUNT (h : dns_header) (v : Z) : dns_header := encode h 4 5 v.
Definition set_ANCOUNT (h : dns_header) (v : Z) : dns_header := encode h 6 7 v.
Definition set_NSCOUNT (h : dns_header) (v : Z) : dns_header := encode h 8 9 v.
Definition set_ARCOUNT (h : dns_header) (v : Z) : dns_header := encode h 10 11 v.

(** [is >> header] and [os << header] *)
Definition read_header (i : istream) (h : dns_header) : istream * dns_header :=
  let '(i, got) := read i DNS_HEADER_LENGTH in
  (i, got ++ drop (length got) h).
Definition write_header (os : bytes) (h : dns_header) : bytes := os ++ h.

(** *** Names *)

(** [read_label]; [fuel] bounds the calls of itself.  [buf] is what an
    uninitialised [char buf[255]] holds. *)
Section Label.
Context (buf : bytes).

Fixpoint read_label (fuel : nat) (i : istream) (name : bytes) : outcome (istream * bytes) :=
  match fuel with
  | O => Undef NoEnd
  | S fuel =>
    match get i with
    | (i, None) => Ret (i, name)
    | (i, Some sign) =>
      if negb (Z.land (b2z sign) 0xc0 =? 0) then
        match get i with
        | (i, None) => Ret (i, name)
        | (i, Some low) =>
          let ptr := u16 (u16 (Z.land (b2z sign) 0x3f) + u16 (b2z low)) in
          let curr := tellg i in
          let! '(i, name) := read_label fuel (seekg i ptr) name in
          Ret (seekg i curr, name)
        end
      else if b2z sign =? 0 then Ret (i, name)
      else
        let '(i, got) := read i (b2z sign) in
        let label := got ++ take (Z.to_nat (b2z sign) - length got) (drop (length got) buf) in
        let name := if bool_decide (name = []) then name else name ++ [label_split_char] in
        read_label fuel i (name ++ label)
    end
  end.
End Label.

(** [write_label]: the loop over the name; [start_write] is an index and
    [start_write_len] a [uint8_t]. *)
Fixpoint label_loop (name data : bytes) (i start_write start_write_len : Z) (os : bytes)
  : bytes * Z * Z :=
  match data with
  | [] => (os, start_write, start_write_len)
  | c :: data =>
    if bool_decide (c = label_split_char) then
      let os := os ++ [z2b start_write_len] in
      let os := os ++ sub_ name start_write start_write_len in
      label_loop name data (i + 1) (i + 1) 0 os
    else label_loop name data (i + 1) start_write (u8 (start_write_len + 1)) os
  end.

Definition write_label (os name : bytes) : bytes :=
  let '(os, start_write, start_write_len) := label_loop name name 0 0 0 os in
  let os := if 0 <? start_write_len
            then os ++ [z2b start_write_len] ++ sub_ name start_write start_write_len else os in
  os ++ [Byte.x00].

End DnsHeader.

(** ** dns_question and dns_answer *)
Module DnsMessage.
Import Istream DnsHeader Codec.

Record dns_question := mkQuestion { QNAME : bytes; QTYPE : Z; QCLASS : Z }.
#[export] Instance eta_question : Settable dns_question :=
  fun r => mkQuestion (QNAME r) (QTYPE r) (QCLASS r).

(** [dns_question::decode], [decode32], [encode] *)
Definition q_decode (i : istream) : istream * Z :=
  if failed i then (i, 0) else
  match get i with
  | (i, None) => (i, 0)
  | (i, Some high) =>
    match get i with
    | (i, None) => (i, 0)
    | (i, Some low) =>
      (i, u16 (Z.shiftl (u16 (b2z high)) one_byte_shift_8_bits + b2z low))
    end
  end.

Definition q_decode32 (i : istream) : istream * Z :=
  if failed i then (i, 0) else
  let '(i, high) := q_decode i in
  let '(i, low) := q_decode i in
  (i, if failed i then 0 else Z.lor (u32 (Z.shiftl (u32 high) two_bytes_shift_16_bits)) low).

Definition q_encode (os : bytes) (n : Z) : bytes :=
  let os := os ++ [z2b (Z.shiftr n one_byte_shift_8_bits)] in
  os ++ [z2b (Z.land n one_byte_mask_0xFF)].

Record answer := mkAnswer {
  NAME : bytes;
  TYPE : Z;
  CLASS : Z;
  TTL : Z;
  RD : bytes;
  A : Z;
  AAAA : bytes;
  A_str : bytes;
  AAAA_str : bytes
}.
#[export] Instance eta_answer : Settable answer :=
  fun r => mkAnswer (NAME r) (TYPE r) (CLASS r) (TTL r) (RD r) (A r) (AAAA r) (A_str r) (AAAA_str r).

(** [answer an{}] *)
Definition new_answer : answer := mkAnswer [] 0 0 0 [] 0 (replicate 16 Byte.x00) [] [].

Record dns_answer := mkDnsAnswer {
  header : dns_header;
  questions : list dns_question;
  answers : list answer;
  authorities : list answer;
  additionals : list answer
}.
#[export] Instance eta_dns_answer : Settable dns_answer :=
  fun r => mkDnsAnswer (header r) (questions r) (answers r) (authorities r) (additionals r).

Definition new_dns_answer : dns_answer := mkDnsAnswer new_header [] [] [] [].

(** [make_address_v4] of an unsigned value, as text *)
Definition v4_text (a : Z) : bytes :=
  v4_to_string (z2b (Z.shiftr a 24)) (z2b (Z.shiftr a 16)) (z2b (Z.shiftr a 8)) (z2b a).

Section Read.
(** What uninitialised memory holds: the label buffer and the two integers of a
    question; Boost's text of an IPv6 address; the bound on [read_label]. *)
Context (buf : bytes) (qtype0 qclass0 : Z) (v6_to_string : bytes -> bytes) (fuel : nat).

(** [dns_question q; is >> q] *)
Definition read_question (i : istream) : outcome (istream * dns_question) :=
  let! '(i, name) := read_label buf fuel i [] in
  if failed i then Ret (i, mkQuestion name qtype0 qclass0) else
  let '(i, qtype) := q_decode i in
  let '(i, qclass) := q_decode i in
  Ret (i, mkQuestion name qtype qclass).

Definition write_question (os : bytes) (q : dns_question) : bytes :=
  q_encode (q_encode (write_label os (QNAME q)) (QTYPE q)) (QCLASS q).

(** [while (length-- > 0)] *)
Fixpoint rd_loop (length : nat) (i : istream) (rd : bytes) : istream * bytes :=
  match length with
  | O => (i, rd)
  | S length =>
    match get i with
    | (i, None) => (i, rd)
    | (i, Some c) => rd_loop length i (rd ++ [c])
    end
  end.

(** The octets [std::copy] reads; [RD.data()] ends with a NUL. *)
Definition copy16 (rd : bytes) : outcome bytes :=
  if zlen rd + 1 <? 16 then Undef (OutOfView rd (zlen rd + 1)) else Ret (take 16 (rd ++ [Byte.x00])).

Definition read_answer (i : istream) (an : answer) : outcome (istream * answer) :=
  let! '(i, name) := read_label buf fuel i (NAME an) in
  let an := an <| NAME := name |> in
  if failed i then Ret (i, an) else
  let '(i, type) := q_decode i in
  let an := an <| TYPE := type |> in
  let '(i, class) := q_decode i in
  let an := an <| CLASS := class |> in
  let '(i, ttl) := q_decode32 i in
  let an := an <| TTL := ttl |> in
  let '(i, length) := q_decode i in
  let! '(i, rd) :=
    if TYPE an =? QTYPE_CNAME_RECORD then read_label buf fuel i (RD an)
    else Ret (rd_loop (Z.to_nat length) i (RD an)) in
  let an := an <| RD := rd |> in
  if failed i then Ret (i, an)
  else if TYPE an =? QTYPE_A_RECORD then
    let! a := parse_uint32 0 (RD an) in
    Ret (i, an <| A := a |> <| A_str := v4_text a |>)
  else if TYPE an =? QTYPE_AAAA_RECORD then
    let! b := copy16 (RD an) in
    Ret (i, an <| AAAA := b |> <| AAAA_str := v6_to_string b |>)
  else Ret (i, an).

(** The loops of [operator>>]: an element is read only from a good stream. *)
Fixpoint read_questions (n : nat) (i : istream) : outcome (istream * list dns_question) :=
  match n with
  | O => Ret (i, [])
  | S n =>
    if failed i then read_questions n i else
    let! '(i, q) := read_question i in
    let! '(i, l) := read_questions n i in
    Ret (i, q :: l)
  end.
Fixpoint read_answers (n : nat) (i : istream) : outcome (istream * list answer) :=
  match n with
  | O => Ret (i, [])
  | S n =>
    if failed i then read_answers n i else
    let! '(i, an) := read_answer i new_answer in
    let! '(i, l) := read_answers n i in
    Ret (i, an :: l)
  end.

(** [is >> answer] for a new [answer] *)
Definition read_dns_answer (i : istream) : outcome (istream * dns_answer) :=
  let '(i, h) := read_header i new_header in
  let! '(i, qs) := read_questions (Z.to_nat (QDCOUNT h)) i in
  let! '(i, an) := read_answers (Z.to_nat (ANCOUNT h)) i in
  let! '(i, au) := read_answers (Z.to_nat (NSCOUNT h)) i in
  let! '(i, ad) := read_answers (Z.to_nat (ARCOUNT h)) i in
  Ret (i, mkDnsAnswer h qs an au ad).

End Read.

(** *** The test cases of the source, evaluated *)
Definition hex (l : list Z) : bytes := map z2b l.

Definition baidu_query : bytes := hex
  [0x6c;0xad;0x01;0x20;0x00;0x01;0x00;0x00;0x00;0x00;0x00;0x01;0x03;0x77;0x77;0x77;0x05;0x62;0x61;
   0x69;0x64;0x75;0x03;0x63;0x6f;0x6d;0x00;0x00;0x1c;0x00;0x01].

Definition baidu_answer : bytes := hex
  [0x73;0x47;0x81;0x80;0x00;0x01;0x00;0x03;0x00;0x00;0x00;0x01;0x03;0x77;0x77;0x77;0x05;0x62;0x61;
   0x69;0x64;0x75;0x03;0x63;0x6f;0x6d;0x00;0x00;0x01;0x00;0x01;0xc0;0x0c;0x00;0x05;0x00;0x01;0x00;
   0x00;0x02;0x20;0x00;0x0f;0x03;0x77;0x77;0x77;0x01;0x61;0x06;0x73;0x68;0x69;0x66;0x65;0x6e;0xc0;
   0x16;0xc0;0x2b;0x00;0x01;0x00;0x01;0x00;0x00;0x00;0x29;0x00;0x04;0xb4;0x65;0x31;0x0c;0xc0;0x2b;
   0x00;0x01;0x00;0x01;0x00;0x00;0x00;0x29;0x00;0x04;0xb4;0x65;0x31;0x0b;0x00;0x00;0x29;0x02;0x00;
   0x00;0x00;0x00;0x00;0x00;0x00].

Example query_test_case :
  let '(i, h) := read_header (istringstream baidu_query) new_header in
  QDCOUNT h = 1 /\ QR h = QR_QUERY /\
  exists i', read_question [] 0 0 10 i =
    Ret (i', mkQuestion (str "www.baidu.com") QTYPE_AAAA_RECORD QCLASS_INTERNET).
Proof. vm_compute. split_and!; [done|done|]. by eexists. Qed.

Example answer_test_case :
  match read_dns_answer [] 0 0 id 20 (istringstream baidu_answer) with
  | Ret (i, a) =>
    failed i = false /\ map QNAME (questions a) = [str "www.baidu.com"] /\
    map (fun an => (TYPE an, CLASS an, TTL an, NAME an)) (answers a) =
      [(5, 1, 0x220, str "www.baidu.com"); (1, 1, 0x29, str "www.a.shifen.com");
       (1, 1, 0x29, str "www.a.shifen.com")] /\
    map A_str (answers a) = [[]; str "180.101.49.12"; str "180.101.49.11"] /\
    map RD (take 1 (answers a)) = [str "www.a.shifen.com"]
  | _ => False
  end.
Proof. vm_compute. split_and!; reflexivity. Qed.

End DnsMessage.

(** ** Names as lists of labels *)
Section Names.
Import Istream DnsHeader.

Definition label_ok (l : bytes) : Prop := 1 <= zlen l <= 63 /\ label_split_char ∉ l.

(** The octets of one label, of a name without pointers, and its text. *)
Definition wire_label (l : bytes) : bytes := z2b (zlen l) :: l.
Definition wire_name (ls : list bytes) : bytes := concat (map wire_label ls) ++ [Byte.x00].
Fixpoint join (ls : list bytes) : bytes :=
  match ls with
  | [] => []
  | [l] => l
  | l :: ls => l ++ [label_split_char] ++ join ls
  end.

Lemma label_loop_run name l data start n os :
  label_split_char ∉ l -> 0 <= n -> n + zlen l <= 255 ->
  forall i, label_loop name (l ++ data) i start n os =
    label_loop name data (i + zlen l) start (n + zlen l) os.
Proof.
  revert n. induction l as [|c l IH]; intros n Hd Hn Hl i.
  - cbn [app]. rewrite !zlen_nil, !Z.add_0_r. done.
  - cbn [app label_loop]. rewrite bool_decide_false by set_solver.
    rewrite u8_small by zlen_lia. rewrite IH by (try set_solver; zlen_lia).
    rewrite zlen_cons. f_equal; lia.
Qed.

(** What [write_label] does after the loop. *)
Definition write_rest (name : bytes) (r : bytes * Z * Z) : bytes :=
  let '(os, start_write, start_write_len) := r in
  (if 0 <? start_write_len
   then os ++ [z2b start_write_len] ++ sub_ name start_write start_write_len else os) ++ [Byte.x00].

Lemma write_label_loop os name : write_label os name = write_rest name (label_loop name name 0 0 0 os).
Proof. unfold write_label. by destruct (label_loop _ _ _ _ _ _) as [[? ?] ?]. Qed.

Lemma label_loop_join ls pre os :
  Forall label_ok ls ->
  write_rest (pre ++ join ls) (label_loop (pre ++ join ls) (join ls) (zlen pre) (zlen pre) 0 os) =
  os ++ wire_name ls.
Proof.
  revert pre os. induction ls as [|l ls IH]; intros pre os Hok; [done|].
  inversion Hok as [|? ? [Hl Hd] Hls]; subst.
  destruct ls as [|l' ls].
  - cbn [join]. rewrite <- (app_nil_r l) at 3.
    rewrite label_loop_run by (try done; lia). cbn [label_loop write_rest].
    destruct (Z.ltb_spec 0 (0 + zlen l)); [|lia].
    assert (sub_ (pre ++ l) (zlen pre) (0 + zlen l) = l) as ->.
    { rewrite <- (app_nil_r l) at 1. apply sub_app; lia || done. }
    unfold wire_name, wire_label. cbn. by rewrite app_nil_r, <- !app_assoc.
  - change (join (l :: l' :: ls)) with (l ++ [label_split_char] ++ join (l' :: ls)).
    rewrite label_loop_run by (try done; lia). cbn [app label_loop].
    rewrite bool_decide_true by done. cbn [Z.add].
    rewrite sub_app by (lia || done).
    replace (pre ++ l ++ label_split_char :: join (l' :: ls))
      with ((pre ++ l ++ [label_split_char]) ++ join (l' :: ls)) by (by rewrite <- !app_assoc).
    replace (zlen pre + zlen l + 1) with (zlen (pre ++ l ++ [label_split_char])) by zlen_lia.
    rewrite IH by done. unfold wire_name. cbn [map concat]. unfold wire_label at 3.
    rewrite <- !app_assoc. done.
Qed.

Lemma write_label_join os ls : Forall label_ok ls -> write_label os (join ls) = os ++ wire_name ls.
Proof. intros H. rewrite write_label_loop. by apply (label_loop_join ls [] os). Qed.

(** Reading labels, one after the other. *)
Fixpoint add_labels (name : bytes) (ls : list bytes) : bytes :=
  match ls with
  | [] => name
  | l :: ls => add_labels ((if bool_decide (name = []) then name else name ++ [label_split_char]) ++ l) ls
  end.

Lemma add_labels_cons name ls :
  name <> [] -> Forall label_ok ls -> ls <> [] ->
  add_labels name ls = name ++ [label_split_char] ++ join ls.
Proof.
  revert name. induction ls as [|l ls IH]; intros name Hn Hok Hne; [done|]. cbn [add_labels].
  inversion Hok; subst. rewrite bool_decide_false by done. destruct ls as [|l' ls].
  - cbn [add_labels join]. by rewrite <- app_assoc.
  - rewrite IH by (try done; by destruct name). cbn [join]. by rewrite <- !app_assoc.
Qed.

Lemma add_labels_join ls : Forall label_ok ls -> add_labels [] ls = join ls.
Proof.
  intros Hok. destruct ls as [|l ls]; [done|]. inversion Hok as [|? ? [Hl _] Hls]; subst.
  cbn [add_labels]. rewrite bool_decide_true by done. cbn [app].
  destruct ls as [|l' ls]; [done|]. rewrite add_labels_cons; [done| |done|done].
  intros ->. zlen_lia.
Qed.

Lemma small_sign b : b2z b <= 63 -> Z.land (b2z b) 0xc0 =? 0 = true.
Proof.
  intros H. pose proof (b2z_range b). apply Z.eqb_eq, Z.bits_inj'. intros n Hn.
  rewrite Z.land_spec, Z.bits_0. destruct (Z.ltb_spec n 6).
  - assert (n = 0 \/ n = 1 \/ n = 2 \/ n = 3 \/ n = 4 \/ n = 5) as Hc by lia.
    decompose [or] Hc; subst; apply andb_false_r.
  - destruct (decide (b2z b = 0)) as [->|]; [by rewrite Z.bits_0|].
    rewrite (Z.bits_above_log2 (b2z b)); [done|lia|].
    apply Z.lt_le_trans with 6; [|done]. apply Z.log2_lt_pow2; lia.
Qed.

Lemma read_labels buf ls tail fuel i name :
  wf i -> failed i = false -> Forall label_ok ls ->
  left_ i = concat (map wire_label ls) ++ tail ->
  (length ls <= fuel)%nat ->
  exists i', read_label buf fuel i name =
      read_label buf (fuel - length ls) i' (add_labels name ls) /\
    wf i' /\ failed i' = false /\ left_ i' = tail /\ text i' = text i /\ seekable i' = seekable i.
Proof.
  revert fuel i name. induction ls as [|l ls IH]; intros fuel i name Hw Hf Hok Hl Hfu.
  - exists i. rewrite Nat.sub_0_r. done.
  - inversion Hok as [|? ? [Hlen Hd] Hls]; subst.
    destruct fuel as [|fuel]; [cbn in Hfu; lia|]. cbn [length] in *.
    cbn [map concat] in Hl. unfold wire_label in Hl at 1. cbn [app] in Hl.
    rewrite <- app_assoc in Hl.
    destruct (left_get i _ _ Hw Hf Hl) as (i1 & Hg & Hw1 & Hl1 & Hf1 & Ht1 & Hk1 & _).
    destruct (left_read i1 l _ Hw1 Hf1 Hl1) as (i2 & Hr & Hw2 & Hl2 & Hf2 & Ht2 & Hk2 & _).
    destruct (IH fuel i2 ((if bool_decide (name = []) then name else name ++ [label_split_char]) ++ l)
      Hw2 Hf2 Hls Hl2 ltac:(lia)) as (i3 & H3 & Hw3 & Hf3 & Hl3 & Ht3 & Hk3).
    exists i3. split_and!; try done; [|congruence|congruence].
    cbn [read_label]. rewrite Hg. rewrite b2z_z2b, u8_small by lia.
    rewrite <- (u8_small (zlen l)) at 1 by lia. rewrite <- b2z_z2b, small_sign by
      (rewrite b2z_z2b, u8_small; lia). cbn [negb].
    destruct (Z.eqb_spec (zlen l) 0); [lia|]. rewrite Hr.
    replace (Z.to_nat (zlen l) - length l)%nat with 0%nat by (unfold zlen; lia).
    cbn [take]. rewrite app_nil_r, H3. cbn [add_labels]. done.
Qed.

(** A name without pointers is read to its end. *)
Lemma read_wire_name buf ls fuel i name rest :
  wf i -> failed i = false -> Forall label_ok ls -> left_ i = wire_name ls ++ rest ->
  (length ls < fuel)%nat ->
  exists i', read_label buf fuel i name = Ret (i', add_labels name ls) /\
    wf i' /\ failed i' = false /\ left_ i' = rest /\ text i' = text i /\ seekable i' = seekable i.
Proof.
  intros Hw Hf Hok Hl Hfu. unfold wire_name in Hl. rewrite <- app_assoc in Hl.
  destruct (read_labels buf ls _ fuel i name Hw Hf Hok Hl ltac:(lia))
    as (i1 & -> & Hw1 & Hf1 & Hl1 & Ht1 & Hk1).
  destruct (fuel - length ls)%nat as [|k] eqn:Ek; [lia|]. cbn [read_label].
  destruct (left_get i1 _ _ Hw1 Hf1 Hl1) as (i2 & -> & Hw2 & Hl2 & Hf2 & Ht2 & Hk2 & _).
  exists i2. split; [done|]. split_and!; try done; congruence.
Qed.

End Names.

(** ** The header's fields *)
Module Fields.
Import DnsHeader.

Inductive field :=
| F_ID | F_QR | F_Opcode | F_AA | F_TC | F_RD | F_RA | F_Z | F_RCODE
| F_QDCOUNT | F_ANCOUNT | F_NSCOUNT | F_ARCOUNT.
#[export] Instance field_eq_dec : EqDecision field.
Proof. solve_decision. Defined.

Definition get_field (f : field) : dns_header -> Z :=
  match f with
  | F_ID => ID | F_QR => QR | F_Opcode => Opcode | F_AA => AA | F_TC => TC | F_RD => RD
  | F_RA => RA | F_Z => Z_ | F_RCODE => RCODE | F_QDCOUNT => QDCOUNT | F_ANCOUNT => ANCOUNT
  | F_NSCOUNT => NSCOUNT | F_ARCOUNT => ARCOUNT
  end.
Definition set_field (f : field) : dns_header -> Z -> dns_header :=
  match f with
  | F_ID => set_ID | F_QR => set_QR | F_Opcode => set_Opcode | F_AA => set_AA | F_TC => set_TC
  | F_RD => set_RD | F_RA => set_RA | F_Z => set_Z | F_RCODE => set_RCODE
  | F_QDCOUNT => set_QDCOUNT | F_ANCOUNT => set_ANCOUNT | F_NSCOUNT => set_NSCOUNT
  | F_ARCOUNT => set_ARCOUNT
  end.

(** What a field keeps of a value. *)
Definition field_value (f : field) (v : Z) : Z :=
  match f with
  | F_ID | F_QDCOUNT | F_ANCOUNT | F_NSCOUNT | F_ARCOUNT => u16 v
  | F_QR | F_AA | F_TC | F_RD | F_RA => if v =? 0 then 0 else 1
  | F_Opcode | F_RCODE => v mod 16
  | F_Z => v mod 8
  end.

Definition all_fields : list field :=
  [F_ID; F_QR; F_Opcode; F_AA; F_TC; F_RD; F_RA; F_Z; F_RCODE; F_QDCOUNT; F_ANCOUNT; F_NSCOUNT; F_ARCOUNT].

Lemma header_octets h : header_wf h ->
  exists b0 b1 b2 b3 b4 b5 b6 b7 b8 b9 b10 b11, h = [b0;b1;b2;b3;b4;b5;b6;b7;b8;b9;b10;b11].
Proof.
  unfold header_wf, zlen, DNS_HEADER_LENGTH. intros H.
  do 12 (destruct h as [|? h]; [cbn in H; lia|]). destruct h; [|cbn in H; lia].
  by do 12 eexists.
Qed.

Lemma set_field_wf f h v : header_wf h -> header_wf (set_field f h v).
Proof.
  intros (b0&b1&b2&b3&b4&b5&b6&b7&b8&b9&b10&b11&->)%header_octets.
  by destruct f; cbn; unfold set_QR, set_AA, set_TC, set_RD, set_RA; try destruct (v =? 0).
Qed.

Lemma encode_decode v : u16 (Z.shiftl (b2z (z2b (Z.shiftr v 8))) 8 + b2z (z2b (Z.land v 255))) = u16 v.
Proof.
  rewrite !b2z_z2b. change 255 with (Z.ones 8). rewrite Z.land_ones, Z.shiftr_div_pow2, Z.shiftl_mul_pow2 by lia.
  change (2 ^ 8) with 256. unfold u8, u16. Z.div_mod_to_equations. lia.
Qed.

(** The flags share the octets 2 and 3. *)
Definition octet_of (f : field) : nat :=
  match f with
  | F_QR | F_Opcode | F_AA | F_TC | F_RD => 2
  | F_RA | F_Z | F_RCODE => 3
  | _ => 0
  end.
Definition all_bytes : list byte := map (fun n => z2b (Z.of_nat n)) (seq 0 256).
Definition mid (b2 b3 : byte) : dns_header :=
  [Byte.x00; Byte.x00; b2; b3; Byte.x00; Byte.x00; Byte.x00; Byte.x00; Byte.x00; Byte.x00; Byte.x00; Byte.x00].

Definition flag_ok (f g : field) (b : byte) (v : Z) : bool :=
  bool_decide (f = F_RA /\ v = 0) ||
  (get_field g (set_field f (mid b b) v) =?
    (if decide (g = f) then field_value f v else get_field g (mid b b))).

Lemma all_bytes_elem b : b ∈ all_bytes.
Proof.
  apply list_elem_of_fmap. exists (Z.to_nat (b2z b)). pose proof (b2z_range b).
  split; [by rewrite Z2Nat.id, z2b_b2z by lia|]. apply elem_of_seq. lia.
Qed.

Lemma flags_checked2 :
  forallb (fun b => forallb (fun v => forallb (fun f => forallb (fun g => flag_ok f g b v)
    [F_QR; F_Opcode; F_AA; F_TC; F_RD]) [F_QR; F_Opcode; F_AA; F_TC; F_RD])
    (map Z.of_nat (seq 0 16))) all_bytes = true.
Proof. vm_compute. reflexivity. Qed.
Lemma flags_checked3 :
  forallb (fun b => forallb (fun v => forallb (fun f => forallb (fun g => flag_ok f g b v)
    [F_RA; F_Z; F_RCODE]) [F_RA; F_Z; F_RCODE]) (map Z.of_nat (seq 0 16))) all_bytes = true.
Proof. vm_compute. reflexivity. Qed.

(** Only this much of the value matters for a flag. *)
Definition norm (f : field) (v : Z) : Z :=
  match f with
  | F_Opcode | F_Z | F_RCODE => v mod 16
  | _ => if v =? 0 then 0 else 1
  end.

Lemma norm_elem f v : norm f v ∈ map Z.of_nat (seq 0 16).
Proof.
  assert (0 <= norm f v < 16) as H.
  { unfold norm. pose proof (Z.mod_pos_bound v 16). destruct f; try destruct (_ =? _); lia. }
  apply list_elem_of_fmap. exists (Z.to_nat (norm f v)). split; [lia|]. apply elem_of_seq. lia.
Qed.

Lemma land_mod_ones v n k : 0 <= k <= n -> Z.land (v mod 2 ^ n) (Z.ones k) = Z.land v (Z.ones k).
Proof.
  intros H. apply Z.bits_inj'. intros i Hi. rewrite !Z.land_spec, Z.testbit_ones_nonneg by lia.
  destruct (Z.ltb_spec i k); [|by rewrite !andb_false_r].
  by rewrite Z.mod_pow2_bits_low by lia.
Qed.

Lemma set_norm f h v : octet_of f <> 0%nat -> set_field f h v = set_field f h (norm f v).
Proof.
  intros Ho. pose proof (land_mod_ones v 4 4 ltac:(lia)) as H4.
  pose proof (land_mod_ones v 4 3 ltac:(lia)) as H3.
  change (2 ^ 4) with 16 in *. change (Z.ones 4) with 15 in *. change (Z.ones 3) with 7 in *.
  destruct f; try done; unfold norm; cbn [set_field];
    unfold set_QR, set_Opcode, set_AA, set_TC, set_RD, set_RA, set_Z, set_RCODE, half_byte_mask_0xF;
    rewrite ?H3, ?H4; try done; by destruct (v =? 0).
Qed.

Lemma value_norm f v : octet_of f <> 0%nat -> field_value f (norm f v) = field_value f v.
Proof.
  intros Ho. destruct f; try done; unfold norm; cbn [field_value]; try by destruct (v =? 0).
  all: Z.div_mod_to_equations; lia.
Qed.

Lemma flag_set_get f g h v :
  header_wf h -> octet_of f <> 0%nat -> octet_of g = octet_of f -> ~ (f = F_RA /\ v = 0) ->
  get_field g (set_field f h v) = if decide (g = f) then field_value f v else get_field g h.
Proof.
  intros (b0&b1&b2&b3&b4&b5&b6&b7&b8&b9&b10&b11&->)%header_octets Hf Hg Hra.
  rewrite set_norm, <- (value_norm f v) by done.
  assert (Hra' : ~ (f = F_RA /\ norm f v = 0)).
  { intros [-> Hn]. cbn in Hn. destruct (Z.eqb_spec v 0); [auto|lia]. }
  pose proof (norm_elem f v) as Hv. clear Hra. set (v' := norm f v) in *. clearbody v'.
  set (b := if decide (octet_of f = 2%nat) then b2 else b3).
  assert (Hok : flag_ok f g b v' = true).
  { pose proof flags_checked2 as C2. pose proof flags_checked3 as C3.
    rewrite forallb_forall in C2, C3.
    specialize (C2 b (proj1 (list_elem_of_In _ _) (all_bytes_elem b))).
    specialize (C3 b (proj1 (list_elem_of_In _ _) (all_bytes_elem b))).
    rewrite forallb_forall in C2, C3.
    specialize (C2 v' (proj1 (list_elem_of_In _ _) Hv)).
    specialize (C3 v' (proj1 (list_elem_of_In _ _) Hv)).
    rewrite forallb_forall in C2, C3.
    assert (Hin : (In f [F_QR; F_Opcode; F_AA; F_TC; F_RD] /\ In g [F_QR; F_Opcode; F_AA; F_TC; F_RD]) \/
      (In f [F_RA; F_Z; F_RCODE] /\ In g [F_RA; F_Z; F_RCODE])).
    { destruct f; try done; destruct g; try done; cbn; tauto. }
    destruct Hin as [[H1 H2]|[H1 H2]].
    - specialize (C2 f H1). rewrite forallb_forall in C2. auto.
    - specialize (C3 f H1). rewrite forallb_forall in C3. auto. }
  unfold flag_ok in Hok. rewrite bool_decide_false in Hok by done. cbn [orb] in Hok.
  apply Z.eqb_eq in Hok. subst b.
  destruct f; try done; destruct g; try done; cbn [octet_of] in *; revert Hok; cbn;
    unfold set_QR, set_AA, set_TC, set_RD, set_RA; try (destruct (v' =? 0)); cbn; done.
Qed.

Lemma header_set_get f g h v :
  header_wf h -> ~ (f = F_RA /\ v = 0) ->
  get_field g (set_field f h v) = if decide (g = f) then field_value f v else get_field g h.
Proof.
  intros Hw Hra. destruct (decide (octet_of f <> 0%nat /\ octet_of g = octet_of f)) as [[H1 H2]|Hn].
  { by apply flag_set_get. }
  apply header_octets in Hw as (b0&b1&b2&b3&b4&b5&b6&b7&b8&b9&b10&b11&->).
  destruct f, g; cbn [octet_of] in Hn; try (exfalso; apply Hn; done); cbn;
    unfold set_QR, set_AA, set_TC, set_RD, set_RA; try (destruct (Z.eqb_spec v 0); [try tauto|]); cbn;
    try done; apply encode_decode.
Qed.

End Fields.

(** ** Properties *)
#[export] Existing Instance Fields.field_eq_dec.

Section Theorems.
Import Istream DnsHeader DnsMessage Codec.

(** Writing any field of a DNS header but one keeps what the field holds of the
    value and leaves the other twelve fields as they were; [RA(0)] clears [QR]
    instead of [RA] (see [dns_RA_zero_clears_QR]). *)
Theorem dns_header_fields f g h v :
  header_wf h -> ~ (f = Fields.F_RA /\ v = 0) ->
  header_wf (Fields.set_field f h v) /\
  Fields.get_field g (Fields.set_field f h v) =
    if decide (g = f) then Fields.field_value f v else Fields.get_field g h.
Proof. intros Hw Hra. split; [by apply Fields.set_field_wf|by apply Fields.header_set_get]. Qed.

Lemma dns_header_fields_witness :
  header_wf (set_Opcode new_header 9) /\ Fields.get_field Fields.F_Opcode (set_Opcode new_header 9) = 9.
Proof.
  exact (dns_header_fields Fields.F_Opcode Fields.F_Opcode new_header 9 eq_refl
    ltac:(intros [? _]; discriminate)).
Defined.

(** [RA(0)] leaves [RA] as it is, and turns a response into a query. *)
Theorem dns_RA_zero_clears_QR h :
  header_wf h -> RA (set_RA h 0) = RA h /\ QR (set_RA h 0) = 0.
Proof.
  intros (b0&b1&b2&b3&b4&b5&b6&b7&b8&b9&b10&b11&->)%Fields.header_octets. split; [done|].
  unfold QR, set_RA. cbn [Z.eqb]. unfold set_rep, rep. cbn [insert list_insert nth].
  rewrite b2z_z2b. pose proof (b2z_range b2).
  change (Z.lnot 0x80) with (-129). unfold u8.
  replace (Z.land (b2z b2) (-129)) with (Z.land (b2z b2) 127).
  - change 127 with (Z.ones 7). rewrite Z.land_ones, Z.shiftr_div_pow2 by lia.
    Z.div_mod_to_equations. lia.
  - apply Z.bits_inj'. intros n Hn. rewrite !Z.land_spec.
    destruct (Z.ltb_spec n 8) as [H8|H8].
    + assert (n = 0 \/ n = 1 \/ n = 2 \/ n = 3 \/ n = 4 \/ n = 5 \/ n = 6 \/ n = 7) as Hc by lia.
      by decompose [or] Hc; subst.
    + destruct (decide (b2z b2 = 0)) as [->|]; [by rewrite Z.bits_0|].
      rewrite (Z.bits_above_log2 (b2z b2)); [done|lia|].
      apply Z.lt_le_trans with 8; [|done]. apply Z.log2_lt_pow2; lia.
Qed.

(** *** Questions *)

Lemma read_q_decode i v rest :
  wf i -> failed i = false -> left_ i = be16 v ++ rest ->
  exists i', q_decode i = (i', u16 v) /\ wf i' /\ failed i' = false /\ left_ i' = rest /\
    text i' = text i /\ seekable i' = seekable i.
Proof.
  intros Hw Hf Hl. unfold be16 in Hl. cbn [app] in Hl.
  destruct (left_get i _ _ Hw Hf Hl) as (i1 & Hg & Hw1 & Hl1 & Hf1 & Ht1 & Hk1 & _).
  destruct (left_get i1 _ _ Hw1 Hf1 Hl1) as (i2 & Hg2 & Hw2 & Hl2 & Hf2 & Ht2 & Hk2 & _).
  exists i2. unfold q_decode. rewrite Hf, Hg, Hg2. split; [|split_and!; try done; congruence].
  f_equal. rewrite !b2z_z2b. unfold one_byte_shift_8_bits. rewrite Z.shiftl_mul_pow2 by lia.
  change (2 ^ 8) with 256. unfold u8, u16. Z.div_mod_to_equations. lia.
Qed.

Lemma q_encode_be os n : q_encode os n = os ++ be16 n.
Proof.
  unfold q_encode, be16, one_byte_shift_8_bits, one_byte_mask_0xFF.
  rewrite <- app_assoc. f_equal. cbn. rewrite Z.shiftr_div_pow2 by lia. f_equal.
  f_equal. apply b2z_inj. rewrite !b2z_z2b. change 255 with (Z.ones 8). rewrite Z.land_ones by lia.
  change (2 ^ 8) with 256. unfold u8. apply Z.mod_mod. lia.
Qed.

(** C32: a question written by [operator<<] is read back by [operator>>], from a
    stream that can seek or not, whatever follows it: its name, when every label
    has 1 to 63 octets, its type and its class; and the stream stands right
    after it. *)
Theorem dns_question_roundtrip buf q0 c0 fuel ls qtype qclass i rest :
  Forall label_ok ls -> 0 <= qtype < 65536 -> 0 <= qclass < 65536 ->
  wf i -> failed i = false -> (length ls < fuel)%nat ->
  left_ i = write_question [] (mkQuestion (join ls) qtype qclass) ++ rest ->
  exists i', read_question buf q0 c0 fuel i = Ret (i', mkQuestion (join ls) qtype qclass) /\
    failed i' = false /\ left_ i' = rest.
Proof.
  intros Hok Ht Hc Hw Hf Hfu Hl. unfold write_question in Hl. cbn [QNAME QTYPE QCLASS] in Hl.
  rewrite write_label_join, !q_encode_be in Hl by done. cbn [app] in Hl. rewrite <- !app_assoc in Hl.
  destruct (read_wire_name buf ls fuel i [] _ Hw Hf Hok Hl Hfu) as (i1 & H1 & Hw1 & Hf1 & Hl1 & _).
  destruct (read_q_decode i1 _ _ Hw1 Hf1 Hl1) as (i2 & H2 & Hw2 & Hf2 & Hl2 & _).
  destruct (read_q_decode i2 _ _ Hw2 Hf2 Hl2) as (i3 & H3 & Hw3 & Hf3 & Hl3 & _).
  exists i3. unfold read_question. rewrite H1. cbn [obind]. rewrite Hf1, H2, H3.
  rewrite add_labels_join, !u16_small by done. done.
Qed.

Lemma dns_question_roundtrip_witness :
  exists i', read_question [] 0 0 4 (over_streambuf
      (write_question [] (mkQuestion (str "ab.cd12.com") 28 1) ++ str "x")) =
      Ret (i', mkQuestion (str "ab.cd12.com") 28 1) /\
    failed i' = false /\ left_ i' = str "x".
Proof.
  refine (dns_question_roundtrip [] 0 0 4 [str "ab"; str "cd12"; str "com"] 28 1
    (over_streambuf (write_question [] (mkQuestion (str "ab.cd12.com") 28 1) ++ str "x")) (str "x")
    _ ltac:(lia) ltac:(lia) _ eq_refl ltac:(cbn; lia) eq_refl).
  - repeat constructor; try (vm_compute; congruence); apply (bool_decide_unpack _); vm_compute; exact I.
  - split; vm_compute; congruence.
Defined.

(** Labels that end with a compression pointer below 256: the name goes on where
    it points, and reading goes on after the pointer. *)
Theorem dns_pointer_followed buf fuel ls ls' p i name rest rest' :
  wf i -> failed i = false -> seekable i = true -> Forall label_ok ls -> Forall label_ok ls' ->
  left_ i = concat (map wire_label ls) ++ [Byte.xc0; p] ++ rest ->
  drop (Z.to_nat (b2z p)) (text i) = wire_name ls' ++ rest' ->
  (length ls + length ls' + 1 < fuel)%nat ->
  exists i', read_label buf fuel i name = Ret (i', add_labels (add_labels name ls) ls') /\
    failed i' = false /\ left_ i' = rest.
Proof.
  intros Hw Hf Hs Hok Hok' Hl Hp Hfu.
  destruct (read_labels buf ls _ fuel i name Hw Hf Hok Hl ltac:(lia))
    as (i1 & -> & Hw1 & Hf1 & Hl1 & Ht1 & Hk1).
  destruct (fuel - length ls)%nat as [|k] eqn:Ek; [lia|]. cbn [read_label].
  cbn [app] in Hl1.
  destruct (left_get i1 _ _ Hw1 Hf1 Hl1) as (i2 & -> & Hw2 & Hl2 & Hf2 & Ht2 & Hk2 & _).
  change (Z.land (b2z Byte.xc0) 0xc0 =? 0) with false. cbn [negb].
  destruct (left_get i2 _ _ Hw2 Hf2 Hl2) as (i3 & -> & Hw3 & Hl3 & Hf3 & Ht3 & Hk3 & _).
  change (Z.land (b2z Byte.xc0) 0x3f) with 0. change (u16 0) with 0.
  pose proof (b2z_range p). rewrite (u16_small (b2z p)), Z.add_0_l, u16_small by lia.
  assert (Hlen : b2z p <= zlen (text i3)).
  { assert (Hne : drop (Z.to_nat (b2z p)) (text i) <> []).
    { rewrite Hp. unfold wire_name. intros E%(f_equal length). rewrite !length_app in E. cbn in E. lia. }
    assert (text i3 = text i) as -> by congruence.
    destruct (Z.leb_spec (b2z p) (zlen (text i))); [done|]. exfalso. apply Hne.
    apply drop_ge. unfold zlen in *. lia. }
  assert (Hseek : forall q, 0 <= q <= zlen (text i3) -> seekg i3 q = i3 <| pos := q |>).
  { intros q Hq. unfold seekg. rewrite Hf3, Hk3, Hk2, Hk1, Hs. cbn [andb].
    destruct (Z.leb_spec 0 q), (Z.leb_spec q (zlen (text i3))); try lia. done. }
  rewrite Hseek by lia. set (i4 := i3 <| pos := b2z p |>).
  assert (Hl4 : left_ i4 = wire_name ls' ++ rest').
  { unfold left_, i4. cbn. rewrite <- Hp. congruence. }
  destruct (read_wire_name buf ls' k i4 (add_labels name ls) rest' ltac:(unfold wf; cbn; lia) Hf3 Hok'
    Hl4 ltac:(lia)) as (i5 & -> & Hw5 & Hf5 & Hl5 & Ht5 & Hk5). cbn [obind].
  unfold tellg. rewrite Hf3, Hk3, Hk2, Hk1, Hs. cbn [orb negb].
  exists (i5 <| pos := pos i3 |>).
  assert (Hback : seekg i5 (pos i3) = i5 <| pos := pos i3 |>).
  { unfold seekg. rewrite Hf5, Hk5. unfold i4. cbn. rewrite Hk3, Hk2, Hk1, Hs. cbn [andb].
    rewrite Ht5. unfold i4. cbn. unfold wf in Hw3.
    destruct (Z.leb_spec 0 (pos i3)), (Z.leb_spec (pos i3) (zlen (text i3))); try lia. done. }
  rewrite Hback. split_and!; [done|done|].
  unfold left_. cbn. rewrite Ht5. unfold i4. cbn. exact Hl3.
Qed.

(** *** Termination *)

(** A stream over a [boost::asio::streambuf] cannot seek, so that a query with
    pointers is refused: the reader of names returns, after at most one call
    more than there are octets. *)
Lemma read_label_returns buf fuel i name :
  wf i -> seekable i = false -> (length (left_ i) + 1 < fuel)%nat ->
  exists i' n, read_label buf fuel i name = Ret (i', n) /\ wf i' /\ seekable i' = false.
Proof.
  revert i name. induction fuel as [|fuel IH]; intros i name Hw Hs Hf; [lia|]. cbn [read_label].
  pose proof (get_wf i Hw) as Hw1.
  destruct (failed i) eqn:Ef; [rewrite failed_get by done; eauto|].
  destruct (left_ i) as [|sign l] eqn:El.
  { assert (get i = (i <| failed := true |>, None)) as -> by (unfold get; by rewrite Ef, El).
    do 2 eexists. split; [done|]. split; [exact Hw|exact Hs]. }
  destruct (left_get i sign l Hw Ef El) as (i1 & Hg & Hw1' & Hl1 & Hf1 & Ht1 & Hk1 & _).
  rewrite Hg. rewrite Hs in Hk1. destruct (negb _).
  - pose proof (get_wf i1 Hw1') as Hw2. unfold get in *. rewrite Hf1, Hl1 in *.
    destruct l as [|low l]; [do 2 eexists; split; [done|]; done|].
    set (i2 := i1 <| pos ::= Z.succ |>) in *.
    assert (Hseek : forall q, seekg i2 q = i2 <| failed := true |>).
    { intros q. unfold seekg. cbn. by rewrite Hf1, Hk1. }
    rewrite Hseek. destruct fuel as [|fuel]; [cbn in Hf; lia|]. cbn [read_label].
    rewrite failed_get by done. cbn [obind]. do 2 eexists. split; [done|].
    split; [apply seekg_wf; exact Hw2|]. unfold seekg. cbn. exact Hk1.
  - destruct (_ =? 0); [do 2 eexists; split; [done|]; done|].
    destruct (read i1 (b2z sign)) as [i2 got] eqn:Er.
    assert (Hi2 : wf i2 /\ seekable i2 = false /\ (length (left_ i2) <= length l)%nat).
    { pose proof (read_wf i1 (b2z sign) Hw1') as Hwr. rewrite Er in Hwr. split; [done|].
      unfold read in Er. rewrite Hf1 in Er. injection Er as <- <-. rewrite Hl1.
      assert (forall q : bytes, (length (drop (Z.to_nat (pos i1 + zlen q)) (text i1)) <= length (left_ i1))%nat) as Hd.
      { intros q. unfold left_. rewrite !length_drop. pose proof (zlen_nonneg q). lia. }
      rewrite Hl1 in Hd.
      destruct (zlen (take (Z.to_nat (b2z sign)) l) <? b2z sign); cbn; (split; [done|]); unfold left_; cbn; apply Hd. }
    destruct Hi2 as (Hw2 & Hk2 & Hlen). apply IH; [done|done|]. cbn in Hf. lia.
Qed.

Lemma q_decode_keeps i : wf i -> wf (fst (q_decode i)) /\ seekable (fst (q_decode i)) = seekable i.
Proof.
  assert (Hk : forall j, seekable (fst (get j)) = seekable j).
  { intros j. unfold get. destruct (failed j); [done|]. by destruct (left_ j). }
  intros Hw. unfold q_decode. destruct (failed i); [done|].
  pose proof (get_wf i Hw). pose proof (Hk i). destruct (get i) as [i1 [h|]]; [|done]. cbn in *.
  pose proof (get_wf i1 H). pose proof (Hk i1). destruct (get i1) as [i2 [l|]]; cbn in *; split; try done; congruence.
Qed.

(** Reading a question of a received query ends: with as many calls of
    [read_label] as there are octets (and two more) it returns, however the
    names in it point. *)
Theorem dns_query_question_returns buf q0 c0 data :
  exists i q, read_question buf q0 c0 (length data + 2) (over_streambuf data) = Ret (i, q).
Proof.
  destruct (read_label_returns buf (length data + 2) (over_streambuf data) []) as (i & n & E & Hw & Hk).
  { unfold wf, over_streambuf. cbn. zlen_lia. }
  { done. }
  { change (left_ (over_streambuf data)) with data. lia. }
  unfold read_question. rewrite E. cbn [obind]. destruct (failed i); [eauto|].
  destruct (q_decode i) as [i1 t]. destruct (q_decode i1) as [i2 c]. eauto.
Qed.

(** An answer is read from a string, which can seek: a name that is a pointer to
    itself makes [read_label] call itself for ever. *)
Lemma self_pointer buf fuel i name p rest :
  failed i = false -> seekable i = true -> 0 <= p < 256 -> pos i = p ->
  drop (Z.to_nat p) (text i) = Byte.xc0 :: z2b p :: rest ->
  read_label buf fuel i name = Undef NoEnd.
Proof.
  revert i name. induction fuel as [|fuel IH]; intros i name Hf Hs Hp Hpos Hd; [done|].
  assert (Hlen : p + 2 <= zlen (text i)).
  { unfold zlen. pose proof (f_equal length Hd) as E. rewrite length_drop in E. cbn in E. lia. }
  assert (Hw : wf i) by (unfold wf; lia).
  assert (Hl : left_ i = Byte.xc0 :: z2b p :: rest) by (unfold left_; by rewrite Hpos).
  destruct (left_get i _ _ Hw Hf Hl) as (i2 & Hg & Hw2 & Hl2 & Hf2 & Ht2 & Hk2 & _).
  destruct (left_get i2 _ _ Hw2 Hf2 Hl2) as (i3 & Hg3 & Hw3 & Hl3 & Hf3 & Ht3 & Hk3 & _).
  cbn [read_label]. rewrite Hg. change (Z.land (b2z Byte.xc0) 0xc0 =? 0) with false. cbn [negb].
  rewrite Hg3. change (Z.land (b2z Byte.xc0) 0x3f) with 0. change (u16 0) with 0.
  rewrite b2z_z2b, u8_small, (u16_small p), Z.add_0_l, u16_small by lia.
  assert (seekg i3 p = i3 <| pos := p |>) as ->.
  { unfold seekg. rewrite Hf3, Hk3, Hk2, Hs. cbn [andb]. rewrite Ht3, Ht2.
    destruct (Z.leb_spec 0 p), (Z.leb_spec p (zlen (text i))); try lia. done. }
  rewrite IH; [done|done|cbn; congruence|done|done|]. cbn. rewrite Ht3, Ht2. exact Hd.
Qed.

Definition loop_message : bytes :=
  hex [0;1; 0x81;0x80; 0;1; 0;0; 0;0; 0;0; 0xc0;12; 0;1; 0;1].

(** One datagram of 18 octets from the upstream server, whose question name
    points to itself, is enough: reading it does not end, whatever bound is put
    on the nested calls. *)
Theorem dns_pointer_loop_diverges buf q0 c0 v6 fuel :
  read_dns_answer buf q0 c0 v6 fuel (istringstream loop_message) = Undef NoEnd.
Proof.
  unfold read_dns_answer. change (read_header _ _) with
    (mkIstream loop_message 12 false true, hex [0;1; 0x81;0x80; 0;1; 0;0; 0;0; 0;0]).
  cbv beta iota. change (Z.to_nat (QDCOUNT _)) with 1%nat at 1. cbn [read_questions failed].
  unfold read_question. erewrite self_pointer with (p := 12); [done|done|done|lia|done|].
  vm_compute. reflexivity.
Qed.

End Theorems.
