(* ===== verification/UdpForward.v ===== *)
(** * Forwarded datagrams

    [UDPForwardSession] ([src/src/session/udpforwardsession.cpp]) and the UDP
    listener of [Service] ([udp_async_read] of [src/src/core/service.cpp]): each
    source endpoint gets a session, which sends the source's datagrams to the
    server as packets of one stream and hands the packets that come back to the
    source. *)

From Stdlib Require Import ZArith Lia.
From S2P Require Import Prelude Utils Address Trojan UdpPacket PipelineProto Caches ReadCache PipelineComponent Session.
Import Streambuf ReadBuf Stat Allocator PipelineComponent.
Local Open Scope Z_scope.
Local Open Scope handler_scope.

#[export] Existing Instance ReadDataCache.eta_cache.

(** ** Data *)
Inductive FStatus := F_CONNECT | F_FORWARD | F_FORWARDING | F_DESTROY.
#[export] Instance FStatus_eq_dec : EqDecision FStatus.
Proof. solve_decision. Defined.

Record UDPForwardSession := mkForward {
  f_status : FStatus;
  f_com : PipelineComponent;
  f_timer : UdpTimer.timer;
  f_stat : bytes_stat;
  f_out_read_buf : ReadBufWithGuard;
  f_out_write_buf : bytes;
  f_udp_data_buf : bytes;
  f_out_open : bool;
  f_target_open : bool;                (* udp_target_socket *)
  f_recv_endpoint : endpoint;
  f_out_endpoint : endpoint;
  f_is_nat : bool;
  f_is_dns : bool
}.
#[export] Instance eta_UDPForwardSession : Settable UDPForwardSession :=
  fun r => mkForward (f_status r) (f_com r) (f_timer r) (f_stat r) (f_out_read_buf r)
    (f_out_write_buf r) (f_udp_data_buf r) (f_out_open r) (f_target_open r) (f_recv_endpoint r)
    (f_out_endpoint r) (f_is_nat r) (f_is_dns r).

(** Operations in progress; [FStarted] and [FPipeSent] are commands of the
    session in the send cache of a pipeline. *)
Inductive fop :=
| FUdpRecv
| FStarted (this : nat) (data_copy : nat)
| FPipeSent (this : nat)
| FOutRead (this : nat)
| FOutWrite (this : nat) (data_copy : nat)
| FResolve (this : nat)
| FConnect (this : nat)
| FConnectTimer (this : nat)
| FSslHandshake (this : nat)
| FTimer (this : nat) (timeout : Z).

Inductive fcompletion :=
| FDone (ec : error_code)
| FReceived (ec : error_code) (data : bytes) (from : endpoint)
| FResolved (ec : error_code) (results : list endpoint).

Inductive feffect :=
| Datagram (this : nat) (data : bytes)          (* taken by [in_recv] *)
| FToServer (this : nat) (data : bytes)         (* async_write, or a DATA command *)
| FFromServer (this : nat) (data : bytes)       (* given to [out_recv] *)
| Reply (this : nat) (to : endpoint) (data : bytes)   (* in_write, or send_to *)
| FConnectTo (this : nat) (addr port : bytes)
| FClosed (this : nat)
| FPipeClose (this : nat).                      (* session_destroy_in_pipeline *)

Record fworld := mkFWorld {
  f_objs : gmap nat UDPForwardSession;
  f_next : nat;                         (* the next object *)
  udp_sessions : list nat;              (* weak pointers *)
  udp_read_buf : bytes;
  f_ids : PipelineComponent.ids;
  f_alloc : SendingDataAllocator;
  f_pending : list fop;
  f_trace : list feffect;
  f_now : Z;
  f_calls : nat
}.
#[export] Instance eta_fworld : Settable fworld :=
  fun r => mkFWorld (f_objs r) (f_next r) (udp_sessions r) (udp_read_buf r) (f_ids r) (f_alloc r) (f_pending r)
    (f_trace r) (f_now r) (f_calls r).

Definition FM := M fworld.

Definition getF (this : nat) : FM UDPForwardSession :=
  fun w => match f_objs w !! this with Some s => Ret (s, w) | None => Undef NoObject end.
Definition modF (this : nat) (f : UDPForwardSession -> UDPForwardSession) : FM unit :=
  modify (fun w => w <| f_objs ::= alter f this |>).
Definition f_start_op (o : fop) : FM unit :=
  modify (fun w => w <| f_pending ::= fun l => l ++ [o] |>).
Definition f_emit (e : feffect) : FM unit :=
  modify (fun w => w <| f_trace ::= fun l => l ++ [e] |>).
Definition f_allocate_buf (data : bytes) : FM nat :=
  fun w => let '(b, a) := allocate (f_alloc w) data in Ret (b, w <| f_alloc := a |>).
Definition f_free_buf (b : nat) : FM unit :=
  fun w => match free (f_alloc w) b with
           | Ret a => Ret (tt, w <| f_alloc := a |>)
           | Throw e => Throw e
           | Undef u => Undef u
           end.
Definition f_ask {A} (answers : nat -> A) : FM A :=
  fun w => Ret (answers (f_calls w), w <| f_calls ::= S |>).

Section Forward.
(** The configuration, whether this is the NAT run type (then the target of a
    datagram is what [recv_tproxy_udp_msg] finds, else the configured one), the
    DNS sessions' time-out, and whether sessions go through pipelines.  From
    outside the sources: Boost's address parser and its text of an IPv6 address,
    whether [prepare_nat_udp_target_bind] succeeds, whether a pipeline still has
    the session when it sends, the original destination of a datagram, the error
    codes of socket calls and of the timer's [cancel]. *)
Context (cfg : Config) (run_nat : bool) (dns_udp_timeout : Z) (pipelined : bool).
Context (make_address : bytes -> option address) (v6_to_string : bytes -> bytes).
Context (nat_bind_ok in_pipeline : nat -> bool) (tproxy_target : nat -> bytes * Z).
Context (system_ec send_ec cancel_ec : nat -> error_code).

Definition address_text (a : address) : bytes :=
  match a with V4 b0 b1 b2 b3 => v4_to_string b0 b1 b2 b3 | V6 b => v6_to_string b end.

(** The constructor; [make_address] throws when the text is no address. *)
Definition new_forward (ep : endpoint) (targetdst : bytes * Z) (nat_ dns : bool) (id : Z)
  : outcome UDPForwardSession :=
  match make_address (fst targetdst) with
  | None => Throw (system_error 22)
  | Some a =>
    Ret (mkForward F_CONNECT (set_session_id id (new_component (pipeline_ack_window cfg)))
           (UdpTimer.set_udp_forward_session true UdpTimer.new_timer) new_stat new_read_buf [] []
           false false ep (mkEndpoint a (snd targetdst)) nat_ dns)
  end.

(** ** UDPForwardSession *)

Definition fs_destroy (this : nat) (pipeline_call : bool) : FM unit :=
  s <- getF this ;;
  if bool_decide (f_status s = F_DESTROY) then skip else
  modF this (fun s => s <| f_status := F_DESTROY |>) ;;;
  f_emit (FClosed this) ;;;
  modF this (fun s => s <| f_target_open := false |>) ;;;
  modF this (fun s => s <| f_out_open := false |>) ;;;
  when (negb pipeline_call && m_is_use_pipeline (f_com s)) (f_emit (FPipeClose this)).

Definition get_udp_timer_timeout_val (s : UDPForwardSession) : Z :=
  if f_is_dns s then dns_udp_timeout else udp_timeout cfg.

Definition fs_timer_act (this : nat) (r : UdpTimer.timer * UdpTimer.action) : FM unit :=
  modF this (fun s => s <| f_timer := fst r |>) ;;;
  match snd r with
  | UdpTimer.NoAct => skip
  | UdpTimer.Arm n => f_start_op (FTimer this n)
  | UdpTimer.Expire => fs_destroy this false
  end.
Definition fs_udp_timer_async_wait (this : nat) (timeout : Z) : FM unit :=
  s <- getF this ;; curr <- gets f_now ;; ec <- f_ask cancel_ec ;;
  fs_timer_act this
    (UdpTimer.udp_timer_async_wait curr (get_udp_timer_timeout_val s) ec timeout (f_timer s)).
Definition fs_udp_timer_fired (this : nat) (timeout : Z) (error : error_code) : FM unit :=
  s <- getF this ;; curr <- gets f_now ;; ec <- f_ask cancel_ec ;;
  fs_timer_act this
    (UdpTimer.udp_timer_fired curr (get_udp_timer_timeout_val s) ec timeout error (f_timer s)).

(** [out_async_write]: through [session_async_send_to_pipeline], which calls the
    handler at once with [broken_pipe] when no pipeline has the session. *)
Definition fs_out_async_write (this : nat) (data : bytes) : FM unit :=
  s <- getF this ;;
  if m_is_use_pipeline (f_com s) then
    ok <- f_ask in_pipeline ;;
    if ok : bool then f_emit (FToServer this data) ;;; f_start_op (FPipeSent this)
    else fs_destroy this false
  else
    b <- f_allocate_buf data ;;
    f_emit (FToServer this data) ;;;
    f_start_op (FOutWrite this b).

Definition fs_flush (this : nat) : FM unit :=
  s <- getF this ;;
  fs_out_async_write this (to_view (f_out_write_buf s)) ;;;
  modF this (fun s => s <| f_out_write_buf ::= consume_all |>).

Definition fs_in_recv (this : nat) (data : bytes) : FM unit :=
  s <- getF this ;;
  if bool_decide (f_status s = F_DESTROY) then skip else
  fs_udp_timer_async_wait this (-1) ;;;
  modF this (fun s => s <| f_stat ::= fun st => inc_sent_len st (zlen data) |>) ;;;
  f_emit (Datagram this data) ;;;
  modF this (fun s => s <| f_out_write_buf ::= fun b =>
    UDPPacket.generate_domain b (address_text (ep_address (f_out_endpoint s)))
      (ep_port (f_out_endpoint s)) data |>) ;;;
  s <- getF this ;;
  if bool_decide (f_status s = F_FORWARD) then
    modF this (fun s => s <| f_status := F_FORWARDING |>) ;;;
    fs_flush this
  else skip.

Definition fs_process (this : nat) (ep : endpoint) (data : bytes) : FM bool :=
  s <- getF this ;;
  if negb (bool_decide (ep = f_recv_endpoint s)) then ret false
  else fs_in_recv this data ;;; ret true.

(** [out_async_read]; through a pipeline the reader waits, or is given what is
    queued before the queue is emptied: [call] is [out_recv]. *)
Definition fs_out_async_read_ (call : bytes -> FM unit) (this : nat) : FM unit :=
  s <- getF this ;;
  if m_is_use_pipeline (f_com s) then
    match ReadDataCache.async_read_begin (pipeline_data_cache (f_com s)) with
    | (cache, None) => modF this (fun s => s <| f_com ::= fun c => c <| pipeline_data_cache := cache |> |>)
    | (_, Some (data, _)) =>
      call data ;;;
      modF this (fun s => s <| f_com ::= fun c =>
        c <| pipeline_data_cache ::= ReadDataCache.async_read_end |> |>)
    end
  else
    r <- lift (begin_read (f_out_read_buf s)) ;;
    modF this (fun s => s <| f_out_read_buf := rb_consume_all r |>) ;;;
    f_start_op (FOutRead this).

(** A packet that came back: to the NAT socket, or to [in_write], which throws
    when the listener's [send_to] fails. *)
Definition fs_reply (this : nat) (payload : bytes) : FM bool :=
  s <- getF this ;;
  f_emit (Reply this (f_recv_endpoint s) payload) ;;;
  ec <- f_ask send_ec ;;
  if ec =? no_permission then ret true
  else if ec =? 0 then ret true
  else if f_is_nat s then fs_destroy this false ;;; ret false
  else throw (runtime_error "send_to").

(** The loop of [out_recv]: [true] when it ended by [break].  Every packet has at
    least 11 octets. *)
Fixpoint fs_packets (fuel : nat) (this : nat) : FM bool :=
  match fuel with
  | O => fun _ => Undef NoEnd
  | S fuel =>
    s <- getF this ;;
    parsed <- lift (UDPPacket.parse (to_view (f_udp_data_buf s))) ;;
    match parsed with
    | None =>
      if MAX_BUF_LENGTH <? zlen (f_udp_data_buf s) then fs_destroy this false ;;; ret false
      else ret true
    | Some (packet, packet_len) =>
      go <- fs_reply this (UDPPacket.payload packet) ;;
      if go : bool then
        modF this (fun s => s <| f_udp_data_buf ::= fun b => consume b packet_len |>) ;;;
        modF this (fun s => s <| f_stat ::= fun st => inc_recv_len st (UDPPacket.length packet) |>) ;;;
        fs_packets fuel this
      else ret false
    end
  end.

Definition fs_out_recv_ (again : FM unit) (this : nat) (data : bytes) : FM unit :=
  s <- getF this ;;
  if bool_decide (f_status s = F_FORWARD) || bool_decide (f_status s = F_FORWARDING) then
    fs_udp_timer_async_wait this (-1) ;;;
    f_emit (FFromServer this data) ;;;
    modF this (fun s => s <| f_udp_data_buf ::= fun b => fst (append_view b data) |>) ;;;
    s <- getF this ;;
    go <- fs_packets (S (length (f_udp_data_buf s))) this ;;
    if go : bool then again else skip
  else skip.

(** How deep [out_async_read] calls itself through the read handler. *)
Fixpoint fs_out_async_read (depth : nat) (this : nat) : FM unit :=
  match depth with
  | O => fun _ => Undef NoEnd
  | S depth =>
    fs_out_async_read_ (fs_out_recv_ (fs_out_async_read depth this) this) this
  end.
Definition fs_out_recv (depth : nat) (this : nat) : bytes -> FM unit :=
  fs_out_recv_ (fs_out_async_read depth this) this.

Definition fs_out_sent (this : nat) : FM unit :=
  s <- getF this ;;
  if bool_decide (f_status s = F_FORWARDING) then
    if zlen (f_out_write_buf s) =? 0 then modF this (fun s => s <| f_status := F_FORWARD |>)
    else fs_flush this
  else skip.

Section Depth.
Context (depth : nat).

(** The lambda [cb] of [start_udp]; [open] and [bind] throw. *)
Definition fs_ready (this : nat) : FM unit :=
  s <- getF this ;;
  ok <- (if f_is_nat s then
           ec <- f_ask system_ec ;;
           if negb (ec =? 0) then throw (system_error ec) else
           modF this (fun s => s <| f_target_open := true |>) ;;;
           bound <- f_ask nat_bind_ok ;;
           if bound : bool then
             ec <- f_ask system_ec ;;
             if negb (ec =? 0) then throw (system_error ec) else ret true
           else fs_destroy this false ;;; ret false
         else ret true) ;;
  if ok : bool then
    modF this (fun s => s <| f_status := F_FORWARDING |>) ;;;
    fs_out_async_read depth this ;;;
    fs_flush this
  else skip.

Definition fs_start_udp (this : nat) (data : bytes) : FM unit :=
  fs_udp_timer_async_wait this (-1) ;;;
  match Session.password cfg with
  | [] => fun _ => Undef EmptyContainer
  | (pw, _) :: _ =>
    modF this (fun s => s <| f_out_write_buf :=
      fst (append_string (consume_all (f_out_write_buf s))
        (TrojanRequest.generate pw (address_text (ep_address (f_out_endpoint s)))
           (ep_port (f_out_endpoint s)) false)) |>) ;;;
    s <- getF this ;;
    fs_process this (f_recv_endpoint s) data ;;;
    if m_is_use_pipeline (f_com s) then fs_ready this
    else
      f_emit (FConnectTo this (remote_addr cfg) (Text.to_string (remote_port cfg))) ;;;
      f_start_op (FResolve this)
  end.

(** [connect_remote_server_ssl] *)
Definition fs_resolve_done (this : nat) (error : error_code) (results : list endpoint) : FM unit :=
  match results with
  | [] => fs_destroy this false
  | _ :: _ =>
    if negb (error =? 0) then fs_destroy this false else
    ec <- f_ask system_ec ;;
    if negb (ec =? 0) then fs_destroy this false else
    modF this (fun s => s <| f_out_open := true |>) ;;;
    when (0 <? connect_time_out cfg) (f_start_op (FConnectTimer this)) ;;;
    f_start_op (FConnect this)
  end.
Definition fs_connect_done (this : nat) (error : error_code) : FM unit :=
  if negb (error =? 0) then fs_destroy this false else f_start_op (FSslHandshake this).
Definition fs_ssl_done (this : nat) (error : error_code) : FM unit :=
  if negb (error =? 0) then fs_destroy this false else fs_ready this.

Definition fs_out_read_done (this : nat) (error : error_code) (data : bytes) : FM unit :=
  modF this (fun s => s <| f_out_read_buf ::= end_read |>) ;;;
  if negb (error =? 0) then fs_destroy this false else
  modF this (fun s => s <| f_out_read_buf ::= fun r => rb_commit r data |>) ;;;
  s <- getF this ;;
  fs_out_recv depth this (read_buf (f_out_read_buf s)).
Definition fs_out_write_done (this data_copy : nat) (error : error_code) : FM unit :=
  f_free_buf data_copy ;;;
  if negb (error =? 0) then fs_destroy this false else fs_out_sent this.
Definition fs_pipe_sent (this : nat) (error : error_code) : FM unit :=
  if negb (error =? 0) then fs_destroy this false else fs_out_sent this.

(** [pipeline_in_recv] of the session's component *)
Definition fs_pipeline_in_recv (this : nat) (data : bytes) : FM unit :=
  s <- getF this ;;
  r <- lift (pipeline_in_recv data (f_com s)) ;;
  modF this (fun s => s <| f_com := fst r |>) ;;;
  match snd r with
  | Some (d, _) => fs_out_recv depth this d
  | None => skip
  end.

(** ** The listener *)

Definition sv_udp_async_read : FM unit :=
  modify (fun w => w <| udp_read_buf ::= consume_all |>) ;;;
  f_start_op FUdpRecv.

(** The first session that takes the datagram *)
Fixpoint sv_offer (l : list nat) (ep : endpoint) (data : bytes) : FM bool :=
  match l with
  | [] => ret false
  | h :: l =>
    taken <- fs_process h ep data ;;
    if taken : bool then ret true else sv_offer l ep data
  end.

(** The [started_handler] of a new session *)
Definition sv_started (this data_copy : nat) (ec : error_code) : FM unit :=
  (if ec =? 0 then
     modify (fun w => w <| udp_sessions ::= fun l => l ++ [this] |>) ;;;
     w <- gets id ;;
     fs_start_udp this (default [] (heap (f_alloc w) !! data_copy))
   else skip) ;;;
  f_free_buf data_copy.

Definition sv_new_udp_session (ep : endpoint) (targetdst : bytes * Z) (data : bytes) : FM unit :=
  w <- gets id ;;
  let this := f_next w in
  r <- lift (allocate_session_id (f_ids w)) ;;
  s <- lift (new_forward ep targetdst run_nat false (fst r)) ;;
  modify (fun w => w <| f_ids := snd r |> <| f_objs ::= <[this := s]> |> <| f_next ::= S |>) ;;;
  b <- f_allocate_buf data ;;
  if pipelined then
    modF this (fun s => s <| f_com ::= set_use_pipeline |>) ;;;
    f_start_op (FStarted this b)
  else sv_started this b 0.

(** [cb] of [udp_async_read] *)
Definition sv_udp_recv (error : error_code) (data : bytes) (from : endpoint) : FM unit :=
  if error =? operation_aborted then skip
  else if negb (error =? 0) then throw (runtime_error "udp_async_read")
  else
    modify (fun w => w <| udp_read_buf ::= fun b => b ++ data |>) ;;;
    targetdst <- (if run_nat then f_ask tproxy_target else ret (target_addr cfg, target_port cfg)) ;;
    if negb (snd targetdst =? 0) then
      modify (fun w => w <| udp_sessions ::= fun l =>
        fst (clear_weak_ptr_list (fun h => negb (bool_decide (is_Some (f_objs w !! h)))) l) |>) ;;;
      w <- gets id ;;
      taken <- sv_offer (udp_sessions w) from (udp_read_buf w) ;;
      if taken : bool then sv_udp_async_read
      else
        w <- gets id ;;
        sv_new_udp_session from targetdst (udp_read_buf w) ;;;
        sv_udp_async_read
    else sv_udp_async_read.

(** ** Runs *)

Definition f_complete (o : fop) (c : fcompletion) : FM unit :=
  match o, c with
  | FUdpRecv, FReceived ec data from => sv_udp_recv ec data from
  | FStarted this b, FDone ec => sv_started this b ec
  | FPipeSent this, FDone ec => fs_pipe_sent this ec
  | FOutRead this, FReceived ec data _ => fs_out_read_done this ec data
  | FOutWrite this b, FDone ec => fs_out_write_done this b ec
  | FResolve this, FResolved ec results => fs_resolve_done this ec results
  | FConnect this, FDone ec => fs_connect_done this ec
  | FConnectTimer this, FDone ec => if ec =? 0 then fs_destroy this false else skip
  | FSslHandshake this, FDone ec => fs_ssl_done this ec
  | FTimer this n, FDone ec => fs_udp_timer_fired this n ec
  | _, _ => skip
  end.

(** The answer is of the operation's kind, and a read returns no more than was
    asked for. *)
Definition f_answers (o : fop) (c : fcompletion) : bool :=
  match o, c with
  | FUdpRecv, FReceived _ data _ => zlen data <=? udp_recv_buf cfg
  | FOutRead _, FReceived _ data _ => zlen data <=? MAX_BUF_LENGTH
  | FResolve _, FResolved _ _ => true
  | (FStarted _ _ | FPipeSent _ | FOutWrite _ _ | FConnect _ | FConnectTimer _ | FSslHandshake _ |
     FTimer _ _), FDone _ => true
  | _, _ => false
  end.

Definition fop_this (o : fop) : option nat :=
  match o with
  | FUdpRecv => None
  | FStarted h _ | FPipeSent h | FOutRead h | FOutWrite h _ | FResolve h | FConnect h
  | FConnectTimer h | FSslHandshake h | FTimer h _ => Some h
  end.

(** Completions; the clock; what a pipeline does to a session of its list: hand
    over data, close it; and the end of an object that nothing holds. *)
Inductive fevent :=
| FComplete (i : nat) (c : fcompletion)
| FClock (t : Z)
| FPipeData (this : nat) (data : bytes)
| FPipeDestroy (this : nat)
| FFreed (this : nat).

Definition f_step (e : fevent) : FM unit :=
  match e with
  | FComplete i c =>
    w <- gets id ;;
    match f_pending w !! i with
    | Some o =>
      if f_answers o c then modify (fun w => w <| f_pending ::= delete i |>) ;;; f_complete o c
      else skip
    | None => skip
    end
  | FClock t => modify (fun w => w <| f_now := t |>)
  | FPipeData this data =>
    w <- gets id ;;
    match f_objs w !! this with
    | Some s => when (m_is_use_pipeline (f_com s) && negb (bool_decide (f_status s = F_DESTROY)))
                  (fs_pipeline_in_recv this data)
    | None => skip
    end
  | FPipeDestroy this =>
    w <- gets id ;;
    match f_objs w !! this with
    | Some s => when (m_is_use_pipeline (f_com s)) (fs_destroy this true)
    | None => skip
    end
  | FFreed this =>
    w <- gets id ;;
    match f_objs w !! this with
    | Some s =>
      when (bool_decide (f_status s = F_DESTROY) &&
            forallb (fun o => negb (bool_decide (fop_this o = Some this))) (f_pending w))
        (modify (fun w => w <| f_objs ::= delete this |>
           <| f_ids ::= fun i => snd (free_session_id (m_session_id (f_com s)) i) |>))
    | None => skip
    end
  end.

Definition f_init : fworld :=
  mkFWorld ∅ 0 [] [] (mkIds 0 ∅) empty_allocator [] [] 1 0.

End Depth.
End Forward.
