(* ===== verification/UdpForwardProofs.v ===== *)
(** * Forwarded datagrams: the handlers of a session

    Every handler of [UdpForward] works on one session, so it is enough to
    follow that session, its operations and its part of the trace. *)

From Stdlib Require Import ZArith Lia.
From S2P Require Import Prelude Utils Address Trojan UdpPacket PipelineProto Caches ReadCache PipelineComponent Session.
From S2P Require Import UdpForward SessionLogic.
Import Streambuf ReadBuf Stat Allocator PipelineComponent.
Local Open Scope Z_scope.
Local Open Scope handler_scope.

(** ** One session's part of a world *)

Definition feff_this (e : feffect) : nat :=
  match e with
  | Datagram h _ | FToServer h _ | FFromServer h _ | Reply h _ _ | FConnectTo h _ _ | FClosed h
  | FPipeClose h => h
  end.

Definition fop_buf (o : fop) : option nat :=
  match o with FStarted _ b | FOutWrite _ b => Some b | _ => None end.

#[export] Instance fop_operation : Operation fop := { op_this := fop_this; op_buf := fop_buf }.
#[export] Instance feffect_effect : Effect feffect := { eff_this e := Some (feff_this e) }.
#[export] Instance fworld_sessions :
    SessionWorld fworld UDPForwardSession fop feffect (list nat * nat * ids) :=
  { sw_objs := f_objs; sw_pending := f_pending; sw_trace := f_trace; sw_alloc := f_alloc;
    sw_rest w := (udp_sessions w, f_next w, f_ids w) }.

(** Otherwise a socket call failed, or the address parser read outside its
    view. *)
Notation on := (SessionLogic.on socket_failure (fun u => u = octet03)).

Section Rules.
Context (h : nat).

Lemma on_getF (Q : post UDPForwardSession) s l t : Q s s l t -> on h (getF h) Q s l t.
Proof. by apply on_get. Qed.
Lemma on_ask {A} (f : nat -> A) (Q : post A) s l t :
  (forall n, Q (f n) s l t) -> on h (f_ask f) Q s l t.
Proof. intros HQ. apply on_alike. intros w. unfold f_ask. eexists _, _. split; [done|]. by split. Qed.
Lemma on_modF f (Q : post unit) s l t : Q tt (f s) l t -> on h (modF h f) Q s l t.
Proof. apply on_mod. intros w. by eexists. Qed.
Lemma on_emit e (Q : post unit) s l t :
  feff_this e = h -> Q tt s l (t ++ [e]) -> on h (f_emit e) Q s l t.
Proof. intros He HQ. apply (on_emitted _ _ h _ e); [|cbn; congruence|done]. intros w. by eexists. Qed.
Lemma on_start_op o (Q : post unit) s l t :
  fop_this o = Some h -> fop_buf o = None -> Q tt s (l ++ [o]) t -> on h (f_start_op o) Q s l t.
Proof. intros Ho Hb HQ. apply (on_started _ _ h _ o); [|done..]. intros w. by eexists. Qed.
Lemma on_write data (e : feffect) (o : nat -> fop) (Q : post unit) s l t :
  feff_this e = h -> (forall b, fop_this (o b) = Some h) -> (forall b b', fop_buf (o b) = Some b' -> b' = b) ->
  (forall b, Q tt s (l ++ [o b]) (t ++ [e])) ->
  on h (b <- f_allocate_buf data ;; f_emit e ;;; f_start_op (o b)) Q s l t.
Proof.
  intros He Ho Hb HQ. apply (on_lend _ _ h _ data e o); [|cbn; congruence|done..]. intros w.
  unfold bind, f_allocate_buf, f_emit, f_start_op, modify. change (sw_alloc w) with (f_alloc w).
  destruct (allocate (f_alloc w) data) as [b a].
  eexists (w <| f_alloc := a |>), (w <| f_alloc := a |> <| f_trace ::= fun l => l ++ [e] |>), _. by split_and!.
Qed.
End Rules.

(** ** The invariant of a session *)

Definition is_sending (o : fop) : bool :=
  match o with FOutWrite _ _ | FPipeSent _ => true | _ => false end.
Definition is_reading (o : fop) : bool := match o with FOutRead _ => true | _ => false end.
Definition is_unstarted (o : fop) : bool := match o with FStarted _ _ => true | _ => false end.
Definition is_connecting (o : fop) : bool :=
  match o with FResolve _ | FConnect _ | FSslHandshake _ => true | _ => false end.

(** The datagrams taken and the octets handed to the carrier; the octets that
    came back and the datagrams made of them. *)
Definition dgs (t : list feffect) : list bytes :=
  flat_map (fun e => match e with Datagram _ d => [d] | _ => [] end) t.
Definition fouts (t : list feffect) : bytes :=
  flat_map (fun e => match e with FToServer _ d => d | _ => [] end) t.
Definition fins (t : list feffect) : bytes :=
  flat_map (fun e => match e with FFromServer _ d => d | _ => [] end) t.
Definition replies (t : list feffect) : list (endpoint * bytes) :=
  flat_map (fun e => match e with Reply _ to d => [(to, d)] | _ => [] end) t.
Lemma dgs_app a b : dgs (a ++ b) = dgs a ++ dgs b.
Proof. apply flat_map_app. Qed.
Lemma fouts_app a b : fouts (a ++ b) = fouts a ++ fouts b.
Proof. apply flat_map_app. Qed.
Lemma fins_app a b : fins (a ++ b) = fins a ++ fins b.
Proof. apply flat_map_app. Qed.
Lemma replies_app a b : replies (a ++ b) = replies a ++ replies b.
Proof. apply flat_map_app. Qed.
Create HintDb ftrace.
#[export] Hint Rewrite dgs_app fouts_app fins_app replies_app @cnt_snoc @app_nil_r Z.add_0_r : ftrace.

Definition fpiped (s : UDPForwardSession) : bool := m_is_use_pipeline (f_com s).
Definition fqueue (s : UDPForwardSession) : bytes :=
  ReadDataCache.data_queue (pipeline_data_cache (f_com s)).
Definition fwaits (s : UDPForwardSession) : bool :=
  ReadDataCache.is_waiting (pipeline_data_cache (f_com s)).

Lemma generate_domain_app b n p d :
  UDPPacket.generate_domain b n p d = b ++ UDPPacket.generate_domain [] n p d.
Proof.
  unfold UDPPacket.generate_domain, UDPPacket.append_tail, append_char. cbn [fst].
  autorewrite with streambuf. by rewrite <- !app_assoc.
Qed.

(** The stream [x] is packets and then [rest]; the packets were handed to [to]. *)
Definition received (to : endpoint) (t : list feffect) (rest : bytes) : Prop :=
  exists ps ws, Forall2 UDPPacket.wire ps ws /\ fins t = concat ws ++ rest /\
    replies t = map (fun p => (to, UDPPacket.payload p)) ps.
Definition settled (buf : bytes) : Prop :=
  forall p n, UDPPacket.parse buf <> Ret (Some (p, n)).

Section Session.
Context (cfg : Config) (dns_udp_timeout : Z) (v6_to_string : bytes -> bytes) (pw : bytes).
Context (nat_bind_ok in_pipeline : nat -> bool).
Context (system_ec send_ec cancel_ec : nat -> error_code).
Hypothesis password_first : exists x rest, Session.password cfg = (pw, x) :: rest.
Hypothesis cancel_ok : forall n, cancel_ec n = 0.

(** What the server is to receive: the request, then a packet for each
    datagram. *)
Definition target_text (ep : endpoint) : bytes := address_text v6_to_string (ep_address ep).
Definition packet_of (ep : endpoint) (d : bytes) : bytes :=
  UDPPacket.generate_domain [] (target_text ep) (ep_port ep) d.
Definition request_of (ep : endpoint) : bytes :=
  TrojanRequest.generate pw (target_text ep) (ep_port ep) false.
Definition stream (ep : endpoint) (ds : list bytes) : bytes :=
  request_of ep ++ concat (map (packet_of ep) ds).

Lemma stream_snoc ep ds d : stream ep (ds ++ [d]) = stream ep ds ++ packet_of ep d.
Proof. unfold stream. rewrite map_app, concat_app. cbn. by rewrite app_nil_r, app_assoc. Qed.
Arguments stream : simpl never.
Arguments packet_of : simpl never.
Arguments target_text : simpl never.
Arguments request_of : simpl never.

(** What holds of the part of a session that reads. *)
Record base (s : UDPForwardSession) (l : list fop) : Prop := {
  base_read : cnt is_reading l = if read_buf_guard (f_out_read_buf s) then 1 else 0;
  base_buf : read_buf_guard (f_out_read_buf s) = true -> read_buf (f_out_read_buf s) = [];
  base_queue : fqueue s = [];
  base_start : cnt is_unstarted l + cnt is_connecting l <= 1;
  base_piped : fpiped s = true -> read_buf_guard (f_out_read_buf s) = false
}.

Definition listening (s : UDPForwardSession) (l : list fop) : Prop :=
  if fpiped s then fwaits s = true else read_buf_guard (f_out_read_buf s) = true.

(** Nothing has been sent or received: before [start_udp], when nothing is
    collected, and while the connection is made. *)
Record waiting (s : UDPForwardSession) (l : list fop) (t : list feffect) : Prop := {
  wt_sent : fouts t = [];
  wt_got : fins t = [] /\ replies t = [] /\ f_udp_data_buf s = [];
  wt_idle : cnt is_sending l = 0 /\ read_buf_guard (f_out_read_buf s) = false;
  wt_collected : (f_out_write_buf s = [] /\ dgs t = []) \/ f_out_write_buf s = stream (f_out_endpoint s) (dgs t);
  wt_unstarted : cnt is_unstarted l <> 0 -> f_out_write_buf s = [] /\ dgs t = [];
  wt_connecting : cnt is_connecting l <> 0 -> f_out_write_buf s <> []
}.

(** Between the start and the end. *)
Record running (s : UDPForwardSession) (l : list fop) (t : list feffect) : Prop := {
  rn_started : cnt is_unstarted l = 0 /\ cnt is_connecting l = 0;
  rn_got : received (f_recv_endpoint s) t (f_udp_data_buf s);
  rn_sent : fouts t ++ f_out_write_buf s = stream (f_out_endpoint s) (dgs t)
}.

Record ended (s : UDPForwardSession) (l : list fop) (t : list feffect) : Prop := {
  en_sent : fouts t = [] \/ fouts t `prefix_of` stream (f_out_endpoint s) (dgs t);
  en_got : exists rest, received (f_recv_endpoint s) t rest;
  en_start : cnt is_unstarted l + cnt is_connecting l <> 0 -> waiting s l t
}.

Definition phase (s : UDPForwardSession) (l : list fop) (t : list feffect) : Prop :=
  match f_status s with
  | F_CONNECT => waiting s l t /\ (t = [] \/ f_out_write_buf s <> [])
  | F_FORWARD =>
    running s l t /\ listening s l /\ settled (f_udp_data_buf s) /\
    f_out_write_buf s = [] /\ cnt is_sending l = 0
  | F_FORWARDING =>
    running s l t /\ listening s l /\ settled (f_udp_data_buf s) /\ cnt is_sending l = 1
  | F_DESTROY => ended s l t /\ t <> []
  end.

Definition SI (s : UDPForwardSession) (l : list fop) (t : list feffect) : Prop :=
  base s l /\ phase s l t.

(** The invariant sees a session through these fields, its operations by number
    and its trace by content. *)
Definition same_state (s s' : UDPForwardSession) : Prop :=
  f_status s' = f_status s /\ f_com s' = f_com s /\ f_out_read_buf s' = f_out_read_buf s /\
  f_out_write_buf s' = f_out_write_buf s /\ f_udp_data_buf s' = f_udp_data_buf s /\
  f_recv_endpoint s' = f_recv_endpoint s /\ f_out_endpoint s' = f_out_endpoint s.
Definition same_ops (l l' : list fop) : Prop :=
  cnt is_sending l' = cnt is_sending l /\ cnt is_reading l' = cnt is_reading l /\
  cnt is_unstarted l' = cnt is_unstarted l /\ cnt is_connecting l' = cnt is_connecting l.
Definition same_trace (t t' : list feffect) : Prop :=
  dgs t' = dgs t /\ fouts t' = fouts t /\ fins t' = fins t /\ replies t' = replies t.

Lemma received_ext to t t' rest :
  fins t' = fins t -> replies t' = replies t -> received to t rest -> received to t' rest.
Proof. intros E1 E2 H. unfold received. by rewrite E1, E2. Qed.
Lemma received_same to t t' rest : same_trace t t' -> received to t rest -> received to t' rest.
Proof. intros (_ & _ & E1 & E2) H. unfold received. by rewrite E1, E2. Qed.

Lemma base_same s s' l l' : same_state s s' -> same_ops l l' -> base s l -> base s' l'.
Proof.
  intros (_ & E1 & E2 & _) (_ & E3 & E4 & E5) [B1 B2 B3 B4 B5].
  split; unfold fqueue, fpiped in *; rewrite ?E1, ?E2, ?E3, ?E4, ?E5; done.
Qed.

Lemma waiting_same s s' l l' t t' :
  same_state s s' -> same_ops l l' -> same_trace t t' -> waiting s l t -> waiting s' l' t'.
Proof.
  intros (_ & _ & E2 & E3 & E4 & E5 & E6) (O1 & O2 & O3 & O4) (T1 & T2 & T3 & T4) [].
  split; rewrite ?E2, ?E3, ?E4, ?E5, ?E6, ?O1, ?O2, ?O3, ?O4, ?T1, ?T2, ?T3, ?T4; done.
Qed.
Lemma running_same s s' l l' t t' :
  same_state s s' -> same_ops l l' -> same_trace t t' -> running s l t -> running s' l' t'.
Proof.
  intros (_ & _ & E2 & E3 & E4 & E5 & E6) (O1 & O2 & O3 & O4) HT [R1 R2 R3].
  split; rewrite ?E3, ?E4, ?E5, ?E6, ?O3, ?O4; [done|by eapply received_same|].
  destruct HT as (T1 & T2 & _). by rewrite T1, T2.
Qed.
Lemma ended_same s s' l l' t t' :
  same_state s s' -> same_ops l l' -> same_trace t t' -> ended s l t -> ended s' l' t'.
Proof.
  intros HS HO HT [R1 [rest R2] R3]. split.
  - destruct HS as (_ & _ & _ & _ & _ & _ & ->), HT as (-> & -> & _). done.
  - exists rest. destruct HS as (_ & _ & _ & _ & _ & -> & _). by eapply received_same.
  - intros Hn. eapply waiting_same; [done..|]. apply R3.
    destruct HO as (_ & _ & <- & <-). done.
Qed.

Lemma SI_same s s' l l' t :
  same_state s s' -> same_ops l l' -> SI s l t -> SI s' l' t.
Proof.
  intros HS HO [Hb Hp]. split; [by eapply base_same|].
  assert (HT : same_trace t t) by done.
  assert (Hr := running_same _ _ _ _ _ _ HS HO HT).
  pose proof HS as (E0 & E1 & E2 & E3 & E4 & _). pose proof HO as (O1 & _).
  unfold phase, listening, fpiped, fwaits in *. rewrite E0, E1, E2, E3, E4, O1.
  destruct (f_status s); destruct Hp as (P1 & P2); split; auto;
    [by eapply waiting_same|by eapply ended_same].
Qed.

Lemma running_ended s l t : running s l t -> ended s l t.
Proof.
  intros [[R1 R2] R3 R4]. split; [right|by eexists|lia]. rewrite <- R4. by apply prefix_app_r.
Qed.
Lemma waiting_ended s l t : waiting s l t -> ended s l t.
Proof.
  intros W. pose proof W as [W1 (W2 & W3 & W4) W5 W6 W7 W8]. split; [by left| |done].
  exists [], [], []. by rewrite W2, W3.
Qed.
Lemma SI_ended s l t : SI s l t -> ended s l t.
Proof.
  intros [_ H]. unfold phase in H. destruct (f_status s); [| | |apply H].
  - by apply waiting_ended, H.
  - by apply running_ended, H.
  - by apply running_ended, H.
Qed.

Ltac same := repeat split; cbn; autorewrite with ftrace; done.

(** [destroy] leaves the operations; what was sent and received stays so. *)
Lemma on_destroy h b s l t :
  base s l -> ended s l t -> (f_status s = F_DESTROY -> t <> []) ->
  on h (fs_destroy h b)
    (fun _ s' l' t' => base s' l' /\ ended s' l' t' /\ t' <> [] /\ f_status s' = F_DESTROY /\ l' = l) s l t.
Proof.
  intros Hb He Hne. unfold fs_destroy. apply on_bind, on_getF.
  destruct (bool_decide (f_status s = F_DESTROY)) eqn:E; bool_facts; [by apply on_skip; auto|].
  apply on_bind, on_modF, on_bind, on_emit; [done|]. apply on_bind, on_modF, on_bind, on_modF.
  assert (Hend : forall e, e = [] \/ e = [FPipeClose h] ->
    let s' := s <| f_status := F_DESTROY |> <| f_target_open := false |> <| f_out_open := false |> in
    base s' l /\ ended s' l ((t ++ [FClosed h]) ++ e) /\ (t ++ [FClosed h]) ++ e <> [] /\
    f_status s' = F_DESTROY /\ l = l).
  { intros e Hc s'. split; [by destruct Hb|].
    split; [|split; [by intros [[_ ?]%app_eq_nil _]%app_eq_nil|done]]. destruct He as [E1 [rest E2] E3].
    assert (HT : same_trace t ((t ++ [FClosed h]) ++ e)) by (destruct Hc as [-> | ->]; same).
    split; [|exists rest; by eapply received_same|].
    - by destruct HT as (-> & -> & _).
    - intros Hn. apply E3 in Hn as []. destruct HT as (T1 & T2 & T3 & T4).
      split; subst s'; cbn; rewrite ?T1, ?T2, ?T3, ?T4; done. }
  destruct (_ && _); cbn [when].
  - apply on_emit; [done|]. apply Hend. by right.
  - apply on_skip. rewrite <- (app_nil_r (t ++ _)). apply Hend. by left.
Qed.

Lemma on_destroy_SI h b s l t : SI s l t -> on h (fs_destroy h b) (fun _ => SI) s l t.
Proof.
  intros HS. eapply on_mono; [apply on_destroy; [apply HS|by apply SI_ended|]|].
  { intros E. destruct HS as [_ HS]. unfold phase in HS. rewrite E in HS. apply HS. }
  intros _ s' l' t' (Hb & He & Hne & Hd & _). split; [done|]. unfold phase. by rewrite Hd.
Qed.

(** The timer of a use: it is started again, or is running. *)
Lemma on_timer h s l t (Q : post unit) :
  (forall s' l', same_state s s' -> same_ops l l' -> Q tt s' l' t) ->
  on h (fs_udp_timer_async_wait cfg dns_udp_timeout cancel_ec h (-1)) Q s l t.
Proof.
  intros HQ. unfold fs_udp_timer_async_wait. apply on_bind, on_getF, on_bind, on_gets. intros curr.
  apply on_bind, on_ask. intros n. unfold fs_timer_act. apply on_bind, on_modF.
  unfold UdpTimer.udp_timer_async_wait. rewrite cancel_ok. cbn [Z.eqb negb].
  destruct (UdpTimer.is_udp_forward _); cbn [negb fst snd]; [|apply on_skip, HQ; same].
  change (-1 =? -1) with true. rewrite andb_true_r.
  destruct (_ =? 0); cbn [negb fst snd]; [apply on_start_op; [done|done|]; apply HQ; same|].
  destruct (_ <? _); cbn [fst snd]; [apply on_skip, HQ; same|].
  apply on_start_op; [done|done|]; apply HQ; same.
Qed.

(** The end of a wait: the session is destroyed, or the wait starts again. *)
Lemma on_fired h s l t n ec :
  SI s l t -> on h (fs_udp_timer_fired cfg dns_udp_timeout cancel_ec h n ec) (fun _ => SI) s l t.
Proof.
  intros HS. unfold fs_udp_timer_fired. apply on_bind, on_getF, on_bind, on_gets. intros curr.
  apply on_bind, on_ask. intros k. unfold fs_timer_act. apply on_bind, on_modF.
  match goal with |- context [snd ?r] => destruct r as [tm [|m|]] end; cbn [fst snd].
  - apply on_skip. eapply SI_same; [..|exact HS]; same.
  - apply on_start_op; [done|done|]. eapply SI_same; [..|exact HS]; same.
  - apply on_destroy_SI. eapply SI_same; [..|exact HS]; same.
Qed.

(** All that waits is handed to the carrier in one write. *)
Lemma on_flush h s l t :
  base s l -> running s l t -> listening s l -> settled (f_udp_data_buf s) ->
  f_status s = F_FORWARDING -> cnt is_sending l = 0 ->
  on h (fs_flush in_pipeline h) (fun _ s' l' t' => SI s' l' t' /\ f_status s' <> F_CONNECT) s l t.
Proof.
  intros Hb Hr Hl Hst Hf Hs. unfold fs_flush. apply on_bind, on_getF, on_bind.
  unfold fs_out_async_write. apply on_bind, on_getF.
  assert (Hgo : forall o, is_sending o = true -> is_reading o = false ->
      is_unstarted o = false -> is_connecting o = false ->
    let s' := s <| f_out_write_buf ::= consume_all |> in
    SI s' (l ++ [o]) (t ++ [FToServer h (to_view (f_out_write_buf s))]) /\
    f_status s' <> F_CONNECT).
  { intros o H1 H2 H3 H4 s'. split; [|subst s'; cbn; congruence]. subst s'. destruct Hb, Hr as [R1 R2 R3].
    split; [split; cbn; rewrite ?cnt_snoc, ?H2, ?H3, ?H4, ?Z.add_0_r; done|].
    unfold phase. cbn. rewrite Hf. split_and!; [|done|done|rewrite cnt_snoc, H1; lia].
    split; cbn; rewrite ?cnt_snoc, ?H3, ?H4, ?Z.add_0_r; [done| |].
    - by eapply received_ext; [..|exact R2]; autorewrite with ftrace.
    - rewrite consume_all_nil. autorewrite with ftrace. cbn. rewrite !app_nil_r. exact R3. }
  destruct (m_is_use_pipeline (f_com s)).
  - apply on_bind, on_ask. intros n. destruct (in_pipeline n).
    + apply on_bind, on_emit; [done|]. apply on_start_op; [done|done|]. apply on_modF. by apply Hgo.
    + eapply on_mono; [apply on_destroy; [done|by apply running_ended|congruence]|].
      intros _ s' l' t' (B & E & Hne & Hd & ->). apply on_modF.
      split; [split; [by destruct B|]|cbn; congruence]. unfold phase. cbn. rewrite Hd. destruct E as [E1 E2 E3]. split; [|done]. split; [done|done|].
      destruct Hr as [[R1 R2] _ _]. lia.
  - apply on_write; [done|done|by intros b b' [= ->]|]. intros b. apply on_modF. by apply Hgo.
Qed.

Lemma stream_some ep ds : stream ep ds <> [].
Proof.
  unfold stream, request_of, TrojanRequest.generate. intros E. apply (f_equal zlen) in E. zlen_lia.
Qed.

(** [s2] is [s] with the packet of a datagram collected. *)
Definition taken (s s2 : UDPForwardSession) (data : bytes) : Prop :=
  f_status s2 = f_status s /\ f_com s2 = f_com s /\ f_out_read_buf s2 = f_out_read_buf s /\
  f_udp_data_buf s2 = f_udp_data_buf s /\ f_recv_endpoint s2 = f_recv_endpoint s /\
  f_out_endpoint s2 = f_out_endpoint s /\
  f_out_write_buf s2 = f_out_write_buf s ++ packet_of (f_out_endpoint s) data.

Lemma base_taken s s2 data l : taken s s2 data -> base s l -> base s2 l.
Proof. intros (_ & E1 & E2 & _) []. split; unfold fqueue, fpiped in *; by rewrite ?E1, ?E2. Qed.

(** A datagram taken before the connection stands is kept. *)
Lemma waiting_taken h s s2 l t data :
  taken s s2 data -> waiting s l t -> f_out_write_buf s <> [] ->
  waiting s2 l (t ++ [Datagram h data]).
Proof.
  intros (_ & E1 & E2 & E3 & E4 & E5 & E6) [] Hb.
  split; autorewrite with ftrace; rewrite ?E2, ?E3, ?E4, ?E5; cbn; autorewrite with ftrace; try done.
  - right. rewrite stream_snoc, E6. destruct wt_collected0 as [[? _]| ->]; done.
  - intros [? _]%wt_unstarted0. done.
  - intros _. rewrite E6. by intros [? _]%app_eq_nil.
Qed.
Lemma running_taken h s s2 l t data :
  taken s s2 data -> running s l t -> running s2 l (t ++ [Datagram h data]).
Proof.
  intros (_ & E1 & E2 & E3 & E4 & E5 & E6) [R1 R2 R3].
  split; rewrite ?E3, ?E4, ?E5, ?E6; [done| |].
  - by eapply received_ext; [..|exact R2]; autorewrite with ftrace.
  - autorewrite with ftrace. cbn. autorewrite with ftrace. by rewrite stream_snoc, app_assoc, R3.
Qed.

Lemma on_in_recv h s l t data :
  SI s l t -> (f_status s = F_CONNECT -> f_out_write_buf s <> []) ->
  on h (fs_in_recv cfg dns_udp_timeout v6_to_string in_pipeline cancel_ec h data)
    (fun _ s' l' t' => SI s' l' t' /\ (f_status s' = F_CONNECT -> f_out_write_buf s' <> []) /\
      (f_status s = F_CONNECT ->
       f_status s' = f_status s /\ f_com s' = f_com s /\ same_ops l l' /\ t' <> []) /\
      (f_status s = F_DESTROY -> s' = s /\ l' = l /\ t' = t)) s l t.
Proof.
  intros HS Hc. unfold fs_in_recv. apply on_bind, on_getF.
  destruct (bool_decide (f_status s = F_DESTROY)) eqn:E; bool_facts.
  { apply on_skip. split; [done|]. split; [done|]. by rewrite E. }
  apply on_bind, on_timer. intros s1 l1 Hs1 Hl1.
  assert (HS1 : SI s1 l1 t) by (by eapply SI_same).
  apply on_bind, on_modF, on_bind, on_emit; [done|]. apply on_bind, on_modF, on_bind, on_getF.
  match goal with |- on _ _ _ ?s2 _ _ => assert (Ht : taken s1 s2 data) end.
  { repeat split. cbn. apply generate_domain_app. }
  revert Ht. match goal with |- context [taken s1 ?s2 data] => generalize s2 end. intros s2 Ht.
  pose proof Hs1 as (Z1 & Z2 & _ & Z3 & _ & Z4 & _). pose proof Ht as (X1 & X2 & X3 & X4 & X5 & X6 & X7).
  destruct HS1 as [Hb1 Hp1]. assert (Hb2 : base s2 l1) by (by eapply base_taken).
  unfold phase in Hp1. rewrite <- X1 in Hp1.
  destruct (f_status s2) eqn:Ef; try congruence.
  - rewrite bool_decide_false by done. apply on_skip.
    assert (Hbuf : f_out_write_buf s1 <> []) by (rewrite Z3; apply Hc; congruence).
    assert (Hbuf2 : f_out_write_buf s2 <> []) by (rewrite X7; by intros [? _]%app_eq_nil).
    split; [|split; [done|split; [|congruence]]].
    + split; [done|]. unfold phase. rewrite Ef. split; [by eapply waiting_taken; [|apply Hp1|]|by right].
    + intros _. split; [congruence|]. split; [congruence|]. split; [done|]. by intros [_ ?]%app_eq_nil.
  - rewrite bool_decide_true by done. destruct Hp1 as (Hr & Hl & Hst & Hw & Hs).
    apply on_bind, on_modF. eapply on_mono; [eapply on_flush|].
    + by destruct Hb2.
    + destruct (running_taken h _ _ _ _ _ Ht Hr). by split.
    + unfold listening, fpiped, fwaits in *. cbn. by rewrite X2, X3.
    + cbn. by rewrite X4.
    + done.
    + done.
    + intros _ s' l' t' [HS' Hn]. split; [done|]. split; [done|]. split; congruence.
  - rewrite bool_decide_false by done. destruct Hp1 as (Hr & Hl & Hst & Hs). apply on_skip.
    split; [|split; [congruence|split; congruence]].
    split; [done|]. unfold phase. rewrite Ef, X4. split_and!; [| |done|done].
    + by eapply running_taken.
    + unfold listening, fpiped, fwaits in *. by rewrite X2, X3.
Qed.

(** *** What comes back *)

Definition alive (s : UDPForwardSession) : bool :=
  bool_decide (f_status s = F_FORWARD) || bool_decide (f_status s = F_FORWARDING).

(** The loop over the packets leaves this of a session. *)
Definition kept (s s' : UDPForwardSession) : Prop :=
  f_status s' = f_status s /\ f_com s' = f_com s /\ f_out_read_buf s' = f_out_read_buf s /\
  f_out_write_buf s' = f_out_write_buf s.

Lemma received_packet to t buf p w rest e :
  received to t buf -> buf = w ++ rest -> UDPPacket.wire p w ->
  fins [e] = [] -> replies [e] = [(to, UDPPacket.payload p)] -> received to (t ++ [e]) rest.
Proof.
  intros (ps & ws & H1 & H2 & H3) -> Hw E1 E2. exists (ps ++ [p]), (ws ++ [w]). split_and!.
  - apply Forall2_app; [done|]. by constructor.
  - rewrite fins_app, E1, app_nil_r, H2, concat_app. cbn. by rewrite app_nil_r, <- app_assoc.
  - by rewrite replies_app, E2, H3, map_app.
Qed.

Lemma packet_octets p w : UDPPacket.wire p w -> 4 < zlen w.
Proof.
  intros (Hl & Hr & aw & Ha & ->). pose proof (Socks5.wire_length _ _ Ha). zlen_lia.
Qed.

Lemma on_reply h s l t p w rest :
  base s l -> running s l t -> f_udp_data_buf s = w ++ rest -> UDPPacket.wire p w ->
  on h (fs_reply send_ec h (UDPPacket.payload p))
    (fun go s' l' t' => l' = l /\
      if go then s' = s /\ received (f_recv_endpoint s) t' rest /\
        fouts t' = fouts t /\ dgs t' = dgs t
      else SI s' l' t') s l t.
Proof.
  intros Hb Hr Hbuf Hw. unfold fs_reply. apply on_bind, on_getF, on_bind, on_emit; [done|].
  destruct Hr as [R1 R2 R3].
  assert (Hrec : received (f_recv_endpoint s) (t ++ [Reply h (f_recv_endpoint s) (UDPPacket.payload p)]) rest)
    by (by eapply received_packet).
  apply on_bind, on_ask. intros n.
  assert (Hok : forall Q : post bool,
    Q true s l (t ++ [Reply h (f_recv_endpoint s) (UDPPacket.payload p)]) ->
    on h (ret true : FM bool) Q s l (t ++ [Reply h (f_recv_endpoint s) (UDPPacket.payload p)]))
    by (intros; by apply on_ret).
  assert (Hgo : fouts (t ++ [Reply h (f_recv_endpoint s) (UDPPacket.payload p)]) = fouts t /\
    dgs (t ++ [Reply h (f_recv_endpoint s) (UDPPacket.payload p)]) = dgs t)
    by (by autorewrite with ftrace).
  destruct Hgo as [G1 G2].
  destruct (_ =? _); [by apply Hok|]. destruct (_ =? _); [by apply Hok|].
  destruct (f_is_nat s); [|by apply on_throw].
  apply on_bind. eapply on_mono; [apply on_destroy; [done| |]|].
  - split; [right|by eexists|destruct R1; lia]. rewrite G1, G2, <- R3. by apply prefix_app_r.
  - by intros _ [_ ?]%app_eq_nil.
  - intros _ s' l' t' (B & E & Hne & Hd & ->). apply on_ret. split; [done|]. split; [done|].
    unfold phase. by rewrite Hd.
Qed.

Lemma on_packets h fuel s l t :
  base s l -> running s l t -> alive s = true -> (length (f_udp_data_buf s) < fuel)%nat ->
  on h (fs_packets send_ec fuel h)
    (fun go s' l' t' => l' = l /\
      if go : bool then base s' l /\ running s' l t' /\ kept s s' /\ settled (f_udp_data_buf s')
      else SI s' l t') s l t.
Proof.
  revert s t. induction fuel as [|fuel IH]; intros s t Hb Hr Ha Hf; [lia|].
  cbn [fs_packets]. apply on_bind, on_getF, on_bind. unfold to_view. apply on_lift.
  { intros e He. by apply UDP_parse_nothrow in He. }
  { apply UDP_parse_octet03. }
  intros [[p n]|] Hp.
  - apply UDPPacket.packet_parse_inv in Hp as (w & rest & Hbuf & Hw & ->). pose proof (packet_octets _ _ Hw).
    apply on_bind. eapply on_mono; [by eapply on_reply|]. intros go s1 l1 t1 [-> Hgo].
    destruct go; [|by apply on_ret]. destruct Hgo as (-> & Hrec & G1 & G2).
    apply on_bind, on_modF, on_bind, on_modF.
    assert (Hc : consume (w ++ rest) (zlen w) = rest) by (unfold consume; apply drop_zlen_app).
    eapply on_mono; [apply IH|].
    + by destruct Hb.
    + destruct Hr as [R1 R2 R3]. split; cbn; [done|by rewrite Hbuf, Hc|by rewrite G1, G2].
    + done.
    + cbn. rewrite Hbuf, Hc. rewrite Hbuf, length_app in Hf. unfold zlen in *. lia.
    + intros go s' l' t' [-> Hgo]. split; [done|]. destruct go; [|done].
      destruct Hgo as (B & R & K & Hst). split_and!; try done.
  - destruct (_ <? _).
    + apply on_bind. eapply on_mono; [apply on_destroy; [done|by apply running_ended|]|].
      { unfold alive in Ha. intros E. by rewrite E in Ha. }
      intros _ s' l' t' (B & E & Hne & Hd & ->). apply on_ret. split; [done|]. split; [done|].
      unfold phase. by rewrite Hd.
    + apply on_ret. split; [done|]. split_and!; try done.
      intros p n. by rewrite Hp.
Qed.

(** [out_async_read] on a session that is not reading: it waits. *)
Lemma on_out_async_read h d s l t :
  base s l -> read_buf_guard (f_out_read_buf s) = false ->
  on h (fs_out_async_read cfg dns_udp_timeout send_ec cancel_ec (S d) h)
    (fun _ s' l' t' => base s' l' /\ listening s' l' /\ t' = t /\
      f_status s' = f_status s /\ f_out_write_buf s' = f_out_write_buf s /\
      f_udp_data_buf s' = f_udp_data_buf s /\ f_recv_endpoint s' = f_recv_endpoint s /\
      f_out_endpoint s' = f_out_endpoint s /\
      cnt is_sending l' = cnt is_sending l /\ cnt is_unstarted l' = cnt is_unstarted l /\
      cnt is_connecting l' = cnt is_connecting l) s l t.
Proof.
  intros [B1 B2 B3 B4 B5] Hg. cbn [fs_out_async_read]. unfold fs_out_async_read_. apply on_bind, on_getF.
  destruct (m_is_use_pipeline (f_com s)) eqn:Ep.
  - unfold ReadDataCache.async_read_begin. unfold fqueue in B3. rewrite B3. cbn [zlen length Z.of_nat Z.eqb].
    apply on_modF. split; [by split|]. unfold listening, fpiped, fwaits. cbn. by rewrite Ep.
  - apply on_bind. rewrite begin_read_ok by done. apply on_lift; [done|done|]. intros r [= <-].
    apply on_bind, on_modF, on_start_op; [done|done|]. cbn. rewrite !cnt_snoc. cbn.
    rewrite !Z.add_0_r. split; [|split_and!; try done; unfold listening, fpiped; cbn; by rewrite Ep].
    split; cbn; rewrite ?cnt_snoc; cbn; rewrite ?Z.add_0_r; try done.
    + rewrite B1, Hg. done.
    + intros _. apply consume_all_nil.
    + unfold fpiped. cbn. by rewrite Ep.
Qed.

(** A chunk of the carrier: its packets are handed over and the session reads
    on. *)
Lemma on_out_recv h d s l t data :
  base s l -> read_buf_guard (f_out_read_buf s) = false -> alive s = true ->
  running s l t -> (f_status s = F_FORWARD -> f_out_write_buf s = [] /\ cnt is_sending l = 0) ->
  (f_status s = F_FORWARDING -> cnt is_sending l = 1) ->
  on h (fs_out_recv cfg dns_udp_timeout send_ec cancel_ec (S d) h data) (fun _ => SI) s l t.
Proof.
  intros Hb Hg Ha Hr Hf1 Hf2. unfold fs_out_recv, fs_out_recv_. apply on_bind, on_getF.
  unfold alive in Ha. rewrite Ha. fold (alive s) in Ha.
  apply on_bind, on_timer. intros s1 l1 Hs1 Hl1.
  assert (Hb1 : base s1 l1) by (by eapply base_same).
  assert (Hr1 : running s1 l1 t) by (by eapply running_same; [done|done| |done]).
  apply on_bind, on_emit; [done|]. apply on_bind, on_modF, on_bind, on_getF, on_bind.
  pose proof Hs1 as (Z1 & Z2 & Z3 & Z4 & _). pose proof Hl1 as (L1 & L2 & L3 & L4).
  eapply on_mono; [apply on_packets|].
  - by destruct Hb1.
  - destruct Hr1 as [R1 R2 R3]. split; cbn; [done| |by autorewrite with ftrace].
    destruct R2 as (ps & ws & P1 & P2 & P3). exists ps, ws. autorewrite with ftrace streambuf. cbn.
    autorewrite with ftrace. rewrite P2, app_assoc. done.
  - unfold alive in *. cbn. by rewrite Z1.
  - lia.
  - intros go s' l' t' [-> Hgo]. destruct go; [|by apply on_skip].
    destruct Hgo as (B & R & K & Hst). destruct K as (K1 & K2 & K3 & K4). cbn in K1, K2, K3, K4.
    eapply on_mono; [apply on_out_async_read; [done|congruence]|].
    intros _ s2 l2 t2 (B2 & L & -> & E1 & E2 & E3 & E4 & E5 & C1 & C2 & C3).
    split; [done|]. unfold phase. rewrite E1, K1, Z1, E2, K4, Z4, E3, C1, L1.
    assert (R2 : running s2 l2 t').
    { destruct R as [Q1 Q2 Q3]. split; rewrite ?E2, ?E3, ?E4, ?E5, ?C2, ?C3; done. }
    unfold alive in Ha. destruct (f_status s); try done.
    + destruct (Hf1 eq_refl). by split_and!.
    + by split_and!; auto.
Qed.

(** *** The operations of a session *)

Lemma sent_cases s l0 o l t :
  SI s l0 t -> after l0 o l -> is_sending o = true ->
  base s l /\
  ((f_status s = F_FORWARDING /\ running s l t /\ listening s l /\ settled (f_udp_data_buf s) /\
    cnt is_sending l = 0) \/ (f_status s = F_DESTROY /\ ended s l t /\ t <> [])).
Proof.
  intros [[B1 B2 B3 B4 B5] Hp] Ha Ho.
  assert (Hk : is_reading o = false /\ is_unstarted o = false /\ is_connecting o = false)
    by (by destruct o).
  destruct Hk as (K1 & K2 & K3).
  pose proof (Ha is_sending) as A1. pose proof (Ha is_reading) as A2.
  pose proof (Ha is_unstarted) as A3. pose proof (Ha is_connecting) as A4.
  rewrite Ho in A1. rewrite K1, Z.add_0_r in A2. rewrite K2, Z.add_0_r in A3.
  rewrite K3, Z.add_0_r in A4. pose proof (cnt_nonneg is_sending l).
  split; [split; rewrite <- ?A2, <- ?A3, <- ?A4; done|].
  unfold phase in Hp. destruct (f_status s).
  - destruct Hp as [[_ _ [? _] _ _ _] _]. lia.
  - destruct Hp as (_ & _ & _ & _ & ?). lia.
  - left. destruct Hp as ([] & P2 & P3 & P4). split; [done|]. split; [|split_and!; try done; lia].
    split; rewrite <- ?A3, <- ?A4; done.
  - right. split; [done|]. destruct Hp as [[E1 E2 E3] Hne]. split; [|done]. split; [done|done|].
    rewrite <- A3, <- A4. intros [_ _ [? _] _ _ _]%E3. lia.
Qed.

Lemma destroyed_SI h b s l t :
  base s l -> ended s l t -> (f_status s = F_DESTROY -> t <> []) ->
  on h (fs_destroy h b) (fun _ => SI) s l t.
Proof.
  intros Hb He Hne. eapply on_mono; [by apply on_destroy|].
  intros _ s' l' t' (B & E & Hn & Hd & _). split; [done|]. unfold phase. by rewrite Hd.
Qed.

(** The write in progress has ended: the next one takes all that has been
    collected meanwhile. *)
Lemma on_sent h s l0 o l t (ec : error_code) :
  SI s l0 t -> after l0 o l -> is_sending o = true ->
  on h (if negb (ec =? 0) then fs_destroy h false else fs_out_sent in_pipeline h)
    (fun _ => SI) s l t.
Proof.
  intros HS Ha Ho. destruct (sent_cases _ _ _ _ _ HS Ha Ho) as [Hb Hc].
  destruct (negb (ec =? 0)).
  { apply destroyed_SI; [done|..]; destruct Hc as [(E & ? & _)|(E & ? & ?)]; try done;
      [by apply running_ended|congruence]. }
  unfold fs_out_sent. apply on_bind, on_getF. destruct Hc as [(E & Hr & Hl & Hst & Hs)|(E & He & Hne)]; rewrite E.
  - rewrite bool_decide_true by done. destruct (zlen (f_out_write_buf s) =? 0) eqn:Ez; bool_facts.
    + apply on_modF. apply zlen_zero in Ez. split; [by destruct Hb|]. unfold phase. cbn.
      split_and!; try done. by destruct Hr.
    + eapply on_mono; [by apply on_flush|]. by intros _ s' l' t' [? _].
  - rewrite bool_decide_false by done. apply on_skip. split; [done|]. unfold phase. by rewrite E.
Qed.

(** A session that has not been connected. *)
Definition before_run (s : UDPForwardSession) (t : list feffect) : Prop :=
  f_status s = F_CONNECT \/ (f_status s = F_DESTROY /\ t <> []).
Lemma before_run_traced s t : before_run s t -> f_status s = F_DESTROY -> t <> [].
Proof. intros [?|[_ ?]]; [congruence|done]. Qed.

(** The connection stands: the session reads, and sends what it has collected. *)
Lemma on_ready h d s l t :
  base s l -> waiting s l t -> before_run s t -> cnt is_unstarted l = 0 -> cnt is_connecting l = 0 ->
  f_out_write_buf s = stream (f_out_endpoint s) (dgs t) ->
  on h (fs_ready cfg dns_udp_timeout nat_bind_ok in_pipeline system_ec send_ec cancel_ec (S d) h)
    (fun _ s' l' t' => SI s' l' t' /\ f_status s' <> F_CONNECT) s l t.
Proof.
  intros Hb Hw Hbr Hu Hc Hbuf. unfold fs_ready. apply on_bind, on_getF, on_bind.
  assert (Hgo : forall s1, same_state s s1 ->
    on h (modF h (fun s => s <| f_status := F_FORWARDING |>) ;;;
          fs_out_async_read cfg dns_udp_timeout send_ec cancel_ec (S d) h ;;; fs_flush in_pipeline h)
      (fun _ s' l' t' => SI s' l' t' /\ f_status s' <> F_CONNECT) s1 l t).
  { intros s1 Hs. assert (Hb1 : base s1 l) by (by eapply base_same).
    assert (Hw1 : waiting s1 l t) by (by eapply waiting_same).
    destruct Hs as (_ & _ & _ & E3 & _ & _ & E6).
    apply on_bind, on_modF, on_bind. destruct Hw1 as [W1 (W2 & W3 & W4) (W5 & W6) _ _ _].
    eapply on_mono; [apply on_out_async_read; [by destruct Hb1|done]|].
    intros _ s2 l2 t2 (B2 & L & -> & F1 & F2 & F3 & F4 & F5 & C1 & C2 & C3). cbn in F1, F2, F3, F4, F5.
    apply on_flush; try done.
    - split; [lia|exists [], []; by rewrite W2, W3, F3, W4|]. by rewrite W1, F2, F5, E3, E6.
    - rewrite F3, W4. by intros p n.
    - lia. }
  destruct (f_is_nat s); [|by apply on_ret, Hgo].
  apply on_bind, on_ask. intros n. destruct (negb _); [by apply on_throw|].
  apply on_bind, on_modF, on_bind, on_ask. intros k. destruct (nat_bind_ok k).
  - apply on_bind, on_ask. intros m. destruct (negb _); [by apply on_throw|]. apply on_ret, Hgo. same.
  - apply on_bind. eapply on_mono; [apply on_destroy|].
    + by destruct Hb.
    + apply waiting_ended. eapply waiting_same; [..|exact Hw]; same.
    + by apply before_run_traced.
    + intros _ s' l' t' (B & E & Hne & Hd & ->). apply on_ret, on_skip. split; [|congruence].
      split; [done|]. unfold phase. by rewrite Hd.
Qed.

Lemma connecting_SI s l t t' o :
  base s l -> waiting s l t -> before_run s t' ->
  cnt is_unstarted l = 0 -> cnt is_connecting l = 0 -> f_out_write_buf s <> [] ->
  is_connecting o = true -> same_trace t t' -> SI s (l ++ [o]) t'.
Proof.
  intros [] [] Hst Hu Hc Hb Ho (T1 & T2 & T3 & T4).
  assert (Hk : is_reading o = false /\ is_unstarted o = false /\ is_sending o = false)
    by (by destruct o).
  destruct Hk as (K1 & K2 & K3).
  assert (Hw : waiting s (l ++ [o]) t').
  { split; rewrite ?cnt_snoc, ?K2, ?K3, ?Ho, ?Z.add_0_r, ?T1, ?T2, ?T3, ?T4; try done. }
  split.
  - split; rewrite ?cnt_snoc, ?K1, ?K2, ?K3, ?Ho, ?Z.add_0_r; try done; lia.
  - unfold phase. destruct Hst as [-> |[-> ?]]; [by split; [|right]|by split; [apply waiting_ended|]].
Qed.

(** What holds when a step towards the connection ends. *)
Lemma start_cases s l0 o l t :
  SI s l0 t -> after l0 o l -> is_unstarted o = true \/ is_connecting o = true ->
  base s l /\ waiting s l t /\ before_run s t /\
  cnt is_unstarted l = 0 /\ cnt is_connecting l = 0 /\
  (is_unstarted o = true -> dgs t = []) /\
  (is_connecting o = true -> f_out_write_buf s = stream (f_out_endpoint s) (dgs t)).
Proof.
  intros [[B1 B2 B3 B4 B5] Hp] Ha Ho.
  assert (Hk : is_reading o = false /\ is_sending o = false) by (by destruct o, Ho).
  assert (Hx : (if is_unstarted o then 1 else 0) + (if is_connecting o then 1 else 0) = 1)
    by (by destruct o, Ho).
  destruct Hk as (K1 & K2).
  pose proof (Ha is_sending) as A1. pose proof (Ha is_reading) as A2.
  pose proof (Ha is_unstarted) as A3. pose proof (Ha is_connecting) as A4.
  rewrite K2, Z.add_0_r in A1. rewrite K1, Z.add_0_r in A2.
  pose proof (cnt_nonneg is_unstarted l). pose proof (cnt_nonneg is_connecting l).
  assert (Hst : before_run s t).
  { unfold phase in Hp. unfold before_run. destruct (f_status s); [by left| | |by right; destruct Hp];
      destruct Hp as ([[? ?] _ _] & _); lia. }
  assert (Hw : waiting s l0 t).
  { unfold phase in Hp. destruct Hst as [E|[E _]]; rewrite E in Hp; [apply Hp|]. apply Hp. lia. }
  assert (Hz : cnt is_unstarted l = 0 /\ cnt is_connecting l = 0) by lia. destruct Hz as [Z1 Z2].
  destruct Hw as [W1 W2 W3 W4 W5 W6].
  split; [split; rewrite <- ?A2, <- ?A3; try done; lia|].
  split; [split; rewrite <- ?A1; try done; lia|]. split; [done|]. split; [done|]. split; [done|].
  split.
  - intros E. rewrite E in A3. apply W5. lia.
  - intros E. rewrite E in A4. destruct W4 as [[W4 _]|W4]; [|done]. exfalso. apply W6; [lia|done].
Qed.

(** The session takes its first datagram and connects, or is ready at once on
    its pipeline. *)
Lemma on_start_udp h d s l t data :
  base s l -> waiting s l t -> before_run s t ->
  cnt is_unstarted l = 0 -> cnt is_connecting l = 0 -> dgs t = [] ->
  on h (fs_start_udp cfg dns_udp_timeout v6_to_string nat_bind_ok in_pipeline system_ec send_ec
          cancel_ec (S d) h data)
    (fun _ s' l' t' => SI s' l' t' /\ t' <> []) s l t.
Proof.
  intros Hb Hw Hst Hu Hc Hd. unfold fs_start_udp. apply on_bind, on_timer. intros s1 l1 Hs1 Hl1.
  assert (Hb1 : base s1 l1) by (by eapply base_same).
  assert (Hw1 : waiting s1 l1 t) by (by eapply waiting_same).
  destruct Hs1 as (E0 & _), Hl1 as (_ & _ & L3 & L4).
  destruct password_first as (x & rest & ->). apply on_bind, on_modF.
  match goal with |- on _ _ _ ?s' _ _ => set (s2 := s') end.
  assert (Hbuf : f_out_write_buf s2 = stream (f_out_endpoint s2) (dgs t)).
  { subst s2. cbn. rewrite append_string_eq, consume_all_nil, Hd. unfold stream. cbn.
    by rewrite app_nil_r. }
  assert (Hsome : f_out_write_buf s2 <> []) by (rewrite Hbuf; apply stream_some).
  assert (Hb2 : base s2 l1) by (by destruct Hb1).
  assert (Hw2 : waiting s2 l1 t).
  { destruct Hw1. split; try done; [by right|lia]. }
  assert (E2 : f_status s2 = f_status s) by (subst s2; cbn; done).
  assert (HS2 : SI s2 l1 t).
  { split; [done|]. unfold phase. rewrite E2.
    destruct Hst as [-> |[-> ?]]; [by split; [|right]|by split; [apply waiting_ended|]]. }
  clearbody s2. apply on_bind, on_getF, on_bind. unfold fs_process. apply on_bind, on_getF.
  rewrite bool_decide_true by done. cbn [negb]. apply on_bind.
  eapply on_mono; [by apply on_in_recv|]. intros _ s3 l3 t3 (HS3 & H3 & Hcon & Hdes).
  apply on_ret.
  assert (Hw3 : base s3 l3 /\ waiting s3 l3 t3 /\ f_out_write_buf s3 = stream (f_out_endpoint s3) (dgs t3) /\
    cnt is_unstarted l3 = 0 /\ cnt is_connecting l3 = 0 /\ before_run s3 t3 /\ t3 <> []).
  { destruct Hst as [Hst|[Hst Hne]]; rewrite Hst in E2.
    - destruct (Hcon E2) as (C1 & C2 & (C3 & _ & C4 & C5) & C6). destruct HS3 as [B3 P3].
      unfold phase in P3. rewrite C1, E2 in P3. destruct P3 as [P3 _].
      split; [done|]. split; [done|]. split; [|split_and!; try lia; try done; left; congruence].
      destruct P3 as [_ _ _ [[? _]|?] _ _]; [|done]. exfalso. apply H3; [congruence|done].
    - destruct (Hdes E2) as (-> & -> & ->). split_and!; try done; try lia. by right. }
  destruct Hw3 as (B3 & W3 & Hbuf3 & Hu3 & Hc3 & Hbr3 & Hne3). destruct (m_is_use_pipeline _).
  - eapply on_grow; [by apply on_ready|]. intros _ s' l' t' [e ->] [? _]. split; [done|].
    by intros [? _]%app_eq_nil.
  - apply on_bind, on_emit; [done|]. apply on_start_op; [done|done|].
    assert (Hne : t3 ++ [FConnectTo h (remote_addr cfg) (Text.to_string (remote_port cfg))] <> [])
      by (by intros [_ ?]%app_eq_nil).
    split; [|done]. apply (connecting_SI s3 l3 t3); try done; [|rewrite Hbuf3; apply stream_some|same].
    destruct Hbr3 as [?|[? _]]; [by left|by right].
Qed.

Lemma on_connecting h s l0 o l t (ec : error_code) (next : FM unit) :
  SI s l0 t -> after l0 o l -> is_connecting o = true ->
  (base s l -> waiting s l t -> before_run s t ->
   cnt is_unstarted l = 0 -> cnt is_connecting l = 0 ->
   f_out_write_buf s = stream (f_out_endpoint s) (dgs t) -> on h next (fun _ => SI) s l t) ->
  on h (if negb (ec =? 0) then fs_destroy h false else next) (fun _ => SI) s l t.
Proof.
  intros HS Ha Ho Hn.
  destruct (start_cases _ _ _ _ _ HS Ha (or_intror Ho)) as (B & W & Hst & Hu & Hc & _ & Hbuf).
  destruct (negb _); [|by apply Hn; auto].
  apply destroyed_SI; [done|by apply waiting_ended|by apply before_run_traced].
Qed.

Lemma on_resolved h s l0 o l t ec results :
  SI s l0 t -> after l0 o l -> is_connecting o = true ->
  on h (fs_resolve_done cfg system_ec h ec results) (fun _ => SI) s l t.
Proof.
  intros HS Ha Ho. unfold fs_resolve_done. destruct results as [|e es].
  { destruct (start_cases _ _ _ _ _ HS Ha (or_intror Ho)) as (B & W & Hst & _).
    apply destroyed_SI; [done|by apply waiting_ended|by apply before_run_traced]. }
  eapply on_connecting; [done..|]. intros B W Hst Hu Hc Hbuf.
  apply on_bind, on_ask. intros n. destruct (negb _).
  { apply destroyed_SI; [done|by apply waiting_ended|by apply before_run_traced]. }
  apply on_bind, on_modF, on_bind.
  assert (Hgo : forall l1, same_ops l l1 ->
    on h (f_start_op (FConnect h)) (fun _ => SI) (s <| f_out_open := true |>) l1 t).
  { intros l1 Hl. apply on_start_op; [done|done|]. pose proof Hl as (_ & _ & L3 & L4).
    eapply connecting_SI with (t := t); try done.
    - eapply base_same; [..|exact B]; [same|done].
    - eapply waiting_same; [..|exact W]; [same|done|same].
    - lia.
    - lia.
    - cbn. rewrite Hbuf. apply stream_some. }
  destruct (0 <? _); cbn [when]; [apply on_start_op; [done|done|]|apply on_skip]; apply Hgo; same.
Qed.

Lemma on_connected h s l0 o l t ec :
  SI s l0 t -> after l0 o l -> is_connecting o = true ->
  on h (fs_connect_done h ec) (fun _ => SI) s l t.
Proof.
  intros HS Ha Ho. eapply on_connecting; [done..|]. intros B W Hst Hu Hc Hbuf.
  apply on_start_op; [done|done|]. eapply connecting_SI; try done. rewrite Hbuf. apply stream_some.
Qed.

Lemma on_handshaken h d s l0 o l t ec :
  SI s l0 t -> after l0 o l -> is_connecting o = true ->
  on h (fs_ssl_done cfg dns_udp_timeout nat_bind_ok in_pipeline system_ec send_ec cancel_ec (S d) h ec)
    (fun _ => SI) s l t.
Proof.
  intros HS Ha Ho. eapply on_connecting; [done..|]. intros B W Hst Hu Hc Hbuf.
  eapply on_mono; [by apply on_ready|]. by intros _ s' l' t' [? _].
Qed.

(** A read has ended. *)
Lemma on_read_done h d s l0 o l t ec data :
  SI s l0 t -> after l0 o l -> is_reading o = true ->
  on h (fs_out_read_done cfg dns_udp_timeout send_ec cancel_ec (S d) h ec data) (fun _ => SI) s l t.
Proof.
  intros HS Ha Ho. destruct HS as [[B1 B2 B3 B4 B5] Hp].
  assert (Hk : is_sending o = false /\ is_unstarted o = false /\ is_connecting o = false)
    by (by destruct o).
  destruct Hk as (K1 & K2 & K3).
  pose proof (Ha is_sending) as A1. pose proof (Ha is_reading) as A2.
  pose proof (Ha is_unstarted) as A3. pose proof (Ha is_connecting) as A4.
  rewrite Ho in A2. rewrite K1, Z.add_0_r in A1. rewrite K2, Z.add_0_r in A3.
  rewrite K3, Z.add_0_r in A4. pose proof (cnt_nonneg is_reading l).
  destruct (read_buf_guard (f_out_read_buf s)) eqn:Eg; [|lia]. specialize (B2 eq_refl).
  unfold fs_out_read_done. apply on_bind, on_modF.
  assert (Hr0 : cnt is_reading l = 0) by lia.
  assert (Hend : ended (s <| f_out_read_buf ::= end_read |>) l t).
  { assert (E : ended s l0 t).
    { apply SI_ended. split; [|done]. split; rewrite ?Eg; done. }
    destruct E as [E1 E2 E3]. split; [done|done|]. rewrite <- A3, <- A4.
    intros [_ _ [_ ?] _ _ _]%E3. congruence. }
  destruct (negb _).
  { apply destroyed_SI; [by split; rewrite <- ?A3, <- ?A4|done|]. cbn. intros E. unfold phase in Hp.
    rewrite E in Hp. apply Hp. }
  apply on_bind, on_modF, on_bind, on_getF.
  match goal with |- on _ _ _ ?s' _ _ => set (s2 := s') end.
  assert (Hb2 : base s2 l) by (by split; rewrite <- ?A3, <- ?A4).
  destruct (alive s2) eqn:Eal.
  - assert (Hp2 : running s2 l t /\ (f_status s2 = F_FORWARD -> f_out_write_buf s2 = [] /\ cnt is_sending l = 0) /\
      (f_status s2 = F_FORWARDING -> cnt is_sending l = 1)).
    { change (f_status s2) with (f_status s). change (f_out_write_buf s2) with (f_out_write_buf s).
      unfold alive in Eal. change (f_status s2) with (f_status s) in Eal. unfold phase in Hp.
      assert (Hr : forall b, running s b t -> cnt is_unstarted b = cnt is_unstarted l ->
        cnt is_connecting b = cnt is_connecting l -> running s2 l t).
      { intros b [] E1 E2. by split; rewrite <- ?E1, <- ?E2. }
      rewrite <- A1. destruct (f_status s); try done; destruct Hp as (P1 & P2 & P3 & P4).
      - split; [by eapply Hr|]. by split.
      - split; [by eapply Hr|]. by split. }
    destruct Hp2 as (P1 & P2 & P3). by apply on_out_recv.
  - unfold fs_out_recv, fs_out_recv_. apply on_bind, on_getF. unfold alive in Eal. rewrite Eal.
    apply on_skip. split; [done|]. unfold phase in *. change (f_status s2) with (f_status s) in *.
    destruct (f_status s); try done.
    + destruct Hp as [[_ _ [_ ?] _ _ _] _]. congruence.
    + destruct Hend as [E1 E2 E3], Hp as [Hp Hne]. split; [|done]. split; [done|done|].
      rewrite <- A3, <- A4. intros [_ _ [_ ?] _ _ _]%Hp. congruence.
Qed.

(** Data that the pipeline hands to a session that has started. *)
Lemma on_pipe_data h d s l t data :
  SI s l t -> fpiped s = true -> f_status s = F_FORWARD \/ f_status s = F_FORWARDING ->
  on h (fs_pipeline_in_recv cfg dns_udp_timeout send_ec cancel_ec (S d) h data) (fun _ => SI) s l t.
Proof.
  intros [[B1 B2 B3 B4 B5] Hp] Hpi Hst. unfold fs_pipeline_in_recv. apply on_bind, on_getF, on_bind.
  assert (Hl : fwaits s = true /\ running s l t /\
    (f_status s = F_FORWARD -> f_out_write_buf s = [] /\ cnt is_sending l = 0) /\
    (f_status s = F_FORWARDING -> cnt is_sending l = 1)).
  { unfold phase, listening in Hp. rewrite Hpi in Hp.
    destruct Hst as [E|E]; rewrite E in *; destruct Hp as (P1 & P2 & P3 & P4); by split_and!. }
  destruct Hl as (Hw & Hr & H1 & H2). unfold pipeline_in_recv. unfold fpiped in Hpi. rewrite Hpi. cbn [negb].
  unfold ReadDataCache.push_data. unfold fwaits in Hw. rewrite Hw.
  apply on_lift; [done|done|]. intros r [= <-]. apply on_bind, on_modF. cbn [snd fst].
  apply on_out_recv; try done.
  - by apply B5.
  - unfold alive. cbn. by destruct Hst as [-> | ->].
  - by destruct Hr.
Qed.

End Session.
