(* ===== verification/UdpForwardTheorems.v ===== *)
(** * Forwarded datagrams: what follows for every run

    The invariant of one session ([UdpForwardProofs]) for all sessions of the
    listener, over every sequence of completions. *)

From Stdlib Require Import ZArith Lia.
From S2P Require Import Prelude Utils Address Trojan UdpPacket PipelineProto Caches ReadCache PipelineComponent Session.
From S2P Require Import UdpForward SessionLogic UdpForwardProofs.
Import Streambuf ReadBuf Stat Allocator PipelineComponent.
Local Open Scope Z_scope.
Local Open Scope handler_scope.

(** The parts of the world by their names *)
Ltac sw := cbn [sw_objs sw_pending sw_trace sw_alloc sw_rest op_this op_buf eff_this
  fworld_sessions fop_operation feffect_effect] in *.

Section World.
Context (cfg : Config) (run_nat : bool) (dns_udp_timeout : Z) (pipelined : bool).
Context (make_address : bytes -> option address) (v6_to_string : bytes -> bytes) (pw : bytes).
Context (nat_bind_ok in_pipeline : nat -> bool) (tproxy_target : nat -> bytes * Z).
Context (system_ec send_ec cancel_ec : nat -> error_code) (d : nat).
Hypothesis password_first : exists x rest, Session.password cfg = (pw, x) :: rest.
Hypothesis cancel_ok : forall n, cancel_ec n = 0.

Notation SI := (SI v6_to_string pw).
Notation stream := (stream v6_to_string pw).

Definition started_on (h : nat) (w : fworld) : Prop := h ∈ udp_sessions w -> tr h w <> [].

(** The invariant, and the invariant for all sessions but [x]. *)
Record WIx (x : option nat) (w : fworld) : Prop := {
  wi_lent : lent w;
  wi_sess : forall h s, Some h <> x -> f_objs w !! h = Some s ->
    SI s (ops h w) (tr h w) /\ started_on h w;
  wi_next : forall h, (f_next w <= h)%nat -> f_objs w !! h = None /\ tr h w = [] /\ h ∉ udp_sessions w;
  wi_gone : forall h, f_objs w !! h = None -> ops h w = [];
  wi_ids : ids_wf (f_ids w)
}.
Notation WI := (WIx None).

(** A handler of session [h] keeps the invariant of the others. *)
Lemma run_on {A} h (m : FM A) (Q : post A) w s :
  WIx (Some h) w -> f_objs w !! h = Some s -> on h m Q s (ops h w) (tr h w) ->
  (forall a s l t, tr h w `prefix_of` t -> Q a s l t -> SI s l t /\ (h ∈ udp_sessions w -> t <> [])) ->
  ok m w (fun a w' => WI w' /\ frame h w w' /\
    exists s', f_objs w' !! h = Some s' /\ Q a s' (ops h w') (tr h w')).
Proof.
  intros HW Hs Hon HQ. specialize (Hon w Hs eq_refl eq_refl (wi_lent _ _ HW)). unfold ok.
  destruct (m w) as [[a w']|e|u]; [|by left|done].
  destruct Hon as (F & L & s' & Hs' & Hq). split; [|eauto]. destruct HW as [W1 W2 W3 W4 W5].
  destruct F as [F1 F2 F3 F4 [= F5 F6 F7] F8 F9]. sw. split.
  - done.
  - intros k sk _ Hk. destruct (decide (k = h)) as [->|Hn].
    + rewrite Hs' in Hk. injection Hk as <-. destruct (HQ _ _ _ _ F8 Hq) as [Q1 Q2].
      split; [done|]. unfold started_on in *. by rewrite F5.
    + rewrite F1 in Hk by done. rewrite F2, F4 by done. unfold started_on. rewrite F5, F4 by done.
      apply W2; [congruence|done].
  - intros k Hk. rewrite F6 in Hk. destruct (W3 k Hk) as (K1 & K2 & K3).
    assert (k <> h) by congruence. by rewrite F1, F4, F5.
  - intros k Hk. destruct (decide (k = h)) as [->|]; [congruence|]. rewrite F2 by done.
    apply W4. by rewrite <- F1.
  - by rewrite F7.
Qed.

Lemma run_started {A} h (m : FM A) w s :
  WIx (Some h) w -> f_objs w !! h = Some s -> started_on h w ->
  on h m (fun _ => SI) s (ops h w) (tr h w) ->
  ok m w (fun _ w' => WI w' /\ frame h w w' /\ is_Some (f_objs w' !! h)).
Proof.
  intros HW Hs Hst Hon. eapply ok_mono; [eapply (run_on h); [done..|]|].
  - intros a s' l' t' [e ->] HS. split; [done|]. intros Hin [? _]%app_eq_nil. by apply Hst.
  - intros a w' (H1 & H2 & s' & H3 & _). eauto.
Qed.

Lemma WI_weaken x w : WI w -> WIx x w.
Proof. intros []. split; auto. Qed.

(** *** The end of an operation *)

Definition without (w : fworld) (i : nat) : fworld := w <| f_pending ::= delete i |>.
Lemma without_ended w i : ended_op w i (without w i).
Proof. by split. Qed.
Lemma ops_without w i o h :
  f_pending w !! i = Some o -> fop_this o = Some h -> after (ops h w) o (ops h (without w i)).
Proof. intros Hi Ho. eapply ops_after; [apply without_ended|done|done]. Qed.

Lemma ended_op_WI w i o : WI w -> f_pending w !! i = Some o -> WIx (fop_this o) (without w i).
Proof.
  intros [W1 W2 W3 W4 W5] Hi. pose proof (without_ended w i) as He. split.
  - by eapply ended_op_lent.
  - intros h s Hh Hs. rewrite (ops_other _ _ _ _ _ He Hi) by done. by apply W2.
  - done.
  - intros h Hh. eapply ended_op_nil; [done..|]. by apply W4.
  - done.
Qed.
Lemma op_session w i o h :
  WI w -> f_pending w !! i = Some o -> fop_this o = Some h -> is_Some (f_objs w !! h).
Proof.
  intros HW Hi Hh. destruct (f_objs w !! h) eqn:E; [done|]. apply (wi_gone _ _ HW) in E.
  apply list_elem_of_lookup_2 in Hi.
  assert (Hin : o ∈ ops h w) by (by apply list_elem_of_filter). rewrite E in Hin. set_solver.
Qed.

(** A lent buffer can be given back. *)
Lemma ok_free x b w :
  WIx x w -> b ∈ allocated (f_alloc w) ->
  ok (f_free_buf b) w (fun _ w' => WIx x w' /\ f_objs w' = f_objs w /\ f_pending w' = f_pending w /\
    f_trace w' = f_trace w /\ udp_sessions w' = udp_sessions w).
Proof.
  intros [[L1 L2] W2 W3 W4 W5] Hb. unfold ok, f_free_buf, free. rewrite bool_decide_true by done.
  split; [|done]. split; try done. split; cbn; [exact L1|]. intros b' [Hin|Hin]%elem_of_app; [auto|].
  by apply list_elem_of_singleton in Hin as ->.
Qed.

Lemma WI_of h w s :
  WIx (Some h) w -> f_objs w !! h = Some s -> SI s (ops h w) (tr h w) -> started_on h w -> WI w.
Proof.
  intros [W1 W2 W3 W4 W5] Hs HS Hst. split; try done. intros k sk _ Hk.
  destruct (decide (k = h)) as [->|]; [|apply W2; congruence]. rewrite Hs in Hk. by injection Hk as <-.
Qed.

Lemma sv_started_ok h b ec w s :
  WIx (Some h) w -> f_objs w !! h = Some s -> base s (ops h w) ->
  waiting v6_to_string pw s (ops h w) (tr h w) ->
  before_run s (tr h w) -> cnt is_unstarted (ops h w) = 0 -> cnt is_connecting (ops h w) = 0 -> dgs (tr h w) = [] ->
  (f_status s = F_CONNECT -> tr h w = [] \/ f_out_write_buf s <> []) ->
  started_on h w -> b ∈ allocated (f_alloc w) ->
  ok (sv_started cfg dns_udp_timeout v6_to_string nat_bind_ok in_pipeline system_ec send_ec cancel_ec
        (S d) h b ec) w (fun _ => WI).
Proof.
  intros HW Hs B W Hst Hu Hc Hd Hn Hon Hb. unfold sv_started. apply ok_bind. destruct (ec =? 0).
  - apply ok_bind, ok_modify. set (w1 := w <| udp_sessions ::= fun l => l ++ [h] |>).
    assert (HW1 : WIx (Some h) w1).
    { destruct HW as [W1 W2 W3 W4 W5]. split; try done.
      - intros k sk Hk Hsk. destruct (W2 k sk Hk Hsk) as [A1 A2]. split; [done|].
        intros Hin. apply A2. cbn in Hin. set_solver.
      - intros k Hk. destruct (W3 k Hk) as (A1 & A2 & A3). split; [done|]. split; [done|]. cbn.
        assert (k <> h) by congruence. set_solver. }
    apply ok_bind, ok_gets.
    eapply ok_mono; [eapply (run_on h _ _ w1 s HW1 Hs)|].
    + apply (on_start_udp cfg dns_udp_timeout v6_to_string pw nat_bind_ok in_pipeline system_ec send_ec
        cancel_ec password_first cancel_ok h d); done.
    + cbn beta. intros _ s' l' t' _ [A1 A2]. split; [done|]. by intros _.
    + intros _ w2 (HW2 & F & _). eapply ok_mono; [apply ok_free; [done|]|]; [|by intros _ w3 [? _]].
      by apply (fr_alloc _ _ _ F).
  - apply ok_ret.
    assert (HWI : WI w).
    { eapply WI_of; [done..| |done]. split; [done|]. unfold phase.
      destruct Hst as [E|[E ?]]; rewrite E; [by split; auto|by split; [apply waiting_ended|]]. }
    eapply ok_mono; [by apply ok_free|]. by intros _ w3 [? _].
Qed.

(** *** The listener *)

Lemma ok_allocate x data w :
  WIx x w ->
  ok (f_allocate_buf data) w (fun b w' => WIx x w' /\ b ∈ allocated (f_alloc w') /\
    f_objs w' = f_objs w /\ f_pending w' = f_pending w /\ f_trace w' = f_trace w /\
    udp_sessions w' = udp_sessions w).
Proof.
  intros [[L1 L2] W2 W3 W4 W5]. unfold ok, f_allocate_buf.
  destruct (allocate (f_alloc w) data) as [b a] eqn:Ea.
  destruct (allocate_known _ _ _ _ Ea L2) as (K1 & K2 & K3). split; [|done]. split; try done.
  split; [|done]. intros o b' Hin Hb. eauto.
Qed.

(** A new session knows nothing yet. *)
Lemma new_forward_facts ep dst nat_ dns id s :
  new_forward cfg make_address ep dst nat_ dns id = Ret s ->
  base s [] /\ waiting v6_to_string pw s [] [] /\ f_status s = F_CONNECT /\ fpiped s = false /\
  f_out_write_buf s = [] /\ f_recv_endpoint s = ep.
Proof.
  unfold new_forward. destruct (make_address _); [|done]. intros [= <-].
  split; [by split|]. split; [|done]. split; try done. by left.
Qed.

Lemma started_op_WI h w s o :
  WIx (Some h) w -> f_objs w !! h = Some s -> fop_this o = Some h ->
  (forall b, fop_buf o = Some b -> b ∈ allocated (f_alloc w)) ->
  SI s (ops h w ++ [o]) (tr h w) -> started_on h w ->
  WI (w <| f_pending ::= fun l => l ++ [o] |>).
Proof.
  intros [W1 W2 W3 W4 W5] Hs Ho Hb HS Hst.
  assert (Ht : started o w (w <| f_pending ::= fun l => l ++ [o] |>)) by (by split).
  assert (Hf : frame h w (w <| f_pending ::= fun l => l ++ [o] |>)) by (by eapply started_frame).
  destruct Hf as [F1 F2 F3 F4 _ F8 F9]. sw.
  eapply (WI_of h _ s); [|done| |done]; [|by erewrite started_ops].
  split; try done.
  - by eapply started_lent.
  - intros k sk Hk Hsk. rewrite F2, F4 by congruence. by apply W2.
  - intros k Hk. destruct (decide (k = h)) as [->|]; [cbn in Hk; congruence|].
    rewrite F2 by done. by apply W4.
Qed.

Lemma ok_new_session ep dst data w :
  WI w ->
  ok (sv_new_udp_session cfg run_nat dns_udp_timeout pipelined make_address v6_to_string nat_bind_ok
        in_pipeline system_ec send_ec cancel_ec (S d) ep dst data) w (fun _ => WI).
Proof.
  intros HW. unfold sv_new_udp_session. apply ok_bind, ok_gets. cbn zeta. unfold id at 1 2 3.
  set (h := f_next w). apply ok_bind. unfold ok at 1, lift at 1.
  destruct (Z_lt_le_dec (Z.of_nat (size (s_session_used_ids (f_ids w)))) 65535) as [Hi|Hi].
  2:{ rewrite allocate_session_id_full by done. by right. }
  destruct (allocate_session_id_ok _ (wi_ids _ _ HW) Hi) as (id' & ids' & -> & _ & _ & _ & Hids).
  apply ok_bind. unfold ok at 1, lift at 1. cbn [fst snd].
  destruct (new_forward _ _ _ _ _ _ _) as [s|e|u] eqn:En.
  2:{ unfold new_forward in En. destruct (make_address _); [done|]. injection En as <-. by left. }
  2:{ unfold new_forward in En. by destruct (make_address _). }
  apply new_forward_facts in En as (B & W & Hst & Hp & Hbuf & _).
  destruct (wi_next _ _ HW h (le_n _)) as (N1 & N2 & N3). pose proof (wi_gone _ _ HW h N1) as N4.
  apply ok_bind, ok_modify. match goal with |- ok _ ?w' _ => set (w1 := w') end.
  assert (HW1 : WIx (Some h) w1).
  { destruct HW as [W1 W2 W3 W4 W5]. split; try done.
    - intros k sk Hk. cbn. rewrite lookup_insert_ne by congruence. by apply W2.
    - intros k Hk. cbn in Hk. assert (f_next w <= k)%nat by lia. assert (h <> k) by (subst h; lia).
      cbn. rewrite lookup_insert_ne by done. by apply W3.
    - intros k. cbn. intros [? _]%lookup_insert_None. by apply W4. }
  apply ok_bind. eapply ok_mono; [by apply ok_allocate|].
  intros b w2 (HW2 & Hb & O1 & O2 & O3 & O4).
  assert (Hs2 : f_objs w2 !! h = Some s) by (rewrite O1; apply lookup_insert_eq).
  assert (Hops : ops h w2 = []) by (unfold ops; sw; rewrite O2; exact N4).
  assert (Htr : tr h w2 = []) by (unfold tr; sw; rewrite O3; exact N2).
  destruct pipelined.
  - apply ok_bind, ok_modify, ok_modify. change (f_next (id w)) with h.
    match goal with |- WIx _ (?w' <| f_pending ::= _ |>) => set (w3 := w') end.
    set (s3 := s <| f_com ::= set_use_pipeline |>).
    assert (Hs3 : f_objs w3 !! h = Some s3).
    { subst w3. cbn. by rewrite lookup_alter_eq, Hs2. }
    assert (HW3 : WIx (Some h) w3).
    { destruct HW2 as [W1 W2 W3 W4 W5]. split; try done.
      - intros k sk Hk. subst w3. cbn. rewrite lookup_alter_ne by congruence. by apply W2.
      - intros k Hk. destruct (W3 k Hk) as (A1 & A2 & A3). subst w3. cbn.
        assert (h <> k) by congruence. by rewrite lookup_alter_ne.
      - intros k. subst w3. cbn. rewrite lookup_alter_None. by apply W4. }
    assert (Hb3 : b ∈ allocated (f_alloc w3)) by done.
    apply (started_op_WI h w3 s3); try done.
    + by intros b' [= <-].
    + change (ops h w3) with (ops h w2). change (tr h w3) with (tr h w2). rewrite Hops, Htr.
      destruct B, W. split; [split; try done; intros _; apply wt_idle|].
      unfold phase. change (f_status s3) with (f_status s). rewrite Hst.
      split; [by split|by left].
    + intros Hin. change (udp_sessions w3) with (udp_sessions w2) in Hin. rewrite O4 in Hin. done.
  - apply (sv_started_ok h b 0 w2 s); rewrite ?Hops, ?Htr; try done.
    + by left.
    + by left.
    + intros Hin. rewrite O4 in Hin. done.
Qed.

(** Sessions that are alive are offered the datagram. *)
Lemma ok_offer l ep data w :
  WI w -> (forall h, h ∈ l -> is_Some (f_objs w !! h) /\ h ∈ udp_sessions w) ->
  ok (sv_offer cfg dns_udp_timeout v6_to_string in_pipeline cancel_ec l ep data) w (fun _ => WI).
Proof.
  revert w. induction l as [|h l IH]; intros w HW Hl; cbn [sv_offer]; [by apply ok_ret|].
  destruct (Hl h) as [[s Hs] Hin]; [set_solver|].
  destruct (wi_sess _ _ HW h s) as [HS Hst]; [done..|].
  apply ok_bind. eapply ok_mono.
  - eapply (run_started h _ w s); [by apply WI_weaken|done|done|].
    unfold fs_process. apply on_bind, on_getF. destruct (negb _); [by apply on_ret|].
    apply on_bind. eapply on_mono; [apply (on_in_recv cfg dns_udp_timeout v6_to_string pw); auto|].
    + intros E. destruct HS as [_ HS]. unfold phase in HS. rewrite E in HS.
      destruct HS as [_ [?|?]]; [|done]. by destruct Hst.
    + intros _ s' l' t' (A1 & _). by apply on_ret.
  - intros b w' (HW' & F & s' & Hs'). destruct b; [by apply ok_ret|]. apply IH; [done|].
    intros k Hk. destruct (Hl k) as [K1 K2]; [set_solver|]. destruct F as [F1 _ _ _ [= F5 _ _] _ _]. sw.
    rewrite F5. split; [|done]. destruct (decide (k = h)) as [->|]; [eauto|]. by rewrite F1.
Qed.

Lemma ok_listen w : WI w -> ok sv_udp_async_read w (fun _ => WI).
Proof.
  intros [[L1 L2] W2 W3 W4 W5]. apply ok_bind, ok_modify, ok_modify.
  assert (Ho : forall k, ops k (w <| udp_read_buf ::= consume_all |> <| f_pending ::= fun l => l ++ [FUdpRecv] |>)
    = ops k w).
  { intros k. unfold ops. cbn. rewrite list.filter_app. cbn. apply app_nil_r. }
  split; try done.
  - split; [|done]. intros o b [Hin|Hin]%elem_of_app; [by apply L1|].
    by apply list_elem_of_singleton in Hin as ->.
  - intros h s Hh Hs. rewrite Ho. by apply W2.
  - intros h Hh. rewrite Ho. by apply W4.
Qed.

Lemma ok_udp_recv ec data from w :
  WI w ->
  ok (sv_udp_recv cfg run_nat dns_udp_timeout pipelined make_address v6_to_string nat_bind_ok
        in_pipeline tproxy_target system_ec send_ec cancel_ec (S d) ec data from) w (fun _ => WI).
Proof.
  intros HW. unfold sv_udp_recv. destruct (_ =? _); [by apply ok_ret|].
  destruct (negb _); [by left|]. apply ok_bind, ok_modify, ok_bind.
  match goal with |- ok _ ?w' _ => set (w1 := w') end.
  assert (HW1 : WI w1) by (by destruct HW). clearbody w1.
  assert (Hdst : ok (if run_nat then f_ask tproxy_target else ret (target_addr cfg, target_port cfg)) w1
    (fun _ => WI)).
  { destruct run_nat; [|by apply ok_ret]. unfold ok, f_ask. by destruct HW1. }
  eapply ok_mono; [exact Hdst|]. clear Hdst HW1 w1. intros dst w1 HW1.
  destruct (negb _); [|by apply ok_listen]. apply ok_bind, ok_modify.
  match goal with |- ok _ ?w' _ => set (w2 := w') end.
  assert (Hsub : forall h, h ∈ udp_sessions w2 -> is_Some (f_objs w2 !! h) /\ h ∈ udp_sessions w1).
  { intros h. subst w2. cbn. rewrite (proj1 (clear_weak_ptr_list_spec _ _)).
    intros [Hh1 Hh2]%list_elem_of_filter. apply negb_false_iff, bool_decide_eq_true in Hh1. done. }
  assert (HW2 : WI w2).
  { destruct HW1 as [W1 W2 W3 W4 W5]. split; try done.
    - intros h s Hh Hs. destruct (W2 h s Hh Hs) as [A1 A2]. split; [done|].
      intros Hin. apply A2. by apply Hsub.
    - intros h Hh. destruct (W3 h Hh) as (A1 & A2 & A3). split; [done|]. split; [done|].
      intros Hin. by apply A3, Hsub. }
  clearbody w2. apply ok_bind, ok_gets, ok_bind. eapply ok_mono; [apply ok_offer; [done|]|].
  { intros h Hh. split; [by apply Hsub|done]. }
  intros b w3 HW3. destruct b; [by apply ok_listen|].
  apply ok_bind, ok_gets, ok_bind. eapply ok_mono; [by apply ok_new_session|].
  intros a w4 HW4. by apply ok_listen.
Qed.

(** *** Completions and the other events *)

Lemma ok_session h o i w (m : FM unit) :
  WI w -> f_pending w !! i = Some o -> fop_this o = Some h ->
  (forall s l, SI s (ops h w) (tr h w) -> after (ops h w) o l -> on h m (fun _ => SI) s l (tr h w)) ->
  ok m (without w i) (fun _ => WI).
Proof.
  intros HW Hi Ho Hm. destruct (op_session _ _ _ _ HW Hi Ho) as [s Hs].
  destruct (wi_sess _ _ HW h s) as [HS Hst]; [done..|].
  pose proof (ended_op_WI _ _ _ HW Hi) as HW1. rewrite Ho in HW1.
  eapply ok_mono; [eapply (run_started h _ _ s); [done|done|done|]|].
  - apply Hm; [done|by apply ops_without].
  - by intros a w' [? _].
Qed.

(** The same for a handler that first gives back the buffer of its write. *)
Lemma ok_write_done h b ec i w :
  WI w -> f_pending w !! i = Some (FOutWrite h b) ->
  ok (fs_out_write_done in_pipeline h b ec) (without w i) (fun _ => WI).
Proof.
  intros HW Hi. destruct (op_session _ _ _ _ HW Hi eq_refl) as [s Hs].
  destruct (wi_sess _ _ HW h s) as [HS Hst]; [done..|].
  pose proof (ended_op_WI _ _ _ HW Hi) as HW1. unfold fs_out_write_done. apply ok_bind.
  eapply ok_mono; [apply (ok_free (Some h)); [done|]|].
  { destruct (wi_lent _ _ HW) as [L1 _]. eapply L1; [by eapply list_elem_of_lookup_2|done]. }
  intros a w1 (HW2 & O1 & O2 & O3 & O4).
  assert (E1 : ops h w1 = ops h (without w i)) by (unfold ops; sw; by rewrite O2).
  assert (E2 : tr h w1 = tr h w) by (unfold tr; sw; by rewrite O3).
  eapply ok_mono; [eapply (run_started h _ w1 s); [done|by rewrite O1|..]|by intros ? ? [? _]].
  - unfold started_on. by rewrite E2, O4.
  - rewrite E1, E2. eapply on_sent; [done|by apply ops_without|done].
Qed.

Lemma same_after l0 o l :
  after l0 o l -> is_sending o = false -> is_reading o = false -> is_unstarted o = false ->
  is_connecting o = false -> same_ops l0 l.
Proof.
  intros Ha E1 E2 E3 E4.
  pose proof (Ha is_sending). pose proof (Ha is_reading). pose proof (Ha is_unstarted).
  pose proof (Ha is_connecting). rewrite E1, E2, E3, E4 in *. repeat split; lia.
Qed.

Lemma SI_after s l0 o l t :
  SI s l0 t -> after l0 o l -> is_sending o = false -> is_reading o = false ->
  is_unstarted o = false -> is_connecting o = false -> SI s l t.
Proof. intros HS Ha E1 E2 E3 E4. eapply SI_same; [done|by eapply same_after|done]. Qed.

Notation complete := (f_complete cfg run_nat dns_udp_timeout pipelined make_address v6_to_string
  nat_bind_ok in_pipeline tproxy_target system_ec send_ec cancel_ec (S d)).

Lemma ok_complete o c i w :
  WI w -> f_pending w !! i = Some o -> f_answers cfg o c = true ->
  ok (complete o c) (without w i) (fun _ => WI).
Proof.
  intros HW Hi Ha.
  destruct o as [|h b|h|h|h b|h|h|h|h|h n]; destruct c as [ec|ec data from|ec results]; try discriminate;
    cbn [f_complete].
  - apply ok_udp_recv. by apply (ended_op_WI _ _ _ HW Hi).
  - destruct (op_session _ _ _ _ HW Hi eq_refl) as [s Hs].
    destruct (wi_sess _ _ HW h s) as [HS Hst]; [done..|].
    destruct (start_cases _ _ _ _ _ _ _ HS (ops_without w i _ h Hi eq_refl)) as (B & W & Hbr & Hu & Hc & Hd & _);
      [by left|].
    apply (sv_started_ok h b ec _ s); try done.
    + by apply (ended_op_WI _ _ _ HW Hi).
    + by apply Hd.
    + destruct HS as [_ HS]. unfold phase in HS. intros E. rewrite E in HS. apply HS.
    + destruct (wi_lent _ _ HW) as [L1 _]. eapply L1; [by eapply list_elem_of_lookup_2|done].
  - eapply ok_session; [done..|]. intros s l HS Hl. by eapply on_sent.
  - eapply ok_session; [done..|]. intros s l HS Hl. by eapply on_read_done.
  - by apply ok_write_done.
  - eapply ok_session; [done..|]. intros s l HS Hl. by eapply on_resolved.
  - eapply ok_session; [done..|]. intros s l HS Hl. by eapply on_connected.
  - eapply ok_session; [done..|]. intros s l HS Hl. assert (SI s l (tr h w)) by (by eapply SI_after).
    destruct (ec =? 0); [by apply on_destroy_SI|by apply on_skip].
  - eapply ok_session; [done..|]. intros s l HS Hl. by eapply on_handshaken.
  - eapply ok_session; [done..|]. intros s l HS Hl. apply on_fired. by eapply SI_after.
Qed.

Notation step := (f_step cfg run_nat dns_udp_timeout pipelined make_address v6_to_string
  nat_bind_ok in_pipeline tproxy_target system_ec send_ec cancel_ec (S d)).

(** Data that a pipeline hands to a session before it has started. *)
Definition early (w : fworld) (e : fevent) : bool :=
  match e with
  | FPipeData h _ =>
    match f_objs w !! h with Some s => bool_decide (f_status s = F_CONNECT) | None => false end
  | _ => false
  end.

Lemma ok_step e w : WI w -> early w e = false -> ok (step e) w (fun _ => WI).
Proof.
  intros HW He. destruct e as [i c|tm|h data|h|h]; cbn [f_step].
  - apply ok_bind, ok_gets. change (f_pending (id w)) with (f_pending w).
    destruct (f_pending w !! i) as [o|] eqn:Hi; [|by apply ok_ret].
    destruct (f_answers cfg o c) eqn:Ha; [|by apply ok_ret].
    apply ok_bind, ok_modify. by apply ok_complete.
  - apply ok_modify. by destruct HW.
  - apply ok_bind, ok_gets. change (f_objs (id w)) with (f_objs w). cbn in He.
    destruct (f_objs w !! h) as [s|] eqn:Hs; [|by apply ok_ret].
    destruct (_ && _) eqn:E; [|by apply ok_ret]. bool_facts. cbn [when].
    destruct (wi_sess _ _ HW h s) as [HS Hst]; [done..|].
    eapply ok_mono; [eapply (run_started h _ w s); [by apply WI_weaken|done|done|]|by intros ? ? [? _]].
    apply on_pipe_data; [done|done|done|]. destruct (f_status s); auto; done.
  - apply ok_bind, ok_gets. change (f_objs (id w)) with (f_objs w).
    destruct (f_objs w !! h) as [s|] eqn:Hs; [|by apply ok_ret].
    destruct (m_is_use_pipeline _); [|by apply ok_ret]. cbn [when].
    destruct (wi_sess _ _ HW h s) as [HS Hst]; [done..|].
    eapply ok_mono; [eapply (run_started h _ w s); [by apply WI_weaken|done|done|]|by intros ? ? [? _]].
    by apply on_destroy_SI.
  - apply ok_bind, ok_gets. change (f_objs (id w)) with (f_objs w).
    change (f_pending (id w)) with (f_pending w).
    destruct (f_objs w !! h) as [s|] eqn:Hs; [|by apply ok_ret].
    destruct (_ && _) eqn:E; [|by apply ok_ret]. bool_facts. cbn [when]. apply ok_modify.
    destruct HW as [W1 W2 W3 W4 W5].
    assert (Hops : ops h w = []).
    { destruct (ops h w) as [|o l] eqn:Eo; [done|]. assert (Hin : o ∈ ops h w) by (rewrite Eo; set_solver).
      apply list_elem_of_filter in Hin as [Ho Hin]. apply list_elem_of_In in Hin.
      rewrite forallb_forall in H0. specialize (H0 o Hin). bool_facts. done. }
    assert (Hlt : (h < f_next w)%nat).
    { destruct (Nat.lt_ge_cases h (f_next w)) as [?|Hge]; [done|]. destruct (W3 h Hge). congruence. }
    split; try done.
    + intros k sk _ Hk. cbn in Hk. apply lookup_delete_Some in Hk as [? Hk]. by apply W2.
    + intros k Hk. destruct (W3 k Hk) as (A1 & A2 & A3). cbn. split; [|done].
      by apply lookup_delete_None; right.
    + intros k. cbn. intros [->|Hk]%lookup_delete_None; [done|]. by apply W4.
    + destruct W5 as [I1 I2]. split; [done|]. cbn. intros j. set_solver.
Qed.

(** ** Runs *)

Inductive f_reachable : fworld -> Prop :=
| f_reach_start w : sv_udp_async_read f_init = Ret (tt, w) -> f_reachable w
| f_reach_step w e w' :
    f_reachable w -> early w e = false -> step e w = Ret (tt, w') -> f_reachable w'.

Lemma f_reachable_WI w : f_reachable w -> WI w.
Proof.
  induction 1 as [w Hw|w e w' _ IH He Hw].
  - assert (H0 : WI f_init).
    { split; try done.
      - split; [intros o b Hin|intros b Hin]; cbn in Hin; set_solver.
      - intros h _. cbn. split; [done|]. split; [done|]. set_solver. }
    pose proof (ok_listen _ H0) as H1. unfold ok in H1. by rewrite Hw in H1.
  - pose proof (ok_step e w IH He) as H1. unfold ok in H1. by rewrite Hw in H1.
Qed.


(** C13: in every run, what a forwarding session has handed to its carrier is a
    prefix of the request followed by one packet for each datagram of its
    source, in order, nothing lost or doubled; once it is idle it is all of it;
    one write and one read are in progress at most. *)
Theorem udp_forward_sends_in_order w h s :
  f_reachable w -> f_objs w !! h = Some s ->
  fouts (tr h w) `prefix_of` stream (f_out_endpoint s) (dgs (tr h w)) /\
  (f_status s = F_FORWARD -> fouts (tr h w) = stream (f_out_endpoint s) (dgs (tr h w))) /\
  (f_status s = F_FORWARDING ->
     fouts (tr h w) ++ f_out_write_buf s = stream (f_out_endpoint s) (dgs (tr h w)) /\
     cnt is_sending (ops h w) = 1) /\
  (f_status s <> F_DESTROY -> cnt is_sending (ops h w) <= 1) /\ cnt is_reading (ops h w) <= 1.
Proof.
  intros HR Hs. destruct (wi_sess _ _ (f_reachable_WI w HR) h s) as [HS _]; [done..|].
  pose proof (SI_ended _ _ _ _ _ HS) as [E1 _ _]. destruct HS as [[B1 _ _ _ _] Hp]. unfold phase in Hp.
  split; [destruct E1 as [->|?]; [apply prefix_nil|done]|].
  split; [|split; [|split]].
  - intros E. rewrite E in Hp. destruct Hp as ([_ _ R] & _ & _ & Hbuf & _). by rewrite Hbuf, app_nil_r in R.
  - intros E. rewrite E in Hp. destruct Hp as ([_ _ R] & _ & _ & ?). done.
  - destruct (f_status s); intros; [destruct Hp as [[_ _ [? _] _ _ _] _]; lia|lia|lia|done].
  - rewrite B1. by destruct (read_buf_guard _).
Qed.

(** C16: in every run, the datagrams a forwarding session has handed back to its
    source are the payloads of the packets at the head of the stream received
    from the server, in order, all for that source; while the session lives the
    rest of the stream waits in its buffer and has no whole packet. *)
Theorem udp_forward_replies_in_order w h s :
  f_reachable w -> f_objs w !! h = Some s ->
  exists packets wires rest, Forall2 UDPPacket.wire packets wires /\
    fins (tr h w) = concat wires ++ rest /\
    replies (tr h w) = map (fun p => (f_recv_endpoint s, UDPPacket.payload p)) packets /\
    (f_status s = F_FORWARD \/ f_status s = F_FORWARDING ->
       rest = f_udp_data_buf s /\ settled rest /\ listening s (ops h w)).
Proof.
  intros HR Hs. destruct (wi_sess _ _ (f_reachable_WI w HR) h s) as [HS _]; [done..|].
  destruct (alive s) eqn:Ea.
  - assert (Hr : received (f_recv_endpoint s) (tr h w) (f_udp_data_buf s) /\
      settled (f_udp_data_buf s) /\ listening s (ops h w)).
    { destruct HS as [_ Hp]. unfold phase in Hp. unfold alive in Ea.
      destruct (f_status s); try done; by destruct Hp as ([_ ? _] & ? & ? & _). }
    destruct Hr as ((ps & ws & H1 & H2 & H3) & H4 & H5). by exists ps, ws, (f_udp_data_buf s).
  - pose proof (SI_ended _ _ _ _ _ HS) as [_ (rest & ps & ws & H1 & H2 & H3) _].
    exists ps, ws, rest. split_and!; try done. unfold alive in Ea. intros [E|E]; by rewrite E in Ea.
Qed.

(** A stream is made of packets in one way. *)
Lemma packets_unique ps ws rest ps' ws' rest' :
  Forall2 UDPPacket.wire ps ws -> Forall2 UDPPacket.wire ps' ws' -> settled rest -> settled rest' ->
  concat ws ++ rest = concat ws' ++ rest' -> ps = ps' /\ ws = ws' /\ rest = rest'.
Proof.
  intros H. revert ps' ws'. induction H as [|p w ps ws Hw H IH]; intros ps' ws' H' Hs Hs' E.
  - destruct H' as [|p' w' ps' ws' Hw' H']; [done|]. cbn in E. rewrite <- app_assoc in E.
    exfalso. eapply (Hs p'). cbn in E. rewrite E. by apply UDPPacket.packet_parse_wire.
  - destruct H' as [|p' w' ps' ws' Hw' H']; cbn in E; rewrite <- app_assoc in E.
    { exfalso. eapply (Hs' p). rewrite <- E. by apply UDPPacket.packet_parse_wire. }
    rewrite <- app_assoc in E.
    pose proof (UDPPacket.packet_parse_wire p w (concat ws ++ rest) Hw) as P1.
    rewrite E, (UDPPacket.packet_parse_wire p' w' (concat ws' ++ rest') Hw') in P1.
    injection P1 as -> Hl. apply app_inj_1 in E as [-> E]; [|unfold zlen in Hl; lia].
    by destruct (IH ps' ws' H' Hs Hs' E) as (-> & -> & ->).
Qed.

(** When what a living session has received is what the server side frames
    for a list of datagrams, however the stream was cut on its way, the session
    has handed exactly these datagrams to its source, in order. *)
Theorem udp_forward_answers_exactly w h s (sent : list (endpoint * bytes)) :
  f_reachable w -> f_objs w !! h = Some s -> f_status s = F_FORWARD \/ f_status s = F_FORWARDING ->
  Forall (fun x => address_wf (ep_address (fst x)) /\ 0 <= ep_port (fst x) < 65536 /\ zlen (snd x) < 65536) sent ->
  fins (tr h w) = concat (map (fun x => UDPPacket.generate_endpoint [] (fst x) (snd x)) sent) ->
  replies (tr h w) = map (fun x => (f_recv_endpoint s, snd x)) sent /\ f_udp_data_buf s = [].
Proof.
  intros HR Hs Ha Hwf Hin. destruct (wi_sess _ _ (f_reachable_WI w HR) h s) as [HS _]; [done..|].
  assert (Hr : received (f_recv_endpoint s) (tr h w) (f_udp_data_buf s) /\ settled (f_udp_data_buf s)).
  { destruct HS as [_ Hp]. unfold phase in Hp. destruct Ha as [E|E]; rewrite E in Hp;
      by destruct Hp as ([_ ? _] & _ & ? & _). }
  destruct Hr as ((ps & ws & H1 & H2 & H3) & H4).
  set (qs := map (fun x => UDPPacket.mkUDPPacket (Socks5.socks5_of_endpoint (fst x)) (zlen (snd x)) (snd x)) sent).
  assert (Hq : Forall2 UDPPacket.wire qs (map (fun x => UDPPacket.generate_endpoint [] (fst x) (snd x)) sent)).
  { subst qs. clear -Hwf. induction Hwf as [|x l (X1 & X2 & X3) _ IH]; cbn; constructor; [|done].
    destruct (UDPPacket.generate_endpoint_wire [] (fst x) (snd x) X1 X2 X3) as (w & -> & Hw). done. }
  rewrite Hin, <- (app_nil_r (concat (map _ sent))) in H2.
  destruct (packets_unique qs _ [] ps ws (f_udp_data_buf s) Hq H1) as (E1 & _ & E3); [by intros p n|done|done|].
  rewrite H3, <- E1, <- E3. subst qs. split; [|done]. rewrite map_map. done.
Qed.

(** *** Which session gets a datagram *)

Fixpoint first_from (w : fworld) (ep : endpoint) (l : list nat) : option nat :=
  match l with
  | [] => None
  | h :: l =>
    match f_objs w !! h with
    | Some s => if bool_decide (ep = f_recv_endpoint s) then Some h else first_from w ep l
    | None => None
    end
  end.

(** A datagram is offered to the first session of its source, which takes
    it whatever state it is in (a destroyed session drops it); no session of
    another source sees it, and when there is none nothing changes. *)
Theorem udp_datagram_dispatch w ep data l :
  Forall (fun h => is_Some (f_objs w !! h)) l ->
  sv_offer cfg dns_udp_timeout v6_to_string in_pipeline cancel_ec l ep data w =
  match first_from w ep l with
  | Some h => (fs_in_recv cfg dns_udp_timeout v6_to_string in_pipeline cancel_ec h data ;;; ret true) w
  | None => Ret (false, w)
  end.
Proof.
  induction 1 as [|h l [s Hs] _ IH]; [done|]. cbn [sv_offer first_from]. rewrite Hs.
  unfold bind at 1, fs_process, bind at 1, getF. rewrite Hs.
  destruct (bool_decide (ep = f_recv_endpoint s)); cbn [negb]; [|exact IH].
  unfold bind. by destruct (fs_in_recv _ _ _ _ _ _ _ _) as [[]| |].
Qed.

(** *** Data before the start *)

(** A session on a pipeline whose cache holds one whole packet. *)
Definition holds_packet (h : nat) (packet : bytes) (w : fworld) : Prop :=
  exists s, f_objs w !! h = Some s /\ fpiped s = true /\ f_status s = F_FORWARDING /\
    fqueue s = packet /\ f_udp_data_buf s = [].

(** [m] returns, in [Q]. *)
Definition gives {A} (m : FM A) (w : fworld) (Q : A -> fworld -> Prop) : Prop :=
  exists a w', m w = Ret (a, w') /\ Q a w'.
Lemma gives_bind {A B} (m : FM A) (k : A -> FM B) w Q :
  gives m w (fun a w' => gives (k a) w' Q) -> gives (bind m k) w Q.
Proof. intros (a & w1 & E & b & w2 & E2 & H). exists b, w2. unfold bind. by rewrite E. Qed.
Lemma gives_now {A} (m : FM A) w a w' (Q : A -> fworld -> Prop) :
  m w = Ret (a, w') -> Q a w' -> gives m w Q.
Proof. by exists a, w'. Qed.
Lemma gives_mono {A} (m : FM A) w (P Q : A -> fworld -> Prop) :
  gives m w P -> (forall a w', P a w' -> Q a w') -> gives m w Q.
Proof. intros (a & w' & E & H) HQ. exists a, w'. auto. Qed.
Lemma gives_getF h w s (Q : UDPForwardSession -> fworld -> Prop) :
  f_objs w !! h = Some s -> Q s w -> gives (getF h) w Q.
Proof. intros E H. exists s, w. unfold getF. by rewrite E. Qed.
Lemma gives_modF h g w s (Q : unit -> fworld -> Prop) :
  f_objs w !! h = Some s ->
  (forall w', f_objs w' !! h = Some (g s) -> Q tt w') -> gives (modF h g) w Q.
Proof.
  intros E H. eapply gives_now; [done|]. apply H. cbn. by rewrite lookup_alter_eq, E.
Qed.

Lemma gives_timer h w s :
  f_objs w !! h = Some s ->
  gives (fs_udp_timer_async_wait cfg dns_udp_timeout cancel_ec h (-1)) w
    (fun _ w' => exists tm, f_objs w' !! h = Some (s <| f_timer := tm |>)).
Proof.
  intros Hs. unfold fs_udp_timer_async_wait. apply gives_bind, (gives_getF _ _ s); [done|].
  apply gives_bind. eapply gives_now; [done|]. apply gives_bind. eapply gives_now; [done|].
  unfold fs_timer_act. apply gives_bind, (gives_modF _ _ _ s); [done|]. intros w' Hw'.
  match type of Hw' with _ = Some (s <| f_timer := fst ?r |>) => destruct r as [tm act] eqn:Er end.
  unfold UdpTimer.udp_timer_async_wait in Er. rewrite cancel_ok in Er. cbn [Z.eqb negb] in Er.
  destruct act; cbn [fst snd] in *.
  - eapply gives_now; [done|eauto].
  - eapply gives_now; [done|eauto].
  - repeat (destruct (negb _) in Er || destruct (_ && _) in Er || destruct (_ <? _) in Er); congruence.
Qed.

(** [m] comes to [again] in a world of [Q]. *)
Definition leads (m again : FM unit) (w : fworld) (Q : fworld -> Prop) : Prop :=
  exists w', m w = again w' /\ Q w'.
Lemma leads_bind {A} (m : FM A) (k : A -> FM unit) again w Q :
  gives m w (fun a w' => leads (k a) again w' Q) -> leads (bind m k) again w Q.
Proof. intros (a & w1 & E & w2 & E2 & H). exists w2. unfold bind. by rewrite E. Qed.

Lemma gives_packet h p packet w s :
  UDPPacket.wire p packet -> (forall n, send_ec n = 0) -> f_objs w !! h = Some s ->
  f_udp_data_buf s = packet ->
  gives (fs_packets send_ec (S (length packet)) h) w (fun go w' => go = true /\
    exists s', f_objs w' !! h = Some s' /\ kept s s' /\ f_udp_data_buf s' = []).
Proof.
  intros Hw Hsend Hs Hb. pose proof (packet_octets _ _ Hw) as Hlen.
  destruct (length packet) as [|[|n]] eqn:El; [unfold zlen in Hlen; lia..|].
  cbn [fs_packets]. apply gives_bind, (gives_getF _ _ s); [done|]. apply gives_bind.
  eapply gives_now.
  { pose proof (UDPPacket.packet_parse_wire p packet [] Hw) as P. rewrite app_nil_r in P.
    unfold lift, to_view. rewrite Hb, P. done. }
  cbn beta iota. apply gives_bind.
  apply (gives_now _ w true (w <| f_trace ::= fun l => l ++ [Reply h (f_recv_endpoint s) (UDPPacket.payload p)] |>
    <| f_calls ::= S |>)).
  { unfold fs_reply, bind, getF. rewrite Hs. unfold f_emit, modify, f_ask. rewrite Hsend. done. }
  cbn beta iota. apply gives_bind, (gives_modF _ _ _ s); [done|]. intros w1 Hw1.
  apply gives_bind. eapply (gives_modF _ _ _ _); [exact Hw1|]. intros w2 Hw2.
  apply gives_bind. eapply (gives_getF _ _ _); [exact Hw2|]. apply gives_bind.
  assert (Hnil : consume packet (zlen packet) = []).
  { unfold consume. rewrite <- (app_nil_r packet) at 2. apply drop_zlen_app. }
  match type of Hw2 with _ = Some ?x => set (s2 := x) in * end.
  assert (Hs2 : f_udp_data_buf s2 = []) by (subst s2; cbn; by rewrite Hb).
  assert (Hk : kept s s2) by done. clearbody s2. rewrite Hs2. eapply gives_now; [done|].
  cbn beta iota. eapply gives_now; [done|]. eauto.
Qed.

Lemma holds_read h packet p again w :
  UDPPacket.wire p packet -> (forall n, send_ec n = 0) -> holds_packet h packet w ->
  leads (fs_out_recv_ cfg dns_udp_timeout send_ec cancel_ec again h packet) again w (holds_packet h packet).
Proof.
  intros Hw Hsend (s & Hs & Hp & Hst & Hq & Hb). unfold fs_out_recv_.
  apply leads_bind, (gives_getF _ _ s); [done|]. rewrite Hst.
  rewrite (bool_decide_true (F_FORWARDING = F_FORWARDING)), orb_true_r by done.
  apply leads_bind. eapply gives_mono; [by apply gives_timer|]. intros _ w1 [tm H1].
  apply leads_bind. eapply gives_now; [done|]. apply leads_bind. eapply gives_modF; [exact H1|].
  intros w2 H2. apply leads_bind. eapply gives_getF; [exact H2|]. apply leads_bind.
  assert (E : (append_view (f_udp_data_buf s) packet).1 = packet) by (rewrite append_view_eq, Hb; done).
  match type of H2 with _ = Some ?x => set (s2 := x) in * end.
  assert (Eb : f_udp_data_buf s2 = packet) by exact E. rewrite Eb.
  eapply gives_mono; [by apply (gives_packet h p packet w2 s2)|].
  intros go w3 (-> & s3 & H3 & (K1 & K2 & K3 & K4) & K5). exists w3. split; [done|].
  exists s3. unfold fpiped, fqueue in *. cbn in K1, K2. by rewrite K1, K2.
Qed.

(** A server that sends a packet to a session of a pipeline before the
    session has started makes the client call itself without end: the reader is
    given the queued octets again and again. *)
Theorem early_packet_never_ends h packet p n w :
  UDPPacket.wire p packet -> (forall k, send_ec k = 0) -> holds_packet h packet w ->
  fs_out_async_read cfg dns_udp_timeout send_ec cancel_ec n h w = Undef NoEnd.
Proof.
  intros Hw Hsend. revert w. induction n as [|n IH]; intros w Hh; [done|].
  cbn [fs_out_async_read]. unfold fs_out_async_read_, bind at 1.
  destruct (holds_read h packet p (fs_out_async_read cfg dns_udp_timeout send_ec cancel_ec n h) w Hw Hsend Hh)
    as (w' & E & Hh').
  destruct Hh as (s & Hs & Hp & Hst & Hq & Hb). unfold getF. rewrite Hs. unfold fpiped, fqueue in *.
  rewrite Hp. unfold ReadDataCache.async_read_begin. rewrite Hq. pose proof (packet_octets _ _ Hw).
  destruct (Z.eqb_spec (zlen packet) 0) as [?|_]; [lia|]. unfold bind. by rewrite E, IH.
Qed.

End World.

(** ** A run *)
Module FDemo.

Definition cfg : Config :=
  mkConfig (str "server") 443 (str "8.8.8.8") 53 [(str "pw", str "secret")] 60 8192 [] (str "x") true
    10 200 0.
Definition dns_address : address := V4 Byte.x08 Byte.x08 Byte.x08 Byte.x08.
Definition make_address (b : bytes) : option address :=
  if bool_decide (b = str "8.8.8.8") then Some dns_address else None.
Definition no_error (_ : nat) : error_code := 0.
Definition yes (_ : nat) : bool := true.
Definition source : endpoint := mkEndpoint (V4 Byte.x0a Byte.x00 Byte.x00 Byte.x01) 4000.
Definition server : endpoint := mkEndpoint dns_address 443.
Definition answer : bytes :=
  UDPPacket.generate_endpoint [] (mkEndpoint dns_address 53) (str "answer").
Definition step := f_step cfg false 10 false make_address (fun _ => []) yes yes (fun _ => ([], 0))
  no_error no_error no_error 1.
Definition reach := f_reachable cfg false 10 false make_address (fun _ => []) yes yes (fun _ => ([], 0))
  no_error no_error no_error 0.

Fixpoint run (es : list fevent) (w : fworld) : option fworld :=
  match es with
  | [] => Some w
  | e :: es =>
    if early w e then None
    else match step e w with Ret (_, w') => run es w' | _ => None end
  end.
Definition start : option fworld :=
  match sv_udp_async_read f_init with Ret (_, w) => Some w | _ => None end.

(** A datagram, another while the connection is made, and an answer in two
    parts. *)
Definition events : list fevent :=
  [FComplete 0 (FReceived 0 (str "query") source); FComplete 1 (FResolved 0 [server]);
   FComplete 1 (FReceived 0 (str "again") source); FComplete 2 (FDone 0); FComplete 3 (FDone 0);
   FComplete 4 (FDone 0); FComplete 3 (FReceived 0 (take 5 answer) source);
   FComplete 3 (FReceived 0 (drop 5 answer) source)].
Definition world : fworld := default f_init (start ≫= run events).
Definition session : UDPForwardSession :=
  default (mkForward F_CONNECT (new_component 0) UdpTimer.new_timer new_stat new_read_buf [] [] false
    false source source false false) (f_objs world !! 0%nat).

Lemma run_reach es w w' : reach w -> run es w = Some w' -> reach w'.
Proof.
  revert w. induction es as [|e es IH]; intros w Hw E; cbn in E; [congruence|].
  destruct (early w e) eqn:Ee; [done|]. destruct (step e w) as [[[] w1]| |] eqn:Es; [|done|done].
  eapply IH; [|exact E]. by eapply f_reach_step.
Qed.
Lemma run_start es w : (start ≫= run es) = Some w -> reach w.
Proof.
  unfold start. destruct (sv_udp_async_read f_init) as [[[] w0]| |] eqn:E0; cbn; [|done|done].
  apply run_reach. by apply f_reach_start.
Qed.
Lemma password_pw : exists x rest, Session.password cfg = (str "pw", x) :: rest.
Proof. by exists (str "secret"), []. Qed.


Lemma udp_forward_sends_in_order_witness :
  fouts (tr 0 world) = stream (fun _ => []) (str "pw") (mkEndpoint dns_address 53) [str "query"; str "again"].
Proof.
  destruct (udp_forward_sends_in_order cfg false 10 false make_address (fun _ => []) (str "pw") yes yes
    (fun _ => ([], 0)) no_error no_error no_error 0 password_pw (fun n => eq_refl) world 0 session
    (run_start events world ltac:(vm_compute; reflexivity)) ltac:(vm_compute; reflexivity)) as (_ & H & _).
  assert (E : f_status session = F_FORWARD) by (vm_compute; reflexivity). rewrite (H E).
  vm_compute. reflexivity.
Defined.

Lemma udp_forward_replies_in_order_witness :
  exists packets wires rest, Forall2 UDPPacket.wire packets wires /\
    fins (tr 0 world) = concat wires ++ rest /\
    replies (tr 0 world) = map (fun p => (source, UDPPacket.payload p)) packets.
Proof.
  destruct (udp_forward_replies_in_order cfg false 10 false make_address (fun _ => []) (str "pw") yes yes
    (fun _ => ([], 0)) no_error no_error no_error 0 password_pw (fun n => eq_refl) world 0 session
    (run_start events world ltac:(vm_compute; reflexivity)) ltac:(vm_compute; reflexivity))
    as (ps & ws & rest & H1 & H2 & H3 & _).
  exists ps, ws, rest. split; [exact H1|]. split; [exact H2|].
  assert (E : f_recv_endpoint session = source) by (vm_compute; reflexivity). rewrite E in H3. exact H3.
Defined.

Lemma udp_forward_answers_exactly_witness :
  replies (tr 0 world) = [(f_recv_endpoint session, str "answer")] /\ f_udp_data_buf session = [].
Proof.
  exact (udp_forward_answers_exactly cfg false 10 false make_address (fun _ => []) (str "pw") yes yes
    (fun _ => ([], 0)) no_error no_error no_error 0 password_pw (fun n => eq_refl) world 0 session
    [(mkEndpoint dns_address 53, str "answer")]
    (run_start events world ltac:(vm_compute; reflexivity)) ltac:(vm_compute; reflexivity)
    ltac:(left; vm_compute; reflexivity)
    ltac:(constructor; [split; [exact Logic.I|split; [cbn; lia|vm_compute; reflexivity]]|constructor])
    ltac:(vm_compute; reflexivity)).
Defined.

Lemma udp_datagram_dispatch_witness :
  sv_offer cfg 10 (fun _ => []) yes no_error [0%nat] (mkEndpoint dns_address 1) (str "x") world =
  Ret (false, world).
Proof.
  rewrite (udp_datagram_dispatch cfg 10 (fun _ => []) yes no_error world (mkEndpoint dns_address 1)
    (str "x") [0%nat]); [vm_compute; reflexivity|].
  constructor; [|constructor]. exists session. vm_compute. reflexivity.
Defined.

(** A session of a pipeline that was given a packet before it started. *)
Definition early_session : UDPForwardSession :=
  session <| f_status := F_FORWARDING |>
    <| f_com ::= fun c => c <| m_is_use_pipeline := true |>
         <| pipeline_data_cache := ReadDataCache.mkCache answer 1 false |> |>.
Definition early_world : fworld := f_init <| f_objs := {[0%nat := early_session]} |>.

Lemma early_packet_never_ends_witness :
  fs_out_async_read cfg 10 no_error no_error 1000 0 early_world = Undef NoEnd.
Proof.
  apply (early_packet_never_ends cfg 10 no_error no_error (fun n => eq_refl) 0 answer
    (UDPPacket.mkUDPPacket (Socks5.socks5_of_endpoint (mkEndpoint dns_address 53)) 6 (str "answer"))).
  - destruct (UDPPacket.generate_endpoint_wire [] (mkEndpoint dns_address 53) (str "answer") Logic.I
      ltac:(cbn; lia) ltac:(reflexivity)) as (x & E & Hx).
    unfold answer. rewrite E. exact Hx.
  - reflexivity.
  - exists early_session. repeat split; vm_compute; reflexivity.
Defined.

End FDemo.
