(* ===== verification/DnsServer.v ===== *)
(** * The DNS server and its forwarders

    [DNSServer] ([src/src/tun/dnsserver.cpp]): queries of local clients are
    answered from a cache, or sent on: the names of a list through the proxy (a
    [UDPForwardSession]), the others directly (a [UDPLocalForwarder],
    [src/src/tun/udplocalforwarder.cpp]).  What the answers say is kept in the
    cache, which also tells the addresses that are to be proxied. *)

From Stdlib Require Import ZArith Lia Sorting.
From stdpp Require Import sorting.
From S2P Require Import Prelude Utils Address PipelineProto Caches ReadCache PipelineComponent DomainMatcher Session.
From S2P Require Import IpMatcher Dns UdpForward.
Import Streambuf ReadBuf Stat Allocator Codec.
Import Istream DnsHeader DnsMessage DomainMatcher.DomainMatcher IpMatcher.Search.
Local Open Scope Z_scope.
Local Open Scope handler_scope.

(** ** What the server asks of the sessions through the proxy

    [UDPForwardSession] promises this much to [DNSServer]. *)
Class ProxySessions (P : Type) := {
  px_alive : P -> nat -> bool;                       (* the weak pointer *)
  px_new : endpoint -> bytes * Z -> M P nat;         (* the constructor *)
  px_start_udp : nat -> bytes -> M P unit;
  px_process : nat -> endpoint -> bytes -> M P bool;
  px_destroy : nat -> M P unit
}.

(** [process] takes what comes from the session's source and nothing else. *)
Class ProxyLaws (P : Type) {PS : ProxySessions P} := {
  px_source : P -> nat -> option endpoint;
  px_source_alive p h : px_alive p h = true -> is_Some (px_source p h);
  px_process_other p h ep data :
    px_alive p h = true -> px_source p h <> Some ep -> px_process h ep data p = Ret (false, p);
  px_process_own p h ep data r p' :
    px_source p h = Some ep -> px_process h ep data p = Ret (r, p') -> r = true
}.

(** ** Data *)

Record DNSCache := mkDNSCache {
  domain : bytes;
  ttl : Z;                              (* int *)
  ips : list Z;
  proxyed : bool;
  cached_time : Z;
  answer_data : bytes
}.
#[export] Instance eta_DNSCache : Settable DNSCache :=
  fun r => mkDNSCache (domain r) (ttl r) (ips r) (proxyed r) (cached_time r) (answer_data r).

Definition expired (curr : Z) (c : DNSCache) : bool := ttl c <=? i32 (curr - cached_time c).

Record UDPLocalForwarder := mkLocalForwarder {
  m_local_src : endpoint;
  m_remote_dst : endpoint;
  lf_timer : UdpTimer.timer;
  m_read_buf : ReadBufWithGuard;
  m_stat : bytes_stat;
  m_udp_open : bool;
  m_destroyed : bool;
  m_destroy_cb : bool
}.
#[export] Instance eta_UDPLocalForwarder : Settable UDPLocalForwarder :=
  fun r => mkLocalForwarder (m_local_src r) (m_remote_dst r) (lf_timer r) (m_read_buf r) (m_stat r)
    (m_udp_open r) (m_destroyed r) (m_destroy_cb r).

Definition new_local (src dst : endpoint) : UDPLocalForwarder :=
  mkLocalForwarder src dst (UdpTimer.set_udp_forward_session true UdpTimer.new_timer) new_read_buf
    new_stat false false false.

(** The part of the configuration the server reads *)
Record DnsConfig := mkDnsConfig {
  enable_cached : bool;
  dns_udp_timeout : Z;
  up_dns_server : list bytes;
  up_gfw_dns_server : list bytes;
  gfwlist : list DomainLinkData;        (* _gfwlist_matcher *)
  pipeline_loadbalance_addrs : list bytes
}.

Inductive dop :=
| DQuery                                (* the socket of the server *)
| DStarted (this : nat) (data : bytes)  (* start_session of a proxy session *)
| DRead (this : nat)                    (* async_receive_from of a forwarder *)
| DTimer (this : nat) (timeout : Z).

Inductive deffect :=
| ToLocal (to : endpoint) (data : bytes)              (* m_data_queryer->send *)
| FromUp (proxyed : bool) (src : endpoint) (data : bytes)   (* given to recv_up_stream_data *)
| ToUp (this : nat) (dst : endpoint) (data : bytes)   (* send_to of a forwarder *)
| ToProxy (this : nat) (data : bytes)                 (* a new proxy session *)
| DestroyCb (this : nat).

Section World.
Context {P : Type} {PS : ProxySessions P}.

Record dworld := mkDWorld {
  m_dns_cache : list DNSCache;
  m_proxy_forwarders : list nat;
  m_forwarders : list nat;
  locals : gmap nat UDPLocalForwarder;
  d_next : nat;
  proxies : P;
  query_buf : ReadBufWithGuard;
  d_pending : list dop;
  d_trace : list deffect;
  d_now : Z;
  d_calls : nat
}.
#[export] Instance eta_dworld : Settable dworld :=
  fun r => mkDWorld (m_dns_cache r) (m_proxy_forwarders r) (m_forwarders r) (locals r) (d_next r)
    (proxies r) (query_buf r) (d_pending r) (d_trace r) (d_now r) (d_calls r).

Definition DM := M dworld.

Definition getL (this : nat) : DM UDPLocalForwarder :=
  fun w => match locals w !! this with Some s => Ret (s, w) | None => Undef NoObject end.
Definition modL (this : nat) (f : UDPLocalForwarder -> UDPLocalForwarder) : DM unit :=
  modify (fun w => w <| locals ::= alter f this |>).
Definition d_start_op (o : dop) : DM unit :=
  modify (fun w => w <| d_pending ::= fun l => l ++ [o] |>).
Definition d_emit (e : deffect) : DM unit :=
  modify (fun w => w <| d_trace ::= fun l => l ++ [e] |>).
Definition d_ask {A} (answers : nat -> A) : DM A :=
  fun w => Ret (answers (d_calls w), w <| d_calls ::= S |>).
(** A call of a proxy session *)
Definition on_proxies {A} (m : M P A) : DM A :=
  fun w => match m (proxies w) with
           | Ret (a, p) => Ret (a, w <| proxies := p |>)
           | Throw e => Throw e
           | Undef u => Undef u
           end.

Section Server.
(** The configuration; whether sessions go through pipelines.  From outside the
    sources: Boost's address parser and its text of an IPv6 address, the error
    codes of the socket calls and of the timer's [cancel], and what
    uninitialised memory holds.  [fuel] bounds the calls of [read_label]. *)
Context (cfg : Config) (dcfg : DnsConfig) (pipelined : bool).
Context (make_address : bytes -> option address) (v6_to_string : bytes -> bytes).
Context (open_ec bind_ec send_ec cancel_ec : nat -> error_code).
Context (buf : bytes) (qtype0 qclass0 : Z) (fuel : nat).

(** ** The cache *)

Definition is_interest_header (h : dns_header) : bool :=
  (QR h =? 0) && (RCODE h =? 0) && (ANCOUNT h =? 0) && (NSCOUNT h =? 0) && (0 <? QDCOUNT h).
Definition is_interest_question (q : dns_question) : bool :=
  (QCLASS q =? QCLASS_INTERNET) &&
  ((QTYPE q =? QTYPE_A_RECORD) || (QTYPE q =? QTYPE_AAAA_RECORD)).

Definition send_to_local (to : endpoint) (data : bytes) : DM unit := d_emit (ToLocal to data).

(** [raw_data[0] = header.ID() >> 8; raw_data[1] = header.ID() & 0xFF] *)
Definition set_id (raw : bytes) (id : Z) : outcome bytes :=
  match raw with
  | _ :: _ :: rest => Ret (z2b (Z.shiftr id one_byte_shift_8_bits) :: z2b (Z.land id one_byte_mask_0xFF) :: rest)
  | _ => Undef (OutOfView raw 1)
  end.

(** The loop over the cache: the first entry of the name, with its data changed *)
Fixpoint find_loop (name : bytes) (id : Z) (l : list DNSCache)
  : outcome (option (bytes * list DNSCache)) :=
  match l with
  | [] => Ret None
  | c :: l =>
    if bool_decide (domain c = name) then
      let! raw := set_id (answer_data c) id in
      Ret (Some (raw, c <| answer_data := raw |> :: l))
    else
      let! r := find_loop name id l in
      Ret (match r with Some (raw, l) => Some (raw, c :: l) | None => None end)
  end.

Definition find_in_dns_cache (local_src : endpoint) (header : dns_header) (question : dns_question)
  : DM bool :=
  if negb (enable_cached dcfg) then ret false else
  curr <- gets d_now ;;
  modify (fun w => w <| m_dns_cache ::= List.filter (fun c => negb (expired curr c)) |>) ;;;
  cache <- gets m_dns_cache ;;
  r <- lift (find_loop (QNAME question) (ID header) cache) ;;
  match r with
  | Some (raw, cache) =>
    modify (fun w => w <| m_dns_cache := cache |>) ;;;
    send_to_local local_src raw ;;; ret true
  | None => ret false
  end.

Definition UINT32_MAX : Z := 4294967295.
(** The loop over the answers: the least [TTL], the addresses *)
Definition answer_step (acc : Z * list Z) (an : answer) : Z * list Z :=
  if negb (A an =? 0)
  then ((if TTL an <? fst acc then TTL an else fst acc), snd acc ++ [A an])
  else acc.
Definition scan_answers (ans : list answer) : Z * list Z :=
  fold_left answer_step ans (UINT32_MAX, []).

Definition store_in_dns_cache (data : bytes) (prox : bool) : DM unit :=
  if negb (enable_cached dcfg) then skip else
  r <- lift (read_dns_answer buf qtype0 qclass0 v6_to_string fuel (istringstream data)) ;;
  if failed (fst r) then skip else
  match questions (snd r) with
  | [] => skip
  | q :: _ =>
    if negb (is_interest_question q) then skip else
    let '(t, l) := scan_answers (answers (snd r)) in
    if t =? UINT32_MAX then skip else
    curr <- gets d_now ;;
    modify (fun w => w <| m_dns_cache ::= fun c =>
      c ++ [mkDNSCache (QNAME q) (i32 t) (merge_sort Z.le l) prox curr data] |>)
  end.

Definition recv_up_stream_data (local_src : endpoint) (data : bytes) (prox : bool) : DM unit :=
  d_emit (FromUp prox local_src data) ;;;
  send_to_local local_src data ;;;
  store_in_dns_cache data prox.

Definition is_ip_in_gfwlist (cache : list DNSCache) (ip : Z) : bool :=
  existsb (fun dns => proxyed dns && binary_search (ips dns) ip) cache.

(** ** UDPLocalForwarder *)

Definition lf_destroy (this : nat) : DM unit :=
  s <- getL this ;;
  if m_destroyed s then skip else
  modL this (fun s => s <| m_destroyed := true |>) ;;;
  modL this (fun s => s <| m_udp_open := false |>) ;;;
  if m_destroy_cb s then
    d_emit (DestroyCb this) ;;; modL this (fun s => s <| m_destroy_cb := false |>)
  else skip.

Definition lf_timer_act (this : nat) (r : UdpTimer.timer * UdpTimer.action) : DM unit :=
  modL this (fun s => s <| lf_timer := fst r |>) ;;;
  match snd r with
  | UdpTimer.NoAct => skip
  | UdpTimer.Arm n => d_start_op (DTimer this n)
  | UdpTimer.Expire => lf_destroy this
  end.
Definition lf_udp_timer_async_wait (this : nat) : DM unit :=
  s <- getL this ;; curr <- gets d_now ;; ec <- d_ask cancel_ec ;;
  lf_timer_act this (UdpTimer.udp_timer_async_wait curr (udp_timeout cfg) ec (-1) (lf_timer s)).
Definition lf_udp_timer_fired (this : nat) (timeout : Z) (error : error_code) : DM unit :=
  s <- getL this ;; curr <- gets d_now ;; ec <- d_ask cancel_ec ;;
  lf_timer_act this (UdpTimer.udp_timer_fired curr (udp_timeout cfg) ec timeout error (lf_timer s)).

Definition lf_async_read (this : nat) : DM unit :=
  lf_udp_timer_async_wait this ;;;
  s <- getL this ;;
  r <- lift (begin_read (m_read_buf s)) ;;
  modL this (fun s => s <| m_read_buf := rb_consume_all r |>) ;;;
  d_start_op (DRead this).

Definition lf_start (this : nat) : DM unit :=
  ec <- d_ask open_ec ;;
  if negb (ec =? 0) then lf_destroy this else
  modL this (fun s => s <| m_udp_open := true |>) ;;;
  ec <- d_ask bind_ec ;;
  if negb (ec =? 0) then lf_destroy this else
  lf_udp_timer_async_wait this ;;;
  lf_async_read this.

Definition lf_write_to (this : nat) (data : bytes) : DM bool :=
  s <- getL this ;;
  if m_destroyed s then ret false else
  d_emit (ToUp this (m_remote_dst s) data) ;;;
  ec <- d_ask send_ec ;;
  if negb (ec =? 0) then lf_destroy this ;;; ret false
  else modL this (fun s => s <| m_stat ::= fun st => inc_sent_len st (zlen data) |>) ;;; ret true.

Definition lf_process (this : nat) (ep : endpoint) (data : bytes) : DM bool :=
  s <- getL this ;;
  if negb (bool_decide (ep = m_local_src s)) then ret false else lf_write_to this data.

(** The completion of [async_receive_from], which stores the sender in
    [m_remote_dst]. *)
Definition lf_read_done (this : nat) (ec : error_code) (data : bytes) (from : endpoint) : DM unit :=
  modL this (fun s => s <| m_remote_dst := from |>) ;;;
  modL this (fun s => s <| m_read_buf ::= end_read |>) ;;;
  if negb (ec =? 0) then lf_destroy this else
  modL this (fun s => s <| m_read_buf ::= fun r => rb_commit r data |>) ;;;
  modL this (fun s => s <| m_stat ::= fun st => inc_recv_len st (zlen data) |>) ;;;
  s <- getL this ;;
  recv_up_stream_data (m_local_src s) (read_buf (m_read_buf s)) false ;;;
  lf_async_read this.

(** ** DNSServer *)

Definition is_local_alive (w : dworld) (h : nat) : bool := bool_decide (is_Some (locals w !! h)).

Fixpoint offer_proxies (l : list nat) (src : endpoint) (data : bytes) : DM bool :=
  match l with
  | [] => ret false
  | h :: l =>
    taken <- on_proxies (px_process h src data) ;;
    if taken : bool then ret true else offer_proxies l src data
  end.
Fixpoint offer_locals (l : list nat) (src : endpoint) (data : bytes) : DM bool :=
  match l with
  | [] => ret false
  | h :: l =>
    taken <- lf_process h src data ;;
    if taken : bool then ret true else offer_locals l src data
  end.

Definition clear_dead : DM unit :=
  modify (fun w => w <| m_proxy_forwarders ::= fun l =>
    fst (clear_weak_ptr_list (fun h => negb (px_alive (proxies w) h)) l) |>) ;;;
  modify (fun w => w <| m_forwarders ::= fun l =>
    fst (clear_weak_ptr_list (fun h => negb (is_local_alive w h)) l) |>).

Definition try_to_find_existed (src : endpoint) (data : bytes) : DM bool :=
  clear_dead ;;;
  w <- gets id ;;
  taken <- offer_proxies (m_proxy_forwarders w) src data ;;
  if taken : bool then ret true else offer_locals (m_forwarders w) src data.

Definition is_remote_domain (name : bytes) : bool :=
  bool_decide (name = remote_addr cfg) ||
  ((0 <? pipeline_num cfg) &&
   existsb (fun a => bool_decide (a = name)) (pipeline_loadbalance_addrs dcfg)).

Definition DEFAULT_UP_STREAM_NS_SVR_PORT : Z := 53.

(** The handler given to [start_session] *)
Definition d_started (this : nat) (data : bytes) (ec : error_code) : DM unit :=
  if ec =? 0 then
    modify (fun w => w <| m_proxy_forwarders ::= fun l => l ++ [this] |>) ;;;
    on_proxies (px_start_udp this data)
  else skip.

(** Where a question goes, before the forwarders that exist are asked *)
Definition wants_proxy (q : dns_question) : bool :=
  is_interest_question q && negb (is_remote_domain (QNAME q)) && is_match (gfwlist dcfg) (QNAME q).

Definition forward_query (src : endpoint) (proxy : bool) (former_data : bytes) : DM unit :=
  if proxy then
    match up_gfw_dns_server dcfg with
    | [] => throw out_of_range
    | svr :: _ =>
      h <- on_proxies (px_new src (svr, DEFAULT_UP_STREAM_NS_SVR_PORT)) ;;
      d_emit (ToProxy h former_data) ;;;
      if pipelined then d_start_op (DStarted h former_data) else d_started h former_data 0
    end
  else
    match up_dns_server dcfg with
    | [] => throw out_of_range
    | svr :: _ =>
      match make_address svr with
      | None => throw (system_error 22)
      | Some a =>
        h <- gets d_next ;;
        modify (fun w => w <| d_next ::= S |> <| locals ::= <[h := new_local src
          (mkEndpoint a DEFAULT_UP_STREAM_NS_SVR_PORT)]> |>) ;;;
        lf_start h ;;;
        taken <- lf_process h src former_data ;;
        if taken : bool then modify (fun w => w <| m_forwarders ::= fun l => l ++ [h] |>) else skip
      end
    end.

Definition in_recved (src : endpoint) (i : istream) (header : dns_header) (former_data : bytes)
  : DM unit :=
  r <- lift (read_question buf qtype0 qclass0 fuel i) ;;
  if failed (fst r) then skip else
  let qt := snd r in
  hit <- (if is_interest_question qt then find_in_dns_cache src header qt else ret false) ;;
  if hit : bool then skip else
  taken <- try_to_find_existed src former_data ;;
  if taken : bool then skip else forward_query src (wants_proxy qt) former_data.

(** The handler of [start] *)
Definition query_handler (src : endpoint) (data : bytes) : DM unit :=
  let '(i, hdr) := read_header (over_streambuf data) new_header in
  if negb (failed i) && is_interest_header hdr then in_recved src i hdr data else skip.

(** [SocketQueryer::async_read_udp] *)
Definition async_read_udp : DM unit :=
  b <- gets query_buf ;;
  r <- lift (begin_read b) ;;
  modify (fun w => w <| query_buf := rb_consume_all r |>) ;;;
  d_start_op DQuery.
Definition query_read_done (error : error_code) (data : bytes) (from : endpoint) : DM unit :=
  modify (fun w => w <| query_buf ::= end_read |>) ;;;
  if negb (error =? 0) then async_read_udp else
  modify (fun w => w <| query_buf ::= fun r => rb_commit r data |>) ;;;
  b <- gets query_buf ;;
  query_handler from (read_buf b) ;;;
  async_read_udp.

(** [SocketQueryer::open] and [start] *)
Definition d_open : DM bool :=
  ec <- d_ask open_ec ;;
  if negb (ec =? 0) then ret false else
  ec <- d_ask bind_ec ;;
  if negb (ec =? 0) then ret false else
  async_read_udp ;;; ret true.

Fixpoint for_each {A} (f : A -> DM unit) (l : list A) : DM unit :=
  match l with
  | [] => skip
  | x :: l => f x ;;; for_each f l
  end.
Definition d_destroy : DM unit :=
  clear_dead ;;;
  w <- gets id ;;
  for_each (fun h => on_proxies (px_destroy h)) (m_proxy_forwarders w) ;;;
  modify (fun w => w <| m_proxy_forwarders := [] |>) ;;;
  for_each lf_destroy (m_forwarders w) ;;;
  modify (fun w => w <| m_forwarders := [] |>).

(** ** Runs *)

Inductive dcompletion :=
| DDone (ec : error_code)
| DReceived (ec : error_code) (data : bytes) (from : endpoint).

Definition d_complete (o : dop) (c : dcompletion) : DM unit :=
  match o, c with
  | DQuery, DReceived ec data from => query_read_done ec data from
  | DStarted this data, DDone ec => d_started this data ec
  | DRead this, DReceived ec data from => lf_read_done this ec data from
  | DTimer this n, DDone ec => lf_udp_timer_fired this n ec
  | _, _ => skip
  end.

(** Completions; the clock; a step of the proxy sessions, which may hand an
    answer to [recv_up_stream_data]; the end of a forwarder that nothing holds;
    [destroy]. *)
Inductive devent :=
| DComplete (i : nat) (c : dcompletion)
| DClock (t : Z)
| DProxyStep (p : P)
| DProxyAnswer (src : endpoint) (data : bytes)
| DFreed (this : nat)
| DDestroy.

Definition dop_this (o : dop) : option nat :=
  match o with DRead h | DTimer h _ => Some h | _ => None end.

Definition d_step (e : devent) : DM unit :=
  match e with
  | DComplete i c =>
    w <- gets id ;;
    match d_pending w !! i with
    | Some o => modify (fun w => w <| d_pending ::= delete i |>) ;;; d_complete o c
    | None => skip
    end
  | DClock t => modify (fun w => w <| d_now := t |>)
  | DProxyStep p => modify (fun w => w <| proxies := p |>)
  | DProxyAnswer src data => recv_up_stream_data src data true
  | DFreed this =>
    w <- gets id ;;
    when (forallb (fun o => negb (bool_decide (dop_this o = Some this))) (d_pending w))
      (modify (fun w => w <| locals ::= delete this |>))
  | DDestroy => d_destroy
  end.

Definition d_init (p : P) : dworld := mkDWorld [] [] [] ∅ 0 p new_read_buf [] [] 1 0.

End Server.
End World.
Arguments dworld : clear implicits.
Arguments devent : clear implicits.

(** ** UDPForwardSession as the session of a proxied query

    The constructor's arguments are those of [in_recved]: not of the NAT type,
    for DNS; [start_session] marks the session when it goes through a pipeline. *)
Section ForwardSessions.
Context (cfg : Config) (dns_timeout : Z) (pipelined : bool).
Context (make_address : bytes -> option address) (v6_to_string : bytes -> bytes).
Context (nat_bind_ok in_pipeline : nat -> bool).
Context (system_ec send_ec cancel_ec : nat -> error_code) (depth : nat).

Definition new_proxy_session (src : endpoint) (dst : bytes * Z) : FM nat :=
  this <- gets f_next ;;
  ids <- gets f_ids ;;
  r <- lift (PipelineComponent.allocate_session_id ids) ;;
  s <- lift (new_forward cfg make_address src dst false true (fst r)) ;;
  modify (fun w => w <| f_ids := snd r |> <| f_objs ::= <[this := s]> |> <| f_next ::= S |>) ;;;
  when pipelined (modF this (fun s => s <| f_com ::= PipelineComponent.set_use_pipeline |>)) ;;;
  ret this.

Definition forward_sessions : ProxySessions fworld := {|
  px_alive p h := bool_decide (is_Some (f_objs p !! h));
  px_new := new_proxy_session;
  px_start_udp := fs_start_udp cfg dns_timeout v6_to_string nat_bind_ok in_pipeline system_ec send_ec
                    cancel_ec depth;
  px_process := fs_process cfg dns_timeout v6_to_string in_pipeline cancel_ec;
  px_destroy h := fs_destroy h false
|}.

Lemma forward_sessions_laws : @ProxyLaws fworld forward_sessions.
Proof.
  refine {| px_source p h := f_recv_endpoint <$> f_objs p !! h |}; cbn.
  - intros p h [s ->]%bool_decide_eq_true. eauto.
  - intros p h ep data [s Hs]%bool_decide_eq_true Hn. unfold fs_process, bind, getF. rewrite Hs in *.
    cbn in Hn. rewrite bool_decide_false by congruence. done.
  - intros p h ep data r p' Hs Hr. destruct (f_objs p !! h) as [s|] eqn:E; [|done]. injection Hs as <-.
    unfold fs_process, bind at 1, getF in Hr. rewrite E, bool_decide_true in Hr by done. cbn [negb] in Hr.
    unfold bind in Hr. destruct (fs_in_recv _ _ _ _ _ _ _ _) as [[]| |]; [|done|done].
    by injection Hr as <- <-.
Qed.

End ForwardSessions.
