(* ===== verification/DnsServerTheorems.v ===== *)
(** * The DNS server: what follows for every run *)

From Stdlib Require Import ZArith Lia Sorting.
From stdpp Require Import sorting.
From S2P Require Import Prelude Utils Address PipelineProto Caches ReadCache PipelineComponent DomainMatcher Session.
From S2P Require Import IpMatcher Dns UdpForward UdpForwardProofs DnsServer.
Import Streambuf ReadBuf Stat Allocator Codec.
Import Istream DnsHeader DnsMessage IpMatcher.Search.
Local Open Scope Z_scope.
Local Open Scope handler_scope.

(** ** What the cache holds *)

Lemma scan_answers_addresses ans :
  snd (scan_answers ans) = map A (List.filter (fun an => negb (A an =? 0)) ans).
Proof.
  unfold scan_answers.
  assert (H : forall acc, snd (fold_left answer_step ans acc) =
    snd acc ++ map A (List.filter (fun an => negb (A an =? 0)) ans)).
  { induction ans as [|an ans IH]; intros acc; cbn; [by rewrite app_nil_r|].
    rewrite IH. unfold answer_step. destruct (negb (A an =? 0)); cbn; [|done]. by rewrite <- app_assoc. }
  apply H.
Qed.

Section Cache.
Context {P : Type} {PS : ProxySessions P}.
Context (cfg : Config) (dcfg : DnsConfig) (pipelined : bool).
Context (make_address : bytes -> option address) (v6_to_string : bytes -> bytes).
Context (open_ec bind_ec send_ec cancel_ec : nat -> error_code).
Context (buf : bytes) (qtype0 qclass0 : Z) (fuel : nat).

Notation read_reply data := (read_dns_answer buf qtype0 qclass0 v6_to_string fuel (istringstream data)).
Notation step := (d_step cfg dcfg pipelined make_address v6_to_string open_ec bind_ec send_ec cancel_ec
  buf qtype0 qclass0 fuel).

Lemma read_questions_failed n i :
  failed i = true -> read_questions buf qtype0 qclass0 fuel n i = Ret (i, []).
Proof. induction n; intros Hf; cbn [read_questions]; [done|]. rewrite Hf. auto. Qed.
Lemma read_answers_failed n i :
  failed i = true -> read_answers buf v6_to_string fuel n i = Ret (i, []).
Proof. induction n; intros Hf; cbn [read_answers]; [done|]. rewrite Hf. auto. Qed.

(** A reply that could be read has a header. *)
Lemma reply_has_header data i a : read_reply data = Ret (i, a) -> failed i = false -> 12 <= zlen data.
Proof.
  intros Hr Hf. destruct (Z.leb_spec 12 (zlen data)) as [?|Hlt]; [done|exfalso].
  unfold read_dns_answer in Hr. destruct (read_header _ _) as [i0 h] eqn:Eh.
  assert (Hf0 : failed i0 = true).
  { revert Eh. unfold read_header, read. change (left_ (istringstream data)) with data.
    cbn [failed istringstream]. rewrite take_ge by (unfold zlen in Hlt; change (Z.to_nat _) with 12%nat; lia).
    change DNS_HEADER_LENGTH with 12. destruct (Z.ltb_spec (zlen data) 12); [|lia]. by intros [= <- _]. }
  rewrite read_questions_failed in Hr by done. cbn [obind] in Hr.
  rewrite read_answers_failed in Hr by done. cbn [obind] in Hr.
  rewrite read_answers_failed in Hr by done. cbn [obind] in Hr.
  rewrite read_answers_failed in Hr by done. cbn [obind] in Hr. congruence.
Qed.

(** What is known of a reply that is in the cache. *)
Definition from_reply (c : DNSCache) (data : bytes) : Prop :=
  exists i a q qs, read_reply data = Ret (i, a) /\ failed i = false /\ questions a = q :: qs /\
    is_interest_question q = true /\ QNAME q = domain c /\
    ttl c = i32 (fst (scan_answers (answers a))) /\
    ips c = merge_sort Z.le (snd (scan_answers (answers a))).

(** An entry is a reply of the upstream server, but for its first two octets. *)
Definition entry_ok (t : list deffect) (c : DNSCache) : Prop :=
  exists src data, FromUp (proxyed c) src data ∈ t /\ from_reply c data /\
    length (answer_data c) = length data /\ drop 2 (answer_data c) = drop 2 data.

Definition CI (w : dworld P) : Prop := Forall (entry_ok (d_trace w)) (m_dns_cache w).

Lemma entry_ok_grow t t' c : t `prefix_of` t' -> entry_ok t c -> entry_ok t' c.
Proof. intros [e ->] (src & data & H1 & H2). exists src, data. split; [set_solver|done]. Qed.

Lemma entry_octets t c : entry_ok t c -> (2 <= length (answer_data c))%nat.
Proof.
  intros (src & data & _ & (i & a & q & qs & Hr & Hf & _) & Hl & _).
  apply reply_has_header in Hr; [|done]. unfold zlen in Hr. lia.
Qed.

(** *** Handlers keep it *)

Definition keeps {A} (m : @DM P A) : Prop :=
  forall w, CI w -> match m w with Ret (_, w') => CI w' /\ d_trace w `prefix_of` d_trace w' | _ => True end.

Lemma keeps_bind {A B} (m : @DM P A) (k : A -> @DM P B) :
  keeps m -> (forall a, keeps (k a)) -> keeps (bind m k).
Proof.
  intros Hm Hk w Hw. specialize (Hm w Hw). unfold bind. destruct (m w) as [[a w1]| |]; [|done|done].
  destruct Hm as [H1 P1]. specialize (Hk a w1 H1). destruct (k a w1) as [[b w2]| |]; [|done|done].
  destruct Hk as [H2 P2]. split; [done|by etrans].
Qed.
Lemma keeps_ret {A} (a : A) : keeps (ret a).
Proof. by intros w Hw. Qed.
Lemma keeps_skip : keeps skip.
Proof. apply keeps_ret. Qed.
Lemma keeps_throw {A} e : keeps (throw e : DM A).
Proof. by intros w Hw. Qed.
Lemma keeps_gets {A} (f : dworld P -> A) : keeps (gets f).
Proof. by intros w Hw. Qed.
Lemma keeps_lift {A} (m : outcome A) : keeps (lift m).
Proof. intros w Hw. unfold lift. by destruct m. Qed.
Lemma keeps_getL h : keeps (getL h).
Proof. intros w Hw. unfold getL. by destruct (locals w !! h). Qed.
Lemma keeps_ask {A} (f : nat -> A) : keeps (d_ask f).
Proof. by intros w Hw. Qed.
Lemma keeps_proxies {A} (m : M P A) : keeps (on_proxies m).
Proof. intros w Hw. unfold on_proxies. by destruct (m (proxies w)) as [[]| |]. Qed.
Lemma keeps_modify (f : dworld P -> dworld P) :
  (forall w, m_dns_cache (f w) = m_dns_cache w) -> (forall w, d_trace (f w) = d_trace w) ->
  keeps (modify f).
Proof. intros H1 H2 w Hw. cbn. unfold CI. by rewrite H1, H2. Qed.
Lemma keeps_modL h f : keeps (modL h f).
Proof. by apply keeps_modify. Qed.
Lemma keeps_start_op o : keeps (d_start_op o).
Proof. by apply keeps_modify. Qed.
Lemma keeps_emit e : keeps (d_emit e).
Proof.
  intros w Hw. cbn. assert (Hp : d_trace w `prefix_of` d_trace w ++ [e]) by by apply prefix_app_r.
  split; [|done]. unfold CI. cbn. eapply list.Forall_impl; [exact Hw|]. intros c. by apply entry_ok_grow.
Qed.
Lemma keeps_when b (m : @DM P unit) : keeps m -> keeps (when b m).
Proof. destruct b; [done|intros _; apply keeps_skip]. Qed.

#[local] Hint Resolve keeps_ret keeps_skip keeps_throw keeps_gets keeps_lift keeps_getL keeps_ask
  keeps_proxies keeps_modL keeps_start_op keeps_emit keeps_when : dnsdb.

(** A handler keeps the invariant when each of its parts does. *)
Ltac keep :=
  repeat first
    [ progress intros
    | solve [eauto with dnsdb nocore]
    | apply keeps_bind
    | apply keeps_when
    | solve [apply keeps_modify; done]
    | match goal with |- keeps (match ?x with _ => _ end) => destruct x end
    | match goal with |- keeps (let '(_, _) := ?x in _) => destruct x end ].

(** The answer given from the cache is that of an entry, with the query's id. *)
Lemma set_id_some raw id :
  (2 <= length raw)%nat ->
  set_id raw id = Ret (z2b (Z.shiftr id 8) :: z2b (Z.land id 255) :: drop 2 raw).
Proof. destruct raw as [|x [|y rest]]; cbn; [lia|lia|done]. Qed.

Lemma find_loop_spec t name id l :
  Forall (entry_ok t) l ->
  (exists raw l', find_loop name id l = Ret (Some (raw, l')) /\ Forall (entry_ok t) l' /\
     exists c, c ∈ l /\ domain c = name /\
       raw = z2b (Z.shiftr id 8) :: z2b (Z.land id 255) :: drop 2 (answer_data c)) \/
  (find_loop name id l = Ret None /\ Forall (fun c => domain c <> name) l).
Proof.
  induction 1 as [|c l Hc Hl IH]; cbn [find_loop]; [by right|].
  destruct (bool_decide (domain c = name)) eqn:E; bool_facts.
  - left. rewrite set_id_some by (by eapply entry_octets). cbn [obind].
    eexists _, _. split; [done|]. split; [|exists c; split; [set_solver|done]].
    constructor; [|done]. destruct Hc as (src & data & H1 & H2 & H3 & H4). exists src, data. cbn.
    split; [done|]. split; [exact H2|]. split; [|done].
    pose proof (f_equal length H4) as H5. rewrite !length_drop in H5. rewrite length_drop.
    assert (2 <= length (answer_data c))%nat.
    { apply (entry_octets t). exists src, data. by split_and!. }
    lia.
  - destruct IH as [(raw & l' & -> & Hl' & c' & Hc' & Hd & Hr)|[-> Hn]]; cbn [obind].
    + left. eexists _, _. split; [done|]. split; [by constructor|]. exists c'. split; [set_solver|done].
    + right. split; [done|]. by constructor.
Qed.

Lemma live_entries t curr l :
  Forall (entry_ok t) l -> Forall (entry_ok t) (List.filter (fun c => negb (expired curr c)) l).
Proof.
  rewrite !list.Forall_forall. intros H c [Hc _]%list_elem_of_In%filter_In.
  apply H. by apply list_elem_of_In.
Qed.

Lemma keeps_find src h q : keeps (find_in_dns_cache dcfg src h q).
Proof.
  unfold find_in_dns_cache. destruct (negb _); [keep|]. intros w Hw. cbn.
  destruct (find_loop_spec (d_trace w) (QNAME q) (ID h) _ (live_entries _ (d_now w) _ Hw))
    as [(raw & l' & -> & Hl & _)|[-> _]].
  - split; [|cbn; by apply prefix_app_r]. unfold CI. cbn. eapply list.Forall_impl; [exact Hl|].
    intros c. apply entry_ok_grow. by apply prefix_app_r.
  - split; [|done]. by apply live_entries.
Qed.

Lemma keeps_answer src data prox :
  keeps (recv_up_stream_data dcfg v6_to_string buf qtype0 qclass0 fuel src data prox).
Proof.
  intros w Hw. unfold recv_up_stream_data, bind, d_emit, send_to_local, d_emit, modify.
  set (w1 := w <| d_trace ::= _ |>). set (w2 := w1 <| d_trace ::= _ |>).
  assert (Hp : d_trace w `prefix_of` d_trace w2).
  { subst w2 w1. cbn. rewrite <- app_assoc. by apply prefix_app_r. }
  assert (Hin : FromUp prox src data ∈ d_trace w2) by (subst w2 w1; cbn; set_solver).
  assert (Hc : CI w2).
  { eapply list.Forall_impl; [exact Hw|]. intros c. by apply entry_ok_grow. }
  clearbody w2. clear w1. unfold store_in_dns_cache. destruct (negb _); [done|].
  unfold bind at 1, lift. destruct (read_reply data) as [[i a]| |] eqn:Er; [|done|done]. cbn [fst snd].
  destruct (failed i) eqn:Ef; [done|]. destruct (questions a) as [|q qs] eqn:Eq; [done|].
  destruct (is_interest_question q) eqn:Ei; [|done]. cbn [negb].
  destruct (scan_answers (answers a)) as [t l] eqn:Es. destruct (t =? UINT32_MAX); [done|].
  cbn. split; [|done]. unfold CI. cbn. apply Forall_app. split; [done|]. constructor; [|done].
  exists src, data. cbn. split; [done|]. split; [|done].
  exists i, a, q, qs. rewrite Es. by split_and!.
Qed.

#[local] Hint Resolve keeps_find keeps_answer : dnsdb.

Lemma keeps_lf_destroy h : keeps (lf_destroy h).
Proof. unfold lf_destroy. keep. Qed.
#[local] Hint Resolve keeps_lf_destroy : dnsdb.
Lemma keeps_lf_timer_act h r : keeps (lf_timer_act h r).
Proof. unfold lf_timer_act. keep. Qed.
#[local] Hint Resolve keeps_lf_timer_act : dnsdb.
Lemma keeps_lf_wait h : keeps (lf_udp_timer_async_wait cfg cancel_ec h).
Proof. unfold lf_udp_timer_async_wait. keep. Qed.
Lemma keeps_lf_fired h n ec : keeps (lf_udp_timer_fired cfg cancel_ec h n ec).
Proof. unfold lf_udp_timer_fired. keep. Qed.
#[local] Hint Resolve keeps_lf_wait keeps_lf_fired : dnsdb.
Lemma keeps_lf_async_read h : keeps (lf_async_read cfg cancel_ec h).
Proof. unfold lf_async_read. keep. Qed.
#[local] Hint Resolve keeps_lf_async_read : dnsdb.
Lemma keeps_lf_start h : keeps (lf_start cfg open_ec bind_ec cancel_ec h).
Proof. unfold lf_start. keep. Qed.
Lemma keeps_lf_process h ep data : keeps (lf_process send_ec h ep data).
Proof. unfold lf_process, lf_write_to. keep. Qed.
Lemma keeps_lf_read_done h ec data from :
  keeps (lf_read_done cfg dcfg v6_to_string cancel_ec buf qtype0 qclass0 fuel h ec data from).
Proof. unfold lf_read_done. keep. Qed.
#[local] Hint Resolve keeps_lf_start keeps_lf_process keeps_lf_read_done : dnsdb.

Lemma keeps_offer_proxies l src data : keeps (offer_proxies l src data).
Proof. induction l; cbn [offer_proxies]; keep. Qed.
Lemma keeps_offer_locals l src data : keeps (offer_locals send_ec l src data).
Proof. induction l; cbn [offer_locals]; keep. Qed.
#[local] Hint Resolve keeps_offer_proxies keeps_offer_locals : dnsdb.
Lemma keeps_existed src data : keeps (try_to_find_existed send_ec src data).
Proof. unfold try_to_find_existed, clear_dead. keep. Qed.
Lemma keeps_started h data ec : keeps (d_started h data ec).
Proof. unfold d_started. keep. Qed.
#[local] Hint Resolve keeps_existed keeps_started : dnsdb.
Lemma keeps_forward src b data :
  keeps (forward_query cfg dcfg pipelined make_address open_ec bind_ec send_ec cancel_ec src b data).
Proof. unfold forward_query. keep. Qed.
#[local] Hint Resolve keeps_forward : dnsdb.
Lemma keeps_query src data :
  keeps (query_handler cfg dcfg pipelined make_address open_ec bind_ec send_ec cancel_ec
    buf qtype0 qclass0 fuel src data).
Proof. unfold query_handler, in_recved. keep. Qed.
#[local] Hint Resolve keeps_query : dnsdb.

Lemma keeps_for_each {A} (f : A -> @DM P unit) l : (forall x, keeps (f x)) -> keeps (for_each f l).
Proof. intros Hf. induction l; cbn [for_each]; keep. Qed.
#[local] Hint Resolve keeps_for_each : dnsdb.

Lemma keeps_step e : keeps (step e).
Proof.
  destruct e; cbn [d_step]; unfold d_complete, query_read_done, async_read_udp, d_destroy, clear_dead; keep.
Qed.

Inductive d_reachable (p : P) : dworld P -> Prop :=
| d_reach_start w : d_open open_ec bind_ec (d_init p) = Ret (true, w) -> d_reachable p w
| d_reach_step w e w' : d_reachable p w -> step e w = Ret (tt, w') -> d_reachable p w'.

Lemma d_reachable_CI p w : d_reachable p w -> CI w.
Proof.
  induction 1 as [w Hw|w e w' _ IH Hw].
  - assert (H0 : CI (d_init p)) by constructor.
    assert (Hk : keeps (d_open open_ec bind_ec)) by (unfold d_open, async_read_udp; keep).
    specialize (Hk _ H0). rewrite Hw in Hk. apply Hk.
  - pose proof (keeps_step e w IH) as Hk. rewrite Hw in Hk. apply Hk.
Qed.

(** C17: in every run, a question is answered from the cache exactly when the
    cache has an entry of its name that has not expired; the client then gets
    what the upstream server once answered to a question of that name, with the
    id of the client's query, and nothing else is sent. *)
Theorem dns_cache_answers p w src h q :
  d_reachable p w -> enable_cached dcfg = true ->
  (exists w' c up data, find_in_dns_cache dcfg src h q w = Ret (true, w') /\
     c ∈ m_dns_cache w /\ domain c = QNAME q /\ expired (d_now w) c = false /\
     FromUp (proxyed c) up data ∈ d_trace w /\ from_reply c data /\
     d_trace w' = d_trace w ++
       [ToLocal src (z2b (Z.shiftr (ID h) 8) :: z2b (Z.land (ID h) 255) :: drop 2 data)]) \/
  (exists w', find_in_dns_cache dcfg src h q w = Ret (false, w') /\ d_trace w' = d_trace w /\
     forall c, c ∈ m_dns_cache w -> domain c = QNAME q -> expired (d_now w) c = true).
Proof.
  intros HR He. pose proof (d_reachable_CI _ _ HR) as Hw.
  unfold find_in_dns_cache. rewrite He. cbn [negb]. unfold bind, gets, modify, lift.
  pose proof (live_entries _ (d_now w) _ Hw) as Hlive.
  cbn [m_dns_cache update d_now]. cbn.
  destruct (find_loop_spec (d_trace w) (QNAME q) (ID h) _ Hlive)
    as [(raw & l' & -> & _ & c & Hc & Hd & ->)|[-> Hn]].
  - left. apply list_elem_of_In, filter_In in Hc as [Hc Hx]. apply list_elem_of_In in Hc. apply negb_true_iff in Hx.
    pose proof Hw as Hall. unfold CI in Hall. rewrite list.Forall_forall in Hall.
    destruct (Hall c Hc) as (up & data & H1 & H2 & _ & H4).
    eexists _, c, up, data. split; [done|]. split_and!; try done. cbn. by rewrite H4.
  - right. eexists. split; [done|]. split; [done|]. intros c Hc Hd.
    rewrite list.Forall_forall in Hn. destruct (expired (d_now w) c) eqn:E; [done|]. exfalso.
    apply (Hn c); [|done]. apply list_elem_of_In, filter_In. split; [by apply list_elem_of_In|by rewrite E].
Qed.

(** In every run, an address is reported as one to be proxied exactly when
    some entry of the cache that came through the proxy holds it (the binary
    search is a membership test), and it then is an address record of an answer
    that the upstream server behind the proxy gave. *)
Theorem dns_gfwlist_membership p w ip :
  d_reachable p w ->
  (is_ip_in_gfwlist (m_dns_cache w) ip = true <->
   exists c, c ∈ m_dns_cache w /\ proxyed c = true /\ ip ∈ ips c) /\
  (is_ip_in_gfwlist (m_dns_cache w) ip = true ->
   exists src data i a an, FromUp true src data ∈ d_trace w /\
     read_dns_answer buf qtype0 qclass0 v6_to_string fuel (istringstream data) = Ret (i, a) /\
     an ∈ answers a /\ A an = ip /\ ip <> 0).
Proof.
  intros HR. pose proof (d_reachable_CI _ _ HR) as Hw. unfold CI in Hw. rewrite list.Forall_forall in Hw.
  assert (Hiff : is_ip_in_gfwlist (m_dns_cache w) ip = true <->
    exists c, c ∈ m_dns_cache w /\ proxyed c = true /\ ip ∈ ips c).
  { unfold is_ip_in_gfwlist. rewrite existsb_exists.
    assert (Hb : forall c, c ∈ m_dns_cache w -> (binary_search (ips c) ip = true <-> ip ∈ ips c)).
    { intros c Hc. apply binary_search_spec. destruct (Hw c Hc) as (? & ? & _ & (? & ? & ? & ? & H) & _).
      destruct H as (_ & _ & _ & _ & _ & _ & ->). apply StronglySorted_merge_sort; apply _. }
    split.
    - intros (c & Hc & [H1 H2]%andb_true_iff). apply list_elem_of_In in Hc. exists c.
      split; [done|]. split; [done|]. by apply Hb.
    - intros (c & Hc & H1 & H2). exists c. split; [by apply list_elem_of_In|].
      rewrite H1. cbn. by apply Hb. }
  split; [exact Hiff|]. intros (c & Hc & H1 & H2)%Hiff.
  destruct (Hw c Hc) as (src & data & Hin & (i & a & q & qs & R1 & R2 & R3 & R4 & R5 & R6 & R7) & _).
  rewrite H1 in Hin. rewrite R7, merge_sort_Permutation, scan_answers_addresses in H2.
  apply list_elem_of_In, in_map_iff in H2 as (an & Ha & [H3 H4]%filter_In).
  exists src, data, i, a, an. split; [done|]. split; [done|]. split; [by apply list_elem_of_In|].
  split; [done|]. apply negb_true_iff, Z.eqb_neq in H4. congruence.
Qed.

(** *** Where a query goes *)

Section Routing.
Context {PL : ProxyLaws P}.

Lemma offer_proxies_none l src data (w : dworld P) :
  Forall (fun h => px_alive (proxies w) h = true /\ px_source (proxies w) h <> Some src) l ->
  offer_proxies l src data w = Ret (false, w).
Proof.
  induction 1 as [|h l [Ha Hs] _ IH]; [done|]. cbn [offer_proxies]. unfold bind, on_proxies.
  rewrite px_process_other by done.
  replace (w <| proxies := proxies w |>) with w by by destruct w. exact IH.
Qed.
Lemma offer_locals_none l src data (w : dworld P) :
  Forall (fun h => exists s, locals w !! h = Some s /\ m_local_src s <> src) l ->
  offer_locals send_ec l src data w = Ret (false, w).
Proof.
  induction 1 as [|h l (s & Hs & Hn) _ IH]; [done|]. cbn [offer_locals].
  unfold bind at 1, lf_process, bind at 1, getL. rewrite Hs.
  rewrite bool_decide_false by congruence. exact IH.
Qed.

(** The lists of forwarders without the dead ones *)
Definition live_proxies (w : dworld P) : list nat :=
  fst (clear_weak_ptr_list (fun h => negb (px_alive (proxies w) h)) (m_proxy_forwarders w)).
Definition live_locals (w : dworld P) : list nat :=
  fst (clear_weak_ptr_list (fun h => negb (is_local_alive w h)) (m_forwarders w)).
Definition cleared (w : dworld P) : dworld P :=
  w <| m_proxy_forwarders := live_proxies w |> <| m_forwarders := live_locals w |>.

(** A query whose client has no forwarder yet goes to a new one: none of the
    forwarders of other clients takes it, and the dead ones are forgotten. *)
Theorem dns_new_client_routed src data w :
  (forall h, h ∈ m_proxy_forwarders w -> px_source (proxies w) h <> Some src) ->
  (forall h s, h ∈ m_forwarders w -> locals w !! h = Some s -> m_local_src s <> src) ->
  forall proxy,
  (taken <- try_to_find_existed send_ec src data ;;
   if taken : bool then skip
   else forward_query cfg dcfg pipelined make_address open_ec bind_ec send_ec cancel_ec src proxy data) w =
  forward_query cfg dcfg pipelined make_address open_ec bind_ec send_ec cancel_ec src proxy data (cleared w).
Proof.
  intros Hp Hl proxy.
  assert (E : try_to_find_existed send_ec src data w = Ret (false, cleared w)).
  { unfold try_to_find_existed, clear_dead, bind, modify, gets. cbv beta iota.
    match goal with |- match offer_proxies ?l _ _ ?w' with _ => _ end = _ =>
      change (offer_proxies l src data w') with (offer_proxies (live_proxies w) src data (cleared w)) end.
    rewrite offer_proxies_none.
    - cbv beta iota.
      match goal with |- offer_locals _ ?l _ _ ?w' = _ =>
        change (offer_locals send_ec l src data w') with (offer_locals send_ec (live_locals w) src data (cleared w)) end.
      apply offer_locals_none. apply list.Forall_forall. intros h Hh. unfold live_locals in Hh.
      rewrite (proj1 (clear_weak_ptr_list_spec _ _)) in Hh. apply list_elem_of_filter in Hh as [Ha Hin].
      apply negb_false_iff, bool_decide_eq_true in Ha as [s Hs]. exists s. split; [done|]. by apply (Hl h).
    - apply list.Forall_forall. intros h Hh. unfold live_proxies in Hh.
      rewrite (proj1 (clear_weak_ptr_list_spec _ _)) in Hh. apply list_elem_of_filter in Hh as [Ha Hin].
      apply negb_false_iff in Ha. split; [done|]. by apply Hp. }
  unfold bind. by rewrite E.
Qed.

End Routing.

(** *** The upstream server of a forwarder *)

(** [m] keeps [Φ] of forwarder [h]. *)
Definition keeps_of (h : nat) (Φ : UDPLocalForwarder -> Prop) {A} (m : @DM P A) : Prop :=
  forall w s, locals w !! h = Some s -> Φ s ->
  match m w with Ret (_, w') => exists s', locals w' !! h = Some s' /\ Φ s' | _ => True end.

Lemma keeps_of_bind h Φ {A B} (m : @DM P A) (k : A -> @DM P B) :
  keeps_of h Φ m -> (forall a, keeps_of h Φ (k a)) -> keeps_of h Φ (bind m k).
Proof.
  intros Hm Hk w s Hs HΦ. specialize (Hm w s Hs HΦ). unfold bind.
  destruct (m w) as [[a w1]| |]; [|done|done]. destruct Hm as (s1 & Hs1 & H1).
  exact (Hk a w1 s1 Hs1 H1).
Qed.
Lemma keeps_of_same h Φ {A} (m : @DM P A) :
  (forall w, match m w with Ret (_, w') => locals w' = locals w | _ => True end) -> keeps_of h Φ m.
Proof.
  intros Hm w s Hs HΦ. specialize (Hm w). destruct (m w) as [[a w']| |]; [|done|done].
  rewrite Hm. eauto.
Qed.
Lemma keeps_of_modL h (Φ : UDPLocalForwarder -> Prop) f :
  (forall s, Φ s -> Φ (f s)) -> keeps_of h Φ (modL h f).
Proof. intros Hf w s Hs HΦ. cbn. rewrite lookup_alter_eq, Hs. cbn. eauto. Qed.

Lemma recv_up_locals src data prox w :
  match recv_up_stream_data (P := P) dcfg v6_to_string buf qtype0 qclass0 fuel src data prox w with
  | Ret (_, w') => locals w' = locals w
  | _ => True
  end.
Proof.
  unfold recv_up_stream_data, bind, d_emit, send_to_local, d_emit, modify.
  unfold store_in_dns_cache. destruct (negb _); [done|]. unfold bind at 1, lift.
  destruct (read_reply data) as [[i a]| |]; [|done|done]. cbn [fst snd].
  destruct (failed i); [done|]. destruct (questions a) as [|q qs]; [done|].
  destruct (negb _); [done|]. destruct (scan_answers (answers a)) as [t l]. by destruct (t =? UINT32_MAX).
Qed.

Definition sends_to (src from : endpoint) (s : UDPLocalForwarder) : Prop :=
  m_local_src s = src /\ m_remote_dst s = from.

Lemma keeps_of_getL h Φ k : keeps_of h Φ (getL k).
Proof. apply keeps_of_same. intros w. unfold getL. by destruct (locals w !! k). Qed.

Ltac keep_of :=
  repeat first
    [ progress intros
    | solve [apply keeps_of_same; intros ?; apply recv_up_locals]
    | apply keeps_of_getL
    | apply keeps_of_bind
    | solve [apply keeps_of_modL; by intros ? [? ?]]
    | solve [apply keeps_of_same; intros ?; done]
    | solve [apply keeps_of_same; intros ?; unfold lift; destruct (begin_read _); done]
    | match goal with |- keeps_of _ _ (match ?x with _ => _ end) => destruct x end ].

(** A forwarder takes whoever sent it a datagram for its upstream server:
    from then on its client's queries go to that sender. *)
Theorem forwarder_follows_sender h ec data from w s w' :
  locals w !! h = Some s ->
  lf_read_done cfg dcfg v6_to_string cancel_ec buf qtype0 qclass0 fuel h ec data from w = Ret (tt, w') ->
  forall q w2, lf_process (P := P) send_ec h (m_local_src s) q w' = Ret (true, w2) ->
    d_trace w2 = d_trace w' ++ [ToUp h from q].
Proof.
  intros Hs Hr q w2 Hp. unfold lf_read_done, bind at 1, modL at 1, modify at 1 in Hr.
  match type of Hr with ?m ?w1 = _ => assert (Hk : keeps_of h (sends_to (m_local_src s) from) m) end.
  { unfold lf_async_read, lf_udp_timer_async_wait, lf_timer_act, lf_destroy. keep_of. }
  match type of Hr with ?m ?w1 = _ => specialize (Hk w1 (s <| m_remote_dst := from |>)) end.
  rewrite Hr in Hk. destruct Hk as (s' & Hs' & E1 & E2).
  { cbn. by rewrite lookup_alter_eq, Hs. }
  { done. }
  unfold lf_process, bind at 1, getL in Hp. rewrite Hs', E1, bool_decide_true in Hp by done. cbn [negb] in Hp.
  unfold lf_write_to, bind at 1, getL in Hp. rewrite Hs' in Hp. destruct (m_destroyed s'); [done|].
  unfold bind, d_emit, modify, d_ask in Hp. rewrite E2 in Hp. cbn in Hp.
  match type of Hp with context [negb ?b] => destruct b end; [by injection Hp as <-|].
  cbn [negb] in Hp.
  by match type of Hp with context [match ?m ?x with _ => _ end] => destruct (m x) as [[]| |] end.
Qed.

(** An upstream answer whose name points to itself stops the server: it is
    read for the cache, and reading it does not end. *)
Theorem dns_answer_loop_diverges src prox w :
  enable_cached dcfg = true ->
  recv_up_stream_data (P := P) dcfg v6_to_string buf qtype0 qclass0 fuel src loop_message prox w = Undef NoEnd.
Proof.
  intros He. unfold recv_up_stream_data, bind, d_emit, send_to_local, d_emit, modify, store_in_dns_cache.
  rewrite He. cbn [negb]. unfold bind, lift. by rewrite dns_pointer_loop_diverges.
Qed.

End Cache.

(** ** A run *)
Module DDemo.

Definition cfg : Config :=
  mkConfig (str "server") 443 (str "8.8.8.8") 53 [(str "pw", str "secret")] 60 8192 [] (str "x") true
    10 200 0.
Definition listed : list DomainMatcher.DomainMatcher.DomainLinkData :=
  snd (DomainMatcher.DomainMatcher.load_from_stream (str "||listed.com") []).
Definition dcfg : DnsConfig := mkDnsConfig true 10 [str "1.1.1.1"] [str "8.8.8.8"] listed [].
Definition direct_server : address := V4 Byte.x01 Byte.x01 Byte.x01 Byte.x01.
Definition make_address (b : bytes) : option address :=
  if bool_decide (b = str "8.8.8.8") then Some (V4 Byte.x08 Byte.x08 Byte.x08 Byte.x08)
  else if bool_decide (b = str "1.1.1.1") then Some direct_server else None.
Definition no_error (_ : nat) : error_code := 0.
Definition yes (_ : nat) : bool := true.
Definition PF : ProxySessions fworld :=
  forward_sessions cfg 10 false make_address (fun _ => []) yes yes no_error no_error no_error 1.
Definition stack : bytes := replicate 255 Byte.x00.
Definition step : devent fworld -> @DM fworld unit :=
  @d_step fworld PF cfg dcfg false make_address (fun _ => []) no_error no_error no_error no_error
    stack 0 0 600.
Definition reach := @d_reachable fworld PF cfg dcfg false make_address (fun _ => []) no_error no_error
  no_error no_error stack 0 0 600 f_init.

Definition client : endpoint := mkEndpoint (V4 Byte.x0a Byte.x00 Byte.x00 Byte.x01) 4000.
Definition upstream : endpoint := mkEndpoint direct_server 53.

(** A query for a name, as a client sends it *)
Definition query (id : Z) (name : string) (qtype : Z) : bytes :=
  write_question (write_header [] (set_QDCOUNT (set_RD (set_ID new_header id) 1) 1))
    (mkQuestion (str name) qtype 1).

Fixpoint run (es : list (devent fworld)) (w : dworld fworld) : option (dworld fworld) :=
  match es with
  | [] => Some w
  | e :: es => match step e w with Ret (_, w') => run es w' | _ => None end
  end.
Definition start : option (dworld fworld) :=
  match d_open no_error no_error (d_init f_init) with Ret (true, w) => Some w | _ => None end.
Definition after (es : list (devent fworld)) : dworld fworld := default (d_init f_init) (start ≫= run es).

Lemma run_reached es w w' : reach w -> run es w = Some w' -> reach w'.
Proof.
  revert w. induction es as [|e es IH]; intros w Hw E; cbn in E; [congruence|].
  destruct (step e w) as [[[] w1]| |] eqn:Es; [|done|done].
  eapply IH; [|exact E]. by eapply d_reach_step.
Qed.
Lemma start_reached es : bool_decide (is_Some (start ≫= run es)) = true -> reach (after es).
Proof.
  intros [w Hw]%bool_decide_eq_true. unfold after. rewrite Hw. cbn. revert Hw. unfold start.
  destruct (d_open no_error no_error (d_init f_init)) as [[[] w0]| |] eqn:E0; cbn; try done.
  apply run_reached. by apply d_reach_start.
Qed.

(** A question about an address and its answer *)
Definition asked : list (devent fworld) :=
  [DComplete 0 (DReceived 0 (query 7 "www.baidu.com" 1) client);
   DComplete 1 (DReceived 0 baidu_answer upstream)].

(** The client asks for the IPv6 address of the name instead. *)
Definition asked_v6 : list (devent fworld) :=
  asked ++ [DComplete 1 (DReceived 0 (query 9 "www.baidu.com" 28) client)].
(** The same client asks for another name, then for a listed one. *)
Definition asked_listed : list (devent fworld) :=
  [DComplete 0 (DReceived 0 (query 7 "www.baidu.com" 1) client);
   DComplete 2 (DReceived 0 (query 8 "www.listed.com" 1) client)].

(** A question for the IPv6 address of a name is answered from the cache
    with the answer to the question for its IPv4 address: the cache knows names
    only. *)
Theorem dns_cache_ignores_type :
  reach (after asked_v6) /\
  d_trace (after asked_v6) = d_trace (after asked) ++ [ToLocal client (z2b 0 :: z2b 9 :: drop 2 baidu_answer)] /\
  (exists i a q, read_dns_answer stack 0 0 (fun _ => []) 600 (istringstream baidu_answer) = Ret (i, a) /\
     questions a = [q] /\ QTYPE q = QTYPE_A_RECORD).
Proof.
  split; [apply start_reached; vm_compute; reflexivity|]. split; [vm_compute; reflexivity|].
  eexists _, _, _. split; [vm_compute; reflexivity|]. split; reflexivity.
Qed.

(** A name that is to be looked up through the proxy is sent to the direct
    server when the client still has a forwarder of an earlier question. *)
Theorem dns_listed_name_sent_directly :
  reach (after asked_listed) /\
  wants_proxy cfg dcfg (mkQuestion (str "www.listed.com") QTYPE_A_RECORD QCLASS_INTERNET) = true /\
  list.last (d_trace (after asked_listed)) = Some (ToUp 0 upstream (query 8 "www.listed.com" 1)).
Proof.
  split; [apply start_reached; vm_compute; reflexivity|]. split; vm_compute; reflexivity.
Qed.

Lemma dns_cache_answers_witness :
  exists w' up data, find_in_dns_cache dcfg client (set_ID new_header 9)
      (mkQuestion (str "www.baidu.com") 1 1) (after asked) = Ret (true, w') /\
    FromUp false up data ∈ d_trace (after asked) /\
    d_trace w' = d_trace (after asked) ++ [ToLocal client (z2b 0 :: z2b 9 :: drop 2 data)].
Proof.
  destruct (@dns_cache_answers fworld PF cfg dcfg false make_address (fun _ => []) no_error no_error
    no_error no_error stack 0 0 600 f_init (after asked) client (set_ID new_header 9)
    (mkQuestion (str "www.baidu.com") 1 1) (start_reached asked ltac:(vm_compute; reflexivity)) eq_refl)
    as [(w' & c & up & data & H1 & H2 & H3 & H4 & H5 & H6 & H7)|(w' & H1 & _)].
  - exists w', up, data. split; [exact H1|].
    assert (E : proxyed c = false).
    { assert (Hall : Forall (fun x => proxyed x = false) (m_dns_cache (after asked)))
        by (vm_compute; repeat constructor).
      rewrite list.Forall_forall in Hall. exact (Hall c H2). }
    rewrite E in H5. split; [exact H5|exact H7].
  - exfalso. revert H1. vm_compute. discriminate.
Defined.

Lemma dns_gfwlist_membership_witness :
  is_ip_in_gfwlist (m_dns_cache (after asked)) 3026530571 = false /\
  ((exists c, c ∈ m_dns_cache (after asked) /\ proxyed c = true /\ 3026530571 ∈ ips c) -> False).
Proof.
  split; [vm_compute; reflexivity|]. intros H.
  apply (@dns_gfwlist_membership fworld PF cfg dcfg false make_address (fun _ => []) no_error no_error
    no_error no_error stack 0 0 600 f_init (after asked) 3026530571
    (start_reached asked ltac:(vm_compute; reflexivity))) in H.
  revert H. vm_compute. discriminate.
Defined.

Lemma dns_new_client_routed_witness :
  (taken <- try_to_find_existed (PS := PF) no_error upstream (query 8 "www.listed.com" 1) ;;
   if taken : bool then skip
   else forward_query (PS := PF) cfg dcfg false make_address no_error no_error no_error no_error upstream
     true (query 8 "www.listed.com" 1)) (after asked) =
  forward_query (PS := PF) cfg dcfg false make_address no_error no_error no_error no_error upstream
     true (query 8 "www.listed.com" 1) (cleared (PS := PF) (after asked)).
Proof.
  assert (E1 : m_proxy_forwarders (after asked) = []) by (vm_compute; reflexivity).
  assert (E2 : m_forwarders (after asked) = [0%nat]) by (vm_compute; reflexivity).
  assert (E3 : m_local_src <$> (locals (after asked) !! 0%nat) = Some client) by (vm_compute; reflexivity).
  apply (@dns_new_client_routed fworld PF cfg dcfg false make_address no_error no_error no_error no_error
    (forward_sessions_laws cfg 10 false make_address (fun _ => []) yes yes no_error no_error no_error 1)
    upstream (query 8 "www.listed.com" 1) (after asked)).
  - intros h Hh. rewrite E1 in Hh. exfalso. exact (not_elem_of_nil h Hh).
  - intros h s Hh Hs. rewrite E2 in Hh. apply list_elem_of_singleton in Hh as ->.
    rewrite Hs in E3. injection E3 as ->. discriminate.
Defined.

Definition first_forwarder : UDPLocalForwarder :=
  default (new_local client upstream) (locals (after (take 1 asked)) !! 0%nat).

Definition spoofer : endpoint := mkEndpoint (V4 Byte.x06 Byte.x06 Byte.x06 Byte.x06) 53.
Definition before_read : dworld fworld := after (take 1 asked) <| d_pending ::= delete 1%nat |>.

Definition after_spoof : dworld fworld :=
  after [DComplete 0 (DReceived 0 (query 7 "www.baidu.com" 1) client);
         DComplete 1 (DReceived 0 (str "x") spoofer)].

Lemma forwarder_follows_sender_witness :
  exists w2, lf_process no_error 0 client (str "q") after_spoof = Ret (true, w2) /\
    d_trace w2 = d_trace after_spoof ++ [ToUp 0 spoofer (str "q")].
Proof.
  assert (H1 : locals before_read !! 0%nat = Some first_forwarder) by (vm_compute; reflexivity).
  assert (Hp : exists w2, lf_process no_error 0 client (str "q") after_spoof = Ret (true, w2))
    by (eexists; vm_compute; reflexivity).
  destruct Hp as [w2 Hp]. exists w2. split; [exact Hp|].
  apply (forwarder_follows_sender (P := fworld) cfg dcfg (fun _ => []) no_error no_error stack 0 0 600 0 0
    (str "x") spoofer before_read first_forwarder after_spoof H1); [|exact Hp].
  vm_compute. reflexivity.
Defined.

Lemma dns_answer_loop_diverges_witness :
  recv_up_stream_data (P := fworld) dcfg (fun _ => []) stack 0 0 600 client loop_message false
    (d_init f_init) = Undef NoEnd.
Proof.
  exact (dns_answer_loop_diverges (P := fworld) dcfg (fun _ => []) stack 0 0 600 client false
    (d_init f_init) eq_refl).
Defined.

End DDemo.
