(* ===== verification/Icmp.v ===== *)
(** * ICMP through the pipeline

    The headers [ipv4_header] and [icmp_header] ([src/src/proto/ipv4_header.h],
    [icmp_header.h]) and [icmpd] ([src/src/core/icmpd.cpp]): the client's
    echo requests travel to the server, which sends them on under its own address
    and gives the replies back to the pipeline they came from. *)

From Stdlib Require Import ZArith Lia.
From S2P Require Import Prelude Utils Address Caches Session Dns.
Import Streambuf Codec Checksum Istream.
Local Open Scope Z_scope.
Local Open Scope handler_scope.

(** ** Arrays of octets *)
Definition octet (h : bytes) (i : nat) : Z := b2z (nth i h Byte.x00).
Definition set_octet (h : bytes) (i : nat) (v : Z) : bytes := <[i := z2b v]> h.
Definition decode (h : bytes) (a b : nat) : Z :=
  u16 (Z.shiftl (octet h a) one_byte_shift_8_bits + octet h b).
Definition encode (h : bytes) (a b : nat) (n : Z) : bytes :=
  let h := set_octet h a (Z.shiftr n one_byte_shift_8_bits) in
  set_octet h b (Z.land n one_byte_mask_0xFF).

(** [boost::asio::ip::address_v4] *)
Definition address_v4 : Type := byte * byte * byte * byte.
Definition unspecified : address_v4 := (Byte.x00, Byte.x00, Byte.x00, Byte.x00).
Definition v4_text (a : address_v4) : bytes :=
  let '(b0, b1, b2, b3) := a in v4_to_string b0 b1 b2 b3.

(** The sum of an Internet checksum, folded: [sum = (sum >> 16) + (sum & 0xFFFF);
    sum += sum >> 16; ~sum] *)
Definition fold_sum (sum : Z) : Z :=
  let sum := u32 (Z.shiftr sum 16 + Z.land sum 65535) in
  let sum := u32 (sum + Z.shiftr sum 16) in
  u16 (Z.lnot sum).

(** ** ipv4_header *)
Module Ipv4.

Definition HEADER_FIXED_LENGTH : Z := 20.
Definition HEADER_OPTIONS_LENGTH : Z := 40.
(** [rep_], an array of 60 octets *)
Definition ipv4_header := bytes.
Definition new_header : ipv4_header := replicate 60 Byte.x00.

Definition version (h : ipv4_header) : Z := Z.land (Z.shiftr (octet h 0) 4) 15.
Definition header_length (h : ipv4_header) : Z := Z.land (octet h 0) 15 * 4.
Definition total_length (h : ipv4_header) : Z := decode h 2 3.
Definition identification (h : ipv4_header) : Z := decode h 4 5.
Definition time_to_live (h : ipv4_header) : Z := octet h 8.
Definition protocol (h : ipv4_header) : Z := octet h 9.
Definition header_checksum (h : ipv4_header) : Z := decode h 10 11.
Definition source_address (h : ipv4_header) : address_v4 :=
  (nth 12 h Byte.x00, nth 13 h Byte.x00, nth 14 h Byte.x00, nth 15 h Byte.x00).
Definition destination_address (h : ipv4_header) : address_v4 :=
  (nth 16 h Byte.x00, nth 17 h Byte.x00, nth 18 h Byte.x00, nth 19 h Byte.x00).

Definition set_time_to_live (h : ipv4_header) (v : Z) : ipv4_header := set_octet h 8 v.
Definition set_identification (h : ipv4_header) (v : Z) : ipv4_header := encode h 4 5 v.
Definition set_header_checksum (h : ipv4_header) (v : Z) : ipv4_header := encode h 10 11 v.
Definition set_total_length (h : ipv4_header) (v : Z) : ipv4_header := encode h 2 3 v.
Definition set_address (h : ipv4_header) (i : nat) (a : address_v4) : ipv4_header :=
  let '(b0, b1, b2, b3) := a in
  <[(i + 3)%nat := b3]> (<[(i + 2)%nat := b2]> (<[(i + 1)%nat := b1]> (<[i := b0]> h))).
Definition set_source_address (h : ipv4_header) (a : address_v4) : ipv4_header := set_address h 12 a.
Definition set_destination_address (h : ipv4_header) (a : address_v4) : ipv4_header :=
  set_address h 16 a.

(** [is >> header] for a new header *)
Definition read_ipv4 (i : istream) : istream * ipv4_header :=
  let '(i, got) := read i HEADER_FIXED_LENGTH in
  let h := got ++ drop (length got) new_header in
  if failed i then (i, h) else
  let i := if negb (version h =? 4) then i <| failed := true |> else i in
  let options_length := header_length h - HEADER_FIXED_LENGTH in
  if (options_length <? 0) || (HEADER_OPTIONS_LENGTH <? options_length)
  then (i <| failed := true |>, h)
  else
    let '(i, got) := read i options_length in
    (i, take 20 h ++ got ++ drop (20 + length got) h).

(** [os << header]: the text written and whether the stream is good after it *)
Definition write_ipv4 (os : bytes * bool) (h : ipv4_header) : bytes * bool :=
  if negb (snd os) then os else
  let options_length := header_length h - HEADER_FIXED_LENGTH in
  if options_length <? 0 then (fst os ++ take 20 h, false)
  else (fst os ++ take 20 h ++ take (Z.to_nat options_length) (drop 20 h), true).

Fixpoint header_sum (n : nat) (i : nat) (h : ipv4_header) (sum : Z) : Z :=
  match n with
  | O => sum
  | S n =>
    header_sum n (S (S i)) h
      (u32 (u32 (sum + Z.shiftl (octet h i) one_byte_shift_8_bits) + octet h (S i)))
  end.
Definition assign_header_checksum (h : ipv4_header) : ipv4_header :=
  let h := set_header_checksum h 0 in
  set_header_checksum h (fold_sum (header_sum 10 0 h 0)).

End Ipv4.

(** ** icmp_header *)
Module IcmpHeader.

Definition echo_reply : Z := 0.
Definition echo_request : Z := 8.
Definition time_exceeded : Z := 11.
Definition HEADER_LENGTH : Z := 8.
Definition icmp_header := bytes.
Definition new_header : icmp_header := replicate 8 Byte.x00.

Definition type (h : icmp_header) : Z := octet h 0.
Definition code (h : icmp_header) : Z := octet h 1.
Definition checksum (h : icmp_header) : Z := decode h 2 3.
Definition identifier (h : icmp_header) : Z := decode h 4 5.
Definition sequence_number (h : icmp_header) : Z := decode h 6 7.
Definition set_type (h : icmp_header) (n : Z) : icmp_header := set_octet h 0 n.
Definition set_code (h : icmp_header) (n : Z) : icmp_header := set_octet h 1 n.
Definition set_checksum (h : icmp_header) (n : Z) : icmp_header := encode h 2 3 n.

Definition read_icmp_header (i : istream) : istream * icmp_header :=
  let '(i, got) := read i HEADER_LENGTH in (i, got ++ drop (length got) new_header).
Definition write_icmp_header (os : bytes * bool) (h : icmp_header) : bytes * bool :=
  if negb (snd os) then os else (fst os ++ h, true).

Definition assign_checksum (h : icmp_header) (body : bytes) : icmp_header :=
  let sum := u32 (Z.shiftl (type h) one_byte_shift_8_bits + code h + identifier h + sequence_number h) in
  set_checksum h (fold_sum (checksum_loop sum body)).

End IcmpHeader.

(** ** icmpd *)
Module Icmpd.
Import Ipv4 IcmpHeader.

Definition ICMP_WAIT_TRANSFER_TIME : Z := 5.
Definition ICMP_DEFAULT_TTL : Z := 64.

Record IcmpSentData := mkSent {
  pipeline_session : nat;               (* weak_ptr *)
  source : address_v4;
  destination : address_v4;
  sent_time : Z
}.

Inductive ieffect :=
| SendTo (data : bytes) (dst : address_v4)            (* async_send_to *)
| WriteIcmp (session : nat) (data : bytes)            (* PipelineSession::session_write_icmp *)
| SendIcmp (data : bytes).                            (* session_async_send_to_pipeline_icmp *)

Record icmpd := mkIcmpd {
  m_client_or_server : bool;
  m_transfer_table : gmap bytes IcmpSentData;
  m_sending_data_cache : list (bytes * address_v4);
  m_is_sending_cache : bool;
  sessions_alive : gset nat;            (* the pipeline sessions that exist *)
  default_pipeline : option (option address_v4);   (* and the peer's IPv4 address *)
  i_now : Z;
  i_trace : list ieffect
}.
#[export] Instance eta_icmpd : Settable icmpd :=
  fun r => mkIcmpd (m_client_or_server r) (m_transfer_table r) (m_sending_data_cache r)
    (m_is_sending_cache r) (sessions_alive r) (default_pipeline r) (i_now r) (i_trace r).

Definition IM := M icmpd.
Definition i_emit (e : ieffect) : IM unit :=
  modify (fun w => w <| i_trace ::= fun l => l ++ [e] |>).

Definition check_transfer_table_timeout : IM unit :=
  modify (fun w => w <| m_transfer_table ::=
    filter (fun e => i_now w - sent_time (snd e) <= ICMP_WAIT_TRANSFER_TIME) |>).

(** [emplace] keeps an entry that is there. *)
Definition add_transfer_table (hash : bytes) (data : IcmpSentData) : IM unit :=
  w <- gets id ;;
  if m_client_or_server w then throw (logic_error "[icmp] client don't need use add_transfer_table")
  else
    check_transfer_table_timeout ;;;
    modify (fun w => w <| m_transfer_table ::= fun t =>
      match t !! hash with Some _ => t | None => <[hash := data]> t end |>).

Definition find_icmp_sent_data (hash : bytes) (erase : bool) : IM (option IcmpSentData) :=
  check_transfer_table_timeout ;;;
  w <- gets id ;;
  match m_transfer_table w !! hash with
  | Some session =>
    if bool_decide (pipeline_session session ∈ sessions_alive w) then
      when erase (modify (fun w => w <| m_transfer_table ::= delete hash |>)) ;;;
      ret (Some session)
    else ret None
  | None => ret None
  end.

(** [read_icmp]: the headers and the body *)
Definition read_icmp (i : istream) (length : Z)
  : outcome (option (ipv4_header * icmp_header * bytes)) :=
  let '(i, ipv4_hdr) := read_ipv4 i in
  let '(i, icmp_hdr) := read_icmp_header i in
  if failed i then Ret None else
  let remain := length - header_length ipv4_hdr - HEADER_LENGTH in
  if remain <? 0 then Throw (logic_error "basic_string::resize")
  else
    let '(i, got) := read i remain in
    Ret (Some (ipv4_hdr, icmp_hdr,
      got ++ replicate (Z.to_nat remain - List.length got) Byte.x00)).

(** [os << ipv4_hdr << icmp_hdr << body] *)
Definition packet (ipv4_hdr : ipv4_header) (icmp_hdr : icmp_header) (body : bytes) : bytes :=
  let os := write_icmp_header (write_ipv4 ([], true) ipv4_hdr) icmp_hdr in
  if snd os then fst os ++ body else fst os.

(** [async_out_send]; [IcmpSent] is the operation in progress. *)
Definition async_out_send : IM unit :=
  w <- gets id ;;
  if m_is_sending_cache w then skip else
  match m_sending_data_cache w with
  | [] => skip
  | (data, dst) :: _ =>
    modify (fun w => w <| m_is_sending_cache := true |>) ;;;
    i_emit (SendTo data dst) ;;;
    modify (fun w => w <| m_sending_data_cache ::= tail |>)
  end.
(** Its completion; the error is logged. *)
Definition send_done (ec : error_code) : IM unit :=
  modify (fun w => w <| m_is_sending_cache := false |>) ;;;
  async_out_send.

Definition send_data_to_socket (data : bytes) (addr : address_v4) : IM unit :=
  modify (fun w => w <| m_sending_data_cache ::= fun l => l ++ [(data, addr)] |>) ;;;
  async_out_send.

(** The text and the changed header *)
Definition generate_time_exceeded_icmp (ipv4_hdr : ipv4_header) (icmp_hdr : icmp_header)
  : bytes * ipv4_header :=
  let send_back_body := packet ipv4_hdr icmp_hdr [] in
  let src := source_address ipv4_hdr in
  let ipv4_hdr := set_destination_address ipv4_hdr src in
  let ipv4_hdr := set_time_to_live ipv4_hdr ICMP_DEFAULT_TTL in
  let ipv4_hdr := set_source_address ipv4_hdr unspecified in
  let icmp_hdr := set_type icmp_hdr time_exceeded in
  let icmp_hdr := set_code icmp_hdr 0 in
  let icmp_hdr := assign_checksum icmp_hdr send_back_body in
  (packet ipv4_hdr icmp_hdr send_back_body, ipv4_hdr).

Definition send_back_time_exceeded (ipv4_hdr : ipv4_header) (icmp_hdr : icmp_header) : IM unit :=
  let '(data, ipv4_hdr) := generate_time_exceeded_icmp ipv4_hdr icmp_hdr in
  send_data_to_socket data (destination_address ipv4_hdr).

Definition hash_of (a : address_v4) (icmp_hdr : icmp_header) : bytes :=
  v4_text a ++ Text.to_string echo_request ++ Text.to_string (identifier icmp_hdr) ++
  Text.to_string (sequence_number icmp_hdr).

Definition recv_client (ipv4_hdr : ipv4_header) (icmp_hdr : icmp_header) (body : bytes) : IM unit :=
  if negb (type icmp_hdr =? echo_request) then skip
  else if time_to_live ipv4_hdr =? 1 then send_back_time_exceeded ipv4_hdr icmp_hdr
  else
    let ipv4_hdr := set_time_to_live ipv4_hdr (time_to_live ipv4_hdr - 1) in
    let ipv4_hdr := assign_header_checksum ipv4_hdr in
    i_emit (SendIcmp (packet ipv4_hdr icmp_hdr body)).

Definition reply_to_client (sent : IcmpSentData) (ipv4_hdr : ipv4_header) (icmp_hdr : icmp_header)
    (body : bytes) : IM unit :=
  let ipv4_hdr := set_destination_address ipv4_hdr (source sent) in
  i_emit (WriteIcmp (pipeline_session sent) (packet ipv4_hdr icmp_hdr body)).

Definition recv_server (ipv4_hdr : ipv4_header) (icmp_hdr : icmp_header) (body : bytes) : IM unit :=
  if type icmp_hdr =? echo_reply then
    found <- find_icmp_sent_data (hash_of (source_address ipv4_hdr) icmp_hdr) true ;;
    match found with
    | Some sent => reply_to_client sent ipv4_hdr icmp_hdr body
    | None => skip
    end
  else if type icmp_hdr =? time_exceeded then
    r <- lift (read_icmp (istringstream body) (zlen body)) ;;
    match r with
    | None => skip
    | Some (orig_ipv4_hdr, orig_icmp_hdr, _) =>
      found <- find_icmp_sent_data (hash_of (destination_address orig_ipv4_hdr) orig_icmp_hdr) true ;;
      match found with
      | None => skip
      | Some sent =>
        let orig_ipv4_hdr := set_source_address orig_ipv4_hdr (source sent) in
        let orig_ipv4_hdr := assign_header_checksum orig_ipv4_hdr in
        let body := packet orig_ipv4_hdr orig_icmp_hdr [] in
        let icmp_hdr := assign_checksum icmp_hdr body in
        let ipv4_hdr := set_total_length ipv4_hdr
          (u16 (header_length ipv4_hdr + HEADER_LENGTH + zlen body)) in
        reply_to_client sent ipv4_hdr icmp_hdr body
      end
    end
  else skip.

(** The completion of [start_recv] without an error *)
Definition icmp_received (data : bytes) : IM unit :=
  r <- lift (read_icmp (over_streambuf data) (zlen data)) ;;
  match r with
  | None => skip
  | Some (ipv4_hdr, icmp_hdr, body) =>
    w <- gets id ;;
    if m_client_or_server w then recv_client ipv4_hdr icmp_hdr body
    else recv_server ipv4_hdr icmp_hdr body
  end.

Definition server_out_send (data : bytes) (session : nat) : IM unit :=
  w <- gets id ;;
  if m_client_or_server w then throw (logic_error "[icmp] client cannot call icmpd::server_out_send")
  else
  r <- lift (read_icmp (istringstream data) (zlen data)) ;;
  match r with
  | None => skip
  | Some (ipv4_hdr, icmp_hdr, body) =>
    if negb (type icmp_hdr =? echo_request)
    then throw (logic_error "[icmp] can only proxy client ping message!")
    else if time_to_live ipv4_hdr =? 1
    then
      if bool_decide (session ∈ sessions_alive w)
      then i_emit (WriteIcmp session (fst (generate_time_exceeded_icmp ipv4_hdr icmp_hdr)))
      else fun _ => Undef NoObject
    else
      let dst := destination_address ipv4_hdr in
      let src := source_address ipv4_hdr in
      let ipv4_hdr := set_source_address ipv4_hdr unspecified in
      send_data_to_socket (packet ipv4_hdr icmp_hdr body) dst ;;;
      add_transfer_table (hash_of dst icmp_hdr) (mkSent session src dst (i_now w))
  end.

Definition client_out_send (data : bytes) : IM unit :=
  w <- gets id ;;
  if negb (m_client_or_server w)
  then throw (logic_error "[icmp] server cannot call icmpd::client_out_send")
  else
  r <- lift (read_icmp (istringstream data) (zlen data)) ;;
  match r with
  | None => skip
  | Some (ipv4_hdr, icmp_hdr, body) =>
    if bool_decide (source_address ipv4_hdr = unspecified) then
      match default_pipeline w with
      | Some (Some addr) =>
        let ipv4_hdr := set_source_address ipv4_hdr addr in
        let ipv4_hdr := set_identification ipv4_hdr (u16 (i_now w)) in
        send_data_to_socket (packet ipv4_hdr icmp_hdr body) (destination_address ipv4_hdr)
      | _ => skip
      end
    else send_data_to_socket data (destination_address ipv4_hdr)
  end.

End Icmpd.
