(* ===== verification/IcmpTheorems.v ===== *)
(** * ICMP: checksums, packets and the transfer table *)

From Stdlib Require Import ZArith Lia.
From S2P Require Import Prelude Utils Address Caches Session Dns Icmp.
Import Streambuf Codec Checksum Istream.
Local Open Scope Z_scope.
Local Open Scope handler_scope.

(** ** The Internet checksum

    RFC 1071: the words of a text, added with the carry brought around, give
    [0xFFFF] when its checksum is right. *)
Definition ones_add (a b : Z) : Z := if a + b <? 65536 then a + b else a + b - 65535.
Definition ones_sum (l : list Z) : Z := foldr ones_add 0 l.
Definition checksum_right (text : bytes) : Prop := ones_sum (words16 text) = 65535.

Definition is_word (z : Z) : Prop := 0 <= z < 65536.
Definition residue (a b : Z) : Prop := (a - b) mod 65535 = 0.

Lemma words16_words s : Forall is_word (words16 s).
Proof.
  induction s as [|b|b c s IH] using list_pair_ind; cbn [words16]; [done| |].
  - constructor; [|done]. pose proof (b2z_range b). unfold is_word. lia.
  - constructor; [|done]. pose proof (b2z_range b). pose proof (b2z_range c). unfold is_word. lia.
Qed.

(** The sum is what [ones_sum] is modulo [0xFFFF], and zero only for zeros. *)
Lemma ones_sum_spec l :
  Forall is_word l ->
  is_word (ones_sum l) /\ residue (sum_list_Z l) (ones_sum l) /\ 0 <= sum_list_Z l /\
  (ones_sum l = 0 -> sum_list_Z l = 0).
Proof.
  unfold is_word, residue. induction 1 as [|x l Hx _ (H1 & H2 & H3 & H4)]; cbn [ones_sum foldr sum_list_Z].
  { by split_and!. }
  fold (ones_sum l) (sum_list_Z l). unfold ones_add. destruct (Z.ltb_spec (x + ones_sum l) 65536).
  - split_and!; try lia. replace (x + sum_list_Z l - (x + ones_sum l)) with (sum_list_Z l - ones_sum l) by lia.
    done.
  - split_and!; try lia. apply Z.mod_divide in H2 as [k Hk]; [|lia]. apply Z.mod_divide; [lia|].
    exists (k + 1). lia.
Qed.

Lemma ones_sum_full l :
  Forall is_word l -> sum_list_Z l mod 65535 = 0 -> 0 < sum_list_Z l -> ones_sum l = 65535.
Proof.
  intros Hl Hm Hp. destruct (ones_sum_spec l Hl) as (H1 & H2 & H3 & H4). unfold is_word, residue in *.
  apply Z.mod_divide in H2 as [k Hk]; [|lia]. apply Z.mod_divide in Hm as [j Hj]; [|lia].
  assert (ones_sum l = (j - k) * 65535) by lia. destruct (decide (ones_sum l = 0)); [lia|]. nia.
Qed.

Lemma fold_sum_value sum :
  0 <= sum < 4294967296 ->
  let s1 := sum / 65536 + sum mod 65536 in
  fold_sum sum = if s1 <? 65536 then 65535 - s1 else 131070 - s1.
Proof.
  intros Hs s1. unfold fold_sum. rewrite Z.shiftr_div_pow2 by lia. change (2 ^ 16) with 65536.
  assert (L : Z.land sum 65535 = sum mod 65536) by (apply (Z.land_ones sum 16); lia). rewrite L. fold s1.
  assert (H1 : 0 <= s1 <= 131070) by (subst s1; Z.div_mod_to_equations; lia).
  clearbody s1. rewrite (u32_small s1) by lia. rewrite Z.shiftr_div_pow2 by lia. change (2 ^ 16) with 65536.
  rewrite u32_small by (Z.div_mod_to_equations; lia). unfold u16, Z.lnot.
  destruct (Z.ltb_spec s1 65536).
  - rewrite Z.div_small by lia. symmetry. apply Z.mod_unique_pos with (-1); lia.
  - replace (s1 / 65536) with 1 by (Z.div_mod_to_equations; lia).
    symmetry. apply Z.mod_unique_pos with (-2); lia.
Qed.

(** The folded sum is the complement of the sum. *)
Lemma fold_sum_spec sum :
  0 <= sum < 4294967296 ->
  is_word (fold_sum sum) /\ (sum + fold_sum sum) mod 65535 = 0 /\ 0 < sum + fold_sum sum.
Proof.
  intros Hs. rewrite fold_sum_value by done. unfold is_word. set (s1 := sum / 65536 + sum mod 65536).
  assert (H1 : 0 <= s1 <= 131070 /\ sum = s1 + (sum / 65536) * 65535 /\ 0 <= sum / 65536)
    by (subst s1; Z.div_mod_to_equations; lia).
  destruct H1 as (H1 & H2 & H3). clearbody s1. destruct (Z.ltb_spec s1 65536).
  - split_and!; try lia. apply Z.mod_divide; [lia|]. exists (sum / 65536 + 1). lia.
  - split_and!; try lia. apply Z.mod_divide; [lia|]. exists (sum / 65536 + 2). lia.
Qed.

Lemma sum_words_bound s : 0 <= 2 * sum_list_Z (words16 s) <= 65535 * (zlen s + 1).
Proof.
  induction s as [|b|b c s IH] using list_pair_ind; cbn [words16 sum_list_Z foldr].
  - done.
  - pose proof (b2z_range b). change (zlen [b]) with 1. lia.
  - fold (sum_list_Z (words16 s)). pose proof (b2z_range b). pose proof (b2z_range c).
    rewrite !zlen_cons. lia.
Qed.

Lemma checksum_loop_exact sum s :
  0 <= sum -> sum + sum_list_Z (words16 s) < 4294967296 ->
  checksum_loop sum s = sum + sum_list_Z (words16 s).
Proof.
  revert sum. induction s as [|b|b c s IH] using list_pair_ind; intros sum H0 H1.
  - cbn. lia.
  - cbn [checksum_loop words16 sum_list_Z foldr] in *. pose proof (b2z_range b).
    unfold one_byte_shift_8_bits. rewrite Z.shiftl_mul_pow2 by lia. rewrite u32_small; lia.
  - cbn [checksum_loop words16 sum_list_Z foldr] in *. fold (sum_list_Z (words16 s)) in *.
    pose proof (b2z_range b). pose proof (b2z_range c). pose proof (sum_words_bound s).
    unfold one_byte_shift_8_bits. rewrite Z.shiftl_mul_pow2 by lia.
    rewrite (u32_small (sum + _)) by lia. rewrite u32_small by lia. rewrite IH; lia.
Qed.

Lemma word_octets v : is_word v -> b2z (z2b (Z.shiftr v 8)) * 256 + b2z (z2b (Z.land v 255)) = v.
Proof.
  unfold is_word. intros Hv. rewrite !b2z_z2b. unfold u8. rewrite Z.shiftr_div_pow2 by lia.
  change 255 with (Z.ones 8). rewrite Z.land_ones by lia. change (2 ^ 8) with 256.
  Z.div_mod_to_equations. lia.
Qed.

Lemma decode_value h a b : decode h a b = octet h a * 256 + octet h b.
Proof.
  unfold decode, octet, one_byte_shift_8_bits. rewrite Z.shiftl_mul_pow2 by lia.
  pose proof (b2z_range (nth a h Byte.x00)). pose proof (b2z_range (nth b h Byte.x00)).
  rewrite u16_small; lia.
Qed.

(** The checksum [icmp_header::assign_checksum] stores is right: with it the
    words of header and body add up, with the carry brought around, to
    [0xFFFF]. *)
Lemma icmp_checksum_right h body :
  length h = 8%nat -> zlen body <= 65535 ->
  checksum_right (IcmpHeader.assign_checksum h body ++ body).
Proof.
  intros Hh Hb. destruct h as [|b0 [|b1 [|b2 [|b3 [|b4 [|b5 [|b6 [|b7 [|]]]]]]]]]; try discriminate Hh.
  unfold IcmpHeader.assign_checksum, IcmpHeader.set_checksum, IcmpHeader.identifier,
    IcmpHeader.sequence_number, IcmpHeader.type, IcmpHeader.code.
  rewrite !decode_value. unfold octet. cbn [nth]. unfold one_byte_shift_8_bits at 1.
  rewrite Z.shiftl_mul_pow2 by lia. change (2 ^ 8) with 256.
  pose proof (b2z_range b0). pose proof (b2z_range b1). pose proof (b2z_range b4). pose proof (b2z_range b5).
  pose proof (b2z_range b6). pose proof (b2z_range b7). pose proof (sum_words_bound body).
  set (sum := b2z b0 * 256 + b2z b1 + (b2z b4 * 256 + b2z b5) + (b2z b6 * 256 + b2z b7)).
  rewrite (u32_small sum) by (subst sum; lia). rewrite checksum_loop_exact by (subst sum; lia).
  destruct (fold_sum_spec (sum + sum_list_Z (words16 body))) as (F1 & F2 & F3); [subst sum; lia|].
  set (c := fold_sum _) in *. unfold encode, set_octet, one_byte_shift_8_bits, one_byte_mask_0xFF.
  cbn [insert list_insert]. unfold checksum_right. apply ones_sum_full; [apply words16_words|..];
    cbn [app words16 sum_list_Z foldr]; rewrite (word_octets c) by done; fold (sum_list_Z (words16 body));
    [rewrite <- F2; f_equal|]; subst sum; lia.
Qed.

Lemma header_sum_loop n i h sum :
  (i + 2 * n <= length h)%nat -> Ipv4.header_sum n i h sum = checksum_loop sum (take (2 * n) (drop i h)).
Proof.
  revert i sum. induction n as [|n IH]; intros i sum Hl; [done|].
  assert (Hd : drop i h = nth i h Byte.x00 :: nth (S i) h Byte.x00 :: drop (S (S i)) h).
  { destruct (lookup_lt_is_Some_2 h i) as [x Hx]; [lia|].
    destruct (lookup_lt_is_Some_2 h (S i)) as [y Hy]; [lia|].
    rewrite (drop_S h x i Hx), (drop_S h y (S i) Hy).
    by rewrite (nth_lookup_Some h i _ x Hx), (nth_lookup_Some h (S i) _ y Hy). }
  replace (2 * S n)%nat with (S (S (2 * n))) by lia. rewrite Hd. cbn [take checksum_loop Ipv4.header_sum].
  apply IH. lia.
Qed.

(** The checksum [ipv4_header::assign_header_checksum] stores is right for
    the 20 fixed octets of the header. *)
Lemma ipv4_checksum_right h :
  length h = 60%nat -> checksum_right (take 20 (Ipv4.assign_header_checksum h)).
Proof.
  intros Hh.
  destruct h as [|b0 [|b1 [|b2 [|b3 [|b4 [|b5 [|b6 [|b7 [|b8 [|b9 [|b10 [|b11 [|b12 [|b13 [|b14 [|b15
    [|b16 [|b17 [|b18 [|b19 r]]]]]]]]]]]]]]]]]]]]; try discriminate Hh.
  unfold Ipv4.assign_header_checksum, Ipv4.set_header_checksum. cbv zeta.
  set (l := [b0; b1; b2; b3; b4; b5; b6; b7; b8; b9; Byte.x00; Byte.x00; b12; b13; b14; b15; b16; b17; b18; b19]).
  change (encode (b0 :: _) 10 11 0) with (l ++ r). rewrite header_sum_loop; cycle 1.
  { rewrite length_app. cbn. lia. }
  change (take (2 * 10) (drop 0 (l ++ r))) with l. pose proof (sum_words_bound l) as Hl.
  change (zlen l) with 20 in Hl. rewrite checksum_loop_exact by lia.
  destruct (fold_sum_spec (0 + sum_list_Z (words16 l))) as (F1 & F2 & F3); [lia|].
  set (c := fold_sum _) in *. unfold encode, set_octet, one_byte_shift_8_bits, one_byte_mask_0xFF.
  subst l. cbn [app insert list_insert take]. change (take 0 r) with (@nil byte). unfold checksum_right.
  apply ones_sum_full; [apply words16_words|..]; cbn [app words16 sum_list_Z foldr] in *;
    rewrite (word_octets c) by done; change (b2z Byte.x00 * 256 + b2z Byte.x00) with 0 in *;
    [etransitivity; [|exact F2]; f_equal|]; lia.
Qed.

(** Both checksums that are stored are right: with
    [icmp_header::assign_checksum] the 16-bit words of ICMP header and body,
    with [ipv4_header::assign_header_checksum] those of the 20 fixed octets of
    the IP header, add up, with the carry brought around, to [0xFFFF]. *)
Theorem packet_checksums_right h icmp body :
  length h = 60%nat -> length icmp = 8%nat -> zlen body <= 65535 ->
  checksum_right (take 20 (Ipv4.assign_header_checksum h)) /\
  checksum_right (IcmpHeader.assign_checksum icmp body ++ body).
Proof. split; [by apply ipv4_checksum_right|by apply icmp_checksum_right]. Qed.

Lemma packet_checksums_right_witness :
  checksum_right (take 20 (Ipv4.assign_header_checksum Ipv4.new_header)) /\
  checksum_right
    (IcmpHeader.assign_checksum (IcmpHeader.set_type IcmpHeader.new_header 8) (str "ping") ++ str "ping").
Proof. apply packet_checksums_right; [reflexivity|reflexivity|vm_compute; discriminate]. Defined.

(** A header of 24 octets *)
Definition with_option : Ipv4.ipv4_header := <[0%nat := Byte.x46]> (<[20%nat := Byte.x01]> Ipv4.new_header).

(** Of a header with options it is wrong: the options are left out of the
    sum. *)
Theorem ipv4_options_not_summed :
  Ipv4.header_length (Ipv4.assign_header_checksum with_option) = 24 /\
  ~ checksum_right (take 24 (Ipv4.assign_header_checksum with_option)).
Proof. split; [reflexivity|]. vm_compute. discriminate. Qed.

(** ** Packets *)
Section Packets.
Import Ipv4 IcmpHeader Icmpd.

(** A header as [is >> header] leaves it: zeros after its end *)
Record ipv4_wf (h : ipv4_header) : Prop := {
  iw_length : length h = 60%nat;
  iw_version : version h = 4;
  iw_header : 20 <= header_length h;
  iw_rest : drop (Z.to_nat (header_length h)) h = replicate (60 - Z.to_nat (header_length h)) Byte.x00
}.

Lemma header_length_range h : 0 <= header_length h <= 60.
Proof.
  unfold header_length. change 15 with (Z.ones 4). rewrite Z.land_ones by lia. change (2 ^ 4) with 16.
  unfold octet. pose proof (b2z_range (nth 0 h Byte.x00)). Z.div_mod_to_equations. lia.
Qed.

Definition header_octets (h : ipv4_header) : bytes := take (Z.to_nat (header_length h)) h.

Lemma header_octets_split h :
  20 <= header_length h ->
  header_octets h = take 20 h ++ take (Z.to_nat (header_length h - 20)) (drop 20 h).
Proof.
  intros Hl. unfold header_octets.
  replace (Z.to_nat (header_length h)) with (20 + Z.to_nat (header_length h - 20))%nat by lia.
  by rewrite <- take_take_drop.
Qed.

Lemma icmp_octets_of_packet h icmp body :
  20 <= header_length h -> packet h icmp body = header_octets h ++ icmp ++ body.
Proof.
  intros Hl. unfold packet, write_ipv4, write_icmp_header. cbn [snd fst negb].
  change HEADER_FIXED_LENGTH with 20. destruct (Z.ltb_spec (header_length h - 20) 0); [lia|].
  cbn [snd fst negb app]. rewrite (header_octets_split h Hl), <- !app_assoc. done.
Qed.

Lemma zlen_header h : length h = 60%nat -> zlen (header_octets h) = header_length h.
Proof.
  intros Hh. unfold header_octets, zlen. pose proof (header_length_range h).
  rewrite length_take, Hh. lia.
Qed.

Lemma read_ipv4_header h i rest :
  ipv4_wf h -> wf i -> failed i = false -> left_ i = header_octets h ++ rest ->
  exists i', read_ipv4 i = (i', h) /\ wf i' /\ left_ i' = rest /\ failed i' = false.
Proof.
  intros [Hlen Hv Hhl Hz] Hw Hf Hl. pose proof (header_length_range h) as Hr.
  rewrite (header_octets_split h Hhl), <- app_assoc in Hl.
  destruct (left_read i _ _ Hw Hf Hl) as (i1 & E1 & W1 & L1 & F1 & _).
  assert (Z20 : zlen (take 20 h) = HEADER_FIXED_LENGTH).
  { unfold zlen. rewrite length_take, Hlen. done. }
  rewrite Z20 in E1. unfold read_ipv4. rewrite E1, F1.
  assert (Hlt : length (take 20 h) = 20%nat) by (rewrite length_take; lia). rewrite Hlt.
  set (h1 := take 20 h ++ drop 20 Ipv4.new_header).
  assert (H0 : octet h1 0 = octet h 0).
  { unfold octet, h1. f_equal. destruct h; [done|]. done. }
  assert (Hv1 : version h1 = 4) by (unfold version; rewrite H0; exact Hv).
  assert (Hh1 : header_length h1 = header_length h) by (unfold header_length; by rewrite H0).
  rewrite Hv1, Hh1. cbn [Z.eqb negb Pos.eqb]. change HEADER_FIXED_LENGTH with 20.
  change HEADER_OPTIONS_LENGTH with 40.
  destruct (Z.ltb_spec (header_length h - 20) 0); [lia|].
  destruct (Z.ltb_spec 40 (header_length h - 20)); [lia|]. cbn [orb].
  destruct (left_read i1 _ _ W1 F1 L1) as (i2 & E2 & W2 & L2 & F2 & _).
  set (opts := take (Z.to_nat (header_length h - 20)) (drop 20 h)) in *.
  assert (Zo : zlen opts = header_length h - 20).
  { subst opts. unfold zlen. rewrite length_take, length_drop, Hlen. lia. }
  rewrite Zo in E2. rewrite E2. exists i2. split; [|done]. f_equal.
  assert (Hopt : length opts = Z.to_nat (header_length h - 20)) by (unfold zlen in Zo; lia).
  rewrite Hopt. subst h1.
  rewrite take_app_le, take_take, drop_app_ge, Hlt by lia. change (20 `min` 20)%nat with 20%nat.
  rewrite <- (take_drop (Z.to_nat (header_length h)) h) at 3. rewrite Hz.
  fold (header_octets h). rewrite (header_octets_split h Hhl). fold opts. rewrite <- app_assoc. f_equal. f_equal.
  rewrite drop_drop. unfold Ipv4.new_header. rewrite drop_replicate. f_equal. lia.
Qed.

(** What is read back from a packet *)
Lemma read_packet h icmp body i :
  ipv4_wf h -> length icmp = 8%nat -> wf i -> failed i = false -> left_ i = packet h icmp body ->
  read_icmp i (zlen (packet h icmp body)) = Ret (Some (h, icmp, body)).
Proof.
  intros Hh Hi Hw Hf Hl. pose proof Hh as [Hlen Hv Hhl Hz].
  rewrite icmp_octets_of_packet in * by done. unfold read_icmp.
  destruct (read_ipv4_header h i _ Hh Hw Hf Hl) as (i1 & -> & W1 & L1 & F1).
  assert (Z8 : zlen icmp = HEADER_LENGTH) by (unfold zlen; by rewrite Hi).
  unfold read_icmp_header. destruct (left_read i1 _ _ W1 F1 L1) as (i2 & E2 & W2 & L2 & F2 & _).
  rewrite Z8 in E2. rewrite E2, F2. rewrite drop_ge by (rewrite Hi; done). rewrite app_nil_r.
  assert (Hrem : zlen (header_octets h ++ icmp ++ body) - header_length h - HEADER_LENGTH = zlen body).
  { rewrite !zlen_app, Z8, (zlen_header h Hlen). lia. }
  rewrite Hrem. destruct (Z.ltb_spec (zlen body) 0); [pose proof (zlen_nonneg body); lia|].
  rewrite <- (app_nil_r body) in L2. destruct (left_read i2 _ _ W2 F2 L2) as (i3 & -> & _).
  unfold zlen. rewrite Nat2Z.id, Nat.sub_diag. cbn. by rewrite app_nil_r.
Qed.

Lemma read_packet_string h icmp body :
  ipv4_wf h -> length icmp = 8%nat ->
  read_icmp (istringstream (packet h icmp body)) (zlen (packet h icmp body)) =
  Ret (Some (h, icmp, body)).
Proof.
  intros Hh Hi. apply read_packet; try done. unfold wf, istringstream. cbn.
  pose proof (zlen_nonneg (packet h icmp body)). lia.
Qed.

(** A packet that is written is read back: the headers, with their options,
    and the body; two packets of the same octets are the same packet. *)
Theorem icmp_packet_roundtrip h icmp body :
  ipv4_wf h -> length icmp = 8%nat ->
  read_icmp (istringstream (packet h icmp body)) (zlen (packet h icmp body)) =
    Ret (Some (h, icmp, body)) /\
  forall h' icmp' body', ipv4_wf h' -> length icmp' = 8%nat ->
    packet h' icmp' body' = packet h icmp body -> h' = h /\ icmp' = icmp /\ body' = body.
Proof.
  intros Hh Hi. split; [by apply read_packet_string|]. intros h' icmp' body' Hh' Hi' E.
  pose proof (read_packet_string h' icmp' body' Hh' Hi') as R. rewrite E, read_packet_string in R by done.
  by injection R as <- <- <-.
Qed.

(** ** The send queue *)

Definition sent_to (t : list ieffect) : list (bytes * address_v4) :=
  flat_map (fun e => match e with SendTo d a => [(d, a)] | _ => [] end) t.
(** All that was handed to [send_data_to_socket], in order *)
Definition sends (w : icmpd) : list (bytes * address_v4) := sent_to (i_trace w) ++ m_sending_data_cache w.
Lemma sent_to_app a b : sent_to (a ++ b) = sent_to a ++ sent_to b.
Proof. apply flat_map_app. Qed.

(** What the sending leaves of the state *)
Definition same_table (w w' : icmpd) : Prop :=
  m_transfer_table w' = m_transfer_table w /\ sessions_alive w' = sessions_alive w /\
  i_now w' = i_now w /\ m_client_or_server w' = m_client_or_server w.

Lemma async_out_send_spec w :
  exists w', async_out_send w = Ret (tt, w') /\ sends w' = sends w /\ same_table w w' /\
    (m_sending_data_cache w' <> [] -> m_is_sending_cache w' = true) /\
    zlen (sent_to (i_trace w')) - zlen (sent_to (i_trace w)) =
      (if m_is_sending_cache w' then 1 else 0) - (if m_is_sending_cache w then 1 else 0).
Proof.
  unfold async_out_send, bind, gets. destruct (m_is_sending_cache (id w)) eqn:E; unfold id in E.
  { exists w. rewrite E. split_and!; try done. lia. }
  destruct (m_sending_data_cache (id w)) as [|[d a] l] eqn:El; unfold id in El.
  { exists w. rewrite E, El. split_and!; try done. lia. }
  eexists. split; [done|]. unfold sends, same_table. cbn. rewrite El, sent_to_app. cbn.
  rewrite <- app_assoc. split_and!; try done. rewrite E, zlen_app. unfold zlen. cbn [length]. lia.
Qed.

Lemma send_data_spec data dst w :
  exists w', send_data_to_socket data dst w = Ret (tt, w') /\ sends w' = sends w ++ [(data, dst)] /\
    same_table w w' /\ (m_sending_data_cache w' <> [] -> m_is_sending_cache w' = true) /\
    zlen (sent_to (i_trace w')) - zlen (sent_to (i_trace w)) =
      (if m_is_sending_cache w' then 1 else 0) - (if m_is_sending_cache w then 1 else 0).
Proof.
  unfold send_data_to_socket, bind, modify.
  destruct (async_out_send_spec (w <| m_sending_data_cache ::= fun l => l ++ [(data, dst)] |>))
    as (w' & E1 & E2 & E3 & E4 & E5).
  exists w'. split; [exact E1|]. split_and!; try done. rewrite E2. unfold sends. cbn. by rewrite app_assoc.
Qed.

(** The queue is used by handing over data and by the end of a send. *)
Inductive qop := QSend (data : bytes) (dst : address_v4) | QDone (ec : error_code).
Definition q_step (o : qop) : IM unit :=
  match o with
  | QSend data dst => send_data_to_socket data dst
  | QDone ec => w <- gets id ;; when (m_is_sending_cache w) (send_done ec)
  end.
Fixpoint q_run (ops : list qop) : IM unit :=
  match ops with [] => skip | o :: ops => q_step o ;;; q_run ops end.
Definition handed (ops : list qop) : list (bytes * address_v4) :=
  flat_map (fun o => match o with QSend d a => [(d, a)] | QDone _ => [] end) ops.

Definition idle_server (now : Z) : icmpd := mkIcmpd false ∅ [] false ∅ None now [].

(** Packets leave in the order in which they were handed over, none is lost
    or doubled, one send is in progress at a time, and none waits while the
    socket is idle. *)
Theorem icmp_sends_in_order now ops :
  exists w, q_run ops (idle_server now) = Ret (tt, w) /\
    sent_to (i_trace w) ++ m_sending_data_cache w = handed ops /\
    (m_is_sending_cache w = false -> m_sending_data_cache w = [] /\ sent_to (i_trace w) = handed ops).
Proof.
  assert (H : forall ops w, (m_sending_data_cache w <> [] -> m_is_sending_cache w = true) ->
    exists w', q_run ops w = Ret (tt, w') /\ sends w' = sends w ++ handed ops /\
      (m_sending_data_cache w' <> [] -> m_is_sending_cache w' = true)).
  { clear ops. induction ops as [|o ops IH]; intros w Hw.
    { exists w. split; [done|]. by rewrite app_nil_r. }
    assert (Hstep : exists w1, q_step o w = Ret (tt, w1) /\ sends w1 = sends w ++ handed [o] /\
      (m_sending_data_cache w1 <> [] -> m_is_sending_cache w1 = true)).
    { destruct o as [d a|ec]; cbn [q_step handed flat_map app].
      - destruct (send_data_spec d a w) as (w1 & E1 & E2 & _ & E4 & _). by exists w1.
      - unfold bind, gets, id. destruct (m_is_sending_cache w) eqn:E; cbn [when].
        + destruct (async_out_send_spec (w <| m_is_sending_cache := false |>)) as (w1 & E1 & E2 & _ & E4 & _).
          exists w1. split; [exact E1|]. rewrite app_nil_r. split; [exact E2|exact E4].
        + exists w. rewrite app_nil_r. by rewrite E. }
    destruct Hstep as (w1 & E1 & E2 & E3). destruct (IH w1 E3) as (w2 & F1 & F2 & F3). exists w2.
    split; [cbn [q_run]; unfold bind; by rewrite E1|]. split; [|done].
    rewrite F2, E2, <- app_assoc. unfold handed. cbn. by rewrite app_nil_r. }
  destruct (H ops (idle_server now)) as (w & E1 & E2 & E3); [done|]. exists w. split; [done|].
  split; [exact E2|]. intros Hi.
  assert (Hnil : m_sending_data_cache w = []).
  { destruct (m_sending_data_cache w); [done|]. rewrite E3 in Hi by done. done. }
  split; [done|]. unfold sends in E2. by rewrite Hnil, app_nil_r in E2.
Qed.

(** ** The transfer table *)

#[local] Arguments hash_of : simpl never.
#[local] Arguments packet : simpl never.
#[local] Arguments set_source_address : simpl never.
#[local] Arguments set_destination_address : simpl never.
#[local] Arguments destination_address : simpl never.
#[local] Arguments source_address : simpl never.
#[local] Arguments sends : simpl never.

Definition fresh_hash (w : icmpd) (hash : bytes) : Prop :=
  forall d, m_transfer_table w !! hash = Some d -> ICMP_WAIT_TRANSFER_TIME < i_now w - sent_time d.

(** An echo request goes out under the server's address, and the table knows
    where the reply belongs. *)
Lemma server_out_send_request h icmp body session w :
  ipv4_wf h -> length icmp = 8%nat -> m_client_or_server w = false ->
  type icmp = echo_request -> time_to_live h <> 1 ->
  fresh_hash w (hash_of (destination_address h) icmp) ->
  exists w', server_out_send (packet h icmp body) session w = Ret (tt, w') /\
    sends w' = sends w ++
      [(packet (set_source_address h unspecified) icmp body, destination_address h)] /\
    m_transfer_table w' !! hash_of (destination_address h) icmp =
      Some (mkSent session (source_address h) (destination_address h) (i_now w)) /\
    m_client_or_server w' = false /\ i_now w' = i_now w /\ sessions_alive w' = sessions_alive w.
Proof.
  intros Hh Hi Hs Ht Httl Hf. unfold server_out_send, bind at 1, gets. unfold id at 1. rewrite Hs.
  unfold bind at 1. rewrite read_packet_string by done. cbn [lift]. rewrite Ht, Z.eqb_refl. cbn [negb].
  destruct (Z.eqb_spec (time_to_live h) 1); [done|]. unfold bind at 1.
  destruct (send_data_spec (packet (set_source_address h unspecified) icmp body) (destination_address h) w)
    as (w1 & -> & E2 & (T1 & T2 & T3 & T4) & _).
  unfold add_transfer_table, bind, gets, id. rewrite T4, Hs. eexists. split; [done|].
  cbn. rewrite T1, T3.
  set (t := filter _ (m_transfer_table w)).
  assert (Hnone : t !! hash_of (destination_address h) icmp = None).
  { subst t. apply map_lookup_filter_None. right. intros d Hd. apply Hf in Hd. cbn. lia. }
  rewrite Hnone. split; [exact E2|]. split; [by rewrite lookup_insert_eq|]. by rewrite T2, T4.
Qed.

(** A ping that waits is found and taken out. *)
Lemma find_sent_data hash d w :
  m_transfer_table w !! hash = Some d -> pipeline_session d ∈ sessions_alive w ->
  i_now w - sent_time d <= ICMP_WAIT_TRANSFER_TIME ->
  exists w', find_icmp_sent_data hash true w = Ret (Some d, w') /\ i_trace w' = i_trace w /\
    m_transfer_table w' !! hash = None.
Proof.
  intros Ht Ha Hn. unfold find_icmp_sent_data, bind at 1, check_transfer_table_timeout, modify at 1.
  unfold bind at 1, gets, id at 1. cbn.
  match goal with |- context [?t !! hash] => assert (Hf : t !! hash = Some d) end.
  { apply map_lookup_filter_Some. split; [exact Ht|]. cbn. lia. }
  rewrite Hf. rewrite bool_decide_true by done. cbn. eexists. split; [done|]. split; [done|].
  apply lookup_delete_eq.
Qed.


(** Only echo requests may come from a client: for any other message the
    server throws out of the handler. *)
Theorem icmp_server_throws_on_others h icmp body session w :
  ipv4_wf h -> length icmp = 8%nat -> m_client_or_server w = false -> type icmp <> echo_request ->
  server_out_send (packet h icmp body) session w =
    Throw (logic_error "[icmp] can only proxy client ping message!").
Proof.
  intros Hh Hi Hs Ht. unfold server_out_send, bind at 1, gets. unfold id at 1. rewrite Hs.
  unfold bind at 1. rewrite read_packet_string by done. cbn [lift].
  by destruct (Z.eqb_spec (type icmp) echo_request).
Qed.

Lemma encode_length h a b n : length (encode h a b n) = length h.
Proof. unfold encode, set_octet. by rewrite !length_insert. Qed.
Lemma set_address_length h i a : length (set_address h i a) = length h.
Proof. destruct a as [[[a0 a1] a2] a3]. unfold set_address, ipv4_header in *. by rewrite !length_insert. Qed.

(** A report that an echo request has run out of hops is given back in the
    client's terms: the header it quotes has the client's address again, and
    both the ICMP checksum and (without options) the quoted header's are
    right. *)
Theorem icmp_time_exceeded_restored h icmp oh oicmp obody d w :
  ipv4_wf h -> length icmp = 8%nat -> type icmp = time_exceeded -> m_client_or_server w = false ->
  ipv4_wf oh -> length oicmp = 8%nat ->
  m_transfer_table w !! hash_of (destination_address oh) oicmp = Some d ->
  pipeline_session d ∈ sessions_alive w -> i_now w - sent_time d <= ICMP_WAIT_TRANSFER_TIME ->
  exists w' oh' icmp' h',
    icmp_received (packet h icmp (packet oh oicmp obody)) w = Ret (tt, w') /\
    i_trace w' = i_trace w ++
      [WriteIcmp (pipeline_session d) (packet h' icmp' (packet oh' oicmp []))] /\
    oh' = assign_header_checksum (set_source_address oh (source d)) /\
    checksum_right (take 20 oh') /\
    (zlen (packet oh' oicmp []) <= 65535 -> checksum_right (icmp' ++ packet oh' oicmp [])).
Proof.
  intros Hh Hi Ht Hs Hoh Hoi Htab Hal Htime.
  unfold icmp_received, bind at 1. rewrite read_packet; try done; cycle 1.
  { unfold wf, over_streambuf. cbn. pose proof (zlen_nonneg (packet h icmp (packet oh oicmp obody))). lia. }
  cbn [lift]. unfold bind at 1, gets. unfold id at 1. rewrite Hs.
  unfold recv_server. rewrite Ht. cbn [Z.eqb]. change (time_exceeded =? echo_reply) with false.
  change (time_exceeded =? time_exceeded) with true. cbv iota. unfold bind at 1.
  rewrite read_packet_string by done. cbn [lift].
  destruct (find_sent_data _ d w Htab Hal Htime) as (w1 & E1 & T1 & _). unfold bind at 1. rewrite E1.
  rewrite <- T1.
  eexists _, _, _, _. split; [done|]. split; [done|]. split; [done|]. split.
  - apply ipv4_checksum_right. unfold set_source_address. rewrite set_address_length. apply Hoh.
  - intros Hz. apply icmp_checksum_right; done.
Qed.

End Packets.

(** ** Concrete packets *)
Module IDemo.
Import Ipv4 IcmpHeader Icmpd.

Definition client_a : address_v4 := (Byte.x0a, Byte.x00, Byte.x00, Byte.x01).
Definition client_b : address_v4 := (Byte.x0a, Byte.x00, Byte.x00, Byte.x02).
Definition target : address_v4 := (Byte.x08, Byte.x08, Byte.x08, Byte.x08).
Definition ip (ttl : Z) (src dst : address_v4) : ipv4_header :=
  set_destination_address (set_source_address
    (set_time_to_live (<[0%nat := Byte.x45]> Ipv4.new_header) ttl) src) dst.
Definition echo (ty id seq : Z) : icmp_header :=
  encode (encode (set_type IcmpHeader.new_header ty) 4 5 id) 6 7 seq.
Definition server (now : Z) : icmpd := mkIcmpd false ∅ [] false {[1%nat; 2%nat]} None now [].

Lemma request_wf : ipv4_wf (ip 64 client_a target).
Proof. split; vm_compute; done. Qed.
Lemma reply_wf : ipv4_wf (ip 64 target client_b).
Proof. split; vm_compute; done. Qed.

(** The key of the transfer table is the address, the type, the identifier
    and the sequence number one after the other as text: different pings of
    different clients may share it, and the reply to the second is then written
    to the session of the first. *)
Theorem icmp_reply_to_wrong_session :
  exists w1 w2 w3,
    server_out_send (packet (ip 64 client_a target) (echo 8 1 23) []) 1 (server 0) = Ret (tt, w1) /\
    server_out_send (packet (ip 64 client_b target) (echo 8 12 3) []) 2 w1 = Ret (tt, w2) /\
    icmp_received (packet (ip 64 target client_b) (echo 0 12 3) []) w2 = Ret (tt, w3) /\
    list.last (i_trace w3) = Some (WriteIcmp 1 (packet (ip 64 target client_a) (echo 0 12 3) [])).
Proof.
  eexists _, _, _. split; [vm_compute; reflexivity|]. split; [vm_compute; reflexivity|].
  split; [vm_compute; reflexivity|]. vm_compute. reflexivity.
Qed.

Lemma icmp_packet_roundtrip_witness :
  read_icmp (istringstream (packet (ip 64 client_a target) (echo 8 1 2) (str "data")))
    (zlen (packet (ip 64 client_a target) (echo 8 1 2) (str "data"))) =
  Ret (Some (ip 64 client_a target, echo 8 1 2, str "data")).
Proof.
  destruct (icmp_packet_roundtrip (ip 64 client_a target) (echo 8 1 2) (str "data")) as [H _];
    [exact request_wf|reflexivity|exact H].
Defined.


Lemma icmp_server_throws_on_others_witness :
  server_out_send (packet (ip 64 client_a target) (echo 13 1 2) []) 1 (server 0) =
    Throw (logic_error "[icmp] can only proxy client ping message!").
Proof.
  apply icmp_server_throws_on_others; [exact request_wf|reflexivity|reflexivity|]. vm_compute. discriminate.
Defined.

Definition waiting_server : icmpd :=
  server 0 <| m_transfer_table := {[hash_of target (echo 8 1 2) := mkSent 1 client_a target 0]} |>.

Lemma icmp_time_exceeded_restored_witness :
  exists w' icmp' h', let oh' := assign_header_checksum (ip 64 client_a target) in
    icmp_received (packet (ip 64 target client_b) (echo 11 0 0)
      (packet (ip 64 client_a target) (echo 8 1 2) [])) waiting_server = Ret (tt, w') /\
    i_trace w' = [WriteIcmp 1 (packet h' icmp' (packet oh' (echo 8 1 2) []))].
Proof.
  destruct (icmp_time_exceeded_restored (ip 64 target client_b) (echo 11 0 0) (ip 64 client_a target)
    (echo 8 1 2) [] (mkSent 1 client_a target 0) waiting_server) as (w' & oh' & icmp' & h' & H1 & H2 & H3 & _).
  - exact reply_wf.
  - reflexivity.
  - reflexivity.
  - reflexivity.
  - exact request_wf.
  - reflexivity.
  - vm_compute. reflexivity.
  - vm_compute. reflexivity.
  - vm_compute. discriminate.
  - exists w', icmp', h'. split; [exact H1|]. rewrite H3 in H2. exact H2.
Defined.

End IDemo.
