(* ===== verification/ClientProofs.v ===== *)
(** * A client without pipeline: the handlers of a session

    Every handler of [ClientSide] for a session with a tunnel of its own works on
    that session ([SessionLogic]).  The invariant [CI] follows what was read from
    the application and from the server and what was written to them. *)

From Stdlib Require Import ZArith Lia.
From S2P Require Import Prelude Utils Address Trojan UdpPacket PipelineProto Caches ReadCache PipelineComponent Session.
From S2P Require Import ClientWorld ClientSide SessionLogic.
Import Streambuf ReadBuf Stat Allocator PipelineComponent Codec.
Local Open Scope Z_scope.
Local Open Scope handler_scope.

(** ** One session's part of a world *)

Definition cop_buf (o : cop) : option nat :=
  match o with CInWrite _ b _ | COutWrite _ b | CUdpWrite _ b => Some b | _ => None end.
Definition ceff_this (e : ceffect) : option nat :=
  match e with
  | FromApp h _ | FromServer h _ | ToApp h _ | ToServer h _ | UdpToApp h _ _ | CancelIn h | CancelUdp h
  | ConnectTo h _ _ | Closed h => Some h
  | ToPipeline _ _ | PipelineTo _ _ _ | IcmpIn _ => None
  end.

#[export] Instance cop_operation : Operation cop := { op_this := cop_this; op_buf := cop_buf }.
#[export] Instance ceffect_effect : Effect ceffect := { eff_this := ceff_this }.
#[export] Instance cworld_sessions :
    SessionWorld cworld ClientSession cop ceffect (nat * gmap nat Pipeline * list nat * ids) :=
  { sw_objs := c_objs; sw_pending := c_pending; sw_trace := c_trace; sw_alloc := c_alloc;
    sw_rest w := (c_next w, pipes w, pipelines w, c_ids w) }.

Notation on := (SessionLogic.on socket_failure (fun u => u = octet03)).

Section Rules.
Context (h : nat).

Lemma on_getC (Q : post ClientSession) s l t : Q s s l t -> on h (getC h) Q s l t.
Proof. by apply on_get. Qed.
Lemma on_c_ask (f : nat -> error_code) (Q : post error_code) s l t :
  (forall n, Q (f n) s l t) -> on h (c_ask f) Q s l t.
Proof. intros HQ. apply on_alike. intros w. unfold c_ask. eexists _, _. split; [done|]. by split. Qed.
Lemma on_modC f (Q : post unit) s l t : Q tt (f s) l t -> on h (modC h f) Q s l t.
Proof. apply on_mod. intros w. by eexists. Qed.
Lemma on_c_emit e (Q : post unit) s l t :
  ceff_this e = Some h -> Q tt s l (t ++ [e]) -> on h (c_emit e) Q s l t.
Proof. intros He HQ. apply (on_emitted _ _ h _ e); [|done|done]. intros w. by eexists. Qed.
Lemma on_c_start o (Q : post unit) s l t :
  cop_this o = Some h -> cop_buf o = None -> Q tt s (l ++ [o]) t -> on h (c_start_op o) Q s l t.
Proof. intros Ho Hb HQ. apply (on_started _ _ h _ o); [|done..]. intros w. by eexists. Qed.
Lemma on_c_write data (e : ceffect) (o : nat -> cop) (Q : post unit) s l t :
  ceff_this e = Some h -> (forall b, cop_this (o b) = Some h) ->
  (forall b b', cop_buf (o b) = Some b' -> b' = b) ->
  (forall b, Q tt s (l ++ [o b]) (t ++ [e])) ->
  on h (b <- c_allocate_buf data ;; c_emit e ;;; c_start_op (o b)) Q s l t.
Proof.
  intros He Ho Hb HQ. apply (on_lend _ _ h _ data e o); [|done..]. intros w.
  unfold bind, c_allocate_buf, c_emit, c_start_op, modify. change (sw_alloc w) with (c_alloc w).
  destruct (allocate (c_alloc w) data) as [b a].
  eexists (w <| c_alloc := a |>), (w <| c_alloc := a |> <| c_trace ::= fun l => l ++ [e] |>), _. by split_and!.
Qed.

(** A read on a buffer nobody reads into *)
Lemma on_c_guarded_read b o (Q : post unit) s l t :
  cop_this o = Some h -> cop_buf o = None -> read_buf_guard (cbuf_of b s) = false ->
  Q tt (set_cbuf b (rb_consume_all (cbuf_of b s <| read_buf_guard := true |>)) s) (l ++ [o]) t ->
  on h (c_guarded_read h b o) Q s l t.
Proof.
  intros Ho Hb Hg HQ. unfold c_guarded_read. apply on_bind, on_getC, on_bind. rewrite begin_read_ok by done.
  apply on_lift; [done|done|]. intros r [= <-]. by apply on_bind, on_modC, on_c_start.
Qed.
Lemma on_c_end_read b (Q : post unit) s l t :
  Q tt (set_cbuf b (end_read (cbuf_of b s)) s) l t -> on h (c_end_read h b) Q s l t.
Proof. intros HQ. unfold c_end_read. by apply on_bind, on_getC, on_modC. Qed.
Lemma on_c_commit b data (Q : post bytes) s l t :
  Q (read_buf (rb_commit (cbuf_of b s) data)) (set_cbuf b (rb_commit (cbuf_of b s) data) s) l t ->
  on h (c_commit h b data) Q s l t.
Proof. intros HQ. unfold c_commit. by apply on_bind, on_getC, on_bind, on_modC, on_ret. Qed.
End Rules.

(** ** What a session has read and written *)

Definition from_app (t : list ceffect) : list bytes :=
  flat_map (fun e => match e with FromApp _ d => [d] | _ => [] end) t.
Definition from_server (t : list ceffect) : list bytes :=
  flat_map (fun e => match e with FromServer _ d => [d] | _ => [] end) t.
Definition to_app (t : list ceffect) : list bytes :=
  flat_map (fun e => match e with ToApp _ d => [d] | _ => [] end) t.
Definition to_server (t : list ceffect) : bytes :=
  flat_map (fun e => match e with ToServer _ d => d | _ => [] end) t.
Lemma from_app_app a b : from_app (a ++ b) = from_app a ++ from_app b.
Proof. apply flat_map_app. Qed.
Lemma from_server_app a b : from_server (a ++ b) = from_server a ++ from_server b.
Proof. apply flat_map_app. Qed.
Lemma to_app_app a b : to_app (a ++ b) = to_app a ++ to_app b.
Proof. apply flat_map_app. Qed.
Lemma to_server_app a b : to_server (a ++ b) = to_server a ++ to_server b.
Proof. apply flat_map_app. Qed.
Create HintDb ctrace.
#[export] Hint Rewrite from_app_app from_server_app to_app_app to_server_app @cnt_snoc @app_nil_r
  Z.add_0_r : ctrace.

(** ** The operations of a session, by kind *)
Definition is_ir (o : cop) : bool := match o with CInRead _ => true | _ => false end.
Definition is_iw (o : cop) : bool := match o with CInWrite _ _ _ => true | _ => false end.
Definition is_or (o : cop) : bool := match o with COutRead _ => true | _ => false end.
Definition is_ow (o : cop) : bool := match o with COutWrite _ _ => true | _ => false end.
Definition is_ur (o : cop) : bool := match o with CUdpRead _ => true | _ => false end.
Definition is_uw (o : cop) : bool := match o with CUdpWrite _ _ => true | _ => false end.
Definition is_cn (o : cop) : bool :=
  match o with CResolve _ | CConnect _ | CSslHandshake _ => true | _ => false end.

(** How many there are of each *)
Definition no_out (l : list cop) : Prop :=
  cnt is_or l = 0 /\ cnt is_ow l = 0 /\ cnt is_ur l = 0 /\ cnt is_uw l = 0.
Definition no_io (l : list cop) : Prop := cnt is_ir l = 0 /\ cnt is_iw l = 0 /\ no_out l.

Definition cudp (s : ClientSession) : bool := UdpTimer.is_udp_forward (c_timer s).

(** The guard of each buffer tells whether a read is in progress; it is then
    empty. *)
Definition guard_ok (r : ReadBufWithGuard) (n : Z) : Prop :=
  n = (if read_buf_guard r then 1 else 0) /\ (read_buf_guard r = true -> read_buf r = []).
Record guards (s : ClientSession) (l : list cop) : Prop := {
  g_in : guard_ok (c_in_read_buf s) (cnt is_ir l);
  g_out : guard_ok (c_out_read_buf s) (cnt is_or l);
  g_udp : guard_ok (c_udp_read_buf s) (cnt is_ur l);
  g_direct : m_is_use_pipeline (c_com s) = false;
  g_cn : cnt is_cn l <= 1
}.

Lemma guard_free r n : guard_ok r n -> n = 0 -> read_buf_guard r = false.
Proof. intros [H _] ->. by destruct (read_buf_guard r). Qed.
Lemma guard_begun r n : guard_ok r n -> n = 0 -> guard_ok (rb_consume_all (r <| read_buf_guard := true |>)) (n + 1).
Proof. intros _ ->. split; [done|]. intros _. apply consume_all_nil. Qed.
(** When the read ends *)
Lemma guard_ended r n : guard_ok r (n + 1) -> 0 <= n -> n = 0 /\ read_buf r = [] /\ guard_ok (end_read r) 0.
Proof. intros [H Hb] Hn. destruct (read_buf_guard r); [|lia]. split; [lia|]. split; [auto|done]. Qed.
Lemma guard_commit r n data : guard_ok r n -> read_buf_guard r = false -> guard_ok (rb_commit r data) n.
Proof. intros [H _] Hg. split; [exact H|]. cbn. by rewrite Hg. Qed.

Section Session.
Context (configs : nat -> Config) (make_address : bytes -> option address).
Context (udp_local : nat -> endpoint) (socket_target : nat -> bytes * Z).
Context (system_ec remote_ec cancel_ec : nat -> error_code) (d : nat) (pw : bytes).
Hypothesis password_first : exists x rest, Session.password (configs 0%nat) = (pw, x) :: rest.
Hypothesis cancel_ok : forall n, cancel_ec n = 0.

(** ** What the server is sent first

    [opened h k chunks text payload replies]: what a session of class [k] has read
    from the application is the opening and then [payload]; for it the server
    is sent [text] and the application [replies]. *)
Inductive opened (h : nat) : CKind -> list bytes -> bytes -> list bytes -> list bytes -> Prop :=
| opened_socks5 greet req text payload :
    cs_build_request pw req = Ret text ->
    opened h KClient (greet :: req :: payload) text payload
      [socks5_handshake_reply_succ; socks5_request_reply_succ_tcp]
| opened_nat payload :
    opened h KNat payload
      (TrojanRequest.generate pw (fst (socket_target h)) (snd (socket_target h)) true) payload []
| opened_forward payload :
    opened h KForward payload
      (TrojanRequest.generate pw (target_addr (configs 0%nat)) (target_port (configs 0%nat)) true) payload [].

Lemma opened_snoc h k chunks text payload replies data :
  opened h k chunks text payload replies -> opened h k (chunks ++ [data]) text (payload ++ [data]) replies.
Proof. intros H. inversion H; subst; by constructor. Qed.

(** Octets are relayed in order, both ways. *)
Definition relayed (h : nat) (k : CKind) (t : list ceffect) : Prop :=
  exists text payload replies, opened h k (from_app t) text payload replies /\
    to_server t = text ++ concat payload /\ to_app t = replies ++ from_server t.
Definition relayed_upto (h : nat) (k : CKind) (t : list ceffect) : Prop :=
  exists text payload replies, opened h k (from_app t) text payload replies /\
    to_server t `prefix_of` text ++ concat payload /\ to_app t `prefix_of` replies ++ from_server t.
(** Nothing has been exchanged with the server. *)
Definition untouched (t : list ceffect) : Prop := to_server t = [] /\ from_server t = [].

(** The connection is being made. *)
Record connecting (h : nat) (s : ClientSession) (l : list cop) (t : list ceffect) : Prop := {
  cn_io : no_io l;
  cn_untouched : untouched t;
  cn_opened : exists replies, opened h (c_kind s) (from_app t) (c_out_write_buf s) [] replies /\
    (cudp s = false -> to_app t = replies)
}.

Record ended (h : nat) (s : ClientSession) (l : list cop) (t : list ceffect) : Prop := {
  en_relayed : cudp s = false -> to_server t = [] \/ relayed_upto h (c_kind s) t;
  en_connecting : cnt is_cn l <> 0 -> connecting h s l t
}.

(** The exchange with the application before the connection: what was read and
    answered, by whether the answer is still being written *)
Record socks5 (s : ClientSession) (l : list cop) (t : list ceffect) : Prop := {
  sk_kind : c_kind s = KClient;
  sk_untouched : untouched t;
  sk_ops : no_out l /\ cnt is_cn l = 0 /\ cnt is_ir l + cnt is_iw l <= 1
}.

Definition phase (h : nat) (s : ClientSession) (l : list cop) (t : list ceffect) : Prop :=
  match c_status s with
  | C_HANDSHAKE =>
    socks5 s l t /\ cudp s = false /\
    (cnt is_iw l = 0 -> from_app t = [] /\ to_app t = []) /\
    (cnt is_iw l <> 0 -> exists g, from_app t = [g] /\ to_app t = [socks5_handshake_reply_succ])
  | C_REQUEST =>
    socks5 s l t /\
    (cnt is_iw l = 0 -> cudp s = false /\ exists g, from_app t = [g] /\ to_app t = [socks5_handshake_reply_succ]) /\
    (cnt is_iw l <> 0 -> exists replies, opened h KClient (from_app t) (c_out_write_buf s) [] replies /\
       (cudp s = false -> to_app t = replies))
  | C_INVALID => socks5 s l t
  | C_CONNECT => no_io l /\ untouched t /\ (cnt is_cn l <> 0 -> connecting h s l t)
  | C_FORWARD =>
    cudp s = false /\ relayed h (c_kind s) t /\ cnt is_cn l = 0 /\ cnt is_ur l = 0 /\ cnt is_uw l = 0 /\
    cnt is_ir l + cnt is_ow l <= 1 /\ cnt is_or l + cnt is_iw l <= 1
  | C_UDP_FORWARD =>
    cudp s = true /\ cnt is_cn l = 0 /\ cnt is_ir l = 0 /\ cnt is_iw l = 0 /\
    cnt is_ur l + cnt is_ow l <= 1 /\ cnt is_or l + cnt is_uw l <= 1
  | C_DESTROY => ended h s l t
  end.

Definition CI (h : nat) (s : ClientSession) (l : list cop) (t : list ceffect) : Prop :=
  guards s l /\ phase h s l t.

Lemma relayed_upto_of h k t : relayed h k t -> relayed_upto h k t.
Proof. intros (text & payload & replies & H1 & H2 & H3). exists text, payload, replies. by rewrite H2, H3. Qed.

Lemma CI_ended h s l t : CI h s l t -> ended h s l t.
Proof.
  intros [G H]. unfold phase in H. destruct (c_status s); try done.
  - destruct H as ([_ [? _] (_ & ? & _)] & _). split; [by left|done].
  - destruct H as ([_ [? _] (_ & ? & _)] & _). split; [by left|done].
  - destruct H as (_ & [? _] & ?). split; [by left|done].
  - destruct H as (_ & ? & ? & _). split; [intros _; right; by apply relayed_upto_of|done].
  - destruct H as (? & ? & _). split; [congruence|done].
  - destruct H as [_ [? _] (_ & ? & _)]. split; [by left|done].
Qed.

(** *** What the invariant sees *)

Definition same_state (s s' : ClientSession) : Prop :=
  c_kind s' = c_kind s /\ c_status s' = c_status s /\ c_com s' = c_com s /\ cudp s' = cudp s /\
  c_in_read_buf s' = c_in_read_buf s /\ c_out_read_buf s' = c_out_read_buf s /\
  c_udp_read_buf s' = c_udp_read_buf s /\ c_out_write_buf s' = c_out_write_buf s.
Definition same_ops (l l' : list cop) : Prop :=
  cnt is_ir l' = cnt is_ir l /\ cnt is_iw l' = cnt is_iw l /\ cnt is_or l' = cnt is_or l /\
  cnt is_ow l' = cnt is_ow l /\ cnt is_ur l' = cnt is_ur l /\ cnt is_uw l' = cnt is_uw l /\
  cnt is_cn l' = cnt is_cn l.
Definition same_trace (t t' : list ceffect) : Prop :=
  from_app t' = from_app t /\ from_server t' = from_server t /\ to_app t' = to_app t /\
  to_server t' = to_server t.

Lemma guards_same s s' l l' : same_state s s' -> same_ops l l' -> guards s l -> guards s' l'.
Proof.
  intros (_ & _ & E1 & _ & E2 & E3 & E4 & _) (O1 & _ & O3 & _ & O5 & _ & O7) [].
  split; rewrite ?E1, ?E2, ?E3, ?E4, ?O1, ?O3, ?O5, ?O7; done.
Qed.
Lemma connecting_same h s s' l l' t t' :
  same_state s s' -> same_ops l l' -> same_trace t t' -> connecting h s l t -> connecting h s' l' t'.
Proof.
  intros (E0 & _ & _ & E1 & _ & _ & _ & E2) (O1 & O2 & O3 & O4 & O5 & O6 & O7) (T1 & T2 & T3 & T4) [].
  split; unfold no_io, no_out, untouched in *; rewrite ?E0, ?E1, ?E2, ?O1, ?O2, ?O3, ?O4, ?O5, ?O6, ?T1, ?T2, ?T3, ?T4;
    done.
Qed.
Lemma relayed_upto_same h k t t' : same_trace t t' -> relayed_upto h k t -> relayed_upto h k t'.
Proof. intros (T1 & T2 & T3 & T4) H. unfold relayed_upto. by rewrite T1, T2, T3, T4. Qed.
Lemma cended_same h s s' l l' t t' :
  same_state s s' -> same_ops l l' -> same_trace t t' -> ended h s l t -> ended h s' l' t'.
Proof.
  intros HS HO HT [E1 E2]. split.
  - pose proof HS as (-> & _ & _ & -> & _). intros Hu. destruct (E1 Hu) as [E|E]; [left|right].
    + by destruct HT as (_ & _ & _ & ->).
    + by eapply relayed_upto_same.
  - pose proof HO as (_ & _ & _ & _ & _ & _ & ->). intros Hc. eapply connecting_same; [done..|auto].
Qed.
Lemma CI_same h s s' l l' t t' :
  same_state s s' -> same_ops l l' -> same_trace t t' -> CI h s l t -> CI h s' l' t'.
Proof.
  intros HS HO HT [G H]. split; [by eapply guards_same|].
  pose proof (connecting_same h _ _ _ _ _ _ HS HO HT) as Hc.
  pose proof (cended_same h _ _ _ _ _ _ HS HO HT) as He.
  destruct HS as (E0 & E1 & E2 & E3 & E4 & E5 & E6 & E7), HO as (O1 & O2 & O3 & O4 & O5 & O6 & O7),
    HT as (T1 & T2 & T3 & T4).
  assert (Hk : socks5 s l t -> socks5 s' l' t').
  { intros []. split; unfold no_out, untouched in *;
      rewrite ?E0, ?O1, ?O2, ?O3, ?O4, ?O5, ?O6, ?O7, ?T1, ?T2, ?T3, ?T4; done. }
  unfold phase, relayed, no_io, no_out, untouched in *.
  rewrite E1, ?E0, ?E3, ?E7, ?O1, ?O2, ?O3, ?O4, ?O5, ?O6, ?O7, ?T1, ?T2, ?T3, ?T4.
  destruct (c_status s); tauto.
Qed.

Ltac same_all := repeat split; cbn; autorewrite with ctrace; done.
(** All counts are numbers that are not negative. *)
Ltac nonneg l :=
  pose proof (cnt_nonneg is_ir l); pose proof (cnt_nonneg is_iw l); pose proof (cnt_nonneg is_or l);
  pose proof (cnt_nonneg is_ow l); pose proof (cnt_nonneg is_ur l); pose proof (cnt_nonneg is_uw l);
  pose proof (cnt_nonneg is_cn l).
Ltac counts := rewrite ?cnt_snoc; cbn [is_ir is_iw is_or is_ow is_ur is_uw is_cn]; lia.

(** *** The steps of the handlers *)

(** [destroy] leaves the operations; what was exchanged stays so. *)
Lemma on_cs_destroy h b s l t :
  guards s l -> ended h s l t ->
  on h (cs_destroy h b)
    (fun _ s' l' t' => CI h s' l' t' /\ c_status s' = C_DESTROY /\ l' = l /\ same_trace t t') s l t.
Proof.
  intros G He. unfold cs_destroy. apply on_bind, on_getC.
  destruct (bool_decide (c_status s = C_DESTROY)) eqn:E; bool_facts.
  { apply on_skip. split; [|done]. split; [done|]. unfold phase. by rewrite E. }
  apply on_bind, on_modC, on_bind, on_c_emit; [done|].
  apply on_bind, on_modC, on_bind, on_modC, on_bind, on_modC.
  rewrite (g_direct _ _ G), andb_false_r. apply on_skip.
  split; [|same_all]. split; [by destruct G|]. unfold phase. cbn.
  destruct He as [E1 E2]. split; cbn.
  - intros Hu. destruct (E1 Hu) as [E'|E']; [left; by autorewrite with ctrace|right].
    eapply relayed_upto_same; [|done]. same_all.
  - intros Hc. destruct (E2 Hc) as [C1 C2 C3]. split; [done|..]; unfold untouched in *; by autorewrite with ctrace.
Qed.
Lemma on_destroyed h b s l t :
  guards s l -> ended h s l t -> on h (cs_destroy h b) (fun _ => CI h) s l t.
Proof. intros G He. eapply on_mono; [by apply on_cs_destroy|]. by intros _ s' l' t' [? _]. Qed.

(** The timer of a use: it is started again, or is running. *)
Lemma on_c_timer h s l t (Q : post unit) :
  (forall s' l', same_state s s' -> c_udp_data_buf s' = c_udp_data_buf s -> same_ops l l' -> Q tt s' l' t) ->
  on h (cs_udp_timer_async_wait configs cancel_ec h (-1)) Q s l t.
Proof.
  intros HQ. unfold cs_udp_timer_async_wait. apply on_bind, on_getC, on_bind, on_gets. intros curr.
  apply on_bind, on_c_ask. intros n. unfold cs_udp_timer_act. apply on_bind, on_modC.
  unfold UdpTimer.udp_timer_async_wait. rewrite cancel_ok. cbn [Z.eqb negb].
  destruct (UdpTimer.is_udp_forward _) eqn:E; cbn [negb fst snd]; [|apply on_skip, HQ; same_all].
  change (-1 =? -1) with true. rewrite andb_true_r.
  destruct (_ =? 0); cbn [negb fst snd]; [apply on_c_start; [done|done|]; apply HQ; same_all|].
  destruct (_ <? _); cbn [fst snd]; [apply on_skip, HQ; same_all|].
  apply on_c_start; [done|done|]; apply HQ; same_all.
Qed.
Lemma on_c_fired h s l t n ec :
  CI h s l t -> on h (cs_udp_timer_fired configs cancel_ec h n ec) (fun _ => CI h) s l t.
Proof.
  intros HS. unfold cs_udp_timer_fired. apply on_bind, on_getC, on_bind, on_gets. intros curr.
  apply on_bind, on_c_ask. intros k. unfold cs_udp_timer_act. apply on_bind, on_modC.
  match goal with |- context [snd ?r] =>
    assert (Hu : UdpTimer.is_udp_forward (fst r) = cudp s); [|destruct r as [tm [|m|]]] end; cbn [fst snd] in *.
  { unfold UdpTimer.udp_timer_fired, UdpTimer.udp_timer_async_wait, cudp. 
    repeat match goal with |- context [if ?b then _ else _] => destruct b end; done. }
  - apply on_skip. eapply CI_same; [..|exact HS]; same_all.
  - apply on_c_start; [done|done|]. eapply CI_same; [..|exact HS]; same_all.
  - eapply CI_same in HS; [apply on_destroyed; [apply HS|by apply CI_ended]|..]; same_all.
Qed.

(** The part of a session the phases see *)
Definition same_view (s s' : ClientSession) : Prop :=
  c_kind s' = c_kind s /\ c_status s' = c_status s /\ cudp s' = cudp s /\
  c_out_write_buf s' = c_out_write_buf s.
Lemma phase_view h s s' l t : same_view s s' -> phase h s l t -> phase h s' l t.
Proof.
  intros (E1 & E2 & E3 & E4) H.
  assert (Hc : connecting h s l t -> connecting h s' l t) by (intros []; split; rewrite ?E1, ?E3, ?E4; done).
  assert (He : ended h s l t -> ended h s' l t).
  { intros [R1 R2]. split; rewrite ?E1, ?E3; auto. }
  assert (Hk : socks5 s l t -> socks5 s' l t) by (intros []; split; rewrite ?E1; done).
  unfold phase in *. rewrite E2, ?E1, ?E3, ?E4. destruct (c_status s); tauto.
Qed.

(** A read is started. *)
Lemma on_in_async_read h s l t (Q : post unit) :
  guards s l -> cnt is_ir l = 0 ->
  (forall s', same_view s s' -> guards s' (l ++ [CInRead h]) -> Q tt s' (l ++ [CInRead h]) t) ->
  on h (cs_in_async_read h) Q s l t.
Proof.
  intros [G1 G2 G3 G4 G5] Hn HQ. unfold cs_in_async_read. apply on_bind, on_getC.
  unfold forwards_in_pipeline. rewrite G4. cbn [andb].
  apply on_c_guarded_read; [done|done|by eapply guard_free|]. apply HQ; [done|].
  split; cbn; rewrite ?cnt_snoc; cbn; rewrite ?Z.add_0_r; try done. by apply guard_begun.
Qed.
Lemma on_cl_out_async_read h s l t (Q : post unit) :
  guards s l -> cnt is_or l = 0 ->
  (forall s', same_view s s' -> c_udp_data_buf s' = c_udp_data_buf s ->
     guards s' (l ++ [COutRead h]) -> Q tt s' (l ++ [COutRead h]) t) ->
  on h (cs_out_async_read configs cancel_ec (S d) h) Q s l t.
Proof.
  intros [G1 G2 G3 G4 G5] Hn HQ. unfold cs_out_async_read. cbn [cs_out_async_read_]. apply on_bind, on_getC.
  rewrite G4. apply on_c_guarded_read; [done|done|by eapply guard_free|]. apply HQ; [done|done|].
  split; cbn; rewrite ?cnt_snoc; cbn; rewrite ?Z.add_0_r; try done. by apply guard_begun.
Qed.
Lemma on_udp_async_read h s l t (Q : post unit) :
  guards s l -> cnt is_ur l = 0 ->
  (forall s', same_view s s' -> guards s' (l ++ [CUdpRead h]) -> Q tt s' (l ++ [CUdpRead h]) t) ->
  on h (cs_udp_async_read h) Q s l t.
Proof.
  intros [G1 G2 G3 G4 G5] Hn HQ. unfold cs_udp_async_read.
  apply on_c_guarded_read; [done|done|by eapply guard_free|]. apply HQ; [done|].
  split; cbn; rewrite ?cnt_snoc; cbn; rewrite ?Z.add_0_r; try done. by apply guard_begun.
Qed.

(** A write is started. *)
Lemma guards_write s l o :
  guards s l -> is_ir o = false -> is_or o = false -> is_ur o = false -> is_cn o = false -> guards s (l ++ [o]).
Proof. intros [] E1 E2 E3 E4. split; rewrite ?cnt_snoc, ?E1, ?E2, ?E3, ?E4, ?Z.add_0_r; done. Qed.
Lemma on_in_async_write h data ack s l t (Q : post unit) :
  guards s l ->
  (forall b, guards s (l ++ [CInWrite h b ack]) -> Q tt s (l ++ [CInWrite h b ack]) (t ++ [ToApp h data])) ->
  on h (cs_in_async_write h data ack) Q s l t.
Proof.
  intros G HQ. unfold cs_in_async_write. apply on_bind, on_getC.
  unfold forwards_in_pipeline. rewrite (g_direct _ _ G). cbn [andb when]. apply on_bind, on_skip.
  apply on_c_write; [done|done|by intros b b' [= ->]|]. intros b. apply HQ. by apply guards_write.
Qed.
Lemma on_out_async_write h data s l t (Q : post unit) :
  guards s l ->
  (forall b, guards s (l ++ [COutWrite h b]) -> Q tt s (l ++ [COutWrite h b]) (t ++ [ToServer h data])) ->
  on h (cs_out_async_write configs h data) Q s l t.
Proof.
  intros G HQ. unfold cs_out_async_write. apply on_bind, on_getC. rewrite (g_direct _ _ G).
  apply on_c_write; [done|done|by intros b b' [= ->]|]. intros b. apply HQ. by apply guards_write.
Qed.
Lemma on_udp_async_write h data ep s l t (Q : post unit) :
  guards s l ->
  (forall b, guards s (l ++ [CUdpWrite h b]) -> Q tt s (l ++ [CUdpWrite h b]) (t ++ [UdpToApp h data ep])) ->
  on h (cs_udp_async_write h data ep) Q s l t.
Proof.
  intros G HQ. apply on_c_write; [done|done|by intros b b' [= ->]|]. intros b. apply HQ. by apply guards_write.
Qed.

(** *** An operation has ended *)

Lemma guards_after s l0 o l : guards s l0 -> after l0 o l ->
  is_ir o = false -> is_or o = false -> is_ur o = false -> guards s l.
Proof.
  intros [] Ha E1 E2 E3. pose proof (Ha is_ir) as A1. pose proof (Ha is_or) as A2. pose proof (Ha is_ur) as A3.
  pose proof (Ha is_cn) as A4. rewrite E1 in A1. rewrite E2 in A2. rewrite E3 in A3. rewrite Z.add_0_r in A1, A2, A3.
  split; rewrite <- ?A1, <- ?A2, <- ?A3; try done. destruct (is_cn o); lia.
Qed.
Ltac all_after Ha :=
  pose proof (Ha is_ir); pose proof (Ha is_iw); pose proof (Ha is_or); pose proof (Ha is_ow);
  pose proof (Ha is_ur); pose proof (Ha is_uw); pose proof (Ha is_cn);
  cbn [is_ir is_iw is_or is_ow is_ur is_uw is_cn] in *;
  match type of Ha with after _ _ ?l => nonneg l end.

(** A session that has ended is not touched by what still ends. *)
Lemma destroyed_after h s l0 o l t :
  ended h s l0 t -> after l0 o l -> ended h s l t.
Proof.
  intros [E1 E2] Ha. split; [done|]. intros Hc.
  assert (Hc0 : cnt is_cn l0 <> 0).
  { rewrite (Ha is_cn). pose proof (cnt_nonneg is_cn l). destruct (is_cn o); lia. }
  destruct (E2 Hc0) as [(I1 & I2 & I3 & I4 & I5 & I6) C2 C3]. split; [|done|done].
  unfold no_io, no_out. destruct o; all_after Ha; split_and!; lia.
Qed.

(** An operation the invariant does not count *)
Lemma CI_after h s l0 o l t :
  CI h s l0 t -> after l0 o l -> is_ir o = false -> is_iw o = false -> is_or o = false -> is_ow o = false ->
  is_ur o = false -> is_uw o = false -> is_cn o = false -> CI h s l t.
Proof.
  intros HS Ha E1 E2 E3 E4 E5 E6 E7. eapply CI_same; [| |done|exact HS]; [done|].
  pose proof (Ha is_ir). pose proof (Ha is_iw). pose proof (Ha is_or). pose proof (Ha is_ow).
  pose proof (Ha is_ur). pose proof (Ha is_uw). pose proof (Ha is_cn).
  rewrite E1, E2, E3, E4, E5, E6, E7 in *. unfold same_ops. split_and!; lia.
Qed.

(** *** What the application sends first *)

Lemma quiet_ended h s l t : to_server t = [] -> cnt is_cn l = 0 -> ended h s l t.
Proof. intros Ht Hc. split; [by left|done]. Qed.
Lemma socks5_ended h s l t : socks5 s l t -> ended h s l t.
Proof. intros [_ [? _] (_ & ? & _)]. by apply quiet_ended. Qed.

(** An answer is written; nothing else is going on. *)
Lemma socks5_answers h s s' l t b n data :
  socks5 s l t -> c_kind s' = c_kind s -> cnt is_ir l = 0 -> cnt is_iw l = 0 ->
  socks5 s' (l ++ [CInWrite h b n]) (t ++ [ToApp h data]).
Proof.
  intros [K1 K2 (K3 & K4 & K5)] Hk Hr Hw. split; [congruence|..]; unfold untouched, no_out in *; autorewrite with ctrace.
  - done.
  - cbn. rewrite ?Z.add_0_r. split_and!; try lia; apply K3.
Qed.

(** The session is refused after the answer. *)
Lemma refused_CI h s l t b n data :
  guards s (l ++ [CInWrite h b n]) -> socks5 s l t -> cnt is_ir l = 0 -> cnt is_iw l = 0 ->
  CI h (s <| c_status := C_INVALID |>) (l ++ [CInWrite h b n]) (t ++ [ToApp h data]).
Proof.
  intros G HK Hr Hw. split; [by destruct G|]. unfold phase. cbn. by eapply socks5_answers.
Qed.

Lemma on_in_handshake h data s l t :
  guards s l -> c_status s = C_HANDSHAKE -> socks5 s l t -> cnt is_ir l = 0 -> cnt is_iw l = 0 ->
  cudp s = false -> from_app t = [data] -> to_app t = [] ->
  on h (cs_in_handshake h data) (fun _ => CI h) s l t.
Proof.
  intros G Hst HK Hr Hw Hu Hf Ht. unfold cs_in_handshake.
  destruct (socks5_is_invalid_handshake_data data); [apply on_destroyed; [done|by apply socks5_ended]|].
  destruct (negb (has_method data)).
  - apply on_bind, on_in_async_write; [done|]. intros b Gb. apply on_modC. by apply refused_CI.
  - apply on_in_async_write; [done|]. intros b Gb. split; [done|]. unfold phase. rewrite Hst.
    autorewrite with ctrace. cbn. rewrite Hf, Ht. split_and!; [by eapply socks5_answers|done|lia|].
    intros _. by exists data.
Qed.

Lemma on_refuse h s l t :
  guards s l -> socks5 s l t -> cnt is_ir l = 0 -> cnt is_iw l = 0 ->
  on h (cs_refuse_request h) (fun _ => CI h) s l t.
Proof.
  intros G HK Hr Hw. unfold cs_refuse_request. apply on_bind, on_in_async_write; [done|]. intros b Gb.
  apply on_modC. by apply refused_CI.
Qed.

(** A request that is accepted is answered; it is what will be sent first. *)
Lemma requested_CI h s l t b n data replies :
  guards s (l ++ [CInWrite h b n]) -> c_status s = C_REQUEST -> socks5 s l t ->
  cnt is_ir l = 0 -> cnt is_iw l = 0 ->
  opened h KClient (from_app t) (c_out_write_buf s) [] replies ->
  (cudp s = false -> to_app t ++ [data] = replies) ->
  CI h s (l ++ [CInWrite h b n]) (t ++ [ToApp h data]).
Proof.
  intros G Hst HK Hr Hw Ho Ha. split; [done|]. unfold phase. rewrite Hst.
  autorewrite with ctrace. cbn. rewrite ?app_nil_r. split_and!; [by eapply socks5_answers|lia|].
  intros _. by exists replies.
Qed.

Lemma socks5_same s s' l l' t :
  c_kind s' = c_kind s -> same_ops l l' -> socks5 s l t -> socks5 s' l' t.
Proof.
  intros E (O1 & O2 & O3 & O4 & O5 & O6 & O7) []. split; [congruence|done|].
  unfold no_out in *. by rewrite O1, O2, O3, O4, O5, O6, O7.
Qed.

Lemma on_udp_associate h s l t replies :
  guards s l -> c_status s = C_REQUEST -> socks5 s l t -> cnt is_ir l = 0 -> cnt is_iw l = 0 ->
  cudp s = true -> opened h KClient (from_app t) (c_out_write_buf s) [] replies ->
  on h (cs_udp_associate configs udp_local system_ec cancel_ec h) (fun _ => CI h) s l t.
Proof.
  intros G Hst HK Hr Hw Hu Ho. unfold cs_udp_associate. apply on_bind, on_c_timer. intros s1 l1 Hs1 _ Hl1.
  assert (G1 : guards s1 l1) by (by eapply guards_same).
  destruct Hs1 as (E0 & E1 & _ & E3 & _ & _ & _ & E7).
  assert (HK1 : socks5 s1 l1 t) by (by eapply socks5_same).
  destruct Hl1 as (O1 & O2 & _).
  apply on_bind, on_c_ask. intros n. destruct (negb _); [apply on_destroyed; [done|by apply socks5_ended]|].
  apply on_bind, on_modC, on_bind, on_c_ask. intros m. destruct (negb _); [by apply on_throw|].
  apply on_bind, on_getC. apply on_bind, on_modC. apply on_in_async_write; [by destruct G1|].
  intros b Gb. apply requested_CI with (replies := replies); [exact Gb|cbn; congruence| |lia|lia|..].
  - by eapply socks5_same; [..|exact HK1].
  - cbn. by rewrite E7.
  - unfold cudp in *. cbn. congruence.
Qed.

Lemma build_request_ok data : 3 <= zlen data -> returns (cs_build_request pw data).
Proof.
  intros Hl. unfold cs_build_request. destruct (at_defined data 1) as [c ->]; [lia|]. cbn [obind].
  rewrite substr_from_ok by lia. cbn. by eexists.
Qed.
Lemma valid_quest_length data : socks5_is_invalid_quest_data data = false -> 7 <= zlen data.
Proof. unfold socks5_is_invalid_quest_data. intros [H _]%orb_false_iff. lia. Qed.

Lemma on_in_request h greet data s l t :
  guards s l -> c_status s = C_REQUEST -> socks5 s l t -> cnt is_ir l = 0 -> cnt is_iw l = 0 ->
  cudp s = false -> from_app t = [greet; data] -> to_app t = [socks5_handshake_reply_succ] ->
  on h (cs_in_request configs make_address udp_local system_ec cancel_ec h data) (fun _ => CI h) s l t.
Proof.
  intros G Hst HK Hr Hw Hu Hf Ht. unfold cs_in_request.
  destruct (socks5_is_invalid_quest_data data) eqn:Ev; [apply on_destroyed; [done|by apply socks5_ended]|].
  apply valid_quest_length in Ev. unfold ccfg. destruct password_first as (x & rest & ->).
  destruct (build_request_ok data ltac:(lia)) as [text Et]. apply on_bind. rewrite Et.
  apply on_lift; [done|done|]. intros buf [= <-]. apply on_bind, on_modC.
  set (s1 := s <| c_out_write_buf := text |>).
  assert (G1 : guards s1 l) by (by destruct G).
  assert (HK1 : socks5 s1 l t) by (by eapply socks5_same; [..|exact HK]).
  apply on_bind, on_lift; [intros e He; by apply Trojan_parse_nothrow in He|apply Trojan_parse_octet03|].
  intros [v parsed] Hp. cbn [fst snd]. destruct (v =? -1) eqn:Ev1; [by apply on_refuse|].
  destruct parsed as [req|].
  2:{ apply TrojanRequest.parse_None in Hp. subst v. done. }
  match goal with |- context [if ?b then cs_refuse_request h else _] => destruct b end; [by apply on_refuse|].
  apply on_bind, on_modC.
  assert (Ho : opened h KClient (from_app t) text []
    [socks5_handshake_reply_succ; socks5_request_reply_succ_tcp]) by (rewrite Hf; by constructor).
  destruct (TrojanRequest.command req); cbn iota.
  - apply on_in_async_write; [by destruct G1|]. intros b Gb. eapply requested_CI; try done.
    + by eapply socks5_same; [..|exact HK1].
    + intros _. by rewrite Ht.
  - eapply on_udp_associate; try done; [by destruct G1|by eapply socks5_same; [..|exact HK1]].
Qed.

(** *** A read from the application has ended *)

Lemma in_read_ended h s l0 l :
  guards s l0 -> after l0 (CInRead h) l ->
  let r := c_in_read_buf s in
  cnt is_ir l = 0 /\ read_buf r = [] /\ guards (s <| c_in_read_buf := end_read r |>) l.
Proof.
  intros [G1 G2 G3 G4 G5] Ha r. all_after Ha. fold r in G1. rewrite (Ha is_ir) in G1. cbn [is_ir] in G1.
  apply guard_ended in G1 as (Hn & Hb & G1); [|lia]. split; [done|]. split; [done|].
  split; cbn; [by rewrite Hn|..]; try done; try lia.
  - by replace (cnt is_or l) with (cnt is_or l0) by lia.
  - by replace (cnt is_ur l) with (cnt is_ur l0) by lia.
Qed.
Lemma out_read_ended h s l0 l :
  guards s l0 -> after l0 (COutRead h) l ->
  let r := c_out_read_buf s in
  cnt is_or l = 0 /\ read_buf r = [] /\ guards (s <| c_out_read_buf := end_read r |>) l.
Proof.
  intros [G1 G2 G3 G4 G5] Ha r. all_after Ha. fold r in G2. rewrite (Ha is_or) in G2. cbn [is_or] in G2.
  apply guard_ended in G2 as (Hn & Hb & G2); [|lia]. split; [done|]. split; [done|].
  split; cbn; [|by rewrite Hn|..]; try done; try lia.
  - by replace (cnt is_ir l) with (cnt is_ir l0) by lia.
  - by replace (cnt is_ur l) with (cnt is_ur l0) by lia.
Qed.
Lemma udp_read_ended h s l0 l :
  guards s l0 -> after l0 (CUdpRead h) l ->
  let r := c_udp_read_buf s in
  cnt is_ur l = 0 /\ read_buf r = [] /\ guards (s <| c_udp_read_buf := end_read r |>) l.
Proof.
  intros [G1 G2 G3 G4 G5] Ha r. all_after Ha. fold r in G3. rewrite (Ha is_ur) in G3. cbn [is_ur] in G3.
  apply guard_ended in G3 as (Hn & Hb & G3); [|lia]. split; [done|]. split; [done|].
  split; cbn; [| |by rewrite Hn|..]; try done; try lia.
  - by replace (cnt is_ir l) with (cnt is_ir l0) by lia.
  - by replace (cnt is_or l) with (cnt is_or l0) by lia.
Qed.

(** Less is going on; the phase stays. *)
Lemma phase_after h s l0 o l t :
  phase h s l0 t -> after l0 o l -> is_iw o = false -> is_cn o = false -> phase h s l t.
Proof.
  intros H Ha Ew Ec.
  assert (Hw : cnt is_iw l = cnt is_iw l0) by (rewrite (Ha is_iw), Ew; lia).
  assert (Hc : cnt is_cn l = cnt is_cn l0) by (rewrite (Ha is_cn), Ec; lia).
  assert (Hle : cnt is_ir l <= cnt is_ir l0 /\ cnt is_or l <= cnt is_or l0 /\ cnt is_ow l <= cnt is_ow l0 /\
    cnt is_ur l <= cnt is_ur l0 /\ cnt is_uw l <= cnt is_uw l0) by (destruct o; all_after Ha; lia).
  nonneg l.
  assert (Hio : no_io l0 -> no_io l).
  { unfold no_io, no_out. lia. }
  assert (Hk : socks5 s l0 t -> socks5 s l t).
  { intros [K1 K2 (K3 & K4 & K5)]. split; [done|done|]. unfold no_out in *. lia. }
  assert (Hcn : connecting h s l0 t -> connecting h s l t) by (intros []; split; auto).
  assert (Hen : ended h s l0 t -> ended h s l t) by (intros; by eapply destroyed_after).
  unfold phase in *. rewrite Hw, Hc. destruct (c_status s); intuition lia.
Qed.

(** One more chunk of the application *)
Lemma relayed_upto_app h k t data :
  relayed_upto h k t -> relayed_upto h k (t ++ [FromApp h data]).
Proof.
  intros (text & payload & replies & H1 & [x H2] & H3). exists text, (payload ++ [data]), replies.
  autorewrite with ctrace. cbn. rewrite ?app_nil_r. split; [by apply opened_snoc|]. split; [|done].
  rewrite concat_app, app_assoc, H2, <- app_assoc. by eexists.
Qed.
Lemma relayed_sent h k t data :
  relayed h k t -> relayed h k ((t ++ [FromApp h data]) ++ [ToServer h data]).
Proof.
  intros (text & payload & replies & H1 & H2 & H3). exists text, (payload ++ [data]), replies.
  autorewrite with ctrace. cbn. rewrite ?app_nil_r. split; [by apply opened_snoc|]. split; [|done].
  rewrite concat_app, H2. cbn. by rewrite app_nil_r, <- app_assoc.
Qed.
Lemma relayed_upto_server h k t data :
  relayed_upto h k t -> relayed_upto h k (t ++ [FromServer h data]).
Proof.
  intros (text & payload & replies & H1 & H2 & [x H3]). exists text, payload, replies.
  autorewrite with ctrace. cbn. rewrite ?app_nil_r. split; [done|]. split; [done|].
  rewrite app_assoc, H3, <- app_assoc. by eexists.
Qed.
Lemma relayed_answered h k t data :
  relayed h k t -> relayed h k ((t ++ [FromServer h data]) ++ [ToApp h data]).
Proof.
  intros (text & payload & replies & H1 & H2 & H3). exists text, payload, replies.
  autorewrite with ctrace. cbn. rewrite ?app_nil_r. split; [done|]. split; [done|].
  by rewrite H3, app_assoc.
Qed.

(** A destroyed session takes note of what is read, no more. *)
Lemma ended_from_app h s l t data :
  ended h s l t -> cnt is_cn l = 0 -> ended h s l (t ++ [FromApp h data]).
Proof.
  intros [E1 E2] Hc. split; [|done]. intros Hu. destruct (E1 Hu) as [E|E]; [left|right; by apply relayed_upto_app].
  by autorewrite with ctrace.
Qed.
Lemma ended_from_server h s l t data :
  ended h s l t -> cnt is_cn l = 0 -> ended h s l (t ++ [FromServer h data]).
Proof.
  intros [E1 E2] Hc. split; [|done]. intros Hu. destruct (E1 Hu) as [E|E]; [left|right; by apply relayed_upto_server].
  by autorewrite with ctrace.
Qed.

(** While the connection is made nothing else ends. *)
Lemma io_not_connecting h s l0 o l t :
  ended h s l0 t -> after l0 o l -> is_ir o || is_iw o || is_or o || is_ow o || is_ur o || is_uw o = true ->
  cnt is_cn l = 0.
Proof.
  intros [_ E2] Ha Ho. destruct (decide (cnt is_cn l0 = 0)) as [Hc|Hc].
  - pose proof (Ha is_cn). pose proof (cnt_nonneg is_cn l). destruct (is_cn o); lia.
  - destruct (E2 Hc) as [(I1 & I2 & I3 & I4 & I5 & I6) _ _]. exfalso.
    destruct o; try discriminate Ho; all_after Ha; lia.
Qed.

Lemma forward_read_CI h s l t b data :
  guards s (l ++ [COutWrite h b]) -> c_status s = C_FORWARD ->
  cudp s = false -> relayed h (c_kind s) t -> cnt is_cn l = 0 -> cnt is_ur l = 0 -> cnt is_uw l = 0 ->
  cnt is_ir l = 0 -> cnt is_ow l = 0 -> cnt is_or l + cnt is_iw l <= 1 ->
  CI h s (l ++ [COutWrite h b]) ((t ++ [FromApp h data]) ++ [ToServer h data]).
Proof.
  intros G Hst Hu Hr Hc H1 H2 H3 H4 H5. split; [done|]. unfold phase. rewrite Hst.
  split_and!; [done|by apply relayed_sent|counts..].
Qed.

(** A chunk of the application, read when nothing else of its kind goes on *)
Lemma on_v_in_recv h s l0 l t data :
  guards s l -> phase h s l0 t -> after l0 (CInRead h) l -> cnt is_ir l = 0 ->
  on h (v_in_recv configs make_address udp_local system_ec cancel_ec h data) (fun _ => CI h) s l
    (t ++ [FromApp h data]).
Proof.
  intros G Hp Ha Hr. pose proof (phase_after _ _ _ _ _ _ Hp Ha eq_refl eq_refl) as Hp'. all_after Ha.
  assert (Hsk : socks5 s l0 t -> socks5 s l (t ++ [FromApp h data]) /\ cnt is_iw l0 = 0 /\ cnt is_iw l = 0).
  { intros [K1 K2 (K3 & K4 & K5)]. split; [|lia]. split; [done|..]; unfold untouched, no_out in *;
      autorewrite with ctrace; [done|lia]. }
  assert (Hfwd : c_status s = C_FORWARD ->
    on h (modC h (fun s => s <| c_stat ::= fun st => inc_sent_len st (zlen data) |>) ;;; cs_out_async_write configs h data)
      (fun _ => CI h) s l (t ++ [FromApp h data])).
  { intros Hst. unfold phase in Hp. rewrite Hst in Hp. destruct Hp as (P1 & P2 & P3 & P4 & P5 & P6 & P7).
    apply on_bind, on_modC, on_out_async_write; [by destruct G|]. intros b Gb.
    apply forward_read_CI; try done; lia. }
  assert (Hskip : c_status s = C_INVALID \/ c_status s = C_DESTROY -> CI h s l (t ++ [FromApp h data])).
  { intros [Hst|Hst]; unfold phase in Hp; rewrite Hst in Hp; (split; [done|]); unfold phase; rewrite Hst.
    - by apply Hsk.
    - apply ended_from_app; [by eapply destroyed_after|]. by eapply io_not_connecting. }
  assert (Hnat : c_kind s <> KClient -> on h (ns_in_recv configs h data) (fun _ => CI h) s l (t ++ [FromApp h data])).
  { intros Ek. unfold ns_in_recv. apply on_bind, on_getC. unfold phase in Hp.
    destruct (c_status s) eqn:Hst; [| | |by apply Hfwd| |by apply on_skip, Hskip; auto|by apply on_skip, Hskip; auto].
    - destruct Hp as ([? _ _] & _). congruence.
    - destruct Hp as ([? _ _] & _). congruence.
    - destruct Hp as ((I1 & _) & _). lia.
    - destruct Hp as (_ & _ & I1 & _). lia. }
  unfold v_in_recv. apply on_bind, on_getC. destruct (c_kind s) eqn:Ek; [|by apply Hnat..].
  unfold cs_in_recv. apply on_bind, on_getC. unfold phase in Hp, Hp'.
  destruct (c_status s) eqn:Hst; [| | |by apply Hfwd| |by apply on_skip, Hskip; auto|by apply on_skip, Hskip; auto].
  - destruct Hp as (HK & Hu & P3 & _). destruct (Hsk HK) as (HK' & W0 & W). destruct (P3 W0) as [P4 P5].
    apply on_in_handshake; try done; autorewrite with ctrace; by rewrite ?P4, ?P5.
  - destruct Hp as (HK & P3 & _). destruct (Hsk HK) as (HK' & W0 & W). destruct (P3 W0) as (Hu & g & P4 & P5).
    apply (on_in_request h g); try done; autorewrite with ctrace; by rewrite ?P4, ?P5.
  - destruct Hp as ((I1 & _) & _). lia.
  - destruct Hp as (_ & _ & I1 & _). lia.
Qed.

Lemma on_in_read_done h s l0 l t ec data :
  CI h s l0 t -> after l0 (CInRead h) l ->
  on h (cs_in_read_done configs make_address udp_local system_ec cancel_ec h ec data) (fun _ => CI h) s l t.
Proof.
  intros [G Hp] Ha. destruct (in_read_ended _ _ _ _ G Ha) as (Hr & Hb & G1).
  unfold cs_in_read_done. apply on_bind, on_c_end_read. cbn [cbuf_of set_cbuf].
  set (s1 := s <| c_in_read_buf := end_read (c_in_read_buf s) |>) in *.
  assert (Hv : same_view s s1) by done.
  assert (Hp1 : phase h s1 l t) by (eapply phase_view; [done|by eapply phase_after]).
  destruct (_ =? _); [by apply on_skip|].
  destruct (negb _); [apply on_destroyed; [done|by eapply CI_ended]|].
  apply on_bind, on_c_emit; [done|]. apply on_bind, on_c_commit. cbn [cbuf_of set_cbuf].
  assert (Hd : read_buf (rb_commit (c_in_read_buf s1) data) = data) by (cbn; by rewrite Hb).
  rewrite Hd. eapply on_v_in_recv; [| |done|done].
  - by destruct G1; split.
  - by eapply phase_view; [|exact Hp].
Qed.

(** *** A write to the application has ended *)

Lemma requesting_CI h s l t o :
  guards s l -> connecting h s l t -> c_status s = C_CONNECT \/ c_status s = C_DESTROY ->
  cnt is_cn l = 0 -> is_cn o = true ->
  CI h s (l ++ [o]) t.
Proof.
  intros [] [C1 C2 C3] Hst Hc Ho.
  assert (Hk : is_ir o = false /\ is_iw o = false /\ is_or o = false /\ is_ow o = false /\
    is_ur o = false /\ is_uw o = false) by (by destruct o).
  destruct Hk as (K1 & K2 & K3 & K4 & K5 & K6).
  assert (Hcn : connecting h s (l ++ [o]) t).
  { split; [|done|done]. unfold no_io, no_out in *. rewrite !cnt_snoc, K1, K2, K3, K4, K5, K6, !Z.add_0_r. done. }
  split.
  - split; rewrite ?cnt_snoc, ?K1, ?K3, ?K5, ?Ho, ?Z.add_0_r; try done. lia.
  - unfold phase. destruct Hst as [-> | ->].
    + split; [apply Hcn|]. split; [done|]. by intros _.
    + split; [|by intros _]. intros _. left. apply C2.
Qed.

(** The tunnel is there, or is asked for. *)
Lemma on_request_remote h s l t :
  guards s l -> connecting h s l t -> c_status s = C_CONNECT -> cnt is_cn l = 0 ->
  on h (cs_request_remote configs cancel_ec (S d) h) (fun _ => CI h) s l t.
Proof.
  intros G Hcn Hst Hc. unfold cs_request_remote. apply on_bind, on_getC. rewrite (g_direct _ _ G).
  apply on_bind, on_c_emit; [done|]. apply on_c_start; [done|done|].
  apply requesting_CI; try done; [|by left].
  destruct Hcn as [C1 [C2 C2'] C3]. split; unfold untouched in *; by autorewrite with ctrace.
Qed.

Lemma on_v_in_sent h s l0 l t b n :
  CI h s l0 t -> after l0 (CInWrite h b n) l ->
  on h (v_in_sent configs cancel_ec (S d) h) (fun _ => CI h) s l t.
Proof.
  intros HS Ha. pose proof (CI_ended _ _ _ _ HS) as He0. destruct HS as [G Hp].
  assert (G' : guards s l) by (by eapply guards_after). all_after Ha.
  pose proof (destroyed_after _ _ _ _ _ _ He0 Ha) as He.
  pose proof (io_not_connecting _ _ _ _ _ _ He0 Ha eq_refl) as Hc.
  assert (Hk : socks5 s l0 t -> socks5 s l t /\ cnt is_ir l = 0 /\ cnt is_iw l = 0 /\ cnt is_iw l0 <> 0).
  { intros [K1 K2 (K3 & K4 & K5)]. split; [|lia]. split; [done|done|]. unfold no_out in *. lia. }
  assert (Hfwd : c_status s = C_FORWARD -> on h (cs_out_async_read configs cancel_ec (S d) h) (fun _ => CI h) s l t).
  { intros Hst. unfold phase in Hp. rewrite Hst in Hp. destruct Hp as (P1 & P2 & P3 & P4 & P5 & P6 & P7).
    apply on_cl_out_async_read; [done|lia|]. intros s' Hv _ G1. split; [done|]. eapply phase_view; [done|].
    unfold phase. rewrite Hst. split_and!; [done|done|counts..]. }
  assert (Hskip : c_status s = C_DESTROY -> CI h s l t).
  { intros Hst. split; [done|]. unfold phase. by rewrite Hst. }
  unfold v_in_sent. apply on_bind, on_getC. destruct (c_kind s) eqn:Ek.
  2,3: unfold ns_in_sent; apply on_bind, on_getC; unfold phase in Hp; destruct (c_status s) eqn:Hst;
    [destruct Hp as ([? _ _] & _); congruence|destruct Hp as ([? _ _] & _); congruence
    |destruct Hp as ((_ & I1 & _) & _); lia|by apply Hfwd|destruct Hp as (_ & _ & _ & I1 & _); lia
    |destruct Hp as [? _ _]; congruence|by apply on_skip, Hskip].
  unfold cs_in_sent. apply on_bind, on_getC. unfold phase in Hp. destruct (c_status s) eqn:Hst.
  - destruct Hp as (HK & Hu & _ & P4). destruct (Hk HK) as (HK' & R & W & W0). destruct (P4 W0) as (g & P5 & P6).
    apply on_bind, on_modC, on_in_async_read; [by destruct G'|done|]. intros s' (V1 & V2 & V3 & V4) G1. split; [done|].
    unfold phase. rewrite V2, V3. cbn [c_status update]. cbn.
    destruct HK' as [K1 K2 (K3 & K4 & K5)].
    split; [split; [cbn in *; congruence|done|unfold no_out in *; split_and!; counts]|]. rewrite cnt_snoc. cbn.
    split; [|lia]. intros _. split; [done|by exists g].
  - destruct Hp as (HK & _ & P4). destruct (Hk HK) as (HK' & R & W & W0). destruct (P4 W0) as (rs & P5 & P6).
    apply on_bind, on_modC. destruct HK' as [K1 K2 (K3 & K4 & K5)].
    apply on_request_remote; try done; [by destruct G'|]. split; [by split_and!|done|]. cbn. rewrite K1. by exists rs.
  - destruct Hp as ((_ & I1 & _) & _). lia.
  - by apply Hfwd.
  - destruct Hp as (_ & _ & _ & I1 & _). lia.
  - by apply on_destroyed.
  - by apply on_skip, Hskip.
Qed.

(** After the buffer of the write was given back *)
Lemma on_in_written h s l0 l t b n (ec : error_code) :
  CI h s l0 t -> after l0 (CInWrite h b n) l ->
  on h (if negb (ec =? 0) then cs_destroy h false else
        s <- getC h ;;
        if forwards_in_pipeline s then
          if m_write_close_future (c_com s) &&
             negb (ReadDataCache.has_queued_data (pipeline_data_cache (c_com s)))
          then cs_destroy h false
          else
            modC h (fun s => s <| c_com ::= set_async_writing_data false |>) ;;;
            sv_session_async_send_to_pipeline configs h PipelineRequest.ACK [] (HAcked h) n
        else v_in_sent configs cancel_ec (S d) h) (fun _ => CI h) s l t.
Proof.
  intros HS Ha. assert (G' : guards s l) by (eapply guards_after; [apply HS|done..]).
  destruct (negb _).
  { apply on_destroyed; [done|]. eapply destroyed_after; [by apply CI_ended|done]. }
  apply on_bind, on_getC. unfold forwards_in_pipeline. rewrite (g_direct _ _ G'). cbn [andb].
  by eapply on_v_in_sent.
Qed.

(** *** Datagrams *)

(** What holds of a session that relays datagrams and waits for the server *)
Record udp_relaying (s : ClientSession) (l : list cop) : Prop := {
  ud_guards : guards s l;
  ud_status : c_status s = C_UDP_FORWARD;
  ud_udp : cudp s = true;
  ud_ops : cnt is_cn l = 0 /\ cnt is_ir l = 0 /\ cnt is_iw l = 0
}.
Lemma udp_relaying_same s s' l l' :
  same_state s s' -> same_ops l l' -> udp_relaying s l -> udp_relaying s' l'.
Proof.
  intros HS HO [U1 U2 U3 U4]. pose proof (guards_same _ _ _ _ HS HO U1) as G.
  destruct HS as (_ & E1 & _ & E3 & _), HO as (O1 & O2 & _ & _ & _ & _ & O7).
  split; [done|congruence|congruence|]. by rewrite O1, O2, O7.
Qed.
Lemma udp_ended h s l t : udp_relaying s l -> ended h s l t.
Proof. intros [_ _ U3 (U4 & _)]. split; [congruence|done]. Qed.
Lemma udp_CI h s l t :
  udp_relaying s l -> cnt is_ur l + cnt is_ow l <= 1 -> cnt is_or l + cnt is_uw l <= 1 -> CI h s l t.
Proof. intros [U1 U2 U3 (U4 & U5 & U6)] H1 H2. split; [done|]. unfold phase. by rewrite U2. Qed.
Lemma udp_view s s' l l' :
  udp_relaying s l -> same_view s s' -> guards s' l' ->
  cnt is_cn l' = cnt is_cn l -> cnt is_ir l' = cnt is_ir l -> cnt is_iw l' = cnt is_iw l -> udp_relaying s' l'.
Proof.
  intros [U1 U2 U3 U4] (_ & V2 & V3 & _) G E1 E2 E3. split; [done|congruence|congruence|by rewrite E1, E2, E3].
Qed.

(** The packets of the buffer go to the application one by one; then the session
    reads on. *)
Lemma on_udp_sent h s l t :
  udp_relaying s l -> cnt is_ur l + cnt is_ow l <= 1 -> cnt is_or l = 0 -> cnt is_uw l = 0 ->
  on h (cs_udp_sent configs cancel_ec (S d) h) (fun _ => CI h) s l t.
Proof.
  intros U H1 H2 H3. unfold cs_udp_sent, cs_udp_sent_. apply on_bind, on_getC.
  rewrite bool_decide_true by apply U. cbn [negb]. apply on_bind, on_c_timer. intros s1 l1 Hs1 _ Hl1.
  pose proof (udp_relaying_same _ _ _ _ Hs1 Hl1 U) as U1.
  destruct Hl1 as (O1 & O2 & O3 & O4 & O5 & O6 & O7).
  apply on_bind, on_getC. apply on_bind, on_lift;
    [intros e He; by apply UDP_parse_nothrow in He|apply UDP_parse_octet03|].
  intros [[packet packet_len]|] _.
  - apply on_bind, on_lift.
    { intros e He. destruct (Socks5.socks5_parse_total (to_view (c_udp_data_buf s1))) as [[_ E]|[_ [r E]]]; congruence. }
    { intros u Hu. destruct (Socks5.socks5_parse_total (to_view (c_udp_data_buf s1))) as [[_ E]|[_ [r E]]]; congruence. }
    intros [[address address_len]|] _; [|apply on_destroyed; [apply U1|by apply udp_ended]].
    apply on_bind, on_modC, on_bind, on_modC, on_bind, on_udp_async_write; [by destruct U1 as [[]]|].
    intros b Gb. apply on_modC.
    apply udp_CI; [|counts|counts]. eapply udp_view; [exact U1|done|by destruct Gb|counts..].
  - destruct (_ <? _); [apply on_destroyed; [apply U1|by apply udp_ended]|].
    apply on_cl_out_async_read; [apply U1|lia|]. intros s' Hv _ G'.
    apply udp_CI; [|counts|counts]. eapply udp_view; [exact U1|done|done|counts..].
Qed.

(** *** Operations with the server have ended *)

Lemma on_cl_out_recv h s l0 l t data :
  guards s l -> phase h s l0 t -> after l0 (COutRead h) l ->
  on h (cs_out_recv configs cancel_ec (S d) h data 0) (fun _ => CI h) s l (t ++ [FromServer h data]).
Proof.
  intros G Hp Ha. all_after Ha. unfold cs_out_recv, cs_out_recv_. apply on_bind, on_getC. unfold phase in Hp.
  destruct (c_status s) eqn:Hst.
  - destruct Hp as ([_ _ ((I1 & _) & _)] & _). lia.
  - destruct Hp as ([_ _ ((I1 & _) & _)] & _). lia.
  - destruct Hp as ((_ & _ & I1 & _) & _). lia.
  - destruct Hp as (P1 & P2 & P3 & P4 & P5 & P6 & P7). apply on_bind, on_modC, on_in_async_write; [by destruct G|].
    intros b Gb. split; [done|]. unfold phase. cbn [c_status update]. cbn. rewrite Hst.
    split_and!; [done|by apply relayed_answered|counts..].
  - destruct Hp as (P1 & P2 & P3 & P4 & P5 & P6). apply on_bind, on_modC.
    apply on_udp_sent; [|lia..]. split; [by destruct G|done|done|lia].
  - destruct Hp as [_ _ ((I1 & _) & _)]. lia.
  - apply on_skip. split; [done|]. unfold phase. rewrite Hst.
    apply ended_from_server; [by eapply destroyed_after|]. exact (io_not_connecting _ _ _ _ _ _ Hp Ha eq_refl).
Qed.

Lemma on_out_read_done h s l0 l t ec data :
  CI h s l0 t -> after l0 (COutRead h) l ->
  on h (cs_out_read_done configs cancel_ec (S d) h ec data) (fun _ => CI h) s l t.
Proof.
  intros [G Hp] Ha. destruct (out_read_ended _ _ _ _ G Ha) as (Hr & Hb & G1).
  unfold cs_out_read_done. apply on_bind, on_c_end_read. cbn [cbuf_of set_cbuf].
  set (s1 := s <| c_out_read_buf := end_read (c_out_read_buf s) |>) in *.
  assert (Hp1 : phase h s1 l t).
  { eapply (phase_view h s); [done|]. by eapply phase_after. }
  destruct (negb _); [apply on_destroyed; [done|by eapply CI_ended]|].
  apply on_bind, on_c_emit; [done|]. apply on_bind, on_c_commit. cbn [cbuf_of set_cbuf].
  assert (Hd : read_buf (rb_commit (c_out_read_buf s1) data) = data) by (cbn; by rewrite Hb).
  rewrite Hd. eapply on_cl_out_recv; [by destruct G1; split| |done]. by eapply (phase_view h s).
Qed.

Lemma on_out_written h s l0 l t b (ec : error_code) :
  CI h s l0 t -> after l0 (COutWrite h b) l ->
  on h (if negb (ec =? 0) then cs_destroy h false else cs_out_sent h) (fun _ => CI h) s l t.
Proof.
  intros HS Ha. pose proof (CI_ended _ _ _ _ HS) as He0. destruct HS as [G Hp].
  assert (G' : guards s l) by (by eapply guards_after).
  pose proof (destroyed_after _ _ _ _ _ _ He0 Ha) as He.
  pose proof (phase_after _ _ _ _ _ _ Hp Ha eq_refl eq_refl) as Hp'. all_after Ha.
  destruct (negb _); [by apply on_destroyed|]. unfold cs_out_sent. apply on_bind, on_getC.
  unfold phase in Hp. destruct (c_status s) eqn:Hst; try (apply on_skip; by split).
  - destruct Hp as (P1 & P2 & P3 & P4 & P5 & P6 & P7). apply on_in_async_read; [done|lia|].
    intros s' Hv G1. split; [done|]. eapply phase_view; [done|]. unfold phase. rewrite Hst.
    split_and!; [done|done|counts..].
  - destruct Hp as (P1 & P2 & P3 & P4 & P5 & P6). apply on_udp_async_read; [done|lia|]. intros s' Hv G1.
    apply udp_CI; [|counts|counts]. eapply (udp_view s _ l); [split; try done; lia|done|done|counts..].
Qed.

Lemma on_udp_written h s l0 l t b (ec : error_code) :
  CI h s l0 t -> after l0 (CUdpWrite h b) l ->
  on h (if negb (ec =? 0) then cs_destroy h false else cs_udp_sent configs cancel_ec (S d) h)
    (fun _ => CI h) s l t.
Proof.
  intros HS Ha. pose proof (CI_ended _ _ _ _ HS) as He0. destruct HS as [G Hp].
  assert (G' : guards s l) by (by eapply guards_after).
  pose proof (destroyed_after _ _ _ _ _ _ He0 Ha) as He.
  pose proof (phase_after _ _ _ _ _ _ Hp Ha eq_refl eq_refl) as Hp'. all_after Ha.
  destruct (negb _); [by apply on_destroyed|].
  destruct (decide (c_status s = C_UDP_FORWARD)) as [Hst|Hst].
  - unfold phase in Hp. rewrite Hst in Hp. destruct Hp as (P1 & P2 & P3 & P4 & P5 & P6).
    apply on_udp_sent; [split; try done; lia|lia..].
  - unfold cs_udp_sent, cs_udp_sent_. apply on_bind, on_getC. rewrite bool_decide_false by done.
    apply on_skip. by split.
Qed.

(** *** A datagram of the application *)

Lemma udp_packet_ok buf data address_len length :
  0 <= address_len -> address_len + 3 <= zlen data -> returns (cs_udp_packet buf data address_len length).
Proof.
  intros H1 H2. unfold cs_udp_packet. rewrite substr_ok by lia. cbn [obind].
  rewrite substr_from_ok by lia. cbn. by eexists.
Qed.

Lemma on_udp_recv h s l t data :
  CI h s l t -> (c_status s = C_UDP_FORWARD -> cnt is_ow l = 0 /\ cnt is_ur l = 0) ->
  c_status s = C_UDP_FORWARD \/ c_status s = C_DESTROY ->
  on h (cs_udp_recv configs cancel_ec h data) (fun _ => CI h) s l t.
Proof.
  intros HS Hops Hst. unfold cs_udp_recv.
  destruct (_ =? 0); [by apply on_skip|].
  assert (Hdes : on h (cs_destroy h false) (fun _ => CI h) s l t)
    by (apply on_destroyed; [apply HS|by apply CI_ended]).
  destruct (udp_header_bad data) eqn:Eh; [done|].
  assert (Hl : 3 <= zlen data).
  { unfold udp_header_bad in Eh. destruct data as [|a [|b [|c data]]]; try done. rewrite !zlen_cons.
    pose proof (zlen_nonneg data). lia. }
  apply on_bind. rewrite substr_from_ok by lia. apply on_lift; [done|done|]. intros rest [= <-].
  set (rest := drop _ data). apply on_bind, on_lift.
  { intros e He. destruct (Socks5.socks5_parse_total rest) as [[_ E]|[_ [r E]]]; congruence. }
  { intros u Hu. destruct (Socks5.socks5_parse_total rest) as [[_ E]|[_ [r E]]]; congruence. }
  intros parsed Hp. apply Socks5.socks5_parse_inv in Hp. destruct parsed as [[address address_len]|]; [|done].
  destruct Hp as (aw & rest' & Er & _ & ->).
  assert (Hal : 0 <= zlen aw /\ zlen aw + 3 <= zlen data).
  { assert (E : zlen rest = zlen data - 3) by (unfold rest; rewrite zlen_drop; lia).
    rewrite Er, zlen_app in E. pose proof (zlen_nonneg aw). pose proof (zlen_nonneg rest'). lia. }
  apply on_bind, on_c_timer. intros s1 l1 Hs1 _ Hl1. assert (HT : same_trace t t) by done.
  pose proof (CI_same _ _ _ _ _ _ _ Hs1 Hl1 HT HS) as HS1. destruct HS1 as [G1 P1].
  destruct Hs1 as (_ & E1 & _), Hl1 as (O1 & O2 & O3 & O4 & O5 & O6 & O7).
  apply on_bind, on_modC, on_bind, on_getC.
  change (c_status (s1 <| c_stat ::= _ |>)) with (c_status s1). rewrite E1. destruct Hst as [Hst|Hst]; rewrite Hst.
  - destruct (Hops Hst) as [N1 N2]. unfold phase in P1. rewrite E1, Hst in P1. destruct P1 as (P1 & P2 & P3 & P4 & P5 & P6).
    apply on_bind.
    edestruct (udp_packet_ok (consume_all (c_udp_recv_buf s1)) data (zlen aw)) as [buf Eb]; [lia|lia|].
    cbn [c_udp_recv_buf update]. cbn. rewrite Eb. apply on_lift; [done|done|]. intros ? [= <-].
    apply on_bind, on_modC, on_out_async_write; [by destruct G1|]. intros b Gb.
    apply udp_CI; [|counts|counts].
    split; [by destruct Gb|cbn; congruence|done|counts].
  - apply on_skip. split; [by destruct G1|]. by eapply (phase_view h s1).
Qed.

Lemma on_udp_read_done h s l0 l t ec data from :
  CI h s l0 t -> after l0 (CUdpRead h) l ->
  on h (cs_udp_read_done configs cancel_ec h ec data from) (fun _ => CI h) s l t.
Proof.
  intros [G Hp] Ha. destruct (udp_read_ended _ _ _ _ G Ha) as (Hr & Hb & G1).
  unfold cs_udp_read_done. apply on_bind, on_c_end_read. cbn [cbuf_of set_cbuf].
  set (s1 := s <| c_udp_read_buf := end_read (c_udp_read_buf s) |>) in *. apply on_bind, on_modC.
  set (s2 := s1 <| c_udp_recv_endpoint := from |>).
  assert (G2 : guards s2 l) by (by destruct G1).
  assert (Hp2 : phase h s2 l t) by (eapply (phase_view h s); [done|]; by eapply phase_after).
  destruct (_ =? _); [by apply on_skip|].
  destruct (negb _); [apply on_destroyed; [done|by eapply CI_ended]|].
  apply on_bind, on_c_commit. cbn [cbuf_of set_cbuf].
  set (s3 := s2 <| c_udp_read_buf := rb_commit (c_udp_read_buf s2) data |>).
  all_after Ha. apply on_udp_recv.
  - split; [by destruct G2; split|]. by eapply (phase_view h s2).
  - intros Hst. change (c_status s3) with (c_status s) in Hst. unfold phase in Hp. rewrite Hst in Hp.
    destruct Hp as (_ & _ & _ & _ & ? & _). lia.
  - change (c_status s3) with (c_status s). unfold phase in Hp. destruct (c_status s); [| | | |by left| |by right].
    + destruct Hp as ([_ _ ((_ & _ & I1 & _) & _)] & _). lia.
    + destruct Hp as ([_ _ ((_ & _ & I1 & _) & _)] & _). lia.
    + destruct Hp as ((_ & _ & _ & _ & I1 & _) & _). lia.
    + destruct Hp as (_ & _ & _ & I1 & _). lia.
    + destruct Hp as [_ _ ((_ & _ & I1 & _) & _)]. lia.
Qed.

(** *** The connection is made *)

Lemma connect_cases h s l0 o l t :
  CI h s l0 t -> after l0 o l -> is_cn o = true ->
  guards s l /\ connecting h s l t /\ cnt is_cn l = 0 /\ (c_status s = C_CONNECT \/ c_status s = C_DESTROY).
Proof.
  intros [G Hp] Ha Ho.
  assert (Hk : is_ir o = false /\ is_iw o = false /\ is_or o = false /\ is_ow o = false /\
    is_ur o = false /\ is_uw o = false) by (by destruct o).
  destruct Hk as (K1 & K2 & K3 & K4 & K5 & K6).
  assert (G' : guards s l) by (by eapply guards_after).
  pose proof (Ha is_cn) as Hc. rewrite Ho in Hc. pose proof (g_cn _ _ G). pose proof (cnt_nonneg is_cn l).
  assert (Hst : (c_status s = C_CONNECT \/ c_status s = C_DESTROY) /\ connecting h s l0 t).
  { unfold phase in Hp. destruct (c_status s).
    - destruct Hp as ([_ _ (_ & I1 & _)] & _). lia.
    - destruct Hp as ([_ _ (_ & I1 & _)] & _). lia.
    - split; [by left|]. apply Hp. lia.
    - destruct Hp as (_ & _ & I1 & _). lia.
    - destruct Hp as (_ & I1 & _). lia.
    - destruct Hp as [_ _ (_ & I1 & _)]. lia.
    - split; [by right|]. apply Hp. lia. }
  destruct Hst as [Hst [C1 C2 C3]]. split; [done|]. split; [|split; [lia|done]]. split; [|done|done].
  pose proof (Ha is_ir) as A1. pose proof (Ha is_iw) as A2. pose proof (Ha is_or) as A3. pose proof (Ha is_ow) as A4.
  pose proof (Ha is_ur) as A5. pose proof (Ha is_uw) as A6. rewrite K1 in A1. rewrite K2 in A2. rewrite K3 in A3.
  rewrite K4 in A4. rewrite K5 in A5. rewrite K6 in A6. unfold no_io, no_out in *. lia.
Qed.

Lemma connecting_ended h s l t : connecting h s l t -> ended h s l t.
Proof. intros Hc. split; [|by intros _]. intros _. left. apply Hc. Qed.

(** The tunnel is ready: the request is sent and the session relays. *)
Lemma on_remote_ready h s l t :
  guards s l -> connecting h s l t -> cnt is_cn l = 0 ->
  on h (cs_remote_ready configs cancel_ec (S d) h) (fun _ => CI h) s l t.
Proof.
  intros G [C1 [C2 C2'] (replies & C3 & C4)] Hc. destruct C1 as (I1 & I2 & I3 & I4 & I5 & I6).
  unfold cs_remote_ready. apply on_bind, on_getC.
  assert (Hrun : forall st t1, same_trace t t1 ->
    (if cudp s then st = C_UDP_FORWARD else st = C_FORWARD) ->
    on h (cs_out_async_read configs cancel_ec (S d) h ;;; s <- getC h ;;
          cs_out_async_write configs h (to_view (c_out_write_buf s))) (fun _ => CI h)
      (s <| c_status := st |>) l t1).
  { intros st t1 (T1 & T2 & T3 & T4) Hst.
    apply on_bind, on_cl_out_async_read; [by destruct G|done|]. intros s' (V1 & V2 & V3 & V4) _ G1. apply on_bind, on_getC.
    apply on_out_async_write; [done|]. intros b Gb. cbn in V1, V2, V4. change (cudp s' = cudp s) in V3.
    split; [done|]. unfold phase. rewrite V2, V3, V1, V4. destruct (cudp s); subst st.
    - split_and!; [done|counts..].
    - split_and!; [done| |counts..]. exists (c_out_write_buf s), [], replies.
      autorewrite with ctrace. cbn. rewrite ?app_nil_r, T1, T2, T3, T4, C2, C2'. cbn. rewrite ?app_nil_r.
      split; [done|]. split; [done|]. by apply C4. }
  unfold cudp in Hrun. destruct (UdpTimer.is_udp_forward (c_timer s)).
  - apply on_bind, on_bind. destruct (negb _); cbn [when].
    + apply on_c_emit; [done|]. apply on_modC, Hrun; [same_all|done].
    + apply on_skip, on_modC, Hrun; [same_all|done].
  - apply on_bind, on_bind. destruct (negb _); cbn [when].
    + apply on_c_emit; [done|]. apply on_modC, Hrun; [same_all|done].
    + apply on_skip, on_modC, Hrun; [same_all|done].
Qed.

Lemma on_resolve_done h s l0 o l t ec results :
  CI h s l0 t -> after l0 o l -> is_cn o = true ->
  on h (cs_resolve_done configs system_ec h ec results) (fun _ => CI h) s l t.
Proof.
  intros HS Ha Ho. destruct (connect_cases _ _ _ _ _ _ HS Ha Ho) as (G & Hcn & Hc & Hst).
  assert (Hdes : on h (cs_destroy h false) (fun _ => CI h) s l t)
    by (apply on_destroyed; [done|by apply connecting_ended]).
  unfold cs_resolve_done. destruct results as [|ep results]; [done|]. destruct (negb _); [done|].
  apply on_bind, on_c_ask. intros n. destruct (negb _); [done|]. apply on_bind, on_modC, on_bind.
  destruct (0 <? _); cbn [when].
  - apply on_c_start; [done|done|]. apply on_c_start; [done|done|]. apply requesting_CI; try done.
    + destruct G. split; rewrite ?cnt_snoc; cbn; rewrite ?Z.add_0_r; done.
    + destruct Hcn as [C1 C2 C3]. split; [|done|done]. unfold no_io, no_out in *. rewrite !cnt_snoc. cbn. lia.
    + counts.
  - apply on_skip, on_c_start; [done|done|]. apply requesting_CI; try done; [by destruct G|by destruct Hcn].
Qed.
Lemma on_connect_done h s l0 o l t ec :
  CI h s l0 t -> after l0 o l -> is_cn o = true ->
  on h (cs_connect_done h ec) (fun _ => CI h) s l t.
Proof.
  intros HS Ha Ho. destruct (connect_cases _ _ _ _ _ _ HS Ha Ho) as (G & Hcn & Hc & Hst).
  unfold cs_connect_done. destruct (negb _); [apply on_destroyed; [done|by apply connecting_ended]|].
  apply on_c_start; [done|done|]. by apply requesting_CI.
Qed.
Lemma on_ssl_done h s l0 o l t ec :
  CI h s l0 t -> after l0 o l -> is_cn o = true ->
  on h (cs_ssl_done configs cancel_ec (S d) h ec) (fun _ => CI h) s l t.
Proof.
  intros HS Ha Ho. destruct (connect_cases _ _ _ _ _ _ HS Ha Ho) as (G & Hcn & Hc & Hst).
  unfold cs_ssl_done. destruct (negb _); [apply on_destroyed; [done|by apply connecting_ended]|].
  by apply on_remote_ready.
Qed.

(** *** A session starts *)

(** A new session *)
Record fresh_session (s : ClientSession) : Prop := {
  fs_guards : guards s [];
  fs_udp : cudp s = false;
  fs_status : c_status s = (match c_kind s with KClient => C_HANDSHAKE | _ => C_CONNECT end)
}.
Lemma new_client_fresh kind id : fresh_session (new_session_of kind (configs 0%nat) id).
Proof. by destruct kind. Qed.
Lemma fresh_CI h s : fresh_session s -> CI h s [] [].
Proof.
  intros [G Hu Hst]. split; [done|]. unfold phase. rewrite Hst. destruct (c_kind s) eqn:Ek; [|by split_and!..].
  split_and!; try done.
Qed.

Lemma on_start h s :
  fresh_session s ->
  on h (v_start configs socket_target remote_ec cancel_ec (S d) h) (fun _ => CI h) s [] [].
Proof.
  intros Hf. pose proof (fresh_CI h _ Hf) as HS. destruct Hf as [G Hu Hst].
  assert (Hdes : on h (cs_destroy h false) (fun _ => CI h) s [] [])
    by (apply on_destroyed; [done|by apply CI_ended]).
  assert (Hprep : forall (k : CM unit), on h k (fun _ => CI h) s [] [] ->
    on h (ok <- cs_prepare_session remote_ec h ;; if negb ok then skip else k) (fun _ => CI h) s [] []).
  { intros k Hk. unfold cs_prepare_session. apply on_bind, on_bind, on_c_ask. intros n. destruct (negb _).
    - apply on_bind. eapply on_mono; [exact Hdes|]. intros ? s' l' t' HS'. apply on_ret. by apply on_skip.
    - by apply on_ret. }
  unfold v_start. apply on_bind, on_getC. destruct (c_kind s) eqn:Ek.
  - unfold cs_start, cs_prepare_session. apply on_bind, on_bind, on_c_ask. intros n. destruct (negb _).
    + apply on_bind. eapply on_mono; [exact Hdes|]. intros ? s' l' t' HS'. apply on_ret. by apply on_skip.
    + apply on_ret. cbn [when]. apply on_in_async_read; [done|done|]. intros s' Hv G1. split; [done|].
      eapply phase_view; [done|]. unfold phase. rewrite Hst. cbn. split_and!; try done.
  - apply Hprep. apply on_bind, on_getC. unfold get_target_endpoint. rewrite Ek.
    pose proof (opened_nat h []) as Ho.
    destruct (socket_target h) as [a p]. destruct (p =? 0); [done|].
    unfold ccfg. destruct password_first as (x & rest & ->). apply on_bind, on_modC, on_bind, on_modC.
    apply on_request_remote; [by destruct G| |done|done]. split; [done|done|]. cbn. rewrite Ek. exists [].
    rewrite append_string_eq, consume_all_nil. done.
  - apply Hprep. apply on_bind, on_getC. unfold get_target_endpoint. rewrite Ek.
    pose proof (opened_forward h []) as Ho. unfold ccfg. destruct (_ =? 0); [done|].
    destruct password_first as (x & rest & ->). apply on_bind, on_modC, on_bind, on_modC.
    apply on_request_remote; [by destruct G| |done|done]. split; [done|done|]. cbn. rewrite Ek. exists [].
    rewrite append_string_eq, consume_all_nil. done.
Qed.
End Session.
