(* ===== verification/ClientRuns.v ===== *)
(** * A client without pipeline: what follows for every run

    The invariant of one session ([ClientProofs]) for all sessions of a service
    without pipelines, over every sequence of completions; and that the server
    understands what a session sends first. *)

From Stdlib Require Import ZArith Lia.
From S2P Require Import Prelude Utils Address Trojan UdpPacket PipelineProto Caches ReadCache PipelineComponent Session.
From S2P Require Import ServerProofs ServerTheorems ClientWorld ClientSide ClientTheorems SessionLogic ClientProofs.
Import Streambuf ReadBuf Stat Allocator PipelineComponent Codec.
Local Open Scope Z_scope.
Local Open Scope handler_scope.

(** The parts of the world by their names *)
Ltac csw := cbn [sw_objs sw_pending sw_trace sw_alloc sw_rest op_this op_buf eff_this
  cworld_sessions cop_operation ceffect_effect] in *.

Section World.
Context (configs : nat -> Config) (balance_num : nat) (config_hash : nat -> Z) (icmp : bool).
Context (make_address : bytes -> option address) (udp_local : nat -> endpoint).
Context (accept_kind : CKind) (socket_target : nat -> bytes * Z).
Context (system_ec remote_ec cancel_ec : nat -> error_code) (d : nat) (pw : bytes).
Hypothesis password_first : exists x rest, Session.password (configs 0%nat) = (pw, x) :: rest.
Hypothesis cancel_ok : forall n, cancel_ec n = 0.
Hypothesis no_pipeline : pipeline_num (configs 0%nat) <= 0.

Notation CI := (CI configs socket_target pw).

(** The invariant, and the invariant for all sessions but [x]. *)
Record CWx (x : option nat) (w : cworld) : Prop := {
  cw_lent : lent w;
  cw_sess : forall h s, Some h <> x -> c_objs w !! h = Some s -> CI h s (ops h w) (tr h w);
  cw_next : forall h, (c_next w <= h)%nat -> c_objs w !! h = None /\ tr h w = [];
  cw_gone : forall h, c_objs w !! h = None -> ops h w = [];
  cw_pipes : pipes w = ∅ /\ filter (fun o => op_this o = None) (c_pending w) = [];
  cw_ids : ids_wf (c_ids w)
}.
Notation CW := (CWx None).

(** A handler of session [h] keeps the invariant of the others. *)
Lemma run_client {A} h (m : CM A) w s :
  CWx (Some h) w -> c_objs w !! h = Some s -> on h m (fun _ => CI h) s (ops h w) (tr h w) ->
  ok m w (fun _ => CW).
Proof.
  intros HW Hs Hon. specialize (Hon w Hs eq_refl eq_refl (cw_lent _ _ HW)). unfold ok.
  destruct (m w) as [[a w']|e|u]; [|by left|done].
  destruct Hon as (F & L & s' & Hs' & Hq). destruct HW as [W1 W2 W3 W4 [W5 W6] W7].
  destruct F as [F1 F2 F3 F4 [= F5 F6 F7 F8] F9 F10]. csw. split.
  - done.
  - intros k sk _ Hk. destruct (decide (k = h)) as [->|Hn].
    + rewrite Hs' in Hk. by injection Hk as <-.
    + rewrite F1 in Hk by done. rewrite F2, F4 by done. apply W2; [congruence|done].
  - intros k Hk. rewrite F5 in Hk. destruct (W3 k Hk) as (K1 & K2).
    assert (k <> h) by congruence. by rewrite F1, F4.
  - intros k Hk. destruct (decide (k = h)) as [->|]; [congruence|]. rewrite F2 by done.
    apply W4. by rewrite <- F1.
  - split; [by rewrite F6|]. etrans; [exact F3|exact W6].
  - by rewrite F8.
Qed.

(** *** The end of an operation *)

Definition done_with (w : cworld) (i : nat) : cworld := w <| c_pending ::= delete i |>.
Lemma done_with_ended w i : ended_op w i (done_with w i).
Proof. by split. Qed.
Lemma ops_done_with w i o h :
  c_pending w !! i = Some o -> cop_this o = Some h -> after (ops h w) o (ops h (done_with w i)).
Proof. intros Hi Ho. eapply ops_after; [apply done_with_ended|done|done]. Qed.

Lemma c_op_session w i o : CW w -> c_pending w !! i = Some o ->
  exists h s, cop_this o = Some h /\ c_objs w !! h = Some s.
Proof.
  intros HW Hi. apply list_elem_of_lookup_2 in Hi. destruct (cop_this o) as [h|] eqn:Ho.
  - exists h. destruct (c_objs w !! h) as [s|] eqn:E; [eauto|]. apply (cw_gone _ _ HW) in E.
    assert (Hin : o ∈ ops h w) by (by apply list_elem_of_filter). rewrite E in Hin. set_solver.
  - destruct (cw_pipes _ _ HW) as [_ E].
    assert (Hin : o ∈ filter (fun o => op_this o = None) (c_pending w)) by (by apply list_elem_of_filter).
    rewrite E in Hin. set_solver.
Qed.
Lemma done_with_CW w i o : CW w -> c_pending w !! i = Some o -> CWx (cop_this o) (done_with w i).
Proof.
  intros [W1 W2 W3 W4 [W5 W6] W7] Hi. pose proof (done_with_ended w i) as He. split.
  - by eapply ended_op_lent.
  - intros h s Hh Hs. rewrite (ops_other _ _ _ _ _ He Hi) by done. by apply W2.
  - done.
  - intros h Hh. eapply ended_op_nil; [done..|]. by apply W4.
  - split; [done|]. destruct (deleted_split (SW := cworld_sessions) w i o Hi) as (a & b & D1 & D2). csw. cbn.
    rewrite D2. rewrite D1, list.filter_app, filter_cons in W6. rewrite list.filter_app.
    destruct (decide _); [by apply app_eq_nil in W6 as [_ ?]|done].
  - done.
Qed.

Lemma ok_client h o i w (m : CM unit) :
  CW w -> c_pending w !! i = Some o -> cop_this o = Some h ->
  (forall s l, CI h s (ops h w) (tr h w) -> after (ops h w) o l -> on h m (fun _ => CI h) s l (tr h w)) ->
  ok m (done_with w i) (fun _ => CW).
Proof.
  intros HW Hi Ho Hm. destruct (c_op_session _ _ _ HW Hi) as (h' & s & Ho' & Hs).
  rewrite Ho in Ho'. injection Ho' as <-. pose proof (done_with_CW _ _ _ HW Hi) as HW1. rewrite Ho in HW1.
  eapply (run_client h _ _ s); [done|done|]. apply Hm; [|by apply ops_done_with].
  by apply (cw_sess _ _ HW).
Qed.

(** A lent buffer can be given back. *)
Lemma ok_c_free x b w :
  CWx x w -> b ∈ allocated (c_alloc w) ->
  ok (c_free_buf b) w (fun _ w' => CWx x w' /\ c_objs w' = c_objs w /\ c_pending w' = c_pending w /\
    c_trace w' = c_trace w).
Proof.
  intros [[L1 L2] W2 W3 W4 W5 W6] Hb. unfold ok, c_free_buf, free. rewrite bool_decide_true by done.
  split; [|done]. split; try done. split; cbn; [exact L1|]. intros b' [Hin|Hin]%elem_of_app; [auto|].
  by apply list_elem_of_singleton in Hin as ->.
Qed.
(** A handler that first gives back the buffer of its write *)
Lemma ok_client_freed h o b i w (m : CM unit) :
  CW w -> c_pending w !! i = Some o -> cop_this o = Some h -> cop_buf o = Some b ->
  (forall s l, CI h s (ops h w) (tr h w) -> after (ops h w) o l -> on h m (fun _ => CI h) s l (tr h w)) ->
  ok (c_free_buf b ;;; m) (done_with w i) (fun _ => CW).
Proof.
  intros HW Hi Ho Hb Hm. destruct (c_op_session _ _ _ HW Hi) as (h' & s & Ho' & Hs).
  rewrite Ho in Ho'. injection Ho' as <-. pose proof (done_with_CW _ _ _ HW Hi) as HW1. rewrite Ho in HW1.
  apply ok_bind. eapply ok_mono; [apply (ok_c_free (Some h)); [done|]|].
  { destruct (cw_lent _ _ HW) as [L1 _]. eapply L1; [by eapply list_elem_of_lookup_2|done]. }
  intros a w1 (HW2 & O1 & O2 & O3).
  assert (E1 : ops h w1 = ops h (done_with w i)) by (unfold ops; csw; by rewrite O2).
  assert (E2 : tr h w1 = tr h w) by (unfold tr; csw; by rewrite O3).
  eapply (run_client h _ w1 s); [done|by rewrite O1|]. rewrite E1, E2.
  apply Hm; [by apply (cw_sess _ _ HW)|by apply ops_done_with].
Qed.

(** *** Completions and the other events *)

Notation complete := (c_complete configs make_address udp_local socket_target system_ec remote_ec cancel_ec (S d)).

(** A lemma of [ClientProofs], at the parameters of this section *)
Ltac handler L :=
  first
    [ eapply L
    | eapply (L configs make_address udp_local socket_target system_ec remote_ec cancel_ec d pw)
    | eapply (L configs make_address udp_local socket_target system_ec remote_ec d pw) ]; eassumption.

Lemma ok_c_complete o c i w :
  CW w -> c_pending w !! i = Some o -> c_answers o c = true ->
  ok (complete o c) (done_with w i) (fun _ => CW).
Proof.
  intros HW Hi Ha. destruct (c_op_session _ _ _ HW Hi) as (h & _ & Ho & _).
  destruct o; try discriminate; destruct c as [ec|ec data from|ec results]; try discriminate;
    injection Ho as ->; cbn [c_complete].
  - eapply ok_client; [done..|]. intros s l HS Hl. handler on_in_read_done.
  - eapply ok_client_freed; [done..|]. intros s l HS Hl. handler on_in_written.
  - eapply ok_client; [done..|]. intros s l HS Hl. handler on_out_read_done.
  - eapply ok_client_freed; [done..|]. intros s l HS Hl. handler on_out_written.
  - eapply ok_client; [done..|]. intros s l HS Hl. handler on_udp_read_done.
  - eapply ok_client_freed; [done..|]. intros s l HS Hl. handler on_udp_written.
  - eapply ok_client; [done..|]. intros s l HS Hl. by eapply on_resolve_done.
  - eapply ok_client; [done..|]. intros s l HS Hl. by eapply on_connect_done.
  - eapply ok_client; [done..|]. intros s l HS Hl. assert (HS' : CI h s l (tr h w)) by (by eapply CI_after).
    destruct (ec =? 0); [|by apply on_skip]. apply on_destroyed; [apply HS'|by apply CI_ended].
  - eapply ok_client; [done..|]. intros s l HS Hl. by eapply on_ssl_done.
  - eapply ok_client; [done..|]. intros s l HS Hl. assert (HS' : CI h s l (tr h w)) by (by eapply CI_after).
    handler on_c_fired.
Qed.

Lemma ok_accept w :
  CW w ->
  ok (sv_accepted configs balance_num config_hash icmp accept_kind socket_target remote_ec cancel_ec (S d)) w
    (fun _ => CW).
Proof.
  intros HW. unfold sv_accepted. apply ok_bind, ok_gets. cbn zeta. unfold id. set (h := c_next w).
  apply ok_bind. unfold ok at 1, lift at 1.
  destruct (Z_lt_le_dec (Z.of_nat (size (s_session_used_ids (c_ids w)))) 65535) as [Hi|Hi].
  2:{ rewrite allocate_session_id_full by done. by right. }
  destruct (allocate_session_id_ok _ (cw_ids _ _ HW) Hi) as (id' & ids' & -> & _ & _ & _ & Hids).
  cbn [fst snd]. destruct (cw_next _ _ HW h (le_n _)) as (N1 & N2). pose proof (cw_gone _ _ HW h N1) as N4.
  apply ok_bind, ok_modify. match goal with |- ok _ ?w' _ => set (w1 := w') end.
  set (s := new_session_of accept_kind (configs 0%nat) id').
  assert (Hs1 : c_objs w1 !! h = Some s) by apply lookup_insert_eq.
  assert (HW1 : CWx (Some h) w1).
  { destruct HW as [W1 W2 W3 W4 W5 W6]. split; try done.
    - intros k sk Hk. cbn. rewrite lookup_insert_ne by congruence. by apply W2.
    - intros k Hk. cbn in Hk. assert (c_next w <= k)%nat by lia. assert (h <> k) by (subst h; lia).
      cbn. rewrite lookup_insert_ne by done. by apply W3.
    - intros k. cbn. intros [? _]%lookup_insert_None. by apply W4. }
  pose proof (new_client_fresh configs accept_kind id') as Hf.
  eapply (run_client h _ w1 s); [done|done|].
  change (ops h w1) with (ops h w). change (tr h w1) with (tr h w). rewrite N2, N4.
  apply on_bind, on_c_ask. intros n. unfold when. destruct (_ =? 0); [|apply on_skip; by apply fresh_CI].
  unfold sv_start_session, ccfg. destruct (Z.ltb_spec 0 (pipeline_num (configs 0%nat))); [lia|].
  cbn [c_call_sent]. handler on_start.
Qed.

Notation step := (c_step configs balance_num config_hash icmp make_address udp_local accept_kind socket_target
  system_ec remote_ec cancel_ec (S d)).

(** A session nothing points to has no operation. *)
Lemma unreferenced_ops w h : c_referenced w h = false -> ops h w = [].
Proof.
  intros [H _]%orb_false_iff. unfold ops. csw. induction (c_pending w) as [|o l IH]; [done|].
  cbn in H. apply orb_false_iff in H as [H1 H2]. apply bool_decide_eq_false in H1.
  rewrite filter_cons, decide_False by done. by apply IH.
Qed.

Lemma ok_c_freed h w : CW w -> ok (cs_freed h) w (fun _ => CW).
Proof.
  intros HW. apply ok_bind, ok_gets. unfold id. destruct (c_objs w !! h) as [s|] eqn:Hs; [|by apply ok_ret].
  destruct (c_referenced w h) eqn:Er; [by apply ok_ret|]. apply ok_modify. apply unreferenced_ops in Er.
  destruct HW as [W1 W2 W3 W4 W5 W6]. split; try done.
  - intros k sk Hk. cbn. intros [? Hsk]%lookup_delete_Some. by apply W2.
  - intros k Hk. destruct (W3 k Hk) as [K1 K2]. split; [|done]. cbn. by apply lookup_delete_None; right.
  - intros k Hk. cbn in Hk. apply lookup_delete_None in Hk as [<-|Hk]; [done|by apply W4].
  - destruct W6 as [I1 I2]. split; [done|]. cbn. intros j Hj. apply I2. set_solver.
Qed.

Lemma ok_c_step e w : CW w -> ok (step e) w (fun _ => CW).
Proof.
  intros HW. destruct e as [i c|t| |h|p]; cbn [c_step].
  - apply ok_bind, ok_gets. unfold id. destruct (c_pending w !! i) as [o|] eqn:Hi; [|by apply ok_ret].
    destruct (c_answers o c) eqn:Ha; [|by apply ok_ret]. apply ok_bind, ok_modify. by apply ok_c_complete.
  - apply ok_modify. by destruct HW.
  - by apply ok_accept.
  - by apply ok_c_freed.
  - apply ok_bind, ok_gets. unfold id. unfold when. destruct (negb _); [|by apply ok_ret]. apply ok_modify.
    destruct HW as [W1 W2 W3 W4 [W5 W6] W7]. split; try done. split; [|done]. cbn. rewrite W5. apply delete_empty.
Qed.

(** ** Runs *)

Inductive c_reachable : cworld -> Prop :=
| c_reach_init : c_reachable c_init
| c_reach_step w e w' : c_reachable w -> step e w = Ret (tt, w') -> c_reachable w'.

Lemma c_reachable_CW w : c_reachable w -> CW w.
Proof.
  induction 1 as [|w e w' _ IH Hw].
  - split; try done. split; [intros o b Hin|intros b Hin]; cbn in Hin; set_solver.
  - pose proof (ok_c_step e w IH) as H1. unfold ok in H1. by rewrite Hw in H1.
Qed.


Notation relayed := (relayed configs socket_target pw).
Notation relayed_upto := (relayed_upto configs socket_target pw).
Notation opened := (opened configs socket_target pw).

(** C4: in every run of a client without pipelines, what a forwarding session has
    written to the server is its request followed by all that the application
    sent, and what it has written to the application is its answers followed by
    all that came from the server, in order, nothing lost or doubled; each
    direction has one operation in progress at most.  A session that was
    destroyed has written a prefix of that, and before the tunnel is ready
    nothing goes to the server. *)
Theorem client_relays_in_order w h s :
  c_reachable w -> c_objs w !! h = Some s ->
  (c_status s = C_FORWARD ->
     relayed h (c_kind s) (tr h w) /\
     cnt is_ir (ops h w) + cnt is_ow (ops h w) <= 1 /\ cnt is_or (ops h w) + cnt is_iw (ops h w) <= 1) /\
  (c_status s = C_DESTROY -> UdpTimer.is_udp_forward (c_timer s) = false ->
     to_server (tr h w) = [] \/ relayed_upto h (c_kind s) (tr h w)) /\
  (c_status s ∈ [C_HANDSHAKE; C_REQUEST; C_CONNECT; C_INVALID] -> to_server (tr h w) = []).
Proof.
  intros HR Hs. destruct (cw_sess _ _ (c_reachable_CW w HR) h s) as [_ Hp]; [done..|]. unfold phase in Hp.
  split; [|split].
  - intros E. rewrite E in Hp. by destruct Hp as (_ & ? & _ & _ & _ & ? & ?).
  - intros E Hu. rewrite E in Hp. by apply (en_relayed _ _ _ _ _ _ _ Hp).
  - intros E. destruct (c_status s); try set_solver.
    + by destruct Hp as ([_ [? _] _] & _).
    + by destruct Hp as ([_ [? _] _] & _).
    + by destruct Hp as (_ & [? _] & _).
    + by destruct Hp as [_ [? _] _].
Qed.

(** What the application of a session asks for: the target and what is meant for
    it, by the class of the session. *)
Inductive asked (h : nat) : CKind -> list bytes -> Socks5.SOCKS5Address -> list bytes -> Prop :=
| asked_socks5 greet a aw payload :
    Socks5.wire a aw ->
    asked h KClient (greet :: socks5_request TrojanRequest.CONNECT aw :: payload) a payload
| asked_nat payload :
    1 <= zlen (fst (socket_target h)) <= 255 -> 0 <= snd (socket_target h) < 65536 ->
    asked h KNat payload
      (Socks5.mkSocks5 Socks5.DOMAINNAME (fst (socket_target h)) (snd (socket_target h))) payload
| asked_forward payload :
    1 <= zlen (target_addr (configs 0%nat)) <= 255 -> 0 <= target_port (configs 0%nat) < 65536 ->
    asked h KForward payload
      (Socks5.mkSocks5 Socks5.DOMAINNAME (target_addr (configs 0%nat)) (target_port (configs 0%nat))) payload.

Lemma opened_asked h k chunks text payload replies a payload' :
  opened h k chunks text payload replies -> asked h k chunks a payload' -> find_ CRLF pw = None ->
  payload' = payload /\
  TrojanRequest.wire (TrojanRequest.mkTrojanRequest pw TrojanRequest.CONNECT a (concat payload))
    (text ++ concat payload).
Proof.
  intros Ho Ha Hp. destruct Ha as [greet a aw payload' Ha|payload' Hn Hq|payload' Hn Hq]; inversion Ho; subst.
  - split; [done|]. rewrite build_request_eq in *. match goal with H : Ret _ = Ret _ |- _ => injection H as <- end.
    by apply request_text_wire.
  - split; [done|]. by apply (TrojanRequest.request_generate_wire pw _ _ true).
  - split; [done|]. by apply (TrojanRequest.request_generate_wire pw _ _ true).
Qed.

Lemma tunnel_carries scfg auth w h s a payload v :
  c_reachable w -> c_objs w !! h = Some s -> c_status s = C_FORWARD ->
  asked h (c_kind s) (from_app (tr h w)) a payload ->
  find_ CRLF pw = None -> map_find pw (Session.password scfg) = Some v ->
  zlen (to_server (tr h w)) < 2147483648 ->
  accepted scfg auth (to_server (tr h w)) =
    Some (TrojanRequest.mkTrojanRequest pw TrojanRequest.CONNECT a (concat payload)) /\
  exists replies, to_app (tr h w) = replies ++ from_server (tr h w) /\
    replies = match c_kind s with
              | KClient => [socks5_handshake_reply_succ; socks5_request_reply_succ_tcp]
              | _ => []
              end.
Proof.
  intros HR Hs Hst Ha Hp Hv Hl. destruct (cw_sess _ _ (c_reachable_CW w HR) h s) as [_ Hph]; [done..|].
  unfold phase in Hph. rewrite Hst in Hph. destruct Hph as (_ & (text & pl & replies & Ho & E1 & E2) & _).
  destruct (opened_asked _ _ _ _ _ _ _ _ Ho Ha Hp) as [-> Hw]. rewrite <- E1 in Hw. split.
  - unfold accepted. rewrite (TrojanRequest.request_parse_wire _ _ Hw).
    pose proof (zlen_nonneg (to_server (tr h w))). rewrite PipelineRequest.i32_small by lia.
    destruct (Z.eqb_spec (zlen (to_server (tr h w))) (-1)); [lia|]. cbn [TrojanRequest.password]. by rewrite Hv.
  - exists replies. split; [done|]. by destruct Ho.
Qed.


(** An empty datagram of the application ends the reading of its UDP
    association for good: the session stays as it is, with no read of its UDP
    socket and no write to the server in progress, whose ends alone start such a
    read. *)
Theorem empty_datagram_stops_reading w h s i from :
  c_reachable w -> c_objs w !! h = Some s -> c_status s = C_UDP_FORWARD -> c_pending w !! i = Some (CUdpRead h) ->
  exists w' s', step (CComplete i (CReceived 0 [] from)) w = Ret (tt, w') /\
    c_objs w' !! h = Some s' /\ c_status s' = C_UDP_FORWARD /\
    cnt is_ur (ops h w') = 0 /\ cnt is_ow (ops h w') = 0.
Proof.
  intros HR Hs Hst Hi. destruct (cw_sess _ _ (c_reachable_CW w HR) h s) as [[_ _ G _ _] Hp]; [done..|].
  unfold phase in Hp. rewrite Hst in Hp. destruct Hp as (_ & _ & _ & _ & Hn & _).
  pose proof (ops_done_with w i _ h Hi eq_refl) as Ha.
  pose proof (Ha is_ur) as A1. pose proof (Ha is_ow) as A2. cbn [is_ur is_ow] in A1, A2.
  pose proof (cnt_nonneg is_ur (ops h (done_with w i))). pose proof (cnt_nonneg is_ow (ops h (done_with w i))).
  assert (Hb : read_buf (c_udp_read_buf s) = []).
  { destruct G as [G1 G2]. apply G2. destruct (read_buf_guard _); [done|]. lia. }
  cbn [c_step]. unfold bind at 1, gets, id. rewrite Hi. cbn [c_answers].
  unfold bind at 1, modify at 1. fold (done_with w i). cbn [c_complete].
  unfold cs_udp_read_done, c_end_read, c_commit, bind, modC, getC, modify, ret.
  change (c_objs (done_with w i)) with (c_objs w). rewrite Hs. cbn. rewrite !lookup_alter_eq, Hs. cbn.
  rewrite Hb. cbn. eexists _, _. split; [done|]. split; [cbn; rewrite !lookup_alter_eq, Hs; done|].
  split; [done|]. split; [change (cnt is_ur (ops h (done_with w i)) = 0)|change (cnt is_ow (ops h (done_with w i)) = 0)]; lia.
Qed.
End World.

(** ** A run *)
Module CRDemo.
Import ClientDemo.

Definition step := c_step configs 0 (fun _ => 0) false make_address (fun _ => ep) KClient (fun _ => ([], 0))
  ok ok ok 1.
Definition reach := c_reachable configs 0 (fun _ => 0) false make_address (fun _ => ep) KClient
  (fun _ => ([], 0)) ok ok ok 0.

Fixpoint run (es : list cevent) (w : cworld) : option cworld :=
  match es with
  | [] => Some w
  | e :: es => match step e w with Ret (_, w') => run es w' | _ => None end
  end.
Lemma run_c_reach es w w' : reach w -> run es w = Some w' -> reach w'.
Proof.
  revert w. induction es as [|e es IH]; intros w Hw E; cbn in E; [congruence|].
  destruct (step e w) as [[[] w1]| |] eqn:Es; [|done|done]. eapply IH; [|exact E]. by eapply c_reach_step.
Qed.
Lemma run_init es w : run es c_init = Some w -> reach w.
Proof. apply run_c_reach. constructor. Qed.

Definition got (i : nat) (data : bytes) : cevent := CComplete i (CReceived 0 data ep).
Definition finished (i : nat) : cevent := CComplete i (CDone 0).
Definition connect (c : TrojanRequest.Command) : list cevent :=
  [CAccept; got 0 (greeting [Byte.x00]); finished 0; got 0 (socks5_request c target_wire)].

(** A connection that has sent a request and got an answer *)
Definition events : list cevent :=
  connect TrojanRequest.CONNECT ++
  [finished 0; CComplete 0 (CResolved 0 [ep]); finished 1; finished 1; finished 2; got 2 (str "GET"); got 1 (str "200")].
Definition world : cworld := default c_init (run events c_init).
Definition session : ClientSession := default new_session (c_objs world !! 0%nat).

(** An association in use *)
Definition udp_events : list cevent :=
  connect TrojanRequest.UDP_ASSOCIATE ++
  [finished 1; CComplete 1 (CResolved 0 [ep]); finished 2; finished 2; finished 3].
Definition udp_world : cworld := default c_init (run udp_events c_init).
Definition udp_session : ClientSession := default new_session (c_objs udp_world !! 0%nat).
Lemma client_password : exists x rest, Session.password (configs 0%nat) = (str "pw", x) :: rest.
Proof. by exists (str "secret"), []. Qed.
Lemma no_pipelines : pipeline_num (configs 0%nat) <= 0.
Proof. done. Qed.


Lemma client_relays_in_order_witness :
  relayed configs (fun _ => ([], 0)) (str "pw") 0 (c_kind session) (tr 0 world).
Proof.
  destruct (client_relays_in_order configs 0 (fun _ => 0) false make_address (fun _ => ep) KClient
    (fun _ => ([], 0)) ok ok ok 0 (str "pw") client_password (fun n => eq_refl) no_pipelines world 0 session
    (run_init events world ltac:(vm_compute; reflexivity)) ltac:(vm_compute; reflexivity)) as (H & _).
  apply H. vm_compute. reflexivity.
Defined.

Lemma session_asked :
  asked configs (fun _ => ([], 0)) 0 (c_kind session) (from_app (tr 0 world)) target [str "GET"].
Proof. exact (asked_socks5 configs (fun _ => ([], 0)) 0 (greeting [Byte.x00]) target target_wire [str "GET"] target_ok). Qed.


Lemma empty_datagram_stops_reading_witness :
  exists w' s', step (got 3 []) udp_world = Ret (tt, w') /\ c_objs w' !! 0%nat = Some s' /\
    c_status s' = C_UDP_FORWARD /\ cnt is_ur (ops 0 w') = 0.
Proof.
  destruct (empty_datagram_stops_reading configs 0 (fun _ => 0) false make_address (fun _ => ep) KClient
    (fun _ => ([], 0)) ok ok ok 0 (str "pw") client_password (fun n => eq_refl) no_pipelines udp_world 0 udp_session 3 ep
    (run_init udp_events udp_world ltac:(vm_compute; reflexivity)) ltac:(vm_compute; reflexivity)
    ltac:(vm_compute; reflexivity) ltac:(vm_compute; reflexivity)) as (w' & s' & H1 & H2 & H3 & H4 & _).
  exists w', s'. split; [exact H1|]. split; [exact H2|]. split; [exact H3|exact H4].
Defined.
End CRDemo.
