(* ===== verification/TunPacket.v ===== *)
(** * The tun device: packets

    The parts of [src/src/tun/tundev.cpp] that read packets from the device and
    write packets to it: [parse_packet], [write_to_tun], [netif_output_func] and
    [handle_write_upd_data].  The header structures and the checksums come from
    badvpn, a submodule that is not in the tree: the structures are the wire
    formats of RFC 791, 8200 and 768, the checksums are parameters. *)

From Stdlib Require Import ZArith Lia.
From S2P Require Import Prelude Utils Address Caches.
Import Codec Streambuf.
Local Open Scope Z_scope.
Local Open Scope handler_scope.

(** The sizes of the headers *)
Definition sizeof_ipv4_header : Z := 20.
Definition sizeof_ipv6_header : Z := 40.
Definition sizeof_udp_header : Z := 8.
Definition IPV4 : Z := 4.
Definition IPV6 : Z := 6.
Definition IPV4_PROTOCOL_UDP : byte := Byte.x11.
Definition Default_UDP_TTL : byte := Byte.x3c.

(** ** Reading *)

Definition ip_version (b : byte) : Z := Z.land (Z.shiftr (b2z b) 4) 15.

(** The length of the packet at the head of the buffer, once its header is there *)
Definition packet_length (version : Z) (data : bytes) : outcome (option Z) :=
  if version =? IPV4 then
    if zlen data <? sizeof_ipv4_header then Ret None
    else let! n := parse_uint16 2 data in Ret (Some n)
  else
    if zlen data <? sizeof_ipv6_header then Ret None
    else let! n := parse_uint16 4 data in Ret (Some (u16 (n + sizeof_ipv6_header))).

Section Parse.
Context {W : Type} (handle : bytes -> M W unit).

(** [parse_packet]: the rest of [m_packet_parse_buff].  [handle] is what is done
    with one packet; it does not touch the buffer. *)
Fixpoint parse_packet (fuel : nat) (buff : bytes) : M W bytes :=
  match fuel with
  | O => fun _ => Undef NoEnd
  | S fuel =>
    match buff with
    | [] => ret []
    | b :: _ =>
      let version := ip_version b in
      if (version =? IPV4) || (version =? IPV6) then
        t <- lift (packet_length version buff) ;;
        match t with
        | None => ret buff
        | Some total_length =>
          if total_length <=? zlen buff then
            handle (sub_ buff 0 total_length) ;;;
            if zlen buff =? total_length then ret []
            else rest <- lift (substr_from buff total_length) ;; parse_packet fuel rest
          else ret buff
        end
      else ret []
    end
  end.
End Parse.

(** ** Writing *)

Record TunOut := mkTunOut {
  m_quitting : bool;
  m_write_fill_buf : bytes;
  tun_written : list bytes;           (* what each [write_some] took *)
  tun_calls : nat
}.
#[export] Instance eta_TunOut : Settable TunOut :=
  fun r => mkTunOut (m_quitting r) (m_write_fill_buf r) (tun_written r) (tun_calls r).

Section Write.
(** [write_some n data]: the answer of the [n]-th call *)
Context (m_mtu : Z) (write_some : nat -> bytes -> error_code * Z).
Context (ipv4_checksum : bytes -> byte * byte) (udp_checksum : bytes -> bytes -> bytes -> bytes -> byte * byte).

Definition call_write_some (data : bytes) (t : TunOut) : error_code * Z * TunOut :=
  let '(ec, wrote) := write_some (tun_calls t) data in
  (ec, wrote, t <| tun_calls ::= S |> <| tun_written ::= fun l => l ++ [take (Z.to_nat wrote) data] |>).

Fixpoint write_loop (fuel : nat) (t : TunOut) : outcome TunOut :=
  match fuel with
  | O => Undef NoEnd
  | S fuel =>
    let fill := m_write_fill_buf t in
    if zlen fill =? 0 then Ret t else
    let data := if m_mtu <? zlen fill then take (Z.to_nat m_mtu) fill else fill in
    let '(ec, wrote, t) := call_write_some data t in
    if (ec =? 0) && (0 <? wrote) then write_loop fuel (t <| m_write_fill_buf := consume fill wrote |>)
    else write_loop fuel (t <| m_write_fill_buf := consume_all fill |>)
  end.
Definition write_to_tun (t : TunOut) : outcome TunOut :=
  if m_quitting t then Ret t else write_loop (S (S (length (m_write_fill_buf t)))) t.

(** [netif_output_func]: a chain of buffers; [nullptr] is the empty chain. *)
Definition netif_output_func (p : list bytes) (t : TunOut) : outcome TunOut :=
  if m_quitting t then Ret t else
  match p with
  | [] => Ret t
  | [q] =>
    if zlen q <=? m_mtu then Ret (snd (call_write_some q t))
    else write_to_tun (t <| m_write_fill_buf ::= fun b => b ++ q |>)
  | _ => write_to_tun (t <| m_write_fill_buf ::= fun b => b ++ concat p |>)
  end.

(** [sin_addr]; for an IPv6 endpoint these octets are its flow label, which is 0. *)
Definition sin_addr (e : endpoint) : bytes :=
  match ep_address e with
  | V4 a b c d => [a; b; c; d]
  | V6 _ => [Byte.x00; Byte.x00; Byte.x00; Byte.x00]
  end.

Definition ipv4_hdr (data_len : Z) (checksum : byte * byte) (source destination : bytes) : bytes :=
  [Byte.x45; Byte.x00] ++ be16 (u16 (sizeof_ipv4_header + sizeof_udp_header + data_len)) ++
  [Byte.x00; Byte.x00; Byte.x00; Byte.x00; Default_UDP_TTL; IPV4_PROTOCOL_UDP; fst checksum; snd checksum] ++
  source ++ destination.
Definition udp_hdr (source_port dest_port data_len : Z) (checksum : byte * byte) : bytes :=
  be16 source_port ++ be16 dest_port ++ be16 (u16 (sizeof_udp_header + data_len)) ++ [fst checksum; snd checksum].
Definition no_checksum : byte * byte := (Byte.x00, Byte.x00).

(** The packet for [data], from [remote] to [local] *)
Definition udp_packet (local remote : endpoint) (data : bytes) : bytes :=
  let source := sin_addr remote in
  let destination := sin_addr local in
  let data_len := zlen data in
  ipv4_hdr data_len (ipv4_checksum (ipv4_hdr data_len no_checksum source destination)) source destination ++
  udp_hdr (ep_port remote) (ep_port local) data_len
    (udp_checksum (udp_hdr (ep_port remote) (ep_port local) data_len no_checksum) data source destination) ++
  data.

(** What fits in one packet: [m_mtu] is a [uint16_t], and so is the difference. *)
Definition max_len : Z := u16 (m_mtu - (sizeof_ipv4_header + sizeof_udp_header)).

Fixpoint handle_write_upd_data (fuel : nat) (local remote : endpoint) (data : bytes) (t : TunOut)
  : outcome TunOut :=
  match fuel with
  | O => Undef NoEnd
  | S fuel =>
    if zlen data =? 0 then Ret t else
    let data_len := if max_len <? zlen data then max_len else zlen data in
    let packet := udp_packet local remote (take (Z.to_nat data_len) data) in
    let! t := write_to_tun (t <| m_write_fill_buf ::= fun b => b ++ packet |>) in
    let! rest := substr_from data data_len in
    if 0 <? zlen rest then handle_write_upd_data fuel local remote rest t else Ret t
  end.
End Write.
