(* ===== verification/TunPacketTheorems.v ===== *)
(** * The tun device: what is proved of its packets *)

From Stdlib Require Import ZArith Lia.
From S2P Require Import Prelude Utils Address Caches TunPacket.
Import Codec Streambuf.
Local Open Scope Z_scope.
Local Open Scope handler_scope.

(** ** Packets in a stream *)

(** A whole packet of either version *)
Definition ip_packet (p : bytes) : Prop :=
  exists b q, p = b :: q /\
    ((ip_version b = IPV4 /\ sizeof_ipv4_header <= zlen p /\ parse_uint16 2 p = Ret (zlen p)) \/
     (ip_version b = IPV6 /\ sizeof_ipv6_header <= zlen p < 65536 /\
      parse_uint16 4 p = Ret (zlen p - sizeof_ipv6_header))).

(** The head of a packet whose end is missing *)
Definition partial (x : bytes) : Prop := x = [] \/ exists p y, ip_packet p /\ p = x ++ y /\ y <> [].

Lemma packet_version p b q : ip_packet p -> p = b :: q -> (ip_version b =? IPV4) || (ip_version b =? IPV6) = true.
Proof. intros (b' & q' & -> & H) [= -> ->]. by destruct H as [[-> _]|[-> _]]. Qed.

Lemma packet_length_whole p b q rest :
  ip_packet p -> p = b :: q -> packet_length (ip_version b) (p ++ rest) = Ret (Some (zlen p)).
Proof.
  intros (b' & q' & -> & H) [= -> ->]. pose proof (zlen_nonneg rest). unfold packet_length.
  destruct H as [(-> & Hl & Hp)|(-> & Hl & Hp)]; unfold sizeof_ipv4_header, sizeof_ipv6_header in *; cbn [Z.eqb].
  - change (IPV4 =? IPV4) with true. cbn iota. rewrite zlen_app. destruct (Z.ltb_spec (zlen (b :: q) + zlen rest) 20); [lia|].
    rewrite parse_uint16_app by lia. by rewrite Hp.
  - change (IPV6 =? IPV4) with false. cbn iota. rewrite zlen_app. destruct (Z.ltb_spec (zlen (b :: q) + zlen rest) 40); [lia|].
    rewrite parse_uint16_app by lia. rewrite Hp. cbn [obind]. rewrite Z.sub_add, u16_small by lia. done.
Qed.

(** A part of a packet is left for later. *)
Lemma packet_length_part p b q x y :
  ip_packet p -> p = b :: q -> p = x ++ y -> y <> [] ->
  packet_length (ip_version b) x = Ret None \/
  (packet_length (ip_version b) x = Ret (Some (zlen p)) /\ zlen x < zlen p).
Proof.
  intros (b' & q' & -> & H) [= -> ->] E Hy.
  assert (Hx : zlen x < zlen (b :: q)).
  { rewrite E, zlen_app. destruct y; [done|]. rewrite zlen_cons. pose proof (zlen_nonneg y). lia. }
  pose proof (zlen_nonneg x). unfold packet_length.
  destruct H as [(-> & Hl & Hp)|(-> & Hl & Hp)]; unfold sizeof_ipv4_header, sizeof_ipv6_header in *.
  - change (IPV4 =? IPV4) with true. cbn iota. destruct (Z.ltb_spec (zlen x) 20); [by left|right].
    split; [|done]. rewrite E, parse_uint16_app in Hp by lia. by rewrite Hp, <- E.
  - change (IPV6 =? IPV4) with false. cbn iota. destruct (Z.ltb_spec (zlen x) 40); [by left|right].
    split; [|done]. rewrite E, parse_uint16_app in Hp by lia. rewrite Hp. cbn [obind].
    rewrite Z.sub_add, u16_small by (rewrite <- E; lia). by rewrite <- E.
Qed.

Section Stream.
Context {W : Type} (handle : bytes -> M W unit).

(** The packets one after the other *)
Fixpoint each (ps : list bytes) : M W unit :=
  match ps with
  | [] => skip
  | p :: ps => handle p ;;; each ps
  end.
(** Successive reads of the device: each chunk is appended to what is left. *)
Fixpoint feed_tun (chunks : list bytes) (buff : bytes) : M W bytes :=
  match chunks with
  | [] => ret buff
  | c :: chunks =>
    rest <- parse_packet handle (S (length (buff ++ c))) (buff ++ c) ;; feed_tun chunks rest
  end.

Lemma each_app ps qs w : each (ps ++ qs) w = (each ps ;;; each qs) w.
Proof.
  revert w. induction ps as [|p ps IH]; intros w; cbn; [done|]. unfold bind.
  destruct (handle p w) as [[[] w1]| |]; [apply IH|done|done].
Qed.

Lemma parse_packet_partial fuel x w : (0 < fuel)%nat -> partial x -> parse_packet handle fuel x w = Ret (x, w).
Proof.
  intros Hf Hx. destruct fuel as [|fuel]; [lia|]. cbn [parse_packet].
  destruct x as [|b x]; [done|]. destruct Hx as [?|(p & y & Hp & E & Hy)]; [done|].
  rewrite (packet_version p b (x ++ y)) by done.
  unfold bind, lift. destruct (packet_length_part p b (x ++ y) (b :: x) y Hp E E Hy) as [->|[-> Hl]]; [done|].
  destruct (Z.leb_spec (zlen p) (zlen (b :: x))); [lia|]. done.
Qed.

Lemma parse_packets fuel ps x w :
  Forall ip_packet ps -> partial x -> (length (concat ps ++ x) < fuel)%nat ->
  parse_packet handle fuel (concat ps ++ x) w = (each ps ;;; ret x) w.
Proof.
  intros Hps Hx. revert fuel w. induction Hps as [|p ps Hp Hps IH]; intros fuel w Hf.
  { apply parse_packet_partial; [lia|done]. }
  cbn [concat app]. rewrite <- app_assoc. set (rest := concat ps ++ x) in *. fold rest in IH.
  pose proof Hp as (b & q & E & Hc). assert (Hlen : 0 < zlen p).
  { rewrite E, zlen_cons. pose proof (zlen_nonneg q). lia. }
  destruct fuel as [|fuel]; [lia|]. cbn [each concat app] in *. rewrite <- app_assoc in Hf. fold rest in Hf.
  assert (Hstep : parse_packet handle (S fuel) (p ++ rest) w =
    (handle p ;;; if zlen (p ++ rest) =? zlen p then ret [] else parse_packet handle fuel rest) w).
  { pose proof (packet_version p b q Hp E) as Hv. pose proof (packet_length_whole p b q rest Hp E) as Hl.
    assert (Es : sub_ (p ++ rest) 0 (zlen p) = p) by (by apply (sub_app [] p rest)).
    assert (Hle : zlen p <= zlen (p ++ rest)) by (rewrite zlen_app; pose proof (zlen_nonneg rest); lia).
    assert (Hsub : substr_from (p ++ rest) (zlen p) = Ret rest) by (by rewrite substr_from_ok, drop_zlen_app).
    assert (Ep : exists t, p ++ rest = b :: t) by (rewrite E; by eexists).
    revert Hl Es Hle Hsub. destruct Ep as [t ->]. intros Hl Es Hle Hsub. cbn [parse_packet]. rewrite Hv.
    unfold bind at 1. rewrite Hl. cbn [lift]. destruct (Z.leb_spec (zlen p) (zlen (b :: t))); [|lia].
    rewrite Es. unfold bind. destruct (handle p w) as [[[] w1]| |]; [|done|done].
    destruct (zlen (b :: t) =? zlen p); [done|]. unfold lift. by rewrite Hsub. }
  rewrite Hstep. unfold bind. destruct (handle p w) as [[[] w1]| |]; [|done|done].
  rewrite zlen_app. destruct (Z.eqb_spec (zlen p + zlen rest) (zlen p)) as [Ez|_].
  - assert (Er : rest = []) by (apply zlen_zero; lia). subst rest. apply app_eq_nil in Er as [Ec ->].
    destruct Hps as [|p' ps (b' & q' & -> & _)]; [done|]. cbn in Ec. discriminate.
  - rewrite IH; [done|]. rewrite E, length_app in Hf. cbn [length] in Hf. lia.
Qed.

(** Less than the first packet *)
Definition short (x : bytes) (ps : list bytes) : Prop :=
  x = [] \/ exists p ps', ps = p :: ps' /\ (length x < length p)%nat.
Lemma short_partial x ps d : Forall ip_packet ps -> x ++ d = concat ps -> short x ps -> partial x.
Proof.
  intros Hps E [->|(p & ps' & -> & Hl)]; [by left|right]. exists p, (drop (length x) p).
  assert (Hp : ip_packet p) by (by inversion Hps). cbn in E. split; [done|]. split.
  - rewrite <- (take_drop (length x) p) at 1. f_equal. apply (f_equal (take (length x))) in E.
    rewrite take_app_length, take_app_le in E by lia. done.
  - intros Ed. apply (f_equal length) in Ed. rewrite length_drop in Ed. cbn in Ed. lia.
Qed.

(** Where a stream of packets is cut *)
Lemma stream_cut ps d d' :
  d ++ d' = concat ps ->
  exists ps1 ps2 x, ps = ps1 ++ ps2 /\ d = concat ps1 ++ x /\ x ++ d' = concat ps2 /\ short x ps2.
Proof.
  revert d. induction ps as [|p ps IH]; intros d E.
  - apply app_eq_nil in E as [-> ->]. exists [], [], []. split_and!; [done..|by left].
  - cbn in E. destruct (decide (length p <= length d)%nat) as [Hl|Hl].
    + assert (Hd : d = p ++ drop (length p) d).
      { rewrite <- (take_drop (length p) d) at 1. f_equal.
        apply (f_equal (take (length p))) in E. rewrite take_app_le in E by done. by rewrite take_app_length in E. }
      rewrite Hd, <- app_assoc in E. apply app_inv_head in E.
      destruct (IH _ E) as (ps1 & ps2 & x & -> & Hd2 & Hx & Hpx).
      exists (p :: ps1), ps2, x. split_and!; [done| |done|done]. cbn. by rewrite Hd, Hd2, <- app_assoc.
    + exists [], (p :: ps), d. split_and!; [done|done|done|]. right. exists p, ps. split; [done|lia].
Qed.

Lemma feed_packets chunks ps buff w :
  Forall ip_packet ps -> short buff ps -> buff ++ concat chunks = concat ps ->
  feed_tun chunks buff w = (each ps ;;; ret []) w.
Proof.
  revert ps buff w. induction chunks as [|c chunks IH]; intros ps buff w Hps Hb E; cbn [feed_tun concat] in *.
  - rewrite app_nil_r in E. destruct Hb as [->|(p & ps' & -> & Hl)].
    + destruct Hps as [|p ps (b & q & -> & _)]; [done|]. discriminate.
    + rewrite E in Hl. cbn in Hl. rewrite length_app in Hl. lia.
  - rewrite app_assoc in E. destruct (stream_cut ps _ _ E) as (ps1 & ps2 & x & -> & Ed & Ex & Hx).
    apply list.Forall_app in Hps as [H1 H2]. rewrite Ed. unfold bind at 1.
    rewrite parse_packets by (first [done|lia|by eapply short_partial]).
    transitivity ((each ps1 ;;; (each ps2 ;;; ret (@nil byte))) w).
    + unfold bind at 1 2. destruct (each ps1 w) as [[[] w1]| |]; [|done|done]. by apply IH.
    + unfold bind. rewrite each_app. unfold bind. by destruct (each ps1 w) as [[[] w1]| |].
Qed.
End Stream.

(** C19: the packets of the tun device do not depend on how its reads cut the
    stream: whatever chunks [async_read] appends to [m_packet_parse_buff], every
    IPv4 and IPv6 packet is processed once, whole and in order, and the buffer
    ends empty. *)
Theorem tun_packets_segmentation {W} (handle : bytes -> M W unit) ps chunks w :
  Forall ip_packet ps -> concat chunks = concat ps ->
  feed_tun handle chunks [] w = (each handle ps ;;; ret []) w.
Proof. intros Hps E. apply feed_packets; [done|by left|done]. Qed.

(** C40: an IPv4 header whose length field is 0 makes [parse_packet] call itself
    without end: nothing is taken from the buffer. *)
Theorem zero_length_packet_never_ends {W} (handle : bytes -> M W unit) b buff fuel w :
  ip_version b = IPV4 -> sizeof_ipv4_header <= zlen (b :: buff) -> parse_uint16 2 (b :: buff) = Ret 0 ->
  (forall p w, exists w', handle p w = Ret (tt, w')) ->
  parse_packet handle fuel (b :: buff) w = Undef NoEnd.
Proof.
  intros Hv Hl Hp Hh. revert w. induction fuel as [|fuel IH]; intros w; [done|]. cbn [parse_packet]. rewrite Hv.
  change ((IPV4 =? IPV4) || (IPV4 =? IPV6)) with true. cbn iota. unfold bind at 1, lift, packet_length.
  change (IPV4 =? IPV4) with true. cbn iota.
  destruct (Z.ltb_spec (zlen (b :: buff)) sizeof_ipv4_header); [lia|]. rewrite Hp. cbn [obind].
  unfold sizeof_ipv4_header in *. destruct (Z.leb_spec 0 (zlen (b :: buff))); [|lia]. unfold bind at 1.
  destruct (Hh (sub_ (b :: buff) 0 0) w) as [w' ->].
  destruct (Z.eqb_spec (zlen (b :: buff)) 0); [lia|]. unfold bind. rewrite substr_from_ok by lia. cbn [Z.to_nat drop].
  apply IH.
Qed.

(** ** Writing *)

Section Write.
Context (m_mtu : Z) (write_some : nat -> bytes -> error_code * Z).
Context (ipv4_checksum : bytes -> byte * byte) (udp_checksum : bytes -> bytes -> bytes -> bytes -> byte * byte).

Notation write_loop := (write_loop m_mtu write_some).
Notation write_to_tun := (write_to_tun m_mtu write_some).
Notation udp_packet := (udp_packet ipv4_checksum udp_checksum).
Notation handle_write := (handle_write_upd_data m_mtu write_some ipv4_checksum udp_checksum).

(** Every answer takes at least one octet of the buffer, or empties it. *)
Lemma write_loop_ends fuel t :
  (length (m_write_fill_buf t) < fuel)%nat ->
  exists t', write_loop (S fuel) t = Ret t' /\ m_write_fill_buf t' = [] /\ m_quitting t' = m_quitting t.
Proof.
  revert t. induction fuel as [|fuel IH]; intros t Hl; [lia|]. cbn [TunPacket.write_loop].
  destruct (Z.eqb_spec (zlen (m_write_fill_buf t)) 0) as [E|E]; [apply zlen_zero in E; eauto|].
  unfold call_write_some. destruct (write_some _ _) as [ec wrote].
  destruct ((ec =? 0) && (0 <? wrote)) eqn:Ew.
  - apply andb_true_iff in Ew as [_ Ew%Z.ltb_lt].
    match goal with |- context [(if _ then Ret ?u else _)] => destruct (IH u) as (t' & E1 & E2 & E3) end.
    + cbn. unfold consume. rewrite length_drop. unfold zlen in E. lia.
    + exists t'. by cbn [TunPacket.write_loop] in E1.
  - match goal with |- context [(if _ then Ret ?u else _)] => destruct (IH u) as (t' & E1 & E2 & E3) end.
    + cbn. rewrite consume_all_nil. cbn. unfold zlen in E. lia.
    + exists t'. by cbn [TunPacket.write_loop] in E1.
Qed.

Lemma write_flushes t :
  m_quitting t = false ->
  exists t', write_to_tun t = Ret t' /\ m_write_fill_buf t' = [] /\ m_quitting t' = false.
Proof.
  intros Hq. unfold TunPacket.write_to_tun. rewrite Hq.
  destruct (write_loop_ends (S (length (m_write_fill_buf t))) t) as (t' & E1 & E2 & E3); [lia|].
  rewrite Hq in E3. eauto.
Qed.

(** [write_to_tun] ends and leaves nothing in its buffer, whatever the device
    answers: errors and partial writes included. *)
Theorem write_to_tun_ends t :
  m_quitting t = false -> exists t', write_to_tun t = Ret t' /\ m_write_fill_buf t' = [].
Proof. intros Hq. destruct (write_flushes t Hq) as (t' & ? & ? & _). eauto. Qed.

(** Every datagram is written, or given up. *)
Lemma handle_write_ends fuel local remote data t :
  28 < m_mtu < 65536 -> (length data < fuel)%nat -> exists t', handle_write fuel local remote data t = Ret t'.
Proof.
  intros Hm. revert data t. induction fuel as [|fuel IH]; intros data t Hf; [lia|]. cbn [handle_write_upd_data].
  destruct (Z.eqb_spec (zlen data) 0) as [E|E]; [eauto|]. pose proof (zlen_nonneg data).
  assert (Em : max_len m_mtu = m_mtu - 28).
  { unfold max_len, sizeof_ipv4_header, sizeof_udp_header. apply u16_small. lia. }
  set (data_len := if max_len m_mtu <? zlen data then max_len m_mtu else zlen data).
  assert (Hd : 0 < data_len <= zlen data).
  { subst data_len. rewrite Em. destruct (Z.ltb_spec (m_mtu - 28) (zlen data)); lia. }
  assert (Hw : forall t, exists t', write_to_tun t = Ret t').
  { intros u. destruct (m_quitting u) eqn:Eq; [unfold write_to_tun; rewrite Eq; eauto|].
    destruct (write_flushes u Eq) as (t' & -> & _). eauto. }
  match goal with |- context [write_to_tun ?u] => destruct (Hw u) as [t' ->] end. cbn [obind].
  rewrite substr_from_ok by lia. cbn [obind]. case_match; [|eauto]. apply IH. rewrite length_drop. unfold zlen in *. lia.
Qed.

Section Healthy.
(** The device takes what it is given. *)
Hypothesis mtu_range : 28 < m_mtu < 65536.
Hypothesis write_all : forall n data, write_some n data = (0, zlen data).

Lemma write_fill p t :
  m_quitting t = false -> m_write_fill_buf t = p -> 0 < zlen p <= m_mtu ->
  exists n, write_to_tun t = Ret (mkTunOut false [] (tun_written t ++ [p]) n).
Proof.
  destruct t as [q f wr n]. cbn [m_quitting m_write_fill_buf tun_written]. intros -> -> Hp.
  unfold TunPacket.write_to_tun. cbn [m_quitting m_write_fill_buf].
  destruct (length p) as [|k] eqn:Ek; [unfold zlen in Hp; lia|].
  cbn [TunPacket.write_loop m_write_fill_buf].
  destruct (Z.eqb_spec (zlen p) 0); [lia|]. destruct (Z.ltb_spec m_mtu (zlen p)); [lia|].
  unfold call_write_some. rewrite write_all. cbn [fst snd Z.eqb andb].
  destruct (Z.ltb_spec 0 (zlen p)); [|lia].
  assert (Ec : consume p (zlen p) = []) by apply consume_all_nil.
  assert (Et : take (Z.to_nat (zlen p)) p = p) by (apply take_ge; unfold zlen; lia).
  rewrite Et, Ec. cbn. eauto.
Qed.
Lemma write_one p t :
  m_quitting t = false -> m_write_fill_buf t = [] -> 0 < zlen p <= m_mtu ->
  exists n, write_to_tun (t <| m_write_fill_buf ::= fun b => b ++ p |>) =
    Ret (mkTunOut false [] (tun_written t ++ [p]) n).
Proof.
  destruct t as [q f wr n]. cbn [m_quitting m_write_fill_buf]. intros -> -> Hp.
  destruct (write_fill p (mkTunOut false p wr n)) as [k E]; [done..|]. exists k. exact E.
Qed.

(** The data in pieces, each in a packet of its own *)
Record pieces (local remote : endpoint) (data : bytes) (packets : list bytes) : Prop := {
  pc_data : concat (map (drop 28) packets) = data;
  pc_packets : Forall (fun p => zlen p <= m_mtu /\ ip_packet p /\
    p = udp_packet local remote (drop 28 p)) packets
}.

Lemma zlen_udp_packet local remote data : zlen (udp_packet local remote data) = 28 + zlen data.
Proof.
  unfold TunPacket.udp_packet, ipv4_hdr, udp_hdr, be16, sin_addr. destruct (ep_address local), (ep_address remote);
    rewrite !zlen_app, ?zlen_cons, ?zlen_nil; lia.
Qed.
Lemma udp_packet_data local remote data : drop 28 (udp_packet local remote data) = data.
Proof.
  unfold TunPacket.udp_packet, ipv4_hdr, udp_hdr, be16, sin_addr.
  by destruct (ep_address local), (ep_address remote).
Qed.
Lemma udp_packet_ip local remote data : zlen data <= 65507 -> ip_packet (udp_packet local remote data).
Proof.
  intros Hd. pose proof (zlen_nonneg data). exists Byte.x45, (drop 1 (udp_packet local remote data)).
  split; [done|]. left. split; [done|]. rewrite zlen_udp_packet. split; [unfold sizeof_ipv4_header; lia|].
  unfold TunPacket.udp_packet at 1, ipv4_hdr at 1. rewrite <- !app_assoc.
  rewrite (parse_uint16_be _ [Byte.x45; Byte.x00]) by done.
  unfold sizeof_ipv4_header, sizeof_udp_header. rewrite !u16_small; [f_equal; lia|lia|rewrite u16_small; lia].
Qed.

Lemma handle_write_pieces fuel local remote data t :
  (length data < fuel)%nat -> m_quitting t = false -> m_write_fill_buf t = [] ->
  exists n packets, handle_write fuel local remote data t =
      Ret (mkTunOut false [] (tun_written t ++ packets) n) /\ pieces local remote data packets.
Proof.
  revert data t. induction fuel as [|fuel IH]; intros data t Hf Hq Hb; [lia|]. cbn [handle_write_upd_data].
  destruct (Z.eqb_spec (zlen data) 0) as [E|E].
  { apply zlen_zero in E as ->. exists (tun_calls t), []. split; [|by split].
    rewrite app_nil_r. destruct t. cbn in *. by subst. }
  pose proof (zlen_nonneg data). assert (Em : max_len m_mtu = m_mtu - 28).
  { unfold max_len, sizeof_ipv4_header, sizeof_udp_header. apply u16_small. lia. }
  set (data_len := if max_len m_mtu <? zlen data then max_len m_mtu else zlen data).
  assert (Hd : 0 < data_len <= m_mtu - 28 /\ data_len <= zlen data).
  { subst data_len. rewrite Em. destruct (Z.ltb_spec (m_mtu - 28) (zlen data)); lia. }
  set (piece := take (Z.to_nat data_len) data).
  assert (Hpiece : zlen piece = data_len) by (subst piece; unfold zlen in *; rewrite length_take; lia).
  destruct (write_one (udp_packet local remote piece) t) as [n ->]; [done|done|rewrite zlen_udp_packet; lia|].
  cbn [obind]. rewrite substr_from_ok by lia. cbn [obind].
  assert (Hok : zlen (udp_packet local remote piece) <= m_mtu /\ ip_packet (udp_packet local remote piece) /\
    udp_packet local remote piece = udp_packet local remote (drop 28 (udp_packet local remote piece))).
  { rewrite zlen_udp_packet, udp_packet_data. split_and!; [lia|apply udp_packet_ip; lia|done]. }
  assert (Hcut : piece ++ drop (Z.to_nat data_len) data = data) by apply take_drop.
  destruct (Z.ltb_spec 0 (zlen (drop (Z.to_nat data_len) data))) as [Hr|Hr].
  - destruct (IH (drop (Z.to_nat data_len) data) (mkTunOut false [] (tun_written t ++ [udp_packet local remote piece]) n))
      as (n' & ps & -> & [P1 P2]); [rewrite length_drop; unfold zlen in *; lia|done|done|].
    exists n', (udp_packet local remote piece :: ps). cbn [tun_written]. split; [by rewrite <- app_assoc|].
    split; [cbn [map concat]; by rewrite udp_packet_data, P1|by constructor].
  - exists n, [udp_packet local remote piece]. split; [done|].
    assert (Ed : drop (Z.to_nat data_len) data = []).
    { apply zlen_zero. pose proof (zlen_nonneg (drop (Z.to_nat data_len) data)). lia. }
    split; [cbn [map concat]; rewrite udp_packet_data, app_nil_r; by rewrite Ed, app_nil_r in Hcut|by constructor].
Qed.

End Healthy.

(** With an MTU of exactly the two headers no octet fits in a packet: the
    function calls itself without end. *)
Theorem tun_mtu_of_headers_never_ends local remote data t fuel :
  m_mtu = 28 -> data <> [] -> m_quitting t = false -> m_write_fill_buf t = [] ->
  handle_write fuel local remote data t = Undef NoEnd.
Proof.
  intros Hm Hd. revert t. induction fuel as [|fuel IH]; intros t Hq Hb; [done|]. cbn [handle_write_upd_data].
  destruct (Z.eqb_spec (zlen data) 0) as [E|E]; [by apply zlen_zero in E|].
  assert (Em : max_len m_mtu = 0) by (rewrite Hm; done). rewrite Em. pose proof (zlen_nonneg data).
  destruct (Z.ltb_spec 0 (zlen data)); [|lia]. cbn [Z.to_nat take].
  match goal with |- context [write_to_tun ?u] => destruct (write_flushes u) as (t' & -> & E2 & E3); [done|] end.
  cbn [obind]. rewrite substr_from_ok by lia. cbn [obind]. change (drop (Z.to_nat 0) data) with data.
  destruct (Z.ltb_spec 0 (zlen data)); [|lia]. by apply IH.
Qed.
End Write.

(** ** Concrete packets *)
Module TunPacketDemo.

Definition local : endpoint := mkEndpoint (V4 Byte.x0a Byte.x00 Byte.x00 Byte.x02) 4000.
Definition remote : endpoint := mkEndpoint (V4 Byte.x08 Byte.x08 Byte.x08 Byte.x08) 53.
Definition checksum4 (_ : bytes) : byte * byte := (Byte.x01, Byte.x02).
Definition checksum_udp (_ _ _ _ : bytes) : byte * byte := (Byte.x03, Byte.x04).
Definition query : bytes := udp_packet checksum4 checksum_udp remote local (str "query").
Definition v6 : bytes := Byte.x60 :: repeat Byte.x00 39.
Definition record (p : bytes) : M (list bytes) unit := modify (fun l => l ++ [p]).
Definition all (n : nat) (data : bytes) : error_code * Z := (0, zlen data).
Definition out : TunOut := mkTunOut false [] [] 0.

Lemma demo_packets : Forall ip_packet [query; v6].
Proof.
  constructor; [|constructor; [|constructor]].
  - apply udp_packet_ip. vm_compute. discriminate.
  - exists Byte.x60, (repeat Byte.x00 39). split; [done|]. right. by vm_compute.
Qed.

Lemma tun_packets_segmentation_witness :
  feed_tun record [take 3 query; drop 3 query ++ take 1 v6; drop 1 v6] [] [] = Ret ([], [query; v6]).
Proof.
  rewrite (tun_packets_segmentation record [query; v6] [take 3 query; drop 3 query ++ take 1 v6; drop 1 v6] []
    demo_packets ltac:(vm_compute; reflexivity)).
  reflexivity.
Defined.

Definition endless : bytes := repeat Byte.x00 19.
Lemma zero_length_packet_never_ends_witness :
  parse_packet record 1000 (Byte.x45 :: endless) [] = Undef NoEnd.
Proof.
  apply (zero_length_packet_never_ends record Byte.x45 endless 1000 []); [reflexivity|vm_compute; discriminate|reflexivity|].
  intros p w. exists (w ++ [p]). reflexivity.
Defined.

End TunPacketDemo.
