(* ===== verification/TunSide.v ===== *)
(** * The tun device and its sessions: definitions

    [src/src/tun/tunsession.h], [tunproxysession.cpp], [tunlocalsession.cpp],
    [lwip_tcp_client.cpp] and the part of [tundev.cpp] that makes sessions, in one
    world: a session and its lwIP client under one address, the device, and the
    operations in progress as data.  A member function of [TUNSession] or its
    classes is [ts_...], one of [lwip_tcp_client] is [tc_...], one of [TUNDev] is
    [td_...]. lwIP is a submodule that is not in the tree: what it answers is a
    parameter, and its callbacks are events. *)

From Stdlib Require Import ZArith Lia.
From S2P Require Import Prelude Utils Address Trojan UdpPacket PipelineProto Caches ReadCache PipelineComponent Session.
From S2P Require Import ClientSide IpMatcher TunPacket.
Import Streambuf ReadBuf Stat PipelineComponent.
Local Open Scope Z_scope.
Local Open Scope handler_scope.

#[export] Existing Instance SendDataCache.eta_cache.
#[export] Existing Instance ReadDataCache.eta_cache.

(** ** What the local UDP sessions ask of their forwarder

    [UDPLocalForwarder]; its calls back are events. *)
Class Forwarders (P : Type) := {
  fw_new : endpoint -> endpoint -> M P nat;            (* constructor and [start] *)
  fw_process : nat -> endpoint -> bytes -> M P bool;
  fw_destroyed : P -> nat -> bool;
  fw_destroy : nat -> M P unit
}.

(** ** Data *)

(** The [SentHandler]s: of [client_recv_func], of [start], and one that does nothing *)
Inductive thandler := HSend (length : Z) | HFirst | HIdle.
#[export] Instance thandler_eq_dec : EqDecision thandler.
Proof. solve_decision. Defined.

Record TUNSession := mkTunSession {
  ts_proxy : bool;                      (* TUNProxySession, or TUNLocalSession *)
  ts_com : PipelineComponent;
  ts_timer : UdpTimer.timer;
  ts_stat : bytes_stat;
  m_sending_data_cache : @SendDataCache.cache thandler;
  m_local_addr : endpoint;
  m_remote_addr : endpoint;
  m_local_addr_udp : endpoint;
  m_remote_addr_udp : endpoint;
  m_recv_buf : ReadBufWithGuard;
  m_recv_buf_ack_length : Z;
  m_destroyed : bool;
  m_close_cb : bool;
  m_close_from_tundev_flag : bool;
  m_connected : bool;
  m_send_buf : bytes;
  m_wait_ack_handler : list thandler;
  m_wait_connected_handler : list thandler;
  m_read_ack_count : Z;
  ts_out_open : bool;
  m_udp_forwarder : option nat
}.
#[export] Instance eta_TUNSession : Settable TUNSession :=
  fun r => mkTunSession (ts_proxy r) (ts_com r) (ts_timer r) (ts_stat r) (m_sending_data_cache r)
    (m_local_addr r) (m_remote_addr r) (m_local_addr_udp r) (m_remote_addr_udp r) (m_recv_buf r)
    (m_recv_buf_ack_length r) (m_destroyed r) (m_close_cb r) (m_close_from_tundev_flag r) (m_connected r)
    (m_send_buf r) (m_wait_ack_handler r) (m_wait_connected_handler r) (m_read_ack_count r) (ts_out_open r)
    (m_udp_forwarder r).

Record lwip_tcp_client := mkTcpClient {
  m_pcb : bool;                         (* not [nullptr] *)
  m_closed : bool;
  m_aborted : bool;
  m_recved_len : Z;
  m_output_len : Z;
  m_sending_len : Z;
  m_sent_len : Z
}.
#[export] Instance eta_TcpClient : Settable lwip_tcp_client :=
  fun r => mkTcpClient (m_pcb r) (m_closed r) (m_aborted r) (m_recved_len r) (m_output_len r) (m_sending_len r)
    (m_sent_len r).
Definition new_client : lwip_tcp_client := mkTcpClient true false false 0 0 0 0.

(** A session and its lwIP client, until that is freed; a UDP session has none. *)
Record TunObj := mkTunObj { to_session : TUNSession; to_client : option lwip_tcp_client }.
#[export] Instance eta_TunObj : Settable TunObj := fun r => mkTunObj (to_session r) (to_client r).

Inductive top :=
| TResolve (this : nat) | TConnect (this : nat) | TConnectTimer (this : nat) | TSslHandshake (this : nat)
| TRead (this : nat)
| TWrite (this : nat)
| TDataSent (this : nat) (h : thandler) (length : Z)     (* a DATA command is in the pipeline *)
| TAckSent (this : nat)
| TStarted (this : nat)                                  (* the handler of start_session *)
| TTimer (this : nat) (timeout : Z)
| TDevRead.

#[export] Instance top_eq_dec : EqDecision top.
Proof. solve_decision. Defined.
#[export] Instance tcp_client_eq_dec : EqDecision lwip_tcp_client.
Proof. solve_decision. Defined.

Inductive tcompletion :=
| TDone (ec : error_code)
| TReceived (ec : error_code) (data : bytes)
| TWrote (ec : error_code) (length : Z)
| TResolved (ec : error_code) (results : list endpoint).

Inductive teffect :=
| LwipIn (this : nat) (data : bytes)           (* taken by client_recv_func *)
| LwipOut (this : nat) (data : bytes)          (* tcp_write *)
| LwipRecved (this : nat) (length : Z)         (* tcp_recved *)
| LwipAbort (this : nat) | LwipClose (this : nat)
| Remote (this : nat) (data : bytes)           (* read from the session's own socket *)
| ToRemote (this : nat) (data : bytes)         (* async_write on it *)
| UdpIn (this : nat) (data : bytes)            (* a datagram for the session *)
| TConnectTo (this : nat) (addr port : bytes)
| TToPipe (this : nat) (cmd : PipelineRequest.Command) (data : bytes) (ack_count : Z)
| TPipeClose (this : nat)                      (* session_destroy_in_pipeline *)
| LwipPacket (data : bytes)                    (* a packet for the network interface *)
| DnsQuery (from : endpoint) (data : bytes).

(** ** Routes *)

(** [Config::RouteType] by its numbers *)
Definition route_all : Z := 0.
Definition route_bypass_local : Z := 1.
Definition route_bypass_cn_mainland : Z := 2.
Definition route_bypass_local_and_cn_mainland : Z := 3.
Definition route_gfwlist : Z := 4.
Definition route_cn_mainland : Z := 5.
Record RouteConfig := mkRoute {
  proxy_type : Z;
  proxy_ips_matcher : IPv4Matcher.matcher;
  white_ips_matcher : IPv4Matcher.matcher;
  cn_mainland_ips_matcher : IPv4Matcher.matcher
}.

(** [gfw]: the answer of [DNSServer::is_ip_in_gfwlist] *)
Definition proxy_by_route (route : RouteConfig) (gfw : bool) (ip : Z) : outcome bool :=
  let! proxy := IPv4Matcher.is_match (proxy_ips_matcher route) ip in
  if proxy : bool then Ret true else
  let! white := IPv4Matcher.is_match (white_ips_matcher route) ip in
  if white : bool then Ret false else
  let t := proxy_type route in
  if (t =? route_all) || (t =? route_bypass_local) then Ret true
  else if (t =? route_bypass_cn_mainland) || (t =? route_bypass_local_and_cn_mainland) then
    let! cn := IPv4Matcher.is_match (cn_mainland_ips_matcher route) ip in Ret (negb cn)
  else if t =? route_gfwlist then Ret gfw
  else if t =? route_cn_mainland then IPv4Matcher.is_match (cn_mainland_ips_matcher route) ip
  else Throw (logic_error "[dns] error proxy type").

Section World.
Context {P : Type} {FW : Forwarders P}.

Record tworld := mkTWorld {
  t_objs : gmap nat TunObj;
  t_next : nat;
  m_tcp_clients : list nat;
  m_udp_clients : list nat;
  t_out : TunOut;
  m_packet_parse_buff : bytes;
  t_ids : PipelineComponent.ids;
  t_fwd : P;
  t_pending : list top;
  t_trace : list teffect;
  t_now : Z;
  t_calls : nat
}.
#[export] Instance eta_tworld : Settable tworld :=
  fun r => mkTWorld (t_objs r) (t_next r) (m_tcp_clients r) (m_udp_clients r) (t_out r) (m_packet_parse_buff r)
    (t_ids r) (t_fwd r) (t_pending r) (t_trace r) (t_now r) (t_calls r).

Definition TM := M tworld.

(** A session that is gone, or a client that was freed, is not there. *)
Definition getO (this : nat) : TM TunObj :=
  fun w => match t_objs w !! this with Some o => Ret (o, w) | None => Undef NoObject end.
Definition modO (this : nat) (f : TunObj -> TunObj) : TM unit :=
  modify (fun w => w <| t_objs ::= alter f this |>).
Definition getT (this : nat) : TM TUNSession := o <- getO this ;; ret (to_session o).
Definition modT (this : nat) (f : TUNSession -> TUNSession) : TM unit := modO this (fun o => o <| to_session ::= f |>).
Definition getK (this : nat) : TM lwip_tcp_client :=
  o <- getO this ;;
  match to_client o with Some k => ret k | None => fun _ => Undef NoObject end.
Definition modK (this : nat) (f : lwip_tcp_client -> lwip_tcp_client) : TM unit :=
  modO this (fun o => o <| to_client ::= option_map f |>).
Definition t_start_op (o : top) : TM unit := modify (fun w => w <| t_pending ::= fun l => l ++ [o] |>).
Definition t_emit (e : teffect) : TM unit := modify (fun w => w <| t_trace ::= fun l => l ++ [e] |>).
Definition t_ask {A} (answers : nat -> A) : TM A := fun w => Ret (answers (t_calls w), w <| t_calls ::= S |>).
Definition on_out (f : TunOut -> outcome TunOut) : TM unit :=
  fun w => match f (t_out w) with
           | Ret t => Ret (tt, w <| t_out := t |>)
           | Throw e => Throw e
           | Undef u => Undef u
           end.
Definition on_fwd {A} (m : M P A) : TM A :=
  fun w => match m (t_fwd w) with
           | Ret (a, p) => Ret (a, w <| t_fwd := p |>)
           | Throw e => Throw e
           | Undef u => Undef u
           end.
Fixpoint t_for_each {A} (f : A -> TM unit) (l : list A) : TM unit :=
  match l with
  | [] => skip
  | x :: l => f x ;;; t_for_each f l
  end.

Definition is_udp (s : TUNSession) : bool := UdpTimer.is_udp_forward (ts_timer s).

Section Operations.
(** The configuration: whether sessions go through pipelines, whether targets are
    redirected to this host, the size of lwIP's window ([send_buf]), the MTU.
    From outside the sources: the answers of lwIP ([tcp_sndbuf], [tcp_write],
    [tcp_output], [tcp_close]), of the device, of socket calls and of the timer's
    [cancel], whether a pipeline still has the session, badvpn's checksums. *)
Context (cfg : Config) (pipelined redirect_local : bool) (tcp_wnd m_mtu : Z).
Context (tcp_sndbuf : nat -> Z) (tcp_write tcp_output tcp_close : nat -> Z).
Context (write_some : nat -> bytes -> error_code * Z).
Context (ipv4_checksum : bytes -> byte * byte) (udp_checksum : bytes -> bytes -> bytes -> bytes -> byte * byte).
Context (in_pipeline : nat -> bool) (system_ec cancel_ec : nat -> error_code).

Definition ERR_OK : Z := 0.
Definition ERR_MEM : Z := -1.
Definition ERR_ABRT : Z := -13.

(** The constructors, with the id a proxy session was allocated *)
Definition new_TUNSession (proxy udp : bool) (id : Z) : TUNSession :=
  mkTunSession proxy (set_session_id id (new_component (pipeline_ack_window cfg)))
    (UdpTimer.set_udp_forward_session udp UdpTimer.new_timer) new_stat (SendDataCache.new_cache false)
    default_endpoint default_endpoint default_endpoint default_endpoint new_read_buf 0 false true false false []
    [] [] 0 false None.

(** ** lwip_tcp_client: closing *)

(** [destroy] is the session's. *)
Definition tc_close_session_ (destroy : TM unit) (this : nat) : TM unit :=
  k <- getK this ;;
  if m_closed k || m_aborted k then skip else
  modK this (fun k => k <| m_closed := true |>) ;;;
  s <- getT this ;;
  when (negb (m_destroyed s)) destroy.

(** The callback of [TUNDev] takes the client from [m_tcp_clients], whose pointer
    was the last one: the client is freed. *)
Definition tc_release_client (this : nat) (owner_call : bool) : TM unit :=
  k <- getK this ;;
  when (m_pcb k)
    (modK this (fun k => k <| m_pcb := false |>) ;;;
     w <- gets id ;;
     when (negb owner_call && bool_decide (this ∈ m_tcp_clients w))
       (modify (fun w => w <| m_tcp_clients ::= list_erase this |>) ;;;
        modO this (fun o => o <| to_client := None |>))).

Definition tc_close_client_ (destroy : TM unit) (this : nat) (abort owner_call : bool) : TM unit :=
  k <- getK this ;;
  if m_closed k || m_aborted k then skip else
  tc_close_session_ destroy this ;;;
  (if abort then modK this (fun k => k <| m_aborted := true |>) ;;; t_emit (LwipAbort this)
   else
     err <- t_ask tcp_close ;;
     t_emit (LwipClose this) ;;;
     when (negb (err =? ERR_OK)) (modK this (fun k => k <| m_aborted := true |>) ;;; t_emit (LwipAbort this))) ;;;
  tc_release_client this owner_call.

(** A session that is already destroyed is not destroyed again. *)
Definition t_nested : TM unit := fun _ => Undef NoEnd.

(** The close callback of a TCP session *)
Definition tc_session_closed (this : nat) : TM unit :=
  s <- getT this ;;
  when (m_recv_buf_ack_length s =? 0) (tc_close_client_ t_nested this false false).

(** ** TUNSession: the end *)

(** A handler called with [broken_pipe] by a destroyed session *)
Definition t_call_broken (this : nat) (h : thandler) : TM unit :=
  match h with
  | HSend _ => tc_close_client_ t_nested this true false
  | HFirst | HIdle => skip
  end.

Definition ts_mod_cache (this : nat) (f : @SendDataCache.cache thandler -> @SendDataCache.cache thandler) : TM unit :=
  modT this (fun s => s <| m_sending_data_cache ::= f |>).

Definition ts_cache_destroy (this : nat) : TM unit :=
  let call h := ts_mod_cache this (SendDataCache.emit (SendDataCache.Called h broken_pipe)) ;;;
                t_call_broken this h in
  s <- getT this ;;
  if SendDataCache.destroyed (m_sending_data_cache s) then skip else
  ts_mod_cache this (fun c => c <| SendDataCache.destroyed := true |>) ;;;
  s <- getT this ;;
  t_for_each call (SendDataCache.handler_queue_other (m_sending_data_cache s)) ;;;
  ts_mod_cache this (fun c => c <| SendDataCache.handler_queue_other := [] |>) ;;;
  s <- getT this ;;
  t_for_each call (SendDataCache.handler_queue (m_sending_data_cache s)) ;;;
  ts_mod_cache this (fun c => c <| SendDataCache.handler_queue := [] |>).

(** What a local session closes: its forwarder and its socket *)
Definition ts_close_local (this : nat) (s : TUNSession) : TM unit :=
  match m_udp_forwarder s with
  | Some f => w <- gets id ;; when (negb (fw_destroyed (t_fwd w) f)) (on_fwd (fw_destroy f))
  | None => skip
  end ;;;
  modT this (fun s => s <| ts_out_open := false |>).

(** Both [destroy]s *)
Definition ts_destroy (this : nat) (pipeline_call : bool) : TM unit :=
  s <- getT this ;;
  if m_destroyed s then skip else
  modT this (fun s => s <| m_destroyed := true |>) ;;;
  ts_cache_destroy this ;;;
  modT this (fun s => s <| m_wait_ack_handler := [] |>) ;;;
  (if ts_proxy s then
     modT this (fun s => s <| ts_out_open := false |>) ;;;
     when (negb pipeline_call && pipelined) (t_emit (TPipeClose this))
   else ts_close_local this s) ;;;
  s <- getT this ;;
  when (negb (m_close_from_tundev_flag s) && m_close_cb s)
    ((if is_udp s then modify (fun w => w <| m_udp_clients ::= list_erase this |>)
      else tc_session_closed this) ;;;
     modT this (fun s => s <| m_close_cb := false |>)).

Definition tc_close_session (this : nat) : TM unit := tc_close_session_ (ts_destroy this false) this.
Definition tc_close_client (this : nat) (abort owner_call : bool) : TM unit :=
  tc_close_client_ (ts_destroy this false) this abort owner_call.

(** ** The UDP timer *)
Definition ts_timer_act (this : nat) (r : UdpTimer.timer * UdpTimer.action) : TM unit :=
  modT this (fun s => s <| ts_timer := fst r |>) ;;;
  match snd r with
  | UdpTimer.NoAct => skip
  | UdpTimer.Arm n => t_start_op (TTimer this n)
  | UdpTimer.Expire => ts_destroy this false
  end.
Definition ts_udp_timer_async_wait (this : nat) : TM unit :=
  s <- getT this ;; curr <- gets t_now ;; ec <- t_ask cancel_ec ;;
  ts_timer_act this (UdpTimer.udp_timer_async_wait curr (udp_timeout cfg) ec (-1) (ts_timer s)).
Definition ts_udp_timer_fired (this : nat) (timeout : Z) (error : error_code) : TM unit :=
  s <- getT this ;; curr <- gets t_now ;; ec <- t_ask cancel_ec ;;
  ts_timer_act this (UdpTimer.udp_timer_fired curr (udp_timeout cfg) ec timeout error (ts_timer s)).

(** ** TCP: from the session to lwIP *)

(** The read of the session's own socket *)
Definition ts_start_read (this : nat) : TM unit :=
  s <- getT this ;;
  r <- lift (begin_read (m_recv_buf s)) ;;
  modT this (fun s => s <| m_recv_buf := r |>) ;;;
  t_start_op (TRead this).

(** [try_out_async_read]; [again] is [out_async_read]. *)
Definition ts_try_out_async_read_ (again : TM unit) (this : nat) : TM unit :=
  s <- getT this ;;
  if m_destroyed s then skip else
  if pipelined && negb (is_udp s) then
    (ok <- t_ask in_pipeline ;;
     if ok : bool then t_emit (TToPipe this PipelineRequest.ACK [] (m_read_ack_count s)) ;;; t_start_op (TAckSent this)
     else ts_destroy this false) ;;;
    modT this (fun s => s <| m_read_ack_count := 0 |>)
  else again.

Definition ts_recv_buf_consume (this : nat) (length : Z) : TM unit :=
  modT this (fun s => s <| m_recv_buf ::= fun r => r <| read_buf ::= fun b => consume b length |> |>) ;;;
  s <- getT this ;;
  when (zlen (read_buf (m_recv_buf s)) =? 0)
    (if ts_proxy s then ts_try_out_async_read_ (ts_start_read this) this else ts_start_read this).

(** The result says whether the session was destroyed. *)
Definition ts_recv_buf_ack_sent (this : nat) (length : Z) : TM bool :=
  modT this (fun s => s <| m_recv_buf_ack_length ::= fun n => u64 (n - length) |>) ;;;
  s <- getT this ;;
  if ts_proxy s && (pipelined && (m_recv_buf_ack_length s <=? 0)) then
    if m_write_close_future (ts_com s) then ts_destroy this false ;;; ret true
    else modT this (fun s => s <| ts_com ::= set_async_writing_data false |>) ;;; ret false
  else ret false.

(** The loop of [client_socks_recv_send_out]: what is written of [data], or [None]
    when [tcp_write] failed. *)
Fixpoint tc_write_loop (fuel : nat) (this : nat) (data : bytes) (wrote : Z) : TM (option Z) :=
  match fuel with
  | O => fun _ => Undef NoEnd
  | S fuel =>
    n <- t_ask tcp_sndbuf ;;
    let to_write := Z.min (zlen data - wrote) (u16 n) in
    if to_write =? 0 then ret (Some wrote) else
    err <- t_ask tcp_write ;;
    if negb (err =? ERR_OK) then if err =? ERR_MEM then ret (Some wrote) else ret None
    else
      t_emit (LwipOut this (sub_ data wrote (u16 to_write))) ;;;
      if 0 <? zlen data - (wrote + to_write) then tc_write_loop fuel this data (wrote + to_write)
      else ret (Some (wrote + to_write))
  end.

Definition tc_client_socks_recv_send_out (this : nat) : TM Z :=
  k <- getK this ;;
  if m_aborted k then ret (-1) else
  if m_closed k then ret 0 else
  s <- getT this ;;
  let data := read_buf (m_recv_buf s) in
  if zlen data =? 0 then ret 0 else
  wrote <- tc_write_loop (S (length data)) this data 0 ;;
  match wrote with
  | None => tc_close_client this true false ;;; ret (-1)
  | Some wrote_size =>
    err <- t_ask tcp_output ;;
    if negb (err =? ERR_OK) then tc_close_client this true false ;;; ret (-1) else
    modK this (fun k => k <| m_output_len ::= fun n => u64 (n + wrote_size) |>) ;;;
    ts_recv_buf_consume this (u16 wrote_size) ;;;
    ret 0
  end.

(** [m_write_to_lwip(this, nullptr)] and what follows it *)
Definition ts_write_tcp (this : nat) : TM unit :=
  r <- tc_client_socks_recv_send_out this ;;
  when (r <? 0) (ts_destroy this false).

(** ** UDP: from the session to the device *)

(** [m_write_to_lwip(this, &data)]: [handle_write_upd_data], which returns 0 *)
Definition td_write_udp (local remote : endpoint) (data : bytes) : TM unit :=
  on_out (handle_write_upd_data m_mtu write_some ipv4_checksum udp_checksum (S (length data)) local remote data).
Definition ts_write_udp (this : nat) (data : bytes) : TM unit :=
  s <- getT this ;; td_write_udp (m_local_addr_udp s) (m_remote_addr_udp s) data.

(** The loop of [parse_udp_packet_data]: how many octets were parsed.  Every
    packet has at least one octet. *)
Fixpoint ts_parse_udp_packet_data (fuel : nat) (this : nat) (data : bytes) (parsed_size : Z) : TM Z :=
  match fuel with
  | O => fun _ => Undef NoEnd
  | S fuel =>
    if zlen data =? 0 then ret parsed_size else
    parsed <- lift (UDPPacket.parse data) ;;
    match parsed with
    | None => when (65535 <? zlen data) (ts_destroy this false) ;;; ret parsed_size
    | Some (packet, packet_len) =>
      ts_write_udp this (UDPPacket.payload packet) ;;;
      rest <- lift (substr_from data packet_len) ;;
      ts_parse_udp_packet_data fuel this rest (parsed_size + packet_len)
    end
  end.

(** What the reader of a UDP session does, through a pipeline or not *)
Definition ts_udp_recv (this : nat) (data : bytes) : TM unit :=
  parsed <- ts_parse_udp_packet_data (S (length data)) this data 0 ;;
  modT this (fun s => s <| m_recv_buf ::= fun r => r <| read_buf ::= fun b => consume b parsed |> |>).

(** ** TUNProxySession::out_async_read *)

(** The reader given to [ReadDataCache::async_read] *)
Definition ts_pipe_recv_ (again : TM unit) (this : nat) (data : bytes) (ack_count : Z) : TM unit :=
  modT this (fun s => s <| ts_stat ::= fun st => inc_recv_len st (zlen data) |>) ;;;
  s <- getT this ;;
  if is_udp s then
    ts_udp_timer_async_wait this ;;;
    s <- getT this ;;
    (if zlen (read_buf (m_recv_buf s)) =? 0 then
       parsed <- ts_parse_udp_packet_data (S (length data)) this data 0 ;;
       if parsed <? zlen data then
         rest <- lift (substr_from data parsed) ;;
         modT this (fun s => s <| m_recv_buf ::= fun r => r <| read_buf ::= fun b => fst (append_view b rest) |> |>)
       else skip
     else
       modT this (fun s => s <| m_recv_buf ::= fun r => r <| read_buf ::= fun b => fst (append_view b data) |> |>) ;;;
       s <- getT this ;;
       ts_udp_recv this (read_buf (m_recv_buf s))) ;;;
    ts_try_out_async_read_ again this
  else
    modT this (fun s => s <| m_read_ack_count ::= fun n => u64 (n + ack_count) |>) ;;;
    modT this (fun s => s <| m_recv_buf ::= fun r => r <| read_buf ::= fun b => fst (append_view b data) |> |>) ;;;
    modT this (fun s => s <| m_recv_buf_ack_length ::= fun n => u64 (n + zlen data) |>) ;;;
    modT this (fun s => s <| ts_com ::= set_async_writing_data true |>) ;;;
    ts_write_tcp this.

Definition ts_put_data_cache (this : nat) (f : ReadDataCache.cache -> ReadDataCache.cache) : TM unit :=
  modT this (fun s => s <| ts_com ::= fun c => c <| pipeline_data_cache ::= f |> |>).

(** [depth] bounds how often the reader reads again before it returns. *)
Fixpoint ts_out_async_read (depth : nat) (this : nat) : TM unit :=
  match depth with
  | O => fun _ => Undef NoEnd
  | S depth =>
    s <- getT this ;;
    if ts_proxy s && pipelined then
      match ReadDataCache.async_read_begin (pipeline_data_cache (ts_com s)) with
      | (cache, None) => ts_put_data_cache this (fun _ => cache)
      | (_, Some (data, ack_count)) =>
        ts_pipe_recv_ (ts_out_async_read depth this) this data ack_count ;;;
        ts_put_data_cache this ReadDataCache.async_read_end
      end
    else if negb (ts_proxy s) && is_udp s then skip
    else ts_start_read this
  end.

Section Depth.
Context (depth : nat).

(** ** The handlers of what was sent *)

(** The handler of [client_recv_func] *)
Definition tc_sent (this : nat) (ec : error_code) (length : Z) : TM unit :=
  if negb (ec =? 0) then tc_close_client this true false
  else
    k <- getK this ;;
    when (negb (m_closed k))
      (t_emit (LwipRecved this length) ;;; modK this (fun k => k <| m_sent_len ::= fun n => u64 (n + length) |>)).

(** Those that wait for the connection *)
Definition t_call_waiting (this : nat) (h : thandler) : TM unit :=
  match h with HSend length => tc_sent this 0 length | HFirst | HIdle => skip end.

Definition t_call (this : nat) (ec : error_code) (h : thandler) : TM unit :=
  match h with
  | HSend length => tc_sent this ec length
  | HFirst =>
    if negb (ec =? 0) then ts_destroy this false else
    s <- getT this ;;
    t_for_each (t_call_waiting this) (m_wait_connected_handler s) ;;;
    modT this (fun s => s <| m_wait_connected_handler := [] |>) ;;;
    ts_out_async_read depth this
  | HIdle => skip
  end.

(** ** The cache in front of the session's own socket *)

Definition ts_put_cache (this : nat) (c c' : @SendDataCache.cache thandler) : TM unit :=
  modT this (fun s => s <| m_sending_data_cache := c' |>) ;;;
  when (negb (SendDataCache.is_async_sending c) && SendDataCache.is_async_sending c')
    (match SendDataCache.flight c' with
     | Some sending => t_emit (ToRemote this (SendDataCache.queue_at sending c'))
     | None => skip
     end ;;;
     t_start_op (TWrite this)).

Definition ts_push (this : nat) (data : bytes) (h : thandler) : TM unit :=
  s <- getT this ;;
  let c := m_sending_data_cache s in
  ts_put_cache this c (SendDataCache.push_data data h c) ;;;
  when (SendDataCache.destroyed c) (t_call_broken this h).

(** The handler of [async_write]: the session's, then the cache's *)
Definition ts_write_done (this : nat) (ec : error_code) (length : Z) : TM unit :=
  ts_udp_timer_async_wait this ;;;
  when (negb (ec =? 0)) (ts_destroy this false) ;;;
  modT this (fun s => s <| ts_stat ::= fun st => inc_sent_len st length |>) ;;;
  s <- getT this ;;
  match SendDataCache.flight (m_sending_data_cache s) with
  | None => skip
  | Some sending =>
    t_for_each (fun h => ts_mod_cache this (SendDataCache.emit (SendDataCache.Called h ec)) ;;; t_call this ec h)
      (SendDataCache.handlers_at sending (m_sending_data_cache s)) ;;;
    ts_mod_cache this (fun c =>
      let c := SendDataCache.set_handlers sending [] c in
      let c := SendDataCache.set_queue sending (consume_all (SendDataCache.queue_at sending c)) c in
      c <| SendDataCache.is_async_sending := false |> <| SendDataCache.flight := None |>) ;;;
    when (ec =? 0)
      (s <- getT this ;;
       ts_put_cache this (m_sending_data_cache s) (SendDataCache.async_send (m_sending_data_cache s)))
  end.

(** ** Sending *)

(** The handler of a DATA command *)
Definition ts_data_sent (this : nat) (h : thandler) (length : Z) (ec : error_code) : TM unit :=
  ts_udp_timer_async_wait this ;;;
  if negb (ec =? 0) then ts_destroy this false ;;; t_call this ec h
  else
    modT this (fun s => s <| ts_stat ::= fun st => inc_sent_len st length |>) ;;;
    s <- getT this ;;
    if negb (is_udp s) then
      let '(com, permitted) := pre_call_ack_func (ts_com s) in
      modT this (fun s => s <| ts_com := com |>) ;;;
      if permitted : bool then t_call this ec h
      else modT this (fun s => s <| m_wait_ack_handler ::= fun l => l ++ [h] |>)
    else t_call this ec h.

Definition ts_forward (this f : nat) (local : endpoint) (data : bytes) : TM bool :=
  ok <- on_fwd (fw_process f local data) ;;
  w <- gets id ;;
  when (fw_destroyed (t_fwd w) f) (ts_destroy this false) ;;;
  ret ok.

(** [TUNLocalSession::out_async_send_impl] *)
Definition ts_local_send_impl (this : nat) (s : TUNSession) (data : bytes) (h : thandler) : TM unit :=
  if is_udp s then
    match m_udp_forwarder s with
    | None => fun _ => Undef NoObject
    | Some f =>
      ok <- ts_forward this f (m_local_addr_udp s) data ;;
      t_call this (if ok : bool then 0 else broken_pipe) h
    end
  else ts_push this data h.

(** [TUNProxySession]'s, or that *)
Definition ts_out_async_send_impl (this : nat) (data : bytes) (h : thandler) : TM unit :=
  s <- getT this ;;
  if ts_proxy s then
    if pipelined then
      ok <- t_ask in_pipeline ;;
      if ok : bool then t_emit (TToPipe this PipelineRequest.DATA data 0) ;;; t_start_op (TDataSent this h (zlen data))
      else ts_data_sent this h (zlen data) broken_pipe
    else ts_push this data h
  else ts_local_send_impl this s data h.

(** [get_redirect_local_remote_addr] *)
Definition localhost : address := V4 Byte.x7f Byte.x00 Byte.x00 Byte.x01.
Definition ts_udp_target (s : TUNSession) : endpoint :=
  if redirect_local then mkEndpoint localhost (ep_port (m_remote_addr_udp s)) else m_remote_addr_udp s.

Definition ts_out_async_send (this : nat) (data : bytes) (h : thandler) : TM unit :=
  s <- getT this ;;
  if negb (ts_proxy s) && m_destroyed s then t_call this broken_pipe h
  else if negb (m_connected s) then
    if zlen (m_send_buf s) <? 65535 then
      modT this (fun s => s <| m_send_buf ::= fun b =>
        if ts_proxy s && is_udp s then UDPPacket.generate_endpoint b (ts_udp_target s) data
        else fst (append_view b data) |>) ;;;
      modT this (fun s => s <| m_wait_connected_handler ::= fun l => l ++ [h] |>)
    else ts_destroy this false
  else if ts_proxy s && is_udp s then
    modT this (fun s => s <| m_send_buf ::= consume_all |>) ;;;
    modT this (fun s => s <| m_send_buf ::= fun b => UDPPacket.generate_endpoint b (ts_udp_target s) data |>) ;;;
    s <- getT this ;;
    ts_out_async_send_impl this (to_view (m_send_buf s)) h
  else ts_out_async_send_impl this data h.

(** [recv_ack_cmd]: the handlers that waited for an acknowledgement *)
Fixpoint ts_ack_loop (this : nat) (ack_count : nat) : TM unit :=
  match ack_count with
  | O => skip
  | S ack_count =>
    s <- getT this ;;
    match m_wait_ack_handler s with
    | [] => skip
    | h :: _ =>
      t_call this 0 h ;;;
      modT this (fun s => s <| m_wait_ack_handler ::= @tail thandler |>) ;;;
      ts_ack_loop this ack_count
    end
  end.
Definition ts_recv_ack_cmd (this : nat) (ack_count : Z) : TM unit :=
  modT this (fun s => s <| ts_com ::= recv_ack_cmd ack_count |>) ;;;
  ts_ack_loop this (Z.to_nat ack_count).

(** ** Starting *)

Definition v4_text (e : endpoint) : bytes :=
  match ep_address e with V4 a b c d => v4_to_string a b c d | V6 _ => [] end.
Definition LOCALHOST_IP_ADDRESS : bytes := str "127.0.0.1".

(** [insert_pwd] *)
Definition ts_request (s : TUNSession) (pw : bytes) : bytes :=
  if is_udp s then
    TrojanRequest.generate pw (if redirect_local then LOCALHOST_IP_ADDRESS else v4_text (m_remote_addr_udp s))
      (ep_port (m_remote_addr_udp s)) false
  else
    TrojanRequest.generate pw (if redirect_local then LOCALHOST_IP_ADDRESS else v4_text (m_remote_addr s))
      (ep_port (m_remote_addr s)) true.

Definition ts_set_connected (this : nat) : TM unit :=
  modT this (fun s => s <| m_connected := true |>) ;;;
  ts_mod_cache this SendDataCache.connect.

(** The connected handler of [TUNProxySession::start] *)
Definition ts_proxy_ready (this : nat) : TM unit :=
  ts_set_connected this ;;;
  s <- getT this ;;
  match Session.password cfg with
  | [] => fun _ => Undef EmptyContainer
  | (pw, _) :: _ =>
    modT this (fun s => s <| m_send_buf ::= fun b =>
      if 0 <? zlen b then
        let tmp_buf := fst (append_buf [] b) in
        let b := consume_all b in
        let b := fst (append_string b (ts_request s pw)) in
        fst (append_buf b tmp_buf)
      else fst (append_string b (ts_request s pw)) |>) ;;;
    s <- getT this ;;
    ts_out_async_send_impl this (to_view (m_send_buf s)) HFirst ;;;
    modT this (fun s => s <| m_send_buf ::= consume_all |>)
  end.

(** The connected handler of [TUNLocalSession::start] *)
Definition ts_local_ready (this : nat) : TM unit :=
  ts_set_connected this ;;;
  s <- getT this ;;
  if negb (zlen (m_send_buf s) =? 0) then ts_out_async_send_impl this (to_view (m_send_buf s)) HFirst
  else ts_out_async_read depth this.

(** [TUNLocalSession::start] *)
Definition ts_local_start (this : nat) (s : TUNSession) : TM unit :=
  if is_udp s then
    f <- on_fwd (fw_new (m_local_addr_udp s) (ts_udp_target s)) ;;
    modT this (fun s => s <| m_udp_forwarder := Some f |>) ;;;
    w <- gets id ;;
    when (fw_destroyed (t_fwd w) f) (ts_destroy this false) ;;;
    if negb (zlen (m_send_buf s) =? 0) then
      ok <- ts_forward this f (m_local_addr_udp s) (to_view (m_send_buf s)) ;;
      when ok (modT this (fun s => s <| m_connected := true |>))
    else
      w <- gets id ;;
      when (negb (fw_destroyed (t_fwd w) f)) (modT this (fun s => s <| m_connected := true |>))
  else
    t_emit (TConnectTo this (if redirect_local then LOCALHOST_IP_ADDRESS else v4_text (m_remote_addr s))
      (Text.to_string (ep_port (m_remote_addr s)))) ;;;
    t_start_op (TResolve this).

(** [TUNProxySession::start], or that *)
Definition ts_start (this : nat) : TM unit :=
  s <- getT this ;;
  if ts_proxy s then
    ts_udp_timer_async_wait this ;;;
    if pipelined then ts_proxy_ready this
    else
      t_emit (TConnectTo this (remote_addr cfg) (Text.to_string (remote_port cfg))) ;;;
      t_start_op (TResolve this)
  else ts_local_start this s.

(** [connect_out_socket] and [connect_remote_server_ssl] *)
Definition ts_resolve_done (this : nat) (error : error_code) (results : list endpoint) : TM unit :=
  match results with
  | [] => ts_destroy this false
  | _ :: _ =>
    if negb (error =? 0) then ts_destroy this false else
    ec <- t_ask system_ec ;;
    if negb (ec =? 0) then ts_destroy this false else
    modT this (fun s => s <| ts_out_open := true |>) ;;;
    when (0 <? connect_time_out cfg) (t_start_op (TConnectTimer this)) ;;;
    t_start_op (TConnect this)
  end.
Definition ts_connect_done (this : nat) (error : error_code) : TM unit :=
  if negb (error =? 0) then ts_destroy this false else
  s <- getT this ;;
  if ts_proxy s then t_start_op (TSslHandshake this) else ts_local_ready this.
Definition ts_ssl_done (this : nat) (error : error_code) : TM unit :=
  if negb (error =? 0) then ts_destroy this false else ts_proxy_ready this.

(** The handler of [async_read_some] *)
Definition ts_read_done (this : nat) (error : error_code) (data : bytes) : TM unit :=
  modT this (fun s => s <| m_recv_buf ::= end_read |>) ;;;
  if negb (error =? 0) then ts_destroy this false else
  t_emit (Remote this data) ;;;
  modT this (fun s => s <| m_recv_buf ::= fun r => rb_commit r data |>) ;;;
  modT this (fun s => s <| ts_stat ::= fun st => inc_recv_len st (zlen data) |>) ;;;
  s <- getT this ;;
  if ts_proxy s && is_udp s then
    ts_udp_timer_async_wait this ;;;
    s <- getT this ;;
    ts_udp_recv this (read_buf (m_recv_buf s)) ;;;
    ts_try_out_async_read_ (ts_out_async_read depth this) this
  else
    modT this (fun s => s <| m_recv_buf_ack_length ::= fun n => u64 (n + zlen data) |>) ;;;
    ts_write_tcp this.

(** The handler of an ACK command *)
Definition ts_ack_sent (this : nat) (ec : error_code) : TM unit :=
  if negb (ec =? 0) then ts_destroy this false else ts_out_async_read depth this.

(** ** lwip_tcp_client: the callbacks of lwIP *)

(** [p] is [nullptr] or the octets of the chain. *)
Definition tc_client_recv_func (this : nat) (p : option bytes) (err : Z) : TM Z :=
  k <- getK this ;;
  if m_aborted k then ret ERR_ABRT else
  match p with
  | None => tc_close_client this false false ;;; ret ERR_OK
  | Some data =>
    if negb (err =? ERR_OK) then tc_close_client this false false ;;; ret ERR_OK else
    s <- getT this ;;
    if m_destroyed s then tc_close_client this true false ;;; ret ERR_ABRT else
    if tcp_wnd <? zlen data then ret ERR_MEM else
    t_emit (LwipIn this data) ;;;
    modK this (fun k => k <| m_sending_len ::= fun n => u64 (n + zlen data) |>) ;;;
    ts_out_async_send this data (HSend (zlen data)) ;;;
    ret ERR_OK
  end.

Definition tc_client_sent_func (this : nat) (len : Z) : TM Z :=
  k <- getK this ;;
  if m_aborted k then ret ERR_ABRT else
  modK this (fun k => k <| m_recved_len ::= fun n => u64 (n + len) |>) ;;;
  gone <- ts_recv_buf_ack_sent this len ;;
  if gone : bool then ret ERR_OK else
  s <- getT this ;;
  if m_destroyed s && (m_recv_buf_ack_length s <=? 0) then tc_close_client this false false ;;; ret ERR_OK else
  r <- tc_client_socks_recv_send_out this ;;
  ret (if r <? 0 then ERR_ABRT else ERR_OK).

Definition tc_client_err_func (this : nat) : TM unit :=
  tc_close_session this ;;; tc_release_client this false.

(** ** TUNDev *)

Definition ip_value (e : endpoint) : Z :=
  match ep_address e with
  | V4 a b c d => ((b2z a * 256 + b2z b) * 256 + b2z c) * 256 + b2z d
  | V6 _ => 0
  end.

(** badvpn's parsers of the two headers, with what follows each; whether [pbuf]s
    can be had and lwIP takes a packet; the routes, and whether [DNSServer] has the
    address from a proxied answer *)
Context (ipv4_check udp_check : bytes -> option (bytes * bytes)).
Context (pbuf_alloc : nat -> bool) (pbuf_take ip_input : nat -> Z).
Context (route : RouteConfig) (is_ip_in_gfwlist : nat -> bool) (m_dns_server_endpoint : endpoint).

Definition td_proxy_by_route (ip : Z) : TM bool :=
  gfw <- t_ask is_ip_in_gfwlist ;; lift (proxy_by_route route gfw ip).

(** A new session, at the next address; the constructor of a proxy session
    allocates its id. *)
Definition td_new_session (proxy udp : bool) (local remote : endpoint) : TM nat :=
  w <- gets id ;;
  r <- (if proxy then lift (allocate_session_id (t_ids w)) else ret (0, t_ids w)) ;;
  let h := t_next w in
  let s := new_TUNSession proxy udp (fst r) in
  let s := if udp then s <| m_local_addr_udp := local |> <| m_remote_addr_udp := remote |>
           else s <| m_local_addr := local |> <| m_remote_addr := remote |> in
  modify (fun w => w <| t_ids := snd r |> <| t_next ::= S |>
    <| t_objs ::= <[h := mkTunObj s (if udp then None else Some new_client)]> |>) ;;;
  ret h.

(** The handler of [start_session]; a TCP client is kept when its session lives. *)
Definition td_started (this : nat) (ec : error_code) : TM unit :=
  s <- getT this ;;
  if ec =? 0 then
    ts_start this ;;;
    if is_udp s then skip else
    s <- getT this ;;
    when (negb (m_destroyed s)) (modify (fun w => w <| m_tcp_clients ::= fun l => l ++ [this] |>))
  else
    ts_destroy this false ;;;
    when (negb (is_udp s)) (tc_close_client this true false).
(** [start_session] of the service *)
Definition td_start_session (this : nat) : TM unit :=
  if pipelined then
    modT this (fun s => s <| ts_com ::= set_use_pipeline |>) ;;; t_start_op (TStarted this)
  else td_started this 0.

(** [local] is the application's end of the connection, [remote] where it is
    meant to go: lwIP has them the other way round. *)
Definition td_listener_accept_func (local remote : endpoint) (err : Z) : TM Z :=
  if negb (err =? ERR_OK) then ret err else
  proxy <- td_proxy_by_route (ip_value remote) ;;
  h <- td_new_session proxy false local remote ;;
  (if proxy : bool then td_start_session h else td_started h 0) ;;;
  s <- getT h ;;
  ret (if m_destroyed s then ERR_ABRT else ERR_OK).

Definition td_netif_input_func (p : bytes) : TM Z :=
  match p with
  | b :: _ =>
    if Z.shiftr (b2z b) 4 =? IPV4 then t_emit (LwipPacket p) ;;; t_ask ip_input else ret ERR_OK
  | [] => ret ERR_OK
  end.
Definition td_input_netif_packet (data : bytes) : TM unit :=
  ok <- t_ask pbuf_alloc ;;
  if negb ok then skip else
  err <- t_ask pbuf_take ;;
  if negb (err =? ERR_OK) then skip else
  td_netif_input_func data ;;; skip.

Definition ts_try_to_process_udp (this : nat) (local remote : endpoint) (payload : bytes) : TM bool :=
  s <- getT this ;;
  if is_udp s && (bool_decide (local = m_local_addr_udp s) && bool_decide (remote = m_remote_addr_udp s)) then
    t_emit (UdpIn this payload) ;;;
    if ts_proxy s then ts_out_async_send this payload HIdle ;;; ret true
    else
      match m_udp_forwarder s with
      | None => fun _ => Undef NoObject
      | Some f => ts_forward this f local payload
      end
  else ret false.

(** The loop over [m_udp_clients], a [std::list]: the iterator of an element that
    was erased meanwhile cannot be advanced. *)
Fixpoint after_in (h : nat) (l : list nat) : option (list nat) :=
  match l with
  | [] => None
  | x :: l => if (x =? h)%nat then Some l else after_in h l
  end.
Fixpoint td_offer (fuel : nat) (h : nat) (local remote : endpoint) (payload : bytes) : TM bool :=
  match fuel with
  | O => fun _ => Undef NoEnd
  | S fuel =>
    taken <- ts_try_to_process_udp h local remote payload ;;
    if taken : bool then ret true else
    w <- gets id ;;
    match after_in h (m_udp_clients w) with
    | None => fun _ => Undef NoObject
    | Some [] => ret false
    | Some (h' :: _) => td_offer fuel h' local remote payload
    end
  end.

(** The fields of the headers, at their places *)
Definition endpoint_at (ip : bytes) (ip_pos : nat) (udp : bytes) (port_pos : Z) : outcome endpoint :=
  let! port := Codec.parse_uint16 port_pos udp in
  match sub_ ip (Z.of_nat ip_pos) 4 with
  | [a; b; c; d] => Ret (mkEndpoint (V4 a b c d) port)
  | _ => Undef (OutOfView ip (Z.of_nat ip_pos))
  end.

(** 1 when the packet was dealt with *)
Definition td_try_to_process_udp_packet (data : bytes) : TM Z :=
  let ip_version := match data with b :: _ => ip_version b | [] => 0 end in
  if ip_version =? IPV4 then
    if (zlen data <? sizeof_ipv4_header) || negb (bool_decide (data !! 9%nat = Some IPV4_PROTOCOL_UDP)) then ret 0 else
    match ipv4_check data with
    | None => ret 1
    | Some (ip, data) =>
      match udp_check data with
      | None => ret 1
      | Some (udp, payload) =>
        let checksum_in_packet := sub_ udp 6 2 in
        let computed := udp_checksum (sub_ udp 0 6 ++ [Byte.x00; Byte.x00]) payload (sub_ ip 12 4) (sub_ ip 16 4) in
        if negb (bool_decide (checksum_in_packet = [fst computed; snd computed])) then ret 1 else
        local <- lift (endpoint_at ip 12 udp 0) ;;
        remote <- lift (endpoint_at ip 16 udp 2) ;;
        if bool_decide (m_dns_server_endpoint = remote) then t_emit (DnsQuery local payload) ;;; ret 1 else
        w <- gets id ;;
        taken <- (match m_udp_clients w with
                  | [] => ret false
                  | h :: _ => td_offer (S (length (m_udp_clients w))) h local remote payload
                  end) ;;
        if taken : bool then ret 1 else
        proxy <- td_proxy_by_route (ip_value remote) ;;
        h <- td_new_session proxy true local remote ;;
        t_emit (UdpIn h payload) ;;;
        ts_out_async_send h payload HIdle ;;;
        modify (fun w => w <| m_udp_clients ::= fun l => l ++ [h] |>) ;;;
        (if proxy : bool then td_start_session h else ts_start h) ;;;
        ret 1
      end
    end
  else ret 0.

Definition td_packet (p : bytes) : TM unit :=
  result <- td_try_to_process_udp_packet p ;;
  when (result =? 0) (td_input_netif_packet p).

Definition td_async_read : TM unit := t_start_op TDevRead.
Definition td_read_done (ec : error_code) (data : bytes) : TM unit :=
  w <- gets id ;;
  if m_quitting (t_out w) then skip else
  (if ec =? 0 then
     let buff := m_packet_parse_buff w ++ data in
     rest <- parse_packet td_packet (S (length buff)) buff ;;
     modify (fun w => w <| m_packet_parse_buff := rest |>)
   else skip) ;;;
  td_async_read.

Definition td_destroy : TM unit :=
  w <- gets id ;;
  if m_quitting (t_out w) then skip else
  modify (fun w => w <| t_out ::= fun t => t <| m_quitting := true |> |>) ;;;
  t_for_each (fun h => tc_close_client h true true) (m_tcp_clients w) ;;;
  t_for_each (fun h => modO h (fun o => o <| to_client := None |>)) (m_tcp_clients w) ;;;
  modify (fun w => w <| m_tcp_clients := [] |>) ;;;
  w <- gets id ;;
  t_for_each (fun h => modT h (fun s => s <| m_close_from_tundev_flag := true |>) ;;; ts_destroy h false)
    (m_udp_clients w) ;;;
  modify (fun w => w <| m_udp_clients := [] |>).

(** ** Runs *)

Definition t_complete (o : top) (c : tcompletion) : TM unit :=
  match o, c with
  | TResolve h, TResolved ec results => ts_resolve_done h ec results
  | TConnect h, TDone ec => ts_connect_done h ec
  | TConnectTimer h, TDone ec => if ec =? 0 then ts_destroy h false else skip
  | TSslHandshake h, TDone ec => ts_ssl_done h ec
  | TRead h, TReceived ec data => ts_read_done h ec data
  | TWrite h, TWrote ec length => ts_write_done h ec length
  | TDataSent h hd length, TDone ec => ts_data_sent h hd length ec
  | TAckSent h, TDone ec => ts_ack_sent h ec
  | TStarted h, TDone ec => td_started h ec
  | TTimer h n, TDone ec => ts_udp_timer_fired h n ec
  | TDevRead, TReceived ec data => td_read_done ec data
  | _, _ => skip
  end.

(** The answer is of the operation's kind, and a read returns no more than was
    asked for. *)
Definition t_answers (o : top) (c : tcompletion) : bool :=
  match o, c with
  | TResolve _, TResolved _ _ => true
  | TRead _, TReceived _ data => zlen data <=? MAX_BUF_LENGTH
  | TDevRead, TReceived _ data => zlen data <=? m_mtu
  | TWrite _, TWrote _ _ => true
  | (TConnect _ | TConnectTimer _ | TSslHandshake _ | TDataSent _ _ _ | TAckSent _ | TStarted _ | TTimer _ _),
    TDone _ => true
  | _, _ => false
  end.

Definition top_this (o : top) : option nat :=
  match o with
  | TResolve h | TConnect h | TConnectTimer h | TSslHandshake h | TRead h | TWrite h | TDataSent h _ _
  | TAckSent h | TStarted h | TTimer h _ => Some h
  | TDevRead => None
  end.

(** Completions, the clock; callbacks of lwIP; what a pipeline does to a session
    of its list; what a forwarder does to its session; an answer of [DNSServer];
    the end of the device; and the end of objects that nothing holds. *)
Inductive tevent :=
| TComplete (i : nat) (c : tcompletion)
| TClock (t : Z)
| TLwipAccept (local remote : endpoint) (err : Z)
| TLwipRecv (this : nat) (p : option bytes) (err : Z)
| TLwipSent (this : nat) (len : Z)
| TLwipErr (this : nat)
| TLwipOutput (p : list bytes)
| TPipeRecv (this : nat) (data : bytes)
| TPipeAck (this : nat) (ack_count : Z)
| TPipeCloseCmd (this : nat)
| TPipeDestroy (this : nat)
| TFwdData (this : nat) (data : bytes)
| TFwdDestroyed (this : nat)
| TDnsAnswer (to : endpoint) (data : bytes)
| TDevDestroy
| TClientFreed (this : nat)
| TSessionFreed (this : nat).

(** lwIP calls back only for a connection whose callbacks are set. *)
Definition tc_called (this : nat) (m : TM unit) : TM unit :=
  w <- gets id ;;
  match t_objs w !! this with
  | Some o =>
    match to_client o with
    | Some k => when (m_pcb k && negb (m_closed k)) m
    | None => skip
    end
  | None => skip
  end.
(** A session in the list of its pipeline *)
Definition ts_piped (this : nat) (m : TUNSession -> TM unit) : TM unit :=
  w <- gets id ;;
  match t_objs w !! this with
  | Some o =>
    let s := to_session o in
    when (m_is_use_pipeline (ts_com s) && negb (m_destroyed s)) (m s)
  | None => skip
  end.
Definition ts_forwarded (this : nat) (m : TUNSession -> nat -> TM unit) : TM unit :=
  w <- gets id ;;
  match t_objs w !! this with
  | Some o =>
    match m_udp_forwarder (to_session o) with
    | Some f => when (negb (fw_destroyed (t_fwd w) f)) (m (to_session o) f)
    | None => skip
    end
  | None => skip
  end.

Definition ts_pipeline_in_recv (this : nat) (data : bytes) (s : TUNSession) : TM unit :=
  r <- lift (pipeline_in_recv data (ts_com s)) ;;
  modT this (fun s => s <| ts_com := fst r |>) ;;;
  match snd r with
  | None => skip
  | Some (data, ack_count) => ts_pipe_recv_ (ts_out_async_read depth this) this data ack_count
  end.

Definition t_step (e : tevent) : TM unit :=
  match e with
  | TComplete i c =>
    w <- gets id ;;
    match t_pending w !! i with
    | Some o =>
      if t_answers o c then modify (fun w => w <| t_pending ::= delete i |>) ;;; t_complete o c else skip
    | None => skip
    end
  | TClock t => modify (fun w => w <| t_now := t |>)
  | TLwipAccept local remote err => td_listener_accept_func local remote err ;;; skip
  | TLwipRecv this p err => tc_called this (tc_client_recv_func this p err ;;; skip)
  | TLwipSent this len => tc_called this (tc_client_sent_func this len ;;; skip)
  | TLwipErr this => tc_called this (tc_client_err_func this)
  | TLwipOutput p => on_out (netif_output_func m_mtu write_some p)
  | TPipeRecv this data => ts_piped this (ts_pipeline_in_recv this data)
  | TPipeAck this n => ts_piped this (fun _ => ts_recv_ack_cmd this n)
  | TPipeCloseCmd this =>
    ts_piped this (fun s =>
      if canbe_closed_by_pipeline (ts_com s) then ts_destroy this true
      else modT this (fun s => s <| ts_com ::= set_write_close_future true |>))
  | TPipeDestroy this => ts_piped this (fun _ => ts_destroy this true)
  | TFwdData this data => ts_forwarded this (fun _ _ => ts_write_udp this data)
  | TFwdDestroyed this => ts_forwarded this (fun _ f => on_fwd (fw_destroy f) ;;; ts_destroy this false)
  | TDnsAnswer to data => td_write_udp to m_dns_server_endpoint data
  | TDevDestroy => td_destroy
  | TClientFreed this =>
    w <- gets id ;;
    when (forallb (fun o => negb (bool_decide (o = TStarted this))) (t_pending w) &&
          negb (bool_decide (this ∈ m_tcp_clients w)))
      (modO this (fun o => o <| to_client := None |>))
  | TSessionFreed this =>
    w <- gets id ;;
    match t_objs w !! this with
    | Some o =>
      let s := to_session o in
      when (bool_decide (to_client o = None) && negb (bool_decide (this ∈ m_udp_clients w)) &&
            forallb (fun o => negb (bool_decide (top_this o = Some this))) (t_pending w) &&
            (m_destroyed s || negb (m_is_use_pipeline (ts_com s))))
        (modify (fun w => w <| t_objs ::= delete this |>
           <| t_ids ::= fun i => if ts_proxy s then snd (free_session_id (m_session_id (ts_com s)) i) else i |>))
    | None => skip
    end
  end.

Definition t_init (p : P) : tworld :=
  mkTWorld ∅ 0 [] [] (mkTunOut false [] [] 0) [] no_ids p [TDevRead] [] 1 0.
End Depth.
End Operations.
End World.
