(* ===== verification/TunProofs.v ===== *)
(** * The tun device without pipeline: the handlers of a session

    Every handler of [TunSide] works on its session and the session's lwIP client
    ([SessionLogic]).  What the properties speak of is a session's [view]; the
    invariant [RI] relates what was read from lwIP and from the remote host to
    what was written to them. *)

From Stdlib Require Import ZArith Lia.
From S2P Require Import Prelude Utils Address Trojan UdpPacket PipelineProto Caches ReadCache PipelineComponent Session.
From S2P Require Import SessionLogic ClientSide IpMatcher TunPacket TunPacketTheorems TunSide.
Import Streambuf ReadBuf Stat Allocator PipelineComponent.
Local Open Scope Z_scope.
Local Open Scope handler_scope.

(** ** Forwarders that do not fail

    A call returns, unless the forwarder is gone. *)
Definition defined {A} (r : outcome A) : Prop :=
  match r with Ret _ => True | Throw _ => False | Undef u => u = NoObject end.
Class ForwardersLaws (P : Type) {FW : Forwarders P} := {
  fw_new_defined a b p : defined (fw_new a b p);
  fw_process_defined f ep data p : defined (fw_process f ep data p);
  fw_destroy_defined f p : defined (fw_destroy f p)
}.

(** ** One session's part of a world *)

Definition teff_this (e : teffect) : option nat :=
  match e with
  | LwipIn h _ | LwipOut h _ | LwipRecved h _ | LwipAbort h | LwipClose h | Remote h _ | ToRemote h _
  | UdpIn h _ | TConnectTo h _ _ | TToPipe h _ _ _ | TPipeClose h => Some h
  | LwipPacket _ | DnsQuery _ _ => None
  end.
#[export] Instance top_operation : Operation top := { op_this := top_this; op_buf _ := None }.
#[export] Instance teffect_effect : Effect teffect := { eff_this := teff_this }.
#[export] Instance tworld_sessions {P} : SessionWorld (@tworld P) TunObj top teffect (nat * ids) :=
  { sw_objs := t_objs; sw_pending := t_pending; sw_trace := t_trace; sw_alloc _ := mkAllocator ∅ [] [];
    sw_rest w := (t_next w, t_ids w) }.

(** A freed client is used, or a UDP packet of the one octet 3 is looked at. *)
Definition tundef (u : undefined_by) : Prop := u = NoObject \/ u = octet03.
Notation on := (SessionLogic.on (fun _ => False) tundef).

Section Rules.
Context {P : Type} (h : nat).

Lemma on_getO (Q : post TunObj) o l t : Q o o l t -> on h (@getO P h) Q o l t.
Proof. by apply on_get. Qed.
Lemma on_modO f (Q : post unit) o l t : Q tt (f o) l t -> on h (@modO P h f) Q o l t.
Proof. apply on_mod. intros w. by eexists. Qed.
Lemma on_getT (Q : post TUNSession) o l t : Q (to_session o) o l t -> on h (@getT P h) Q o l t.
Proof. intros HQ. by apply on_bind, on_getO, on_ret. Qed.
Lemma on_getK (Q : post lwip_tcp_client) o l t :
  (forall k, to_client o = Some k -> Q k o l t) -> on h (@getK P h) Q o l t.
Proof.
  intros HQ. apply on_bind, on_getO. destruct (to_client o) as [k|] eqn:E; [by apply on_ret, HQ|].
  intros w _ _ _ _. by left.
Qed.
Lemma on_t_ask {A} (f : nat -> A) (Q : post A) o l t :
  (forall a, Q a o l t) -> on h (@t_ask P A f) Q o l t.
Proof. intros HQ. apply on_alike. intros w. unfold t_ask. eexists _, _. split; [done|]. by split. Qed.
Lemma on_t_emit e (Q : post unit) o l t :
  teff_this e = Some h -> Q tt o l (t ++ [e]) -> on h (@t_emit P e) Q o l t.
Proof. intros He HQ. apply (on_emitted _ _ h _ e); [|done|done]. intros w. by eexists. Qed.
Lemma on_t_start x (Q : post unit) o l t :
  top_this x = Some h -> Q tt o (l ++ [x]) t -> on h (@t_start_op P x) Q o l t.
Proof. intros Ho HQ. apply (on_started _ _ h _ x); [|done..]. intros w. by eexists. Qed.

(** Changes of what no session is about *)
Lemma on_aside (f : tworld -> @tworld P) (Q : post unit) o l t :
  (forall w, alike w (f w)) -> Q tt o l t -> on h (modify f) Q o l t.
Proof. intros Hf HQ. apply on_alike. intros w. eexists _, _. split; [done|]. by split. Qed.
Lemma on_on_fwd {A} (m : M P A) (Q : post A) o l t :
  (forall p, defined (m p)) -> (forall a, Q a o l t) -> on h (on_fwd m) Q o l t.
Proof.
  intros Hm HQ w Ho <- <- Hw. unfold on_fwd. specialize (Hm (t_fwd w)).
  destruct (m (t_fwd w)) as [[a p]| |]; [|done|by left]. split; [by apply alike_frame|]. split; [exact Hw|]. eauto.
Qed.
Lemma on_on_out (f : TunOut -> outcome TunOut) (Q : post unit) o l t :
  (forall x, exists y, f x = Ret y) -> Q tt o l t -> on h (@on_out P f) Q o l t.
Proof.
  intros Hf HQ w Ho <- <- Hw. unfold on_out. destruct (Hf (t_out w)) as [y ->].
  split; [by apply alike_frame|]. split; [exact Hw|]. eauto.
Qed.
Lemma on_no_object {A} (Q : post A) o l t : on h (fun _ : @tworld P => Undef NoObject) Q o l t.
Proof. intros w _ _ _ _. by left. Qed.
Lemma on_when (b : bool) (m : TM unit) (Q : post unit) o l t :
  (b = true -> on h m Q o l t) -> (b = false -> Q tt o l t) -> on h (@when (@tworld P) b m) Q o l t.
Proof. destruct b; intros H1 H2; [by apply H1|]. by apply on_skip, H2. Qed.
Lemma on_for_each {A} (f : A -> TM unit) (I : TunObj -> list top -> list teffect -> Prop) xs o l t :
  (forall x o l t, x ∈ xs -> I o l t -> on h (f x) (fun _ => I) o l t) -> I o l t ->
  on h (@t_for_each P A f xs) (fun _ => I) o l t.
Proof.
  intros Hf. revert o l t. induction xs as [|x xs IH]; intros o l t HI; cbn [t_for_each]; [by apply on_skip|].
  apply on_bind. eapply on_mono; [apply Hf; [set_solver|done]|]. intros ? o1 l1 t1 H1. apply IH; [|done].
  intros y o2 l2 t2 Hy. apply Hf. set_solver.
Qed.
End Rules.

(** ** The view of a session *)

Definition lwip_in (t : list teffect) : bytes :=
  flat_map (fun e => match e with LwipIn _ d => d | _ => [] end) t.
Definition lwip_out (t : list teffect) : bytes :=
  flat_map (fun e => match e with LwipOut _ d => d | _ => [] end) t.
Definition from_remote (t : list teffect) : bytes :=
  flat_map (fun e => match e with Remote _ d => d | _ => [] end) t.
Definition to_remote (t : list teffect) : bytes :=
  flat_map (fun e => match e with ToRemote _ d => d | _ => [] end) t.
Definition datagrams (t : list teffect) : list bytes :=
  flat_map (fun e => match e with UdpIn _ d => [d] | _ => [] end) t.
Definition is_trd (o : top) : bool := match o with TRead _ => true | _ => false end.
Definition is_twr (o : top) : bool := match o with TWrite _ => true | _ => false end.
Definition is_tls (o : top) : bool := match o with TSslHandshake _ => true | _ => false end.
Definition is_tcn (o : top) : bool :=
  match o with TResolve _ | TConnect _ | TSslHandshake _ => true | _ => false end.
(** Those of a pipeline *)
Definition is_pop (o : top) : bool :=
  match o with TDataSent _ _ _ | TAckSent _ | TStarted _ => true | _ => false end.

(** Towards the remote host: what the session is for, the cache, what was given
    to it and what it wrote *)
Record view := mkView {
  v_proxy : bool; v_udp : bool; v_addr : endpoint; v_addr_udp : endpoint; v_conn : bool; v_send : bytes;
  v_q0 : bytes; v_q1 : bytes; v_cur : bool; v_sending : bool; v_flight : option bool;
  v_writes : Z; v_cns : Z; v_tls : Z; v_in : bytes; v_sent : bytes; v_dgrams : list bytes;
  v_piped : bool; v_pops : Z
}.
#[export] Instance eta_view : Settable view :=
  fun r => mkView (v_proxy r) (v_udp r) (v_addr r) (v_addr_udp r) (v_conn r) (v_send r) (v_q0 r)
    (v_q1 r) (v_cur r) (v_sending r) (v_flight r) (v_writes r) (v_cns r) (v_tls r) (v_in r) (v_sent r) (v_dgrams r)
    (v_piped r) (v_pops r).
Definition view_of (o : TunObj) (l : list top) (t : list teffect) : view :=
  let s := to_session o in
  let c := m_sending_data_cache s in
  mkView (ts_proxy s) (is_udp s) (m_remote_addr s) (m_remote_addr_udp s) (m_connected s)
    (m_send_buf s) (SendDataCache.data_queue c) (SendDataCache.data_queue_other c)
    (SendDataCache.current_is_first c) (SendDataCache.is_async_sending c) (SendDataCache.flight c)
    (cnt is_twr l) (cnt is_tcn l) (cnt is_tls l) (lwip_in t) (to_remote t) (datagrams t)
    (m_is_use_pipeline (ts_com s)) (cnt is_pop l).
(** Towards lwIP: what was read and what was written *)
Record down := mkDown { d_recv : ReadBufWithGuard; d_reads : Z; d_remote : bytes; d_out : bytes }.
Definition down_of (o : TunObj) (l : list top) (t : list teffect) : down :=
  mkDown (m_recv_buf (to_session o)) (cnt is_trd l) (from_remote t) (lwip_out t).
Definition both_of (o : TunObj) (l : list top) (t : list teffect) : view * down := (view_of o l t, down_of o l t).

(** How often the first write is still to be answered *)
Definition nfirst (hs : list thandler) : Z := zlen (filter (fun h => h = HFirst) hs).
Definition handlers (s : TUNSession) : list thandler :=
  SendDataCache.handler_queue (m_sending_data_cache s) ++ SendDataCache.handler_queue_other (m_sending_data_cache s).
Definition firsts (o : TunObj) : Z := nfirst (handlers (to_session o)).
(** The client may still write to lwIP. *)
Definition live (o : TunObj) : Prop :=
  exists k, to_client o = Some k /\ m_closed k = false /\ m_aborted k = false.
(** A destroyed session has destroyed its cache. *)
Definition dead_ok (s : TUNSession) : Prop :=
  m_destroyed s = SendDataCache.destroyed (m_sending_data_cache s) /\
  (m_destroyed s = true -> handlers s = []).

(** The view is [v], no more than [n] first writes are waited for, and the client
    is only live if [a]. *)
Definition calm (v : view * down) (n : Z) (a : Prop) (o : TunObj) (l : list top) (t : list teffect) : Prop :=
  both_of o l t = v /\ firsts o <= n /\ (live o -> a).

Lemma calm_here o l t : calm (both_of o l t) (firsts o) (live o) o l t.
Proof. by split_and!. Qed.
Lemma calm_weak v n a b o l t : calm v n a o l t -> (a -> b) -> calm v n b o l t.
Proof. intros (H1 & H2 & H3) Hab. split_and!; auto. Qed.
(** A change the view does not show *)
Lemma calm_same v n a o l t o' l' t' :
  calm v n a o l t -> both_of o' l' t' = both_of o l t -> firsts o' <= firsts o -> (live o' -> live o) ->
  calm v n a o' l' t'.
Proof. intros (H1 & H2 & H3) E1 E2 E3. split; [congruence|]. split; [lia|auto]. Qed.

Lemma calm_shut v n a o l t k :
  calm v n a o l t -> to_client o = Some k -> m_closed k || m_aborted k = true -> calm v n False o l t.
Proof.
  intros (H1 & H2 & H3) Hk E. split_and!; [done|done|]. intros (k' & Hk' & E1 & E2).
  rewrite Hk in Hk'. injection Hk' as <-. by rewrite E1, E2 in E.
Qed.
Lemma calm_closed v n a o l t :
  calm v n a o l t -> calm v n False (o <| to_client ::= option_map (fun k => k <| m_closed := true |>) |>) l t.
Proof.
  intros (H1 & H2 & H3). split_and!; [done|done|]. intros (k & Hk & E & _). cbn in Hk.
  destruct (to_client o); [|done]. by injection Hk as <-.
Qed.

Lemma view_emit o l t e :
  match e with LwipIn _ _ | LwipOut _ _ | Remote _ _ | ToRemote _ _ | UdpIn _ _ => False | _ => True end ->
  both_of o l (t ++ [e]) = both_of o l t.
Proof.
  unfold both_of, view_of, down_of, lwip_in, lwip_out, from_remote, to_remote, datagrams. rewrite !flat_map_app. cbn [flat_map].
  by destruct e; intros; rewrite ?app_nil_r.
Qed.
Lemma view_start o l t x :
  is_trd x = false -> is_twr x = false -> is_tcn x = false -> is_tls x = false -> is_pop x = false ->
  both_of o (l ++ [x]) t = both_of o l t.
Proof.
  intros E1 E2 E3 E4 E5. unfold both_of, view_of, down_of. rewrite !cnt_snoc, E1, E2, E3, E4, E5, !Z.add_0_r. done.
Qed.
Lemma calm_emit v n a o l t e :
  match e with LwipIn _ _ | LwipOut _ _ | Remote _ _ | ToRemote _ _ | UdpIn _ _ => False | _ => True end ->
  calm v n a o l t -> calm v n a o l (t ++ [e]).
Proof. intros He H. eapply calm_same; [exact H|by apply view_emit|done|done]. Qed.

Lemma live_mod o f : live (o <| to_client ::= option_map f |>) ->
  (forall k, m_closed (f k) = false -> m_aborted (f k) = false -> m_closed k = false /\ m_aborted k = false) -> live o.
Proof.
  intros (k & E & H1 & H2) Hf. cbn in E. destruct (to_client o) as [k0|] eqn:E0; [|done]. injection E as <-.
  destruct (Hf _ H1 H2). by exists k0.
Qed.
Lemma calm_modK v n a o l t f :
  (forall k, m_closed (f k) = false -> m_aborted (f k) = false -> m_closed k = false /\ m_aborted k = false) ->
  calm v n a o l t -> calm v n a (o <| to_client ::= option_map f |>) l t.
Proof. intros Hf H. eapply calm_same; [exact H|done|done|]. intros Hl. by eapply live_mod. Qed.

(** ** Closing *)

Section Closing.
Context {P : Type} {FW : Forwarders P} {FL : ForwardersLaws P} (h : nat) (tcp_close : nat -> Z).

(** A property of the session that survives; [destroy] is only called on one that
    is not destroyed yet. *)
Section Close.
Context (v : view * down) (n : Z) (E0 E : TUNSession -> Prop) (destroy : @TM P unit).
Hypothesis Hdestroy : forall o l t,
  calm v n False o l t -> E0 (to_session o) -> m_destroyed (to_session o) = false ->
  on h destroy (fun _ o l t => calm v n False o l t /\ E (to_session o)) o l t.
Hypothesis HE : forall s, E s -> E0 s.

Lemma on_close_session_ a o l t :
  calm v n a o l t -> E0 (to_session o) ->
  on h (tc_close_session_ destroy h) (fun _ o l t => calm v n False o l t /\ E0 (to_session o)) o l t.
Proof.
  intros Hc He. apply on_bind, on_getK. intros k Hk. destruct (m_closed k || m_aborted k) eqn:Ek.
  { apply on_skip. split; [|done]. by eapply calm_shut. }
  apply on_bind, on_modO, on_bind, on_getT. apply calm_closed in Hc.
  apply on_when; intros Hd; [|by split]. apply negb_true_iff in Hd.
  eapply on_mono; [by apply Hdestroy|]. intros ? o1 l1 t1 [H1 H2]. auto.
Qed.

Lemma on_release owner o l t (E' : TUNSession -> Prop) :
  calm v n False o l t -> E' (to_session o) ->
  on h (@tc_release_client P h owner) (fun _ o l t => calm v n False o l t /\ E' (to_session o)) o l t.
Proof.
  intros Hc He. apply on_bind, on_getK. intros k Hk. apply on_when; intros _; [|by split].
  apply on_bind, on_modO, on_bind, on_gets. intros w. 
  assert (Hc1 : calm v n False (o <| to_client ::= option_map (fun k => k <| m_pcb := false |>) |>) l t)
    by (apply calm_modK; [done|exact Hc]).
  apply on_when; intros _; [|by split]. apply on_bind, on_aside; [done|]. apply on_modO. split; [|done].
  eapply calm_same; [exact Hc1|done..|]. by intros (? & ? & _).
Qed.

Lemma on_close_client_ abort owner a o l t :
  calm v n a o l t -> E0 (to_session o) ->
  on h (tc_close_client_ tcp_close destroy h abort owner)
    (fun _ o l t => calm v n False o l t /\ E0 (to_session o)) o l t.
Proof.
  intros Hc He. apply on_bind, on_getK. intros k Hk. destruct (m_closed k || m_aborted k) eqn:Ek.
  { apply on_skip. split; [|done]. by eapply calm_shut. }
  apply on_bind. eapply on_mono; [by eapply on_close_session_|]. intros ? o1 l1 t1 [Hc1 He1]. cbv beta.
  assert (Hab : forall o l t, calm v n False o l t -> E0 (to_session o) ->
    on h (@modK P h (fun k => k <| m_aborted := true |>) ;;; t_emit (LwipAbort h))
      (fun _ o l t => calm v n False o l t /\ E0 (to_session o)) o l t).
  { intros o2 l2 t2 Hc2 He2. apply on_bind, on_modO, on_t_emit; [done|]. split; [|done]. apply calm_emit; [done|].
    eapply calm_same; [exact Hc2|done..|]. intros Hl. by apply live_mod in Hl; [|intros; by cbn in *]. }
  apply on_bind. eapply on_mono with (P := fun _ o l t => calm v n False o l t /\ E0 (to_session o)).
  - destruct abort; [by apply Hab|]. apply on_bind, on_t_ask. intros err. apply on_bind, on_t_emit; [done|].
    apply (calm_emit _ _ _ _ _ _ (LwipClose h) I) in Hc1.
    apply on_when; intros _; [by apply Hab|by split].
  - intros ? o2 l2 t2 [Hc2 He2]. by apply on_release.
Qed.
End Close.

(** *** [destroy] *)

(** Within [destroy], the session is marked already. *)
Definition gone (E : TUNSession -> Prop) (s : TUNSession) : Prop := m_destroyed s = true /\ E s.
Lemma on_close_nested v n a E abort owner o l t :
  calm v n a o l t -> gone E (to_session o) ->
  on h (@tc_close_client_ P tcp_close t_nested h abort owner)
    (fun _ o l t => calm v n False o l t /\ gone E (to_session o)) o l t.
Proof.
  apply (on_close_client_ v n (gone E) (gone E)); [|done]. intros o1 l1 t1 _ [Hd _]. congruence.
Qed.
Lemma on_call_broken v n a E x o l t :
  calm v n a o l t -> gone E (to_session o) ->
  on h (@t_call_broken P tcp_close h x) (fun _ o l t => calm v n a o l t /\ gone E (to_session o)) o l t.
Proof.
  intros Hc Hg. destruct x; [|by apply on_skip; split..]. eapply on_mono; [by eapply on_close_nested|].
  intros ? o1 l1 t1 [H1 H2]. split; [|done]. by eapply calm_weak.
Qed.
Lemma on_cache_destroy v n a o l t :
  calm v n a o l t -> m_destroyed (to_session o) = true -> 0 <= n ->
  (SendDataCache.destroyed (m_sending_data_cache (to_session o)) = true -> handlers (to_session o) = []) ->
  on h (@ts_cache_destroy P tcp_close h) (fun _ o l t => calm v n a o l t /\ gone dead_ok (to_session o)) o l t.
Proof.
  intros Hc Hd Hn Hh. unfold ts_cache_destroy. apply on_bind, on_getT.
  destruct (SendDataCache.destroyed _) eqn:Ed.
  { apply on_skip. split; [done|]. split; [done|]. split; [congruence|]. auto. }
  clear Hh. apply on_bind, on_modO. set (E1 := fun s => SendDataCache.destroyed (m_sending_data_cache s) = true).
  match goal with |- context [on h _ _ ?o1 l t] => set (o1' := o1) end.
  assert (H1 : calm v n a o1' l t /\ gone E1 (to_session o1')).
  { split; [by eapply calm_same; [exact Hc|done..]|]. by split. }
  clearbody o1'. apply on_bind, on_getT.
  assert (Hloop : forall (E' : TUNSession -> Prop) xs o l t,
    (forall s e, E' s -> E' (s <| m_sending_data_cache ::= SendDataCache.emit e |>)) ->
    calm v n a o l t /\ gone E' (to_session o) ->
    on h (t_for_each (fun x => @ts_mod_cache P h (SendDataCache.emit (SendDataCache.Called x broken_pipe)) ;;;
                               t_call_broken tcp_close h x) xs)
      (fun _ o l t => calm v n a o l t /\ gone E' (to_session o)) o l t).
  { intros E' xs o2 l2 t2 HE' H2. apply on_for_each; [|done]. intros x o3 l3 t3 _ [H3 [H4 H5]].
    apply on_bind, on_modO. apply on_call_broken; [by eapply calm_same; [exact H3|done..]|].
    split; [done|]. by apply HE'. }
  apply on_bind. eapply on_mono; [by apply (Hloop E1)|]. intros ? o2 l2 t2 [H2 [H3 H4]]. cbv beta.
  apply on_bind, on_modO, on_bind, on_getT.
  set (E2 := fun s => E1 s /\ SendDataCache.handler_queue_other (m_sending_data_cache s) = []).
  apply on_bind. eapply on_mono; [apply (Hloop E2)|].
  - by intros s e [].
  - split; [|by split]. eapply calm_same; [exact H2|done| |done]. unfold firsts, nfirst, handlers. cbn.
    rewrite app_nil_r, list.filter_app, zlen_app. pose proof (zlen_nonneg
      (filter (fun h => h = HFirst) (SendDataCache.handler_queue_other (m_sending_data_cache (to_session o2))))). lia.
  - intros ? o3 l3 t3 [H5 [H6 [H7 H8]]]. cbv beta. apply on_modO. split.
    + destruct H5 as (H9 & H10 & H11). split_and!; [done| |done].
      unfold firsts, nfirst, handlers. cbn. by rewrite H8.
    + split; [done|]. split; [exact (eq_trans H6 (eq_sym H7))|]. intros _. exact H8.
Qed.

Lemma on_session_closed v n a E o l t :
  calm v n a o l t -> gone E (to_session o) ->
  on h (@tc_session_closed P tcp_close h) (fun _ o l t => calm v n a o l t /\ gone E (to_session o)) o l t.
Proof.
  intros Hc Hg. apply on_bind, on_getT, on_when; intros _; [|by split].
  eapply on_mono; [by eapply on_close_nested|]. intros ? o1 l1 t1 [H1 H2]. split; [|done]. by eapply calm_weak.
Qed.

(** [destroy] ends with a session that is dead, and the view as it was. *)
Lemma on_ts_destroy pipelined pipeline_call v n a o l t :
  calm v n a o l t -> dead_ok (to_session o) -> 0 <= n ->
  on h (ts_destroy pipelined tcp_close h pipeline_call)
    (fun _ o l t => calm v n a o l t /\ gone dead_ok (to_session o)) o l t.
Proof.
  intros Hc [Hd1 Hd2] Hn. apply on_bind, on_getT.
  destruct (m_destroyed (to_session o)) eqn:Ed.
  { apply on_skip. split; [done|]. split; [done|]. split; [by rewrite Ed|]. intros _. by apply Hd2. }
  apply on_bind, on_modO, on_bind. eapply on_mono; [apply (on_cache_destroy v n a)|].
  { eapply calm_same; [exact Hc|done..]. } { done. } { done. } { cbn. by rewrite <- Hd1. }
  intros ? o1 l1 t1 [Hc1 Hg1]. cbv beta. apply on_bind, on_modO.
  match goal with |- on h _ _ ?o2 _ _ => assert (H2 : calm v n a o2 l1 t1 /\ gone dead_ok (to_session o2)) end.
  { split; [by eapply calm_same; [exact Hc1|done..]|exact Hg1]. }
  clear Hc1 Hg1. revert H2. generalize (o1 <| to_session ::= fun s => s <| m_wait_ack_handler := [] |> |>).
  intros o2 [Hc2 Hg2]. apply on_bind.
  eapply on_mono with (P := fun _ o l t => calm v n a o l t /\ gone dead_ok (to_session o)).
  - destruct (ts_proxy (to_session o)).
    + apply on_bind, on_modO, on_when; intros _.
      * apply on_t_emit; [done|]. split; [|exact Hg2]. apply calm_emit; [done|]. by eapply calm_same; [exact Hc2|done..].
      * split; [|exact Hg2]. by eapply calm_same; [exact Hc2|done..].
    + apply on_bind. eapply on_mono with (P := fun _ o l t => calm v n a o l t /\ gone dead_ok (to_session o)).
      * destruct (m_udp_forwarder _) as [f|]; [|by apply on_skip; split]. apply on_bind, on_gets. intros w.
        apply on_when; intros _; [|by split]. apply on_on_fwd; [apply fw_destroy_defined|]. intros _. by split.
      * intros ? o3 l3 t3 [Hc3 Hg3]. apply on_modO. split; [|exact Hg3]. by eapply calm_same; [exact Hc3|done..].
  - intros ? o3 l3 t3 [Hc3 Hg3]. apply on_bind, on_getT, on_when; intros _; [|by split].
    apply on_bind. eapply on_mono with (P := fun _ o l t => calm v n a o l t /\ gone dead_ok (to_session o)).
    + destruct (is_udp _); [apply on_aside; [done|by split]|]. by apply on_session_closed.
    + intros ? o4 l4 t4 [Hc4 Hg4]. apply on_modO. split; [|exact Hg4]. by eapply calm_same; [exact Hc4|done..].
Qed.
(** Once destroyed ([d]), a session stays so. *)
Definition dying (d : bool) (s : TUNSession) : Prop := dead_ok s /\ (d = true -> m_destroyed s = true).
Lemma gone_dying d s : gone dead_ok s -> dying d s.
Proof. by intros []. Qed.
Lemma on_close_session pipelined v n a d o l t :
  calm v n a o l t -> dying d (to_session o) -> 0 <= n ->
  on h (tc_close_session pipelined tcp_close h) (fun _ o l t => calm v n False o l t /\ dying d (to_session o)) o l t.
Proof.
  intros Hc Hd Hn. eapply (on_close_session_ v n (dying d) (gone dead_ok)); [|apply gone_dying|done|done].
  intros o1 l1 t1 H1 [H2 _] _. by apply on_ts_destroy.
Qed.
Lemma on_close_client pipelined abort owner v n a d o l t :
  calm v n a o l t -> dying d (to_session o) -> 0 <= n ->
  on h (tc_close_client pipelined tcp_close h abort owner)
    (fun _ o l t => calm v n False o l t /\ dying d (to_session o)) o l t.
Proof.
  intros Hc Hd Hn. eapply (on_close_client_ v n (dying d) (gone dead_ok)); [|apply gone_dying|done|done].
  intros o1 l1 t1 H1 [H2 _] _. by apply on_ts_destroy.
Qed.

(** *** The timer *)

Lemma on_timer_act pipelined r v n a d o l t :
  calm v n a o l t -> dying d (to_session o) -> 0 <= n ->
  UdpTimer.is_udp_forward (fst r) = is_udp (to_session o) ->
  on h (ts_timer_act pipelined tcp_close h r) (fun _ o l t => calm v n a o l t /\ dying d (to_session o)) o l t.
Proof.
  intros Hc Hd Hn Hr. apply on_bind, on_modO.
  match goal with |- on h _ _ ?o2 _ _ => assert (H2 : calm v n a o2 l t /\ dying d (to_session o2)) end.
  { split; [|exact Hd]. eapply calm_same; [exact Hc| |done|done]. unfold both_of, view_of, is_udp in *. cbn. by rewrite Hr. }
  destruct H2 as [Hc2 Hd2]. destruct (snd r).
  - by apply on_skip; split.
  - apply on_t_start; [done|]. split; [|done]. eapply calm_same; [exact Hc2|by apply view_start|done|done].
  - eapply on_mono; [apply on_ts_destroy; [done|by destruct Hd2|done]|]. intros ? o3 l3 t3 [H3 H4]. split; [done|].
    by apply gone_dying.
Qed.
Lemma timer_wait_udp curr timeout ec x tm :
  UdpTimer.is_udp_forward (fst (UdpTimer.udp_timer_async_wait curr timeout ec x tm)) = UdpTimer.is_udp_forward tm.
Proof. unfold UdpTimer.udp_timer_async_wait. destruct tm. cbn. by repeat case_match. Qed.
Lemma timer_fired_udp curr timeout ec x err tm :
  UdpTimer.is_udp_forward (fst (UdpTimer.udp_timer_fired curr timeout ec x err tm)) = UdpTimer.is_udp_forward tm.
Proof. unfold UdpTimer.udp_timer_fired. repeat case_match; rewrite ?timer_wait_udp; done. Qed.
Lemma on_timer_wait cfg pipelined cancel_ec v n a d o l t :
  calm v n a o l t -> dying d (to_session o) -> 0 <= n ->
  on h (ts_udp_timer_async_wait cfg pipelined tcp_close cancel_ec h)
    (fun _ o l t => calm v n a o l t /\ dying d (to_session o)) o l t.
Proof.
  intros Hc Hd Hn. apply on_bind, on_getT, on_bind, on_gets. intros curr. apply on_bind, on_t_ask. intros ec.
  apply on_timer_act; [done|done|done|]. apply timer_wait_udp.
Qed.
Lemma on_timer_fired cfg pipelined cancel_ec timeout error v n a d o l t :
  calm v n a o l t -> dying d (to_session o) -> 0 <= n ->
  on h (ts_udp_timer_fired cfg pipelined tcp_close cancel_ec h timeout error)
    (fun _ o l t => calm v n a o l t /\ dying d (to_session o)) o l t.
Proof.
  intros Hc Hd Hn. apply on_bind, on_getT, on_bind, on_gets. intros curr. apply on_bind, on_t_ask. intros ec.
  apply on_timer_act; [done|done|done|]. apply timer_fired_udp.
Qed.
End Closing.

(** ** The relay *)

(** A session that writes to a socket of its own: all but the local UDP ones *)
Definition v_relays (v : view) : bool := v_proxy v || negb (v_udp v).
(** A session that frames its datagrams *)
Definition v_frames (v : view) : bool := v_proxy v && v_udp v.
(** The octets waiting in the cache, and the buffer being written *)
Definition v_waiting (v : view) : bytes := if v_cur v then v_q0 v else v_q1 v.
Definition v_flying (v : view) : bytes := if v_cur v then v_q1 v else v_q0 v.

Section Relay.
Context (cfg : Config) (redirect_local : bool).

Definition v_target (v : view) : endpoint :=
  if redirect_local then mkEndpoint localhost (ep_port (v_addr_udp v)) else v_addr_udp v.
(** What a session through the server begins with *)
Definition v_request (v : view) : bytes :=
  if v_proxy v then
    match Session.password cfg with
    | [] => []
    | (pw, _) :: _ =>
      let addr := if v_udp v then v_addr_udp v else v_addr v in
      TrojanRequest.generate pw (if redirect_local then LOCALHOST_IP_ADDRESS else v4_text addr) (ep_port addr)
        (negb (v_udp v))
    end
  else [].
(** What a session is given to send *)
Definition v_input (v : view) : bytes :=
  if v_udp v then
    flat_map (fun d => if v_proxy v then UDPPacket.generate_endpoint [] (v_target v) d else d) (v_dgrams v)
  else v_in v.

(** Towards lwIP.  [n]: how often the first write is still to be answered, [a]:
    the client is live. *)
Record DI (udp u conn : bool) (w : down) (n : Z) (a : Prop) : Prop := {
  di_reads : d_reads w = if read_buf_guard (d_recv w) then 1 else 0;
  di_first : 0 <= n <= (if conn then 1 else 0);
  (* nothing was read before the first write was answered *)
  di_fresh : conn = false \/ n = 1 ->
    read_buf_guard (d_recv w) = false /\ read_buf (d_recv w) = [] /\ d_remote w = [] /\ d_out w = [];
  di_guard : udp = false -> read_buf_guard (d_recv w) = true -> read_buf (d_recv w) = [];
  di_small : udp = false -> zlen (read_buf (d_recv w)) <= MAX_BUF_LENGTH;
  di_tcp : a -> udp = false /\ u = false;
  di_exact : a -> d_out w ++ read_buf (d_recv w) = d_remote w;
  di_prefix : d_out w `prefix_of` d_remote w
}.
(** Towards the remote host, when [inp] was given and [want] is to be written.
    [d]: the session is destroyed. *)
Record UI (v : view) (inp want : bytes) (d : bool) : Prop := {
  ui_flight : v_flight v = if v_sending v then Some (negb (v_cur v)) else None;
  ui_idle : v_sending v = false -> v_flying v = [];
  ui_writes : v_writes v = if v_sending v then 1 else 0;
  ui_cns : 0 <= v_tls v <= v_cns v /\ v_cns v <= (if v_conn v then 0 else 1);
  ui_local : (v_relays v = false -> v_cns v = 0) /\ (v_proxy v = false -> v_tls v = 0);
  ui_direct : v_piped v = false /\ v_pops v = 0;
  ui_before : v_conn v = false ->
    v_sent v = [] /\ v_sending v = false /\ v_waiting v = [] /\
    (d = false -> v_relays v = true -> v_send v = inp);
  ui_after : v_conn v = true ->
    v_sent v ++ v_waiting v `prefix_of` want /\
    (d = false -> v_relays v = true -> v_sent v ++ v_waiting v = want)
}.
Definition UIv (v : view) (d : bool) : Prop := UI v (v_input v) (v_request v ++ v_input v) d.
Definition RI (v : view * down) (n : Z) (a : Prop) (d : bool) : Prop :=
  DI (v_frames (fst v)) (v_udp (fst v)) (v_conn (fst v)) (snd v) n a /\ UIv (fst v) d.

Lemma UI_mono v inp want d d' : UI v inp want d -> (d = true -> d' = true) -> UI v inp want d'.
Proof.
  intros [] Hd. assert (Hd' : d' = false -> d = false) by (destruct d; [by rewrite Hd|done]).
  split; try done; intros H.
  - destruct (ui_before0 H) as (H1 & H2 & H3 & H4). split_and!; auto.
  - destruct (ui_after0 H) as (H1 & H2). split_and!; auto.
Qed.
Lemma DI_mono udp u conn w n (a : Prop) n' (a' : Prop) :
  DI udp u conn w n a -> 0 <= n' <= n -> (a' -> a) -> DI udp u conn w n' a'.
Proof.
  intros [] Hn Ha. split; try done.
  - destruct conn; lia.
  - intros [H|H]; apply di_fresh0; [by left|right]. destruct conn; lia.
  - auto.
  - auto.
Qed.
Lemma RI_mono v n a d n' (a' : Prop) d' :
  RI v n a d -> 0 <= n' <= n -> (a' -> a) -> (d = true -> d' = true) -> RI v n' a' d'.
Proof. intros [H1 H2] Hn Ha Hd. split; [by eapply DI_mono|by eapply UI_mono]. Qed.

Lemma nfirst_nonneg hs : 0 <= nfirst hs.
Proof. apply zlen_nonneg. Qed.

(** The invariant of a session, while [n] first writes are to be answered *)
Definition OIn (n : Z) (o : TunObj) (l : list top) (t : list teffect) : Prop :=
  RI (both_of o l t) n (live o) (m_destroyed (to_session o)) /\ dead_ok (to_session o).
Definition OI (o : TunObj) (l : list top) (t : list teffect) : Prop := OIn (firsts o) o l t.

Lemma OIn_view v n (a : Prop) d o l t :
  RI v n a d -> both_of o l t = v -> (live o -> a) -> (d = true -> m_destroyed (to_session o) = true) ->
  dead_ok (to_session o) -> OIn n o l t.
Proof.
  intros HR E Ha Hd Ho. split; [|done]. rewrite E. eapply RI_mono; [exact HR| |done|done].
  destruct HR as [[] _]. lia.
Qed.
Lemma OI_calm v n a d o l t :
  RI v n a d -> calm v n a o l t -> dying d (to_session o) -> OI o l t.
Proof.
  intros HR (<- & H2 & H3) [H4 H5]. split; [|done]. eapply RI_mono; [exact HR| |done|done].
  split; [apply nfirst_nonneg|done].
Qed.
Lemma OI_here o l t : OI o l t -> calm (both_of o l t) (firsts o) (live o) o l t /\
  dying (m_destroyed (to_session o)) (to_session o).
Proof. intros [HR Hd]. split; [apply calm_here|by split]. Qed.

(** *** Handlers the view does not show *)

Section Handlers.
Context {P : Type} {FW : Forwarders P} {FL : ForwardersLaws P} (h : nat).
Context (tcp_sndbuf tcp_write tcp_output tcp_close : nat -> Z) (in_pipeline : nat -> bool).
Context (cancel_ec : nat -> error_code).

(** The invariant, and the view of before *)
Definition OIs (v : view * down) (n : Z) (o : TunObj) (l : list top) (t : list teffect) : Prop :=
  OI o l t /\ both_of o l t = v /\ firsts o <= n.
Lemma OIs_here o l t : OI o l t -> OIs (both_of o l t) (firsts o) o l t.
Proof. intros H. split; [exact H|]. by split. Qed.
Lemma ois_quiet {A} (m : @TM P A) v n o l t :
  (forall n a d, calm v n a o l t -> dying d (to_session o) -> 0 <= n ->
     on h m (fun _ o l t => calm v n a o l t /\ dying d (to_session o)) o l t) ->
  OIs v n o l t -> on h m (fun _ => OIs v n) o l t.
Proof.
  intros Hm (HI & Hv & Hn). destruct (OI_here o l t HI) as [H1 H2]. rewrite Hv in H1.
  eapply on_mono; [apply (Hm _ _ _ H1 H2), nfirst_nonneg|].
  intros ? o1 l1 t1 [H3 H4]. destruct HI as [HR _]. rewrite Hv in HR. split; [by eapply OI_calm|].
  destruct H3 as (E1 & E2 & _). split; [done|lia].
Qed.
Lemma oi_quiet {A} (m : @TM P A) o l t :
  (forall v n a d, calm v n a o l t -> dying d (to_session o) -> 0 <= n ->
     on h m (fun _ o l t => calm v n a o l t /\ dying d (to_session o)) o l t) ->
  OI o l t -> on h m (fun _ => OI) o l t.
Proof.
  intros Hm HI. eapply on_mono; [apply (ois_quiet m (both_of o l t) (firsts o) o l t (Hm _)), OIs_here, HI|].
  intros ? o1 l1 t1 (H1 & _). exact H1.
Qed.
Lemma ois_timer_wait v n o l t :
  OIs v n o l t -> on h (ts_udp_timer_async_wait cfg false tcp_close cancel_ec h) (fun _ => OIs v n) o l t.
Proof. apply ois_quiet. intros n' a d. by apply on_timer_wait. Qed.
Lemma ois_destroy pipeline_call v n o l t :
  OIs v n o l t -> on h (ts_destroy false tcp_close h pipeline_call) (fun _ => OIs v n) o l t.
Proof.
  apply ois_quiet. intros n' a d H1 [H2 _] H3. eapply on_mono; [by apply on_ts_destroy|].
  intros ? o1 l1 t1 [H4 H5]. split; [done|]. by apply gone_dying.
Qed.
Lemma oi_destroy pipeline_call o l t :
  OI o l t -> on h (ts_destroy false tcp_close h pipeline_call)
    (fun _ o l t => OI o l t /\ m_destroyed (to_session o) = true) o l t.
Proof.
  intros HI. destruct (OI_here o l t HI) as [H1 [H2 _]]. eapply on_mono; [apply (on_ts_destroy h); [exact H1|done|]|].
  { apply nfirst_nonneg. }
  intros ? o1 l1 t1 [H3 H4]. destruct HI as [HR _]. split; [|by destruct H4]. eapply OI_calm; [done|done|].
  by apply gone_dying.
Qed.
Lemma oi_destroyed pipeline_call o l t :
  OI o l t -> on h (ts_destroy false tcp_close h pipeline_call) (fun _ => OI) o l t.
Proof. intros HI. eapply on_mono; [by apply oi_destroy|]. by intros ? ??? []. Qed.
Lemma oi_close_client abort owner o l t :
  OI o l t -> on h (tc_close_client false tcp_close h abort owner) (fun _ => OI) o l t.
Proof.
  apply oi_quiet. intros v n a d H1 H2 H3. eapply on_mono; [by eapply on_close_client|].
  intros ? o1 l1 t1 [H4 H5]. split; [|done]. by eapply calm_weak.
Qed.
Lemma oi_err_func o l t :
  OI o l t -> on h (tc_client_err_func false tcp_close h) (fun _ => OI) o l t.
Proof.
  apply oi_quiet. intros v n a d H1 H2 H3. apply on_bind. eapply on_mono; [by eapply on_close_session|].
  intros ? o1 l1 t1 [H4 H5]. eapply on_mono; [by eapply (on_release h v n)|].
  intros ? o2 l2 t2 [H6 H7]. split; [|exact H7]. by eapply calm_weak.
Qed.
Lemma oi_timer_wait o l t :
  OI o l t -> on h (ts_udp_timer_async_wait cfg false tcp_close cancel_ec h) (fun _ => OI) o l t.
Proof. apply oi_quiet. intros v n a d. by apply on_timer_wait. Qed.
Lemma oi_timer_fired timeout error o l t :
  OI o l t -> on h (ts_udp_timer_fired cfg false tcp_close cancel_ec h timeout error) (fun _ => OI) o l t.
Proof. apply oi_quiet. intros v n a d. by apply on_timer_fired. Qed.

(** *** Reading from the remote host *)

Lemma DI_begin udp u r reads remote out a :
  DI udp u true (mkDown r reads remote out) 0 a -> read_buf_guard r = false -> (udp = false -> read_buf r = []) ->
  DI udp u true (mkDown (r <| read_buf_guard := true |>) (reads + 1) remote out) 0 a.
Proof.
  intros [] Hg Hb. split; cbn in *; try done.
  - rewrite di_reads0, Hg. done.
  - by intros [|].
  - auto.
Qed.
Lemma on_start_read (Q : post unit) o l t :
  read_buf_guard (m_recv_buf (to_session o)) = false ->
  Q tt (o <| to_session ::= fun s => s <| m_recv_buf ::= fun r => r <| read_buf_guard := true |> |> |>) (l ++ [TRead h]) t ->
  on h (@ts_start_read P h) Q o l t.
Proof.
  intros Hg HQ. apply on_bind, on_getT, on_bind. rewrite begin_read_ok by done.
  apply on_lift; [done|done|]. intros r [= <-]. by apply on_bind, on_modO, on_t_start.
Qed.
Lemma oi_start_read o l t :
  OIn 0 o l t -> m_connected (to_session o) = true -> read_buf_guard (m_recv_buf (to_session o)) = false ->
  (ts_proxy (to_session o) && is_udp (to_session o) = false -> read_buf (m_recv_buf (to_session o)) = []) ->
  on h (@ts_start_read P h) (fun _ o' l t => OIn 0 o' l t /\ firsts o' = firsts o) o l t.
Proof.
  intros [[HD HU] Hd] Hc Hg Hb. apply on_start_read; [done|].
  unfold both_of, down_of in *. cbn [fst snd v_frames view_of v_proxy v_udp v_conn] in *. rewrite Hc in HD.
  pose proof (DI_begin _ _ _ _ _ _ _ HD Hg Hb) as HD'. split; [|done]. split; [|exact Hd].
  unfold both_of, view_of, down_of. rewrite !cnt_snoc. split.
  - cbn [fst snd]. cbn. rewrite Hc. exact HD'.
  - cbn [fst]. rewrite !Z.add_0_r. exact HU.
Qed.

(** *** Writing to lwIP *)

(** [w] with [data] written *)
Definition wrote_down (w : down) (data : bytes) : down :=
  mkDown (d_recv w) (d_reads w) (d_remote w) (d_out w ++ data).
Lemma view_out o l t data :
  both_of o l (t ++ [LwipOut h data]) = (view_of o l t, wrote_down (down_of o l t) data).
Proof.
  unfold both_of, view_of, down_of, wrote_down, lwip_in, lwip_out, from_remote, to_remote, datagrams.
  rewrite !flat_map_app. cbn [flat_map d_recv d_reads d_remote d_out]. by rewrite !app_nil_r.
Qed.

Lemma sub_split data p m k : 0 <= p -> 0 <= m -> 0 <= k -> sub_ data p m ++ sub_ data (p + m) k = sub_ data p (m + k).
Proof.
  intros Hp Hm Hk. unfold sub_. rewrite !Z2Nat.inj_add by lia. rewrite <- drop_drop. apply take_take_drop.
Qed.

(** The loop writes a part of [data] from [wrote] on. *)
Lemma on_write_loop fuel data wrote o l t :
  (length data < Z.to_nat wrote + fuel)%nat -> 0 <= wrote <= zlen data -> zlen data <= MAX_BUF_LENGTH ->
  on h (@tc_write_loop P tcp_sndbuf tcp_write fuel h data wrote)
    (fun r o' l' t' => o' = o /\ l' = l /\ exists w, wrote <= w <= zlen data /\
       both_of o l t' = (view_of o l t, wrote_down (down_of o l t) (sub_ data wrote (w - wrote))) /\
       (r = Some w \/ r = None)) o l t.
Proof.
  revert wrote t. induction fuel as [|fuel IH]; intros wrote t Hf Hw Hs; [unfold zlen in *; lia|].
  cbn [tc_write_loop]. apply on_bind, on_t_ask. intros n.
  set (to_write := Z.min (zlen data - wrote) (u16 n)). pose proof (u16_range n) as Hu.
  assert (Hnone : both_of o l t = (view_of o l t, wrote_down (down_of o l t) (sub_ data wrote (wrote - wrote)))).
  { rewrite Z.sub_diag. unfold sub_, both_of, wrote_down. cbn [Z.to_nat take]. by rewrite app_nil_r. }
  destruct (Z.eqb_spec to_write 0).
  { apply on_ret. split_and!; [done|done|]. exists wrote. split_and!; [lia|lia|done|by left]. }
  apply on_bind, on_t_ask. intros err. destruct (negb (err =? ERR_OK)).
  { destruct (err =? ERR_MEM); apply on_ret; (split_and!; [done|done|]); exists wrote; split_and!; auto; lia. }
  rewrite u16_small by (unfold MAX_BUF_LENGTH in *; lia). apply on_bind, on_t_emit; [done|].
  assert (Hmore : forall w, wrote + to_write <= w <= zlen data ->
    sub_ data wrote to_write ++ sub_ data (wrote + to_write) (w - (wrote + to_write)) = sub_ data wrote (w - wrote)).
  { intros w Hw'. rewrite sub_split by lia. f_equal. lia. }
  destruct (Z.ltb_spec 0 (zlen data - (wrote + to_write))).
  - eapply on_mono; [apply IH; lia|]. intros r o1 l1 t1 (-> & -> & w & Hw1 & Hv & Hr). split_and!; [done|done|].
    exists w. split; [lia|]. split; [|done]. rewrite Hv. pose proof (view_out o l t (sub_ data wrote to_write)) as Ev. apply pair_equal_spec in Ev as [-> ->].
    unfold wrote_down. cbn. by rewrite <- app_assoc, Hmore.
  - apply on_ret. split_and!; [done|done|]. exists (wrote + to_write). split; [lia|]. split; [|by left].
    rewrite view_out. by replace (wrote + to_write - wrote) with to_write by lia.
Qed.

(** Something was read, so reading has begun and no read is in progress. *)
Lemma DI_buffered u conn r reads remote out n a :
  DI false u conn (mkDown r reads remote out) n a -> read_buf r <> [] -> read_buf_guard r = false /\ conn = true /\ n = 0.
Proof.
  intros [] Hb. cbn in *. destruct (read_buf_guard r) eqn:Hg; [by destruct Hb; apply di_guard0|].
  destruct conn; [|by destruct di_fresh0 as (_ & ? & _); [left|]].
  split_and!; [done|done|]. destruct (decide (n = 1)) as [->|]; [|lia].
  by destruct di_fresh0 as (_ & ? & _); [right|].
Qed.
Lemma DI_written u conn r reads remote out n (a : Prop) w :
  DI false u conn (mkDown r reads remote out) n a -> a -> read_buf r <> [] ->
  let out' := out ++ take w (read_buf r) in
  DI false u conn (mkDown r reads remote out') n False /\
  DI false u conn (mkDown (r <| read_buf ::= drop w |>) reads remote out') n a.
Proof.
  intros HD Ha Hb. destruct (DI_buffered _ _ _ _ _ _ _ _ HD Hb) as (Hg & -> & ->). destruct HD. cbn in *.
  assert (Hpre : out ++ take w (read_buf r) `prefix_of` remote).
  { exists (drop w (read_buf r)). by rewrite <- app_assoc, take_drop, di_exact0. }
  split; split; cbn in *; try done; try (by intros [|]); try congruence.
  - intros _. pose proof (di_small0 eq_refl). unfold zlen in *. rewrite length_drop. lia.
  - intros _. rewrite <- app_assoc, take_drop. auto.
Qed.

(** The octets given to lwIP leave the buffer; the next read begins when it is
    empty. *)
Lemma oi_recv_buf_consume w o l t :
  OIn 0 (o <| to_session ::= fun s => s <| m_recv_buf ::= fun r => r <| read_buf ::= drop (Z.to_nat w) |> |> |>) l t ->
  firsts o = 0 -> m_connected (to_session o) = true -> read_buf_guard (m_recv_buf (to_session o)) = false ->
  on h (ts_recv_buf_consume false tcp_close in_pipeline h w) (fun _ => OI) o l t.
Proof.
  intros HI Hn Hc Hg. apply on_bind, on_modO, on_bind, on_getT.
  match goal with |- on h _ _ ?o1 l t => set (o1' := o1) end. change (OIn 0 o1' l t) in HI.
  assert (HI' : OI o1' l t) by (unfold OI; change (firsts o1') with (firsts o); by rewrite Hn).
  apply on_when; intros Hz; [|exact HI']. apply Z.eqb_eq, zlen_zero in Hz.
  assert (Hread : on h (@ts_start_read P h) (fun _ => OI) o1' l t).
  { eapply on_mono; [by apply (oi_start_read o1' l t)|]. intros ? o2 l2 t2 [H1 H2]. unfold OI. rewrite H2.
    change (firsts o1') with (firsts o). by rewrite Hn. }
  destruct (ts_proxy _); [|exact Hread]. apply on_bind, on_getT. destruct (m_destroyed _); [by apply on_skip|].
  exact Hread.
Qed.

Lemma oi_socks_recv_send_out o l t :
  OI o l t ->
  on h (tc_client_socks_recv_send_out false tcp_sndbuf tcp_write tcp_output tcp_close in_pipeline h)
    (fun _ => OI) o l t.
Proof.
  intros HI. pose proof HI as [[HD HU] Hd]. apply on_bind, on_getK. intros k Hk.
  destruct (m_aborted k) eqn:Ea; [by apply on_ret|]. destruct (m_closed k) eqn:Ec; [by apply on_ret|].
  assert (Hl : live o) by (by exists k). apply on_bind, on_getT. cbv zeta.
  destruct (Z.eqb_spec (zlen (read_buf (m_recv_buf (to_session o)))) 0) as [|Hz]; [by apply on_ret|].
  assert (Hb : read_buf (m_recv_buf (to_session o)) <> []) by (intros E; by rewrite E in Hz).
  set (data := read_buf (m_recv_buf (to_session o))) in *. pose proof (proj1 (di_tcp _ _ _ _ _ _ HD Hl)) as Hf. rewrite Hf in HD.
  pose proof (di_small _ _ _ _ _ _ HD eq_refl) as Hs. cbn in Hs. fold data in Hs.
  destruct (DI_buffered _ _ _ _ _ _ _ _ HD Hb) as (Hg & Hc & Hn). cbn in Hc.
  apply on_bind. eapply on_mono; [apply (on_write_loop _ data 0); [lia|unfold zlen in *; lia|exact Hs]|].
  intros r o1 l1 t1 (-> & -> & w & Hw & Hv & Hr). cbv beta.
  replace (sub_ data 0 (w - 0)) with (take (Z.to_nat w) data) in Hv by (unfold sub_; by rewrite Z.sub_0_r).
  destruct (DI_written _ _ _ _ _ _ _ _ (Z.to_nat w) HD Hl Hb) as [HD1 HD2]. fold data in HD1, HD2.
  assert (Hfail : on h (tc_close_client false tcp_close h true false ;;; ret (-1)) (fun _ => OI) o l t1).
  { apply on_bind. eapply on_mono; [eapply (on_close_client h tcp_close false true false _ (firsts o))|].
    - split_and!; [exact Hv|done|]. exact (fun H => H).
    - split; [exact Hd|exact (fun H => H)].
    - apply nfirst_nonneg.
    - intros ? o2 l2 t2 [H1 H2]. apply on_ret. eapply OI_calm; [|exact H1|exact H2]. split; [|exact HU].
      cbn [fst snd both_of] in *. rewrite Hf. exact HD1. }
  destruct Hr as [-> | ->]; [|exact Hfail].
  apply on_bind, on_t_ask. intros err. destruct (negb (err =? ERR_OK)); [exact Hfail|].
  apply on_bind, on_modO, on_bind. rewrite u16_small by (unfold MAX_BUF_LENGTH in *; lia).
  eapply on_mono; [apply oi_recv_buf_consume; [|done..]|].
  - rewrite Hn in HD2. apply pair_equal_spec in Hv as [E1 E2]. injection E2 as E3 E4. cbn [fst snd both_of] in *.
    eapply (OIn_view (view_of o l t, _)); [split; [|exact HU]; cbn [fst snd]; rewrite Hf; exact HD2| | |done|exact Hd].
    + unfold both_of. f_equal; [exact E1|]. unfold down_of. cbn. by rewrite E3, E4.
    + intros Hl'. exact Hl.
  - intros ? o2 l2 t2 H2. by apply on_ret.
Qed.

Lemma oi_write_tcp o l t :
  OI o l t ->
  on h (ts_write_tcp false tcp_sndbuf tcp_write tcp_output tcp_close in_pipeline h) (fun _ => OI) o l t.
Proof.
  intros HI. apply on_bind. eapply on_mono; [by apply oi_socks_recv_send_out|]. intros r o1 l1 t1 H1.
  apply on_when; intros _; [by apply oi_destroyed|done].
Qed.

(** *** UDP: from the remote host to the device *)

Section Udp.
Context (m_mtu : Z) (write_some : nat -> bytes -> error_code * Z).
Context (ipv4_checksum : bytes -> byte * byte) (udp_checksum : bytes -> bytes -> bytes -> bytes -> byte * byte).
Hypothesis mtu_range : 28 < m_mtu < 65536.

Lemma on_td_write_udp local remote data (Q : post unit) o l t :
  Q tt o l t -> on h (@td_write_udp P m_mtu write_some ipv4_checksum udp_checksum local remote data) Q o l t.
Proof. apply on_on_out. intros x. apply handle_write_ends; [done|lia]. Qed.
Lemma on_ts_write_udp data (Q : post unit) o l t :
  Q tt o l t -> on h (@ts_write_udp P m_mtu write_some ipv4_checksum udp_checksum h data) Q o l t.
Proof. intros HQ. by apply on_bind, on_getT, on_td_write_udp. Qed.

(** Every packet is given to the device; what is left is too short. *)
Lemma ois_parse_udp fuel data parsed v n o l t :
  (length data < fuel)%nat -> OIs v n o l t ->
  on h (ts_parse_udp_packet_data false m_mtu tcp_close write_some ipv4_checksum udp_checksum fuel h data parsed)
    (fun _ => OIs v n) o l t.
Proof.
  revert data parsed o l t. induction fuel as [|fuel IH]; intros data parsed o l t Hf HI; [lia|].
  cbn [ts_parse_udp_packet_data]. destruct (Z.eqb_spec (zlen data) 0); [by apply on_ret|]. apply on_bind, on_lift.
  { intros e He. by apply UDP_parse_nothrow in He. } { intros u Hu. right. by eapply UDP_parse_octet03. }
  intros [[packet packet_len]|] Hp.
  - apply UDPPacket.packet_parse_Some in Hp as (w & rest & -> & Hw & ->). apply on_bind, on_ts_write_udp, on_bind.
    rewrite substr_from_ok by (rewrite zlen_app; pose proof (zlen_nonneg rest); lia).
    apply on_lift; [done|done|]. intros r [= <-]. apply IH; [|done].
    assert (0 < length w)%nat.
    { destruct Hw as (_ & _ & aw & _ & ->). rewrite !length_app. cbn. lia. }
    unfold zlen. rewrite Nat2Z.id, drop_app_length. rewrite length_app in Hf. lia.
  - apply on_bind. eapply on_mono with (P := fun _ => OIs v n).
    + apply on_when; intros _; [by apply ois_destroy|done].
    + intros ? o1 l1 t1 H1. by apply on_ret.
Qed.

(** *** A read that has ended *)

Lemma DI_ended udp u conn r k remote out n a :
  DI udp u conn (mkDown r (k + 1) remote out) n a -> 0 <= k ->
  k = 0 /\ conn = true /\ n = 0 /\ (udp = false -> read_buf r = []) /\
  DI udp u true (mkDown (end_read r) 0 remote out) 0 a.
Proof.
  intros [] Hk. cbn in *. destruct (read_buf_guard r) eqn:Hg; [|lia]. assert (k = 0) as -> by lia.
  destruct conn; [|by destruct (di_fresh0 (or_introl eq_refl)) as [? _]].
  assert (n = 0) as ->. { destruct (decide (n = 1)) as [E|]; [by destruct (di_fresh0 (or_intror E)) as [? _]|lia]. }
  split_and!; auto. split; cbn; try done. by intros [|].
Qed.
Lemma DI_commit udp u r remote out a data :
  DI udp u true (mkDown r 0 remote out) 0 a -> (udp = false -> read_buf r = []) -> zlen data <= MAX_BUF_LENGTH ->
  DI udp u true (mkDown (rb_commit r data) 0 (remote ++ data) out) 0 a.
Proof.
  intros [] Hb Hs. cbn in *. destruct (read_buf_guard r) eqn:Hg; [done|].
  split; cbn; rewrite ?Hg; try done; try (by intros [|]).
  - intros Hu. by rewrite (Hb Hu).
  - intros Ha. by rewrite app_assoc, di_exact0.
  - by apply prefix_app_r.
Qed.
Lemma view_remote o l t data :
  both_of o l (t ++ [Remote h data]) =
  (view_of o l t, mkDown (m_recv_buf (to_session o)) (cnt is_trd l) (from_remote t ++ data) (lwip_out t)).
Proof.
  unfold both_of, view_of, down_of, lwip_in, lwip_out, from_remote, to_remote, datagrams.
  rewrite !flat_map_app. cbn [flat_map]. by rewrite !app_nil_r.
Qed.

Context (depth : nat) (some_depth : (0 < depth)%nat).

(** A session that frames its datagrams reads again at once. *)
Lemma oi_out_async_read o l t :
  OIn 0 o l t -> firsts o = 0 -> m_connected (to_session o) = true ->
  read_buf_guard (m_recv_buf (to_session o)) = false ->
  (ts_proxy (to_session o) && is_udp (to_session o) = false -> read_buf (m_recv_buf (to_session o)) = []) ->
  on h (ts_out_async_read cfg false m_mtu tcp_sndbuf tcp_write tcp_output tcp_close write_some ipv4_checksum udp_checksum
          in_pipeline cancel_ec depth h) (fun _ o' l t => OIn 0 o' l t /\ firsts o' = firsts o) o l t.
Proof.
  intros HI Hn Hc Hg Hb. destruct depth as [|dp]; [lia|]. cbn [ts_out_async_read]. apply on_bind, on_getT.
  rewrite andb_false_r. destruct (negb _ && _); [by apply on_skip|]. by apply oi_start_read.
Qed.

Lemma DI_frames_buf u r reads remote out a b :
  DI true u true (mkDown r reads remote out) 0 a -> DI true u true (mkDown (r <| read_buf := b |>) reads remote out) 0 a.
Proof.
  intros []. split; cbn in *; try done; [by intros [|]|]. intros Ha. by destruct (di_tcp0 Ha).
Qed.
(** The view after a read has ended *)
Lemma view_after o l0 l t x :
  after l0 x l -> is_twr x = false -> is_tcn x = false -> is_tls x = false -> is_pop x = false ->
  view_of o l0 t = view_of o l t.
Proof.
  intros Ha E1 E2 E3 E4. unfold view_of.
  by rewrite (Ha is_twr), (Ha is_tcn), (Ha is_tls), (Ha is_pop), E1, E2, E3, E4, !Z.add_0_r.
Qed.
Lemma OIn_OI n o l t : OIn n o l t -> firsts o = n -> OI o l t.
Proof. by intros H <-. Qed.

Lemma oi_udp_recv data o l t v :
  OIs v 0 o l t -> v_frames (fst v) = true -> v_conn (fst v) = true ->
  on h (ts_udp_recv false m_mtu tcp_close write_some ipv4_checksum udp_checksum h data)
    (fun _ o' l' t' => OI o' l' t' /\ firsts o' = 0 /\
       exists b, both_of o' l' t' = (fst v, mkDown (d_recv (snd v) <| read_buf := b |>) (d_reads (snd v))
         (d_remote (snd v)) (d_out (snd v)))) o l t.
Proof.
  intros HI Hf Hc. apply on_bind. eapply on_mono; [apply ois_parse_udp; [lia|exact HI]|].
  intros parsed o1 l1 t1 (([HD HU] & Hd) & Hv & Hn). apply on_modO. pose proof (nfirst_nonneg (handlers (to_session o1))).
  assert (H0 : firsts o1 = 0) by (unfold firsts in *; lia). rewrite Hv, H0, Hf, Hc in HD. destruct v as [v [r rd rm ou]]. cbn in HD, Hf, Hc |- *.
  split; [|split; [exact H0|]].
  - eapply (OIn_OI 0); [|exact H0]. 
    eapply (OIn_view (v, mkDown (r <| read_buf := consume (read_buf r) parsed |>) rd rm ou));
      [split; [|rewrite Hv in HU; exact HU]|..]; cbn [fst snd].
    + rewrite Hf, Hc. by apply DI_frames_buf.
    + apply pair_equal_spec in Hv as [E1 E2]. injection E2 as E3 E4 E5 E6. unfold both_of, down_of. f_equal; [exact E1|].
      cbn. rewrite E3, E4, E5, E6. cbn. reflexivity.
    + exact (fun x => x).
    + exact (fun x => x).
    + exact Hd.
  - apply pair_equal_spec in Hv as [E1 E2]. injection E2 as E3 E4 E5 E6. eexists. unfold both_of, down_of. cbn.
    f_equal; [exact E1|]. rewrite E3, E4, E5, E6. reflexivity.
Qed.

Lemma oi_read_done ec data l0 o l t :
  OI o l0 t -> after l0 (TRead h) l -> zlen data <= MAX_BUF_LENGTH ->
  on h (ts_read_done cfg false m_mtu tcp_sndbuf tcp_write tcp_output tcp_close write_some ipv4_checksum udp_checksum
          in_pipeline cancel_ec depth h ec data) (fun _ => OI) o l t.
Proof.
  intros [[HD HU] Hd] Ha Hs. unfold both_of, down_of in HD, HU. cbn [fst snd] in HD, HU.
  rewrite (view_after o l0 l t (TRead h)) in HD, HU by done. rewrite (Ha is_trd) in HD.
  destruct (DI_ended _ _ _ _ _ _ _ _ _ HD (cnt_nonneg _ _)) as (Hk & Hc & Hn & Hb & HD1). clear HD.
  apply on_bind, on_modO. set (o1 := o <| to_session ::= _ |>).
  assert (HI1 : OIn 0 o1 l t).
  { split; [|exact Hd]. split; [|exact HU]. unfold both_of, down_of. cbn [fst snd]. rewrite Hk.
    change (v_conn (view_of o1 l t)) with (v_conn (view_of o l t)). rewrite Hc. exact HD1. }
  destruct (negb (ec =? 0)).
  { apply oi_destroyed. by eapply OIn_OI. }
  apply on_bind, on_t_emit; [done|]. apply on_bind, on_modO, on_bind, on_modO, on_bind, on_getT.
  match goal with |- on h _ _ ?x l _ => set (o2 := x) end.
  pose proof (DI_commit _ _ _ _ _ _ data HD1 Hb Hs) as HD2.
  assert (Hv2 : both_of o2 l (t ++ [Remote h data]) = (view_of o l t, mkDown (m_recv_buf (to_session o2)) 0
    (from_remote t ++ data) (lwip_out t))).
  { rewrite view_remote, Hk. done. }
  assert (HI2 : OIn 0 o2 l (t ++ [Remote h data])).
  { eapply OIn_view; [|exact Hv2|exact (fun x => x)|exact (fun x => x)|exact Hd]. split; [|exact HU].
    cbn [fst snd]. rewrite Hc. exact HD2. }
  destruct (ts_proxy _ && is_udp _) eqn:Ef.
  - apply on_bind. eapply on_mono; [apply (ois_timer_wait (both_of o2 l (t ++ [Remote h data])) 0); split; [|split; [done|]]|].
    { by eapply OIn_OI. } { by change (firsts o2) with (firsts o); rewrite Hn. }
    intros ? o3 l3 t3 H3. cbv beta. apply on_bind, on_getT, on_bind.
    eapply on_mono; [eapply oi_udp_recv; [exact H3|exact Ef|exact Hc]|]. clear H3.
    intros ? o4 l4 t4 (H4 & Hn4 & b & Hv4). cbv beta. apply on_bind, on_getT. destruct (m_destroyed (to_session o4)); [by apply on_skip|].
    rewrite Hv2 in Hv4. apply pair_equal_spec in Hv4 as [E1 E2]. injection E2 as E3 E4 E5 E6.
    eapply on_mono; [apply oi_out_async_read; [|exact Hn4|..]|].
    + unfold OI in H4. by rewrite Hn4 in H4.
    + change (v_conn (view_of o4 l4 t4) = true). rewrite E1. exact Hc.
    + rewrite E3. done.
    + change (v_frames (view_of o4 l4 t4) = false -> read_buf (m_recv_buf (to_session o4)) = []). rewrite E1.
      intros Ef'. destruct (eq_true_false_abs _ Ef Ef').
    + intros ? o5 l5 t5 [H5 Hn5]. eapply OIn_OI; [exact H5|congruence].
  - apply on_bind, on_modO. apply oi_write_tcp. by eapply OIn_OI.
Qed.

(** *** The cache in front of the socket *)

(** A write begins: the buffers change places. *)
Definition v_begin (v : view) : view :=
  v <| v_sending := true |> <| v_cur ::= negb |> <| v_flight := Some (v_cur v) |>
    <| v_sent ::= fun x => x ++ v_waiting v |> <| v_writes ::= fun k => k + 1 |>.
Lemma UI_begin v inp want d :
  UI v inp want d -> v_conn v = true -> v_sending v = false -> UI (v_begin v) inp want d.
Proof.
  intros [] Hc Hs. specialize (ui_idle0 Hs). destruct v. unfold v_begin, v_waiting, v_flying, v_relays in *. cbn in *. subst.
  destruct v_cur0; cbn in *; subst; split; cbn in *; rewrite ?app_nil_r; try done; intros _;
    destruct (ui_after0 eq_refl) as [H1 H2]; by rewrite app_nil_r.
Qed.

(** [async_send] either leaves the cache or begins a write. *)
Lemma async_send_cases {H} (c : @SendDataCache.cache H) :
  SendDataCache.async_send c = c \/
  (SendDataCache.is_async_sending c = false /\ exists lg, SendDataCache.async_send c =
     c <| SendDataCache.is_async_sending := true |> <| SendDataCache.current_is_first ::= negb |>
       <| SendDataCache.flight := Some (SendDataCache.current_is_first c) |> <| SendDataCache.log := lg |>).
Proof.
  unfold SendDataCache.async_send. destruct (_ || _) eqn:E; [by left|right]. bool_facts. split; [done|]. by eexists.
Qed.

Lemma both_write o l t :
  both_of o (l ++ [TWrite h]) t = (view_of o l t <| v_writes ::= fun k => k + 1 |>, down_of o l t).
Proof. unfold both_of, view_of, down_of. rewrite !cnt_snoc. cbn. by rewrite !Z.add_0_r. Qed.
Lemma view_sent o l t data :
  both_of o l (t ++ [ToRemote h data]) = (view_of o l t <| v_sent ::= fun x => x ++ data |>, down_of o l t).
Proof.
  unfold both_of, view_of, down_of, lwip_in, lwip_out, from_remote, to_remote, datagrams.
  rewrite !flat_map_app. cbn. by rewrite !app_nil_r.
Qed.

(** The invariant of a connected session *)
Definition OIc (o : TunObj) (l : list top) (t : list teffect) : Prop :=
  OI o l t /\ m_connected (to_session o) = true.
Definition with_cache (c : @SendDataCache.cache thandler) (o : TunObj) : TunObj :=
  o <| to_session ::= fun s => s <| m_sending_data_cache := c |> |>.
(** The cache is stored with a write begun. *)
Lemma oi_put_async_send c0 c o l t :
  SendDataCache.is_async_sending c0 = SendDataCache.is_async_sending c ->
  OI (with_cache c o) l t -> m_connected (to_session o) = true ->
  on h (@ts_put_cache P h c0 (SendDataCache.async_send c)) (fun _ => OIc) o l t.
Proof.
  intros Hs0 [[HD HU] Hd] Hc. unfold ts_put_cache. apply on_bind, on_modO.
  destruct (async_send_cases c) as [E|(Es & lg & E)].
  - rewrite E, Hs0. destruct (SendDataCache.is_async_sending c); cbn [negb andb]; apply on_skip; (split; [split; [split|]|]);
      [exact HD|exact HU|exact Hd|exact Hc|exact HD|exact HU|exact Hd|exact Hc].
  - rewrite Hs0, Es. cbn [negb andb when]. rewrite E. cbn [SendDataCache.is_async_sending SendDataCache.flight update].
    apply on_bind, on_t_emit; [done|]. apply on_t_start; [done|].
    split; [|exact Hc].
    eapply OIn_view with (v := (v_begin (view_of (with_cache c o) l t), down_of o l t)); [|..|exact Hd].
    + split; [exact HD|]. by apply UI_begin.
    + rewrite both_write. match goal with |- context [t ++ [ToRemote h ?x]] => set (data := x) end.
      match goal with |- (view_of ?x _ _ <| _ ::= _ |>, _) = _ => pose proof (view_sent x l t data) as E1 end.
      apply pair_equal_spec in E1 as [-> ->]. unfold both_of, v_begin. by f_equal.
    + exact (fun x => x).
    + exact (fun x => x).
Qed.

(** What is added to the cache is wanted. *)
Definition v_add (data : bytes) (v : view) : view :=
  if v_cur v then v <| v_q0 ::= fun q => q ++ data |> else v <| v_q1 ::= fun q => q ++ data |>.
Lemma UI_add v inp inp' want data :
  UI v inp want false -> v_conn v = true -> v_relays v = true -> UI (v_add data v) inp' (want ++ data) false.
Proof.
  intros [] Hc Hr. destruct v. unfold v_add, v_waiting, v_flying, v_relays in *. cbn in *. subst.
  destruct (ui_after0 eq_refl) as [_ H2]. specialize (H2 eq_refl Hr).
  destruct v_cur0; cbn in *; split; cbn; try done; intros _; by rewrite app_assoc, H2.
Qed.
(** A destroyed session drops it. *)
Lemma UI_drop v inp inp' want want' : UI v inp want true -> want `prefix_of` want' -> UI v inp' want' true.
Proof.
  intros [] Hp. split; try done.
  - intros H. by destruct (ui_before0 H) as (H1 & H2 & H3 & _).
  - intros H. split; [|done]. etrans; [apply (ui_after0 H)|done].
Qed.

Lemma nfirst_app a b : nfirst (a ++ b) = nfirst a + nfirst b.
Proof. unfold nfirst. by rewrite list.filter_app, zlen_app. Qed.

(** The cache with octets and their handler added *)
Definition filled (data : bytes) (x : thandler) (c : @SendDataCache.cache thandler) : @SendDataCache.cache thandler :=
  if SendDataCache.current_is_first c
  then c <| SendDataCache.data_queue ::= fun q => q ++ data |> <| SendDataCache.handler_queue ::= fun q => q ++ [x] |>
  else c <| SendDataCache.data_queue_other ::= fun q => q ++ data |>
         <| SendDataCache.handler_queue_other ::= fun q => q ++ [x] |>.
Lemma push_filled data x (c : @SendDataCache.cache thandler) :
  let c1 := SendDataCache.emit (SendDataCache.Registered x) c in
  let c2 := SendDataCache.emit (SendDataCache.Pushed data)
    (SendDataCache.set_queue (SendDataCache.current_is_first c1) (SendDataCache.current_recv_queue c1 ++ data) c1) in
  exists lg, SendDataCache.set_handlers (SendDataCache.current_is_first c2) (SendDataCache.current_recv_handler c2 ++ [x]) c2 =
    filled data x c <| SendDataCache.log := lg |>.
Proof. destruct c as [???? []]; by eexists. Qed.

Lemma view_filled data x lg o l t :
  view_of (with_cache (filled data x (m_sending_data_cache (to_session o)) <| SendDataCache.log := lg |>) o) l t =
  v_add data (view_of o l t).
Proof. destruct o as [[? ? ? ? c] k]. by destruct c as [???? []]. Qed.

Lemma oi_push data x inp want o l t :
  let v := view_of o l t in
  DI (v_frames v) (v_udp v) true (down_of o l t) (firsts o + nfirst [x]) (live o) ->
  UI v inp want (m_destroyed (to_session o)) -> dead_ok (to_session o) -> m_connected (to_session o) = true ->
  v_relays v = true -> want `prefix_of` v_request v ++ v_input v ->
  (m_destroyed (to_session o) = false -> want ++ data = v_request v ++ v_input v) ->
  on h (@ts_push P tcp_close h data x) (fun _ => OIc) o l t.
Proof.
  intros v HD HU Hd Hc Hr Hp Hw. apply on_bind, on_getT. cbv zeta. pose proof Hd as [Hd1 Hd2].
  set (c := m_sending_data_cache (to_session o)) in *. unfold SendDataCache.push_data. cbv zeta.
  change (SendDataCache.destroyed (SendDataCache.emit _ c)) with (SendDataCache.destroyed c).
  destruct (SendDataCache.destroyed c) eqn:Ed.
  - rewrite Hd1 in HU. apply on_bind, on_bind, on_modO.
    match goal with |- on h _ _ ?y l t => set (o1 := y) end.
    assert (HI : OI o1 l t).
    { eapply OIn_view with (v := (v, down_of o l t)); [split|done|exact (fun y => y)|exact (fun y => y)|].
      - cbn [fst snd]. change (v_conn v) with (m_connected (to_session o)). rewrite Hc. eapply DI_mono; [exact HD| |done].
        split; [apply nfirst_nonneg|]. change (firsts o1) with (firsts o). pose proof (nfirst_nonneg [x]). lia.
      - unfold UIv. cbn [fst]. change (m_destroyed (to_session o1)) with (m_destroyed (to_session o)).
        rewrite Hd1. by eapply UI_drop.
      - exact Hd. }
    cbn [SendDataCache.is_async_sending SendDataCache.emit update negb andb].
    replace (negb (SendDataCache.is_async_sending c) && SendDataCache.is_async_sending c) with false
      by (by destruct (SendDataCache.is_async_sending c)).
    apply on_skip. cbn [when]. destruct (OI_here _ _ _ HI) as [H1 H2]. destruct HI as [HR _].
    eapply on_mono; [eapply (on_call_broken h tcp_close _ _ _ dead_ok); [exact H1|split; [exact Hd1|exact Hd]]|].
    intros ? o2 l2 t2 [H3 H4]. split; [eapply OI_calm; [exact HR|exact H3|]; by apply gone_dying|].
    destruct H3 as (E & _). apply pair_equal_spec in E as [E _]. change (v_conn (view_of o2 l2 t2) = true). by rewrite E.
  - rewrite Hd1 in HU. specialize (Hw Hd1). destruct (push_filled data x c) as [lg Ec]. rewrite Ec.
    match goal with |- context [SendDataCache.async_send ?y] => set (c1 := y) end.
    apply on_bind. eapply on_mono; [apply (oi_put_async_send c c1)|].
    + by destruct c as [???? []].
    + eapply OIn_view with (v := (v_add data v, down_of o l t)); [split| |exact (fun y => y)|exact (fun y => y)|].
      * cbn [fst snd]. replace (v_frames (v_add data v)) with (v_frames v) by (unfold v_add; by destruct (v_cur v)).
        replace (v_udp (v_add data v)) with (v_udp v) by (unfold v_add; by destruct (v_cur v)).
        replace (v_conn (v_add data v)) with true by (unfold v_add; by destruct (v_cur v)).
        replace (firsts (with_cache c1 o)) with (firsts o + nfirst [x]); [exact HD|].
        unfold firsts, handlers. cbn [with_cache to_session update m_sending_data_cache]. fold c. subst c1; unfold filled.
        destruct (SendDataCache.current_is_first c); cbn; rewrite !nfirst_app; lia.
      * unfold UIv. cbn [fst].
        replace (v_request (v_add data v)) with (v_request v) by (unfold v_add; by destruct (v_cur v)).
        replace (v_input (v_add data v)) with (v_input v) by (unfold v_add; by destruct (v_cur v)).
        rewrite <- Hw. change (m_destroyed (to_session (with_cache c1 o))) with (m_destroyed (to_session o)).
        rewrite Hd1. by eapply UI_add.
      * unfold both_of. f_equal. apply view_filled.
      * split; [|intros Hx; change (m_destroyed (to_session o) = true) in Hx; congruence].
        change (m_destroyed (to_session o) = SendDataCache.destroyed c1). rewrite Hd1. subst c1; unfold filled.
        by destruct (SendDataCache.current_is_first c).
    + exact Hc.
    + intros ? o2 l2 t2 H2. by apply on_skip.
Qed.

(** *** A write that has ended *)

(** While its handlers are called, the write still counts; [xs] are to be called. *)
Definition RJ (v : view * down) (n : Z) (a : Prop) (d : bool) : Prop :=
  v_conn (fst v) = true /\ v_sending (fst v) = true /\ DI (v_frames (fst v)) (v_udp (fst v)) true (snd v) n a /\
  UIv (fst v <| v_writes ::= fun k => k + 1 |>) d.
Definition J (cur : bool) (xs : list thandler) (o : TunObj) (l : list top) (t : list teffect) : Prop :=
  RJ (both_of o l t) (nfirst xs + nfirst (SendDataCache.current_recv_handler (m_sending_data_cache (to_session o))))
    (live o) (m_destroyed (to_session o)) /\ dead_ok (to_session o) /\ v_cur (view_of o l t) = cur.
Lemma J_same cur xs o l t o' l' t' :
  J cur xs o l t -> both_of o' l' t' = both_of o l t -> (live o' -> live o) ->
  m_destroyed (to_session o') = m_destroyed (to_session o) -> dead_ok (to_session o') ->
  SendDataCache.current_recv_handler (m_sending_data_cache (to_session o')) =
  SendDataCache.current_recv_handler (m_sending_data_cache (to_session o)) -> J cur xs o' l' t'.
Proof.
  intros [(H1 & H2 & H3 & H4) [_ Hcur]] Hv Hl E1 E2 E3. split; [|split; [done|]]; cycle 1.
  { apply pair_equal_spec in Hv as [-> _]. done. }
  rewrite Hv, E1, E3. split_and!; try done.
  eapply DI_mono; [exact H3| |done]. destruct H3. lia.
Qed.

(** The handler of [client_recv_func] *)
Lemma j_sent cur xs length o l t :
  J cur xs o l t -> on h (tc_sent false tcp_close h 0 length) (fun _ => J cur xs) o l t.
Proof.
  intros HJ. unfold tc_sent. cbn [Z.eqb negb]. apply on_bind, on_getK. intros k _.
  apply on_when; intros _; [|exact HJ]. apply on_bind, on_t_emit; [done|]. apply on_modO.
  eapply J_same; [exact HJ|exact (view_emit o l t (LwipRecved h length) I)| |done|by destruct HJ as (_ & ? & _)|done].
  intros Hl. by apply live_mod in Hl.
Qed.
Notation read_again := (ts_out_async_read cfg false m_mtu tcp_sndbuf tcp_write tcp_output tcp_close write_some
  ipv4_checksum udp_checksum in_pipeline cancel_ec depth).

Lemma j_call_first cur xs o l t :
  J cur (HFirst :: xs) o l t ->
  on h (t_call cfg false m_mtu tcp_sndbuf tcp_write tcp_output tcp_close write_some ipv4_checksum udp_checksum
          in_pipeline cancel_ec depth h 0 HFirst) (fun _ => J cur xs) o l t.
Proof.
  intros HJ. cbn [t_call Z.eqb negb]. apply on_bind, on_getT, on_bind.
  eapply on_mono; [apply (on_for_each h _ (J cur (HFirst :: xs))); [|exact HJ]|].
  { intros x o1 l1 t1 _ H1. destruct x; [by apply j_sent|by apply on_skip..]. }
  intros ? o1 l1 t1 [(H1 & H2 & H3 & H4) [Hd Hcur]]. cbv beta. apply on_bind, on_modO.
  change (nfirst (HFirst :: xs)) with (nfirst ([HFirst] ++ xs)) in H3. rewrite nfirst_app in H3.
  change (nfirst [HFirst]) with 1 in H3. pose proof (nfirst_nonneg xs).
  pose proof (nfirst_nonneg (SendDataCache.current_recv_handler (m_sending_data_cache (to_session o1)))).
  pose proof (di_first _ _ _ _ _ _ H3) as Hle. assert (E0 : nfirst xs +
    nfirst (SendDataCache.current_recv_handler (m_sending_data_cache (to_session o1))) = 0) by lia.
  destruct (di_fresh _ _ _ _ _ _ H3) as (Hg & Hb & _); [right; lia|]. cbn in Hg, Hb.
  assert (H3' : DI (v_frames (view_of o1 l1 t1)) (v_udp (view_of o1 l1 t1)) true (down_of o1 l1 t1) 0 (live o1)).
  { eapply DI_mono; [exact H3|lia|done]. }
  destruct depth as [|dp]; [lia|]. cbn [ts_out_async_read]. apply on_bind, on_getT.
  rewrite andb_false_r. destruct (negb _ && _).
  { apply on_skip. split; [|exact (conj Hd Hcur)]. split_and!; [exact H1|exact H2| |exact H4].
    cbn [fst snd]. eapply eq_rect with (P := fun n => DI _ _ _ _ n _); [exact H3'|exact (eq_sym E0)]. }
  apply on_start_read; [exact Hg|]. split; [|exact (conj Hd Hcur)].
  pose proof (DI_begin _ _ _ _ _ _ _ H3' Hg (fun _ => Hb)) as H5.
  split_and!.
  - exact H1.
  - exact H2.
  - unfold both_of, down_of. cbn [fst snd]. rewrite cnt_snoc. cbn [is_trd].
    eapply eq_rect with (P := fun n => DI _ _ _ _ n _); [exact H5|exact (eq_sym E0)].
  - unfold both_of, view_of in *. cbn [fst] in *. rewrite !cnt_snoc. cbn [is_twr is_tcn is_tls is_pop]. rewrite !Z.add_0_r. exact H4.
Qed.

Notation call := (t_call cfg false m_mtu tcp_sndbuf tcp_write tcp_output tcp_close write_some ipv4_checksum udp_checksum
  in_pipeline cancel_ec depth h).
Lemma j_calls cur xs o l t :
  J cur xs o l t ->
  on h (t_for_each (fun x => ts_mod_cache h (SendDataCache.emit (SendDataCache.Called x 0)) ;;; call 0 x) xs)
    (fun _ => J cur []) o l t.
Proof.
  revert o l t. induction xs as [|x xs IH]; intros o l t HJ; cbn [t_for_each]; [by apply on_skip|].
  apply on_bind. eapply on_mono with (P := fun _ => J cur xs); [|intros ? o1 l1 t1; apply IH].
  apply on_bind, on_modO. match goal with |- on h _ _ ?y _ _ => set (o1 := y) end.
  assert (H1 : J cur (x :: xs) o1 l t) by (eapply J_same; [exact HJ|done|done|done|by destruct HJ as (_ & ? & _)|done]).
  destruct x as [n| |]; [|by apply j_call_first|by apply on_skip]. cbn [t_call]. by apply j_sent.
Qed.

(** The write is over: the buffer that was written is empty. *)
Definition v_end (v : view) : view :=
  (if v_cur v then v <| v_q1 := [] |> else v <| v_q0 := [] |>) <| v_sending := false |> <| v_flight := None |>.
Lemma UI_end v inp want d :
  UI (v <| v_writes ::= fun k => k + 1 |>) inp want d -> v_sending v = true -> v_conn v = true -> UI (v_end v) inp want d.
Proof.
  intros [] Hs Hc. destruct v. unfold v_end, v_waiting, v_flying, v_relays in *. cbn in *. subst.
  destruct v_cur0; split; cbn in *; try done; lia.
Qed.
Definition emptied (sending : bool) (c : @SendDataCache.cache thandler) : @SendDataCache.cache thandler :=
  let c := SendDataCache.set_handlers sending [] c in
  let c := SendDataCache.set_queue sending (consume_all (SendDataCache.queue_at sending c)) c in
  c <| SendDataCache.is_async_sending := false |> <| SendDataCache.flight := None |>.
Lemma emptied_view o l t :
  let c := m_sending_data_cache (to_session o) in
  let o' := with_cache (emptied (negb (SendDataCache.current_is_first c)) c) o in
  view_of o' l t = v_end (view_of o l t) /\ firsts o' = nfirst (SendDataCache.current_recv_handler c) /\
  (dead_ok (to_session o) -> dead_ok (to_session o')).
Proof.
  destruct o as [[? ? ? ? c] k]. unfold dead_ok, view_of, firsts, emptied, v_end, handlers. cbn [m_sending_data_cache].
  destruct c as [hq q hqo qo [] snd des con fl lg]; cbn; rewrite consume_all_nil, ?app_nil_r; (split_and!; [done|done|]);
    intros [H1 H2]; (split; [done|]); intros H3; specialize (H2 H3); by apply app_eq_nil in H2 as [-> ->].
Qed.
Lemma J_emptied cur o l t :
  J cur [] o l t -> OI (with_cache (emptied (negb cur) (m_sending_data_cache (to_session o))) o) l t.
Proof.
  intros [(H1 & H2 & H3 & H4) [Hd Hcur]].
  change (SendDataCache.current_is_first (m_sending_data_cache (to_session o)) = cur) in Hcur. subst cur. destruct (emptied_view o l t) as (E1 & E2 & E3). split; [|by apply E3].
  unfold both_of. rewrite E1, E2. split.
  - cbn [fst snd] in *. replace (v_frames (v_end _)) with (v_frames (view_of o l t))
      by (unfold v_end; by destruct (v_cur _)).
    replace (v_udp (v_end _)) with (v_udp (view_of o l t)) by (unfold v_end; by destruct (v_cur _)).
    replace (v_conn (v_end _)) with (v_conn (view_of o l t)) by (unfold v_end; by destruct (v_cur _)).
    change (v_conn (view_of o l t) = true) in H1. rewrite H1. exact H3.
  - unfold UIv. cbn [fst] in *.
    replace (v_request (v_end _)) with (v_request (view_of o l t)) by (unfold v_end; by destruct (v_cur _)).
    replace (v_input (v_end _)) with (v_input (view_of o l t)) by (unfold v_end; by destruct (v_cur _)).
    apply UI_end; [|done|done]. exact H4.
Qed.
Lemma with_cache_id o : with_cache (m_sending_data_cache (to_session o)) o = o.
Proof. by destruct o as [[] k]. Qed.

Lemma RJ_ended l0 o l t :
  OI o l0 t -> after l0 (TWrite h) l -> RJ (both_of o l t) (firsts o) (live o) (m_destroyed (to_session o)).
Proof.
  intros [[HD HU] _] Ha. cbn [fst snd both_of] in HD, HU.
  assert (Ev : view_of o l0 t = view_of o l t <| v_writes ::= fun k => k + 1 |>).
  { unfold view_of. rewrite (Ha is_twr), (Ha is_tcn), (Ha is_tls), (Ha is_pop). cbn. by rewrite !Z.add_0_r. }
  assert (Ed : down_of o l0 t = down_of o l t).
  { unfold down_of. rewrite (Ha is_trd). by rewrite Z.add_0_r. }
  rewrite Ev in HU, HD. rewrite Ed in HD. pose proof (cnt_nonneg is_twr l) as Hl.
  assert (Hs : v_sending (view_of o l t) = true).
  { pose proof (ui_writes _ _ _ _ HU) as Hw. cbn in Hw. cbn. destruct (SendDataCache.is_async_sending _); [done|lia]. }
  assert (Hc : v_conn (view_of o l t) = true).
  { destruct (v_conn (view_of o l t)) eqn:E; [done|]. destruct (ui_before _ _ _ _ HU E) as (_ & E' & _).
    change (v_sending (view_of o l t) = false) in E'. congruence. }
  split_and!; [exact Hc|exact Hs| |exact HU]. 
  assert (E : v_conn (view_of o l t <| v_writes ::= fun k => k + 1 |>) = true) by exact Hc. rewrite E in HD. exact HD.
Qed.

Lemma oi_write_done ec length l0 o l t :
  OI o l0 t -> after l0 (TWrite h) l ->
  on h (ts_write_done cfg false m_mtu tcp_sndbuf tcp_write tcp_output tcp_close write_some ipv4_checksum udp_checksum
          in_pipeline cancel_ec depth h ec length) (fun _ => OI) o l t.
Proof.
  intros HI Ha. pose proof (RJ_ended _ _ _ _ HI Ha) as HR. destruct HI as [_ Hd].
  pose proof (calm_here o l t) as Hc. set (d := m_destroyed (to_session o)) in *.
  assert (Hdy : dying d (to_session o)) by (by split). clear Hd.
  set (v := both_of o l t) in *. set (n := firsts o) in *. set (a := live o) in *.
  assert (Hn : 0 <= n) by apply nfirst_nonneg. clearbody v n a d.
  apply on_bind. eapply on_mono; [by eapply on_timer_wait|]. intros ? o1 l1 t1 [Hc1 Hd1]. cbv beta.
  apply on_bind. eapply on_mono with (P := fun _ o l t => calm v n a o l t /\ dying d (to_session o) /\
    (ec <> 0 -> m_destroyed (to_session o) = true)).
  { apply on_when; intros He.
    - eapply on_mono; [apply on_ts_destroy; [exact Hc1|by destruct Hd1|done]|]. intros ? o2 l2 t2 [Hc2 Hg2].
      split; [done|]. split; [by apply gone_dying|by destruct Hg2].
    - apply negb_false_iff, Z.eqb_eq in He. by split_and!. }
  intros ? o2 l2 t2 (Hc2 & Hd2 & He). cbv beta. apply on_bind, on_modO, on_bind, on_getT.
  match goal with |- on h _ _ ?y l2 t2 => set (o3 := y) end.
  assert (Hc3 : calm v n a o3 l2 t2) by (eapply calm_same; [exact Hc2|done..]).
  change (dying d (to_session o3)) in Hd2. change (ec <> 0 -> m_destroyed (to_session o3) = true) in He.
  clearbody o3. clear Hc2. destruct Hc3 as (Ev & En & El).
  set (c := m_sending_data_cache (to_session o3)).
  assert (Ef : SendDataCache.flight c = Some (negb (SendDataCache.current_is_first c))).
  { destruct HR as (_ & Hs & _ & HU). pose proof (ui_flight _ _ _ _ HU) as E.
    change (v_flight (fst v) = if v_sending (fst v) then Some (negb (v_cur (fst v))) else None) in E.
    rewrite Hs, <- Ev in E. exact E. }
  rewrite Ef. set (xs := SendDataCache.handlers_at (negb (SendDataCache.current_is_first c)) c).
  assert (Hxs : nfirst xs + nfirst (SendDataCache.current_recv_handler c) = firsts o3).
  { subst xs. unfold firsts, handlers, SendDataCache.current_recv_handler, SendDataCache.handlers_at. fold c.
    rewrite nfirst_app. destruct (SendDataCache.current_is_first c); cbn [negb]; lia. }
  assert (HJ : J (SendDataCache.current_is_first c) xs o3 l2 t2).
  { split; [|by destruct Hd2]. destruct HR as (H1 & H2 & H3 & H4). rewrite Ev. fold c. rewrite Hxs.
    split_and!; [done|done| |].
    - eapply DI_mono; [exact H3| |done]. split; [apply nfirst_nonneg|done].
    - eapply UI_mono; [exact H4|]. by destruct Hd2. }
  apply on_bind. eapply on_mono with (P := fun _ => J (SendDataCache.current_is_first c) []).
  { destruct (Z.eqb_spec ec 0) as [-> | Hne]; [by apply j_calls|]. destruct Hd2 as [[_ Hh] _].
    specialize (Hh (He Hne)). assert (xs = []) as ->; [|by apply on_skip].
    subst xs. unfold handlers in Hh. fold c in Hh. apply app_eq_nil in Hh as [E1 E2].
    by destruct (SendDataCache.current_is_first c). }
  intros ? o4 l4 t4 H4. cbv beta. apply on_bind, on_modO. apply J_emptied in H4 as HI.
  assert (Hconn : m_connected (to_session o4) = true) by (by destruct H4 as [(H5 & _) _]).
  fold (emptied (negb (SendDataCache.current_is_first c))).
  apply on_when; intros _; [|exact HI]. apply on_bind, on_getT.
  eapply on_mono; [apply oi_put_async_send; [done| |done]|by intros ? ??? [? _]]. by rewrite with_cache_id.
Qed.

(** *** Sending *)

Lemma oi_sent ec length o l t :
  OI o l t -> on h (tc_sent false tcp_close h ec length) (fun _ => OI) o l t.
Proof.
  intros HI. unfold tc_sent. destruct (negb (ec =? 0)); [by apply oi_close_client|].
  apply on_bind, on_getK. intros k _. apply on_when; intros _; [|exact HI].
  apply on_bind, on_t_emit; [done|]. apply on_modO. destruct HI as [HR Hd].
  eapply OIn_view; [exact HR|exact (view_emit o l t (LwipRecved h length) I)| |done|exact Hd].
  intros Hl. by apply live_mod in Hl.
Qed.
Lemma oi_call ec x o l t : x <> HFirst -> OI o l t -> on h (call ec x) (fun _ => OI) o l t.
Proof. intros Hx HI. destruct x; [by apply oi_sent|done|by apply on_skip]. Qed.

Lemma ois_forward f local data v n o l t :
  OIs v n o l t -> on h (ts_forward false tcp_close h f local data) (fun _ => OIs v n) o l t.
Proof.
  intros HI. apply on_bind, on_on_fwd; [apply fw_process_defined|]. intros ok. apply on_bind, on_gets. intros w.
  apply on_bind. eapply on_mono with (P := fun _ => OIs v n).
  - apply on_when; intros _; [by apply ois_destroy|exact HI].
  - intros ? o1 l1 t1 H1. by apply on_ret.
Qed.
Lemma oi_forward f local data o l t :
  OI o l t -> on h (ts_forward false tcp_close h f local data) (fun _ => OI) o l t.
Proof.
  intros HI. eapply on_mono; [by apply (ois_forward f local data (both_of o l t) (firsts o)), OIs_here|].
  by intros ? ??? [? _].
Qed.

Lemma generate_endpoint_app b ep data :
  UDPPacket.generate_endpoint b ep data = b ++ UDPPacket.generate_endpoint [] ep data.
Proof.
  unfold UDPPacket.generate_endpoint. rewrite !UDPPacket.append_tail_eq.
  rewrite (app_assoc b). f_equal. unfold Socks5.generate, append_char. cbn [fst].
  destruct (is_unspecified _); [by rewrite !append_string_eq|]. destruct (ep_address ep); cbn [fst append_data].
  all: change (4 =? 0) with false; change (16 =? 0) with false; cbn [fst]; by rewrite <- !app_assoc.
Qed.

Notation send := (ts_out_async_send cfg false redirect_local m_mtu tcp_sndbuf tcp_write tcp_output tcp_close write_some
  ipv4_checksum udp_checksum in_pipeline cancel_ec depth h).
Notation send_impl := (ts_out_async_send_impl cfg false m_mtu tcp_sndbuf tcp_write tcp_output tcp_close write_some
  ipv4_checksum udp_checksum in_pipeline cancel_ec depth h).

(** A session that was given [data], when it had [inp]; both are in its trace. *)
Record given (data inp : bytes) (o : TunObj) (l : list top) (t : list teffect) : Prop := {
  gv_down : DI (v_frames (view_of o l t)) (v_udp (view_of o l t)) (v_conn (view_of o l t)) (down_of o l t) (firsts o) (live o);
  gv_up : UI (view_of o l t) inp (v_request (view_of o l t) ++ inp) (m_destroyed (to_session o));
  gv_dead : dead_ok (to_session o);
  gv_input : v_input (view_of o l t) = inp ++ data
}.
Lemma given_destroyed data inp o l t : given data inp o l t -> m_destroyed (to_session o) = true -> OI o l t.
Proof.
  intros [G1 G2 G3 G4] Hd. split; [|done]. split; [exact G1|]. cbn [fst both_of]. unfold UIv. rewrite Hd in *.
  rewrite G4, app_assoc. eapply UI_drop; [done|by apply prefix_app_r].
Qed.
Lemma given_lost data inp o l t :
  given data inp o l t -> on h (ts_destroy false tcp_close h false) (fun _ => OI) o l t.
Proof.
  intros [G1 G2 G3 G4]. eapply on_mono; [apply on_ts_destroy; [apply calm_here|done|apply nfirst_nonneg]|].
  intros ? o1 l1 t1 [H1 H2]. eapply (OI_calm _ _ _ true); [|exact H1|by apply gone_dying]. split; [exact G1|].
  unfold UIv. cbn [fst both_of]. rewrite G4, app_assoc. eapply UI_drop; [by eapply UI_mono|by apply prefix_app_r].
Qed.
(** Connected, and not a local UDP session: into the cache *)
Lemma given_pushed data inp x o l t :
  given data inp o l t -> m_connected (to_session o) = true -> v_relays (view_of o l t) = true -> x <> HFirst ->
  on h (@ts_push P tcp_close h data x) (fun _ => OI) o l t.
Proof.
  intros [G1 G2 G3 G4] Hc Hr Hx. eapply on_mono; [eapply oi_push; [|exact G2|done|done|done|..]|by intros ? ??? [? _]].
  - replace (nfirst [x]) with 0 by (by destruct x). rewrite Z.add_0_r.
    change (v_conn (view_of o l t)) with (m_connected (to_session o)) in G1. by rewrite Hc in G1.
  - rewrite G4, app_assoc. by apply prefix_app_r.
  - intros _. by rewrite G4, app_assoc.
Qed.
Lemma given_sent data inp x o l t :
  given data inp o l t -> m_connected (to_session o) = true -> x <> HFirst ->
  on h (send_impl data x) (fun _ => OI) o l t.
Proof.
  intros HG Hc Hx. apply on_bind, on_getT. destruct (ts_proxy (to_session o)) eqn:Ep.
  - eapply given_pushed; [exact HG|done| |done]. unfold v_relays. cbn. by rewrite Ep.
  - unfold ts_local_send_impl. destruct (is_udp (to_session o)) eqn:Eu; [|eapply given_pushed; [exact HG|done| |done]].
    + destruct (m_udp_forwarder _) as [f|]; [|apply on_no_object]. apply on_bind.
      assert (HI : OI o l t).
      { destruct HG as [G1 G2 G3 G4]. split; [|done]. split; [exact G1|]. unfold UIv. cbn [fst both_of].
        rewrite G4, app_assoc. destruct G2. split; try done.
        - intros H. change (m_connected (to_session o) = false) in H. congruence.
        - intros H. destruct (ui_after0 H) as [H1 _]. split; [by apply prefix_app_r|].
          intros _ Hr. unfold v_relays in Hr. cbn in Hr. by rewrite Ep, Eu in Hr. }
      eapply on_mono; [by apply oi_forward|]. intros ok o1 l1 t1 H1. by apply oi_call.
    + unfold v_relays. cbn. by rewrite Eu, orb_true_r.
Qed.

(** [data] as it is sent *)
Definition v_encode (v : view) (data : bytes) : bytes :=
  if v_frames v then UDPPacket.generate_endpoint [] (v_target v) data else data.

Lemma UI_send_buf v inp want d b : UI v inp want d -> v_conn v = true -> UI (v <| v_send := b |>) inp want d.
Proof. intros [] Hc. split; try done. cbn. congruence. Qed.

(** Before the connection: kept for the first write *)
Definition kept (data : bytes) (x : thandler) (o : TunObj) : TunObj :=
  o <| to_session ::= fun s => s <| m_send_buf ::= fun b =>
         if ts_proxy s && is_udp s then UDPPacket.generate_endpoint b (ts_udp_target redirect_local s) data
         else fst (append_view b data) |> |>
    <| to_session ::= fun s => s <| m_wait_connected_handler ::= fun l => l ++ [x] |> |>.
Lemma given_kept data inp x o l t :
  given (v_encode (view_of o l t) data) inp o l t -> m_connected (to_session o) = false -> OI (kept data x o) l t.
Proof.
  intros [G1 G2 G3 G4] Ec. split; [|exact G3]. split; [exact G1|].
  unfold UIv. cbn [fst both_of]. change (v_input (view_of (kept data x o) l t)) with (v_input (view_of o l t)). rewrite G4.
  destruct G2. split; [exact ui_flight0|exact ui_idle0|exact ui_writes0|exact ui_cns0|exact ui_local0|exact ui_direct0| |].
  - intros H. destruct (ui_before0 H) as (H1 & H2 & H3 & H4). split_and!; [done|done|done|]. intros H5 H6.
    specialize (H4 H5 H6). cbn. unfold v_encode. change (v_send (view_of o l t)) with (m_send_buf (to_session o)) in H4.
    change (v_frames (view_of o l t)) with (ts_proxy (to_session o) && is_udp (to_session o)).
    destruct (ts_proxy (to_session o) && is_udp (to_session o)); rewrite H4;
      [apply generate_endpoint_app|apply append_view_eq].
  - intros H. change (m_connected (to_session o) = true) in H. congruence.
Qed.

Lemma oi_out_async_send data inp x o l t :
  given (v_encode (view_of o l t) data) inp o l t -> x <> HFirst -> on h (send data x) (fun _ => OI) o l t.
Proof.
  intros HG Hx. apply on_bind, on_getT. destruct (negb (ts_proxy (to_session o)) && m_destroyed (to_session o)) eqn:Ed.
  { apply andb_true_iff in Ed as [_ Ed]. apply oi_call; [done|]. by eapply given_destroyed. }
  destruct (m_connected (to_session o)) eqn:Ec; cbn [negb].
  - destruct (ts_proxy (to_session o) && is_udp (to_session o)) eqn:Ef.
    + apply on_bind, on_modO, on_bind, on_modO, on_bind, on_getT. cbn [to_session update m_send_buf].
      rewrite consume_all_nil. eapply given_sent; [|exact Ec|done].
      destruct HG as [G1 G2 G3 G4]. change (v_frames (view_of o l t) = true) in Ef. unfold v_encode in G4. rewrite Ef in G4.
      split; [exact G1|by apply (UI_send_buf (view_of o l t))|exact G3|exact G4].
    + eapply given_sent; [|done|done]. change (v_frames (view_of o l t) = false) in Ef. unfold v_encode in HG. by rewrite Ef in HG.
  - destruct (zlen (m_send_buf (to_session o)) <? 65535); [|by eapply given_lost].
    apply on_bind, on_modO, on_modO. by eapply given_kept.
Qed.
(** The first datagram of a new session is kept. *)
Lemma on_send_early data inp x o l t :
  given (v_encode (view_of o l t) data) inp o l t -> m_connected (to_session o) = false ->
  m_destroyed (to_session o) = false -> m_send_buf (to_session o) = [] ->
  on h (send data x) (fun _ o' l' t' => o' = kept data x o /\ l' = l /\ t' = t /\ OI o' l' t') o l t.
Proof.
  intros HG Ec Ed Eb. apply on_bind, on_getT. rewrite Ed, Ec, Eb, andb_false_r. cbn [negb]. change (zlen [] <? 65535) with true.
  apply on_bind, on_modO, on_modO. split_and!; try done. by eapply given_kept.
Qed.

(** *** Starting and connecting *)

(** Not connected, and no operation of the connection in progress *)
Definition OIf (o : TunObj) (l : list top) (t : list teffect) : Prop :=
  OI o l t /\ m_connected (to_session o) = false /\ v_cns (view_of o l t) = 0.

Lemma tls_le l : cnt is_tls l <= cnt is_tcn l.
Proof. unfold cnt. induction l as [|[] l IH]; cbn; rewrite ?zlen_cons; lia. Qed.
Lemma OIf_ended x l0 o l t :
  OI o l0 t -> after l0 x l -> is_tcn x = true ->
  OIf o l t /\ v_relays (view_of o l t) = true /\ (is_tls x = true -> ts_proxy (to_session o) = true).
Proof.
  intros [[HD HU] Hd] Ha Hx. cbn [fst snd both_of] in HD, HU.
  assert (Hrw : is_trd x = false /\ is_twr x = false /\ is_pop x = false) by (by destruct x). destruct Hrw as (E1 & E2 & E3).
  pose proof (cnt_nonneg is_tcn l) as N1. pose proof (cnt_nonneg is_tls l) as N2. pose proof (tls_le l) as N3.
  assert (Ev : view_of o l0 t = view_of o l t <| v_cns ::= fun k => k + 1 |>
    <| v_tls ::= fun k => k + (if is_tls x then 1 else 0) |>).
  { unfold view_of. rewrite (Ha is_twr), (Ha is_tcn), (Ha is_tls), (Ha is_pop), E2, Hx, E3. cbn. by rewrite !Z.add_0_r. }
  assert (Ed : down_of o l0 t = down_of o l t).
  { unfold down_of. rewrite (Ha is_trd), E1. by rewrite Z.add_0_r. }
  rewrite Ev in HU, HD. rewrite Ed in HD. destruct HU as [U1 U2 U3 U4 U5 UD U6 U7]. cbn in U3, U4, U5, U6, U7.
  assert (Hc : m_connected (to_session o) = false) by (destruct (m_connected _); [lia|done]).
  rewrite Hc in U4. split_and!.
  - split_and!; [|done|cbn; lia]. split; [|done]. split; [exact HD|].
    split; [exact U1|exact U2|exact U3|cbn; rewrite Hc; lia| |exact UD|exact U6|exact U7].
    split; [cbn; lia|]. intros Hp. pose proof (proj2 U5 Hp). cbn. lia.
  - unfold v_relays in *. cbn in U5 |- *. destruct (_ || _); [done|]. pose proof (proj1 U5 eq_refl). lia.
  - intros Ht. rewrite Ht in U5. destruct (ts_proxy _); [done|]. pose proof (proj2 U5 eq_refl). lia.
Qed.

(** An operation of the connection begins. *)
Lemma OIf_started x o l t :
  OIf o l t -> v_relays (view_of o l t) = true -> is_tcn x = true ->
  (is_tls x = true -> ts_proxy (to_session o) = true) -> OI o (l ++ [x]) t.
Proof.
  intros [[[HD HU] Hd] [Hc Hn]] Hr Hx Ht. cbn [fst snd both_of] in HD, HU.
  assert (Hrw : is_trd x = false /\ is_twr x = false /\ is_pop x = false) by (by destruct x). destruct Hrw as (E1 & E2 & E3).
  split; [|done]. unfold both_of, down_of. rewrite cnt_snoc, E1, Z.add_0_r. split; [exact HD|].
  cbn [fst]. assert (Ev : view_of o (l ++ [x]) t = view_of o l t <| v_cns ::= fun k => k + 1 |>
    <| v_tls ::= fun k => k + (if is_tls x then 1 else 0) |>).
  { unfold view_of. rewrite !cnt_snoc, E2, Hx, E3. cbn. by rewrite !Z.add_0_r. }
  rewrite Ev. destruct HU as [U1 U2 U3 U4 U5 UD U6 U7]. cbn in U4, U5, Hn. rewrite Hc in U4.
  split; [exact U1|exact U2|exact U3|cbn; rewrite Hc| |exact UD|exact U6|exact U7].
  - destruct (is_tls x); lia.
  - split; [intros Hr'; change (v_relays (view_of o l t) = false) in Hr'; congruence|].
    intros Hp. cbn in *. destruct (is_tls x); [|lia]. rewrite Ht in Hp by done. done.
Qed.

Lemma DI_connect udp u w n a n' : DI udp u false w n a -> 0 <= n' <= 1 -> DI udp u true w n' a.
Proof. intros [] Hn. destruct (di_fresh0 (or_introl eq_refl)) as (H1 & H2 & H3 & H4). by split. Qed.
Lemma UI_connect v inp want d :
  UI v inp want d -> v_conn v = false -> v_cns v = 0 -> UI (v <| v_conn := true |>) inp [] d.
Proof.
  intros [U1 U2 U3 U4 U5 UD U6 U7] Hc Hn. destruct (U6 Hc) as (H1 & H2 & H3 & H4).
  split; [exact U1|exact U2|exact U3|cbn; lia|exact U5|exact UD|done|]. intros _.
  change (v_sent v ++ v_waiting v `prefix_of` [] /\ (d = false -> v_relays v = true -> v_sent v ++ v_waiting v = [])).
  by rewrite H1, H3.
Qed.

(** The session just connected, before its first write *)
Record fresh_conn (o : TunObj) (l : list top) (t : list teffect) : Prop := {
  fc_down n : 0 <= n <= 1 -> DI (v_frames (view_of o l t)) (v_udp (view_of o l t)) true (down_of o l t) n (live o);
  fc_up : UI (view_of o l t) (v_input (view_of o l t)) [] (m_destroyed (to_session o));
  fc_first : firsts o = 0;
  fc_conn : m_connected (to_session o) = true;
  fc_dead : dead_ok (to_session o)
}.
Lemma on_set_connected o l t :
  OIf o l t -> on h (@ts_set_connected P h) (fun _ o' l' t' => fresh_conn o' l' t' /\
    (m_destroyed (to_session o') = false -> v_relays (view_of o' l' t') = true ->
       m_send_buf (to_session o') = v_input (view_of o' l' t')) /\ t' = t /\
    ts_proxy (to_session o') = ts_proxy (to_session o) /\ is_udp (to_session o') = is_udp (to_session o)) o l t.
Proof.
  intros ([[HD HU] Hd] & Hc & Hn). apply on_bind, on_modO, on_modO.
  cbn [fst snd both_of] in HD, HU. pose proof HU as [U1 U2 U3 U4 U5 UD U6 U7].
  change (v_conn (view_of o l t) = false) in Hc. rewrite Hc in HD. destruct (U6 Hc) as (H1 & H2 & H3 & H4).
  split; [|split; [exact H4|done]]. split.
  - intros n Hn'. by eapply DI_connect.
  - exact (UI_connect _ _ _ _ HU Hc Hn).
  - pose proof (di_first _ _ _ _ _ _ HD). cbn in *. change (firsts o = 0). lia.
  - done.
  - exact Hd.
Qed.

Lemma request_is o l t pw x rest :
  Session.password cfg = (pw, x) :: rest -> ts_proxy (to_session o) = true ->
  ts_request redirect_local (to_session o) pw = v_request (view_of o l t).
Proof. intros E Ep. unfold v_request, ts_request. cbn. rewrite E, Ep. by destruct (is_udp _). Qed.

Context (have_password : Session.password cfg <> []).

Lemma oi_first data o l t :
  fresh_conn o l t -> v_relays (view_of o l t) = true ->
  (m_destroyed (to_session o) = false -> data = v_request (view_of o l t) ++ v_input (view_of o l t)) ->
  on h (@ts_push P tcp_close h data HFirst) (fun _ => OIc) o l t.
Proof.
  intros [F1 F2 F4 F5 F6] Hr Hdata. eapply oi_push; [|exact F2|done|done|done|apply prefix_nil|exact Hdata].
  rewrite F4. by apply F1.
Qed.

Lemma oi_proxy_ready o l t :
  OIf o l t -> ts_proxy (to_session o) = true ->
  on h (ts_proxy_ready cfg false redirect_local m_mtu tcp_sndbuf tcp_write tcp_output tcp_close write_some
          ipv4_checksum udp_checksum in_pipeline cancel_ec depth h) (fun _ => OI) o l t.
Proof.
  intros HI Hp. apply on_bind. eapply on_mono; [by apply on_set_connected|].
  intros ? o1 l1 t1 (HF & F3 & -> & Ep & Eu). cbv beta. apply on_bind, on_getT. rewrite Hp in Ep.
  destruct (Session.password cfg) as [|[pw ?] rest] eqn:Epw; [done|].
  set (r := ts_request redirect_local (to_session o1) pw). pose proof (request_is o1 l1 t pw _ _ Epw Ep) as Er. fold r in Er.
  apply on_bind, on_modO. match goal with |- on h _ _ ?y l1 t => set (o2 := y) end.
  assert (Hb : m_send_buf (to_session o2) = r ++ m_send_buf (to_session o1)).
  { subst o2. cbn. destruct (Z.ltb_spec 0 (zlen (m_send_buf (to_session o1)))) as [|Hz].
    - by rewrite !append_buf_eq, append_string_eq, consume_all_nil.
    - pose proof (zlen_nonneg (m_send_buf (to_session o1))). assert (Hz' : zlen (m_send_buf (to_session o1)) = 0) by lia.
      apply zlen_zero in Hz' as ->. by rewrite append_string_eq, app_nil_r. }
  apply on_bind, on_getT, on_bind.
  destruct HF as [F1 F2 F4 F5 F6].
  assert (Hr : v_relays (view_of o1 l1 t) = true) by (unfold v_relays; cbn; by rewrite Ep).
  eapply on_mono with (P := fun _ => OIc).
  - apply on_bind, on_getT. change (ts_proxy (to_session o2)) with (ts_proxy (to_session o1)). rewrite Ep. cbv iota.
    apply oi_first; [|exact Hr|].
    + split; [exact F1| |exact F4|exact F5|exact F6]. apply (UI_send_buf (view_of o1 l1 t)); [exact F2|exact F5].
    + intros Hd. unfold to_view. rewrite Hb, F3 by done. by rewrite Er.
  - intros ? o3 l3 t3 [[[HD HU] Hd] Hc]. apply on_modO. split; [|exact Hd]. split; [exact HD|].
    apply (UI_send_buf (view_of o3 l3 t3)); [exact HU|exact Hc].
Qed.

Lemma oi_local_ready o l t :
  OIf o l t -> ts_proxy (to_session o) = false -> v_relays (view_of o l t) = true ->
  on h (ts_local_ready cfg false m_mtu tcp_sndbuf tcp_write tcp_output tcp_close write_some
          ipv4_checksum udp_checksum in_pipeline cancel_ec depth h) (fun _ => OI) o l t.
Proof.
  intros HI Hp Hrel. unfold v_relays in Hrel. cbn in Hrel. rewrite Hp in Hrel. cbn in Hrel. apply negb_true_iff in Hrel.
  apply on_bind. eapply on_mono; [by apply on_set_connected|].
  intros ? o1 l1 t1 (HF & F3 & -> & Ep & Eu). cbv beta. apply on_bind, on_getT. rewrite Hp in Ep. rewrite Hrel in Eu.
  assert (Hr : v_relays (view_of o1 l1 t) = true) by (unfold v_relays; cbn; by rewrite Eu, orb_true_r).
  assert (Hq : v_request (view_of o1 l1 t) = []) by (unfold v_request; cbn; by rewrite Ep).
  destruct (negb _) eqn:Ez.
  - apply on_bind, on_getT. unfold ts_local_send_impl. rewrite Ep, Eu. eapply on_mono; [apply oi_first; [done|done|]|by intros ? ??? [? _]].
    intros Hd. rewrite Hq. by apply F3.
  - apply negb_false_iff, Z.eqb_eq, zlen_zero in Ez. destruct HF as [F1 F2 F4 F5 F6].
    assert (HI1 : OIn 0 o1 l1 t).
    { split; [|done]. split; cbn [fst snd both_of]; [change (v_conn (view_of o1 l1 t)) with (m_connected (to_session o1));
        rewrite F5; by apply F1|]. destruct F2 as [U1 U2 U3 U4 U5 UD U6 U7]. destruct (U7 F5) as [H1 H2]. split; try done.
      intros _. split; [etrans; [exact H1|apply prefix_nil]|]. intros Hd Hr'. rewrite H2, Hq by done. by rewrite <- F3, Ez. }
    destruct (di_fresh _ _ _ _ _ _ (F1 1 ltac:(lia)) (or_intror eq_refl)) as (Hg & Hb & _).
    eapply on_mono; [apply oi_out_async_read; done|]. intros ? o2 l2 t2 [H2 Hn2]. eapply OIn_OI; [exact H2|congruence].
Qed.

Lemma oi_started_conn x l' o l t :
  OIf o l t -> v_relays (view_of o l t) = true -> is_tcn x = true -> top_this x = Some h ->
  (is_tls x = true -> ts_proxy (to_session o) = true) -> l' = l -> on h (@t_start_op P x) (fun _ => OI) o l' t.
Proof. intros HI Hr Hx Ht Hp ->. apply on_t_start; [done|]. by apply OIf_started. Qed.

Lemma oi_connect_done ec l0 o l t :
  OI o l0 t -> after l0 (TConnect h) l ->
  on h (ts_connect_done cfg false m_mtu tcp_sndbuf tcp_write tcp_output tcp_close write_some
          ipv4_checksum udp_checksum in_pipeline cancel_ec depth h ec) (fun _ => OI) o l t.
Proof.
  intros HI Ha. destruct (OIf_ended _ _ _ _ _ HI Ha eq_refl) as (HF & Hr & _). unfold ts_connect_done.
  destruct (negb (ec =? 0)); [apply oi_destroyed; by destruct HF|]. apply on_bind, on_getT.
  destruct (ts_proxy (to_session o)) eqn:Ep; [by eapply oi_started_conn|]. by apply oi_local_ready.
Qed.
Lemma oi_ssl_done ec l0 o l t :
  OI o l0 t -> after l0 (TSslHandshake h) l ->
  on h (ts_ssl_done cfg false redirect_local m_mtu tcp_sndbuf tcp_write tcp_output tcp_close write_some
          ipv4_checksum udp_checksum in_pipeline cancel_ec depth h ec) (fun _ => OI) o l t.
Proof.
  intros HI Ha. destruct (OIf_ended _ _ _ _ _ HI Ha eq_refl) as (HF & Hr & Hp). unfold ts_ssl_done.
  destruct (negb (ec =? 0)); [apply oi_destroyed; by destruct HF|]. apply oi_proxy_ready; auto.
Qed.
Context (system_ec : nat -> error_code).
Lemma OIf_same o l t o' l' t' :
  OIf o l t -> both_of o' l' t' = both_of o l t -> firsts o' = firsts o -> (live o' -> live o) ->
  m_destroyed (to_session o') = m_destroyed (to_session o) -> dead_ok (to_session o') -> OIf o' l' t'.
Proof.
  intros [[HR Hd] [Hc Hn]] Ev Ef El Em Ed. split.
  { unfold OI. rewrite Ef. eapply OIn_view; [exact HR|done|done|congruence|done]. }
  apply pair_equal_spec in Ev as [Ev _].
  change (v_conn (view_of o' l' t') = false /\ v_cns (view_of o' l' t') = 0). by rewrite Ev.
Qed.
Lemma oi_resolve_done ec results l0 o l t :
  OI o l0 t -> after l0 (TResolve h) l ->
  on h (ts_resolve_done cfg false tcp_close system_ec h ec results) (fun _ => OI) o l t.
Proof.
  intros HI Ha. destruct (OIf_ended _ _ _ _ _ HI Ha eq_refl) as (HF & Hr & Hp). unfold ts_resolve_done.
  assert (Hd : on h (ts_destroy false tcp_close h false) (fun _ => OI) o l t) by (apply oi_destroyed; by destruct HF).
  destruct results; [exact Hd|]. destruct (negb (ec =? 0)); [exact Hd|]. apply on_bind, on_t_ask. intros ec'.
  destruct (negb (ec' =? 0)); [exact Hd|]. apply on_bind, on_modO.
  match goal with |- on h _ _ ?y l t => assert (HF1 : OIf y l t) by (eapply OIf_same; [exact HF|done..|by destruct HF as [[] _]]); set (o1 := y) in * end.
  apply on_bind. eapply on_mono with (P := fun _ o' l' t' => o' = o1 /\ OIf o' l' t').
  - apply on_when; intros _; [|done]. apply on_t_start; [done|]. split; [done|].
    eapply OIf_same; [exact HF1|by apply view_start|done..|by destruct HF1 as [[] _]].
  - intros ? o2 l2 t2 [-> H2]. by eapply oi_started_conn.
Qed.

Lemma OIf_view v n o l t : OIs v n o l t -> v_conn (fst v) = false -> v_cns (fst v) = 0 -> OIf o l t.
Proof. intros (HI & <- & _) Hc Hn. by split_and!. Qed.
Lemma local_udp_connected v n o l t :
  OIs v n o l t -> v_conn (fst v) = false -> v_cns (fst v) = 0 -> v_relays (fst v) = false ->
  OI (o <| to_session ::= fun s => s <| m_connected := true |> |>) l t.
Proof.
  intros ([[HD HU] Hd] & <- & _) Hc Hn Hr. cbn [fst snd both_of] in *. rewrite Hc in HD.
  split; [|exact Hd]. split.
  - cbn [fst snd both_of]. pose proof (di_first _ _ _ _ _ _ HD). eapply DI_connect; [exact HD|].
    change (firsts (o <| to_session ::= _ |>)) with (firsts o). lia.
  - pose proof (UI_connect _ _ _ _ HU Hc Hn) as [U1 U2 U3 U4 U5 UD U6 U7].
    split; [exact U1|exact U2|exact U3|exact U4|exact U5|exact UD|done|]. intros H. destruct (U7 H) as [H1 H2].
    split; [etrans; [exact H1|apply prefix_nil]|]. intros _ Hr'. change (v_relays (view_of o l t) = true) in Hr'. congruence.
Qed.

Lemma oi_start o l t :
  OIf o l t ->
  on h (ts_start cfg false redirect_local m_mtu tcp_sndbuf tcp_write tcp_output tcp_close write_some
          ipv4_checksum udp_checksum in_pipeline cancel_ec depth h) (fun _ => OI) o l t.
Proof.
  intros HF. pose proof HF as (HI & Hc & Hn). apply on_bind, on_getT.
  destruct (ts_proxy (to_session o)) eqn:Ep.
  - apply on_bind. eapply on_mono; [by apply (ois_timer_wait (both_of o l t) (firsts o)), OIs_here|].
    intros ? o1 l1 t1 H1. cbv beta iota. apply (OIf_view _ _ _ _ _ H1 Hc) in Hn as HF1. destruct H1 as (_ & Ev & _).
    apply pair_equal_spec in Ev as [Ev _].
    apply on_bind, on_t_emit; [done|]. eapply oi_started_conn; [|..|done]; try done.
    + eapply OIf_same; [exact HF1|by apply view_emit|done..|by destruct HF1 as [[] _]].
    + unfold v_relays. change (v_proxy (view_of o1 l1 t1) || negb (v_udp (view_of o1 l1 t1)) = true). rewrite Ev. cbn. by rewrite Ep.
  - unfold ts_local_start. destruct (is_udp (to_session o)) eqn:Eu.
    + assert (Hr : v_relays (view_of o l t) = false) by (unfold v_relays; cbn; by rewrite Ep, Eu).
      apply on_bind, on_on_fwd; [apply fw_new_defined|]. intros f. apply on_bind, on_modO, on_bind, on_gets. intros w.
      match goal with |- on h _ _ ?y l t => set (o1 := y) end.
      assert (H1 : OIs (both_of o l t) (firsts o) o1 l t).
      { split; [|done]. destruct HI as [HR Hd]. eapply OIn_view; [exact HR|done..|exact Hd]. }
      apply on_bind. eapply on_mono with (P := fun _ => OIs (both_of o l t) (firsts o)).
      { apply on_when; intros _; [by apply ois_destroy|exact H1]. }
      intros ? o2 l2 t2 H2. cbv beta. destruct (negb _).
      * apply on_bind. eapply on_mono; [by apply ois_forward|]. intros ok o3 l3 t3 H3. cbv beta.
        apply on_when; intros _; [|by destruct H3]. apply on_modO.
        exact (local_udp_connected _ _ _ _ _ H3 Hc Hn Hr).
      * apply on_bind, on_gets. intros w2. apply on_when; intros _; [|by destruct H2]. apply on_modO.
        exact (local_udp_connected _ _ _ _ _ H2 Hc Hn Hr).
    + apply on_bind, on_t_emit; [done|]. eapply oi_started_conn; [|..|done]; try done.
      * eapply OIf_same; [exact HF|by apply view_emit|done..|by destruct HF as [[] _]].
      * change (v_relays (view_of o l t) = true). unfold v_relays. cbn. by rewrite Eu, orb_true_r.
Qed.

(** *** The callbacks of lwIP *)

Context (tcp_wnd : Z).
Lemma view_lwip_in o l t data :
  view_of o l (t ++ [LwipIn h data]) = view_of o l t <| v_in ::= fun x => x ++ data |> /\
  down_of o l (t ++ [LwipIn h data]) = down_of o l t.
Proof.
  unfold view_of, down_of, lwip_in, lwip_out, from_remote, to_remote, datagrams.
  rewrite !flat_map_app. cbn. by rewrite !app_nil_r.
Qed.

Lemma view_dgram o l t data :
  view_of o l (t ++ [UdpIn h data]) = view_of o l t <| v_dgrams ::= fun x => x ++ [data] |> /\
  down_of o l (t ++ [UdpIn h data]) = down_of o l t.
Proof.
  unfold view_of, down_of, lwip_in, lwip_out, from_remote, to_remote, datagrams.
  rewrite !flat_map_app. cbn. by rewrite !app_nil_r.
Qed.
Lemma given_lwip data o l t :
  OI o l t -> is_udp (to_session o) = false -> given (v_encode (view_of o l (t ++ [LwipIn h data])) data)
    (v_input (view_of o l t)) o l (t ++ [LwipIn h data]).
Proof.
  intros [[HD HU] Hd] Hu. cbn [fst snd both_of] in HD, HU. destruct (view_lwip_in o l t data) as [E1 E2].
  split; rewrite ?E1, ?E2; [exact HD| |exact Hd|].
  - destruct HU as [U1 U2 U3 U4 U5 UD U6 U7]. by split.
  - unfold v_input, v_encode, v_frames. cbn. by rewrite Hu, andb_false_r.
Qed.
Lemma given_dgram data o l t :
  OI o l t -> is_udp (to_session o) = true -> given (v_encode (view_of o l (t ++ [UdpIn h data])) data)
    (v_input (view_of o l t)) o l (t ++ [UdpIn h data]).
Proof.
  intros [[HD HU] Hd] Hu. cbn [fst snd both_of] in HD, HU. destruct (view_dgram o l t data) as [E1 E2].
  split; rewrite ?E1, ?E2; [exact HD| |exact Hd|].
  - destruct HU as [U1 U2 U3 U4 U5 UD U6 U7]. by split.
  - unfold v_input, v_encode, v_frames. cbn. rewrite Hu, andb_true_r, flat_map_app. cbn. by rewrite app_nil_r.
Qed.

Lemma oi_client_recv p err o l t :
  OI o l t -> (forall k, to_client o = Some k -> m_closed k = false) ->
  on h (tc_client_recv_func cfg false redirect_local tcp_wnd m_mtu tcp_sndbuf tcp_write tcp_output tcp_close write_some
          ipv4_checksum udp_checksum in_pipeline cancel_ec depth h p err) (fun _ => OI) o l t.
Proof.
  intros HI Hcl. apply on_bind, on_getK. intros k Hk. destruct (m_aborted k) eqn:Ea; [by apply on_ret|].
  assert (Hl : live o) by (exists k; auto). pose proof HI as [[HD _] _]. destruct (di_tcp _ _ _ _ _ _ HD Hl) as [_ Hu].
  assert (Hclose : forall abort r, on h (tc_close_client false tcp_close h abort false ;;; ret r) (fun _ : Z => OI) o l t).
  { intros abort r. apply on_bind. eapply on_mono; [by apply oi_close_client|]. intros ? o1 l1 t1 H1. by apply on_ret. }
  destruct p as [data|]; [|apply Hclose]. destruct (negb (err =? ERR_OK)); [apply Hclose|].
  apply on_bind, on_getT. destruct (m_destroyed (to_session o)) eqn:Ed; [apply Hclose|].
  destruct (tcp_wnd <? zlen data); [by apply on_ret|].
  apply on_bind, on_t_emit; [done|]. apply on_bind, on_modO, on_bind.
  match goal with |- on h _ _ ?y l _ => set (o1 := y) end.
  assert (H1 : OI o1 l t).
  { destruct HI as [HR Hd]. eapply OIn_view; [exact HR|done| |done|exact Hd]. intros Hl1. by apply live_mod in Hl1. }
  eapply on_mono; [eapply oi_out_async_send; [by apply given_lwip|done]|]. intros ? o2 l2 t2 H2. by apply on_ret.
Qed.
Lemma oi_client_sent len o l t :
  OI o l t ->
  on h (tc_client_sent_func false tcp_sndbuf tcp_write tcp_output tcp_close in_pipeline h len) (fun _ => OI) o l t.
Proof.
  intros HI. apply on_bind, on_getK. intros k Hk. destruct (m_aborted k) eqn:Ea; [by apply on_ret|].
  apply on_bind, on_modO. match goal with |- on h _ _ ?y l _ => set (o1 := y) end.
  assert (H1 : OI o1 l t).
  { destruct HI as [HR Hd]. eapply OIn_view; [exact HR|done| |done|exact Hd]. intros Hl1. by apply live_mod in Hl1. }
  apply on_bind, on_bind, on_modO, on_bind, on_getT. match goal with |- on h _ _ ?y l _ => set (o2 := y) end.
  assert (H2 : OI o2 l t) by (destruct H1 as [HR Hd]; eapply OIn_view; [exact HR|done..|exact Hd]).
  rewrite andb_false_r. apply on_ret. cbv iota. apply on_bind, on_getT.
  destruct (m_destroyed _ && _).
  { apply on_bind. eapply on_mono; [by apply oi_close_client|]. intros ? o3 l3 t3 H3. by apply on_ret. }
  apply on_bind. eapply on_mono; [by apply oi_socks_recv_send_out|]. intros r o3 l3 t3 H3. by apply on_ret.
Qed.

(** A datagram for a session of this connection *)
Lemma oi_process_udp local remote payload o l t :
  OI o l t ->
  on h (ts_try_to_process_udp cfg false redirect_local m_mtu tcp_sndbuf tcp_write tcp_output tcp_close write_some
          ipv4_checksum udp_checksum in_pipeline cancel_ec depth h local remote payload) (fun _ => OI) o l t.
Proof.
  intros HI. apply on_bind, on_getT. destruct (is_udp (to_session o) && _) eqn:Eu; [|by apply on_ret].
  apply andb_true_iff in Eu as [Eu _]. apply on_bind, on_t_emit; [done|].
  pose proof (given_dgram payload o l t HI Eu) as HG. destruct (ts_proxy (to_session o)) eqn:Ep.
  - apply on_bind. eapply on_mono; [by eapply oi_out_async_send|]. intros ? o1 l1 t1 H1. by apply on_ret.
  - destruct (m_udp_forwarder _) as [f|]; [|apply on_no_object]. apply oi_forward.
    destruct HG as [G1 G2 G3 G4]. split; [|exact G3]. split; [exact G1|]. unfold UIv. cbn [fst both_of]. rewrite G4, app_assoc.
    assert (Hr : v_relays (view_of o l (t ++ [UdpIn h payload])) = false) by (unfold v_relays; cbn; by rewrite Ep, Eu).
    destruct G2 as [U1 U2 U3 U4 U5 UD U6 U7]. split; try done.
    + intros H. destruct (U6 H) as (H1 & H2 & H3 & _). split_and!; [done..|]. intros _. congruence.
    + intros H. destruct (U7 H) as [H1 _]. split; [by apply prefix_app_r|]. intros _. congruence.
Qed.
End Udp.
End Handlers.
End Relay.
