(* ===== verification/TunTheorems.v ===== *)
(** * The tun device without pipeline: runs

    In every world a device without pipeline gets into, each of its sessions
    relays in order, and what a step may end in other than a new world. *)

From Stdlib Require Import ZArith Lia.
From S2P Require Import Prelude Utils Address Trojan UdpPacket PipelineProto Caches ReadCache PipelineComponent Session.
From S2P Require Import SessionLogic ClientSide IpMatcher TunPacket TunPacketTheorems TunSide TunProofs.
Import Streambuf ReadBuf Stat Allocator PipelineComponent.
Local Open Scope Z_scope.
Local Open Scope handler_scope.

(** ** Routes *)

(** What the type of a route says of an address that neither list names; [cn]: it
    is in the mainland's list *)
Definition by_type (t : Z) (gfw cn : bool) : bool :=
  if t <? route_bypass_cn_mainland then true
  else if t <? route_gfwlist then negb cn
  else if t =? route_gfwlist then gfw
  else cn.


Section Runs.
Context {P : Type} {FW : Forwarders P} {FL : ForwardersLaws P}.
Context (cfg : Config) (redirect_local : bool) (tcp_wnd m_mtu : Z).
Context (tcp_sndbuf tcp_write tcp_output tcp_close : nat -> Z).
Context (write_some : nat -> bytes -> error_code * Z).
Context (ipv4_checksum : bytes -> byte * byte) (udp_checksum : bytes -> bytes -> bytes -> bytes -> byte * byte).
Context (in_pipeline : nat -> bool) (system_ec cancel_ec : nat -> error_code) (depth : nat).
Context (ipv4_check udp_check : bytes -> option (bytes * bytes)).
Context (pbuf_alloc : nat -> bool) (pbuf_take ip_input : nat -> Z).
Context (route : RouteConfig) (is_ip_in_gfwlist : nat -> bool) (m_dns_server_endpoint : endpoint).

Notation OI := (TunProofs.OI cfg redirect_local).
Notation OIf := (TunProofs.OIf cfg redirect_local).

(** A packet is larger than its two headers; the readers read again at once; the
    configuration has a password; the routes are decided. *)
Hypothesis mtu_range : 28 < m_mtu < 65536.
Hypothesis some_depth : (0 < depth)%nat.
Hypothesis have_password : Session.password cfg <> [].
Hypothesis routes : forall gfw ip, returns (proxy_by_route route gfw ip).
(** badvpn's parsers copy headers of their sizes. *)
Hypothesis ip_header : forall d ip rest, ipv4_check d = Some (ip, rest) -> zlen ip = 20.
Hypothesis udp_header : forall d udp rest, udp_check d = Some (udp, rest) -> zlen udp = 8.

Notation step := (t_step cfg false redirect_local tcp_wnd m_mtu tcp_sndbuf tcp_write tcp_output tcp_close write_some
  ipv4_checksum udp_checksum in_pipeline system_ec cancel_ec depth ipv4_check udp_check pbuf_alloc pbuf_take ip_input
  route is_ip_in_gfwlist m_dns_server_endpoint).

(** ** The invariant of a world *)

Record WI (w : @tworld P) : Prop := {
  wi_objs : forall h o, t_objs w !! h = Some o -> OI o (ops h w) (tr h w);
  wi_gone : forall h, t_objs w !! h = None -> ops h w = [];
  wi_next : forall h, (t_next w <= h)%nat -> t_objs w !! h = None /\ tr h w = [];
  wi_ids : ids_wf (t_ids w)
}.

Lemma no_loans (w : @tworld P) : lent w.
Proof. by split. Qed.

(** A step ends in [Q], or throws as no id is left, or in [U]. *)
Definition t_ends (U : undefined_by -> Prop) {A} (m : @TM P A) (w : tworld) (Q : A -> tworld -> Prop) : Prop :=
  match m w with Ret (a, w') => Q a w' | Throw e => e = id_over | Undef u => U u end.

Section Steps.
Context (U : undefined_by -> Prop) (HU : forall u, tundef u -> U u).
Notation tok := (t_ends U).

Lemma tok_bind {A B} (m : TM A) (k : A -> TM B) w Q : tok m w (fun a w' => tok (k a) w' Q) -> tok (bind m k) w Q.
Proof. unfold t_ends, bind. by destruct (m w) as [[a w']| |]. Qed.
Lemma tok_mono {A} (m : TM A) w (Q R : A -> tworld -> Prop) : tok m w Q -> (forall a w', Q a w' -> R a w') -> tok m w R.
Proof. unfold t_ends. destruct (m w) as [[a w']| |]; auto. Qed.
Lemma tok_no_object {A} (m : TM A) w Q : m w = Undef NoObject -> tok m w Q.
Proof. unfold t_ends. intros ->. apply HU. by left. Qed.

(** A handler of one session *)
(** The invariant of a world, but for session [h] *)
Record WIe (h : nat) (w : @tworld P) : Prop := {
  wie_objs : forall k o, k <> h -> t_objs w !! k = Some o -> OI o (ops k w) (tr k w);
  wie_gone : forall k, k <> h -> t_objs w !! k = None -> ops k w = [];
  wie_next : forall k, (t_next w <= k)%nat -> t_objs w !! k = None /\ tr k w = [];
  wie_ids : ids_wf (t_ids w)
}.
Lemma WI_but h w : WI w -> WIe h w.
Proof. intros []. split; auto. Qed.
Lemma framed_WI h w w' o' :
  WIe h w -> frame h w w' -> is_Some (t_objs w !! h) -> t_objs w' !! h = Some o' -> OI o' (ops h w') (tr h w') -> WI w'.
Proof.
  intros [W1 W2 W3 W4] [F1 F2 F3 F4 F5 F6 F7] [o0 Ho0] Ho' HI. cbn in F1, F5. injection F5 as E1 E2. split.
  - intros k o Hk. destruct (decide (k = h)) as [->|Hne].
    { rewrite Ho' in Hk. by injection Hk as <-. }
    rewrite F1 in Hk by done. rewrite F2, F4 by done. by apply W1.
  - intros k Hk. destruct (decide (k = h)) as [->|Hne]; [congruence|]. rewrite F1 in Hk by done. rewrite F2 by done. auto.
  - intros k Hk. rewrite E1 in Hk. destruct (W3 k Hk) as [H1 H2]. destruct (decide (k = h)) as [->|Hne]; [congruence|].
    by rewrite F1, F4.
  - by rewrite E2.
Qed.
Lemma tok_on_but {A} h (m : TM A) (R : post A) w o :
  WIe h w -> t_objs w !! h = Some o -> on h m R o (ops h w) (tr h w) -> (forall a o l t, R a o l t -> OI o l t) ->
  tok m w (fun a w' => WI w' /\ exists o', t_objs w' !! h = Some o' /\ R a o' (ops h w') (tr h w')).
Proof.
  intros HW Ho Hm HR. specialize (Hm w Ho eq_refl eq_refl (no_loans w)). unfold t_ends.
  destruct (m w) as [[a w']| |]; [|done|by apply HU]. destruct Hm as (F & _ & o' & Ho' & Hr). cbn in Ho'.
  split; [|by exists o']. eapply framed_WI; [done|done|by eexists|done|by eapply HR].
Qed.
Lemma tok_on {A} h (m : TM A) (R : post A) w o :
  WI w -> t_objs w !! h = Some o -> on h m R o (ops h w) (tr h w) -> (forall a o l t, R a o l t -> OI o l t) ->
  tok m w (fun a w' => WI w' /\ exists o', t_objs w' !! h = Some o' /\ R a o' (ops h w') (tr h w')).
Proof. intros HW. by apply tok_on_but, WI_but. Qed.

(** An operation of session [h] has ended. *)
Lemma tok_ended {A} h x i (m : TM A) w :
  WI w -> t_pending w !! i = Some x -> top_this x = Some h ->
  (forall o l0 l t, OI o l0 t -> after l0 x l -> on h m (fun _ => OI) o l t) ->
  tok m (w <| t_pending ::= delete i |>) (fun _ w' => WI w').
Proof.
  intros HW Hi Hx Hm. set (w1 := w <| t_pending ::= delete i |>).
  assert (He : ended_op w i w1) by (by split). pose proof (ops_after w i w1 x h He Hi Hx) as Ha.
  destruct (t_objs w !! h) as [o|] eqn:Eo.
  - eapply tok_mono; [eapply (tok_on_but h m (fun _ => OI) w1 o); [|done| |done]|by intros ? ? [? _]].
    + destruct HW as [W1 W2 W3 W4]. split; [| |exact W3|exact W4]; intros k.
      * intros o' Hk Ho'. rewrite (ops_other w i w1 x k) by (done || cbn; congruence). exact (W1 k o' Ho').
      * intros Hk Hn. rewrite (ops_other w i w1 x k) by (done || cbn; congruence). exact (W2 k Hn).
    + eapply Hm; [|exact Ha]. by apply (wi_objs w HW).
  - pose proof (wi_gone w HW h Eo) as Hn. exfalso. assert (Hin : x ∈ ops h w).
    { unfold ops. apply list_elem_of_filter. split; [done|]. by eapply list_elem_of_lookup_2. }
    rewrite Hn in Hin. by apply not_elem_of_nil in Hin.
Qed.
(** A handler that begins by looking at its session *)
Lemma tok_session {A} h (m : TM A) w :
  WI w -> (t_objs w !! h = None -> m w = Undef NoObject) ->
  (forall o l t, OI o l t -> on h m (fun _ => OI) o l t) -> tok m w (fun _ w' => WI w').
Proof.
  intros HW Hn Hm. destruct (t_objs w !! h) as [o|] eqn:Eo; [|by apply tok_no_object, Hn].
  eapply tok_mono; [eapply tok_on; [done|done|apply Hm; by eapply wi_objs|done]|]. by intros a w' [? _].
Qed.
(** What no session is about *)
Lemma alike_WI w w' : WI w -> alike w w' -> WI w'.
Proof.
  intros [W1 W2 W3 W4] [A1 A2 A3 A4 A5]. cbn in *. injection A5 as E1 E2. unfold ops, tr in *. cbn in *.
  split; unfold ops, tr; cbn; rewrite ?A1, ?A2, ?A3, ?E1, ?E2; auto.
Qed.

(** *** New sessions *)

Lemma OIf_new proxy udp id local remote (o := mkTunObj
    (let s := new_TUNSession cfg proxy udp id in
     if udp then s <| m_local_addr_udp := local |> <| m_remote_addr_udp := remote |>
     else s <| m_local_addr := local |> <| m_remote_addr := remote |>)
    (if udp then None else Some new_client)) :
  OIf o [] [] /\ is_udp (to_session o) = udp /\ m_destroyed (to_session o) = false /\ m_send_buf (to_session o) = [].
Proof.
  assert (Hu : is_udp (to_session o) = udp) by (by destruct udp). split; [|by destruct udp].
  assert (Hi : v_input redirect_local (view_of o [] []) = []).
  { unfold v_input. cbn. by destruct (is_udp _). }
  split; [|by destruct udp]. split; [split|].
  - split; cbn; try by destruct udp.
    intros (k & Hk & _). destruct udp; [done|]. split; [|done]. by destruct proxy.
  - unfold UIv. cbn [fst both_of]. rewrite Hi. split; try by destruct udp.
  - by destruct udp.
Qed.
Lemma tok_new_session proxy udp local remote w :
  WI w -> tok (td_new_session cfg proxy udp local remote) w (fun h w' =>
    WI w' /\ exists o, t_objs w' !! h = Some o /\ OIf o (ops h w') (tr h w') /\ is_udp (to_session o) = udp /\
      m_destroyed (to_session o) = false /\ m_send_buf (to_session o) = []).
Proof.
  intros HW. pose proof HW as [W1 W2 W3 W4]. apply tok_bind. unfold t_ends at 1, gets. apply tok_bind.
  assert (Hid : tok (if proxy then lift (allocate_session_id (t_ids (id w))) else ret (0, t_ids (id w))) w
    (fun r w' => w' = w /\ ids_wf (snd r))).
  { destruct proxy; [|by split]. unfold t_ends, lift, id.
    destruct (decide (Z.of_nat (size (s_session_used_ids (t_ids w))) < 65535)).
    - destruct (allocate_session_id_ok (t_ids w) W4) as (i & ids & -> & _ & _ & _ & H); [done|]. by split.
    - by rewrite allocate_session_id_full by lia. }
  eapply tok_mono; [exact Hid|]. intros [i ids] w' [-> Hi]. unfold id. cbn [fst snd] in *.
  set (h := t_next w). destruct (W3 h (le_n _)) as [Hn1 Hn2]. pose proof (W2 h Hn1) as Hn3.
  destruct (OIf_new proxy udp i local remote) as [HF Hu].
  unfold t_ends, bind, modify, ret.
  match goal with |- context [mkTunObj ?s ?k] => set (o := mkTunObj s k) in * end.
  assert (E : forall k, k <> h -> <[h := o]> (t_objs w) !! k = t_objs w !! k) by (intros; by apply lookup_insert_ne).
  split.
  - split; cbn.
    + intros k o' Hk. destruct (decide (k = h)) as [->|Hne].
      * rewrite lookup_insert_eq in Hk. injection Hk as <-. change (OI o (ops h w) (tr h w)). rewrite Hn2, Hn3. apply HF.
      * rewrite E in Hk by done. exact (W1 k o' Hk).
    + intros k Hk. destruct (decide (k = h)) as [->|Hne]; [by rewrite lookup_insert_eq in Hk|].
      rewrite E in Hk by done. exact (W2 k Hk).
    + intros k Hk. rewrite E by (unfold h; lia). apply W3. lia.
    + exact Hi.
  - exists o. split; [apply lookup_insert_eq|]. split; [|exact Hu]. change (OIf o (ops h w) (tr h w)). by rewrite Hn2, Hn3.
Qed.

Lemma getT_none h w : t_objs w !! h = None -> @getT P h w = Undef NoObject.
Proof. intros E. unfold getT, bind, getO. by rewrite E. Qed.
Lemma bind_none {A B} (m : @TM P A) (k : A -> TM B) w : m w = Undef NoObject -> bind m k w = Undef NoObject.
Proof. unfold bind. by intros ->. Qed.

Notation started := (td_started cfg false redirect_local m_mtu tcp_sndbuf tcp_write tcp_output tcp_close write_some
  ipv4_checksum udp_checksum in_pipeline cancel_ec depth).
Lemma tok_started h w o :
  WI w -> t_objs w !! h = Some o -> OIf o (ops h w) (tr h w) -> tok (started h 0) w (fun _ w' => WI w').
Proof.
  intros HW Ho HF. apply tok_bind. eapply tok_mono.
  { eapply (tok_on h _ (fun s o' l t => s = to_session o /\ OIf o' l t)); [done|done|by apply on_getT|by intros ? ??? [_ [? _]]]. }
  cbv beta. intros s w1 (HW1 & o1 & Ho1 & -> & HF1). cbn [Z.eqb]. apply tok_bind. eapply tok_mono.
  { eapply (tok_on h _ (fun _ => OI)); [done|done|by apply oi_start|done]. }
  intros ? w2 (HW2 & o2 & Ho2 & HI2). cbv beta. destruct (is_udp _); [exact HW2|].
  apply tok_bind. eapply tok_mono.
  { eapply (tok_on h _ (fun s => OI)); [done|done|by apply on_getT|done]. }
  intros s2 w3 (HW3 & _). cbv beta. destruct (m_destroyed s2); cbn [negb when]; [exact HW3|].
  eapply alike_WI; [exact HW3|]. by split.
Qed.

Lemma tok_route ip w (Q : bool -> tworld -> Prop) :
  WI w -> (forall b w', WI w' -> Q b w') -> tok (td_proxy_by_route route is_ip_in_gfwlist ip) w Q.
Proof.
  intros HW HQ. apply tok_bind. unfold t_ends at 1, t_ask. destruct (routes (is_ip_in_gfwlist (t_calls w)) ip) as [b E].
  unfold t_ends, lift. rewrite E. apply HQ. eapply alike_WI; [exact HW|]. by split.
Qed.

Lemma tok_accept local remote err w :
  WI w -> tok (td_listener_accept_func cfg false redirect_local m_mtu tcp_sndbuf tcp_write tcp_output tcp_close write_some
    ipv4_checksum udp_checksum in_pipeline cancel_ec depth route is_ip_in_gfwlist local remote err) w (fun _ w' => WI w').
Proof.
  intros HW. unfold td_listener_accept_func. destruct (negb (err =? ERR_OK)); [exact HW|].
  apply tok_bind, tok_route; [done|]. intros proxy w1 HW1. apply tok_bind. eapply tok_mono; [by apply tok_new_session|].
  intros h w2 (HW2 & o & Ho & HF & _). cbv beta. apply tok_bind.
  eapply tok_mono with (Q := fun _ w' => WI w'); [destruct proxy; by eapply tok_started|]. intros ? w3 HW3. cbv beta.
  apply tok_bind. eapply tok_mono; [apply (tok_session h (getT h)); [done|apply getT_none|]|].
  { intros o1 l1 t1 H1. by apply on_getT. }
  intros s w4 HW4. exact HW4.
Qed.

(** *** Packets from the device *)

Lemma tok_assoc {A B C} (a : TM A) (f : A -> TM B) (g : B -> TM C) w Q :
  tok (bind (bind a f) g) w Q -> tok (bind a (fun x => bind (f x) g)) w Q.
Proof. unfold t_ends, bind. by destruct (a w) as [[? ?]| |]. Qed.

Notation process := (ts_try_to_process_udp cfg false redirect_local m_mtu tcp_sndbuf tcp_write tcp_output tcp_close
  write_some ipv4_checksum udp_checksum in_pipeline cancel_ec depth).
Notation packet := (td_packet cfg false redirect_local m_mtu tcp_sndbuf tcp_write tcp_output tcp_close
  write_some ipv4_checksum udp_checksum in_pipeline cancel_ec depth ipv4_check udp_check pbuf_alloc pbuf_take ip_input
  route is_ip_in_gfwlist m_dns_server_endpoint).
Lemma tok_offer (HE : U NoEnd) fuel h local remote payload w :
  WI w -> tok (td_offer cfg false redirect_local m_mtu tcp_sndbuf tcp_write tcp_output tcp_close
  write_some ipv4_checksum udp_checksum in_pipeline cancel_ec depth fuel h local remote payload) w (fun _ w' => WI w').
Proof.
  revert h w. induction fuel as [|fuel IH]; intros h w HW; [exact HE|]. cbn [td_offer]. apply tok_bind.
  eapply tok_mono; [apply (tok_session h); [done|intros E; by apply bind_none, getT_none|]|].
  { intros o l t HI. by apply oi_process_udp. }
  intros taken w1 HW1. cbv beta. destruct taken; [exact HW1|]. apply tok_bind. unfold t_ends at 1, gets, id.
  destruct (after_in h (m_udp_clients w1)) as [[|h' rest]|]; [exact HW1|by apply IH|]. apply tok_no_object. done.
Qed.
Lemma endpoint_at_ok ip udp ip_pos port_pos :
  zlen ip = 20 -> zlen udp = 8 -> (ip_pos <= 16)%nat -> 0 <= port_pos <= 6 ->
  exists e, endpoint_at ip ip_pos udp port_pos = Ret e.
Proof.
  intros Hi Hu Hp Hq. unfold endpoint_at. destruct (Codec.parse_uint16_defined port_pos udp) as [port ->]; [lia|lia|].
  cbn [obind]. pose proof (zlen_sub ip (Z.of_nat ip_pos) 4 ltac:(lia) ltac:(lia) ltac:(lia)) as Hl. unfold zlen in Hl.
  destruct (sub_ ip (Z.of_nat ip_pos) 4) as [|a [|b [|c [|d [|]]]]]; cbn in Hl; try lia. eauto.
Qed.
(** An effect of no session *)
Lemma emit_none_WI e w : teff_this e = None -> WI w -> WI (w <| t_trace ::= fun l => l ++ [e] |>).
Proof.
  intros He [W1 W2 W3 W4]. set (w' := w <| t_trace ::= _ |>).
  assert (E : forall k, tr k w' = tr k w).
  { intros k. unfold tr. cbn. rewrite list.filter_app, filter_cons, decide_False by (cbn; congruence). by rewrite app_nil_r. }
  split; [|exact W2| |exact W4]; intros k.
  - intros o Ho. rewrite E. exact (W1 k o Ho).
  - intros Hk. rewrite E. exact (W3 k Hk).
Qed.

Lemma tok_udp_packet (HE : U NoEnd) data w :
  WI w -> tok (td_try_to_process_udp_packet cfg false redirect_local m_mtu tcp_sndbuf tcp_write tcp_output tcp_close
    write_some ipv4_checksum udp_checksum in_pipeline cancel_ec depth ipv4_check udp_check
    route is_ip_in_gfwlist m_dns_server_endpoint data) w (fun _ w' => WI w').
Proof.
  intros HW. unfold td_try_to_process_udp_packet. cbv zeta. destruct (_ =? IPV4); [|exact HW].
  destruct (_ || _); [exact HW|]. destruct (ipv4_check data) as [[ip data1]|] eqn:Ei; [|exact HW].
  destruct (udp_check data1) as [[udp payload]|] eqn:Eu; [|exact HW]. destruct (negb (bool_decide _)); [exact HW|].
  apply ip_header in Ei. apply udp_header in Eu.
  destruct (endpoint_at_ok ip udp 12 0 Ei Eu) as [local El]; [lia..|].
  destruct (endpoint_at_ok ip udp 16 2 Ei Eu) as [remote Er]; [lia..|]. rewrite El, Er.
  apply tok_bind. unfold t_ends at 1, lift. apply tok_bind. unfold t_ends at 1, lift.
  destruct (bool_decide (m_dns_server_endpoint = remote)).
  { by apply emit_none_WI. }
  apply tok_bind. unfold t_ends at 1, gets, id. apply tok_bind. eapply tok_mono with (Q := fun _ w' => WI w').
  { destruct (m_udp_clients w); [exact HW|by apply tok_offer]. }
  intros taken w1 HW1. cbv beta. destruct taken; [exact HW1|].
  apply tok_bind, tok_route; [done|]. intros proxy w2 HW2. apply tok_bind. eapply tok_mono; [by apply tok_new_session|].
  intros h w3 (HW3 & o & Ho & HF & Hu & Hd & Hb). cbv beta. apply tok_assoc, tok_bind. eapply tok_mono.
  { eapply (tok_on h _ (fun _ => OIf)); [done|done| |by intros ? ??? [? _]]. destruct HF as (HI & Hc & Hn).
    apply on_bind, on_t_emit; [done|]. eapply on_mono; [eapply on_send_early; [by apply given_dgram|done..]|].
    intros ? o1 l1 t1 (-> & -> & -> & H1). split; [exact H1|]. split; [exact Hc|]. exact Hn. }
  cbv beta. intros ? w4 (HW4 & o4 & Ho4 & HF4). apply tok_bind. unfold t_ends at 1, modify.
  set (w5 := w4 <| m_udp_clients ::= _ |>).
  assert (HW5 : WI w5) by (eapply alike_WI; [exact HW4|by split]).
  apply tok_bind. eapply tok_mono with (Q := fun _ w' => WI w'); [|by intros ? w6 HW6].
  destruct proxy; [by eapply (tok_started h w5 o4)|].
  eapply tok_mono; [eapply (tok_on h _ (fun _ => OI) w5 o4); [done|done|by apply oi_start|done]|]. by intros ? w6 [? _].
Qed.

Lemma tok_ask {A} (f : nat -> A) w (Q : A -> tworld -> Prop) :
  WI w -> (forall a w', WI w' -> Q a w') -> tok (t_ask f) w Q.
Proof. intros HW HQ. apply HQ. eapply alike_WI; [exact HW|]. by split. Qed.
Lemma tok_packet (HE : U NoEnd) p w : WI w -> tok (packet p) w (fun _ w' => WI w').
Proof.
  intros HW. apply tok_bind. eapply tok_mono; [by apply tok_udp_packet|]. intros r w1 HW1. cbv beta.
  destruct (r =? 0); cbn [when]; [|exact HW1]. apply tok_bind, tok_ask; [done|]. intros ok w2 HW2.
  destruct (negb ok); [exact HW2|]. apply tok_bind, tok_ask; [done|]. intros err w3 HW3.
  destruct (negb (err =? ERR_OK)); [exact HW3|]. apply tok_bind. eapply tok_mono with (Q := fun _ w' => WI w').
  - unfold td_netif_input_func. destruct p as [|b p]; [exact HW3|]. destruct (_ =? IPV4); [|exact HW3].
    apply tok_bind. unfold t_ends at 1, t_emit, modify. apply tok_ask; [by apply emit_none_WI|done].
  - intros ? w4 HW4. exact HW4.
Qed.
Lemma tok_parse (HE : U NoEnd) fuel buff w :
  WI w -> tok (parse_packet packet fuel buff) w (fun _ w' => WI w').
Proof.
  revert buff w. induction fuel as [|fuel IH]; intros buff w HW; [exact HE|]. cbn [parse_packet].
  destruct buff as [|b rest]; [exact HW|]. destruct (_ || _); [|exact HW].
  cbv zeta. apply tok_bind.
  assert (Hl : exists r, packet_length (ip_version b) (b :: rest) = Ret r).
  { unfold packet_length, sizeof_ipv4_header, sizeof_ipv6_header. pose proof (zlen_nonneg (b :: rest)). repeat case_match; eauto.
    - destruct (Codec.parse_uint16_defined 2 (b :: rest)) as [v ->]; cbn [obind]; eauto; lia.
    - destruct (Codec.parse_uint16_defined 4 (b :: rest)) as [v ->]; cbn [obind]; eauto; lia. }
  destruct Hl as [r ->]. unfold t_ends at 1, lift. destruct r as [n|]; [|exact HW].
  destruct (Z.leb_spec n (zlen (b :: rest))); [|exact HW].
  apply tok_bind. eapply tok_mono; [by apply tok_packet|]. intros ? w1 HW1. cbv beta.
  destruct (zlen (b :: rest) =? n); [exact HW1|]. apply tok_bind. rewrite substr_from_ok by done.
  unfold t_ends at 1, lift. by apply IH.
Qed.
Lemma tok_dev_read (HE : U NoEnd) ec data w :
  WI w -> tok (td_read_done cfg false redirect_local m_mtu tcp_sndbuf tcp_write tcp_output tcp_close
  write_some ipv4_checksum udp_checksum in_pipeline cancel_ec depth ipv4_check udp_check pbuf_alloc pbuf_take ip_input
  route is_ip_in_gfwlist m_dns_server_endpoint ec data) w (fun _ w' => WI w').
Proof.
  intros HW. apply tok_bind. unfold t_ends at 1, gets, id. destruct (m_quitting (t_out w)); [exact HW|].
  apply tok_bind. eapply tok_mono with (Q := fun _ w' => WI w').
  - destruct (ec =? 0); [|exact HW]. cbv zeta. apply tok_bind. eapply tok_mono; [by apply tok_parse|].
    intros rest w1 HW1. eapply alike_WI; [exact HW1|]. by split.
  - intros ? w1 [W1 W2 W3 W4].
    assert (E : forall k, ops k (w1 <| t_pending ::= fun l => l ++ [TDevRead] |>) = ops k w1).
    { intros k. unfold ops. cbn. rewrite list.filter_app, filter_cons, decide_False by done. by rewrite app_nil_r. }
    split; [| |exact W3|exact W4]; intros k.
    + intros o Ho. rewrite E. exact (W1 k o Ho).
    + intros Hk. rewrite E. exact (W2 k Hk).
Qed.

(** *** The end of the device *)

Lemma tok_for_each {A} (f : A -> TM unit) xs w :
  (forall x w, WI w -> tok (f x) w (fun _ w' => WI w')) -> WI w -> tok (t_for_each f xs) w (fun _ w' => WI w').
Proof.
  intros Hf. revert w. induction xs as [|x xs IH]; intros w HW; cbn [t_for_each]; [exact HW|].
  apply tok_bind. eapply tok_mono; [by apply Hf|]. intros ? w1 HW1. by apply IH.
Qed.
(** A change of one object its invariant does not see *)
Lemma tok_modO h f w :
  WI w -> (forall o l t, OI o l t -> OI (f o) l t) -> tok (modO h f) w (fun _ w' => WI w').
Proof.
  intros HW Hf. destruct (t_objs w !! h) as [o|] eqn:Eo.
  - eapply tok_mono; [eapply (tok_on h _ (fun _ => OI)); [done|done|apply on_modO, Hf; by eapply wi_objs|done]|].
    by intros ? w1 [? _].
  - assert (E : alter f h (t_objs w) = t_objs w) by (by apply alter_id; intros x Hx; rewrite Eo in Hx).
    destruct HW as [W1 W2 W3 W4]. split; cbn; rewrite ?E; [exact W1|exact W2|exact W3|exact W4].
Qed.
Lemma OI_freed o l t : OI o l t -> OI (o <| to_client := None |>) l t.
Proof. intros [HR Hd]. eapply OIn_view; [exact HR|done| |done|exact Hd]. by intros (? & ? & _). Qed.

Lemma tok_destroy h b w : WI w -> tok (ts_destroy false tcp_close h b) w (fun _ w' => WI w').
Proof.
  intros HW. apply (tok_session h); [done|intros E; by apply bind_none, getT_none|].
  intros o l t HI. by apply oi_destroyed.
Qed.
Lemma tok_dev_destroy w : WI w -> tok (td_destroy false tcp_close) w (fun _ w' => WI w').
Proof.
  intros HW. apply tok_bind. unfold t_ends at 1, gets, id. destruct (m_quitting (t_out w)); [exact HW|].
  apply tok_bind. unfold t_ends at 1, modify. set (w0 := w <| t_out ::= _ |>).
  assert (HW0 : WI w0) by (eapply alike_WI; [exact HW|by split]).
  apply tok_bind. eapply tok_mono; [apply tok_for_each; [|exact HW0]|].
  { intros h w1 HW1. apply (tok_session h); [done| |].
    - intros E. apply bind_none. unfold getK, bind, getO. by rewrite E.
    - intros o l t HI. by apply oi_close_client. }
  intros ? w1 HW1. cbv beta. apply tok_bind. eapply tok_mono; [apply tok_for_each; [|exact HW1]|].
  { intros h w2 HW2. apply tok_modO; [done|]. intros o l t. apply OI_freed. }
  intros ? w2 HW2. cbv beta. apply tok_bind. unfold t_ends at 1, modify. set (w3 := w2 <| m_tcp_clients := _ |>).
  assert (HW3 : WI w3) by (eapply alike_WI; [exact HW2|by split]).
  apply tok_bind. unfold t_ends at 1, gets, id. apply tok_bind. eapply tok_mono; [apply tok_for_each; [|exact HW3]|].
  { intros h w4 HW4. apply tok_bind. eapply tok_mono; [apply tok_modO; [exact HW4|]|intros ? w5 HW5; by apply tok_destroy].
    intros o l t [HR Hd]. eapply OIn_view; [exact HR|done..|exact Hd]. }
  intros ? w4 HW4. eapply alike_WI; [exact HW4|]. by split.
Qed.

(** *** A step *)

(** An operation the view does not count *)
Lemma OI_uncounted x o l0 l t :
  OI o l0 t -> after l0 x l -> is_trd x = false -> is_twr x = false -> is_tcn x = false -> is_tls x = false ->
  is_pop x = false -> OI o l t.
Proof.
  intros [HR Hd] Ha E1 E2 E3 E4 E5. eapply OIn_view; [exact HR| |done|done|done].
  unfold both_of. f_equal; [symmetry; by eapply view_after|]. unfold down_of. by rewrite (Ha is_trd), E1, Z.add_0_r.
Qed.
Lemma no_pipeline_op x o l0 l t : OI o l0 t -> after l0 x l -> is_pop x = true -> False.
Proof.
  intros [[_ HUI] _] Ha Hx. pose proof (proj2 (ui_direct _ _ _ _ HUI)) as E. cbn in E. rewrite (Ha is_pop), Hx in E.
  pose proof (cnt_nonneg is_pop l). lia.
Qed.

Notation complete := (t_complete cfg false redirect_local m_mtu tcp_sndbuf tcp_write tcp_output tcp_close write_some
  ipv4_checksum udp_checksum in_pipeline system_ec cancel_ec depth ipv4_check udp_check pbuf_alloc pbuf_take ip_input
  route is_ip_in_gfwlist m_dns_server_endpoint).
Lemma tok_complete x c i w :
  WI w -> t_pending w !! i = Some x -> t_answers m_mtu x c = true -> x <> TDevRead ->
  tok (complete x c) (w <| t_pending ::= delete i |>) (fun _ w' => WI w').
Proof.
  intros HW Hi Hans Hx.
  destruct x as [h|h|h|h|h|h|h hd n|h|h|h n|]; [..|done]; destruct c as [ec|ec data|ec n'|ec results];
    try discriminate Hans; (eapply tok_ended; [exact HW|exact Hi|reflexivity|]); intros o l0 l t HI Ha; cbn [t_complete];
    try (exfalso; by eapply no_pipeline_op).
  - by eapply oi_resolve_done.
  - by eapply oi_connect_done.
  - assert (HI1 : OI o l t) by (by eapply OI_uncounted). destruct (ec =? 0); [by apply oi_destroyed|by apply on_skip].
  - by eapply oi_ssl_done.
  - eapply oi_read_done; [done..|]. apply Z.leb_le. exact Hans.
  - by eapply oi_write_done.
  - assert (HI1 : OI o l t) by (by eapply OI_uncounted). by eapply oi_timer_fired.
Qed.

(** A read of the device that is answered *)
Definition device_read (e : tevent) (w : @tworld P) : bool :=
  match e with TComplete i _ => bool_decide (t_pending w !! i = Some TDevRead) | _ => false end.

Lemma write_to_tun_returns x : exists y, write_to_tun m_mtu write_some x = Ret y.
Proof.
  destruct (m_quitting x) eqn:E; [unfold write_to_tun; rewrite E; eauto|].
  destruct (write_flushes m_mtu write_some x E) as (y & -> & _). eauto.
Qed.
Lemma netif_output_returns p x : exists y, netif_output_func m_mtu write_some p x = Ret y.
Proof.
  unfold netif_output_func. destruct (m_quitting x); [eauto|].
  destruct p as [|q [|q' p]]; [eauto| |apply write_to_tun_returns]. destruct (_ <=? _); [eauto|apply write_to_tun_returns].
Qed.
Lemma tok_out f w : WI w -> (forall x, exists y, f x = Ret y) -> tok (on_out f) w (fun _ w' => WI w').
Proof.
  intros HW Hf. unfold t_ends, on_out. destruct (Hf (t_out w)) as [y ->]. eapply alike_WI; [exact HW|]. by split.
Qed.
(** Events for a session that is there *)
Lemma tok_callback h (m : TM unit) w :
  WI w -> (forall o l t, OI o l t -> (forall k, to_client o = Some k -> m_closed k = false) ->
             on h m (fun _ => OI) o l t) ->
  tok (tc_called h m) w (fun _ w' => WI w').
Proof.
  intros HW Hm. apply tok_bind. unfold t_ends at 1, gets, id. destruct (t_objs w !! h) as [o|] eqn:Eo; [|exact HW].
  destruct (to_client o) as [k|] eqn:Ek; [|exact HW]. destruct (m_pcb k && negb (m_closed k)) eqn:Eb; cbn [when]; [|exact HW].
  apply andb_true_iff in Eb as [_ Eb%negb_true_iff].
  eapply tok_mono; [eapply (tok_on h m (fun _ => OI)); [done|done| |done]|by intros ? ? [? _]].
  apply Hm; [by eapply wi_objs|]. intros k' Hk'. rewrite Ek in Hk'. by injection Hk' as <-.
Qed.
Lemma tok_piped h m w : WI w -> tok (ts_piped h m) w (fun _ w' => WI w').
Proof.
  intros HW. apply tok_bind. unfold t_ends at 1, gets, id. destruct (t_objs w !! h) as [o|] eqn:Eo; [|exact HW].
  destruct (wi_objs w HW h o Eo) as [[_ HUI] _]. pose proof (proj1 (ui_direct _ _ _ _ HUI)) as E. cbn in E.
  cbv zeta. rewrite E. exact HW.
Qed.
Lemma tok_forwarded h (m : TUNSession -> nat -> TM unit) w :
  WI w -> (forall s f o l t, OI o l t -> on h (m s f) (fun _ => OI) o l t) ->
  tok (ts_forwarded h m) w (fun _ w' => WI w').
Proof.
  intros HW Hm. apply tok_bind. unfold t_ends at 1, gets, id. destruct (t_objs w !! h) as [o|] eqn:Eo; [|exact HW].
  destruct (m_udp_forwarder _) as [f|]; [|exact HW]. destruct (negb _); cbn [when]; [|exact HW].
  eapply tok_mono; [eapply (tok_on h _ (fun _ => OI)); [done|done| |done]|by intros ? ? [? _]]. by eapply Hm, wi_objs.
Qed.
Lemma tok_freed h w :
  WI w -> forallb (fun o => negb (bool_decide (top_this o = Some h))) (t_pending w) = true ->
  forall i, ids_wf i -> WI (w <| t_objs ::= delete h |> <| t_ids := i |>).
Proof.
  intros [W1 W2 W3 W4] Hp i Hi. split; cbn; [| | |exact Hi].
  - intros k o Hk. apply lookup_delete_Some in Hk as [Hne Hk]. exact (W1 k o Hk).
  - intros k Hk. apply lookup_delete_None in Hk as [<-|Hk]; [|exact (W2 k Hk)].
    unfold ops. cbn. apply elem_of_nil_inv. intros x [Hx Hin]%list_elem_of_filter.
    rewrite forallb_forall in Hp. apply list_elem_of_In, Hp in Hin. by apply negb_true_iff, bool_decide_eq_false in Hin.
  - intros k Hk. destruct (W3 k Hk) as [H1 H2]. split; [|exact H2]. by apply lookup_delete_None; right.
Qed.

Lemma ended_op_of_dev (w : @tworld P) i :
  t_pending w !! i = Some TDevRead -> forall k, ops k (w <| t_pending ::= delete i |>) = ops k w.
Proof. intros Ei k. by apply (ops_other w i (w <| t_pending ::= delete i |>) TDevRead). Qed.
Lemma tok_client_freed h w : WI w -> tok (step (TClientFreed h)) w (fun _ w' => WI w').
Proof.
  intros HW. apply tok_bind. unfold t_ends at 1, gets, id. destruct (_ && _); cbn [when]; [|exact HW].
  apply tok_modO; [done|]. intros o l t. apply OI_freed.
Qed.
Lemma tok_session_freed h w : WI w -> tok (step (TSessionFreed h)) w (fun _ w' => WI w').
Proof.
  intros HW. apply tok_bind. unfold t_ends at 1, gets, id. destruct (t_objs w !! h) as [o|]; [|exact HW].
  cbv zeta. destruct (_ && _) eqn:E; cbn [when]; [|exact HW]. bool_facts. unfold t_ends, modify.
  pose proof (wi_ids w HW) as Hi.
  assert (Hi' : ids_wf (if ts_proxy (to_session o) then snd (free_session_id (m_session_id (ts_com (to_session o))) (t_ids w))
    else t_ids w)).
  { destruct (ts_proxy _); [|done]. destruct Hi as [I1 I2]. split; [exact I1|]. cbn. set_solver. }
  exact (tok_freed h w HW ltac:(done) _ Hi').
Qed.
Lemma tok_step e w : WI w -> (device_read e w = true -> U NoEnd) -> tok (step e) w (fun _ w' => WI w').
Proof.
  intros HW HE. assert (Hskip : forall {A} (m : TM A), tok m w (fun _ w' => WI w') -> tok (m ;;; skip) w (fun _ w' => WI w')).
  { intros A m Hm. apply tok_bind. eapply tok_mono; [exact Hm|]. by intros ? w1 HW1. }
  destruct e as [i c|now|local remote err|h p err|h len|h|p|h data|h n|h|h|h data|h|to data| |h|h]; cbn [t_step].
  - apply tok_bind. unfold t_ends at 1, gets, id. destruct (t_pending w !! i) as [x|] eqn:Ei; [|exact HW].
    destruct (t_answers m_mtu x c) eqn:Ea; [|exact HW]. apply tok_bind. unfold t_ends at 1, modify.
    destruct (decide (x = TDevRead)) as [->|Hx]; [|by apply tok_complete].
    assert (HW1 : WI (w <| t_pending ::= delete i |>)).
    { pose proof (ended_op_of_dev w i Ei) as E. destruct HW as [W1 W2 W3 W4]. split; [| |exact W3|exact W4]; intros k.
      - intros o Ho. rewrite E. exact (W1 k o Ho).
      - intros Hk. rewrite E. exact (W2 k Hk). }
    destruct c; try discriminate Ea. apply tok_dev_read; [|done]. apply HE. cbn. by rewrite Ei, bool_decide_true.
  - eapply alike_WI; [exact HW|]. by split.
  - by apply Hskip, tok_accept.
  - apply tok_callback; [done|]. intros o l t HI Hk. apply on_bind. eapply on_mono; [by apply oi_client_recv|].
    intros ? o1 l1 t1 H1. by apply on_skip.
  - apply tok_callback; [done|]. intros o l t HI Hk. apply on_bind. eapply on_mono; [by apply oi_client_sent|].
    intros ? o1 l1 t1 H1. by apply on_skip.
  - apply tok_callback; [done|]. intros o l t HI Hk. by apply oi_err_func.
  - apply tok_out; [done|]. apply netif_output_returns.
  - by apply tok_piped.
  - by apply tok_piped.
  - by apply tok_piped.
  - by apply tok_piped.
  - apply tok_forwarded; [done|]. intros s f o l t HI. by apply on_ts_write_udp.
  - apply tok_forwarded; [done|]. intros s f o l t HI. apply on_bind, on_on_fwd; [apply fw_destroy_defined|].
    intros _. by apply oi_destroyed.
  - apply tok_out; [done|]. intros x. apply handle_write_ends; [done|lia].
  - by apply tok_dev_destroy.
  - by apply tok_client_freed.
  - by apply tok_session_freed.
Qed.
End Steps.

(** ** Runs *)

Fixpoint t_run (es : list tevent) : @TM P unit :=
  match es with
  | [] => skip
  | e :: es => step e ;;; t_run es
  end.
(** The worlds a device gets into from its start *)
Definition reachable (p : P) (w : tworld) : Prop := exists es, t_run es (t_init p) = Ret (tt, w).

Lemma init_WI p : WI (t_init p).
Proof.
  by split; cbn.
Qed.
Lemma run_WI es w w' : WI w -> t_run es w = Ret (tt, w') -> WI w'.
Proof.
  revert w. induction es as [|e es IH]; intros w HW; cbn [t_run]; [by intros [= <-]|].
  unfold bind. pose proof (tok_step (fun _ => True) (fun _ _ => I) e w HW (fun _ => I)) as Hs. unfold t_ends in Hs.
  destruct (step e w) as [[[] w1]| |]; [|done|done]. by apply IH.
Qed.
Lemma reachable_WI p w : reachable p w -> WI w.
Proof. intros [es E]. eapply run_WI; [apply init_WI|exact E]. Qed.

(** What a session through the server begins with, and what it is given to send *)
Definition request_of (s : TUNSession) : bytes :=
  if ts_proxy s then
    match Session.password cfg with [] => [] | (pw, _) :: _ => ts_request redirect_local s pw end
  else [].
Definition input_of (s : TUNSession) (t : list teffect) : bytes :=
  if is_udp s then
    flat_map (fun d => if ts_proxy s then UDPPacket.generate_endpoint [] (ts_udp_target redirect_local s) d else d)
      (datagrams t)
  else lwip_in t.
Lemma request_of_view o l t : v_request cfg redirect_local (view_of o l t) = request_of (to_session o).
Proof.
  unfold request_of. destruct (ts_proxy (to_session o)) eqn:Ep; [|unfold v_request; cbn; by rewrite Ep].
  destruct (Session.password cfg) as [|[pw x] rest] eqn:E; [done|]. symmetry. by eapply request_is.
Qed.

(** C6: a session of the tun device, in every world the device gets into without
    a pipeline, relays in order: what was written to lwIP is the beginning of what
    was read from the remote host, and while the lwIP client is open the rest is in
    the session's buffer; what was written to the remote host is the beginning of
    the request (if the session goes through the server) followed by what lwIP or
    the device gave it, and while the session is connected and alive the rest is
    waiting in its cache. *)
Theorem tun_sessions_relay p w h o :
  reachable p w -> t_objs w !! h = Some o ->
  let s := to_session o in
  let t := tr h w in
  lwip_out t `prefix_of` from_remote t /\
  (live o -> lwip_out t ++ read_buf (m_recv_buf s) = from_remote t) /\
  to_remote t `prefix_of` request_of s ++ input_of s t /\
  (m_connected s = true -> m_destroyed s = false -> ts_proxy s || negb (is_udp s) = true ->
   to_remote t ++ SendDataCache.current_recv_queue (m_sending_data_cache s) = request_of s ++ input_of s t).
Proof.
  intros Hr Ho. cbv zeta. destruct (wi_objs w (reachable_WI p w Hr) h o Ho) as [[HD HUI] _].
  unfold UIv in HUI. cbn [fst snd both_of] in HD, HUI. rewrite request_of_view in HUI.
  change (v_input _ _) with (input_of (to_session o) (tr h w)) in HUI.
  set (s := to_session o) in *. set (t := tr h w) in *. split_and!.
  - exact (di_prefix _ _ _ _ _ _ HD).
  - exact (di_exact _ _ _ _ _ _ HD).
  - destruct (m_connected s) eqn:Ec.
    + destruct (ui_after _ _ _ _ HUI Ec) as [H _]. etrans; [|exact H]. by apply prefix_app_r.
    + destruct (ui_before _ _ _ _ HUI Ec) as [H _]. change (to_remote t = []) in H. rewrite H. apply prefix_nil.
  - intros Ec Ed Hr'. destruct (ui_after _ _ _ _ HUI Ec) as [_ H]. exact (H Ed Hr').
Qed.

Lemma cnt_ops h (w : @tworld P) f x :
  (forall y, top_this y = Some h -> f y = true <-> y = x) -> cnt f (ops h w) = zlen (filter (fun y => y = x) (ops h w)).
Proof.
  intros Hf. unfold ops, cnt. cbn. induction (t_pending w) as [|y l IH]; [done|]. rewrite filter_cons.
  case_decide as Hy; [|done]. cbn [List.filter]. rewrite filter_cons. destruct (f y) eqn:Ef.
  - rewrite decide_True by (by apply Hf). rewrite !zlen_cons. lia.
  - rewrite decide_False; [done|]. intros Eyx. apply Hf in Eyx; [congruence|done].
Qed.

(** A session of the tun device has at most one read and one write on its
    socket in progress, in every world the device gets into without a pipeline; the
    guard of its read buffer tells of the read and [is_async_sending] of its cache of
    the write. *)
Theorem tun_operations_exclusive p w h o :
  reachable p w -> t_objs w !! h = Some o ->
  zlen (filter (fun x => x = TRead h) (ops h w)) = (if read_buf_guard (m_recv_buf (to_session o)) then 1 else 0) /\
  zlen (filter (fun x => x = TWrite h) (ops h w)) =
    (if SendDataCache.is_async_sending (m_sending_data_cache (to_session o)) then 1 else 0).
Proof.
  intros Hr Ho. destruct (wi_objs w (reachable_WI p w Hr) h o Ho) as [[HD HUI] _].
  rewrite <- (cnt_ops h w is_trd), <- (cnt_ops h w is_twr) by (by intros [] [= ->]).
  exact (conj (di_reads _ _ _ _ _ _ HD) (ui_writes _ _ _ _ HUI)).
Qed.

End Runs.
