(* ===== verification/TunForwarders.v ===== *)
(** * The forwarders of the tun device's local sessions

    [UDPLocalForwarder] ([DnsServer]) keeps what a local UDP session relies on
    ([Forwarders], [ForwardersLaws]): its calls return as long as it is there. *)

From Stdlib Require Import ZArith Lia.
From S2P Require Import Prelude Utils Address Caches ReadCache PipelineComponent Session.
From S2P Require Import UdpForward DnsServer TunSide TunProofs.
Import Streambuf ReadBuf Stat.
Local Open Scope Z_scope.
Local Open Scope handler_scope.

Section Local.
Context {P : Type} (cfg : Config) (open_ec bind_ec send_ec cancel_ec : nat -> error_code).

(** The constructor, [set_destroy_callback] and [start] *)
Definition lf_new (src dst : endpoint) : @DM P nat :=
  h <- gets d_next ;;
  modify (fun w => w <| d_next ::= S |> <| locals ::= <[h := new_local src dst <| m_destroy_cb := true |>]> |>) ;;;
  lf_start cfg open_ec bind_ec cancel_ec h ;;;
  ret h.
Definition lf_destroyed (w : @dworld P) (h : nat) : bool :=
  match locals w !! h with Some s => DnsServer.m_destroyed s | None => true end.

#[export] Instance local_forwarders : Forwarders (@dworld P) := {
  fw_new := lf_new;
  fw_process := lf_process send_ec;
  fw_destroyed := lf_destroyed;
  fw_destroy := lf_destroy
}.

(** [m] returns and leaves the forwarder with its buffer. *)
Definition stays {A} (h : nat) (r : ReadBufWithGuard) (m : @DM P A) : Prop :=
  forall w s, locals w !! h = Some s -> m_read_buf s = r ->
  exists a w' s', m w = Ret (a, w') /\ locals w' !! h = Some s' /\ m_read_buf s' = r.

Section Rules.
Context (h : nat) (r : ReadBufWithGuard).
Lemma stays_ret {A} (a : A) : stays h r (ret a).
Proof. intros w s Hs Hr. by exists a, w, s. Qed.
Lemma stays_bind {A B} (m : @DM P A) (k : A -> DM B) : stays h r m -> (forall a, stays h r (k a)) -> stays h r (bind m k).
Proof.
  intros Hm Hk w s Hs Hr. destruct (Hm w s Hs Hr) as (a & w1 & s1 & E & Hs1 & Hr1). unfold bind. rewrite E. by eapply Hk.
Qed.
Lemma stays_mod f : (forall s, m_read_buf (f s) = m_read_buf s) -> stays h r (@modL P h f).
Proof.
  intros Hf w s Hs Hr. eexists tt, _, (f s). split; [done|]. cbn. rewrite lookup_alter_eq, Hs. split; [done|]. by rewrite Hf.
Qed.
Lemma stays_get : stays h r (@getL P h).
Proof. intros w s Hs Hr. exists s, w, s. unfold getL. by rewrite Hs. Qed.
Lemma stays_aside (f : @dworld P -> @dworld P) : (forall w, locals (f w) = locals w) -> stays h r (modify f).
Proof. intros Hf w s Hs Hr. eexists tt, _, s. split; [done|]. by rewrite Hf. Qed.
Lemma stays_ask {A} (f : nat -> A) : stays h r (@d_ask P A f).
Proof. intros w s Hs Hr. by eexists _, _, s. Qed.
Lemma stays_gets {A} (f : @dworld P -> A) : stays h r (@gets (@dworld P) A f).
Proof. intros w s Hs Hr. by eexists _, _, s. Qed.
End Rules.

Ltac stays_tac := repeat first
  [ apply stays_bind; [|intros ?] | case_match | apply stays_ret | apply stays_get | apply stays_ask | apply stays_gets
  | apply stays_mod; by intros [] | apply stays_aside; by intros [] ].
Lemma stays_destroy h r : stays h r (@lf_destroy P h).
Proof. unfold lf_destroy. stays_tac. Qed.
Lemma stays_timer h r : stays h r (@lf_udp_timer_async_wait P cfg cancel_ec h).
Proof. unfold lf_udp_timer_async_wait, lf_timer_act. stays_tac. Qed.
Lemma stays_write h r data : stays h r (@lf_write_to P send_ec h data).
Proof. unfold lf_write_to, d_emit. stays_tac. Qed.
Lemma stays_process h r ep data : stays h r (@lf_process P send_ec h ep data).
Proof. unfold lf_process. stays_tac. Qed.


(** [m] returns. *)
Definition runs {A} (h : nat) (r : ReadBufWithGuard) (m : @DM P A) : Prop :=
  forall w s, locals w !! h = Some s -> m_read_buf s = r -> exists a w', m w = Ret (a, w').
Lemma runs_keeps {A} h r (m : @DM P A) : stays h r m -> runs h r m.
Proof. intros Hm w s Hs Hr. destruct (Hm w s Hs Hr) as (a & w' & _ & E & _). eauto. Qed.
Lemma runs_bind {A B} h r (m : @DM P A) (k : A -> DM B) : stays h r m -> (forall a, runs h r (k a)) -> runs h r (bind m k).
Proof.
  intros Hm Hk w s Hs Hr. destruct (Hm w s Hs Hr) as (a & w1 & s1 & E & Hs1 & Hr1). unfold bind. rewrite E. by eapply Hk.
Qed.
Lemma runs_async_read h : runs h new_read_buf (@lf_async_read P cfg cancel_ec h).
Proof.
  unfold lf_async_read. apply runs_bind; [apply stays_timer|]. intros _ w s Hs Hr. unfold bind, getL. rewrite Hs, Hr.
  cbn. eauto.
Qed.
Lemma runs_start h : runs h new_read_buf (@lf_start P cfg open_ec bind_ec cancel_ec h).
Proof.
  unfold lf_start. apply runs_bind; [apply stays_ask|]. intros ec. case_match; [apply runs_keeps, stays_destroy|].
  apply runs_bind; [apply stays_mod; by intros []|]. intros _. apply runs_bind; [apply stays_ask|]. intros ec'.
  case_match; [apply runs_keeps, stays_destroy|]. apply runs_bind; [apply stays_timer|]. intros _. apply runs_async_read.
Qed.

Lemma stays_defined {A} h (m : @DM P A) w :
  (forall r, stays h r m) -> (locals w !! h = None -> m w = Undef NoObject) -> defined (m w).
Proof.
  intros Hm Hn. destruct (locals w !! h) as [s|] eqn:E; [|by rewrite Hn].
  by destruct (Hm (m_read_buf s) w s E eq_refl) as (a & w' & s' & -> & _).
Qed.
#[export] Instance local_forwarders_laws : ForwardersLaws (@dworld P).
Proof.
  split; cbn.
  - intros src dst w. unfold lf_new, bind, gets, modify. set (h := d_next w).
    match goal with |- context [lf_start _ _ _ _ _ ?x] => set (w1 := x) end.
    destruct (runs_start h w1 (new_local src dst <| m_destroy_cb := true |>)) as (a & w' & ->); [apply lookup_insert_eq|done|done].
  - intros f ep data w. apply (stays_defined f); [intros r; apply stays_process|]. intros E. unfold lf_process, bind, getL. by rewrite E.
  - intros f w. apply (stays_defined f); [intros r; apply stays_destroy|]. intros E. unfold lf_destroy, bind, getL. by rewrite E.
Qed.
End Local.
