(* ===== verification/TunRuns.v ===== *)
(** * The tun device: concrete runs

    A connection through the server and one that goes directly, and what becomes
    of clients whose session ends by itself. *)

From Stdlib Require Import ZArith Lia.
From S2P Require Import Prelude Utils Address Trojan UdpPacket PipelineProto Caches ReadCache PipelineComponent Session.
From S2P Require Import SessionLogic ClientSide IpMatcher UdpForward DnsServer TunPacket TunSide TunProofs TunTheorems TunForwarders.
Import Streambuf ReadBuf Stat PipelineComponent.
Local Open Scope Z_scope.
Local Open Scope handler_scope.

(** ** A session that ends by itself *)

Section Ends.
Context {P : Type} {FW : Forwarders P} (tcp_close : nat -> Z) (h : nat).

(** What is known of a world: the session's object, and whether its client is in
    the list of the device *)
Definition at_ (o : TunObj) (listed : bool) (w : @tworld P) : Prop :=
  t_objs w !! h = Some o /\ (listed = true -> h ∈ m_tcp_clients w).
(** [m] uses an object that is gone, or ends in [Q]. *)
Definition dies {A} (m : @TM P A) (o : TunObj) (listed : bool) (Q : A -> TunObj -> bool -> Prop) : Prop :=
  forall w, at_ o listed w ->
  match m w with
  | Ret (a, w') => exists o' b', at_ o' b' w' /\ Q a o' b'
  | Throw _ => False
  | Undef u => u = NoObject
  end.

Lemma dies_bind {A B} (m : TM A) (k : A -> TM B) o b Q :
  dies m o b (fun a o b => dies (k a) o b Q) -> dies (bind m k) o b Q.
Proof.
  intros Hm w Hw. specialize (Hm w Hw). unfold bind. destruct (m w) as [[a w']| |]; [|done|done].
  destruct Hm as (o' & b' & Hw' & Hk). exact (Hk w' Hw').
Qed.
Lemma dies_mono {A} (m : TM A) o b (Q R : A -> TunObj -> bool -> Prop) :
  dies m o b Q -> (forall a o b, Q a o b -> R a o b) -> dies m o b R.
Proof.
  intros Hm HQ w Hw. specialize (Hm w Hw). destruct (m w) as [[a w']| |]; [|done|done].
  destruct Hm as (o' & b' & Hw' & Hk). eauto.
Qed.
Lemma dies_ret {A} (a : A) o b (Q : A -> TunObj -> bool -> Prop) : Q a o b -> dies (ret a) o b Q.
Proof. intros HQ w Hw. by exists o, b. Qed.
Lemma dies_getT o b (Q : TUNSession -> TunObj -> bool -> Prop) : Q (to_session o) o b -> dies (getT h) o b Q.
Proof. intros HQ w Hw. unfold getT, bind, getO. pose proof Hw as [Ho _]. rewrite Ho. by exists o, b. Qed.
Lemma dies_getK o b (Q : lwip_tcp_client -> TunObj -> bool -> Prop) :
  (forall k, to_client o = Some k -> Q k o b) -> dies (getK h) o b Q.
Proof.
  intros HQ w Hw. unfold getK, bind, getO. pose proof Hw as [Ho _]. rewrite Ho.
  destruct (to_client o) as [k|]; [|done]. exists o, b. auto.
Qed.
Lemma dies_modO f o b (Q : unit -> TunObj -> bool -> Prop) : Q tt (f o) b -> dies (modO h f) o b Q.
Proof.
  intros HQ w [Ho Hb]. exists (f o), b. split; [|done]. split; [|done]. cbn. by rewrite lookup_alter_eq, Ho.
Qed.
Lemma dies_aside f o b (Q : unit -> TunObj -> bool -> Prop) :
  (forall w, t_objs (f w) = t_objs w /\ m_tcp_clients (f w) = m_tcp_clients w) -> Q tt o b -> dies (modify f) o b Q.
Proof. intros Hf HQ w [Ho Hb]. destruct (Hf w) as [E1 E2]. exists o, b. split; [|done]. split; by rewrite ?E1, ?E2. Qed.
Lemma dies_ask {A} (f : nat -> A) o b (Q : A -> TunObj -> bool -> Prop) : (forall a, Q a o b) -> dies (t_ask f) o b Q.
Proof. intros HQ w Hw. by exists o, b. Qed.
Lemma dies_when (c : bool) m o b (Q : unit -> TunObj -> bool -> Prop) :
  (c = true -> dies m o b Q) -> (c = false -> Q tt o b) -> dies (when c m) o b Q.
Proof. destruct c; intros H1 H2; [by apply H1|]. by apply dies_ret, H2. Qed.

(** A client that is open and in the list is freed by its own callback. *)
Definition open_ (o : TunObj) : Prop :=
  exists k, to_client o = Some k /\ m_closed k = false /\ m_aborted k = false /\ m_pcb k = true.
Lemma dies_release o k (Q : unit -> TunObj -> bool -> Prop) :
  to_client o = Some k -> m_pcb k = true ->
  (forall o', to_session o' = to_session o -> to_client o' = None -> Q tt o' false) ->
  dies (tc_release_client h false) o true Q.
Proof.
  intros Hk Hp HQ. apply dies_bind, dies_getK. intros k' Hk'. rewrite Hk in Hk'. injection Hk' as <-. rewrite Hp. cbn [when].
  apply dies_bind, dies_modO, dies_bind. intros w Hw. pose proof Hw as [_ Hin]. unfold gets, id.
  eexists _, true. split; [exact Hw|]. rewrite bool_decide_true by auto. cbn [negb andb when]. apply dies_bind.
  intros w1 [Ho1 _]. eexists _, false. split; [split; [exact Ho1|done]|]. apply dies_modO. by apply HQ.
Qed.
Lemma dies_close abort o (Q : unit -> TunObj -> bool -> Prop) :
  open_ o -> m_destroyed (to_session o) = true ->
  (forall o', to_session o' = to_session o -> to_client o' = None -> Q tt o' false) ->
  dies (tc_close_client_ tcp_close t_nested h abort false) o true Q.
Proof.
  intros (k & Hk & H1 & H2 & H3) Hd HQ. apply dies_bind, dies_getK. intros k' Hk'. rewrite Hk in Hk'. injection Hk' as <-.
  rewrite H1, H2. cbn [orb]. apply dies_bind, dies_bind, dies_getK. intros k' Hk'. rewrite Hk in Hk'. injection Hk' as <-.
  rewrite H1, H2. cbn [orb]. apply dies_bind, dies_modO, dies_bind, dies_getT. cbn [to_session update]. rewrite Hd. cbn [negb when].
  apply dies_ret, dies_bind. match goal with |- dies _ ?y _ _ => set (o1 := y) end.
  eapply dies_mono with (Q := fun _ o' b => to_session o' = to_session o /\ b = true /\
    exists k', to_client o' = Some k' /\ m_pcb k' = true).
  - assert (E1 : to_client o1 = Some (k <| m_closed := true |>)) by (subst o1; cbn; by rewrite Hk).
    assert (Hab : dies (modK h (fun k => k <| m_aborted := true |>) ;;; t_emit (LwipAbort h)) o1 true
      (fun _ o' b => to_session o' = to_session o /\ b = true /\ exists k', to_client o' = Some k' /\ m_pcb k' = true)).
    { apply dies_bind, dies_modO, dies_aside; [done|]. split_and!; [done|done|].
      exists (k <| m_closed := true |> <| m_aborted := true |>). cbn. by rewrite Hk. }
    destruct abort; [exact Hab|]. apply dies_bind, dies_ask. intros err. apply dies_bind, dies_aside; [done|].
    apply dies_when; intros _; [exact Hab|]. split_and!; [done|done|]. by eexists.
  - intros ? o2 b (E2 & -> & k2 & Hk2 & Hp2). eapply dies_release; [done|done|]. intros o' E3 E4. apply HQ; [congruence|done].
Qed.
(** The part of a session its end depends on *)
Definition ends (s : TUNSession) :=
  (m_destroyed s, m_close_cb s, m_close_from_tundev_flag s, m_recv_buf_ack_length s, ts_timer s, ts_proxy s,
   m_udp_forwarder s).
Definition queued (s : TUNSession) := SendDataCache.handler_queue (m_sending_data_cache s).
(** The client is freed, or is still open as no handler of [hs] was a client's. *)
Definition stage (hs : list thandler) (o : TunObj) (listed : bool) : Prop :=
  to_client o = None \/ (listed = true /\ open_ o /\ forall n, HSend n ∉ hs).

Definition call (hd : thandler) : @TM P unit :=
  ts_mod_cache h (SendDataCache.emit (SendDataCache.Called hd broken_pipe)) ;;; t_call_broken tcp_close h hd.
Lemma dies_call hd hs o b :
  m_destroyed (to_session o) = true -> stage hs o b ->
  dies (call hd) o b (fun _ o' b' => ends (to_session o') = ends (to_session o) /\
    queued (to_session o') = queued (to_session o) /\ stage (hd :: hs) o' b').
Proof.
  intros Hd Hs. apply dies_bind, dies_modO. match goal with |- dies _ ?y _ _ => set (o1 := y) end.
  assert (E1 : ends (to_session o1) = ends (to_session o) /\ queued (to_session o1) = queued (to_session o)) by done.
  assert (Hs1 : stage hs o1 b) by exact Hs. assert (Hd1 : m_destroyed (to_session o1) = true) by exact Hd.
  clearbody o1. destruct E1 as [E1 E1']. destruct hd as [n| |]; cbn [t_call_broken].
  2, 3: apply dies_ret; (split_and!; [done|done|]); (destruct Hs1 as [Hs1|(? & ? & Hn)]; [by left|right]);
        split_and!; [done|done|]; intros n'; rewrite not_elem_of_cons; (split; [done|apply Hn]).
  destruct Hs1 as [Hs1|(-> & Ho & Hn)].
  - apply dies_bind, dies_getK. intros k Hk. congruence.
  - apply dies_close; [done|done|]. intros o' E2 E3. rewrite E2. split_and!; [done|done|by left].
Qed.
Lemma stage_perm hs hs' o b : (forall x, x ∈ hs' -> x ∈ hs) -> stage hs o b -> stage hs' o b.
Proof. intros Hin [?|(? & ? & Hn)]; [by left|right]. split_and!; [done|done|]. intros n ?. eapply Hn, Hin. eassumption. Qed.
Lemma dies_calls hs' : forall hs o b,
  m_destroyed (to_session o) = true -> stage hs o b ->
  dies (t_for_each call hs') o b (fun _ o' b' => ends (to_session o') = ends (to_session o) /\
    queued (to_session o') = queued (to_session o) /\ stage (hs ++ hs') o' b').
Proof.
  induction hs' as [|hd hs' IH]; intros hs o b Hd Hs; cbn [t_for_each].
  - apply dies_ret. rewrite app_nil_r. done.
  - apply dies_bind. eapply dies_mono; [by apply dies_call|]. intros ? o1 b1 (E1 & E2 & Hs1).
    assert (Hd1 : m_destroyed (to_session o1) = true) by (unfold ends in E1; congruence).
    eapply dies_mono; [by apply (IH (hd :: hs))|]. intros ? o2 b2 (E3 & E4 & Hs2). split_and!; [congruence|congruence|].
    eapply stage_perm; [|exact Hs2]. set_solver.
Qed.

(** The cache of a session that is destroyed leaves no client when it has a
    handler of the client's. *)
Lemma dies_cache n o :
  m_destroyed (to_session o) = true -> open_ o ->
  SendDataCache.destroyed (m_sending_data_cache (to_session o)) = false ->
  HSend n ∈ SendDataCache.handler_queue_other (m_sending_data_cache (to_session o)) ++
            SendDataCache.handler_queue (m_sending_data_cache (to_session o)) ->
  dies (ts_cache_destroy tcp_close h) o true (fun _ o' _ => ends (to_session o') = ends (to_session o) /\ to_client o' = None).
Proof.
  intros Hd Ho Hc Hn. apply dies_bind, dies_getT. rewrite Hc. apply dies_bind, dies_modO, dies_bind, dies_getT, dies_bind.
  match goal with |- dies (t_for_each _ ?l) ?y _ _ => set (o1 := y); set (l1 := l) end.
  assert (Hs1 : stage [] o1 true) by (right; split_and!; [done|exact Ho|intros ?; apply not_elem_of_nil]).
  assert (E1 : ends (to_session o1) = ends (to_session o) /\ queued (to_session o1) = queued (to_session o)) by done.
  destruct E1 as [E1 E1']. assert (Hd1 : m_destroyed (to_session o1) = true) by exact Hd.
  eapply dies_mono; [by apply (dies_calls l1 [])|]. intros ? o2 b2 (E2 & E2' & Hs2).
  apply dies_bind, dies_modO, dies_bind, dies_getT, dies_bind.
  match goal with |- dies (t_for_each _ ?l) ?y _ _ => set (o3 := y); set (l3 := l) end.
  assert (E3 : ends (to_session o3) = ends (to_session o2)) by done.
  assert (El : l3 = queued (to_session o2)) by done.
  assert (Hs3 : stage l1 o3 b2) by exact Hs2.
  assert (Hd3 : m_destroyed (to_session o3) = true) by (unfold ends in E1, E2, E3; congruence).
  eapply dies_mono; [by apply (dies_calls l3 l1)|]. intros ? o4 b4 (E4 & _ & Hs4).
  apply dies_modO. split; [change (ends (to_session o4) = ends (to_session o)); congruence|].
  destruct Hs4 as [Hs4|(_ & _ & Hno)]; [exact Hs4|]. exfalso. apply (Hno n).
  rewrite El, E2', E1'. exact Hn.
Qed.

(** C39: a TCP session of the tun device that ends by itself, while data of its
    client waits in its [SendDataCache] and none of what it read is unacknowledged,
    uses its client after that was freed: the first waiting handler closes the
    client, whose callback frees it, and the next one, or the session's own close
    callback, is a call on the freed object. *)
Theorem tun_close_uses_freed_client (pipelined : bool) (o : TunObj) (k : lwip_tcp_client) (n : Z) (w : @tworld P) :
  t_objs w !! h = Some o -> h ∈ m_tcp_clients w ->
  to_client o = Some k -> m_closed k = false -> m_aborted k = false -> m_pcb k = true ->
  let s := to_session o in
  let c := m_sending_data_cache s in
  is_udp s = false -> m_udp_forwarder s = None -> m_destroyed s = false -> SendDataCache.destroyed c = false ->
  HSend n ∈ SendDataCache.handler_queue_other c ++ SendDataCache.handler_queue c ->
  m_recv_buf_ack_length s = 0 -> m_close_cb s = true -> m_close_from_tundev_flag s = false ->
  ts_destroy pipelined tcp_close h false w = Undef NoObject.
Proof.
  intros Ho Hin Hk Hcl Hab Hpcb s c Hu Hf Hd Hc Hn Hl Hcb Hfl.
  enough (Hdies : dies (ts_destroy pipelined tcp_close h false) o true (fun _ _ _ => False)).
  { specialize (Hdies w (conj Ho (fun _ => Hin))). destruct (ts_destroy _ _ _ _ w) as [[? ?]| |].
    - by destruct Hdies as (? & ? & _ & ?).
    - done.
    - by rewrite Hdies. }
  apply dies_bind, dies_getT. fold s. rewrite Hd. apply dies_bind, dies_modO, dies_bind.
  match goal with |- dies _ ?y _ _ => set (o1 := y) end.
  eapply dies_mono with (Q := fun _ o' _ => ends (to_session o') = ends (to_session o1) /\ to_client o' = None).
  { apply (dies_cache n); [done|by exists k|exact Hc|exact Hn]. }
  intros ? o2 b2 [E2 Hk2]. apply dies_bind, dies_modO, dies_bind.
  match goal with |- dies _ ?y _ _ => set (o3 := y) end.
  assert (E3 : ends (to_session o3) = ends (to_session o1) /\ to_client o3 = None) by (split; [exact E2|exact Hk2]).
  clearbody o3. clear E2 Hk2 o2.
  eapply dies_mono with (Q := fun _ o' _ => ends (to_session o') = ends (to_session o1) /\ to_client o' = None).
  { destruct (ts_proxy s).
    - apply dies_bind, dies_modO, dies_when; intros _; [by apply dies_aside|exact E3].
    - unfold ts_close_local. rewrite Hf. apply dies_bind, dies_ret, dies_modO. exact E3. }
  intros ? o4 b4 [E4 Hk4]. unfold ends in E4. cbn in E4. injection E4 as E4d E4c E4f E4l E4t E4p E4u.
  apply dies_bind, dies_getT. unfold is_udp in *. fold s in E4d, E4c, E4f, E4l, E4t. rewrite E4f, E4c, E4t, Hfl, Hcb, Hu.
  cbn [negb andb when]. apply dies_bind, dies_bind, dies_getT. rewrite E4l, Hl. cbn [Z.eqb when].
  apply dies_bind, dies_getK. intros k' Hk'. congruence.
Qed.
End Ends.

Module TunDemo.

Definition cfg : Config :=
  mkConfig (str "server.example") 443 (str "target.example") 80 [(str "pw", str "secret")] 60 8192 [] [] true 5 100 0.
Definition zero (n : nat) : Z := 0.
Definition half_k (n : nat) : Z := 512.
Definition all (n : nat) (data : bytes) : error_code * Z := (0, zlen data).
Definition sum4 (hdr : bytes) : byte * byte := (Byte.x00, Byte.x00).
Definition sum_udp (hdr data source destination : bytes) : byte * byte := (Byte.x00, Byte.x00).
Definition yes (n : nat) : bool := true.
Definition no (n : nat) : bool := false.
(** Headers without options *)
Definition check4 (d : bytes) : option (bytes * bytes) :=
  if 20 <=? zlen d then Some (take 20 d, drop 20 d) else None.
Definition check_udp (d : bytes) : option (bytes * bytes) :=
  if 8 <=? zlen d then Some (take 8 d, drop 8 d) else None.
Definition lists : IPv4Matcher.matcher := IPv4Matcher.new_matcher.
Definition route (t : Z) : RouteConfig := mkRoute t lists lists lists.
Definition app : endpoint := mkEndpoint (V4 Byte.x0a Byte.x00 Byte.x00 Byte.x01) 40000.
Definition host : endpoint := mkEndpoint (V4 Byte.x5d Byte.xb8 Byte.xd8 Byte.x22) 80.
Definition dns : endpoint := mkEndpoint (V4 Byte.x08 Byte.x08 Byte.x08 Byte.x08) 53.

(** The local forwarders of the sources *)
Definition world : Type := @tworld (@dworld unit).
#[local] Instance forwarders : Forwarders (@dworld unit) := local_forwarders cfg zero zero zero zero.
#[local] Instance forwarders_laws : ForwardersLaws (@dworld unit) := local_forwarders_laws cfg zero zero zero zero.

Definition step (t : Z) : tevent -> TM unit :=
  t_step cfg false false 8192 1500 half_k zero zero zero all sum4 sum_udp yes zero zero 1 check4 check_udp yes zero zero
    (route t) no dns.
Definition runs (t : Z) : list tevent -> TM unit :=
  t_run cfg false 8192 1500 half_k zero zero zero all sum4 sum_udp yes zero zero 1 check4 check_udp yes zero zero
    (route t) no dns.
Definition reached (t : Z) : world -> Prop :=
  reachable cfg false 8192 1500 half_k zero zero zero all sum4 sum_udp yes zero zero 1 check4 check_udp yes zero zero
    (route t) no dns (d_init tt).
Definition init : world := t_init (d_init tt).
Definition after_run (t : Z) (es : list tevent) : world :=
  match runs t es init with Ret (_, w) => w | _ => init end.

Definition done_ (i : nat) : tevent := TComplete i (TDone 0).
Definition got (i : nat) (data : bytes) : tevent := TComplete i (TReceived 0 data).
Definition wrote (i : nat) (n : Z) : tevent := TComplete i (TWrote 0 n).
Definition resolved (i : nat) : tevent := TComplete i (TResolved 0 [host]).

(** A connection through the server, with data in both directions *)
Definition proxied : list tevent :=
  [TLwipAccept app host 0; TLwipRecv 0 (Some (str "GET")) 0; resolved 1; done_ 2; done_ 2; wrote 2 80;
   TLwipRecv 0 (Some (str " /")) 0; got 2 (str "HTTP/1.1 200"); wrote 2 2; TLwipSent 0 12].

(** A direct connection whose first data is being written *)
Definition direct : list tevent :=
  [TLwipAccept app host 0; resolved 1; done_ 2; TLwipRecv 0 (Some (str "GET")) 0].

Lemma route_returns t gfw ip : 0 <= t <= 5 -> returns (proxy_by_route (route t) gfw ip).
Proof.
  intros Ht. unfold proxy_by_route. cbn [proxy_ips_matcher white_ips_matcher cn_mainland_ips_matcher proxy_type route].
  replace (IPv4Matcher.is_match lists ip) with (Ret false) by reflexivity. cbn [obind].
  assert (H : t = 0 \/ t = 1 \/ t = 2 \/ t = 3 \/ t = 4 \/ t = 5) by lia. destruct_or! H; subst t; vm_compute; eauto.
Qed.
Lemma check4_header d ip rest : check4 d = Some (ip, rest) -> zlen ip = 20.
Proof. unfold check4. case_match eqn:E; [|done]. apply Z.leb_le in E. intros [= <- _]. unfold zlen in *. rewrite length_take. lia. Qed.
Lemma check_udp_header d udp rest : check_udp d = Some (udp, rest) -> zlen udp = 8.
Proof. unfold check_udp. case_match eqn:E; [|done]. apply Z.leb_le in E. intros [= <- _]. unfold zlen in *. rewrite length_take. lia. Qed.
Lemma reached_after t es : (match runs t es init with Ret _ => true | _ => false end) = true -> reached t (after_run t es).
Proof.
  intros H. exists es. fold init. change (t_run _ _ _ _ _ _ _ _ _ _ _ _ _ _ _ _ _ _ _ _ _ _ _ es init) with (runs t es init).
  unfold after_run. by destruct (runs t es init) as [[[] ?]| |].
Qed.

Definition obj (w : world) : TunObj :=
  match t_objs w !! 0%nat with Some o => o | None => mkTunObj (new_TUNSession cfg false false 0) None end.

Lemma tun_sessions_relay_witness :
  let w := after_run 0 proxied in
  reached 0 w /\ to_remote (tr 0 w) ++ SendDataCache.current_recv_queue (m_sending_data_cache (to_session (obj w))) =
    request_of cfg false (to_session (obj w)) ++ str "GET /" /\
  lwip_out (tr 0 w) = str "HTTP/1.1 200".
Proof.
  cbv zeta. assert (Hr : reached 0 (after_run 0 proxied)) by (apply reached_after; vm_compute; reflexivity).
  split; [exact Hr|]. split; [|vm_compute; reflexivity].
  refine (eq_trans (proj2 (proj2 (proj2 (tun_sessions_relay cfg false 8192 1500 half_k zero zero zero all sum4 sum_udp yes
    zero zero 1 check4 check_udp yes zero zero (route 0) no dns _ _ _ _ check4_header check_udp_header (d_init tt)
    (after_run 0 proxied) 0 (obj (after_run 0 proxied)) Hr _))) _ _ _) _).
  - lia.
  - lia.
  - discriminate.
  - intros gfw ip. apply route_returns. lia.
  - vm_compute. reflexivity.
  - vm_compute. reflexivity.
  - vm_compute. reflexivity.
  - vm_compute. reflexivity.
  - vm_compute. reflexivity.
Defined.

Lemma tun_operations_exclusive_witness :
  let w := after_run 0 proxied in
  reached 0 w /\ zlen (filter (fun x => x = TRead 0) (ops 0 w)) = 1 /\ zlen (filter (fun x => x = TWrite 0) (ops 0 w)) = 0.
Proof.
  cbv zeta. assert (Hr : reached 0 (after_run 0 proxied)) by (apply reached_after; vm_compute; reflexivity).
  split; [exact Hr|].
  refine (tun_operations_exclusive cfg false 8192 1500 half_k zero zero zero all sum4 sum_udp yes zero zero 1
    check4 check_udp yes zero zero (route 0) no dns _ _ _ _ check4_header check_udp_header (d_init tt)
    (after_run 0 proxied) 0 (obj (after_run 0 proxied)) Hr _).
  - lia.
  - lia.
  - discriminate.
  - intros gfw ip. apply route_returns. lia.
  - vm_compute. reflexivity.
Defined.

(** After the direct connection's data is handed to its socket, the read on that
    socket fails. *)
Definition read_fails : tevent := TComplete 2 (TReceived 2 []).

(** The direct connection, before its read fails *)
Lemma tun_close_uses_freed_client_witness :
  let w := after_run 4 direct in reached 4 w /\ ts_destroy false zero 0 false w = Undef NoObject.
Proof.
  cbv zeta. split; [apply reached_after; vm_compute; reflexivity|].
  refine (tun_close_uses_freed_client zero 0 false (obj (after_run 4 direct))
    (default new_client (to_client (obj (after_run 4 direct)))) 3 (after_run 4 direct) _ _ _ _ _ _ _ _ _ _ _ _ _ _).
  2, 11: vm_compute; constructor.
  all: vm_compute; reflexivity.
Defined.

(** One address in the proxy's file *)
Definition make_address (s : bytes) : option Z :=
  if bool_decide (s = str "10.0.0.1") then Some 167772161 else None.
End TunDemo.
