(* ===== verification/ConfigLoad.v ===== *)
(** * The configuration

    [src/src/core/config.h] and [config.cpp]: reading a configuration from a
    Boost property tree, the environment and the list files, the load-balance
    configurations it names, its digests of passwords, and the calls to OpenSSL
    that prepare a TLS context. *)

From Stdlib Require Import ZArith Lia String.
From S2P Require Import Prelude Utils Address DomainMatcher IpMatcher Session.
Local Open Scope Z_scope.
Local Open Scope handler_scope.

(** ** boost::property_tree::ptree

    The tree is Boost's.  [get(path, default)] is the value at the path if there
    is one that converts to the type, and else the default; [get_child_optional]
    gives the children with their keys, [get_value] converts the node's own data
    and throws when that fails (not for strings). *)
Inductive number_type := I32 | I64 | U16 | U32.
Definition in_type (ty : number_type) (z : Z) : Prop :=
  match ty with
  | I32 => -2 ^ 31 <= z < 2 ^ 31
  | I64 => -2 ^ 63 <= z < 2 ^ 63
  | U16 => 0 <= z < 65536
  | U32 => 0 <= z < 2 ^ 32
  end.

Class PropertyTree (T : Type) := {
  pt_string : T -> string -> option bytes;
  pt_number : number_type -> T -> string -> option Z;
  pt_bool : T -> string -> option bool;
  pt_children : T -> string -> option (list (bytes * T));
  pt_data : T -> bytes;
  pt_value : number_type -> T -> option Z
}.
(** A number that was read has its type. *)
Class PropertyTreeLaws (T : Type) {PT : PropertyTree T} := {
  pt_number_type : forall ty t path z, pt_number ty t path = Some z -> in_type ty z;
  pt_value_type : forall ty t z, pt_value ty t = Some z -> in_type ty z
}.

Module Conf.

(** ** Data *)

Inductive RunType := SERVER | CLIENT | FORWARD | NAT | CLIENT_TUN | SERVERT_TUN.
#[export] Instance RunType_eq_dec : EqDecision RunType.
Proof. solve_decision. Defined.

Record SSLConfig := mkSSL {
  verify : bool;
  verify_hostname : bool;
  cert : bytes;
  key : bytes;
  key_password : bytes;
  cipher : bytes;
  cipher_tls13 : bytes;
  prefer_server_cipher : bool;
  sni : bytes;
  alpn : bytes;
  alpn_port_override : list (bytes * Z);     (* std::map, in key order *)
  reuse_session : bool;
  session_ticket : bool;
  session_timeout : Z;
  ssl_shutdown_wait_time : Z;
  plain_http_response : bytes;
  curves : bytes;
  dhparam : bytes
}.
Record TCPConfig := mkTCP {
  prefer_ipv4 : bool;
  no_delay : bool;
  keep_alive : bool;
  reuse_port : bool;
  fast_open : bool;
  use_tproxy : bool;
  fast_open_qlen : Z;
  connect_time_out : Z
}.
Record MySQLConfig := mkMySQL {
  mysql_enabled : bool;
  server_addr : bytes;
  server_port : Z;
  database : bytes;
  username : bytes;
  mysql_password : bytes;
  cafile : bytes
}.
Record TUN := mkTUN {
  tun_name : bytes;
  net_ip : bytes;
  net_mask : bytes;
  mtu : Z;
  tun_fd : Z;
  redirect_local : bool
}.
Record DNS := mkDNS {
  dns_enabled : bool;
  port : Z;
  dns_udp_timeout : Z;
  dns_udp_recv_buf : Z;
  dns_udp_socket_buf : Z;
  gfwlist : bytes;
  enable_cached : bool;
  enable_ping_test : bool;
  gfwlist_matcher : list DomainMatcher.DomainLinkData;
  up_dns_server : list bytes;
  up_gfw_dns_server : list bytes
}.
Record ROUTE := mkROUTE {
  route_enabled : bool;
  proxy_type : Z;
  cn_mainland_ips_file : bytes;
  cn_mainland_ips_matcher : IPv4Matcher.matcher;
  white_ips : bytes;
  white_ips_matcher : IPv4Matcher.matcher;
  proxy_ips : bytes;
  proxy_ips_matcher : IPv4Matcher.matcher
}.

(** What is asked of an SSL context, in order *)
Inductive ssl_call :=
| SetOptions                                  (* the options every context gets *)
| SetCurves (curves : bytes)
| UseCertificateChain (file : bytes)
| PasswordCallback (password : bytes)
| UsePrivateKey (file : bytes)
| PreferServerCipher
| AlpnSelect (protos : bytes)
| SetTimeout (timeout : Z)
| NoTicket
| CacheOff
| CacheClient
| SessionCallbacks
| TmpDhDefault
| TmpDhFile (file : bytes)
| VerifyPeer
| VerifyNone
| DefaultVerifyPaths
| LoadVerifyFile (file : bytes)
| VerifyHostname (name : bytes)
| PartialChain
| AlpnProtos (protos : bytes)
| CipherList (ciphers : bytes)
| Ciphersuites (ciphers : bytes)
| KeylogCallback.
#[export] Instance ssl_call_eq_dec : EqDecision ssl_call.
Proof. solve_decision. Defined.
Definition context : Type := list ssl_call.

(** [experimental] has its members in the configuration itself, because it holds
    the configurations of the other servers and their contexts. *)
Inductive Config := mkConfig {
  run_type : RunType;
  local_addr : bytes;
  local_port : Z;
  remote_addr : bytes;
  remote_port : Z;
  target_addr : bytes;
  target_port : Z;
  password : list (bytes * bytes);             (* std::map, in key order *)
  udp_timeout : Z;
  udp_socket_buf : Z;
  udp_forward_socket_buf : Z;
  udp_recv_buf : Z;
  log_level : Z;
  ssl : SSLConfig;
  tcp : TCPConfig;
  mysql : MySQLConfig;
  pipeline_num : Z;
  pipeline_ack_window : Z;
  pipeline_loadbalance_configs : list bytes;
  loaded_configs : list Config;                (* _pipeline_loadbalance_configs *)
  loaded_contexts : list context;              (* _pipeline_loadbalance_context *)
  pipeline_proxy_icmp : bool;
  tun : TUN;
  dns : DNS;
  route : ROUTE;
  compare_hash : Z
}.
#[export] Instance eta_SSLConfig : Settable SSLConfig :=
  fun r => mkSSL (verify r) (verify_hostname r) (cert r) (key r) (key_password r) (cipher r) (cipher_tls13 r)
    (prefer_server_cipher r) (sni r) (alpn r) (alpn_port_override r) (reuse_session r) (session_ticket r)
    (session_timeout r) (ssl_shutdown_wait_time r) (plain_http_response r) (curves r) (dhparam r).
#[export] Instance eta_DNS : Settable DNS :=
  fun r => mkDNS (dns_enabled r) (port r) (dns_udp_timeout r) (dns_udp_recv_buf r) (dns_udp_socket_buf r) (gfwlist r)
    (enable_cached r) (enable_ping_test r) (gfwlist_matcher r) (up_dns_server r) (up_gfw_dns_server r).
#[export] Instance eta_Config : Settable Config :=
  fun r => mkConfig (run_type r) (local_addr r) (local_port r) (remote_addr r) (remote_port r) (target_addr r)
    (target_port r) (password r) (udp_timeout r) (udp_socket_buf r) (udp_forward_socket_buf r) (udp_recv_buf r)
    (log_level r) (ssl r) (tcp r) (mysql r) (pipeline_num r) (pipeline_ack_window r) (pipeline_loadbalance_configs r)
    (loaded_configs r) (loaded_contexts r) (pipeline_proxy_icmp r) (tun r) (dns r) (route r) (compare_hash r).

(** A configuration nothing was read into; only its matchers and lists of servers
    are ever looked at before they are set. *)
Definition new_Config : Config :=
  mkConfig SERVER [] 0 [] 0 [] 0 [] 0 0 0 0 0
    (mkSSL false false [] [] [] [] [] false [] [] [] false false 0 0 [] [] [])
    (mkTCP false false false false false false 0 0) (mkMySQL false [] 0 [] [] [] []) 0 0 [] [] [] false
    (mkTUN [] [] [] 0 0 false) (mkDNS false 0 0 0 0 [] false false [] [] [])
    (mkROUTE false 0 [] IPv4Matcher.new_matcher [] IPv4Matcher.new_matcher [] IPv4Matcher.new_matcher) 0.

(** [std::map::operator[]] with an assignment, on a map in key order *)
Fixpoint map_set {A} (k : bytes) (v : A) (m : list (bytes * A)) : list (bytes * A) :=
  match m with
  | [] => [(k, v)]
  | (k', v') :: m' =>
    if DomainMatcher.str_lt k k' then (k, v) :: m
    else if DomainMatcher.str_lt k' k then (k', v') :: map_set k v m'
    else (k, v) :: m'
  end.

(** ** Defaults *)
Definition default_udp_timeout : Z := 60.
Definition default_udp_forward_socket_buf : Z := 65536 * 20.
Definition default_udp_socket_buf : Z := -1.
Definition default_udp_recv_buf : Z := 8192.
Definition default_log_level : Z := 1.
Definition default_ssl_session_timeout : Z := 600.
Definition default_ssl_shutdown_wait_time : Z := 30.
Definition default_tcp_fast_open_qlen : Z := 20.
Definition default_tcp_connect_time_out : Z := 10.
Definition default_mysql_server_port : Z := 3306.
Definition default_experimental_pipeline_num : Z := 0.
Definition default_experimental_pipeline_ack_window : Z := 200.
Definition default_tun_mtu : Z := 1500.
Definition default_tun_fd : Z := -1.
Definition default_dns_port : Z := 53.
Definition default_dns_udp_timeout : Z := 5.
Definition default_dns_udp_recv_buf : Z := 512 * 4.
Definition default_dns_udp_socket_buf : Z := -1.
(** [Log::INVALID] *)
Definition INVALID : Z := -1.

Section Operations.
(** Boost's trees and parsers ([None]: it throws), the files, OpenSSL's digest
    ([None]: one of its calls failed), which calls on a context fail, and what the
    program was built with: TLS 1.3 ciphers, and a key log that was asked for *)
Context {T : Type} {PT : PropertyTree T}.
Context (read_json parse_json : bytes -> option T) (file_text : bytes -> option bytes).
Context (make_address_v4 : bytes -> option Z).
Context (evp_sha224 : bytes -> option bytes) (tls_fails : ssl_call -> bool) (tls13 keylog : bool).

(** ** SHA224 *)
Definition SHA224 (message : bytes) : outcome bytes :=
  match evp_sha224 message with
  | None => Throw (runtime_error "[sha224] could not output hash")
  | Some digest =>
    if MAX_PASSWORD_LENGTH <=? zlen digest * 2 then Throw (runtime_error "[sha224] password length is too large")
    else Ret (flat_map Text.hex02 digest)
  end.

(** ** TLS contexts *)
Record tls := mkTls { t_config : Config; t_context : context; t_plain : bytes }.
#[export] Instance eta_tls : Settable tls := fun r => mkTls (t_config r) (t_context r) (t_plain r).
Definition call (x : ssl_call) : M tls unit := modify (fun t => t <| t_context ::= fun l => l ++ [x] |>).
Definition call_or_throw (x : ssl_call) : M tls unit :=
  if tls_fails x then throw (system_error 0) else call x.
Definition empty (s : bytes) : bool := bool_decide (s = []).

Definition prepare_server : M tls unit :=
  c <- gets t_config ;;
  let s := ssl c in
  call_or_throw (UseCertificateChain (cert s)) ;;;
  call (PasswordCallback (key_password s)) ;;;
  call_or_throw (UsePrivateKey (key s)) ;;;
  when (prefer_server_cipher s) (call PreferServerCipher) ;;;
  when (negb (empty (alpn s))) (call (AlpnSelect (alpn s))) ;;;
  (if reuse_session s then
     call (SetTimeout (session_timeout s)) ;;;
     when (negb (session_ticket s)) (call NoTicket)
   else call CacheOff ;;; call NoTicket) ;;;
  when (negb (empty (plain_http_response s)))
    match file_text (plain_http_response s) with
    | None => throw (runtime_error "plain_http_response")
    | Some text => modify (fun t => t <| t_plain := text |>)
    end ;;;
  if empty (dhparam s) then call_or_throw TmpDhDefault else call_or_throw (TmpDhFile (dhparam s)).

(** A client that checks the server *)
Definition prepare_verify (s : SSLConfig) : M tls unit :=
  (if empty (cert s) then call_or_throw DefaultVerifyPaths else call_or_throw (LoadVerifyFile (cert s))) ;;;
  when (verify_hostname s) (call (VerifyHostname (sni s))) ;;;
  call PartialChain.
Definition prepare_reuse (s : SSLConfig) : M tls unit :=
  when (negb (empty (alpn s))) (call (AlpnProtos (alpn s))) ;;;
  if reuse_session s then
    call CacheClient ;;; call SessionCallbacks ;;; when (negb (session_ticket s)) (call NoTicket)
  else call NoTicket.

Definition prepare_client : M tls unit :=
  c <- gets t_config ;;
  when (empty (sni (ssl c)))
    (modify (fun t => t <| t_config ::= fun c => c <| ssl ::= fun s => s <| sni := remote_addr c |> |> |>)) ;;;
  c <- gets t_config ;;
  let s := ssl c in
  (if verify s then call VerifyPeer ;;; prepare_verify s else call VerifyNone) ;;;
  prepare_reuse s.

Definition prepare_ciphers (s : SSLConfig) : M tls unit :=
  when (negb (empty (cipher s))) (call (CipherList (cipher s))) ;;;
  when (negb (empty (cipher_tls13 s)) && tls13) (call (Ciphersuites (cipher_tls13 s))) ;;;
  when keylog (call KeylogCallback).

Definition prepare_ssl_context : M tls unit :=
  c <- gets t_config ;;
  let s := ssl c in
  call SetOptions ;;;
  when (negb (empty (curves s))) (call (SetCurves (curves s))) ;;;
  (if bool_decide (run_type c = SERVER) then prepare_server else prepare_client) ;;;
  prepare_ciphers s.

(** ** Reading the tree *)

Definition get_string (tree : T) (path : string) (d : bytes) : bytes := default d (pt_string tree path).
Definition get_number (ty : number_type) (tree : T) (path : string) (d : Z) : Z := default d (pt_number ty tree path).
Definition get_bool (tree : T) (path : string) (d : bool) : bool := default d (pt_bool tree path).
(** The children's own data *)
Definition get_strings (tree : T) (path : string) : list bytes :=
  match pt_children tree path with Some l => map (fun item => pt_data (snd item)) l | None => [] end.

Definition run_type_of (rt : bytes) : outcome RunType :=
  if bool_decide (rt = str "server") then Ret SERVER
  else if bool_decide (rt = str "forward") then Ret FORWARD
  else if bool_decide (rt = str "nat") then Ret NAT
  else if bool_decide (rt = str "client") then Ret CLIENT
  else if bool_decide (rt = str "client_tun") then Ret CLIENT_TUN
  else if bool_decide (rt = str "server_tun") then Ret SERVERT_TUN
  else Throw (runtime_error "wrong run_type in config file").

Fixpoint read_passwords (ps : list bytes) (m : list (bytes * bytes)) : outcome (list (bytes * bytes)) :=
  match ps with
  | [] => Ret m
  | p :: ps => let! k := SHA224 p in read_passwords ps (map_set k p m)
  end.

Definition read_alpn (protos : list bytes) : bytes :=
  flat_map (fun proto => z2b (u8 (zlen proto)) :: proto) protos.

Fixpoint read_ports (items : list (bytes * T)) (m : list (bytes * Z)) : outcome (list (bytes * Z)) :=
  match items with
  | [] => Ret m
  | (name, t) :: items =>
    match pt_value U16 t with
    | None => Throw (runtime_error "ptree_bad_data")
    | Some p => read_ports items (map_set name p m)
    end
  end.

Definition read_ssl (tree : T) (ports : list (bytes * Z)) : SSLConfig :=
  mkSSL
    (get_bool tree "ssl.verify" true)
    (get_bool tree "ssl.verify_hostname" true)
    (get_string tree "ssl.cert" [])
    (get_string tree "ssl.key" [])
    (get_string tree "ssl.key_password" [])
    (get_string tree "ssl.cipher" [])
    (get_string tree "ssl.cipher_tls13" [])
    (get_bool tree "ssl.prefer_server_cipher" true)
    (get_string tree "ssl.sni" [])
    (read_alpn (get_strings tree "ssl.alpn"))
    ports
    (get_bool tree "ssl.reuse_session" true)
    (get_bool tree "ssl.session_ticket" false)
    (get_number I64 tree "ssl.session_timeout" default_ssl_session_timeout)
    (get_number I32 tree "ssl.ssl_shutdown_wait_time" default_ssl_shutdown_wait_time)
    (get_string tree "ssl.plain_http_response" [])
    (get_string tree "ssl.curves" [])
    (get_string tree "ssl.dhparam" []).

Definition read_tcp (tree : T) : TCPConfig :=
  mkTCP
    (get_bool tree "tcp.prefer_ipv4" false)
    (get_bool tree "tcp.no_delay" true)
    (get_bool tree "tcp.keep_alive" true)
    (get_bool tree "tcp.reuse_port" false)
    (get_bool tree "tcp.fast_open" false)
    (get_bool tree "tcp.use_tproxy" false)
    (get_number I32 tree "tcp.fast_open_qlen" default_tcp_fast_open_qlen)
    (get_number I32 tree "tcp.connect_time_out" default_tcp_connect_time_out).

Definition read_mysql (tree : T) : MySQLConfig :=
  mkMySQL
    (get_bool tree "mysql.enabled" false)
    (get_string tree "mysql.server_addr" (str "127.0.0.1"))
    (get_number U16 tree "mysql.server_port" default_mysql_server_port)
    (get_string tree "mysql.database" (str "trojan"))
    (get_string tree "mysql.username" (str "trojan"))
    (get_string tree "mysql.password" [])
    (get_string tree "mysql.cafile" []).

Definition read_tun (tree : T) : TUN :=
  mkTUN
    (get_string tree "tun.tun_name" [])
    (get_string tree "tun.net_ip" [])
    (get_string tree "tun.net_mask" [])
    (get_number U16 tree "tun.mtu" default_tun_mtu)
    (get_number I32 tree "tun.tun_fd" default_tun_fd)
    (get_bool tree "tun.redirect_local" false).

(** The matcher and the lists of servers stay as they were. *)
Definition read_dns (tree : T) (old : DNS) : DNS :=
  mkDNS
    (get_bool tree "dns.enabled" false)
    (get_number U16 tree "dns.port" default_dns_port)
    (get_number I32 tree "dns.dns_udp_timeout" default_dns_udp_timeout)
    (get_number I32 tree "dns.udp_recv_buf" default_dns_udp_recv_buf)
    (get_number I32 tree "dns.udp_socket_buf" default_dns_udp_socket_buf)
    (get_string tree "dns.gfwlist" [])
    (get_bool tree "dns.enable_cached" false)
    (get_bool tree "dns.enable_ping_test" false)
    (gfwlist_matcher old) (up_dns_server old) (up_gfw_dns_server old).

Definition fill (servers defaults : list bytes) : list bytes :=
  match servers with [] => defaults | _ => servers end.
Definition load_dns (tree : T) (d : DNS) : DNS :=
  if negb (dns_enabled d) then d else
  let d :=
    if negb (empty (gfwlist d)) then
      match file_text (gfwlist d) with
      | Some text =>
        let '(count, domains) := DomainMatcher.load_from_stream text (gfwlist_matcher d) in
        let d := d <| gfwlist_matcher := domains |> in
        if count =? 0 then d <| dns_enabled := false |> else d
      | None => d <| dns_enabled := false |>
      end
    else d <| dns_enabled := false |> in
  if dns_enabled d then
    let d := d <| up_dns_server ::= fun l =>
      fill (l ++ get_strings tree "dns.up_dns_server") [str "119.29.29.29"; str "223.5.5.5"] |> in
    d <| up_gfw_dns_server ::= fun l => fill (l ++ get_strings tree "dns.up_gfw_dns_server") [str "8.8.8.8"] |>
  else d.

(** [IPv4Matcher::load_from_file]: nothing is read from a file that is not there. *)
Definition load_ips (file : bytes) (m : IPv4Matcher.matcher) : IPv4Matcher.matcher :=
  fst (IPv4Matcher.load_from_stream make_address_v4 (default [] (file_text file)) m).
Definition read_route (tree : T) (rt : RunType) (old : ROUTE) : ROUTE :=
  let enabled := get_bool tree "route.enabled" false in
  let cn := get_string tree "route.cn_mainland_ips_file" [] in
  let white := get_string tree "route.white_ips" [] in
  let proxy := get_string tree "route.proxy_ips" [] in
  let load file m := if enabled && bool_decide (rt = CLIENT_TUN) then load_ips file m else m in
  mkROUTE enabled (get_number I32 tree "route.proxy_type" 0)
    cn (load cn (cn_mainland_ips_matcher old))
    white (load white (white_ips_matcher old))
    proxy (load proxy (proxy_ips_matcher old)).

(** ** The configurations of other servers

    [load] loads one into a new object; [Log::level] is static. *)
Fixpoint load_others (load : bytes -> Z -> outcome (Config * Z)) (names : list bytes) (level : Z)
  : outcome (list (Config * context) * Z) :=
  match names with
  | [] => Ret ([], level)
  | name :: names =>
    let! '(other, level) := load name level in
    let! '(_, t) := prepare_ssl_context (mkTls other [] []) in
    let! '(others, level) := load_others load names level in
    Ret ((t_config t, t_context t) :: others, level)
  end.

Definition hash_str (c : Config) : bytes := remote_addr c ++ str ":" ++ Text.to_string (remote_port c).

(** [populate] up to the hash *)
Definition populate_fields (load : bytes -> Z -> outcome (Config * Z)) (tree : T) (c : Config) (level : Z)
  : outcome (Config * Z) :=
  let log_level := get_number I32 tree "log_level" default_log_level in
  let level := if level =? INVALID then log_level else level in
  let! rt := run_type_of (get_string tree "run_type" (str "client")) in
  let! passwords := read_passwords (get_strings tree "password") [] in
  let! ports := read_ports (default [] (pt_children tree "ssl.alpn_port_override")) [] in
  let names :=
    if bool_decide (rt = SERVER) then [] else get_strings tree "experimental.pipeline_loadbalance_configs" in
  let! '(others, level) := load_others load names level in
  Ret (mkConfig rt
    (get_string tree "local_addr" [])
    (get_number U16 tree "local_port" 0)
    (get_string tree "remote_addr" [])
    (get_number U16 tree "remote_port" 0)
    (get_string tree "target_addr" [])
    (get_number U16 tree "target_port" 0)
    passwords
    (get_number I32 tree "udp_timeout" default_udp_timeout)
    (get_number I32 tree "udp_socket_buf" default_udp_socket_buf)
    (get_number I32 tree "udp_forward_socket_buf" default_udp_forward_socket_buf)
    (get_number I32 tree "udp_recv_buf" default_udp_recv_buf)
    log_level
    (read_ssl tree ports) (read_tcp tree) (read_mysql tree)
    (get_number U32 tree "experimental.pipeline_num" default_experimental_pipeline_num)
    (get_number U32 tree "experimental.pipeline_ack_window" default_experimental_pipeline_ack_window)
    names (map fst others) (map snd others)
    (get_bool tree "experimental.pipeline_proxy_icmp" false)
    (read_tun tree)
    (load_dns tree (read_dns tree (dns c)))
    (read_route tree rt (route c))
    (compare_hash c), level).

Definition populate_ (load : bytes -> Z -> outcome (Config * Z)) (tree : T) (c : Config) (level : Z)
  : outcome (Config * Z) :=
  let! '(c, level) := populate_fields load tree c level in
  let! h := Checksum.get_hashCode (hash_str c) in
  Ret (c <| compare_hash := h |>, level).

(** [fuel] bounds how deep configurations name each other. *)
Fixpoint load (fuel : nat) (filename : bytes) (c : Config) (level : Z) : outcome (Config * Z) :=
  match fuel with
  | O => Undef NoEnd
  | S fuel =>
    match read_json filename with
    | None => Throw (runtime_error "json_parser_error")
    | Some tree => populate_ (fun name => load fuel name new_Config) tree c level
    end
  end.
Definition populate (fuel : nat) (JSON : bytes) (c : Config) (level : Z) : outcome (Config * Z) :=
  match parse_json JSON with
  | None => Throw (runtime_error "json_parser_error")
  | Some tree => populate_ (fun name => load fuel name new_Config) tree c level
  end.

(** ** SIP003 *)

(** [atoi] and [atoll]: white space, a sign, digits; a value outside the type is
    undefined. *)
Definition ato (ty : number_type) (s : bytes) : outcome Z :=
  let '(_, s) := IPv4Matcher.skip_while IPv4Matcher.is_space s in
  let '(negative, s) :=
    match s with
    | c :: s' =>
      if b2z c =? 45 then (true, s') else if b2z c =? 43 then (false, s') else (false, s)
    | [] => (false, s)
    end in
  let n := IPv4Matcher.number (fst (IPv4Matcher.skip_while IPv4Matcher.is_digit s)) in
  let z := if negative then - n else n in
  let fits := match ty with
              | I32 => (-2 ^ 31 <=? z) && (z <? 2 ^ 31)
              | I64 => (-2 ^ 63 <=? z) && (z <? 2 ^ 63)
              | U16 => (0 <=? z) && (z <? 65536)
              | U32 => (0 <=? z) && (z <? 2 ^ 32)
              end in
  if fits then Ret z else Undef SignedOverflow.

(** [getenv] is the environment's: a null pointer is not a string. *)
Context (getenv : string -> option bytes).
Definition env (name : string) : outcome bytes :=
  match getenv name with Some s => Ret s | None => Undef NoObject end.
Definition env_port (name : string) : outcome Z :=
  let! s := env name in let! z := ato I32 s in Ret (u16 z).

Definition sip003 (fuel : nat) (c : Config) (level : Z) : outcome (bool * Config * Z) :=
  match getenv "SS_PLUGIN_OPTIONS" with
  | None => Ret (false, c, level)
  | Some JSON =>
    let! '(c, level) := populate fuel JSON c level in
    match run_type c with
    | SERVER =>
      let! addr := env "SS_REMOTE_HOST" in
      let! port := env_port "SS_REMOTE_PORT" in
      Ret (true, c <| local_addr := addr |> <| local_port := port |>, level)
    | FORWARD =>
      let! raddr := env "SS_REMOTE_HOST" in
      let! rport := env_port "SS_REMOTE_PORT" in
      let! laddr := env "SS_LOCAL_HOST" in
      let! lport := env_port "SS_LOCAL_PORT" in
      Ret (true, c <| remote_addr := raddr |> <| remote_port := rport |>
                   <| local_addr := laddr |> <| local_port := lport |>, level)
    | CLIENT | NAT | CLIENT_TUN | SERVERT_TUN => Throw (runtime_error "SIP003 with wrong run_type")
    end
  end.

(** ** main: the configuration is read again for every restart, into the same
    object. *)
Definition start (fuel : nat) (config_file : bytes) (c : Config) (level : Z) : outcome (Config * Z) :=
  let! '(loaded, c, level) := sip003 fuel c level in
  if loaded : bool then Ret (c, level) else load fuel config_file c level.
Fixpoint restarts (n fuel : nat) (config_file : bytes) (c : Config) (level : Z) : outcome (Config * Z) :=
  match n with
  | O => Ret (c, level)
  | S n => let! '(c, level) := start fuel config_file c level in restarts n fuel config_file c level
  end.
End Operations.

(** ** ICMP: the result and the flag; [lock] is the answer of [get_icmpd_lock]. *)
Definition try_prepare_pipeline_proxy_icmp (lock is_ipv4 : bool) (c : Config) : bool * Config :=
  if pipeline_proxy_icmp c then
    let c := c <| pipeline_proxy_icmp := false |> in
    if negb is_ipv4 then (false, c)
    else if pipeline_num c =? 0 then (false, c)
    else if negb (bool_decide (run_type c = SERVER)) &&
            (negb (bool_decide (run_type c = NAT)) || negb lock) then (false, c)
    else (true, c <| pipeline_proxy_icmp := true |>)
  else (false, c).

(** ** SSLSession: the sessions of OpenSSL, by their addresses *)
Definition new_session_cb (session : nat) (sessions : list nat) : list nat := session :: sessions.
Definition remove_session_cb (session : nat) (sessions : list nat) : list nat :=
  filter (fun s => s <> session) sessions.
Definition get_session (sessions : list nat) : option nat := head sessions.

(** What is set on the TLS socket of a connection *)
Inductive ssl_set := HostName (name : bytes) | UseSession (session : nat).
Definition prepare_ssl_reuse (sessions : list nat) (c : Config) : list ssl_set :=
  (if empty (sni (ssl c)) then [] else [HostName (sni (ssl c))]) ++
  (if reuse_session (ssl c) then
     match get_session sessions with Some s => [UseSession s] | None => [] end
   else []).

(** [operator==] *)
Definition equal (c d : Config) : bool := compare_hash c =? compare_hash d.

(** ** What the sessions read; [plain] is the text [prepare_ssl_context] read. *)
Definition session_config (c : Config) (plain : bytes) : Session.Config :=
  Session.mkConfig (remote_addr c) (remote_port c) (target_addr c) (target_port c) (password c) (udp_timeout c)
    (udp_recv_buf c) (alpn_port_override (ssl c)) plain (prefer_ipv4 (tcp c)) (connect_time_out (tcp c))
    (pipeline_ack_window c) (pipeline_num c).
End Conf.
