(* ===== verification/ConfigTheorems.v ===== *)
(** * The configuration: theorems

    What a configuration that was loaded is like and when loading ends, that
    clients and servers configured with the same password understand each other,
    which checks a client's TLS context makes, and what a restart leaves behind. *)

From Stdlib Require Import ZArith Lia String Sorting.
From S2P Require Import Prelude Utils Address DomainMatcher IpMatcher Trojan Session ConfigLoad.
Import Conf.
Local Open Scope Z_scope.
Local Open Scope handler_scope.

(** ** Maps in key order *)

Definition key_lt {A} (x y : bytes * A) : Prop := DomainMatcher.str_lt (fst x) (fst y) = true.

Lemma map_set_in {A} (k : bytes) (v : A) m x : x ∈ map_set k v m -> x = (k, v) \/ x ∈ m.
Proof.
  induction m as [|[k' v'] m IH]; cbn [map_set]; intros H.
  - apply list_elem_of_singleton in H. by left.
  - destruct (DomainMatcher.str_lt k k'); [apply elem_of_cons in H as [->|H]; auto|].
    destruct (DomainMatcher.str_lt k' k); apply elem_of_cons in H as [->|H].
    + right. by left.
    + destruct (IH H); [by left|right; by right].
    + by left.
    + right. by right.
Qed.
Lemma map_set_sorted {A} (k : bytes) (v : A) m : StronglySorted key_lt m -> StronglySorted key_lt (map_set k v m).
Proof.
  induction m as [|[k' v'] m IH]; cbn [map_set]; intros Hs; [by repeat constructor|].
  inversion Hs as [|? ? Hm Hall]; subst. destruct (DomainMatcher.str_lt k k') eqn:E1.
  - constructor; [done|]. constructor; [done|]. rewrite list.Forall_forall in *.
    intros x Hx. eapply DomainMatcher.str_lt_trans; [exact E1|]. by apply Hall.
  - destruct (DomainMatcher.str_lt k' k) eqn:E2.
    + constructor; [by apply IH|]. apply list.Forall_forall. intros x Hx. apply map_set_in in Hx as [->|Hx]; [done|].
      rewrite list.Forall_forall in Hall. by apply Hall.
    + pose proof (DomainMatcher.str_lt_total _ _ E1 E2) as ->. by constructor.
Qed.
Lemma map_find_cons {A} k k' (v : A) m :
  map_find k ((k', v) :: m) = if decide (k' = k) then Some v else map_find k m.
Proof.
  unfold map_find. rewrite filter_cons. cbn [fst]. by destruct (decide (k' = k)).
Qed.
Lemma map_find_set {A} (k : bytes) (v : A) k' m :
  StronglySorted key_lt m -> map_find k' (map_set k v m) = if decide (k = k') then Some v else map_find k' m.
Proof.
  induction m as [|[k1 v1] m IH]; cbn [map_set]; intros Hs.
  - by rewrite map_find_cons.
  - inversion Hs as [|? ? Hm Hall]; subst. destruct (DomainMatcher.str_lt k k1) eqn:E1; [by rewrite map_find_cons|].
    destruct (DomainMatcher.str_lt k1 k) eqn:E2.
    + rewrite !map_find_cons, IH by done. destruct (decide (k1 = k')) as [->|], (decide (k = k')) as [->|]; try done.
      by rewrite DomainMatcher.str_lt_irrefl in E2.
    + pose proof (DomainMatcher.str_lt_total _ _ E1 E2) as ->. rewrite !map_find_cons. by destruct (decide (k1 = k')).
Qed.

(** ** Digests *)

(** The digits of the keys *)
Definition hex_lower (b : byte) : bool := ((48 <=? b2z b) && (b2z b <=? 57)) || ((97 <=? b2z b) && (b2z b <=? 102)).
Definition key_ok (k : bytes) : Prop := zlen k = 56 /\ forallb hex_lower k = true.

Lemma hex02_lower b : forallb hex_lower (Text.hex02 b) = true.
Proof. by destruct b. Qed.
Lemma hex02_all d : forallb hex_lower (flat_map Text.hex02 d) = true /\ zlen (flat_map Text.hex02 d) = 2 * zlen d.
Proof.
  induction d as [|b d [IH1 IH2]]; [done|]. cbn [flat_map]. rewrite forallb_app, hex02_lower, IH1, zlen_app, IH2, zlen_cons.
  split; [done|]. unfold Text.hex02. rewrite !zlen_cons, zlen_nil. lia.
Qed.
Lemma hex_no_crlf k : forallb hex_lower k = true -> find_ CRLF k = None.
Proof.
  induction k as [|b k IH]; [done|]. cbn [forallb]. intros [Hb Hk]%andb_prop. cbn [find_]. rewrite IH by done.
  assert (E : is_prefix CRLF (b :: k) = false) by (by destruct b). by rewrite E.
Qed.

(** ** TLS contexts *)

Section Tls.
Context (file_text : bytes -> option bytes) (tls_fails : ssl_call -> bool) (tls13 keylog : bool).
Notation prepare := (prepare_ssl_context file_text tls_fails tls13 keylog).

Lemma bind_call {A} x (k : unit -> M tls A) c ctx p :
  bind (call x) k (mkTls c ctx p) = k tt (mkTls c (ctx ++ [x]) p).
Proof. done. Qed.
Lemma bind_when_call {A} b x (k : unit -> M tls A) c ctx p :
  bind (when b (call x)) k (mkTls c ctx p) = k tt (mkTls c (ctx ++ opt b x) p).
Proof. destruct b; [done|]. unfold bind, when, skip, ret, opt. by rewrite app_nil_r. Qed.
Lemma when_call b x c ctx p : when b (call x) (mkTls c ctx p) = Ret (tt, mkTls c (ctx ++ opt b x) p).
Proof. destruct b; [done|]. unfold when, skip, ret, opt. by rewrite app_nil_r. Qed.

(** The name a client asks for and checks *)
Definition server_name (c : Config) : bytes := if empty (sni (ssl c)) then remote_addr c else sni (ssl c).
Definition with_sni (c : Config) : Config := c <| ssl ::= fun s => s <| sni := server_name c |> |>.
(** The calls of a client, in order *)
Definition client_calls (c : Config) : context :=
  let s := ssl c in
  (if verify s then
     [VerifyPeer; if empty (cert s) then DefaultVerifyPaths else LoadVerifyFile (cert s)] ++
     opt (verify_hostname s) (VerifyHostname (server_name c)) ++ [PartialChain]
   else [VerifyNone]) ++
  opt (negb (empty (alpn s))) (AlpnProtos (alpn s)) ++
  (if reuse_session s then [CacheClient; SessionCallbacks] ++ opt (negb (session_ticket s)) NoTicket else [NoTicket]).
Definition anchor (c : Config) : ssl_call :=
  if empty (cert (ssl c)) then DefaultVerifyPaths else LoadVerifyFile (cert (ssl c)).

Lemma with_sni_eq c :
  (if empty (sni (ssl c)) then c <| ssl ::= fun s => s <| sni := remote_addr c |> |> else c) = with_sni c.
Proof.
  unfold with_sni, server_name. destruct (empty (sni (ssl c))); [done|]. by destruct c as [? ? ? ? ? ? ? ? ? ? ? ? ? []].
Qed.

Lemma bind_sni {A} (k : unit -> M tls A) c ctx p :
  bind (when (empty (sni (ssl c)))
    (modify (fun t => t <| t_config ::= fun c => c <| ssl ::= fun s => s <| sni := remote_addr c |> |> |>))) k
    (mkTls c ctx p) = k tt (mkTls (with_sni c) ctx p).
Proof. rewrite <- with_sni_eq. by destruct (empty (sni (ssl c))). Qed.

Lemma prepare_client_run c ctx p :
  prepare_client tls_fails (mkTls c ctx p) =
  if verify (ssl c) && tls_fails (anchor c) then Throw (system_error 0)
  else Ret (tt, mkTls (with_sni c) (ctx ++ client_calls c) p).
Proof.
  unfold prepare_client, prepare_verify, prepare_reuse, client_calls, anchor. rewrite bind_gets. cbn [t_config]. rewrite bind_sni, bind_gets.
  cbn [t_config]. change (sni (ssl (with_sni c))) with (server_name c).
  change (verify (ssl (with_sni c))) with (verify (ssl c)). change (cert (ssl (with_sni c))) with (cert (ssl c)).
  change (verify_hostname (ssl (with_sni c))) with (verify_hostname (ssl c)).
  change (alpn (ssl (with_sni c))) with (alpn (ssl c)).
  change (reuse_session (ssl (with_sni c))) with (reuse_session (ssl c)).
  change (session_ticket (ssl (with_sni c))) with (session_ticket (ssl c)).
  assert (Hrest : forall ctx,
    bind (when (negb (empty (alpn (ssl c)))) (call (AlpnProtos (alpn (ssl c))))) (fun _ =>
      if reuse_session (ssl c)
      then call CacheClient ;;; call SessionCallbacks ;;; when (negb (session_ticket (ssl c))) (call NoTicket)
      else call NoTicket) (mkTls (with_sni c) ctx p) =
    Ret (tt, mkTls (with_sni c) (ctx ++ opt (negb (empty (alpn (ssl c)))) (AlpnProtos (alpn (ssl c))) ++
      (if reuse_session (ssl c) then [CacheClient; SessionCallbacks] ++ opt (negb (session_ticket (ssl c))) NoTicket
       else [NoTicket])) p)).
  { intros ctx1. rewrite bind_when_call. destruct (reuse_session (ssl c)); [|by rewrite app_assoc].
    rewrite !bind_call, when_call. by rewrite <- !app_assoc. }
  destruct (verify (ssl c)); [|rewrite bind_call, Hrest; by rewrite <- app_assoc].
  rewrite !bind_assoc, bind_call. cbn [andb].
  set (a := if empty (cert (ssl c)) then DefaultVerifyPaths else LoadVerifyFile (cert (ssl c))).
  replace (if empty (cert (ssl c)) then call_or_throw tls_fails DefaultVerifyPaths
           else call_or_throw tls_fails (LoadVerifyFile (cert (ssl c)))) with (call_or_throw tls_fails a)
    by (by destruct (empty (cert (ssl c)))).
  rewrite bind_assoc. unfold call_or_throw. destruct (tls_fails a); [done|].
  rewrite bind_call, bind_assoc, bind_when_call, bind_call, Hrest. by rewrite <- !app_assoc.
Qed.

(** All calls for a client *)
Lemma prepare_run_client c p :
  run_type c <> SERVER ->
  prepare (mkTls c [] p) =
  if verify (ssl c) && tls_fails (anchor c) then Throw (system_error 0)
  else Ret (tt, mkTls (with_sni c)
    (SetOptions :: opt (negb (empty (curves (ssl c)))) (SetCurves (curves (ssl c))) ++ client_calls c ++
     opt (negb (empty (cipher (ssl c)))) (CipherList (cipher (ssl c))) ++
     opt (negb (empty (cipher_tls13 (ssl c))) && tls13) (Ciphersuites (cipher_tls13 (ssl c))) ++
     opt keylog KeylogCallback) p).
Proof.
  intros Hr. unfold prepare_ssl_context, prepare_ciphers. rewrite bind_gets. cbn [t_config].
  rewrite bool_decide_false by done. rewrite bind_call, bind_when_call. unfold bind at 1. rewrite prepare_client_run.
  destruct (verify (ssl c) && tls_fails (anchor c)); [done|]. rewrite !bind_when_call, when_call. cbn [app].
  by rewrite <- !app_assoc.
Qed.
End Tls.

(** Which calls are among those of a context *)
Ltac elem_cases b1 b2 Ha :=
  destruct b1, b2; repeat rewrite ?elem_of_cons, ?elem_of_app, ?elem_of_opt, ?elem_of_nil;
  destruct Ha as [Ea | [? Ea]]; rewrite ?Ea; (split; [intros H|]); destruct_or?; destruct_and?; try discriminate;
  try (simplify_eq; cbn [andb negb]; tauto); intros; destruct_and?; simplify_eq; cbn [andb negb] in *; try discriminate; tauto.

(** C22: the TLS context of a client (of any type but [server]) is prepared unless
    the certificates it is to trust cannot be loaded; it checks the certificate of
    the server exactly when [verify] says so, against the trust anchors of [cert] or
    the system's, and then its name when [verify_hostname] says so: the name is
    [sni], or the address of the server when there is none, and is also the name
    the connections ask for.  Session tickets are off unless both [reuse_session]
    and [session_ticket] are set. *)
Theorem client_checks_server file_text tls_fails tls13 keylog c p :
  run_type c <> SERVER ->
  match prepare_ssl_context file_text tls_fails tls13 keylog (mkTls c [] p) with
  | Throw _ => verify (ssl c) = true /\ tls_fails (anchor c) = true
  | Undef _ => False
  | Ret (_, t) =>
    let ctx := t_context t in
    (VerifyPeer ∈ ctx <-> verify (ssl c) = true) /\ (VerifyNone ∈ ctx <-> verify (ssl c) = false) /\
    (verify (ssl c) = true -> anchor c ∈ ctx) /\
    (forall name, VerifyHostname name ∈ ctx <->
      verify (ssl c) = true /\ verify_hostname (ssl c) = true /\ name = server_name c) /\
    (server_name c <> [] -> HostName (server_name c) ∈ prepare_ssl_reuse [] (t_config t)) /\
    (NoTicket ∈ ctx <-> reuse_session (ssl c) && session_ticket (ssl c) = false)
  end.
Proof.
  intros Hr. rewrite prepare_run_client by done. destruct (verify (ssl c) && tls_fails (anchor c)) eqn:Ef.
  { by apply andb_prop in Ef. }
  cbv zeta. cbn [t_context t_config]. unfold client_calls. fold (anchor c).
  assert (Ha : anchor c = DefaultVerifyPaths \/ exists f, anchor c = LoadVerifyFile f).
  { unfold anchor. destruct (empty _); eauto. }
  split_and!; try intros ->.
  - elem_cases (verify (ssl c)) (reuse_session (ssl c)) Ha.
  - elem_cases (verify (ssl c)) (reuse_session (ssl c)) Ha.
  - rewrite elem_of_cons, !elem_of_app, !elem_of_cons. tauto.
  - intros name. elem_cases (verify (ssl c)) (reuse_session (ssl c)) Ha.
  - intros Hn. unfold prepare_ssl_reuse. change (sni (ssl (with_sni c))) with (server_name c).
    unfold empty. rewrite bool_decide_false by done. rewrite elem_of_app, list_elem_of_singleton. by left.
  - destruct (session_ticket (ssl c)); elem_cases (verify (ssl c)) (reuse_session (ssl c)) Ha.
Qed.

(** ** What is loaded *)

(** The exceptions of loading *)
Definition load_error (e : exn) : Prop := e = system_error 0 \/ exists what, e = runtime_error what.

Section Prepare.
Context (file_text : bytes -> option bytes) (tls_fails : ssl_call -> bool) (tls13 keylog : bool).

(** [m] does not change the configuration. *)
Definition settles (m : M tls unit) : Prop :=
  forall t, match m t with
            | Ret (_, t') => t_config t' = t_config t
            | Throw e => load_error e
            | Undef _ => False
            end.
Lemma settles_bind m (k : unit -> M tls unit) : settles m -> settles (k tt) -> settles (bind m k).
Proof.
  intros Hm Hk t. specialize (Hm t). unfold bind. destruct (m t) as [[[] t']| |]; [|done|done].
  specialize (Hk t'). destruct (k tt t') as [[[] t'']| |]; [congruence|done|done].
Qed.
Lemma settles_when b m : settles m -> settles (when b m).
Proof. intros Hm. by destruct b. Qed.
Lemma settles_call x : settles (call x).
Proof. done. Qed.
Lemma settles_or_throw x : settles (call_or_throw tls_fails x).
Proof. unfold call_or_throw. destruct (tls_fails x); [|done]. intros t. by left. Qed.

Lemma prepare_server_settles : settles (prepare_server file_text tls_fails).
Proof.
  intros t. unfold prepare_server. rewrite bind_gets. revert t. set (s := fun t => ssl (t_config t)).
  enough (H : forall s, settles
    (call_or_throw tls_fails (UseCertificateChain (cert s)) ;;; call (PasswordCallback (key_password s)) ;;;
     call_or_throw tls_fails (UsePrivateKey (key s)) ;;;
     when (prefer_server_cipher s) (call PreferServerCipher) ;;;
     when (negb (empty (alpn s))) (call (AlpnSelect (alpn s))) ;;;
     (if reuse_session s then
        call (SetTimeout (session_timeout s)) ;;; when (negb (session_ticket s)) (call NoTicket)
      else call CacheOff ;;; call NoTicket) ;;;
     when (negb (empty (plain_http_response s)))
       match file_text (plain_http_response s) with
       | None => throw (runtime_error "plain_http_response")
       | Some text => modify (fun t => t <| t_plain := text |>)
       end ;;;
     (if empty (dhparam s) then call_or_throw tls_fails TmpDhDefault
      else call_or_throw tls_fails (TmpDhFile (dhparam s))))).
  { intros t. exact (H (ssl (t_config t)) t). }
  clear s. intros s. repeat first [apply settles_bind | apply settles_when | apply settles_or_throw | apply settles_call].
  - destruct (reuse_session s); repeat first [apply settles_bind | apply settles_when | apply settles_call].
  - destruct (file_text (plain_http_response s)); [done|]. intros t. right. by eexists.
  - destruct (empty (dhparam s)); apply settles_or_throw.
Qed.

(** Preparing a context sets at most [sni]. *)
Lemma prepare_config c :
  match prepare_ssl_context file_text tls_fails tls13 keylog (mkTls c [] []) with
  | Ret (_, t) => t_config t = c \/ t_config t = with_sni c
  | Throw e => load_error e
  | Undef _ => False
  end.
Proof.
  destruct (decide (run_type c = SERVER)) as [E|E].
  - unfold prepare_ssl_context, prepare_ciphers. rewrite bind_gets. cbn [t_config]. rewrite bool_decide_true by done.
    match goal with |- match ?m ?t with _ => _ end => assert (H : settles m); [|specialize (H t); destruct (m t) as [[[] ?]| |]] end;
      [|by left|done|done].
    repeat first [apply settles_bind | apply settles_when | apply settles_call | apply prepare_server_settles].
  - rewrite prepare_run_client by done. destruct (_ && _); [by left|by right].
Qed.
End Prepare.

Section Loaded.
Context {T : Type} {PT : PropertyTree T} {PL : PropertyTreeLaws T}.
Context (read_json parse_json : bytes -> option T) (file_text : bytes -> option bytes).
Context (make_address_v4 : bytes -> option Z).
Context (evp_sha224 : bytes -> option bytes) (tls_fails : ssl_call -> bool) (tls13 keylog : bool).
(** The digest has 224 bits. *)
Hypothesis digest_length : forall m d, evp_sha224 m = Some d -> zlen d = 28.

Notation SHA224 := (SHA224 evp_sha224).
Notation load := (load read_json file_text make_address_v4 evp_sha224 tls_fails tls13 keylog).
Notation load_others := (load_others file_text tls_fails tls13 keylog).
Notation populate_fields := (populate_fields file_text make_address_v4 evp_sha224 tls_fails tls13 keylog).
Notation populate_ := (populate_ file_text make_address_v4 evp_sha224 tls_fails tls13 keylog).

(** A configuration as its members' types and its loading have it *)
Record fields_ok (c : Config) : Prop := {
  ok_ports : Forall (in_type U16)
    [local_port c; remote_port c; target_port c; server_port (mysql c); mtu (tun c); port (dns c)];
  ok_ints : Forall (in_type I32)
    [udp_timeout c; udp_socket_buf c; udp_forward_socket_buf c; udp_recv_buf c; log_level c;
     ssl_shutdown_wait_time (ssl c); fast_open_qlen (tcp c); connect_time_out (tcp c); tun_fd (tun c);
     dns_udp_timeout (dns c); dns_udp_recv_buf (dns c); dns_udp_socket_buf (dns c); proxy_type (route c)];
  ok_longs : in_type I64 (session_timeout (ssl c)) /\ in_type U32 (pipeline_num c) /\ in_type U32 (pipeline_ack_window c);
  ok_passwords : StronglySorted key_lt (password c) /\
    Forall (fun x => key_ok (fst x) /\ SHA224 (snd x) = Ret (fst x)) (password c);
  ok_overrides : StronglySorted key_lt (alpn_port_override (ssl c)) /\
    Forall (fun x => in_type U16 (snd x)) (alpn_port_override (ssl c));
  ok_others : length (loaded_configs c) = length (pipeline_loadbalance_configs c) /\
    length (loaded_contexts c) = length (pipeline_loadbalance_configs c) /\
    (run_type c = SERVER -> pipeline_loadbalance_configs c = []);
  ok_dns : dns_enabled (dns c) = true ->
    gfwlist (dns c) <> [] /\ up_dns_server (dns c) <> [] /\ up_gfw_dns_server (dns c) <> []
}.
Inductive wf : Config -> Prop :=
| wf_intro c : fields_ok c -> Checksum.get_hashCode (hash_str c) = Ret (compare_hash c) ->
    Forall wf (loaded_configs c) -> wf c.

Lemma sha224_key p k : SHA224 p = Ret k -> key_ok k.
Proof.
  unfold Conf.SHA224. destruct (evp_sha224 p) as [d|] eqn:E; [|done]. destruct (_ <=? _); [done|]. intros [= <-].
  destruct (hex02_all d) as [H1 H2]. split; [|done]. rewrite H2, (digest_length p d E). done.
Qed.
Lemma sha224_outcome p : match SHA224 p with Ret _ => True | Throw e => load_error e | Undef _ => False end.
Proof.
  unfold Conf.SHA224. destruct (evp_sha224 p); [destruct (_ <=? _); [right; by eexists|done]|right; by eexists].
Qed.

Lemma read_passwords_outcome ps : forall m,
  StronglySorted key_lt m -> Forall (fun x => key_ok (fst x) /\ SHA224 (snd x) = Ret (fst x)) m ->
  match read_passwords evp_sha224 ps m with
  | Ret m' => StronglySorted key_lt m' /\ Forall (fun x => key_ok (fst x) /\ SHA224 (snd x) = Ret (fst x)) m'
  | Throw e => load_error e
  | Undef _ => False
  end.
Proof.
  induction ps as [|p ps IH]; intros m Hs Hf; cbn [read_passwords]; [done|]. pose proof (sha224_outcome p) as Ho.
  destruct (SHA224 p) as [k| |] eqn:Ek; [|done|done]. cbn [obind]. apply IH; [by apply map_set_sorted|].
  rewrite list.Forall_forall in *. intros x Hx. apply map_set_in in Hx as [->|Hx]; [|by apply Hf].
  split; [by eapply sha224_key|done].
Qed.
Lemma read_ports_outcome (items : list (bytes * T)) : forall m,
  StronglySorted key_lt m -> Forall (fun x => in_type U16 (snd x)) m ->
  match read_ports items m with
  | Ret m' => StronglySorted key_lt m' /\ Forall (fun x => in_type U16 (snd x)) m'
  | Throw e => load_error e
  | Undef _ => False
  end.
Proof.
  induction items as [|[name t] items IH]; intros m Hs Hf; cbn [read_ports]; [done|].
  destruct (pt_value U16 t) as [p|] eqn:E; [|right; by eexists]. apply IH; [by apply map_set_sorted|].
  rewrite list.Forall_forall in *. intros x Hx. apply map_set_in in Hx as [->|Hx]; [|by apply Hf].
  by eapply pt_value_type.
Qed.

Lemma get_number_type ty tree path d : in_type ty d -> in_type ty (get_number ty tree path d).
Proof.
  intros Hd. unfold get_number. destruct (pt_number ty tree path) eqn:E; [|done]. by eapply pt_number_type.
Qed.
Lemma fill_nonempty l d : d <> [] -> fill l d <> [].
Proof. by destruct l. Qed.
Lemma load_dns_ok tree d :
  dns_enabled (load_dns file_text tree d) = true ->
  let d' := load_dns file_text tree d in gfwlist d' <> [] /\ up_dns_server d' <> [] /\ up_gfw_dns_server d' <> [].
Proof.
  unfold load_dns. destruct (negb (dns_enabled d)) eqn:En; [intros H; by rewrite H in En|].
  destruct (empty (gfwlist d)) eqn:Eg; cbn [negb]; [done|].
  assert (Hg : gfwlist d <> []) by (intros E; unfold empty in Eg; by rewrite E in Eg).
  destruct (file_text (gfwlist d)) as [text|]; [|done].
  destruct (DomainMatcher.load_from_stream text (gfwlist_matcher d)) as [count domains].
  destruct (count =? 0); [done|]. cbn. apply negb_false_iff in En. rewrite En. cbn. intros _.
  split_and!; [done|by apply fill_nonempty|by apply fill_nonempty].
Qed.
Lemma load_dns_numbers tree d :
  let d' := load_dns file_text tree d in
  port d' = port d /\ dns_udp_timeout d' = dns_udp_timeout d /\ dns_udp_recv_buf d' = dns_udp_recv_buf d /\
  dns_udp_socket_buf d' = dns_udp_socket_buf d.
Proof.
  unfold load_dns. destruct (negb (dns_enabled d)); [done|]. destruct (negb (empty (gfwlist d))); [|done].
  destruct (file_text (gfwlist d)) as [text|]; [|done].
  destruct (DomainMatcher.load_from_stream text (gfwlist_matcher d)) as [count domains].
  destruct (count =? 0); [done|]. cbn. by destruct (dns_enabled d).
Qed.

(** [r] returns what satisfies [Q], throws one of the exceptions, or is one of the
    two ways a load has no result. *)
Definition loads {A} (r : outcome A) (Q : A -> Prop) : Prop :=
  match r with
  | Ret a => Q a
  | Throw e => load_error e
  | Undef u => u = SignedOverflow \/ u = NoEnd
  end.
Lemma loads_bind {A B} (m : outcome A) (k : A -> outcome B) Q :
  loads m (fun a => loads (k a) Q) -> loads (obind m k) Q.
Proof. by destruct m. Qed.
Lemma loads_mono {A} (m : outcome A) (P Q : A -> Prop) : loads m P -> (forall a, P a -> Q a) -> loads m Q.
Proof. destruct m; cbn; auto. Qed.

Definition level_after (level : Z) (c : Config) (level' : Z) : Prop :=
  (level <> INVALID -> level' = level) /\ (level = INVALID -> log_level c <> INVALID -> level' = log_level c).
Definition loaded (level : Z) (r : Config * Z) : Prop := wf (fst r) /\ level_after level (fst r) (snd r).

Lemma with_sni_wf c : wf c -> wf (with_sni c).
Proof. intros [? [] Hh Ho]. constructor; [by constructor|exact Hh|exact Ho]. Qed.

Lemma load_others_outcome (ld : bytes -> Z -> outcome (Config * Z)) names : forall level,
  (forall name level, loads (ld name level) (loaded level)) ->
  loads (load_others ld names level) (fun r =>
    Forall wf (map fst (fst r)) /\ length (fst r) = length names /\ (level <> INVALID -> snd r = level)).
Proof.
  induction names as [|name names IH]; intros level Hld; cbn [Conf.load_others]; [done|].
  apply loads_bind. eapply loads_mono; [apply Hld|]. intros [other level1] [Hwf [Hl _]]. cbn [fst snd] in *.
  apply loads_bind. pose proof (prepare_config file_text tls_fails tls13 keylog other) as Hp.
  destruct (prepare_ssl_context _ _ _ _ _) as [[[] t]| |]; [|exact Hp|done]. cbn [loads].
  apply loads_bind. eapply loads_mono; [by apply IH|]. intros [others level2] (H1 & H2 & H3). cbn [loads fst snd map length] in *.
  split_and!; [|lia|].
  - constructor; [|done]. destruct Hp as [-> | ->]; [done|by apply with_sni_wf].
  - intros Hn. rewrite H3 by (by rewrite Hl). by apply Hl.
Qed.

Ltac numbers_typed := repeat (constructor; [apply get_number_type; by vm_compute|]); constructor.
Lemma populate_fields_outcome ld tree c level :
  (forall name level, loads (ld name level) (loaded level)) ->
  loads (populate_fields ld tree c level) (fun r =>
    fields_ok (fst r) /\ Forall wf (loaded_configs (fst r)) /\ level_after level (fst r) (snd r)).
Proof.
  intros Hld. unfold Conf.populate_fields. cbv zeta. apply loads_bind.
  assert (Hr : loads (run_type_of (get_string tree "run_type" (str "client"))) (fun _ => True)).
  { unfold run_type_of. repeat case_bool_decide; try done. right. by eexists. }
  eapply loads_mono; [exact Hr|]. intros rt _. apply loads_bind.
  pose proof (read_passwords_outcome (get_strings tree "password") [] ltac:(constructor) ltac:(constructor)) as Hp.
  destruct (read_passwords _ _ _) as [passwords| |]; [|exact Hp|done]. cbn [loads]. apply loads_bind.
  pose proof (read_ports_outcome (default [] (pt_children tree "ssl.alpn_port_override")) [] ltac:(constructor)
    ltac:(constructor)) as Ho.
  destruct (read_ports _ _) as [ports| |]; [|exact Ho|done]. cbn [loads]. apply loads_bind.
  set (names := if bool_decide (rt = SERVER) then [] else _). set (lv := if level =? INVALID then _ else level).
  eapply loads_mono; [by apply load_others_outcome|]. intros [others level'] (H1 & H2 & H3). cbn [loads fst snd] in *.
  destruct (load_dns_numbers tree (read_dns tree (dns c))) as (D1 & D2 & D3 & D4).
  split_and!; [|exact H1|].
  - split; cbn [local_port remote_port target_port mysql tun dns udp_timeout udp_socket_buf udp_forward_socket_buf
      udp_recv_buf log_level ssl tcp route password pipeline_num pipeline_ack_window loaded_configs loaded_contexts
      pipeline_loadbalance_configs run_type server_port mtu read_mysql read_tun read_ssl read_tcp read_route
      ssl_shutdown_wait_time fast_open_qlen connect_time_out tun_fd proxy_type session_timeout alpn_port_override].
    + rewrite D1. cbn [port read_dns]. numbers_typed.
    + rewrite D2, D3, D4. cbn [dns_udp_timeout dns_udp_recv_buf dns_udp_socket_buf read_dns].
      numbers_typed.
    + split_and!; (apply get_number_type; by vm_compute).
    + exact Hp.
    + exact Ho.
    + rewrite !length_map, H2. split_and!; [done|done|]. intros ->. done.
    + apply load_dns_ok.
  - subst lv. split; cbn [log_level].
    + intros Hn. destruct (Z.eqb_spec level INVALID); [done|]. by apply H3.
    + intros -> Hn. rewrite Z.eqb_refl in H3. by apply H3.
Qed.

Lemma populate_outcome ld tree c level :
  (forall name level, loads (ld name level) (loaded level)) -> loads (populate_ ld tree c level) (loaded level).
Proof.
  intros Hld. apply loads_bind. eapply loads_mono; [by apply populate_fields_outcome|].
  intros [c1 level1] (H1 & H2 & H3). cbn [fst snd] in *. apply loads_bind.
  destruct (Checksum.get_hashCode (hash_str c1)) as [hash| |u] eqn:Eh; cbn [loads].
  - split; [|exact H3]. cbn [fst]. constructor; [by destruct H1|exact Eh|exact H2].
  - exfalso. revert Eh. unfold Checksum.get_hashCode. generalize 0. generalize (hash_str c1).
    intros l. induction l as [|b l IH]; intros z; cbn [Checksum.hash_loop]; [done|]. destruct (_ && _); [apply IH|done].
  - left. revert Eh. unfold Checksum.get_hashCode. generalize 0. generalize (hash_str c1).
    intros l. induction l as [|b l IH]; intros z; cbn [Checksum.hash_loop]; [done|]. destruct (_ && _); [apply IH|by intros [= <-]].
Qed.

Lemma load_outcome fuel file c level : loads (load fuel file c level) (loaded level).
Proof.
  revert file c level. induction fuel as [|fuel IH]; intros file c level; cbn [Conf.load]; [by right|].
  destruct (read_json file) as [tree|]; [|right; by eexists]. apply populate_outcome. intros name lv. apply IH.
Qed.

(** C10: a configuration that was loaded is well-formed, whatever its file and the
    files it names hold: every number has the type of its member; the passwords are
    in the order of their keys, which are 56 lower-case hexadecimal digits, the
    digest of the password; every load-balance configuration is loaded and
    well-formed with a context of its own, and a server has none; a DNS server that
    is enabled has a list and servers to ask.  The log level is the one of the first
    configuration.  Loading that does not return throws [runtime_error] or
    [system_error], or computes the hash with a signed overflow, or does not end. *)
Theorem config_well_formed fuel file c level :
  match load fuel file c level with
  | Ret (c', level') => wf c' /\ level_after level c' level'
  | Throw e => load_error e
  | Undef u => u = SignedOverflow \/ u = NoEnd
  end.
Proof.
  pose proof (load_outcome fuel file c level) as H. by destruct (load fuel file c level) as [[c' level']| |].
Qed.

(** *** When loading ends *)

Definition names_of (tree : T) : list bytes := get_strings tree "experimental.pipeline_loadbalance_configs".
Definition halts {A} (r : outcome A) : Prop := r <> Undef NoEnd.
Lemma halts_bind {A B} (m : outcome A) (k : A -> outcome B) :
  halts m -> (forall a, m = Ret a -> halts (k a)) -> halts (obind m k).
Proof. unfold halts. destruct m; cbn; auto. congruence. Qed.
Lemma halts_hash l z : halts (Checksum.hash_loop z l).
Proof. revert z. induction l as [|b l IH]; intros z; cbn [Checksum.hash_loop]; [done|]. by destruct (_ && _). Qed.

Lemma load_others_halts (ld : bytes -> Z -> outcome (Config * Z)) names : forall level,
  (forall name level, name ∈ names -> halts (ld name level)) -> halts (load_others ld names level).
Proof.
  induction names as [|name names IH]; intros level Hld; cbn [Conf.load_others]; [done|].
  apply halts_bind; [apply Hld; by left|]. intros [other level1] _. apply halts_bind.
  { pose proof (prepare_config file_text tls_fails tls13 keylog other) as Hp.
    unfold halts. by destruct (prepare_ssl_context _ _ _ _ _) as [[[] ?]| |]. }
  intros [_ t] _. apply halts_bind; [|by intros []]. apply IH. intros n lv Hn. apply Hld. by right.
Qed.
Lemma load_others_ext (ld1 ld2 : bytes -> Z -> outcome (Config * Z)) names : forall level,
  (forall name level, name ∈ names -> ld1 name level = ld2 name level) ->
  load_others ld1 names level = load_others ld2 names level.
Proof.
  induction names as [|name names IH]; intros level Hld; cbn [Conf.load_others]; [done|].
  rewrite Hld by (by left). destruct (ld2 name level) as [[other level1]| |]; [|done|done]. cbn [obind].
  destruct (prepare_ssl_context _ _ _ _ _) as [[[] t]| |]; [|done|done]. cbn [obind].
  rewrite (IH level1); [done|]. intros n lv Hn. apply Hld. by right.
Qed.

Lemma populate_halts ld tree c level :
  (forall name level, name ∈ names_of tree -> halts (ld name level)) -> halts (populate_ ld tree c level).
Proof.
  intros Hld. unfold Conf.populate_. apply halts_bind.
  - unfold Conf.populate_fields. cbv zeta. apply halts_bind; [|intros rt _; apply halts_bind; [|intros ps _; apply halts_bind;
      [|intros ports _; apply halts_bind; [|by intros []]]]].
    + unfold run_type_of. by repeat case_bool_decide.
    + generalize (@nil (bytes * bytes)). induction (get_strings tree "password") as [|p ps IH]; intros m; [done|].
      cbn [read_passwords]. pose proof (sha224_outcome p) as Ho. destruct (SHA224 p); [apply IH|done|done].
    + generalize (@nil (bytes * Z)). induction (default [] (pt_children tree "ssl.alpn_port_override")) as [|[n t] l IH];
        intros m; [done|]. cbn [read_ports]. by destruct (pt_value U16 t).
    + apply load_others_halts. intros name lv. case_bool_decide; [by intros ?%elem_of_nil|apply Hld].
  - intros [c1 level1] _. apply halts_bind; [apply halts_hash|done].
Qed.
Lemma populate_ext ld1 ld2 tree c level :
  (forall name level, name ∈ names_of tree -> ld1 name level = ld2 name level) ->
  populate_ ld1 tree c level = populate_ ld2 tree c level.
Proof.
  intros Hld. unfold Conf.populate_, Conf.populate_fields. cbv zeta.
  destruct (run_type_of _) as [rt| |]; [|done|done]. cbn [obind]. destruct (read_passwords _ _ _); [|done|done]. cbn [obind].
  destruct (read_ports _ _); [|done|done]. cbn [obind]. erewrite load_others_ext; [done|].
  intros name lv. case_bool_decide; [by intros ?%elem_of_nil|apply Hld].
Qed.

(** C34: loading a configuration ends when the files do not name each other in a
    circle: if some rank falls from each file to the load-balance files it names, any
    depth above the rank gives one and the same result, which is a configuration, an
    exception or the overflow. *)
Theorem config_load_ends (rank : bytes -> nat) file c level :
  (forall f tree name, read_json f = Some tree -> name ∈ names_of tree -> (rank name < rank f)%nat) ->
  exists r, r <> Undef NoEnd /\ forall fuel, (rank file < fuel)%nat -> load fuel file c level = r.
Proof.
  intros Hrank. exists (load (S (rank file)) file c level).
  assert (H : forall n f c level, (rank f < n)%nat ->
    halts (load n f c level) /\ forall m, (rank f < m)%nat -> load m f c level = load n f c level).
  { induction n as [|n IH]; intros f c0 lv Hn; [lia|]. cbn [Conf.load].
    destruct (read_json f) as [tree|] eqn:Ef.
    - split.
      + apply populate_halts. intros name lv' Hin. apply IH. pose proof (Hrank f tree name Ef Hin). lia.
      + intros [|m] Hm; [lia|]. cbn [Conf.load]. rewrite Ef. apply populate_ext. intros name lv' Hin.
        pose proof (Hrank f tree name Ef Hin). apply IH; lia.
    - split; [done|]. intros [|m] Hm; [lia|]. cbn [Conf.load]. by rewrite Ef. }
  destruct (H (S (rank file)) file c level) as [H1 H2]; [lia|]. split; [exact H1|]. intros fuel Hf. by apply H2.
Qed.

(** Files that name each other in a circle are loaded without end: if every file
    of [circle] can be read as the configuration of a client and the first
    load-balance file it names is in [circle] again, no depth of calls is enough. *)
Theorem config_circle_never_ends (circle : bytes -> Prop) :
  (forall f, circle f -> exists tree rt ps ports name names,
    read_json f = Some tree /\ run_type_of (get_string tree "run_type" (str "client")) = Ret rt /\ rt <> SERVER /\
    read_passwords evp_sha224 (get_strings tree "password") [] = Ret ps /\
    read_ports (default [] (pt_children tree "ssl.alpn_port_override")) [] = Ret ports /\
    names_of tree = name :: names /\ circle name) ->
  forall fuel f c level, circle f -> load fuel f c level = Undef NoEnd.
Proof.
  intros Hc. induction fuel as [|fuel IH]; intros f c level Hf; [done|].
  destruct (Hc f Hf) as (tree & rt & ps & ports & name & names & E1 & E2 & Hrt & E3 & E4 & E5 & Hn).
  cbn [Conf.load]. rewrite E1. unfold Conf.populate_, Conf.populate_fields. cbv zeta. rewrite E2. cbn [obind].
  rewrite E3. cbn [obind]. rewrite E4. cbn [obind]. rewrite bool_decide_false by done. fold (names_of tree). rewrite E5.
  cbn [Conf.load_others]. by rewrite IH.
Qed.

(** *** Passwords *)

Lemma read_passwords_find ps : forall m m' k p,
  StronglySorted key_lt m -> read_passwords evp_sha224 ps m = Ret m' -> SHA224 p = Ret k ->
  p ∈ ps \/ is_Some (map_find k m) -> is_Some (map_find k m').
Proof.
  induction ps as [|p' ps IH]; intros m m' k p Hs E Hk Hp; cbn [read_passwords] in E.
  { injection E as <-. destruct Hp as [Hp|Hp]; [by apply elem_of_nil in Hp|done]. }
  destruct (SHA224 p') as [k'| |] eqn:Ek; [|done|done]. cbn [obind] in E.
  eapply (IH _ _ _ _ (map_set_sorted k' p' m Hs) E Hk). rewrite map_find_set by done.
  destruct (decide (k' = k)) as [->|Hne]; [by right; eexists|]. destruct Hp as [Hp|Hp]; [|by right].
  apply elem_of_cons in Hp as [->|Hp]; [congruence|by left].
Qed.
Lemma load_passwords fuel file c level c' level' :
  load fuel file c level = Ret (c', level') ->
  exists tree, read_json file = Some tree /\ read_passwords evp_sha224 (get_strings tree "password") [] = Ret (password c').
Proof.
  destruct fuel as [|fuel]; [done|]. cbn [Conf.load]. destruct (read_json file) as [tree|]; [|done]. intros E.
  exists tree. split; [done|]. unfold Conf.populate_ in E.
  apply obind_Ret in E as ([c1 l1] & E1 & E). apply obind_Ret in E as (hash & _ & [= <- <-]).
  unfold Conf.populate_fields in E1. cbv zeta in E1. apply obind_Ret in E1 as (rt & _ & E1).
  apply obind_Ret in E1 as (ps & Eps & E1). apply obind_Ret in E1 as (ports & _ & E1).
  apply obind_Ret in E1 as ([others lv] & _ & [= <- <-]). exact Eps.
Qed.

(** The keys of a configuration, and that it has one for each of its passwords *)
Lemma loaded_key fuel file c level c' level' k p rest :
  load fuel file c level = Ret (c', level') -> password c' = (k, p) :: rest ->
  find_ CRLF k = None /\ SHA224 p = Ret k.
Proof.
  intros E Ek. pose proof (load_outcome fuel file c level) as H. rewrite E in H. destruct H as [Hw _].
  cbn [fst] in Hw. destruct Hw as [c' Hf _ _]. destruct (ok_passwords c' Hf) as [_ Hall]. rewrite Ek in Hall.
  apply Forall_inv in Hall as [[_ Hhex] Hsha]. split; [by apply hex_no_crlf|done].
Qed.
Lemma loaded_password fuel file c level c' level' tree k p :
  load fuel file c level = Ret (c', level') -> read_json file = Some tree -> p ∈ get_strings tree "password" ->
  SHA224 p = Ret k -> exists p', map_find k (password c') = Some p'.
Proof.
  intros E Es Hp Hsha. destruct (load_passwords _ _ _ _ _ _ E) as (tree' & Et & Eps). rewrite Es in Et. injection Et as <-.
  destruct (read_passwords_find _ [] _ k p ltac:(constructor) Eps Hsha (or_introl Hp)) as [p' Hp']. by exists p'.
Qed.

(** *** Restarts *)

(** What a configuration takes over from the one before *)
Definition kept (c : Config) :=
  (gfwlist_matcher (dns c), up_dns_server (dns c), up_gfw_dns_server (dns c),
   cn_mainland_ips_matcher (route c), white_ips_matcher (route c), proxy_ips_matcher (route c)).

(** A configuration that is read into an object again depends on what was there
    before only through the lists: the domains and the servers of DNS and the
    addresses of the routes.  Passwords, ports, TLS settings and the rest are those
    of the file. *)
Theorem config_reload_keeps_lists_only ld tree c1 c2 level :
  kept c1 = kept c2 -> populate_ ld tree c1 level = populate_ ld tree c2 level.
Proof.
  unfold kept. intros [= E1 E2 E3 E4 E5 E6]. unfold Conf.populate_, Conf.populate_fields, read_dns, read_route. cbv zeta.
  rewrite E1, E2, E3, E4, E5, E6. destruct (run_type_of _) as [rt| |]; [|done|done]. cbn [obind].
  destruct (read_passwords _ _ _); [|done|done]. cbn [obind]. destruct (read_ports _ _); [|done|done]. cbn [obind].
  by destruct (Conf.load_others _ _ _ _ _ _ _) as [[others lv]| |].
Qed.
End Loaded.

(** *** The application protocols *)

(** How OpenSSL reads a list of protocols (RFC 7301): each after its length *)
Fixpoint proto_list (fuel : nat) (s : bytes) : option (list bytes) :=
  match fuel with
  | O => None
  | S fuel =>
    match s with
    | [] => Some []
    | n :: s =>
      if (b2z n =? 0) || (zlen s <? b2z n) then None
      else option_map (cons (take (Z.to_nat (b2z n)) s)) (proto_list fuel (drop (Z.to_nat (b2z n)) s))
    end
  end.

(** The protocols of a configuration reach OpenSSL: the list that is built from
    names of 1 to 255 octets is read back as these names. *)
Theorem alpn_protocols_roundtrip protos :
  Forall (fun p => 1 <= zlen p <= 255) protos ->
  proto_list (S (length (read_alpn protos))) (read_alpn protos) = Some protos.
Proof.
  enough (H : forall fuel, Forall (fun p => 1 <= zlen p <= 255) protos -> (length (read_alpn protos) < fuel)%nat ->
    proto_list fuel (read_alpn protos) = Some protos) by (intros; apply H; [done|lia]).
  intros fuel Hp. revert fuel. induction Hp as [|p protos Hp _ IH]; intros [|fuel] Hf; [lia|done|lia|].
  change (read_alpn (p :: protos)) with (z2b (u8 (zlen p)) :: (p ++ read_alpn protos)) in *.
  assert (El : b2z (z2b (u8 (zlen p))) = zlen p).
  { rewrite (u8_small (zlen p)) by lia. rewrite b2z_z2b. apply u8_small. lia. }
  cbn [proto_list]. rewrite El. rewrite zlen_app. pose proof (zlen_nonneg (read_alpn protos)).
  destruct (Z.eqb_spec (zlen p) 0); [lia|]. destruct (Z.ltb_spec (zlen p + zlen (read_alpn protos)) (zlen p)); [lia|].
  cbn [orb]. unfold zlen at 1 2. rewrite Nat2Z.id, take_app_length, drop_app_length, IH; [done|].
  cbn [length] in Hf. rewrite length_app in Hf. lia.
Qed.

(** *** The hash *)

Definition printable (b : byte) : Prop := 32 <= b2z b <= 126.
Lemma hash_grows l : forall h n,
  Forall printable l -> 0 <= n -> 31 ^ n <= h -> 7 <= n + zlen l -> h < 2147483648 ->
  Checksum.hash_loop h l = Undef SignedOverflow.
Proof.
  induction l as [|b l IH]; intros h n Hl Hn Hh Hz Hi.
  - change (zlen (@nil byte)) with 0 in Hz. assert (31 ^ 7 <= 31 ^ n) by (apply Z.pow_le_mono_r; lia).
    change (31 ^ 7) with 27512614111 in *. lia.
  - apply list.Forall_cons in Hl as [Hb Hl]. rewrite zlen_cons in Hz. cbn [Checksum.hash_loop]. cbv zeta.
    destruct (Checksum.in_int (31 * h) && _) eqn:E; [|done]. apply andb_prop in E as [_ E].
    unfold printable in Hb. assert (Es : schar b = b2z b) by (unfold schar; destruct (Z.ltb_spec (b2z b) 128); lia).
    rewrite Es in *. apply (IH _ (n + 1)); [done|lia| |lia|].
    + rewrite Z.pow_add_r by lia. change (31 ^ 1) with 31. lia.
    + unfold Checksum.in_int in E. lia.
Qed.

Lemma hash_overflows s : Forall printable s -> 7 <= zlen s -> Checksum.get_hashCode s = Undef SignedOverflow.
Proof.
  intros Hs Hz. destruct s as [|b s]; [done|]. apply list.Forall_cons in Hs as [Hb Hs]. rewrite zlen_cons in Hz.
  unfold Checksum.get_hashCode. cbn [Checksum.hash_loop]. cbv zeta. unfold printable in Hb.
  assert (Es : schar b = b2z b) by (unfold schar; destruct (Z.ltb_spec (b2z b) 128); lia). rewrite Es, Z.mul_0_r.
  destruct (Checksum.in_int 0 && _) eqn:E; [|done]. apply (hash_grows _ _ 1); [done|lia|lia|lia|lia].
Qed.
Lemma to_string_printable z : 0 <= z -> Forall printable (Text.to_string z) /\ 1 <= zlen (Text.to_string z).
Proof.
  intros Hz. unfold Text.to_string.
  assert (Hd : forall d, 0 <= d < 10 -> printable (Text.digit d)).
  { intros d Hd. unfold printable, Text.digit. rewrite b2z_z2b, u8_small; lia. }
  assert (H : forall fuel z acc, 0 <= z -> Forall printable acc -> (0 < fuel)%nat ->
    Forall printable (Text.dec_digits fuel z acc) /\ 1 <= zlen (Text.dec_digits fuel z acc)).
  { induction fuel as [|fuel IH]; intros z0 acc Hz0 Ha Hf; [lia|]. cbn [Text.dec_digits].
    destruct (Z.ltb_spec z0 10).
    - split; [constructor; [by apply Hd; lia|done]|]. rewrite zlen_cons. pose proof (zlen_nonneg acc). lia.
    - assert (Hm : Forall printable (Text.digit (z0 mod 10) :: acc)).
      { constructor; [apply Hd, Z.mod_pos_bound; lia|done]. }
      destruct fuel as [|fuel]; [|apply IH; [apply Z.div_pos; lia|exact Hm|lia]]. cbn [Text.dec_digits].
      split; [exact Hm|]. rewrite zlen_cons. pose proof (zlen_nonneg acc). lia. }
  apply H; [done|constructor|lia].
Qed.

(** The hash of a configuration is undefined for the address of any real
    server: the [int] of [get_hashCode] overflows when [remote_addr] has five or
    more printable characters, whatever the rest of the configuration is. *)
Theorem config_hash_overflows {T} {PT : PropertyTree T} file_text make_address evp tls_fails tls13 keylog ld tree c level
    c' level' :
  populate_fields file_text make_address evp tls_fails tls13 keylog ld tree c level = Ret (c', level') ->
  0 <= remote_port c' -> Forall printable (remote_addr c') -> 5 <= zlen (remote_addr c') ->
  populate_ file_text make_address evp tls_fails tls13 keylog ld tree c level = Undef SignedOverflow.
Proof.
  intros E Hp Ha Hl. unfold populate_. rewrite E. cbn [obind]. destruct (to_string_printable _ Hp) as [H1 H2].
  rewrite hash_overflows; [done| |].
  - unfold hash_str. apply list.Forall_app. split; [done|]. apply list.Forall_app. split; [|done].
    constructor; [|constructor]. by vm_compute.
  - unfold hash_str. rewrite !zlen_app. change (zlen (str ":")) with 1. lia.
Qed.

(** *** What a restart leaves behind *)

Lemma load_files_snoc make_address texts text m :
  fst (IPv4Matcher.load_files make_address (texts ++ [text]) m) =
  fst (IPv4Matcher.load_from_stream make_address text (fst (IPv4Matcher.load_files make_address texts m))).
Proof.
  revert m. induction texts as [|t texts IH]; intros m; cbn [app IPv4Matcher.load_files fst].
  - by destruct (IPv4Matcher.load_from_stream make_address text m).
  - destruct (IPv4Matcher.load_from_stream make_address t m) as [m1 n1]. specialize (IH m1).
    by destruct (IPv4Matcher.load_files make_address (texts ++ [text]) m1), (IPv4Matcher.load_files make_address texts m1).
Qed.

Section Restart.
Context {T : Type} {PT : PropertyTree T}.
Context (file_text : bytes -> option bytes) (make_address_v4 : bytes -> option Z).
Context (evp_sha224 : bytes -> option bytes) (tls_fails : ssl_call -> bool) (tls13 keylog : bool).
Notation populate_ := (populate_ file_text make_address_v4 evp_sha224 tls_fails tls13 keylog).
Notation files texts := (fst (IPv4Matcher.load_files make_address_v4 texts IPv4Matcher.new_matcher)).

Lemma populate_route ld tree c level c' level' :
  populate_ ld tree c level = Ret (c', level') -> exists rt, route c' = read_route file_text make_address_v4 tree rt (route c).
Proof.
  unfold Conf.populate_. intros E. apply obind_Ret in E as ([c1 l1] & E1 & E). apply obind_Ret in E as (hash & _ & [= <- <-]).
  unfold populate_fields in E1. cbv zeta in E1. apply obind_Ret in E1 as (rt & _ & E1).
  apply obind_Ret in E1 as (ps & _ & E1). apply obind_Ret in E1 as (ports & _ & E1).
  apply obind_Ret in E1 as ([others lv] & _ & [= <- <-]). by exists rt.
Qed.

(** An address that was ever in the list of proxied addresses is proxied for
    good: when a configuration is read again, whatever the new list holds and
    whatever the type of the route, an address of a list that was loaded before is
    still matched by the new configuration. *)
Theorem restart_keeps_old_addresses ld tree c level c' level' texts ip :
  proxy_ips_matcher (route c) = files texts ->
  IPv4Matcher.Single ip ∈ concat (map (IPv4Matcher.entries make_address_v4) texts) ->
  populate_ ld tree c level = Ret (c', level') ->
  IPv4Matcher.is_match (proxy_ips_matcher (route c')) ip = Ret true.
Proof.
  intros Hm Hip E. destruct (populate_route _ _ _ _ _ _ E) as [rt ->]. unfold read_route. cbv zeta. cbn [proxy_ips_matcher].
  assert (H : exists texts', (if get_bool tree "route.enabled" false && bool_decide (rt = CLIENT_TUN)
      then load_ips file_text make_address_v4 (get_string tree "route.proxy_ips" []) (proxy_ips_matcher (route c))
      else proxy_ips_matcher (route c)) = files texts' /\
    IPv4Matcher.Single ip ∈ concat (map (IPv4Matcher.entries make_address_v4) texts')).
  { destruct (_ && _); [|by exists texts]. eexists (texts ++ [_]). unfold load_ips. rewrite Hm, load_files_snoc.
    split; [done|]. rewrite map_app, concat_app, elem_of_app. by left. }
  destruct H as (texts' & -> & Hip'). pose proof (IPv4Matcher.lists_match make_address_v4 texts' ip) as Hl. cbv zeta in Hl.
  destruct (IPv4Matcher.load_files make_address_v4 texts' IPv4Matcher.new_matcher) as [m counts]. destruct Hl as (_ & b & E1 & _ & Hs & _). cbn [fst].
  by rewrite E1, Hs.
Qed.
End Restart.

(** The flag of ICMP and the answer *)
Lemma proxy_icmp_iff lock is_ipv4 c :
  let r := try_prepare_pipeline_proxy_icmp lock is_ipv4 c in
  pipeline_proxy_icmp (snd r) = fst r /\
  (fst r = true <-> pipeline_proxy_icmp c = true /\ is_ipv4 = true /\ pipeline_num c <> 0 /\
    (run_type c = SERVER \/ run_type c = NAT /\ lock = true)).
Proof.
  unfold try_prepare_pipeline_proxy_icmp. cbv zeta. destruct (pipeline_proxy_icmp c) eqn:Ep; [|cbn; naive_solver].
  destruct is_ipv4; cbn [negb]; [|cbn; naive_solver].
  change (pipeline_num (c <| pipeline_proxy_icmp := false |>)) with (pipeline_num c).
  change (run_type (c <| pipeline_proxy_icmp := false |>)) with (run_type c).
  destruct (Z.eqb_spec (pipeline_num c) 0); [cbn; naive_solver|].
  destruct (run_type c) eqn:Er, lock; cbn; naive_solver.
Qed.
