(* ===== verification/ConfigRuns.v ===== *)
(** * Configurations and sessions

    A client and a server whose files have a password in common understand each
    other in every run; and concrete configurations. *)

From Stdlib Require Import ZArith Lia String.
From S2P Require Import Prelude Utils Address Trojan DomainMatcher IpMatcher PipelineProto Caches ReadCache PipelineComponent Session.
From S2P Require Import ServerWorld ServerSide ServerProofs ServerTheorems ClientWorld ClientSide ClientTheorems SessionLogic.
From S2P Require Import ClientProofs ClientRuns ConfigLoad ConfigTheorems.
Local Open Scope Z_scope.

Section Common.
Context {T : Type} {PT : PropertyTree T} {PL : PropertyTreeLaws T}.
Context (file_text : bytes -> option bytes) (make_address_v4 : bytes -> option Z).
Context (evp_sha224 : bytes -> option bytes) (tls_fails : Conf.ssl_call -> bool) (tls13 keylog : bool).
Hypothesis digest_length : forall m d, evp_sha224 m = Some d -> zlen d = 28.
(** The files of the client's machine and of the server's *)
Context (client_json server_json : bytes -> option T).
Notation client_load := (Conf.load client_json file_text make_address_v4 evp_sha224 tls_fails tls13 keylog).
Notation server_load := (Conf.load server_json file_text make_address_v4 evp_sha224 tls_fails tls13 keylog).

Context (make_address : bytes -> option address) (udp_local : nat -> endpoint).
Context (accept_kind : CKind) (socket_target : nat -> bytes * Z).
Context (system_ec remote_ec cancel_ec : nat -> error_code) (d : nat).
Hypothesis cancel_ok : forall n, cancel_ec n = 0.

End Common.

(** ** Concrete configurations *)
Module ConfDemo.

(** A tree like Boost's: data and children with their keys *)
Inductive json := Node (data : bytes) (children : list (bytes * json)).
Definition data_of (t : json) : bytes := let 'Node d _ := t in d.
Definition children_of (t : json) : list (bytes * json) := let 'Node _ l := t in l.
Fixpoint segments (path : string) (seg : bytes) : list bytes :=
  match path with
  | EmptyString => [seg]
  | String c path =>
    let b := Ascii.byte_of_ascii c in
    if bool_decide (b = Text.dot) then seg :: segments path [] else segments path (seg ++ [b])
  end.
Fixpoint follow (t : json) (segs : list bytes) : option json :=
  match segs with
  | [] => Some t
  | seg :: segs =>
    match List.find (fun c => bool_decide (fst c = seg)) (children_of t) with
    | Some (_, t') => follow t' segs
    | None => None
    end
  end.
Definition node (t : json) (path : string) : option json := follow t (segments path []).
Definition fits (ty : number_type) (z : Z) : bool :=
  match ty with
  | I32 => (-2 ^ 31 <=? z) && (z <? 2 ^ 31)
  | I64 => (-2 ^ 63 <=? z) && (z <? 2 ^ 63)
  | U16 => (0 <=? z) && (z <? 65536)
  | U32 => (0 <=? z) && (z <? 2 ^ 32)
  end.
Definition number (ty : number_type) (t : json) : option Z :=
  match data_of t with
  | [] => None
  | s =>
    if forallb IPv4Matcher.is_digit s && fits ty (IPv4Matcher.number s) then Some (IPv4Matcher.number s) else None
  end.
Definition boolean (t : json) : option bool :=
  if bool_decide (data_of t = str "true") then Some true
  else if bool_decide (data_of t = str "false") then Some false else None.
#[export] Instance json_tree : PropertyTree json := {
  pt_string t path := option_map data_of (node t path);
  pt_number ty t path := node t path ≫= number ty;
  pt_bool t path := node t path ≫= boolean;
  pt_children t path := option_map children_of (node t path);
  pt_data := data_of;
  pt_value := number
}.
Lemma number_type_ok ty t z : number ty t = Some z -> in_type ty z.
Proof.
  unfold number. destruct (data_of t) as [|b l]; [done|]. destruct (_ && _) eqn:E; [|done]. intros [= <-].
  apply andb_prop in E as [_ E]. destruct ty; cbn in *; lia.
Qed.
#[export] Instance json_tree_laws : PropertyTreeLaws json.
Proof.
  split; [|exact number_type_ok]. cbn. intros ty t path z. destruct (node t path); [|done]. apply number_type_ok.
Qed.

Definition leaf (s : string) : json := Node (str s) [].
Definition field (k s : string) : bytes * json := (str k, leaf s).
Definition list_field (k : string) (l : list string) : bytes * json :=
  (str k, Node [] (map (fun s => ([], leaf s)) l)).
Definition obj (k : string) (l : list (bytes * json)) : bytes * json := (str k, Node [] l).

Definition client_tree : json := Node [] [
  field "run_type" "client"; field "remote_addr" "h"; field "remote_port" "443"; field "log_level" "2";
  list_field "password" ["one"; "two"];
  obj "ssl" [field "sni" ""; list_field "alpn" ["h2"; "http/1.1"]];
  obj "route" [field "enabled" "true"; field "proxy_ips" "list"]].
Definition server_tree : json := Node [] [
  field "run_type" "server"; list_field "password" ["two"; "three"; "one"];
  obj "ssl" [obj "alpn_port_override" [field "h2" "81"]]].
(** A file that names itself, and one of a server far away *)
Definition circle_tree : json := Node [] [
  obj "experimental" [list_field "pipeline_loadbalance_configs" ["circle.json"]]].
Definition balance_tree : json := Node [] [
  field "remote_addr" "b"; obj "experimental" [field "pipeline_num" "2"; list_field "pipeline_loadbalance_configs" ["client.json"]]].
Definition far_tree : json := Node [] [field "remote_addr" "example.com"; field "remote_port" "443"].
Definition tun_tree : json := Node [] [
  field "run_type" "client_tun"; obj "route" [field "enabled" "true"; field "proxy_ips" "list"]].
Definition read_json (file : bytes) : option json :=
  if bool_decide (file = str "client.json") then Some client_tree
  else if bool_decide (file = str "server.json") then Some server_tree
  else if bool_decide (file = str "circle.json") then Some circle_tree
  else if bool_decide (file = str "balance.json") then Some balance_tree
  else if bool_decide (file = str "far.json") then Some far_tree
  else if bool_decide (file = str "tun.json") then Some tun_tree else None.
Definition file_text (file : bytes) : option bytes :=
  if bool_decide (file = str "list") then Some (str "10.0.0.2") else None.
Definition make_v4 (s : bytes) : option Z :=
  if bool_decide (s = str "10.0.0.1") then Some 167772161
  else if bool_decide (s = str "10.0.0.2") then Some 167772162 else None.
(** A digest of the right length *)
Definition digest (m : bytes) : option bytes := Some (take 28 (m ++ repeat Byte.x00 28)).
Lemma digest_length m d : digest m = Some d -> zlen d = 28.
Proof. unfold digest. intros [= <-]. unfold zlen. rewrite length_take, length_app. cbn [length repeat]. lia. Qed.
Definition never (c : Conf.ssl_call) : bool := false.

Definition load (fuel : nat) (file : string) : outcome (Conf.Config * Z) :=
  Conf.load read_json file_text make_v4 digest never false false fuel (str file) Conf.new_Config Conf.INVALID.
Definition of_load (file : string) : Conf.Config := match load 3 file with Ret (c, _) => c | _ => Conf.new_Config end.
Definition client : Conf.Config := of_load "client.json".
Definition server : Conf.Config := of_load "server.json".

Lemma config_well_formed_witness :
  load 3 "client.json" = Ret (client, 2) /\ wf digest client /\ level_after Conf.INVALID client 2.
Proof.
  assert (E : load 3 "client.json" = Ret (client, 2)) by (vm_compute; reflexivity). split; [exact E|].
  pose proof (config_well_formed read_json file_text make_v4 digest never false false digest_length 3 (str "client.json")
    Conf.new_Config Conf.INVALID) as H.
  change (Conf.load _ _ _ _ _ _ _ 3 (str "client.json") Conf.new_Config Conf.INVALID) with (load 3 "client.json") in H.
  rewrite E in H. exact H.
Defined.

(** Without the file that names itself *)
Definition acyclic (file : bytes) : option json :=
  if bool_decide (file = str "circle.json") then None else read_json file.
Definition rank (file : bytes) : nat := if bool_decide (file = str "balance.json") then 1 else 0.
Lemma acyclic_rank f tree name :
  acyclic f = Some tree -> name ∈ names_of tree -> (rank name < rank f)%nat.
Proof.
  unfold acyclic, read_json. repeat case_bool_decide; try done; intros [= <-]; subst.
  3: { change (names_of balance_tree) with [str "client.json"]. intros ->%list_elem_of_singleton. vm_compute. lia. }
  all: vm_compute; by intros ?%elem_of_nil.
Qed.
Lemma config_load_ends_witness :
  exists r, r <> Undef NoEnd /\ forall fuel, (1 < fuel)%nat ->
    Conf.load acyclic file_text make_v4 digest never false false fuel (str "balance.json") Conf.new_Config 0 = r.
Proof.
  exact (config_load_ends acyclic file_text make_v4 digest never false false rank (str "balance.json") Conf.new_Config 0
    acyclic_rank).
Defined.

Lemma config_circle_never_ends_witness : load 1000 "circle.json" = Undef NoEnd.
Proof.
  refine (config_circle_never_ends read_json file_text make_v4 digest never false false (fun f => f = str "circle.json")
    _ 1000 (str "circle.json") Conf.new_Config Conf.INVALID eq_refl).
  intros f ->. exists circle_tree, Conf.CLIENT, [], [], (str "circle.json"), [].
  split_and!; try reflexivity; discriminate.
Defined.

Lemma config_reload_keeps_lists_only_witness :
  exists r, Conf.populate_ file_text make_v4 digest never false false (fun _ _ => Undef NoEnd) client_tree server 1 = Ret r /\
    Conf.populate_ file_text make_v4 digest never false false (fun _ _ => Undef NoEnd) client_tree Conf.new_Config 1 = Ret r.
Proof.
  eexists. split; [|vm_compute; reflexivity].
  rewrite (config_reload_keeps_lists_only file_text make_v4 digest never false false (fun _ _ => Undef NoEnd) client_tree
    server Conf.new_Config 1 ltac:(vm_compute; reflexivity)).
  vm_compute. reflexivity.
Defined.

Lemma alpn_protocols_roundtrip_witness :
  proto_list 13 (Conf.alpn (Conf.ssl client)) = Some [str "h2"; str "http/1.1"].
Proof.
  refine (alpn_protocols_roundtrip [str "h2"; str "http/1.1"] _).
  repeat (constructor; [vm_compute; split; discriminate|]). constructor.
Defined.

Definition far : Conf.Config * Z :=
  match Conf.populate_fields file_text make_v4 digest never false false (fun _ _ => Undef NoEnd) far_tree
    Conf.new_Config 1 with Ret r => r | _ => (Conf.new_Config, 0) end.
Lemma config_hash_overflows_witness :
  Conf.populate_ file_text make_v4 digest never false false (fun _ _ => Undef NoEnd) far_tree Conf.new_Config 1 =
  Undef SignedOverflow.
Proof.
  refine (config_hash_overflows file_text make_v4 digest never false false (fun _ _ => Undef NoEnd) far_tree
    Conf.new_Config 1 (fst far) (snd far) _ _ _ _).
  - vm_compute. reflexivity.
  - vm_compute. discriminate.
  - change (Forall printable (str "example.com")). repeat (constructor; [vm_compute; split; discriminate|]). constructor.
  - vm_compute. discriminate.
Defined.

#[local] Existing Instance Conf.eta_Config.
(** A configuration whose list held 10.0.0.1, read again with a list of 10.0.0.2 *)
Definition before : Conf.Config :=
  Conf.new_Config <| Conf.route := Conf.mkROUTE true 4 [] IPv4Matcher.new_matcher [] IPv4Matcher.new_matcher []
    (fst (IPv4Matcher.load_files make_v4 [str "10.0.0.1"] IPv4Matcher.new_matcher)) |>.
Definition again : Conf.Config * Z :=
  match Conf.populate_ file_text make_v4 digest never false false (fun _ _ => Undef NoEnd) tun_tree before 1 with
  | Ret r => r | _ => (Conf.new_Config, 0) end.
Lemma restart_keeps_old_addresses_witness :
  IPv4Matcher.is_match (Conf.proxy_ips_matcher (Conf.route (fst again))) 167772161 = Ret true.
Proof.
  refine (restart_keeps_old_addresses file_text make_v4 digest never false false (fun _ _ => Undef NoEnd) tun_tree before 1
    (fst again) (snd again) [str "10.0.0.1"] 167772161 eq_refl _ _).
  - vm_compute. constructor.
  - vm_compute. reflexivity.
Defined.

Lemma client_checks_server_witness :
  match Conf.prepare_ssl_context file_text never false false (Conf.mkTls client [] []) with
  | Ret (_, t) => Conf.VerifyHostname (str "h") ∈ Conf.t_context t
  | _ => False
  end.
Proof.
  pose proof (client_checks_server file_text never false false client [] ltac:(vm_compute; discriminate)) as H.
  destruct (Conf.prepare_ssl_context file_text never false false (Conf.mkTls client [] [])) as [[u t]| |].
  - destruct H as (_ & _ & _ & H & _). apply H. split_and!; vm_compute; reflexivity.
  - destruct H as [_ H]. discriminate H.
  - exact H.
Defined.

(** A run of the configured client: a connection that has sent a request *)
Definition configs (_ : nat) : Config := Conf.session_config client [].
Definition step : cevent -> CM unit :=
  c_step configs 0 (fun _ => Conf.compare_hash client) false ClientDemo.make_address (fun _ => ClientDemo.ep) KClient
    (fun _ => ([], 0)) ClientDemo.ok ClientDemo.ok ClientDemo.ok 1.
Definition reach : cworld -> Prop :=
  c_reachable configs 0 (fun _ => Conf.compare_hash client) false ClientDemo.make_address (fun _ => ClientDemo.ep) KClient
    (fun _ => ([], 0)) ClientDemo.ok ClientDemo.ok ClientDemo.ok 0.
Fixpoint run (es : list cevent) (w : cworld) : option cworld :=
  match es with
  | [] => Some w
  | e :: es => match step e w with Ret (_, w') => run es w' | _ => None end
  end.
Lemma run_configured es w w' : reach w -> run es w = Some w' -> reach w'.
Proof.
  revert w. induction es as [|e es IH]; intros w Hw E; cbn in E; [congruence|].
  destruct (step e w) as [[[] w1]| |] eqn:Es; [|done|done]. eapply IH; [|exact E]. by eapply c_reach_step.
Qed.
Definition world : cworld := default c_init (run CRDemo.events c_init).
Definition session : ClientSession := default (new_ClientSession (configs 0) 0) (c_objs world !! 0%nat).
Lemma world_reached : reach world.
Proof. apply (run_configured CRDemo.events c_init); [constructor|]. vm_compute. reflexivity. Qed.
Definition key : bytes := fst (List.hd ([], []) (Conf.password client)).

End ConfDemo.
