(* ===== verification/Authenticator.v ===== *)
(** * Authenticator

    [src/src/core/authenticator.cpp], built with MySQL: which queries are sent
    and what is concluded from the answers.  MySQL's answers are a parameter. *)

From Stdlib Require Import ZArith Lia String.
From S2P Require Import Prelude Utils Address IpMatcher Session ConfigLoad ConfigTheorems.
Local Open Scope Z_scope.

Module Authenticator.

Definition PASSWORD_LENGTH : Z := 56.

(** [char] is signed. *)
Definition password_char (b : byte) : bool :=
  ((48 <=? schar b) && (schar b <=? 57)) || ((97 <=? schar b) && (schar b <=? 102)).
Definition is_valid_password (password : bytes) : bool :=
  (zlen password =? PASSWORD_LENGTH) && forallb password_char password.

(** [mysql_query] fails, [mysql_store_result] gives nothing, or there are rows of
    two columns, which may be [NULL] *)
Inductive mysql_answer :=
| QueryError
| NoResult
| Rows (rows : list (option bytes * option bytes)).

Definition quote : byte := Byte.x27.
Definition select_text (password : bytes) : bytes :=
  str "SELECT quota, download + upload FROM users WHERE password = '" ++ password ++ [quote].
Definition update_text (password : bytes) (download upload : Z) : bytes :=
  str "UPDATE users SET download = download + " ++ Text.to_string download ++ str ", upload = upload + " ++
  Text.to_string upload ++ str " WHERE password = '" ++ password ++ [quote].

(** *** The connection: the calls that are made, in order *)
Inductive mysql_call :=
| MysqlInit | MysqlSslSet (cafile : bytes)
| MysqlRealConnect (server username password database : bytes) (port : Z)
| MysqlReconnect | MysqlClose.
#[export] Instance mysql_call_eq_dec : EqDecision mysql_call.
Proof. solve_decision. Defined.
(** The constructor; [connects]: [mysql_real_connect] succeeds *)
Definition construct (connects : mysql_call -> bool) (c : Conf.MySQLConfig) : outcome (list mysql_call) :=
  let calls := [MysqlInit] ++ (if bool_decide (Conf.cafile c = []) then [] else [MysqlSslSet (Conf.cafile c)]) in
  let connect := MysqlRealConnect (Conf.server_addr c) (Conf.username c) (Conf.mysql_password c) (Conf.database c)
    (Conf.server_port c) in
  if negb (connects connect) then Throw (runtime_error "mysql_error") else
  Ret (calls ++ [connect; MysqlReconnect]).
Definition destructor (calls : list mysql_call) : list mysql_call := calls ++ [MysqlClose].

Section Query.
Context (mysql : bytes -> mysql_answer).

Definition column (c : option bytes) : outcome Z :=
  match c with Some s => Conf.ato I64 s | None => Undef NoObject end.

(** The queries that were sent, and the verdict *)
Definition auth (password : bytes) : outcome (list bytes * bool) :=
  if negb (is_valid_password password) then Ret ([], false) else
  let q := select_text password in
  match mysql q with
  | QueryError | NoResult | Rows [] => Ret ([q], false)
  | Rows ((c0, c1) :: _) =>
    let! quota := column c0 in
    let! used := column c1 in
    if quota <? 0 then Ret ([q], true)
    else if quota <=? used then Ret ([q], false) else Ret ([q], true)
  end.
End Query.

Definition record (password : bytes) (download upload : Z) : list bytes :=
  if negb (is_valid_password password) then [] else [update_text password download upload].

(** ** What is sent *)

Lemma password_char_hex b : password_char b = hex_lower b.
Proof. by destruct b. Qed.
Lemma valid_password_key p : is_valid_password p = true <-> key_ok p.
Proof.
  unfold is_valid_password, key_ok, PASSWORD_LENGTH. rewrite andb_true_iff, Z.eqb_eq.
  assert (E : forallb password_char p = forallb hex_lower p).
  { induction p as [|b p IH]; [done|]. cbn [forallb]. by rewrite IH, password_char_hex. }
  by rewrite E.
Qed.

Definition quotes (s : bytes) : Z := zlen (filter (fun b => b = quote) s).
Lemma quotes_app a b : quotes (a ++ b) = quotes a + quotes b.
Proof. unfold quotes. by rewrite list.filter_app, zlen_app. Qed.
Lemma quotes_none (p : byte -> bool) s : p quote = false -> forallb p s = true -> quotes s = 0.
Proof.
  intros Hq. induction s as [|b s IH]; [done|]. cbn [forallb]. intros [Hb Hs]%andb_prop.
  unfold quotes in *. rewrite filter_cons_False by (by intros ->; congruence). by apply IH.
Qed.
Lemma quotes_number z : 0 <= z -> quotes (Text.to_string z) = 0.
Proof.
  intros Hz. assert (H : forall fuel z acc, 0 <= z -> forallb IPv4Matcher.is_digit acc = true ->
    forallb IPv4Matcher.is_digit (Text.dec_digits fuel z acc) = true).
  { assert (Hd : forall d, 0 <= d < 10 -> IPv4Matcher.is_digit (Text.digit d) = true).
    { intros d Hd. unfold IPv4Matcher.is_digit, Text.digit. rewrite b2z_z2b, u8_small; lia. }
    induction fuel as [|fuel IH]; intros z0 acc Hz0 Ha; [done|]. cbn [Text.dec_digits]. destruct (Z.ltb_spec z0 10).
    - cbn [forallb]. rewrite Hd by lia. done.
    - apply IH; [apply Z.div_pos; lia|]. cbn [forallb]. rewrite Hd; [done|]. apply Z.mod_pos_bound. lia. }
  by apply (quotes_none IPv4Matcher.is_digit), H.
Qed.

(** C23: no password gets into a query as anything but text: whatever a client sends
    as its password, a query of [auth] or [record] is sent only for 56 lower-case
    hexadecimal digits, so it has exactly the two quotes of its template around
    them; and every key of a configuration is of this form. *)
Theorem auth_queries_quoted mysql password download upload :
  0 <= download -> 0 <= upload ->
  (forall qs verdict, auth mysql password = Ret (qs, verdict) ->
     forall q, q ∈ qs -> key_ok password /\ q = select_text password /\ quotes q = 2) /\
  (forall q, q ∈ record password download upload ->
     key_ok password /\ q = update_text password download upload /\ quotes q = 2) /\
  (forall evp p, (forall m d, evp m = Some d -> zlen d = 28) -> Conf.SHA224 evp p = Ret password ->
     is_valid_password password = true).
Proof.
  intros Hd Hu.
  assert (Hk : is_valid_password password = true -> key_ok password /\ quotes password = 0).
  { intros H. apply valid_password_key in H. split; [done|]. by apply (quotes_none hex_lower); [done|apply H]. }
  split_and!.
  - intros qs verdict. unfold auth. destruct (is_valid_password password) eqn:E; cbn [negb];
      [|intros [= <- <-] q Hq; by apply elem_of_nil in Hq].
    destruct (Hk eq_refl) as [Hk1 Hk2]. intros Ea q Hq. assert (Eq : qs = [select_text password]).
    { destruct (mysql _) as [| |[|[c0 c1] rows]]; [congruence..|]. apply obind_Ret in Ea as (quota & _ & Ea).
      apply obind_Ret in Ea as (used & _ & Ea). destruct (_ <? _); [congruence|]. destruct (_ <=? _); congruence. }
    subst qs. apply list_elem_of_singleton in Hq as ->. split_and!; [done|done|].
    unfold select_text. rewrite !quotes_app, Hk2. by vm_compute.
  - intros q. unfold record. destruct (is_valid_password password) eqn:E; cbn [negb];
      [|by intros Hq%elem_of_nil]. destruct (Hk eq_refl) as [Hk1 Hk2]. intros ->%list_elem_of_singleton.
    split_and!; [done|done|]. unfold update_text. rewrite !quotes_app, Hk2, !quotes_number by done. by vm_compute.
  - intros evp p Hdig Hs. apply valid_password_key. by eapply sha224_key.
Qed.

(** A password is accepted exactly when it is well-formed and the first row that
    the server has for it has a negative quota or one above what was used. *)
Theorem auth_verdict mysql password :
  (exists qs, auth mysql password = Ret (qs, true)) <->
  is_valid_password password = true /\ exists c0 c1 rows quota used,
    mysql (select_text password) = Rows ((c0, c1) :: rows) /\ column c0 = Ret quota /\ column c1 = Ret used /\
    (quota < 0 \/ used < quota).
Proof.
  unfold auth. split.
  - intros [qs E]. destruct (is_valid_password password); [|done]. cbn [negb] in E. split; [done|].
    destruct (mysql _) as [| |[|[c0 c1] rows]]; [done..|]. apply obind_Ret in E as (quota & E0 & E).
    apply obind_Ret in E as (used & E1 & E). exists c0, c1, rows, quota, used. split_and!; [done..|].
    destruct (Z.ltb_spec quota 0); [by left|]. destruct (Z.leb_spec quota used); [done|]. by right.
  - intros (Hv & c0 & c1 & rows & quota & used & Hm & E0 & E1 & Hq). rewrite Hv. cbn [negb]. rewrite Hm, E0. cbn [obind].
    rewrite E1. cbn [obind]. destruct (Z.ltb_spec quota 0); [eauto|]. destruct (Z.leb_spec quota used); [lia|eauto].
Qed.

(** A password that tries to leave its literal, and a well-formed one *)
Definition rows (q : bytes) : mysql_answer := Rows [(Some (str "100"), Some (str "5"))].
Definition good : bytes := repeat Byte.x61 56.
Lemma auth_queries_quoted_witness :
  auth rows (str "' OR '1'='1") = Ret ([], false) /\
  auth rows good = Ret ([select_text good], true) /\ quotes (select_text good) = 2.
Proof.
  split; [vm_compute; reflexivity|]. split; [vm_compute; reflexivity|].
  destruct (auth_queries_quoted rows good 0 0 ltac:(lia) ltac:(lia)) as [H _].
  exact (proj2 (proj2 (H [select_text good] true ltac:(vm_compute; reflexivity) (select_text good)
    ltac:(constructor)))).
Defined.
End Authenticator.
