(* ===== verification/ServiceStart.v ===== *)
(** * Service: construction, running and stopping

    The rest of [src/src/core/service.cpp]: what the constructor sets up for the
    run type of its configuration, [run], [stop] and [reload_cert], as the calls
    they make on sockets and components in order.  The components themselves are
    modelled elsewhere. *)

From Stdlib Require Import ZArith Lia String.
From S2P Require Import Prelude Utils Caches ConfigLoad ConfigTheorems.
Import Conf.
Local Open Scope Z_scope.
Local Open Scope handler_scope.

Module ServiceStart.

Inductive sv_call :=
| NewTunDev (name ip mask : bytes) (mtu fd : Z)
| Resolve (addr : bytes) (port : Z)
| AcceptorOpen | SetReuseAddress | SetTransparent | SetReusePort | AcceptorBind | AcceptorListen
| NewIcmpd (nat : bool)
| UdpOpen | NatUdpBind (recv_ttl : bool) | UdpBuffers (size : Z) | UdpBind
| SetNoDelay | SetKeepAlive | SetFastOpen (qlen : Z)
| NewAuthenticator
| NewDns
| AsyncAccept | UdpAsyncRead | LocalEndpoint | RunIo
| TunDestroy | DnsDestroy | PipelineDestroy (p : nat) | AcceptorCancel | UdpCancel | UdpClose | StopIo
| ReloadChain (file : bytes) | ReloadKey (file : bytes).
#[export] Instance sv_call_eq_dec : EqDecision sv_call.
Proof. solve_decision. Defined.

Record Service := mkService {
  v_config : Config;
  v_calls : list sv_call;
  v_context : context;
  v_plain : bytes;                      (* plain_http_response *)
  v_tundev : bool;                      (* m_tundev is set, and so on *)
  v_icmpd : bool;
  v_auth : bool;
  v_dns : bool;
  v_udp_open : bool;
  v_pipelines : list (option nat)       (* weak pointers: [None] when expired *)
}.
#[export] Instance eta_Service : Settable Service :=
  fun r => mkService (v_config r) (v_calls r) (v_context r) (v_plain r) (v_tundev r) (v_icmpd r) (v_auth r) (v_dns r)
    (v_udp_open r) (v_pipelines r).
Definition new_Service (c : Config) : Service := mkService c [] [] [] false false false false false [].

Definition SM := M Service.

Section Operations.
(** Which calls throw; whether the address is of version 4, the UDP socket of a
    transparent proxy could be bound and the two locks could be had; the files and
    OpenSSL ([ConfigLoad]); what was built in.  On Android [stop] only stops the
    loop and there is no DNS server; that build is left out. *)
Context (fails : sv_call -> bool) (is_v4 nat_bind_ok icmpd_lock dns_lock : bool).
Context (file_text : bytes -> option bytes) (tls_fails : ssl_call -> bool) (tls13 keylog : bool).
Context (enable_nat enable_reuse_port enable_fastopen enable_mysql : bool).

(** A call whose error is logged or dropped, and one whose error is thrown *)
Definition attempt (x : sv_call) : SM unit := modify (fun s => s <| v_calls ::= fun l => l ++ [x] |>).
Definition call (x : sv_call) : SM unit := if fails x then throw (system_error 0) else attempt x.
Definition is_type (c : Config) (t : RunType) : bool := bool_decide (run_type c = t).

Definition prepare_icmpd : SM unit :=
  s <- gets id ;;
  let '(ok, c) := try_prepare_pipeline_proxy_icmp icmpd_lock is_v4 (v_config s) in
  modify (fun s => s <| v_config := c |>) ;;;
  when ok
    (modify (fun s => s <| v_icmpd := true |>) ;;;
     call (NewIcmpd (is_type c NAT))).

(** Pipelines that are still there are destroyed. *)
Fixpoint destroy_pipelines (ps : list (option nat)) : SM unit :=
  match ps with
  | [] => skip
  | Some p :: ps => attempt (PipelineDestroy p) ;;; destroy_pipelines ps
  | None :: ps => destroy_pipelines ps
  end.
Definition stop : SM unit :=
  s <- gets id ;;
  when (v_tundev s) (attempt TunDestroy) ;;;
  when (v_dns s) (attempt DnsDestroy) ;;;
  destroy_pipelines (v_pipelines s) ;;;
  modify (fun s => s <| v_pipelines := [] |>) ;;;
  attempt AcceptorCancel ;;;
  when (v_udp_open s) (attempt UdpCancel ;;; attempt UdpClose ;;; modify (fun s => s <| v_udp_open := false |>)) ;;;
  attempt StopIo.

(** The UDP socket of a forwarding client; [false] when the constructor returns *)
Definition open_udp : SM bool :=
  s <- gets id ;;
  let c := v_config s in
  call UdpOpen ;;;
  modify (fun s => s <| v_udp_open := true |>) ;;;
  if is_type c NAT && negb nat_bind_ok then attempt (NatUdpBind (pipeline_proxy_icmp c)) ;;; stop ;;; ret false
  else
    when (is_type c NAT) (attempt (NatUdpBind (pipeline_proxy_icmp c))) ;;;
    attempt (UdpBuffers (udp_forward_socket_buf c)) ;;;
    call UdpBind ;;;
    ret true.

Definition set_options (t : TCPConfig) : SM unit :=
  when (no_delay t) (call SetNoDelay) ;;;
  when (keep_alive t) (call SetKeepAlive) ;;;
  when (fast_open t && enable_fastopen) (attempt (SetFastOpen (fast_open_qlen t))).

(** The listening socket; [false] when the constructor returns *)
Definition listen : SM bool :=
  s <- gets id ;;
  let c := v_config s in
  call (Resolve (local_addr c) (local_port c)) ;;;
  call AcceptorOpen ;;;
  call SetReuseAddress ;;;
  when (is_type c NAT && use_tproxy (tcp c)) (attempt SetTransparent) ;;;
  when (reuse_port (tcp c) && enable_reuse_port) (call SetReusePort) ;;;
  call AcceptorBind ;;;
  call AcceptorListen ;;;
  prepare_icmpd ;;;
  go <- (if is_type c FORWARD || is_type c NAT then open_udp else ret true) ;;
  if go : bool then set_options (tcp c) ;;; ret true else ret false.

Definition start_dns : SM unit :=
  s <- gets id ;;
  let c := v_config s in
  when (dns_enabled (dns c) && negb (is_type c SERVER || is_type c FORWARD) && dns_lock)
    (modify (fun s => s <| v_dns := true |>) ;;; call NewDns).

(** [prepare_ssl_context] on the configuration and the context of the service *)
Definition prepare_context : SM unit :=
  fun s =>
    match prepare_ssl_context file_text tls_fails tls13 keylog (mkTls (v_config s) [] []) with
    | Ret (_, t) => Ret (tt, s <| v_config := t_config t |> <| v_context := t_context t |> <| v_plain := t_plain t |>)
    | Throw e => Throw e
    | Undef u => Undef u
    end.

Definition construct (test : bool) : SM unit :=
  s <- gets id ;;
  let c := v_config s in
  if is_type c NAT && negb enable_nat then throw (runtime_error "NAT is not supported") else
  go <- (if test then ret true else
    when (is_type c CLIENT_TUN || is_type c SERVERT_TUN)
      (call (NewTunDev (tun_name (tun c)) (net_ip (tun c)) (net_mask (tun c)) (mtu (tun c)) (tun_fd (tun c))) ;;;
       modify (fun s => s <| v_tundev := true |>)) ;;;
    if is_type c CLIENT_TUN then ret true else listen) ;;
  if negb go then skip else
  prepare_context ;;;
  when (is_type c SERVER && (mysql_enabled (mysql c) && enable_mysql))
    (call NewAuthenticator ;;; modify (fun s => s <| v_auth := true |>)) ;;;
  when (negb test) start_dns.

(** *** [async_accept]: the session that waits for a connection, and what the handler does
    with it *)
Inductive session_kind := K_Pipeline | K_Server | K_Forward | K_NAT | K_Client.
Definition accept_session (c : Config) : session_kind :=
  if is_type c SERVER then (if 0 <? pipeline_num c then K_Pipeline else K_Server)
  else if is_type c FORWARD then K_Forward
  else if is_type c NAT then K_NAT
  else K_Client.
Inductive accept_action := StartSession | AcceptNext.
(** [endpoint_ec]: the error of [remote_endpoint] *)
Definition accept_done (error endpoint_ec : error_code) : list accept_action :=
  if error =? operation_aborted then [] else
  (if (error =? 0) && (endpoint_ec =? 0) then [StartSession] else []) ++ [AcceptNext].

Definition run : SM unit :=
  s <- gets id ;;
  let c := v_config s in
  when (negb (is_type c CLIENT_TUN))
    (call AsyncAccept ;;;
     when (is_type c FORWARD || is_type c NAT) (call UdpAsyncRead) ;;;
     call LocalEndpoint) ;;;
  call RunIo.

Definition reload_cert : SM unit :=
  s <- gets id ;;
  let c := v_config s in
  when (is_type c SERVER)
    (call (ReloadChain (cert (ssl c))) ;;; call (ReloadKey (key (ssl c))) ;;; attempt AcceptorCancel ;;; call AsyncAccept).
End Operations.

(** ** What a service does for its run type *)

(** Comparisons of two run types, computed *)
Ltac types :=
  repeat match goal with |- context [bool_decide (?a = ?b)] =>
    let v := eval vm_compute in (bool_decide (a = b)) in change (bool_decide (a = b)) with v end;
  cbn [orb andb negb opt app].

Section Starts.
Context (is_v4 icmpd_lock dns_lock : bool).
Context (file_text : bytes -> option bytes) (tls13 keylog : bool).
Context (enable_reuse_port enable_fastopen enable_mysql : bool).
(** Nothing fails, and a transparent proxy is built in. *)
Definition no_failure (x : sv_call) : bool := false.
Definition no_tls_failure (x : ssl_call) : bool := false.
Notation construct := (construct no_failure is_v4 true icmpd_lock dns_lock file_text no_tls_failure tls13 keylog true
  enable_reuse_port enable_fastopen enable_mysql).
Notation run := (run no_failure).
Notation call := (call no_failure).
Lemma attempt_call x : attempt x = call x.
Proof. done. Qed.

Definition add (s : Service) (l : list sv_call) : Service := s <| v_calls ::= fun c => c ++ l |>.
Lemma sbind_call {A} x (k : unit -> SM A) s : bind (call x) k s = k tt (add s [x]).
Proof. done. Qed.
Lemma add_add s l l' : add (add s l) l' = add s (l ++ l').
Proof. unfold add. destruct s; cbn. by rewrite app_assoc. Qed.
Lemma sbind_when_call {A} b x (k : unit -> SM A) s : bind (when b (call x)) k s = k tt (add s (opt b x)).
Proof. destruct b; [done|]. unfold bind, when, skip, ret, opt, add. destruct s; cbn. by rewrite app_nil_r. Qed.
Lemma swhen_call b x s : when b (call x) s = Ret (tt, add s (opt b x)).
Proof. destruct b; [done|]. unfold when, skip, ret, opt, add. destruct s; cbn. by rewrite app_nil_r. Qed.

Lemma prepare_returns c :
  plain_http_response (ssl c) = [] \/ is_Some (file_text (plain_http_response (ssl c))) ->
  exists t, prepare_ssl_context file_text no_tls_failure tls13 keylog (mkTls c [] []) = Ret (tt, t) /\
    run_type (t_config t) = run_type c /\ dns (t_config t) = dns c.
Proof.
  intros Hp. destruct (decide (run_type c = SERVER)) as [E|E].
  - pose proof (prepare_config file_text no_tls_failure tls13 keylog c) as H.
    enough (Hr : exists t, prepare_ssl_context file_text no_tls_failure tls13 keylog (mkTls c [] []) = Ret (tt, t)).
    { destruct Hr as [t Et]. rewrite Et in H. exists t. split; [done|]. by destruct H as [-> | ->]. }
    unfold prepare_ssl_context. rewrite bind_gets. cbn [t_config]. rewrite bool_decide_true by done.
    rewrite bind_call, bind_when_call. unfold bind at 1. unfold prepare_server. rewrite bind_gets. cbn [t_config].
    unfold call_or_throw, no_tls_failure. rewrite !bind_call, !bind_when_call.
    assert (Hs : forall s ctx p, exists ctx' p', (bind (when (negb (empty (plain_http_response s)))
        match file_text (plain_http_response s) with
        | None => throw (runtime_error "plain_http_response")
        | Some text => modify (fun t => t <| t_plain := text |>)
        end) (fun _ => if empty (dhparam s) then Conf.call TmpDhDefault else Conf.call (TmpDhFile (dhparam s))))
        (mkTls c ctx p) = Ret (tt, mkTls c ctx' p') \/ plain_http_response s <> plain_http_response (ssl c)).
    { intros s ctx p. destruct (decide (plain_http_response s = plain_http_response (ssl c))) as [Ep|]; [|by exists ctx, p; right].
      unfold empty at 1. case_bool_decide as Ee; cbn [negb when].
      - destruct (empty (dhparam s)); eexists _, _; left; reflexivity.
      - destruct Hp as [Hp|[text Ht]]; [congruence|]. rewrite Ep, Ht.
        destruct (empty (dhparam s)); eexists _, _; left; reflexivity. }
    destruct (reuse_session (ssl c)).
    + rewrite bind_assoc, bind_call, bind_when_call.
      match goal with |- context [bind _ _ (mkTls c ?x ?y)] => destruct (Hs (ssl c) x y) as (ctx' & p' & [-> |?]); [|done] end.
      cbn. unfold prepare_ciphers. rewrite !bind_when_call, when_call. eauto.
    + rewrite bind_assoc, !bind_call.
      match goal with |- context [bind _ _ (mkTls c ?x ?y)] => destruct (Hs (ssl c) x y) as (ctx' & p' & [-> |?]); [|done] end.
      cbn. unfold prepare_ciphers. rewrite !bind_when_call, when_call. eauto.
  - rewrite prepare_run_client by done. unfold no_tls_failure. rewrite andb_false_r. eexists. split; [reflexivity|]. done.
Qed.

(** *** The calls, in order *)
Definition icmp_of (c : Config) : bool * Config := try_prepare_pipeline_proxy_icmp icmpd_lock is_v4 c.
Lemma icmp_config c : exists b, snd (icmp_of c) = c <| pipeline_proxy_icmp := b |>.
Proof.
  unfold icmp_of, try_prepare_pipeline_proxy_icmp. destruct (pipeline_proxy_icmp c) eqn:E;
    [|exists false; rewrite <- E; by destruct c].
  repeat case_match; (by exists false) || (by exists true).
Qed.
Definition udp_calls (c : Config) : list sv_call :=
  UdpOpen :: opt (is_type c NAT) (NatUdpBind (pipeline_proxy_icmp c)) ++ [UdpBuffers (udp_forward_socket_buf c); UdpBind].
Definition option_calls (t : TCPConfig) : list sv_call :=
  opt (no_delay t) SetNoDelay ++ opt (keep_alive t) SetKeepAlive ++
  opt (fast_open t && enable_fastopen) (SetFastOpen (fast_open_qlen t)).
Definition listen_calls (c : Config) : list sv_call :=
  [Resolve (local_addr c) (local_port c); AcceptorOpen; SetReuseAddress] ++
  opt (is_type c NAT && use_tproxy (tcp c)) SetTransparent ++ opt (reuse_port (tcp c) && enable_reuse_port) SetReusePort ++
  [AcceptorBind; AcceptorListen] ++ opt (fst (icmp_of c)) (NewIcmpd (is_type c NAT)) ++
  (if is_type c FORWARD || is_type c NAT then udp_calls (snd (icmp_of c)) else []) ++ option_calls (tcp c).

Lemma prepare_icmpd_run s :
  exists s', prepare_icmpd no_failure is_v4 icmpd_lock s = Ret (tt, s') /\ v_config s' = snd (icmp_of (v_config s)) /\
    v_calls s' = v_calls s ++ opt (fst (icmp_of (v_config s))) (NewIcmpd (is_type (v_config s) NAT)).
Proof.
  unfold prepare_icmpd. rewrite bind_gets. unfold id. fold (icmp_of (v_config s)).
  destruct (icmp_config (v_config s)) as [b Eb]. destruct (icmp_of (v_config s)) as [ok c1]. cbn [fst snd] in *. subst c1.
  destruct ok; eexists; (split; [reflexivity|]); split; try reflexivity. cbn [opt]. by rewrite app_nil_r.
Qed.
Lemma prepare_icmpd_rest s s' :
  prepare_icmpd no_failure is_v4 icmpd_lock s = Ret (tt, s') ->
  v_context s' = v_context s /\ v_auth s' = v_auth s /\ v_dns s' = v_dns s.
Proof.
  unfold prepare_icmpd. rewrite bind_gets. destruct (try_prepare_pipeline_proxy_icmp _ _ _) as [[] c1];
    intros [= <-]; done.
Qed.
Lemma open_udp_run s :
  exists s', open_udp no_failure true s = Ret (true, s') /\ v_config s' = v_config s /\
    v_calls s' = v_calls s ++ udp_calls (v_config s).
Proof.
  unfold open_udp. rewrite ?attempt_call, bind_gets. unfold id. cbn [negb]. rewrite andb_false_r, sbind_call.
  unfold bind at 1, modify at 1. rewrite sbind_when_call, !sbind_call.
  eexists. split; [reflexivity|]. split; [done|]. unfold udp_calls, add. cbn. by rewrite <- !app_assoc.
Qed.
Lemma set_options_run t s : set_options no_failure enable_fastopen t s = Ret (tt, add s (option_calls t)).
Proof. unfold set_options. rewrite ?attempt_call, !sbind_when_call, swhen_call, !add_add. unfold option_calls. by rewrite <- ?app_assoc. Qed.
Lemma listen_run s :
  exists s', listen no_failure is_v4 true icmpd_lock enable_reuse_port enable_fastopen s = Ret (true, s') /\
    v_config s' = snd (icmp_of (v_config s)) /\ v_calls s' = v_calls s ++ listen_calls (v_config s).
Proof.
  unfold listen. rewrite ?attempt_call, bind_gets. unfold id. rewrite !sbind_call, !sbind_when_call, !sbind_call, !add_add.
  unfold bind at 1. match goal with |- context [prepare_icmpd _ _ _ ?x] => destruct (prepare_icmpd_run x) as (s1 & -> & C1 & L1) end.
  change (v_config (add s _)) with (v_config s) in C1, L1. destruct (icmp_config (v_config s)) as [b Eb].
  unfold listen_calls. set (c := v_config s) in *.
  destruct (is_type c FORWARD || is_type c NAT).
  - unfold bind at 1. destruct (open_udp_run s1) as (s2 & -> & C2 & L2). unfold bind. rewrite set_options_run.
    eexists. split; [reflexivity|]. split; [change (v_config s2 = snd (icmp_of c)); congruence|].
    match goal with |- _ = ?r => change (v_calls s2 ++ option_calls (tcp c) = r) end. rewrite L2, L1, C1. cbn. rewrite <- !app_assoc. cbn. by rewrite <- ?app_assoc.
  - unfold bind, ret. rewrite set_options_run. eexists. split; [reflexivity|]. split; [exact C1|].
    match goal with |- _ = ?r => change (v_calls s1 ++ option_calls (tcp c) = r) end. rewrite L1. cbn. rewrite <- !app_assoc. cbn. by rewrite <- ?app_assoc.
Qed.

Definition tun_call (c : Config) : sv_call :=
  NewTunDev (tun_name (tun c)) (net_ip (tun c)) (net_mask (tun c)) (mtu (tun c)) (tun_fd (tun c)).
Definition construct_calls (c : Config) : list sv_call :=
  opt (is_type c CLIENT_TUN || is_type c SERVERT_TUN) (tun_call c) ++
  (if is_type c CLIENT_TUN then [] else listen_calls c) ++
  opt (is_type c SERVER && (mysql_enabled (mysql c) && enable_mysql)) NewAuthenticator ++
  opt (dns_enabled (dns c) && negb (is_type c SERVER || is_type c FORWARD) && dns_lock) NewDns.
Definition run_calls (c : Config) : list sv_call :=
  (if is_type c CLIENT_TUN then [] else
     AsyncAccept :: opt (is_type c FORWARD || is_type c NAT) UdpAsyncRead ++ [LocalEndpoint]) ++ [RunIo].

Lemma is_type_same c c' t : run_type c' = run_type c -> is_type c' t = is_type c t.
Proof. unfold is_type. by intros ->. Qed.
Lemma run_run s : exists s', run s = Ret (tt, s') /\ v_calls s' = v_calls s ++ run_calls (v_config s).
Proof.
  unfold ServiceStart.run, run_calls. rewrite bind_gets. unfold id. destruct (is_type (v_config s) CLIENT_TUN); cbn [negb when].
  - eexists. split; [reflexivity|]. done.
  - rewrite bind_assoc, sbind_call, bind_assoc, sbind_when_call, sbind_call, !add_add. eexists. split; [reflexivity|].
    unfold add. cbn. rewrite <- ?app_assoc. cbn. by rewrite <- ?app_assoc.
Qed.
Lemma construct_run c :
  plain_http_response (ssl c) = [] \/ is_Some (file_text (plain_http_response (ssl c))) ->
  exists s, construct false (new_Service c) = Ret (tt, s) /\ v_calls s = construct_calls c /\
    run_type (v_config s) = run_type c.
Proof.
  intros Hp. unfold ServiceStart.construct. rewrite bind_gets. cbn [id v_config new_Service negb]. rewrite andb_false_r.
  (* the device and the listener *)
  assert (H1 : exists s1, (when (is_type c CLIENT_TUN || is_type c SERVERT_TUN)
        (call (tun_call c) ;;; modify (fun s => s <| v_tundev := true |>)) ;;;
      if is_type c CLIENT_TUN then ret true
      else listen no_failure is_v4 true icmpd_lock enable_reuse_port enable_fastopen) (new_Service c) = Ret (true, s1) /\
    v_calls s1 = opt (is_type c CLIENT_TUN || is_type c SERVERT_TUN) (tun_call c) ++
      (if is_type c CLIENT_TUN then [] else listen_calls c) /\
    exists b, v_config s1 = c <| pipeline_proxy_icmp := b |>).
  { assert (H0 : exists s0, when (is_type c CLIENT_TUN || is_type c SERVERT_TUN)
        (call (tun_call c) ;;; modify (fun s => s <| v_tundev := true |>)) (new_Service c) = Ret (tt, s0) /\
      v_calls s0 = opt (is_type c CLIENT_TUN || is_type c SERVERT_TUN) (tun_call c) /\ v_config s0 = c).
    { destruct (_ || _); eexists; (split; [reflexivity|]); done. }
    destruct H0 as (s0 & E0 & L0 & C0). unfold bind at 1. rewrite E0. destruct (is_type c CLIENT_TUN).
    - eexists. split; [reflexivity|]. rewrite app_nil_r. split; [exact L0|]. exists (pipeline_proxy_icmp c).
      rewrite C0. by destruct c.
    - destruct (listen_run s0) as (s1 & -> & C1 & L1). exists s1. split; [done|]. rewrite L1, L0, C0. split; [done|].
      rewrite C1, C0. apply icmp_config. }
  destruct H1 as (s1 & E1 & L1 & b & C1). unfold bind at 1.
  change (NewTunDev (tun_name (tun c)) (net_ip (tun c)) (net_mask (tun c)) (mtu (tun c)) (tun_fd (tun c))) with (tun_call c).
  rewrite E1. cbn [negb]. unfold bind at 1, prepare_context.
  destruct (prepare_returns (v_config s1)) as (t & -> & Ht & Hd); [by rewrite C1|].
  assert (Hsame : run_type (v_config s1) = run_type c /\ dns (v_config s1) = dns c) by (by rewrite C1).
  destruct Hsame as [Hr1 Hd1]. rewrite Hr1 in Ht. rewrite Hd1 in Hd.
  match goal with |- context [bind (when ?x _) _ ?y] => set (s2 := y); set (a := x) end.
  assert (H3 : exists s3, when a (call NewAuthenticator ;;; modify (fun s => s <| v_auth := true |>)) s2 = Ret (tt, s3) /\
    v_calls s3 = v_calls s1 ++ opt a NewAuthenticator /\ v_config s3 = t_config t).
  { subst s2. destruct a; eexists; (split; [reflexivity|]); split; try done. cbn. by rewrite app_nil_r. }
  destruct H3 as (s3 & E3 & L3 & C3). unfold bind at 1. rewrite E3. cbn [when]. unfold start_dns. rewrite bind_gets. unfold id.
  rewrite C3, Hd. rewrite !(is_type_same c (t_config t)) by (by rewrite Ht).
  set (d := dns_enabled (dns c) && _ && _). destruct d eqn:Ed; cbn [when].
  - eexists. split; [reflexivity|]. unfold construct_calls. subst d. rewrite Ed. cbn. rewrite L3, L1, <- !app_assoc.
    split; [done|]. by rewrite C3, Ht.
  - exists s3. split; [done|]. unfold construct_calls. subst d. rewrite Ed. cbn [opt]. rewrite L3, L1, app_nil_r, <- !app_assoc.
    split; [done|]. by rewrite C3, Ht.
Qed.

(** *** Which calls are made *)
Ltac members :=
  repeat first [rewrite elem_skip_opt by discriminate | rewrite elem_skip_cons by discriminate | rewrite elem_of_app |
    rewrite elem_of_cons | rewrite elem_of_opt | rewrite elem_of_nil | rewrite andb_true_iff];
  intuition congruence.

(** C35: a service whose sockets and files give no error starts with exactly the
    parts its configuration asks for: a listener unless it only serves a tun device,
    the UDP socket of a forwarding client, the device, the database of a server, the
    DNS server and the ICMP relay; the loop is entered last. *)
Theorem service_starts_as_configured c :
  plain_http_response (ssl c) = [] \/ is_Some (file_text (plain_http_response (ssl c))) ->
  exists s, (construct false ;;; run) (new_Service c) = Ret (tt, s) /\
    (exists l, v_calls s = l ++ [RunIo]) /\
    (AsyncAccept ∈ v_calls s <-> run_type c <> CLIENT_TUN) /\
    (AcceptorListen ∈ v_calls s <-> run_type c <> CLIENT_TUN) /\
    (UdpAsyncRead ∈ v_calls s <-> run_type c = FORWARD \/ run_type c = NAT) /\
    (UdpBind ∈ v_calls s <-> run_type c = FORWARD \/ run_type c = NAT) /\
    (tun_call c ∈ v_calls s <-> run_type c = CLIENT_TUN \/ run_type c = SERVERT_TUN) /\
    (NewAuthenticator ∈ v_calls s <-> run_type c = SERVER /\ mysql_enabled (mysql c) = true /\ enable_mysql = true) /\
    (NewDns ∈ v_calls s <->
      dns_enabled (dns c) = true /\ run_type c <> SERVER /\ run_type c <> FORWARD /\ dns_lock = true) /\
    (NewIcmpd (is_type c NAT) ∈ v_calls s <->
      pipeline_proxy_icmp c = true /\ is_v4 = true /\ pipeline_num c <> 0 /\
      (run_type c = SERVER \/ run_type c = NAT /\ icmpd_lock = true)).
Proof.
  intros Hp. destruct (construct_run c Hp) as (s1 & E1 & L1 & R1). destruct (run_run s1) as (s2 & E2 & L2).
  exists s2. unfold bind at 1. rewrite E1, E2. split; [done|]. rewrite L2, L1.
  split; [unfold run_calls; rewrite !app_assoc; eauto|].
  unfold construct_calls, run_calls, listen_calls, option_calls, udp_calls, tun_call.
  destruct (icmp_config c) as [b ->]. pose proof (is_type_same c (v_config s1)) as Hs.
  rewrite !Hs, (is_type_same c (c <| pipeline_proxy_icmp := b |>)) by done. clear Hs.
  pose proof (proj2 (proxy_icmp_iff icmpd_lock is_v4 c)) as Hok. fold (icmp_of c) in Hok.
  unfold is_type. destruct (icmp_of c) as [ok c']. cbn [fst snd] in *. clear E1 E2 L1 L2 R1.
  destruct (run_type c); types.
  all: rewrite <- ?app_assoc; cbn [app]; rewrite <- ?app_assoc; cbn [app]; rewrite <- ?app_assoc; cbn [app].
  all: do 7 (apply conj; [members|]); members.

Qed.
End Starts.

Lemma service_starts_as_configured_witness :
  let c := new_Config <| run_type := NAT |> <| pipeline_num := 2 |> <| pipeline_proxy_icmp := true |> in
  exists s, (construct no_failure true true true false (fun _ => None) no_tls_failure true false true true true false false ;;;
      run no_failure) (new_Service c) = Ret (tt, s) /\
    UdpAsyncRead ∈ v_calls s /\ NewIcmpd true ∈ v_calls s /\ NewDns ∉ v_calls s.
Proof.
  intros c. destruct (service_starts_as_configured true true false (fun _ => None) true false true true false c)
    as (s & E & _ & _ & _ & Hu & _ & _ & _ & Hd & Hi); [by left|].
  exists s. split; [exact E|]. split; [apply Hu; by right|]. split; [apply Hi; split_and!; try done; by right|].
  intros H. apply Hd in H. destruct H as [H _]. discriminate H.
Defined.

(** ** Stopping, a socket that cannot be bound, new certificates *)

(** The pipelines that are still there *)
Definition living (ps : list (option nat)) : list nat := omap id ps.
Definition stop_calls (s : Service) : list sv_call :=
  opt (v_tundev s) TunDestroy ++ opt (v_dns s) DnsDestroy ++ map PipelineDestroy (living (v_pipelines s)) ++
  AcceptorCancel :: (if v_udp_open s then [UdpCancel; UdpClose] else []) ++ [StopIo].

Lemma destroy_pipelines_run ps s : destroy_pipelines ps s = Ret (tt, add s (map PipelineDestroy (living ps))).
Proof.
  induction ps as [|[p|] ps IH] in s |- *; cbn [destroy_pipelines].
  - unfold skip, ret, add. destruct s; cbn. by rewrite app_nil_r.
  - rewrite (sbind_call (PipelineDestroy p)), IH, add_add. done.
  - apply IH.
Qed.

(** [stop] never throws: it destroys what there is, pipelines that are still
    there included, forgets the pipelines and closes the UDP socket before it
    stops the loop. *)
Theorem stop_releases s :
  stop s = Ret (tt, s <| v_calls ::= fun l => l ++ stop_calls s |> <| v_pipelines := [] |> <| v_udp_open := false |>).
Proof.
  unfold stop. rewrite bind_gets. unfold id. rewrite !attempt_call, !sbind_when_call, add_add.
  unfold bind at 1. rewrite destroy_pipelines_run, add_add. unfold bind at 1, modify at 1. rewrite sbind_call.
  unfold stop_calls. destruct (v_udp_open s) eqn:E; cbn; unfold add; destruct s; cbn in *; subst; cbn;
    unfold attempt, modify; cbn; by rewrite <- !app_assoc.
Qed.

(** A transparent proxy whose UDP socket cannot be bound: the constructor stops the
    service and returns before it prepares the TLS context, the database and DNS. *)
Theorem unbound_proxy_stops is_v4 icmpd_lock dns_lock file_text tls13 keylog reuse_port fastopen mysql c :
  run_type c = NAT ->
  exists s l, construct no_failure is_v4 false icmpd_lock dns_lock file_text no_tls_failure tls13 keylog true
      reuse_port fastopen mysql false (new_Service c) = Ret (tt, s) /\
    v_calls s = l ++ [AcceptorCancel; UdpCancel; UdpClose; StopIo] /\
    v_udp_open s = false /\ v_context s = [] /\ v_auth s = false /\ v_dns s = false.
Proof.
  intros E. unfold construct. rewrite bind_gets. cbn [id v_config new_Service].
  assert (Ht : forall t, is_type c t = bool_decide (NAT = t)) by (intros; unfold is_type; by rewrite E).
  rewrite !Ht. types. unfold listen. cbn [when]. unfold bind at 2, skip at 1, ret at 1.
  unfold bind at 1. rewrite bind_gets. cbn [id v_config new_Service].
  rewrite !Ht. types. change (attempt SetTransparent) with (call no_failure SetTransparent).
  rewrite !sbind_call, !sbind_when_call, !sbind_call, !add_add. unfold bind at 1.
  match goal with |- context [prepare_icmpd _ _ _ ?x] => destruct (prepare_icmpd_run is_v4 icmpd_lock x) as (s1 & E1 & C1 & L1) end.
  destruct (prepare_icmpd_rest is_v4 icmpd_lock _ s1 E1) as (X1 & A1 & D1). rewrite E1.
  destruct (icmp_config is_v4 icmpd_lock c) as [b Eb]. change (v_config (add (new_Service c) _)) with c in C1. rewrite Eb in C1.
  unfold bind at 1. unfold open_udp. rewrite bind_gets. unfold id.
  rewrite C1, (is_type_same c (c <| pipeline_proxy_icmp := b |>)), Ht by done. types.
  rewrite sbind_call. unfold bind at 1, modify at 1.
  change (attempt (NatUdpBind b)) with (call no_failure (NatUdpBind b)).
  rewrite sbind_call. unfold bind at 1. rewrite stop_releases.
  eexists _, _. split; [reflexivity|]. split; [|by cbn; rewrite X1, A1, D1].
  unfold stop_calls. cbn. rewrite !app_assoc. reflexivity.
Qed.

(** Certificates are reloaded by a server only; the listener then accepts with them. *)
Theorem reload_replaces_certificate s :
  exists s', reload_cert no_failure s = Ret (tt, s') /\
    v_calls s' = v_calls s ++
      (if is_type (v_config s) SERVER
       then [ReloadChain (cert (ssl (v_config s))); ReloadKey (key (ssl (v_config s))); AcceptorCancel; AsyncAccept] else []).
Proof.
  unfold reload_cert. rewrite bind_gets. unfold id. destruct (is_type _ _); cbn [when].
  - eexists. split; [reflexivity|]. cbn. by rewrite <- ?app_assoc.
  - exists s. by rewrite app_nil_r.
Qed.
End ServiceStart.
