(* ===== verification/TestCases.v ===== *)
(** * The test cases of the sources

    [dns_header::test_cases], [dns_question::test_cases], [dns_answer::test_cases]
    ([src/src/proto/dns_header.cpp]) and [DomainMatcher::test_cases]
    ([src/src/core/utils.cpp]), run on the models of these components: a check that
    fails throws, as the macros of [utils.h] do. *)

From Stdlib Require Import ZArith Lia String.
From S2P Require Import Prelude Utils DomainMatcher Dns.
Import Istream DnsHeader DnsMessage Fields.
Local Open Scope Z_scope.

Module TestCases.

(** [_test_case_assert] and [_test_case_assert_str] *)
Definition test_case_assert {A} `{EqDecision A} (exp exp1 : A) : outcome unit :=
  if decide (exp = exp1) then Ret tt else Throw (runtime_error "test_cases failed").

(** [_test_case]: set a field and read it back *)
Definition test_case (hdr : dns_header) (c : field * Z) : outcome dns_header :=
  let '(f, val) := c in
  let hdr := set_field f hdr val in
  if val =? get_field f hdr then Ret hdr else Throw (runtime_error "Error: is not same!!!").
Fixpoint test_case_list (hdr : dns_header) (l : list (field * Z)) : outcome dns_header :=
  match l with
  | [] => Ret hdr
  | c :: l => let! hdr := test_case hdr c in test_case_list hdr l
  end.
(** [_test_case_call_assert] *)
Fixpoint test_case_call_asserts (hdr : dns_header) (l : list (field * Z)) : outcome unit :=
  match l with
  | [] => Ret tt
  | (f, val) :: l =>
    if val =? get_field f hdr then test_case_call_asserts hdr l
    else Throw (runtime_error "Error: final value is not correct!!")
  end.

Definition header_test_cases : outcome unit :=
  let! hdr := test_case_list new_header
  [(F_ID, u16 123456); (F_ID, u16 123); (F_QR, u8 1); (F_QR, u8 0); (F_Opcode, u8 1);
   (F_Opcode, u8 0); (F_Opcode, u8 7); (F_AA, u8 0); (F_AA, u8 1); (F_TC, u8 0); (F_TC, u8 1);
   (F_RD, u8 0); (F_RD, u8 1); (F_RA, u8 0); (F_RA, u8 1); (F_Z, u8 1); (F_Z, u8 0); (F_Z, u8 7);
   (F_RCODE, u8 1); (F_RCODE, u8 0); (F_RCODE, u8 7); (F_QDCOUNT, u16 123456);
   (F_QDCOUNT, u16 123); (F_ANCOUNT, u16 123456); (F_ANCOUNT, u16 123); (F_NSCOUNT, u16 123456);
   (F_NSCOUNT, u16 123); (F_ARCOUNT, u16 123456); (F_ARCOUNT, u16 123)] in
  test_case_call_asserts hdr
  [(F_ID, u16 123); (F_QR, u8 0); (F_Opcode, u8 7); (F_AA, u8 1); (F_TC, u8 1); (F_RD, u8 1);
   (F_RA, u8 1); (F_Z, u8 7); (F_RCODE, u8 7); (F_QDCOUNT, u16 123); (F_ANCOUNT, u16 123);
   (F_NSCOUNT, u16 123); (F_ARCOUNT, u16 123)].

(** What uninitialised memory holds, and the text of an IPv6 address *)
Section Machine.
Context (buf : bytes) (qtype0 qclass0 : Z) (v6_to_string : bytes -> bytes).
(** A name of these messages has at most 20 labels and pointers. *)
Definition fuel : nat := 20.

Definition question_test_case (c : string * Z * Z) : outcome unit :=
  let '(domain, qtype, qclass) := c in
  let question := mkQuestion (str domain) qtype qclass in
  let! '(_, question1) := read_question buf qtype0 qclass0 fuel (istringstream (write_question [] question)) in
  let! _ := test_case_assert (QNAME question) (QNAME question1) in
  let! _ := test_case_assert (QTYPE question) (QTYPE question1) in
  test_case_assert (QCLASS question) (QCLASS question1).
Fixpoint question_test_list (l : list (string * Z * Z)) : outcome unit :=
  match l with
  | [] => Ret tt
  | c :: l => let! _ := question_test_case c in question_test_list l
  end.

Definition question_test_cases : outcome unit :=
  let! _ := question_test_list
  [("", 0, 0); ("", 1, 1); ("", 123, 112); ("", 0, 0); ("", 1, 1); ("", 65535, 65535);
   ("ab", 0, 0); ("ab", 1, 1); ("ab", 123, 112); ("ab", 0, 0); ("ab", 1, 1); ("ab", 65535, 65535);
   ("ab.cd", 0, 0); ("ab.cd", 1, 1); ("ab.cd", 123, 112); ("ab.cd", 0, 0); ("ab.cd", 1, 1);
   ("ab.cd", 65535, 65535); ("ab.cd.com", 0, 0); ("ab.cd.com", 1, 1); ("ab.cd.com", 123, 112);
   ("ab.cd.com", 0, 0); ("ab.cd.com", 1, 1); ("ab.cd.com", 65535, 65535); ("ab.cd12.com", 0, 0);
   ("ab.c33d.com", 1, 1); ("ab.22cd.com", 65535, 65535)] in
  let '(i, header) := read_header (istringstream baidu_query) new_header in
  let! _ := test_case_assert (QDCOUNT header) 1 in
  let! _ := test_case_assert (QR header) QR_QUERY in
  let! '(_, qt) := read_question buf qtype0 qclass0 fuel i in
  let! _ := test_case_assert (QNAME qt) (str "www.baidu.com") in
  let! _ := test_case_assert (QTYPE qt) QTYPE_AAAA_RECORD in
  test_case_assert (QCLASS qt) QCLASS_INTERNET.

(** The answer with an authority and an additional record *)
Definition baidu_aaaa_answer : bytes := hex
  [0x6c; 0xad; 0x81; 0x80; 0x00; 0x01; 0x00; 0x01; 0x00; 0x01; 0x00; 0x01; 0x03; 0x77; 0x77; 0x77;
   0x05; 0x62; 0x61; 0x69; 0x64; 0x75; 0x03; 0x63; 0x6f; 0x6d; 0x00; 0x00; 0x1c; 0x00; 0x01; 0xc0;
   0x0c; 0x00; 0x05; 0x00; 0x01; 0x00; 0x00; 0x00; 0x41; 0x00; 0x0f; 0x03; 0x77; 0x77; 0x77; 0x01;
   0x61; 0x06; 0x73; 0x68; 0x69; 0x66; 0x65; 0x6e; 0xc0; 0x16; 0xc0; 0x2f; 0x00; 0x06; 0x00; 0x01;
   0x00; 0x00; 0x01; 0x1d; 0x00; 0x2d; 0x03; 0x6e; 0x73; 0x31; 0xc0; 0x2f; 0x10; 0x62; 0x61; 0x69;
   0x64; 0x75; 0x5f; 0x64; 0x6e; 0x73; 0x5f; 0x6d; 0x61; 0x73; 0x74; 0x65; 0x72; 0xc0; 0x10; 0x77;
   0x94; 0xcb; 0x07; 0x00; 0x00; 0x00; 0x05; 0x00; 0x00; 0x00; 0x05; 0x00; 0x27; 0x8d; 0x00; 0x00;
   0x00; 0x0e; 0x10; 0x00; 0x00; 0x29; 0x02; 0x00; 0x00; 0x00; 0x00; 0x00; 0x00; 0x00].
Definition QTYPE_SOA : Z := 6.

(** [v[i]] of a vector *)
Definition nth_ {A} (l : list A) (i : nat) : outcome A :=
  match l !! i with Some x => Ret x | None => Undef EmptyContainer end.
Definition check_question (a : dns_answer) (qtype : Z) : outcome unit :=
  let! _ := test_case_assert (length (questions a)) 1%nat in
  let! q := nth_ (questions a) 0 in
  let! _ := test_case_assert (QNAME q) (str "www.baidu.com") in
  let! _ := test_case_assert (QTYPE q) qtype in
  test_case_assert (QCLASS q) QCLASS_INTERNET.
Definition check_answer (a : answer) (type class ttl : Z) (name : string) : outcome unit :=
  let! _ := test_case_assert (TYPE a) type in
  let! _ := test_case_assert (CLASS a) class in
  let! _ := test_case_assert (TTL a) ttl in
  test_case_assert (NAME a) (str name).

(** The first message: three answers *)
Definition answer_test_case1 : outcome unit :=
  let! '(_, an) := read_dns_answer buf qtype0 qclass0 v6_to_string fuel (istringstream baidu_answer) in
  let! _ := check_question an QTYPE_A_RECORD in
  let! _ := test_case_assert (length (answers an)) 3%nat in
  let! a := nth_ (answers an) 0 in
  let! _ := check_answer a QTYPE_CNAME_RECORD QCLASS_INTERNET 0x220 "www.baidu.com" in
  let! _ := test_case_assert (RD a) (str "www.a.shifen.com") in
  let! a := nth_ (answers an) 1 in
  let! _ := check_answer a QTYPE_A_RECORD QCLASS_INTERNET 0x29 "www.a.shifen.com" in
  let! _ := test_case_assert (A_str a) (str "180.101.49.12") in
  let! a := nth_ (answers an) 2 in
  let! _ := check_answer a QTYPE_A_RECORD QCLASS_INTERNET 0x29 "www.a.shifen.com" in
  test_case_assert (A_str a) (str "180.101.49.11").
(** The second: an answer, an authority and an additional record *)
Definition answer_test_case2 : outcome unit :=
  let! '(_, an) := read_dns_answer buf qtype0 qclass0 v6_to_string fuel (istringstream baidu_aaaa_answer) in
  let! _ := test_case_assert (QDCOUNT (header an)) 1 in
  let! _ := test_case_assert (ANCOUNT (header an)) 1 in
  let! _ := test_case_assert (NSCOUNT (header an)) 1 in
  let! _ := test_case_assert (ARCOUNT (header an)) 1 in
  let! _ := test_case_assert (QR (header an)) QR_RESPONE in
  let! _ := check_question an QTYPE_AAAA_RECORD in
  let! _ := test_case_assert (length (answers an)) 1%nat in
  let! a := nth_ (answers an) 0 in
  let! _ := check_answer a QTYPE_CNAME_RECORD QCLASS_INTERNET 0x41 "www.baidu.com" in
  let! _ := test_case_assert (RD a) (str "www.a.shifen.com") in
  let! _ := test_case_assert (length (authorities an)) 1%nat in
  let! a := nth_ (authorities an) 0 in
  let! _ := check_answer a QTYPE_SOA QCLASS_INTERNET 0x11d "a.shifen.com" in
  let! _ := test_case_assert (length (additionals an)) 1%nat in
  let! a := nth_ (additionals an) 0 in
  check_answer a 41 0x200 0 "".
Definition answer_test_cases : outcome unit :=
  let! _ := answer_test_case1 in answer_test_case2.
End Machine.

(** [DomainMatcher::test_cases] *)
Fixpoint matcher_asserts (matcher : list DomainMatcher.DomainLinkData) (l : list (string * bool)) : outcome unit :=
  match l with
  | [] => Ret tt
  | (domain, b) :: l =>
    let! _ := test_case_assert (DomainMatcher.is_match matcher (str domain)) b in matcher_asserts matcher l
  end.
Definition matcher_test_cases : outcome unit :=
  let '(count, matcher) := DomainMatcher.load_from_stream DomainMatcher.gfw_list [] in
  let! _ := test_case_assert count 6 in
  matcher_asserts matcher
  [("com", false); ("singledomain", false); ("singledomain-in-gfw", true);
   ("www.baidu.com", false); ("aa.www.baidu.com", false); ("android.clients.google.com", true);
   ("facebook.com", true); ("api.facebook.com", true); ("route.api.facebook.com", true);
   ("www.jd.com", false); ("jd.com", false); ("h5.china.com.cn", false); ("h5.some.com.cn", true);
   ("some.com.cn", true); ("others.com", false); ("www.others.com", false);
   ("api.others.com", true); ("www.api.others.com", true)].

(** The test cases of the sources pass, whatever uninitialised memory holds. *)
Theorem test_cases_pass buf qtype0 qclass0 v6_to_string :
  header_test_cases = Ret tt /\ question_test_cases buf qtype0 qclass0 = Ret tt /\
  answer_test_cases buf qtype0 qclass0 v6_to_string = Ret tt /\ matcher_test_cases = Ret tt.
Proof.
  split_and!; vm_compute; reflexivity.
Qed.
End TestCases.
