(* ===== verification/NatSockets.v ===== *)
(** * Sockets of a transparent proxy and lock files

    The system-call helpers of [src/src/core/utils.cpp]: socket options, the
    original destination of a connection or a datagram, and file locks.  The
    answers of the kernel are parameters; the octets they consist of are decoded as
    the code does. *)

From Stdlib Require Import ZArith Lia String.
From S2P Require Import Prelude Utils Address ConfigLoad ConfigTheorems ServiceStart.
Local Open Scope Z_scope.
Local Open Scope handler_scope.

Module NatSockets.

(** ** Socket options *)

Inductive level := SOL_SOCKET | SOL_IP | SOL_IPV6.
Inductive optname :=
| SO_RCVBUF | SO_SNDBUF | SO_REUSEADDR
| IP_TRANSPARENT | IP_RECVORIGDSTADDR | IPV6_RECVORIGDSTADDR | IP_RECVTTL | IPV6_RECVHOPLIMIT.
Record sockopt := mkOpt { o_level : level; o_name : optname; o_value : Z }.
#[export] Instance level_eq_dec : EqDecision level.
Proof. solve_decision. Defined.
#[export] Instance optname_eq_dec : EqDecision optname.
Proof. solve_decision. Defined.
#[export] Instance sockopt_eq_dec : EqDecision sockopt.
Proof. solve_decision. Defined.

(** The options a socket has got so far *)
Definition NM := M (list sockopt).

Section Options.
(** Which settings the kernel refuses *)
Context (refused : sockopt -> bool).

(** [true]: [setsockopt] returned 0 *)
Definition setsockopt (l : level) (n : optname) (v : Z) : NM bool :=
  fun s => let o := mkOpt l n v in if refused o then Ret (false, s) else Ret (true, s ++ [o]).

Definition set_udp_send_recv_buf (buf_size : Z) : NM bool :=
  if 0 <? buf_size then
    ok <- setsockopt SOL_SOCKET SO_RCVBUF buf_size ;;
    if negb ok then ret false else
    ok <- setsockopt SOL_SOCKET SO_SNDBUF buf_size ;;
    if negb ok then ret false else ret true
  else ret true.

Definition prepare_transparent_socket (is_ipv4 : bool) : NM bool :=
  let opt := 1 in
  let sol := if is_ipv4 then SOL_IP else SOL_IPV6 in
  ok <- setsockopt sol IP_TRANSPARENT opt ;;
  if negb ok then ret false else ret true.

Definition prepare_nat_udp_bind (is_ipv4 recv_ttl : bool) : NM bool :=
  let opt := 1 in
  let sol := if is_ipv4 then SOL_IP else SOL_IPV6 in
  let ip_recv := if is_ipv4 then IP_RECVORIGDSTADDR else IPV6_RECVORIGDSTADDR in
  ok <- prepare_transparent_socket is_ipv4 ;;
  if negb ok then ret false else
  ok <- setsockopt sol ip_recv opt ;;
  if negb ok then ret false else
  ok <- setsockopt SOL_SOCKET SO_REUSEADDR opt ;;
  if negb ok then ret false else
  (if recv_ttl then
     _ <- setsockopt sol (if is_ipv4 then IP_RECVTTL else IPV6_RECVHOPLIMIT) opt ;; skip
   else skip) ;;;
  ret true.

(** Here the two levels are the other way round. *)
Definition prepare_nat_udp_target_bind (is_ipv4 : bool) (buf_size : Z) : NM bool :=
  let opt := 1 in
  let sol := if is_ipv4 then SOL_IPV6 else SOL_IP in
  ok <- setsockopt sol IP_TRANSPARENT opt ;;
  if negb ok then ret false else
  ok <- setsockopt SOL_SOCKET SO_REUSEADDR opt ;;
  if negb ok then ret false else
  (if 0 <? buf_size then _ <- set_udp_send_recv_buf buf_size ;; skip else skip) ;;;
  ret true.

(** The call in [UDPForwardSession::start_udp], with its [is_ipv4] *)
Definition is_v6 (a : address) : bool := match a with V6 _ => true | V4 _ _ _ _ => false end.
Definition bind_target (out_udp_endpoint : endpoint) (udp_socket_buf : Z) : NM bool :=
  let is_ipv4 := is_v6 (ep_address out_udp_endpoint) in
  prepare_nat_udp_target_bind is_ipv4 udp_socket_buf.
End Options.

(** ** Addresses from the kernel *)

(** [sockaddr_storage]: the family, and the octets after it *)
Definition AF_INET : Z := 2.
Definition AF_INET6 : Z := 10.
Record sockaddr_storage := mkSockaddr { ss_family : Z; ss_data : bytes }.
Definition sizeof_sockaddr_in : Z := 16.
Definition sizeof_sockaddr_in6 : Z := 28.
(** [struct sockaddr_storage addr{}] *)
Definition new_sockaddr : sockaddr_storage := mkSockaddr 0 (replicate 126 Byte.x00).

Inductive cmsg_type := T_ORIGDSTADDR | T_ORIGDSTADDR6 | T_TTL | T_HOPLIMIT | T_other (n : Z).
Record cmsghdr := mkCmsg { cmsg_level : level; cmsg_type_ : cmsg_type; CMSG_DATA : bytes }.
#[export] Instance cmsg_type_eq_dec : EqDecision cmsg_type.
Proof. solve_decision. Defined.

(** [memcpy(addr, data, n)] and the new family *)
Definition copy_sockaddr (addr : sockaddr_storage) (family : Z) (data : bytes) (n : Z) : outcome sockaddr_storage :=
  if zlen data <? n then Undef (OutOfView data n)
  else Ret (mkSockaddr family (take (Z.to_nat (n - 2)) (drop 2 data) ++ drop (Z.to_nat (n - 2)) (ss_data addr))).

(** [None]: it returned 1 *)
Fixpoint get_dstaddr (msg : list cmsghdr) (dstaddr : sockaddr_storage) : outcome (option sockaddr_storage) :=
  match msg with
  | [] => Ret None
  | cmsg :: msg =>
    if bool_decide (cmsg_level cmsg = SOL_IP) && bool_decide (cmsg_type_ cmsg = T_ORIGDSTADDR) then
      let! a := copy_sockaddr dstaddr AF_INET (CMSG_DATA cmsg) sizeof_sockaddr_in in Ret (Some a)
    else if bool_decide (cmsg_level cmsg = SOL_IPV6) && bool_decide (cmsg_type_ cmsg = T_ORIGDSTADDR6) then
      let! a := copy_sockaddr dstaddr AF_INET6 (CMSG_DATA cmsg) sizeof_sockaddr_in6 in Ret (Some a)
    else get_dstaddr msg dstaddr
  end.

Section Kernel.
(** The machine's order of the octets of an [int]; [inet_ntop]; Boost's parser *)
Context (native_int : bytes -> Z) (inet_ntop4 inet_ntop6 : bytes -> option bytes).
Context (make_address : bytes -> option address).

Fixpoint get_ttl (msg : list cmsghdr) : outcome Z :=
  match msg with
  | [] => Ret (-1)
  | cmsg :: msg =>
    if (bool_decide (cmsg_level cmsg = SOL_IP) && bool_decide (cmsg_type_ cmsg = T_TTL)) ||
       (bool_decide (cmsg_level cmsg = SOL_IPV6) && bool_decide (cmsg_type_ cmsg = T_HOPLIMIT)) then
      if zlen (CMSG_DATA cmsg) <? 4 then Undef (OutOfView (CMSG_DATA cmsg) 4)
      else Ret (native_int (take 4 (CMSG_DATA cmsg)))
    else get_ttl msg
  end.

(** [ntohs] of the port, which follows the family in both structures *)
Definition sin_port (a : sockaddr_storage) : Z :=
  256 * b2z (nth 0 (ss_data a) Byte.x00) + b2z (nth 1 (ss_data a) Byte.x00).
Definition sin_addr (a : sockaddr_storage) : bytes := take 4 (drop 2 (ss_data a)).
Definition sin6_addr (a : sockaddr_storage) : bytes := take 16 (drop 6 (ss_data a)).
Definition ntop (a : sockaddr_storage) : option bytes :=
  if ss_family a =? AF_INET then inet_ntop4 (sin_addr a) else inet_ntop6 (sin6_addr a).

Definition get_addr (a : sockaddr_storage) : bytes * Z :=
  match ntop a with
  | Some text => (text, sin_port a)
  | None => ([], 0)
  end.

(** [recv_target_endpoint] of a connection: what [getsockname] and the two
    [getsockopt] of the socket [fd] answer, [None] being an error.  An [ipstr] that
    [inet_ntop] did not write is not initialised. *)
Definition recv_target_endpoint (enable_nat : bool) (fd : Z) (use_tproxy : bool)
    (getsockname original_dst6 original_dst : option sockaddr_storage) : outcome (bytes * Z) :=
  if negb enable_nat then Ret (if use_tproxy then [] else str "0", u16 fd) else
  let answer :=
    if use_tproxy then getsockname
    else match original_dst6 with Some a => Some a | None => original_dst end in
  match answer with
  | None => Ret ([], 0)
  | Some destaddr =>
    match ntop destaddr with
    | Some ipstr => Ret (ipstr, sin_port destaddr)
    | None => Undef NoObject
    end
  end.

Definition DEFAULT_PACKET_SIZE : Z := 1397.
(** What [recvmsg] delivers: the datagram, its source and the control messages *)
Record received := mkReceived { r_datagram : bytes; r_source : sockaddr_storage; r_control : list cmsghdr }.
Record tproxy_result := mkTproxy {
  tp_target : bytes * Z;
  tp_endpoint : endpoint;               (* target_endpoint *)
  tp_buf : bytes;
  tp_len : Z;                           (* buf_len *)
  tp_ttl : Z
}.

(** [recv_tproxy_udp_msg] into a buffer of [room] octets: the kernel may write as
    much as [iov_len] says. *)
Definition recv_tproxy_udp_msg (room : Z) (recvmsg : option received) (target_endpoint : endpoint) (ttl : Z)
  : outcome tproxy_result :=
  let buf_size := DEFAULT_PACKET_SIZE * 2 in
  match recvmsg with
  | None => Ret (mkTproxy ([], 0) target_endpoint [] (-1) ttl)
  | Some m =>
    let data := take (Z.to_nat buf_size) (r_datagram m) in
    if room <? zlen data then Undef (OutOfView data room) else
    let! ttl := get_ttl (r_control m) in
    let! dst := get_dstaddr (r_control m) new_sockaddr in
    match dst with
    | None => Ret (mkTproxy ([], 0) target_endpoint data (zlen data) ttl)
    | Some dst_addr =>
      let target_dst := get_addr dst_addr in
      let src_dst := get_addr (r_source m) in
      match make_address (fst src_dst) with
      | None => Throw (system_error 22)
      | Some a => Ret (mkTproxy target_dst (mkEndpoint a (snd src_dst)) data (zlen data) ttl)
      end
    end
  end.

(** The call in [Service::udp_async_read]; the buffer has the room
    [prepare(udp_recv_buf)] makes. *)
Definition recv_datagram (udp_recv_buf : Z) (recvmsg : option received) (udp_recv_endpoint : endpoint)
  : outcome (tproxy_result * Z) :=
  let! r := recv_tproxy_udp_msg udp_recv_buf recvmsg udp_recv_endpoint (-1) in
  Ret (r, if tp_len r <? 0 then 0 else tp_len r).
End Kernel.

(** ** Lock files *)

Definition INVALID_LOCK_HANDLE : Z := -1.
(** The descriptors that are open, and those that hold a lock *)
Record Files := mkFiles { f_open : list Z; f_locked : list Z }.
#[export] Instance eta_Files : Settable Files := fun r => mkFiles (f_open r) (f_locked r).
Definition close_fd (fd : Z) (s : Files) : Files :=
  mkFiles (filter (fun x => x <> fd) (f_open s)) (filter (fun x => x <> fd) (f_locked s)).

Section Locks.
(** What [open] returns in a state, and whether a lock is free *)
Context (open_file : Files -> Z) (lock_free : Files -> bool).

Definition get_file_lock : M Files Z :=
  lock <- gets open_file ;;
  when (0 <=? lock) (modify (fun s => s <| f_open ::= cons lock |>)) ;;;
  if lock =? 0 then ret (-1) else
  s <- gets id ;;
  (* [flock] fails on a descriptor that is not open *)
  if (lock <? 0) || negb (lock_free s) then modify (close_fd lock) ;;; ret (-1)
  else modify (fun s => s <| f_locked ::= cons lock |>) ;;; ret lock.

Definition close_file_lock (file_fd : Z) : M Files Z :=
  if negb (file_fd =? INVALID_LOCK_HANDLE) then modify (close_fd file_fd) ;;; ret INVALID_LOCK_HANDLE
  else ret file_fd.

(** *** The lock of a class: the files and the static handle *)
Definition get_class_lock : M (Files * Z) bool :=
  fun '(s, _) => match get_file_lock s with
                 | Ret (h, s') => Ret (negb (h =? INVALID_LOCK_HANDLE), (s', h))
                 | Throw e => Throw e
                 | Undef u => Undef u
                 end.
Definition get_icmpd_lock : M (Files * Z) bool := get_class_lock.
Definition get_dns_lock : M (Files * Z) bool := get_class_lock.
(** The destructors *)
Definition release_class_lock : M (Files * Z) unit :=
  fun '(s, h) => match close_file_lock h s with
                 | Ret (h', s') => Ret (tt, (s', h'))
                 | Throw e => Throw e
                 | Undef u => Undef u
                 end.
End Locks.

(** ** Options are set at the level of the family *)

Definition family_level (a : address) : level := if is_v6 a then SOL_IPV6 else SOL_IP.
Definition buf_opts (size : Z) : list sockopt :=
  if 0 <? size then [mkOpt SOL_SOCKET SO_RCVBUF size; mkOpt SOL_SOCKET SO_SNDBUF size] else [].

(** The two negations of [is_ipv4], in [start_udp] and in
    [prepare_nat_udp_target_bind], cancel: the socket that answers for a target is
    made transparent at the level of the target's family. *)
Theorem nat_target_options ep size s :
  bind_target (fun _ => false) ep size s =
  Ret (true, s ++ [mkOpt (family_level (ep_address ep)) IP_TRANSPARENT 1; mkOpt SOL_SOCKET SO_REUSEADDR 1] ++ buf_opts size).
Proof.
  unfold bind_target, prepare_nat_udp_target_bind, set_udp_send_recv_buf, buf_opts, family_level.
  destruct (is_v6 (ep_address ep)), (0 <? size); cbn; unfold setsockopt; cbn; by rewrite <- ?app_assoc.
Qed.

(** The options of the UDP socket of a transparent proxy; receiving the TTL is
    optional, each of the others is needed. *)
Definition nat_bind_opts (is_ipv4 : bool) : list sockopt :=
  let sol := if is_ipv4 then SOL_IP else SOL_IPV6 in
  [mkOpt sol IP_TRANSPARENT 1; mkOpt sol (if is_ipv4 then IP_RECVORIGDSTADDR else IPV6_RECVORIGDSTADDR) 1;
   mkOpt SOL_SOCKET SO_REUSEADDR 1].
Definition ttl_opt (is_ipv4 : bool) : sockopt :=
  if is_ipv4 then mkOpt SOL_IP IP_RECVTTL 1 else mkOpt SOL_IPV6 IPV6_RECVHOPLIMIT 1.
Lemma nat_bind_run refused is_ipv4 recv_ttl s :
  exists s', prepare_nat_udp_bind refused is_ipv4 recv_ttl s = Ret (negb (existsb refused (nat_bind_opts is_ipv4)), s') /\
    (existsb refused (nat_bind_opts is_ipv4) = false ->
     s' = s ++ nat_bind_opts is_ipv4 ++ opt (recv_ttl && negb (refused (ttl_opt is_ipv4))) (ttl_opt is_ipv4)).
Proof.
  unfold prepare_nat_udp_bind, prepare_transparent_socket, nat_bind_opts, bind, setsockopt.
  destruct is_ipv4; cbn; repeat (match goal with |- context [refused ?o] => destruct (refused o) end; cbn); destruct recv_ttl; cbn;
    repeat (match goal with |- context [refused ?o] => destruct (refused o) end; cbn);
    (eexists; split; [reflexivity|]); intros ?; try discriminate; by rewrite <- ?app_assoc.
Qed.

(** *** The control messages fit into their buffer *)

(** [CMSG_SPACE] of a message of [n] octets *)
Definition CMSG_ALIGN (n : Z) : Z := (n + 7) / 8 * 8.
Definition CMSG_SPACE (n : Z) : Z := CMSG_ALIGN 16 + CMSG_ALIGN n.
(** The message an option makes the kernel add to each datagram *)
Definition control_length (o : sockopt) : option Z :=
  match o_name o with
  | IP_RECVORIGDSTADDR => Some sizeof_sockaddr_in
  | IPV6_RECVORIGDSTADDR => Some sizeof_sockaddr_in6
  | IP_RECVTTL | IPV6_RECVHOPLIMIT => Some 4
  | _ => None
  end.
Definition control_space (opts : list sockopt) : Z := foldr Z.add 0 (map CMSG_SPACE (omap control_length opts)).
Definition max_control_buffer_size : Z := 64.

Lemma control_space_app a b : control_space (a ++ b) = control_space a + control_space b.
Proof.
  unfold control_space. rewrite omap_app, map_app. induction (map CMSG_SPACE (omap control_length a)); cbn; lia.
Qed.
Lemma nat_bind_space is_ipv4 recv_ttl s' refused :
  prepare_nat_udp_bind refused is_ipv4 recv_ttl [] = Ret (true, s') ->
  (recv_ttl = true -> is_ipv4 = true) -> control_space s' <= max_control_buffer_size.
Proof.
  intros E Hv. destruct (nat_bind_run refused is_ipv4 recv_ttl []) as (s & E' & Hs). rewrite E in E'.
  injection E' as En <-. symmetry in En. apply negb_true_iff in En. rewrite (Hs En).
  destruct is_ipv4, recv_ttl; [| |by specialize (Hv eq_refl)|]; destruct (refused (ttl_opt _)); by vm_compute.
Qed.

(** ** The original destination *)
Import Codec.

Section Destination.
Context (native_int : bytes -> Z) (inet_ntop4 inet_ntop6 : bytes -> option bytes).
Context (make_address : bytes -> option address) (v6_to_string : bytes -> bytes).
Definition text_of (a : address) : bytes :=
  match a with V4 b0 b1 b2 b3 => v4_to_string b0 b1 b2 b3 | V6 b => v6_to_string b end.
Definition addr_wf (a : address) : Prop := match a with V4 _ _ _ _ => True | V6 b => zlen b = 16 end.
Definition ep_wf (e : endpoint) : Prop := addr_wf (ep_address e) /\ 0 <= ep_port e < 65536.
(** [inet_ntop] writes the text Boost writes too. *)
Context (ntop4_text : forall b0 b1 b2 b3, inet_ntop4 [b0; b1; b2; b3] = Some (v4_to_string b0 b1 b2 b3)).
Context (ntop6_text : forall b, zlen b = 16 -> inet_ntop6 b = Some (v6_to_string b)).

(** The octets of [sockaddr_in] and [sockaddr_in6] after the family *)
Definition sockaddr_fields (e : endpoint) (flow scope : bytes) : bytes :=
  match ep_address e with
  | V4 b0 b1 b2 b3 => be16 (ep_port e) ++ [b0; b1; b2; b3] ++ replicate 8 Byte.x00
  | V6 b => be16 (ep_port e) ++ flow ++ b ++ scope
  end.
Definition family_of (e : endpoint) : Z := if is_v6 (ep_address e) then AF_INET6 else AF_INET.
Definition sockaddr_of (e : endpoint) (flow scope rest : bytes) : sockaddr_storage :=
  mkSockaddr (family_of e) (sockaddr_fields e flow scope ++ rest).
(** The control message with the original destination [e]; [fam] are the octets of
    its family *)
Definition dst_cmsg (e : endpoint) (fam flow scope : bytes) : cmsghdr :=
  mkCmsg (if is_v6 (ep_address e) then SOL_IPV6 else SOL_IP)
    (if is_v6 (ep_address e) then T_ORIGDSTADDR6 else T_ORIGDSTADDR) (fam ++ sockaddr_fields e flow scope).
Definition not_dst (m : cmsghdr) : Prop := cmsg_type_ m <> T_ORIGDSTADDR /\ cmsg_type_ m <> T_ORIGDSTADDR6.

Lemma port_octets p : 0 <= p < 65536 -> 256 * b2z (z2b (p / 256)) + b2z (z2b p) = p.
Proof.
  intros Hp. rewrite !b2z_z2b. unfold u8. rewrite (Z.mod_small (p / 256)) by (split; [apply Z.div_pos; lia|apply Z.div_lt_upper_bound; lia]).
  pose proof (Z.div_mod p 256 ltac:(lia)). lia.
Qed.
Lemma get_addr_of e flow scope rest : ep_wf e -> length flow = 4%nat ->
  ntop inet_ntop4 inet_ntop6 (sockaddr_of e flow scope rest) = Some (text_of (ep_address e)) /\
  sin_port (sockaddr_of e flow scope rest) = ep_port e.
Proof.
  intros [Ha Hp] Hf. destruct e as [a p]. cbn [ep_address ep_port] in Ha, Hp.
  assert (Hport : forall l, nth 0 (be16 p ++ l) Byte.x00 = z2b (p / 256) /\ nth 1 (be16 p ++ l) Byte.x00 = z2b p) by done.
  unfold ntop, sockaddr_of, sockaddr_fields, family_of, sin_port. cbn [ep_address ep_port].
  destruct a as [b0 b1 b2 b3|b]; cbn [is_v6 ss_family ss_data].
  - split; [apply ntop4_text|]. rewrite <- !app_assoc. destruct (Hport ([b0; b1; b2; b3] ++ replicate 8 Byte.x00 ++ rest)) as [-> ->].
    by apply port_octets.
  - split.
    + replace (AF_INET6 =? AF_INET) with false by done. cbn [text_of]. rewrite <- (ntop6_text b Ha). f_equal.
      unfold sin6_addr. cbn [ss_data].
      destruct flow as [|f0 [|f1 [|f2 [|f3 [|]]]]]; try discriminate. cbn. rewrite <- app_assoc.
      apply take_app_length'. cbn [addr_wf] in Ha. unfold zlen in Ha. lia.
    + rewrite <- !app_assoc. destruct (Hport (flow ++ b ++ scope ++ rest)) as [-> ->]. by apply port_octets.
Qed.
Lemma get_dstaddr_of before e fam flow scope after :
  Forall not_dst before -> ep_wf e -> length fam = 2%nat -> length flow = 4%nat -> length scope = 4%nat ->
  exists rest, get_dstaddr (before ++ dst_cmsg e fam flow scope :: after) new_sockaddr =
    Ret (Some (sockaddr_of e flow scope rest)).
Proof.
  intros Hb [Ha _] Hm Hf Hs. induction Hb as [|m before [H1 H2] _ IH].
  - destruct fam as [|a0 [|a1 [|]]]; try discriminate.
    unfold dst_cmsg, sockaddr_of, sockaddr_fields, family_of. destruct e as [[b0 b1 b2 b3|b] p]; cbn in Ha |- *.
    + unfold copy_sockaddr. cbn. eexists. unfold obind. do 2 f_equal.
    + unfold copy_sockaddr. assert (Hl : length b = 16%nat) by (unfold zlen in Ha; lia).
      replace (zlen _ <? sizeof_sockaddr_in6) with false.
      2:{ symmetry. apply Z.ltb_ge. unfold zlen, sizeof_sockaddr_in6. cbn. rewrite !length_app. lia. }
      eexists. cbn [obind]. do 3 f_equal. change (drop 2 (a0 :: a1 :: ?l)) with l.
      rewrite take_ge; [reflexivity|]. unfold sizeof_sockaddr_in6. cbn. rewrite !length_app. lia.
  - destruct IH as [rest IH]. exists rest. rewrite <- IH. cbn [app get_dstaddr].
    rewrite (bool_decide_false _ H1), (bool_decide_false _ H2), !andb_false_r. done.
Qed.


(** The target of a connection, asked for in either way *)
Theorem target_endpoint_found (use_tproxy : bool) fd getsockname dst6 dst4 e flow scope rest :
  ep_wf e -> length flow = 4%nat ->
  (if use_tproxy then getsockname = Some (sockaddr_of e flow scope rest)
   else dst6 = Some (sockaddr_of e flow scope rest) \/ dst6 = None /\ dst4 = Some (sockaddr_of e flow scope rest)) ->
  recv_target_endpoint inet_ntop4 inet_ntop6 true fd use_tproxy getsockname dst6 dst4 =
  Ret (text_of (ep_address e), ep_port e).
Proof.
  intros He Hf Ha. unfold recv_target_endpoint. cbn [negb]. destruct (get_addr_of e flow scope rest He Hf) as [Hn Hp].
  destruct use_tproxy; [subst; by rewrite Hn, Hp|]. destruct Ha as [-> | [-> ->]]; by rewrite Hn, Hp.
Qed.
End Destination.

(** A DNS query to 8.8.8.8 from 10.0.0.2, after a control message with its TTL *)
Definition demo_ntop4 (b : bytes) : option bytes :=
  match b with [b0; b1; b2; b3] => Some (v4_to_string b0 b1 b2 b3) | _ => None end.
Definition demo_src : endpoint := mkEndpoint (V4 Byte.x0a Byte.x00 Byte.x00 Byte.x02) 40000.
Definition demo_dst : endpoint := mkEndpoint (V4 Byte.x08 Byte.x08 Byte.x08 Byte.x08) 53.
Definition demo_make (text : bytes) : option address :=
  if bool_decide (text = str "10.0.0.2") then Some (ep_address demo_src) else None.
Definition demo_ttl : cmsghdr := mkCmsg SOL_IP T_TTL [Byte.x40; Byte.x00; Byte.x00; Byte.x00].
Definition four : bytes := replicate 4 Byte.x00.

(** ** The room for a datagram *)

(** The kernel is told of 2794 octets whatever [udp_recv_buf] says: a datagram is
    written outside the buffer exactly when it is longer than a smaller buffer. *)
Lemma tproxy_overflow_iff native_int ntop4 ntop6 make_address room m ep ttl :
  (exists d, recv_tproxy_udp_msg native_int ntop4 ntop6 make_address room (Some m) ep ttl = Undef (OutOfView d room) /\
     d = take 2794 (r_datagram m) /\ room < zlen d) <->
  room < 2794 /\ room < zlen (r_datagram m).
Proof.
  assert (Hl : zlen (take 2794 (r_datagram m)) = Z.min 2794 (zlen (r_datagram m))).
  { unfold zlen. rewrite length_take. lia. }
  unfold recv_tproxy_udp_msg. change (Z.to_nat (DEFAULT_PACKET_SIZE * 2)) with 2794%nat. rewrite Hl. split.
  - intros (d & _ & -> & Hd). rewrite Hl in Hd. lia.
  - intros [H1 H2]. destruct (Z.ltb_spec room (Z.min 2794 (zlen (r_datagram m)))); [|lia].
    eexists. split; [reflexivity|]. split; [done|]. rewrite Hl. lia.
Qed.

(** ** Lock files *)

Section LockProofs.
Context (open_file : Files -> Z) (lock_free : Files -> bool).
Definition files_wf (s : Files) : Prop := forall fd, fd ∈ f_locked s -> fd ∈ f_open s.

(** A handle is returned exactly when a file was opened, not as descriptor 0, and its
    lock was free; the lock is then held under this handle. *)
Theorem file_lock_result s :
  exists h s', get_file_lock open_file lock_free s = Ret (h, s') /\
    let fd := open_file s in let s1 := s <| f_open ::= cons fd |> in
    (h <> INVALID_LOCK_HANDLE <-> 0 < fd /\ lock_free s1 = true) /\
    (h <> INVALID_LOCK_HANDLE -> h = fd /\ s' = s1 <| f_locked ::= cons fd |>) /\
    (fd = 0 -> f_open s' = 0 :: f_open s /\ f_locked s' = f_locked s).
Proof.
  unfold get_file_lock. rewrite bind_gets. set (fd := open_file s). cbv zeta.
  destruct (Z.leb_spec 0 fd) as [H0|H0]; cbn [when].
  - unfold bind at 1, modify at 1. destruct (Z.eqb_spec fd 0) as [E|E].
    + eexists _, _. split; [reflexivity|]. rewrite E. split_and!; [split; [done|lia]|done|done].
    + rewrite bind_gets. unfold id. destruct (Z.ltb_spec fd 0); [lia|]. cbn [orb].
      destruct (lock_free _) eqn:Ef; cbn [negb].
      * eexists _, _. split; [reflexivity|]. split_and!; [split; [intros; split; [lia|done]|intros; unfold INVALID_LOCK_HANDLE; lia]|done|lia].
      * eexists _, _. split; [reflexivity|]. split_and!; [split; [done|by intros [_ ?]]|done|lia].
  - unfold bind at 1, skip, ret at 1. destruct (Z.eqb_spec fd 0); [lia|]. rewrite bind_gets.
    destruct (Z.ltb_spec fd 0); [|lia]. cbn [orb]. eexists _, _. split; [reflexivity|].
    split_and!; [split; [done|lia]|done|lia].
Qed.

(** The second service of a process asks for a lock its first one still has: it does not
    get it, and the handle of the first is lost, so that the lock is never given back
    when the first goes. *)
Theorem lock_lost_on_restart s h fd :
  (forall s', lock_free s' = false) -> open_file s = fd -> 0 < fd -> fd ∉ f_open s -> h ∈ f_locked s -> h <> fd -> files_wf s ->
  exists s1 s2, get_class_lock open_file lock_free (s, h) = Ret (false, s1) /\
    release_class_lock s1 = Ret (tt, s2) /\ h ∈ f_locked (fst s2) /\ h ∈ f_open (fst s2).
Proof.
  intros Hf Ho Hp Hn Hh Hne Hw. unfold get_class_lock, get_file_lock. rewrite bind_gets, Ho.
  destruct (Z.leb_spec 0 fd); [|lia]. cbn [when]. unfold bind at 1, modify at 1. destruct (Z.eqb_spec fd 0); [lia|].
  rewrite bind_gets. unfold id. rewrite Hf, orb_true_r.
  eexists _, _. split; [reflexivity|]. split; [reflexivity|]. cbn [fst close_fd f_locked f_open].
  split; apply list_elem_of_filter; (split; [done|]); [done|]. right. by apply Hw.
Qed.
End LockProofs.

Import Conf ServiceStart.
Lemma nat_bind_flag is_v4 icmpd_lock dns_lock reuse fastopen mysql c b :
  NatUdpBind b ∈ construct_calls is_v4 icmpd_lock dns_lock reuse fastopen mysql c -> b = true -> is_v4 = true.
Proof.
  intros Hin ->. unfold construct_calls, listen_calls, udp_calls, option_calls, tun_call in Hin.
  pose proof (proxy_icmp_iff icmpd_lock is_v4 c) as Hi. cbv zeta in Hi. unfold icmp_of in Hin.
  destruct (try_prepare_pipeline_proxy_icmp icmpd_lock is_v4 c) as [ok c']. cbn [fst snd] in *.
  assert (Ho : pipeline_proxy_icmp c' = true -> is_v4 = true) by naive_solver.
  destruct (is_type c CLIENT_TUN), (is_type c FORWARD || is_type c NAT);
    repeat rewrite ?elem_of_app, ?elem_of_cons, ?elem_of_opt, ?elem_of_nil in Hin;
    destruct_or? Hin; destruct_and? Hin; try done; apply Ho; congruence.
Qed.

(** The 64 octets for control messages suffice for every datagram of a transparent
    proxy as [Service] sets it up: the TTL is asked for with IPv4 only. *)
Theorem nat_control_messages_fit is_v4 icmpd_lock dns_lock file_text tls13 keylog reuse fastopen mysql c s b refused opts :
  plain_http_response (ssl c) = [] \/ is_Some (file_text (plain_http_response (ssl c))) ->
  construct no_failure is_v4 true icmpd_lock dns_lock file_text no_tls_failure tls13 keylog true reuse fastopen mysql
    false (new_Service c) = Ret (tt, s) ->
  NatUdpBind b ∈ v_calls s ->
  prepare_nat_udp_bind refused is_v4 b [] = Ret (true, opts) ->
  control_space opts <= max_control_buffer_size.
Proof.
  intros Hp E Hin Hb.
  destruct (construct_run is_v4 icmpd_lock dns_lock file_text tls13 keylog reuse fastopen mysql c Hp) as (s0 & E0 & L & _).
  assert (s = s0) as -> by congruence. rewrite L in Hin.
  eapply nat_bind_space; [exact Hb|]. intros ->. by eapply nat_bind_flag.
Qed.
End NatSockets.
