(* ===== verification/Log.v ===== *)
(** * Log

    [src/src/core/log.cpp] and the macros of [src/src/core/log.h]: the level, the two
    files, and the lines that are written.  [fopen], the clock and the text of an
    endpoint are parameters; the Android log is left out. *)

From Stdlib Require Import ZArith Lia String.
From S2P Require Import Prelude Utils Address.
Local Open Scope Z_scope.
Local Open Scope handler_scope.

Module Log.

(** [Log::Level]; the configuration may set [Log::level] to any number. *)
Inductive Level := ALL | INFO | WARN | ERROR | FATAL | OFF | INVALID.
Definition level_value (l : Level) : Z :=
  match l with ALL => 0 | INFO => 1 | WARN => 2 | ERROR => 3 | FATAL => 4 | OFF => 5 | INVALID => -1 end.
(** [gsl::at(level_strings, level)] ends the program outside of the array. *)
Definition level_string (l : Level) : outcome bytes :=
  match l with
  | ALL => Ret (str "ALL") | INFO => Ret (str "INFO") | WARN => Ret (str "WARN") | ERROR => Ret (str "ERROR")
  | FATAL => Ret (str "FATAL") | OFF => Ret (str "OFF") | INVALID => Undef EmptyContainer
  end.

(** The static members; [stderr] is [None].  [g_open] are the files [fopen] has
    returned and nobody closed, [g_written] what was written to which stream. *)
Record Log := mkLog {
  g_level : Z;
  g_output_stream : option nat;
  g_keylog : option nat;
  g_callback : bool;
  g_open : list nat;
  g_written : list (option nat * bytes);
  g_called : list (bytes * Level)       (* calls of log_callback *)
}.
#[export] Instance eta_Log : Settable Log :=
  fun r => mkLog (g_level r) (g_output_stream r) (g_keylog r) (g_callback r) (g_open r) (g_written r) (g_called r).
Definition new_Log : Log := mkLog (level_value INVALID) None None false [] [] [].
Definition LM := M Log.

Definition log (message : bytes) (level : Level) : LM unit :=
  s <- gets id ;;
  when (g_level s <=? level_value level)
    (modify (fun s => s <| g_written ::= fun l => l ++ [(g_output_stream s, message ++ [LF])] |>) ;;;
     when (g_callback s) (modify (fun s => s <| g_called ::= fun l => l ++ [(message, level)] |>))).

Section Operations.
(** The time as "[year-month-day hour:minute:second] ", and [fopen(filename, "a")] *)
Context (local_time : bytes) (fopen : bytes -> list nat -> option nat).

Definition log_with_date_time (message : bytes) (level : Level) : LM unit :=
  s <- lift (level_string level) ;;
  log (local_time ++ str "[" ++ s ++ str "] " ++ message) level.
Definition log_with_endpoint (kind endpoint message : bytes) (level : Level) : LM unit :=
  log_with_date_time (str "[" ++ kind ++ str "] " ++ endpoint ++ str " " ++ message) level.

(** The macros [_log_with_date_time] and [_log_with_date_time_ALL] *)
Definition _log_with_date_time (message : bytes) (level : Level) : LM unit :=
  s <- gets id ;; when (negb (g_level s =? level_value OFF)) (log_with_date_time message level).
Definition _log_with_date_time_ALL (message : bytes) : LM unit :=
  s <- gets id ;; when (g_level s <=? level_value ALL) (log_with_date_time message ALL).

(** The macros for endpoints and for bare messages *)
Definition _log_with_endpoint (kind endpoint message : bytes) (level : Level) : LM unit :=
  s <- gets id ;; when (negb (g_level s =? level_value OFF)) (log_with_endpoint kind endpoint message level).
Definition _log_with_endpoint_ALL (kind endpoint message : bytes) : LM unit :=
  s <- gets id ;; when (g_level s <=? level_value ALL) (log_with_endpoint kind endpoint message ALL).
Definition _log (message : bytes) (level : Level) : LM unit :=
  s <- gets id ;; when (negb (g_level s =? level_value OFF)) (log message level).

(** *** [output_debug_info] and [_assert]: a text is printed into a buffer of 1024 octets,
    and a string is made of as many octets of it as the text has. *)
Definition __max_debug_str_buf_size : Z := 1024.
Definition debug_string (text : bytes) : outcome bytes :=
  if __max_debug_str_buf_size <? zlen text then Undef (OutOfView text __max_debug_str_buf_size)
  else Ret (take (length text) (take (Z.to_nat (__max_debug_str_buf_size - 1)) text ++ [Byte.x00])).
Definition place (file : string) (line : Z) (function : string) : bytes :=
  str file ++ str ":" ++ Text.to_string line ++ str "-<" ++ str function ++ str ">".
Definition output_debug_info_ec (file : string) (line : Z) (function : string) (message : bytes) : LM unit :=
  s <- gets id ;;
  when (g_level s <=? level_value INFO)
    (t <- lift (debug_string (place file line function ++ str " ec:" ++ message)) ;; log_with_date_time t INFO).
Definition output_debug_info (file : string) (line : Z) (function : string) : LM unit :=
  s <- gets id ;;
  when (g_level s <=? level_value INFO)
    (t <- lift (debug_string (place file line function)) ;; log_with_date_time t INFO).
Definition _assert (exp : bool) (text : bytes) (file : string) (line : Z) (function : string) : LM unit :=
  when (negb exp)
    (t <- lift (debug_string (str "_assert(" ++ text ++ str ") : " ++ place file line function)) ;;
     throw (runtime_error "_assert")).

Definition fclose (f : nat) : LM unit := modify (fun s => s <| g_open ::= filter (fun x => x <> f) |>).
(** The file is among the open ones as soon as [fopen] returns. *)
Definition fopen_ (filename : bytes) : LM nat :=
  s <- gets id ;;
  match fopen filename (g_open s) with
  | None => throw (runtime_error "cannot open")
  | Some fp => modify (fun s => s <| g_open ::= cons fp |>) ;;; ret fp
  end.
Definition redirect (filename : bytes) : LM unit :=
  fp <- fopen_ filename ;;
  s <- gets id ;;
  match g_output_stream s with Some f => fclose f | None => skip end ;;;
  modify (fun s => s <| g_output_stream := Some fp |>).
Definition redirect_keylog (filename : bytes) : LM unit :=
  fp <- fopen_ filename ;;
  s <- gets id ;;
  match g_keylog s with Some f => fclose f | None => skip end ;;;
  modify (fun s => s <| g_keylog := Some fp |>).
Definition set_callback (on : bool) : LM unit := modify (fun s => s <| g_callback := on |>).
Definition reset : LM unit :=
  s <- gets id ;;
  match g_output_stream s with
  | Some f => fclose f ;;; modify (fun s => s <| g_output_stream := None |>)
  | None => skip
  end ;;;
  s <- gets id ;;
  match g_keylog s with
  | Some f => fclose f ;;; modify (fun s => s <| g_keylog := None |>)
  | None => skip
  end.

(** ** What is written *)

(** The line of a message *)
Definition line (message : bytes) (level : Level) : outcome bytes :=
  let! s := level_string level in Ret (local_time ++ str "[" ++ s ++ str "] " ++ message ++ [LF]).

(** A message of a level from ALL to OFF is written once, as one line, exactly when
    its level is at least the configured one, and that is not OFF. *)
Theorem log_written_iff message level s :
  level <> INVALID ->
  exists l s', line message level = Ret l /\ _log_with_date_time message level s = Ret (tt, s') /\
    g_written s' = g_written s ++
      (if (g_level s <=? level_value level) && negb (g_level s =? 5) then [(g_output_stream s, l)] else []) /\
    g_open s' = g_open s /\ g_output_stream s' = g_output_stream s /\ g_keylog s' = g_keylog s.
Proof.
  intros Hl. assert (Hs : exists t, level_string level = Ret t) by (destruct level; cbn; eauto; done).
  destruct Hs as [t Ht]. unfold line. rewrite Ht. cbn [obind]. eexists. unfold _log_with_date_time. rewrite bind_gets. unfold id.
  change (level_value OFF) with 5. destruct (g_level s =? 5); cbn [negb when].
  - exists s. rewrite andb_false_r, app_nil_r. done.
  - unfold log_with_date_time. rewrite Ht. unfold bind at 1, lift, log. rewrite bind_gets. unfold id. rewrite andb_true_r.
    destruct (g_level s <=? level_value level); cbn [when]; [|exists s; by rewrite app_nil_r].
    unfold bind, modify. destruct (g_callback s); cbn; eexists; (split; [reflexivity|]); (split; [reflexivity|]);
      cbn; rewrite <- app_assoc; cbn; by rewrite <- app_assoc.
Qed.

(** A text of up to 1023 octets is taken as it is; one of more than 1024 is read beyond
    the buffer. *)
Theorem debug_string_exact text :
  (zlen text < 1024 -> debug_string text = Ret text) /\
  (1024 < zlen text -> debug_string text = Undef (OutOfView text 1024)).
Proof.
  unfold debug_string, __max_debug_str_buf_size. split; intros H.
  - destruct (Z.ltb_spec 1024 (zlen text)); [lia|]. rewrite (take_ge text) by (unfold zlen in *; lia).
    by rewrite take_app_length.
  - destruct (Z.ltb_spec 1024 (zlen text)); [done|lia].
Qed.

(** ** The files *)

Inductive file_op := Redirect (name : bytes) | RedirectKeylog (name : bytes) | Reset.
Definition do_file_op (o : file_op) : LM unit :=
  match o with Redirect n => redirect n | RedirectKeylog n => redirect_keylog n | Reset => reset end.
(** A failed operation has no effect (the program then ends). *)
Fixpoint do_file_ops (os : list file_op) : LM unit :=
  match os with
  | [] => skip
  | o :: os => (fun s => match do_file_op o s with Throw _ => Ret (tt, s) | r => r end) ;;; do_file_ops os
  end.

(** The files that are open are the ones in use, each once. *)
Definition in_use (s : Log) : list nat := option_list (g_output_stream s) ++ option_list (g_keylog s).
Definition files_ok (s : Log) : Prop := NoDup (g_open s) /\ NoDup (in_use s) /\ forall f, f ∈ g_open s <-> f ∈ in_use s.

(** [fopen] returns a stream that is not open. *)
Context (fopen_new : forall name l f, fopen name l = Some f -> f ∉ l).

Lemma files_ok_new : files_ok new_Log.
Proof. split_and!; [constructor|constructor|done]. Qed.
Lemma open_replaced (l : list nat) (fp : nat) (old : option nat) (rest : list nat) :
  NoDup l -> NoDup (option_list old ++ rest) -> (forall f, f ∈ l <-> f ∈ option_list old ++ rest) -> fp ∉ l ->
  let l' := match old with Some f => filter (fun x => x <> f) (fp :: l) | None => fp :: l end in
  NoDup l' /\ NoDup (fp :: rest) /\ forall f, f ∈ l' <-> f ∈ fp :: rest.
Proof.
  intros Hn Hu Hl Hf. cbv zeta. assert (Hr : fp ∉ rest) by (intros H; apply Hf, Hl; set_solver).
  assert (NoDup (fp :: l)) by (by constructor).
  destruct old as [o|]; cbn [option_list option_rect app] in *; split_and!.
  - by apply list.NoDup_filter.
  - apply list.NoDup_cons in Hu as [_ Hu]. by constructor.
  - intros f. rewrite list_elem_of_filter, !elem_of_cons, Hl, elem_of_cons. apply list.NoDup_cons in Hu as [Ho _].
    assert (fp <> o) by (intros ->; apply Hf, Hl; left). naive_solver.
  - done.
  - by constructor.
  - intros f. by rewrite !elem_of_cons, Hl.
Qed.
Lemma file_op_ok o s : files_ok s ->
  match do_file_op o s with Ret (_, s') => files_ok s' /\ (o = Reset -> g_open s' = []) | _ => o <> Reset end.
Proof.
  intros (Hn & Hu & Hl). destruct o as [name|name|]; cbn [do_file_op].
  - unfold redirect, fopen_, bind, gets, id, modify, ret. destruct (fopen name (g_open s)) as [fp|] eqn:Ef; [|done].
    apply fopen_new in Ef. destruct (open_replaced (g_open s) fp (g_output_stream s) (option_list (g_keylog s))
      Hn Hu Hl Ef) as (H1 & H2 & H3). destruct s as [lv [o|] k cb op w cl]; cbn in *; (split; [|done]); split_and!; done.
  - unfold redirect_keylog, fopen_, bind, gets, id, modify, ret. destruct (fopen name (g_open s)) as [fp|] eqn:Ef; [|done].
    apply fopen_new in Ef. unfold in_use in Hu, Hl.
    destruct (open_replaced (g_open s) fp (g_keylog s) (option_list (g_output_stream s)) Hn) as (H1 & H2 & H3); [| |done|].
    { by rewrite Permutation_app_comm. }
    { intros f. rewrite Hl, !elem_of_app. tauto. }
    assert (Hp : forall s', g_output_stream s' = g_output_stream s -> g_keylog s' = Some fp ->
      in_use s' ≡ₚ fp :: option_list (g_output_stream s)).
    { intros s' E1 E2. unfold in_use. rewrite E1, E2. apply Permutation_app_comm. }
    destruct s as [lv o [k|] cb op w cl]; cbn in *; (split; [|done]); split_and!; try done.
    all: intros; rewrite Hp by done; done.
  - unfold reset. rewrite bind_gets. unfold id. unfold in_use in Hu, Hl.
    assert (He : forall l : list nat, (forall f, f ∉ l) -> files_ok (mkLog (g_level s) None None (g_callback s) l
      (g_written s) (g_called s)) /\ (Reset = Reset -> l = [])).
    { intros [|x l] H; [|exfalso; apply (H x); left]. split; [|done]. split_and!; [constructor|constructor|done]. }
    destruct s as [lv [o|] [k|] cb op w cl]; cbn in *; apply He; intros f; rewrite ?list_elem_of_filter, Hl; set_solver.
Qed.

(** Whatever files the log was sent to, and however often, the open files are the two
    in use, and none is left after [reset]. *)
Theorem log_files_closed os s' :
  do_file_ops os new_Log = Ret (tt, s') ->
  files_ok s' /\ exists s'', reset s' = Ret (tt, s'') /\ g_open s'' = [].
Proof.
  assert (H : forall os s, files_ok s -> do_file_ops os s = Ret (tt, s') -> files_ok s').
  { clear - fopen_new. induction os as [|o os IH]; intros s Hs E; [by injection E as <-|].
    cbn [do_file_ops] in E. unfold bind in E. pose proof (file_op_ok o s Hs) as Ho.
    destruct (do_file_op o s) as [[[] s1]| |]; [|by apply IH in E|done]. destruct Ho as [Ho _]. by apply IH in E. }
  intros E. apply (H _ _ files_ok_new) in E. split; [done|]. pose proof (file_op_ok Reset s' E) as Ho. cbn [do_file_op] in Ho.
  destruct (reset s') as [[[] s'']| |]; [|done|done]. exists s''. split; [done|]. by apply Ho.
Qed.
End Operations.
End Log.
