(* ===== verification/Main.v ===== *)
(** * main: options, signals and restarts

    [src/src/main.cpp]: the options, the loop that reads the configuration, makes a
    [Service] and runs it, and the handler of signals.  The services are those of
    [ServiceStart]; what a second service finds taken by the first, which lives until
    it is replaced, is the subject of the theorems. *)

From Stdlib Require Import ZArith Lia String FunctionalExtensionality.
From S2P Require Import Prelude Utils ConfigLoad ConfigTheorems ServiceStart NatSockets Log.
Import Conf ServiceStart.
Local Open Scope Z_scope.
Local Open Scope handler_scope.

Module Main.

Inductive signal := SIGINT | SIGTERM | SIGUSR2 | SIGHUP | SIGUSR1.
(** A socket that listens: its address and port, and whether it has SO_REUSEPORT *)
Definition listener : Type := bytes * Z * bool.
Record options := mkOptions {
  o_config : bytes;
  o_help : bool;
  o_version : bool;
  o_log : option bytes;
  o_keylog : option bytes;
  o_test : bool
}.
(** The running service ([g_service]), with its socket, and the configuration *)
Record MainState := mkMain {
  m_config : Config;
  m_level : Z;
  m_service : Service;
  m_listener : option listener
}.
Definition EXIT_SUCCESS : Z := 0.
Definition EXIT_FAILURE : Z := 1.
Inductive process := Running (m : MainState) | Exit (status : Z) | Broken (u : undefined_by).
(** The [catch] of [main] *)
Definition catch {A} (r : outcome A) (k : A -> process) : process :=
  match r with Ret a => k a | Throw _ => Exit EXIT_FAILURE | Undef u => Broken u end.

Section Process.
(** As in [ServiceStart]; [icmpd_lock] and [dns_lock] say whether other processes
    leave the locks free. *)
Context (fails : sv_call -> bool) (is_v4 nat_bind_ok icmpd_lock dns_lock : bool).
Context (file_text : bytes -> option bytes) (tls_fails : ssl_call -> bool) (tls13 keylog : bool).
Context (enable_nat enable_reuse_port enable_fastopen enable_mysql : bool).
(** [bind] beside sockets that listen; reading the configuration into an object that
    was used before ([ConfigLoad]'s [start]); [fopen] *)
Context (bind_fails : list listener -> listener -> bool).
Context (start : bytes -> Config -> Z -> outcome (Config * Z)) (fopen : bytes -> list nat -> option nat).

Definition endpoint_of (c : Config) : listener :=
  (local_addr c, local_port c, reuse_port (tcp c) && enable_reuse_port).
Definition fails_beside (ls : list listener) (c : Config) (x : sv_call) : bool :=
  match x with AcceptorBind => bind_fails ls (endpoint_of c) | _ => fails x end.
(** The lock files are locked through a descriptor of their own each time: a lock the
    old service holds is not free. *)
Definition holds (old : option MainState) (has : Service -> bool) : bool :=
  match old with Some m => has (m_service m) | None => false end.
Definition icmpd_locked (s : Service) : bool := bool_decide (NewIcmpd true ∈ v_calls s).
Definition dns_locked (s : Service) : bool := bool_decide (NewDns ∈ v_calls s).

(** One turn of the loop up to [make_shared<Service>]: the old service goes only when
    the new one is there. *)
Definition new_service (test : bool) (config_file : bytes) (old : option MainState) (c : Config) (level : Z)
  : outcome MainState :=
  let! '(c, level) := start config_file c level in
  let ls := match old with Some m => option_list (m_listener m) | None => [] end in
  let! '(_, s) := construct (fails_beside ls c) is_v4 nat_bind_ok (icmpd_lock && negb (holds old icmpd_locked))
    (dns_lock && negb (holds old dns_locked)) file_text tls_fails tls13 keylog enable_nat enable_reuse_port enable_fastopen
    enable_mysql test (new_Service c) in
  Ret (mkMain (v_config s) level s (if decide (AcceptorListen ∈ v_calls s) then Some (endpoint_of c) else None)).

(** [run]; a loop that was stopped before ends at once. *)
Definition stopped (s : Service) : bool := bool_decide (StopIo ∈ v_calls s).
Definition with_service (m : MainState) (s : Service) : MainState :=
  mkMain (v_config s) (m_level m) s (m_listener m).

(** The signals that come while the service runs, as [signal_async_wait] handles
    them: it waits for the next one after SIGUSR1 only. *)
Fixpoint serve (config_file : bytes) (sigs : list signal) (m : MainState) : process :=
  match sigs with
  | [] => Running m
  | SIGUSR1 :: sigs =>
    catch (reload_cert fails (m_service m)) (fun '(_, s) => serve config_file sigs (with_service m s))
  | SIGHUP :: sigs =>
    catch (stop (m_service m)) (fun '(_, s) =>
    let m := with_service m s in
    catch (new_service false config_file (Some m) (m_config m) (m_level m)) (fun m =>
    catch (run fails (m_service m)) (fun '(_, s) =>
    if stopped (m_service m) then Exit EXIT_SUCCESS else serve config_file sigs (with_service m s))))
  | _ :: _ => catch (stop (m_service m)) (fun _ => Exit EXIT_SUCCESS)
  end.

(** [None]: the command line cannot be parsed *)
Definition main (argv : option options) (sigs : list signal) : process :=
  match argv with
  | None => Exit EXIT_FAILURE
  | Some o =>
    if o_help o then Exit EXIT_SUCCESS
    else if o_version o then Exit EXIT_SUCCESS
    else
      let redirects :=
        match o_log o with Some f => Log.redirect fopen f | None => skip end ;;;
        match o_keylog o with Some f => Log.redirect_keylog fopen f | None => skip end in
      catch (redirects Log.new_Log) (fun _ =>
      catch (new_service (o_test o) (o_config o) None new_Config (-1)) (fun m =>
      if o_test o then Exit EXIT_SUCCESS
      else catch (run fails (m_service m)) (fun '(_, s) =>
      if stopped (m_service m) then Exit EXIT_SUCCESS else serve (o_config o) sigs (with_service m s))))
  end.
End Process.

(** ** A bind that fails *)

Definition throws {S A} (m : M S A) : Prop := forall s, exists e, m s = Throw e.
Lemma throws_call {A} fails x (k : unit -> SM A) : (fails x = false -> throws (k tt)) -> throws (bind (call fails x) k).
Proof.
  intros H s. unfold bind, call, attempt, throw, modify. destruct (fails x); [eauto|]. destruct (H eq_refl (s <| v_calls ::= fun l => l ++ [x] |>)) as [e E].
  exists e. exact E.
Qed.
Lemma throws_when_call {A} fails b x (k : unit -> SM A) : throws (k tt) -> throws (bind (when b (call fails x)) k).
Proof. intros H. destruct b; cbn [when]; [by apply throws_call|]. intros s. apply H. Qed.
Lemma throws_when_attempt {A} b x (k : unit -> SM A) : throws (k tt) -> throws (bind (when b (attempt x)) k).
Proof. intros H s. destruct b; apply H. Qed.

Lemma listen_throws fails is_v4 nat_bind_ok icmpd_lock reuse fastopen :
  fails AcceptorBind = true -> throws (listen fails is_v4 nat_bind_ok icmpd_lock reuse fastopen).
Proof.
  intros Hf s. unfold listen. rewrite bind_gets.
  enough (H : forall c, throws (call fails (Resolve (local_addr c) (local_port c)) ;;; call fails AcceptorOpen ;;;
    call fails SetReuseAddress ;;; when (is_type c NAT && use_tproxy (tcp c)) (attempt SetTransparent) ;;;
    when (reuse_port (tcp c) && reuse) (call fails SetReusePort) ;;; call fails AcceptorBind ;;;
    call fails AcceptorListen ;;; prepare_icmpd fails is_v4 icmpd_lock ;;;
    go <- (if is_type c FORWARD || is_type c NAT then open_udp fails nat_bind_ok else ret true) ;;
    if go : bool then set_options fails fastopen (tcp c) ;;; ret true else ret false)) by apply H.
  intros c. do 3 (apply throws_call; intros _). apply throws_when_attempt, throws_when_call, throws_call. congruence.
Qed.

(** A service that listens cannot be made when [bind] fails. *)
Lemma construct_throws fails is_v4 nat_bind_ok icmpd_lock dns_lock file_text tls_fails tls13 keylog nat reuse fastopen mysql c :
  run_type c <> CLIENT_TUN -> fails AcceptorBind = true ->
  exists e, construct fails is_v4 nat_bind_ok icmpd_lock dns_lock file_text tls_fails tls13 keylog nat reuse fastopen mysql
    false (new_Service c) = Throw e.
Proof.
  intros Ht Hf. unfold construct. rewrite bind_gets. cbn [id v_config new_Service].
  destruct (is_type c NAT && negb nat); [unfold throw; eauto|].
  assert (Hc : is_type c CLIENT_TUN = false) by (unfold is_type; by apply bool_decide_false). rewrite Hc. cbn [orb].
  unfold bind at 1. pose proof (listen_throws fails is_v4 nat_bind_ok icmpd_lock reuse fastopen Hf) as Hl.
  assert (H : forall b x f, throws (when b (call fails x ;;; modify f) ;;;
      listen fails is_v4 nat_bind_ok icmpd_lock reuse fastopen)).
  { intros [] x f s; cbn [when]; [|apply Hl]. rewrite bind_assoc.
    apply (throws_call fails x (fun _ => modify f ;;; listen fails is_v4 nat_bind_ok icmpd_lock reuse fastopen)).
    intros _ s'. apply Hl. }
  match goal with |- context [bind (when ?b (bind (call _ ?x) (fun _ => modify ?f)))] =>
    destruct (H b x f (new_Service c)) as [e ->] end. eauto.
Qed.

(** ** SIGHUP *)

Section Restart.
Context (is_v4 icmpd_lock dns_lock : bool).
Context (file_text : bytes -> option bytes) (tls13 keylog : bool).
Context (enable_reuse_port enable_fastopen enable_mysql : bool).
Context (bind_fails : list listener -> listener -> bool).
Context (start : bytes -> Config -> Z -> outcome (Config * Z)) (fopen : bytes -> list nat -> option nat).
Notation new_service := (new_service no_failure is_v4 true icmpd_lock dns_lock file_text no_tls_failure tls13 keylog true
  enable_reuse_port enable_fastopen enable_mysql bind_fails start).
Notation serve := (serve no_failure is_v4 true icmpd_lock dns_lock file_text no_tls_failure tls13 keylog true
  enable_reuse_port enable_fastopen enable_mysql bind_fails start).
Notation main := (main no_failure is_v4 true icmpd_lock dns_lock file_text no_tls_failure tls13 keylog true
  enable_reuse_port enable_fastopen enable_mysql bind_fails start fopen).
Notation endpoint_of := (endpoint_of enable_reuse_port).

(** [bind] as documented for sockets with SO_REUSEADDR: it succeeds where nobody
    listens, and fails where somebody listens unless both have SO_REUSEPORT. *)
Context (bind_free : forall l, bind_fails [] l = false).
Context (bind_in_use : forall a p r r', r && r' = false -> bind_fails [(a, p, r)] (a, p, r') = true).
Context (bind_shared : forall a p, bind_fails [(a, p, true)] (a, p, true) = false).

(** What a configuration needs to be served without failures *)
Definition readable (c : Config) : Prop :=
  plain_http_response (ssl c) = [] \/ is_Some (file_text (plain_http_response (ssl c))).

Lemma beside_none ls c : bind_fails ls (endpoint_of c) = false ->
  fails_beside no_failure enable_reuse_port bind_fails ls c = no_failure.
Proof. intros H. apply functional_extensionality. by intros []. Qed.
Lemma not_stopped il dl c : StopIo ∉ construct_calls is_v4 il dl enable_reuse_port enable_fastopen enable_mysql c.
Proof.
  unfold construct_calls, listen_calls, option_calls, udp_calls, tun_call.
  destruct (is_type c CLIENT_TUN), (is_type c FORWARD || is_type c NAT);
    repeat first [rewrite elem_of_app | rewrite elem_of_cons | rewrite elem_of_opt | rewrite elem_of_nil];
    intros H; destruct_or? H; destruct_and? H; discriminate || done.
Qed.
Lemma listens il dl c : run_type c <> CLIENT_TUN ->
  AcceptorListen ∈ construct_calls is_v4 il dl enable_reuse_port enable_fastopen enable_mysql c.
Proof.
  intros Ht. unfold construct_calls. replace (is_type c CLIENT_TUN) with false by (symmetry; by apply bool_decide_false).
  apply elem_of_app; right. apply elem_of_app; left. unfold listen_calls.
  do 3 (apply elem_of_app; right). apply elem_of_app; left. set_solver.
Qed.
Lemma dns_made il dl c :
  NewDns ∈ construct_calls is_v4 il dl enable_reuse_port enable_fastopen enable_mysql c <->
  dns_enabled (dns c) && negb (is_type c SERVER || is_type c FORWARD) && dl = true.
Proof.
  unfold construct_calls. rewrite !elem_of_app, !elem_of_opt. split; [|naive_solver].
  intros [[_ ?]|[H|[[_ ?]|[? _]]]]; [done| |done|done]. exfalso. revert H.
  unfold listen_calls, option_calls, udp_calls. destruct (is_type c CLIENT_TUN), (is_type c FORWARD || is_type c NAT);
    repeat first [rewrite elem_of_app | rewrite elem_of_cons | rewrite elem_of_opt | rewrite elem_of_nil];
    intros H; destruct_or? H; destruct_and? H; discriminate || done.
Qed.

(** A service is made where [bind] succeeds. *)
Lemma new_service_made file old c0 lv0 c lv :
  start file c0 lv0 = Ret (c, lv) -> readable c ->
  bind_fails (match old with Some m => option_list (m_listener m) | None => [] end) (endpoint_of c) = false ->
  let il := icmpd_lock && negb (holds old icmpd_locked) in
  let dl := dns_lock && negb (holds old dns_locked) in
  exists m, new_service false file old c0 lv0 = Ret m /\ m_level m = lv /\
    v_calls (m_service m) = construct_calls is_v4 il dl enable_reuse_port enable_fastopen enable_mysql c /\
    (run_type c <> CLIENT_TUN -> m_listener m = Some (endpoint_of c)) /\
    exists s, run no_failure (m_service m) = Ret (tt, s) /\ stopped (m_service m) = false /\
      v_calls s = v_calls (m_service m) ++ run_calls (v_config (m_service m)).
Proof.
  intros Es Hp Hb il dl. unfold Main.new_service. rewrite Es. cbn [obind]. rewrite beside_none by done.
  destruct (construct_run is_v4 il dl file_text tls13 keylog enable_reuse_port enable_fastopen enable_mysql c Hp) as (s & E & L & _).
  subst il dl. rewrite E. cbn [obind]. eexists. split; [reflexivity|]. cbn [m_level m_service m_listener m_config].
  split; [done|]. split; [exact L|]. split.
  - intros Ht. rewrite decide_True; [done|]. rewrite L. by apply listens.
  - destruct (run_run s) as (s' & E' & L'). exists s'. split; [done|]. split; [|done].
    unfold stopped. rewrite L. apply bool_decide_false, not_stopped.
Qed.

(** The process as started with a configuration file *)
Definition plain_options (file : bytes) : options := mkOptions file false false None None false.
Lemma main_started file sigs c lv :
  start file new_Config (-1) = Ret (c, lv) -> readable c ->
  exists m, main (Some (plain_options file)) sigs = serve file sigs m /\ m_level m = lv /\
    (exists c', v_calls (m_service m) =
      construct_calls is_v4 icmpd_lock dns_lock enable_reuse_port enable_fastopen enable_mysql c ++ run_calls c') /\
    (run_type c <> CLIENT_TUN -> m_listener m = Some (endpoint_of c)).
Proof.
  intros Es Hp. destruct (new_service_made file None new_Config (-1) c lv Es Hp (bind_free _))
    as (m & E & Hl & Hc & Hs & s & Er & Hst & Hrun).
  unfold Main.main. cbn [plain_options o_help o_version o_log o_keylog o_config o_test]. cbn [catch bind skip ret].
  rewrite E. cbn [catch]. rewrite Er. cbn [catch]. rewrite Hst. exists (with_service m s). split; [done|].
  split; [done|]. split; [|exact Hs]. eexists. cbn [with_service m_service]. rewrite Hrun, Hc. cbn [holds negb].
  by rewrite !andb_true_r.
Qed.
Lemma run_calls_no_dns c : NewDns ∉ run_calls c.
Proof. unfold run_calls. destruct (is_type c CLIENT_TUN), (is_type c FORWARD || is_type c NAT); cbn; set_solver. Qed.

(** C38: sent SIGHUP, a service that listens cannot be replaced: its socket still listens
    while the new one is bound, and without SO_REUSEPORT the process ends with a
    failure, whatever the file now holds beside the same endpoint. *)
Theorem sighup_ends_process file sigs c lv :
  start file new_Config (-1) = Ret (c, lv) -> readable c -> run_type c <> CLIENT_TUN ->
  reuse_port (tcp c) && enable_reuse_port = false ->
  (forall c0 lv0, exists c2 lv2, start file c0 lv0 = Ret (c2, lv2) /\ run_type c2 <> CLIENT_TUN /\
     local_addr c2 = local_addr c /\ local_port c2 = local_port c) ->
  main (Some (plain_options file)) (SIGHUP :: sigs) = Exit EXIT_FAILURE.
Proof.
  intros Es Hp Ht Hr Hagain. destruct (main_started file (SIGHUP :: sigs) c lv Es Hp) as (m & -> & _ & _ & Hl).
  cbn [Main.serve]. rewrite stop_releases. cbn [catch]. unfold Main.new_service.
  match goal with |- context [start file ?x ?y] => destruct (Hagain x y) as (c2 & lv2 & -> & Ht2 & Ea & Ep) end.
  cbn [obind]. cbn [with_service m_listener]. rewrite (Hl Ht). cbn [option_list option_rect].
  match goal with |- context [construct ?f ?a ?b ?d ?e _ _ _ _ _ _ _ _ _ _] =>
    destruct (construct_throws f a b d e file_text no_tls_failure tls13 keylog true enable_reuse_port enable_fastopen
      enable_mysql c2 Ht2) as [ex ->] end; [|done].
  cbn [fails_beside]. unfold Main.endpoint_of. rewrite Hr, Ea, Ep. by apply bind_in_use.
Qed.

(** With SO_REUSEPORT it is replaced and runs on, but a DNS server it had is not started
    again: the old one still holds the lock file. *)
Theorem sighup_loses_dns file c lv :
  (forall c0 lv0, start file c0 lv0 = Ret (c, lv)) -> readable c -> run_type c <> CLIENT_TUN ->
  reuse_port (tcp c) && enable_reuse_port = true ->
  dns_enabled (dns c) = true -> run_type c <> SERVER -> run_type c <> FORWARD -> dns_lock = true ->
  exists m1 m2, main (Some (plain_options file)) [] = Running m1 /\ NewDns ∈ v_calls (m_service m1) /\
    main (Some (plain_options file)) [SIGHUP] = Running m2 /\ AcceptorListen ∈ v_calls (m_service m2) /\
    NewDns ∉ v_calls (m_service m2).
Proof.
  intros Hagain Hp Ht Hr Hd Hs Hf Hlock. pose proof (Hagain new_Config (-1)) as Es.
  destruct (main_started file [] c lv Es Hp) as (m1 & E1 & _ & (c1 & L1) & _).
  destruct (main_started file [SIGHUP] c lv Es Hp) as (m & E & _ & (c' & L) & Hl).
  assert (Hdns : forall s c1, v_calls s = construct_calls is_v4 icmpd_lock dns_lock enable_reuse_port enable_fastopen
    enable_mysql c ++ run_calls c1 -> NewDns ∈ v_calls s).
  { intros s cx ->. apply elem_of_app; left. apply dns_made. unfold is_type. rewrite Hd, Hlock, !bool_decide_false by done. done. }
  exists m1. rewrite E1, E. cbn [Main.serve]. rewrite stop_releases. cbn [catch].
  set (s1 := _ <| v_udp_open := false |>).
  destruct (new_service_made file (Some (with_service m s1)) (m_config (with_service m s1)) (m_level (with_service m s1)) c lv)
    as (m2 & E2 & _ & L2 & _ & s2 & Er & Hst & Hrun); [done|done| |].
  { cbn [with_service m_listener]. rewrite (Hl Ht). unfold Main.endpoint_of. rewrite Hr. apply bind_shared. }
  rewrite E2. cbn [catch]. rewrite Er. cbn [catch]. rewrite Hst. exists (with_service m2 s2).
  split; [done|]. split; [by eapply Hdns|]. split; [done|]. cbn [with_service m_service]. rewrite Hrun, L2.
  assert (Hh : holds (Some (with_service m s1)) dns_locked = true).
  { cbn [holds with_service m_service]. unfold dns_locked. apply bool_decide_true. subst s1.
    cbn. apply elem_of_app; left. by eapply Hdns. }
  rewrite Hh, andb_false_r. split.
  - apply elem_of_app; left. by apply listens.
  - rewrite elem_of_app, dns_made, andb_false_r. intros [?|H]; [done|]. by apply run_calls_no_dns in H.
Qed.

(** SIGINT, SIGTERM and SIGUSR2 end the process successfully, whatever certificates were
    reloaded before. *)
Theorem signals_end_process file n sig rest m :
  sig = SIGINT \/ sig = SIGTERM \/ sig = SIGUSR2 ->
  serve file (replicate n SIGUSR1 ++ sig :: rest) m = Exit EXIT_SUCCESS.
Proof.
  intros Hs. induction n as [|n IH] in m |- *; cbn [replicate app Main.serve].
  - destruct Hs as [-> | [-> | ->]]; by rewrite stop_releases.
  - destruct (reload_replaces_certificate (m_service m)) as (s & -> & _). apply IH.
Qed.
End Restart.

(** A transparent proxy whose UDP socket cannot be bound leaves the process with
    success. *)
Theorem unbound_proxy_exits_successfully is_v4 icmpd_lock dns_lock file_text tls13 keylog reuse fastopen mysql
    bind_fails start fopen file sigs c lv :
  (forall l, bind_fails [] l = false) -> start file new_Config (-1) = Ret (c, lv) -> run_type c = NAT ->
  main no_failure is_v4 false icmpd_lock dns_lock file_text no_tls_failure tls13 keylog true reuse fastopen mysql
    bind_fails start fopen (Some (plain_options file)) sigs = Exit EXIT_SUCCESS.
Proof.
  intros Hb Es Ht. unfold main, new_service. cbn [plain_options o_help o_version o_log o_keylog o_config o_test catch bind skip ret].
  rewrite Es. cbn [obind]. rewrite beside_none by done.
  match goal with |- context [construct _ _ _ ?a ?b] => destruct (unbound_proxy_stops is_v4 a b
    file_text tls13 keylog reuse fastopen mysql c Ht) as (s & l & -> & L & _) end.
  cbn [obind catch m_service]. destruct (run_run s) as (s' & -> & _). cbn [catch].
  replace (stopped s) with true; [done|]. symmetry. unfold stopped. apply bool_decide_true. rewrite L. set_solver.
Qed.

(** With the option [test] no socket, device, relay or DNS server is touched. *)
Theorem test_opens_nothing fails is_v4 nat_bind_ok icmpd_lock dns_lock file_text tls_fails tls13 keylog nat reuse fastopen
    mysql c s :
  construct fails is_v4 nat_bind_ok icmpd_lock dns_lock file_text tls_fails tls13 keylog nat reuse fastopen mysql true
    (new_Service c) = Ret (tt, s) ->
  v_calls s = opt (is_type c SERVER && (mysql_enabled (Conf.mysql c) && mysql)) NewAuthenticator.
Proof.
  unfold construct. rewrite bind_gets. cbn [id v_config new_Service]. destruct (is_type c NAT && negb nat); [done|].
  unfold bind at 1, ret at 1. cbn [negb]. unfold bind at 1, prepare_context.
  destruct (prepare_ssl_context _ _ _ _ _) as [[[] t]| |]; [|done|done]. cbn [when].
  destruct (is_type c SERVER && _); cbn [when].
  - unfold bind at 1, call, attempt. unfold bind at 1. destruct (fails NewAuthenticator); [done|]. by intros [= <-].
  - by intros [= <-].
Qed.

(** ** Concrete runs *)

Definition linux_bind (ls : list listener) (l : listener) : bool :=
  existsb (fun l' => bool_decide (fst l' = fst l) && negb (snd l' && snd l)) ls.
Lemma linux_free l : linux_bind [] l = false.
Proof. done. Qed.
Lemma linux_in_use a p r r' : r && r' = false -> linux_bind [(a, p, r)] (a, p, r') = true.
Proof. intros H. unfold linux_bind. cbn. rewrite bool_decide_true by done. by rewrite H. Qed.
Lemma linux_shared a p : linux_bind [(a, p, true)] (a, p, true) = false.
Proof. unfold linux_bind. cbn. by rewrite bool_decide_true. Qed.

Definition server_config : Config := new_Config <| run_type := SERVER |> <| local_addr := str "0.0.0.0" |> <| local_port := 443 |>.
Lemma sighup_ends_process_witness :
  main no_failure true true true true (fun _ => None) no_tls_failure true false true true true false linux_bind
    (fun _ _ _ => Ret (server_config, 1)) (fun _ _ => None) (Some (plain_options (str "config.json"))) [SIGHUP] = Exit EXIT_FAILURE.
Proof.
  apply (sighup_ends_process true true true (fun _ => None) true false true true false linux_bind
    (fun _ _ _ => Ret (server_config, 1)) (fun _ _ => None) linux_free linux_in_use linux_shared (str "config.json") [] server_config 1).
  - reflexivity.
  - left. reflexivity.
  - discriminate.
  - reflexivity.
  - intros c0 lv0. exists server_config, 1. split; [reflexivity|]. split; [discriminate|]. split; reflexivity.
Defined.
End Main.
