(* ===== verification/Headers.v ===== *)
(** * Header fields

    The accessors of [src/src/proto/ipv4_header.h], [icmp_header.h] and
    [ipv6_header.h] that the relay and the tun device do not need, with the texts of
    [to_string]. *)

From Stdlib Require Import ZArith Lia String.
From S2P Require Import Prelude Utils Address Dns Icmp TunPacket.
Import Codec Checksum Istream.
Local Open Scope Z_scope.

(** [std::hex] of a number of two octets *)
Fixpoint hex_digits (fuel : nat) (z : Z) (acc : bytes) : bytes :=
  match fuel with
  | O => acc
  | S fuel =>
    let acc := Text.hex_digit (z mod 16) :: acc in
    if z <? 16 then acc else hex_digits fuel (z / 16) acc
  end.
Definition hex_text (z : Z) : bytes := hex_digits 8 z [].
(** [name << value << endl] *)
Definition field_line (name : string) (value : bytes) : bytes := str name ++ value ++ [LF].

Module Ipv4Fields.
Import Ipv4.
Definition clear (h : ipv4_header) : ipv4_header := new_header.
Definition type_of_service (h : ipv4_header) : Z := octet h 1.
Definition dont_fragment (h : ipv4_header) : bool := negb (Z.land (octet h 6) 0x40 =? 0).
Definition more_fragments (h : ipv4_header) : bool := negb (Z.land (octet h 6) 0x20 =? 0).
Definition fragment_offset (h : ipv4_header) : Z := Z.land (decode h 6 7) 0x1FFF.
Definition ipv4_to_string (h : ipv4_header) : bytes :=
  let int z := Text.to_string z in
  field_line "version: " (int (version h)) ++
  field_line "header_length: " (int (header_length h)) ++
  field_line "type_of_service: " (int (type_of_service h)) ++
  field_line "total_length: " (int (total_length h)) ++
  field_line "identification: " (int (identification h)) ++
  field_line "dont_fragment: " (int (if dont_fragment h then 1 else 0)) ++
  field_line "more_fragments: " (int (if more_fragments h then 1 else 0)) ++
  field_line "fragment_offset: " (int (fragment_offset h)) ++
  field_line "time_to_live: " (int (time_to_live h)) ++
  field_line "protocol: " (int (protocol h)) ++
  field_line "header_checksum: 0x" (hex_text (header_checksum h)).

Definition bit (b : bool) : Z := if b then 1 else 0.
(** The octets 6 and 7 are the reserved bit, the two flags and the offset, and nothing
    else. *)
Theorem fragment_fields_partition h :
  decode h 6 7 =
  bit (Z.testbit (octet h 6) 7) * 32768 + bit (dont_fragment h) * 16384 + bit (more_fragments h) * 8192 + fragment_offset h.
Proof.
  unfold decode, fragment_offset, dont_fragment, more_fragments, decode, octet.
  set (b6 := nth 6 h Byte.x00). pose proof (b2z_range (nth 7 h Byte.x00)) as Hn. set (n := b2z (nth 7 h Byte.x00)) in *.
  pose proof (b2z_range b6) as Hb.
  assert (H : b2z b6 = bit (Z.testbit (b2z b6) 7) * 128 + bit (negb (Z.land (b2z b6) 64 =? 0)) * 64 +
    bit (negb (Z.land (b2z b6) 32 =? 0)) * 32 + b2z b6 mod 32) by (clear; by destruct b6).
  unfold u16, one_byte_shift_8_bits. rewrite Z.shiftl_mul_pow2 by lia. change (2 ^ 8) with 256.
  rewrite (Z.mod_small (b2z b6 * 256 + n)) by lia. change 8191 with (Z.ones 13). rewrite Z.land_ones by lia.
  change (2 ^ 13) with 8192. assert (Hm : (b2z b6 * 256 + n) mod 8192 = b2z b6 mod 32 * 256 + n).
  { symmetry. apply Z.mod_unique with (q := b2z b6 / 32); [|]; pose proof (Z.div_mod (b2z b6) 32 ltac:(lia));
      pose proof (Z.mod_pos_bound (b2z b6) 32 ltac:(lia)); lia. }
  rewrite Hm. lia.
Qed.
End Ipv4Fields.

Module IcmpFields.
Import IcmpHeader.
Definition set_identifier (h : icmp_header) (n : Z) : icmp_header := encode h 4 5 n.
Definition set_sequence_number (h : icmp_header) (n : Z) : icmp_header := encode h 6 7 n.
Definition icmp_to_string (h : icmp_header) : bytes :=
  field_line "type: " (Text.to_string (type h)) ++ field_line "code: " (Text.to_string (code h)) ++
  field_line "checksum: 0x" (hex_text (checksum h)).
(** [assign_checksum()], for a message without a body *)
Definition assign_checksum_ (h : icmp_header) : icmp_header :=
  let sum := u32 (Z.shiftl (type h) one_byte_shift_8_bits + code h + identifier h + sequence_number h) in
  set_checksum h (fold_sum sum).
Lemma assign_checksum_empty_body h : assign_checksum_ h = assign_checksum h [].
Proof. done. Qed.
End IcmpFields.

Module Ipv6.
Definition HEADER_FIXED_LENGTH : Z := 40.
Definition ipv6_header := bytes.
Definition new_header : ipv6_header := replicate 40 Byte.x00.
Definition version (h : ipv6_header) : Z := Z.land (Z.shiftr (octet h 0) 4) 15.
Definition payload_length (h : ipv6_header) : Z := decode h 4 5.
Definition read_ipv6 (i : istream) : istream * ipv6_header :=
  let '(i, got) := read i HEADER_FIXED_LENGTH in (i, got ++ drop (length got) new_header).

(** The length the tun device takes for an IPv6 packet is the one of its header. *)
Theorem ipv6_packet_length data :
  40 <= zlen data ->
  let '(i, h) := read_ipv6 (istringstream data) in
  failed i = false /\ packet_length IPV6 data = Ret (Some (u16 (payload_length h + HEADER_FIXED_LENGTH))).
Proof.
  intros Hl. assert (Hz : zlen (take 40 data) = 40) by (unfold zlen in *; rewrite length_take; lia).
  change (read_ipv6 (istringstream data)) with
    (let i := istringstream data <| pos ::= fun p => p + zlen (take 40 data) |> in
     (if zlen (take 40 data) <? 40 then i <| failed := true |> else i, take 40 data ++ drop (length (take 40 data)) new_header)).
  cbv zeta. rewrite Hz. split; [done|].
  unfold packet_length. destruct (Z.ltb_spec (zlen data) sizeof_ipv6_header); [unfold sizeof_ipv6_header in *; lia|].
  destruct data as [|c0 [|c1 [|c2 [|c3 [|c4 [|c5 data]]]]]]; try (unfold zlen in Hl; cbn in Hl; lia).
  change (payload_length _) with (u16 (Z.shiftl (b2z c4) 8 + b2z c5)).
  change (parse_uint16 4 _) with (Ret (Z.lor (Z.shiftl (b2z c4) 8) (b2z c5))).
  rewrite lor_shiftl_add by (try lia; apply b2z_range). cbn [obind IPV6 IPV4 Z.eqb Pos.eqb]. do 2 f_equal.
  pose proof (b2z_range c4). pose proof (b2z_range c5). rewrite Z.shiftl_mul_pow2 by lia. unfold u16.
  rewrite (Z.mod_small (b2z c4 * 2 ^ 8 + b2z c5)) by lia. reflexivity.
Qed.
End Ipv6.
