(* ===== verification/TunSetup.v ===== *)
(** * The tun device: setting up and taking down

    The constructor of [TUNDev], the end of [destroy], the destructor, the DNS queryer
    of the device and [tcp_remove] ([src/src/tun/tundev.cpp]): calls of the system and
    of lwIP in order, with the errors the code looks at.  Here an exception keeps the
    state it was thrown in, since a constructor that throws runs no destructor. *)

From Stdlib Require Import ZArith Lia String.
From stdpp Require Import gmap.
From S2P Require Import Prelude Utils Address Headers.
Local Open Scope Z_scope.

Module TunSetup.

Inductive tun_call :=
| OpenDevice | TunSetIff (ifr_name : bytes) | SdAssign (fd : Z)
| LwipInit | NetifAdd (addr netmask : Z) | NetifSetUp | NetifSetLinkUp | NetifSetPretendTcp | NetifSetDefault
| TcpNew | TcpBindToNetif | TcpCloseNew | TcpBindNetif | TcpListen | TcpArg | TcpAccept
| AsyncRead | DnsStart
| TcpCloseListener | NetifRemove | TcpAbort (pcb : nat) | SdClose | SdRelease.
#[export] Instance tun_call_eq_dec : EqDecision tun_call.
Proof. solve_decision. Defined.

(** The members, the static [sm_tundev] (whether it is set), the calls made, and the
    descriptors that were opened and belong to nobody *)
Record TUNDev := mkDev {
  u_netif_configured : bool;
  u_listener : bool;                    (* m_tcp_listener is not null *)
  u_tun_fd : Z;
  u_outside : bool;
  u_mtu : Z;
  u_dns_endpoint : option (Z * Z);      (* m_dns_server_endpoint: address and port *)
  u_queryer : bool;                     (* m_dns_queryer has a handler *)
  u_static : bool;
  u_calls : list tun_call;
  u_loose : list Z
}.
#[export] Instance eta_TUNDev : Settable TUNDev :=
  fun r => mkDev (u_netif_configured r) (u_listener r) (u_tun_fd r) (u_outside r) (u_mtu r) (u_dns_endpoint r)
    (u_queryer r) (u_static r) (u_calls r) (u_loose r).

(** An exception comes with the state. *)
Definition UM (A : Type) : Type := TUNDev -> TUNDev * (A + exn).
Definition uret {A} (a : A) : UM A := fun s => (s, inl a).
Definition uthrow {A} (e : exn) : UM A := fun s => (s, inr e).
Definition ubind {A B} (m : UM A) (k : A -> UM B) : UM B :=
  fun s => match m s with (s', inl a) => k a s' | (s', inr e) => (s', inr e) end.
Definition umod (f : TUNDev -> TUNDev) : UM unit := fun s => (f s, inl tt).
Definition uget : UM TUNDev := fun s => (s, inl s).
Declare Scope setup_scope.
Notation "x <- m ;; k" := (ubind m (fun x => k)) (at level 100, m at next level, right associativity) : setup_scope.
Notation "m ;;; k" := (ubind m (fun _ => k)) (at level 100, right associativity) : setup_scope.
Local Open Scope setup_scope.

Section Operations.
(** What [open] returns, the calls that fail, and Boost's parser of IPv4 addresses *)
Context (open_fd : Z) (fails : tun_call -> bool) (make_address_v4 : bytes -> option Z).

Definition note (x : tun_call) : UM unit := umod (fun s => s <| u_calls ::= fun l => l ++ [x] |>).
(** A call whose result is looked at *)
Definition try_ (x : tun_call) : UM bool := note x ;;; uret (negb (fails x)).
Definition address_v4 (text : bytes) : UM Z :=
  match make_address_v4 text with Some a => uret a | None => uthrow (system_error 22) end.

Definition IFNAMSIZ : Z := 16.
(** [snprintf(ifr_name, IFNAMSIZ, "%s", name)] *)
Definition ifr_name (name : bytes) : bytes := take (Z.to_nat (IFNAMSIZ - 1)) (Streambuf.c_str name).

Definition open_device (tun_name : bytes) : UM unit :=
  s <- uget ;;
  if u_tun_fd s =? -1 then
    note OpenDevice ;;;
    umod (fun s => s <| u_tun_fd := open_fd |>) ;;;
    if open_fd <? 0 then uthrow (runtime_error "[tun] error opening device") else
    umod (fun s => s <| u_loose := [open_fd] |>) ;;;
    ok <- try_ (TunSetIff (ifr_name tun_name)) ;;
    if negb ok then uthrow (runtime_error "[tun] error configuring device") else uret tt
  else uret tt.

Definition add_netif (ipaddr netmask : bytes) : UM unit :=
  note LwipInit ;;;
  addr <- address_v4 ipaddr ;;
  mask <- address_v4 netmask ;;
  ok <- try_ (NetifAdd addr mask) ;;
  if negb ok then uthrow (runtime_error "[tun] netif_add failed") else
  note NetifSetUp ;;;
  note NetifSetLinkUp ;;;
  note NetifSetPretendTcp ;;;
  note NetifSetDefault ;;;
  umod (fun s => s <| u_netif_configured := true |>).

Definition add_listener : UM unit :=
  ok <- try_ TcpNew ;;
  if negb ok then uthrow (runtime_error "[tun] tcp_new_ip_type failed") else
  ok <- try_ TcpBindToNetif ;;
  if negb ok then note TcpCloseNew ;;; uthrow (runtime_error "[tun] tcp_bind_to_netif failed") else
  note TcpBindNetif ;;;
  ok <- try_ TcpListen ;;
  if negb ok then note TcpCloseNew ;;; uthrow (runtime_error "[tun] tcp_listen failed") else
  umod (fun s => s <| u_listener := true |>) ;;;
  note TcpArg ;;;
  note TcpAccept.

(** [DNSServer::start] opens the queryer, which stores the handler. *)
Definition add_dns (ipaddr : bytes) (dns_port : Z) : UM unit :=
  a <- address_v4 ipaddr ;;
  umod (fun s => s <| u_dns_endpoint := Some (a, u16 dns_port) |>) ;;;
  umod (fun s => s <| u_queryer := true |>) ;;;
  ok <- try_ DnsStart ;;
  if negb ok then uthrow (runtime_error "[tun] dns server start failed") else uret tt.

(** The members a constructor starts with; the static is as it was. *)
Definition new_dev (mtu outside_fd : Z) (static : bool) : TUNDev :=
  mkDev false false outside_fd (negb (outside_fd =? -1)) (u16 mtu) None false static [] [].
Definition construct (tun_name ipaddr netmask : bytes) (dns_port : Z) : UM unit :=
  s <- uget ;;
  if u_static s then uthrow (runtime_error "_assert(sm_tundev == nullptr)") else
  umod (fun s => s <| u_static := true |>) ;;;
  open_device tun_name ;;;
  s <- uget ;;
  note (SdAssign (u_tun_fd s)) ;;;
  umod (fun s => s <| u_loose := [] |>) ;;;
  add_netif ipaddr netmask ;;;
  add_listener ;;;
  note AsyncRead ;;;
  add_dns ipaddr dns_port.

(** *** [tcp_remove]: [next] of the pcbs that are allocated *)
Fixpoint tcp_remove (fuel : nat) (pcb : option nat) (next : gmap nat (option nat))
  : outcome (gmap nat (option nat) * list nat) :=
  match pcb with
  | None => Ret (next, [])
  | Some p =>
    match fuel with
    | O => Undef NoEnd
    | S fuel =>
      match next !! p with
      | None => Undef NoObject
      | Some pcb =>
        (* [tcp_abort] frees the pcb *)
        let! '(next, aborted) := tcp_remove fuel pcb (delete p next) in
        Ret (next, p :: aborted)
      end
    end
  end.

(** The end of [destroy]; the aborted pcbs of the three lists of lwIP *)
Definition destroy_lwip (aborted : list nat) : UM unit :=
  s <- uget ;;
  (if u_listener s then note TcpCloseListener else uret tt) ;;;
  (if u_netif_configured s then note NetifRemove ;;; umod (fun s => s <| u_netif_configured := false |>) else uret tt) ;;;
  umod (fun s => s <| u_calls ::= fun l => l ++ map TcpAbort aborted |>) ;;;
  umod (fun s => s <| u_static := false |>).

Definition destructor : UM unit :=
  s <- uget ;;
  if negb (u_tun_fd s =? -1) && negb (u_outside s) then note SdClose else note SdRelease.

(** [netif_init_func]: the name and the MTU of the interface *)
Definition netif_init_func (s : TUNDev) : bytes * Z := (str "ho", u_mtu s).

(** *** [TUNDNSQueryer]: the buffer and whether a handler is stored *)
Record TUNDNSQueryer := mkQueryer { dq_handler : bool; dq_buf : bytes }.
Definition dq_open (q : TUNDNSQueryer) : TUNDNSQueryer * bool := (mkQueryer true (dq_buf q), true).
(** What the handler is called with *)
Definition dq_recved (from : endpoint) (data : bytes) (q : TUNDNSQueryer) : outcome (TUNDNSQueryer * (endpoint * bytes)) :=
  let buf := Streambuf.consume (dq_buf q) (zlen (dq_buf q)) in
  let buf := fst (Streambuf.append_view buf data) in
  if dq_handler q then Ret (mkQueryer true buf, (from, buf)) else Throw (runtime_error "bad_function_call").
End Operations.

(** ** [lwip_tcp_client::client_log]: a line of at most 255 octets *)

Definition client_prefix (local remote : byte * byte * byte * byte) (lport rport pcb session_id : Z) : bytes :=
  let text a := let '(b0, b1, b2, b3) := a in v4_to_string b0 b1 b2 b3 in
  str "[lwip] [" ++ text local ++ str ":" ++ Text.to_string lport ++ str "->" ++ text remote ++ str ":" ++
  Text.to_string rport ++ str "] [pcb:0x" ++ hex_digits 16 pcb [] ++ str " session_id: " ++
  Text.to_string session_id ++ str "] ".
(** The message is printed after the [n] octets of the prefix, into the [256 - n] that are
    left; beyond the buffer when the prefix is longer. *)
Definition client_log (prefix message : bytes) : outcome bytes :=
  let buf_size := 256 in
  let n := zlen prefix in
  if buf_size <=? n then Undef (OutOfView prefix buf_size)
  else Ret (prefix ++ take (Z.to_nat (buf_size - n - 1)) message).

Lemma dec_digits_length fuel k : forall z acc, 0 <= z < 10 ^ Z.of_nat (S k) ->
  (length (Text.dec_digits fuel z acc) <= S k + length acc)%nat.
Proof.
  induction k as [|k IH] in fuel |- *; intros z acc Hz.
  - destruct fuel; cbn [Text.dec_digits]; [lia|]. destruct (Z.ltb_spec z 10); [cbn; lia|]. change (10 ^ Z.of_nat 1) with 10 in Hz. lia.
  - destruct fuel; cbn [Text.dec_digits]; [lia|]. destruct (Z.ltb_spec z 10); [cbn; lia|].
    etransitivity; [apply IH|cbn; lia]. rewrite (Nat2Z.inj_succ (S k)), Z.pow_succ_r in Hz by lia.
    split; [apply Z.div_pos; lia|apply Z.div_lt_upper_bound; lia].
Qed.
Lemma hex_digits_length fuel : forall z acc, (length (hex_digits fuel z acc) <= fuel + length acc)%nat.
Proof.
  induction fuel as [|fuel IH]; intros z acc; cbn [hex_digits]; [lia|]. destruct (z <? 16); [cbn; lia|].
  etransitivity; [apply IH|cbn; lia].
Qed.
Lemma v4_length b0 b1 b2 b3 : zlen (v4_to_string b0 b1 b2 b3) <= 15.
Proof.
  assert (H : forall b, zlen (Text.to_string (b2z b)) <= 3).
  { intros b. unfold zlen, Text.to_string. pose proof (b2z_range b).
    pose proof (dec_digits_length 20 2 (b2z b) [] ltac:(change (10 ^ Z.of_nat 3) with 1000; lia)) as Hd. cbn [length] in Hd. lia. }
  unfold v4_to_string. rewrite !zlen_app. change (zlen [Text.dot]) with 1. pose proof (H b0). pose proof (H b1).
  pose proof (H b2). pose proof (H b3). lia.
Qed.
Lemma u16_text_length z : 0 <= z < 65536 -> zlen (Text.to_string z) <= 5.
Proof.
  intros Hz. unfold zlen, Text.to_string.
  pose proof (dec_digits_length 20 4 z [] ltac:(change (10 ^ Z.of_nat 5) with 100000; lia)) as Hd. cbn [length] in Hd. lia.
Qed.
(** The prefix always leaves room: a line is written inside its buffer, and ends after at
    most 255 octets. *)
Theorem client_log_in_bounds local remote lport rport pcb session_id message :
  0 <= lport < 65536 -> 0 <= rport < 65536 -> 0 <= session_id < 65536 ->
  exists line, client_log (client_prefix local remote lport rport pcb session_id) message = Ret line /\ zlen line <= 255.
Proof.
  intros Hl Hr Hs. destruct local as [[[a0 a1] a2] a3], remote as [[[c0 c1] c2] c3].
  assert (Hn : zlen (client_prefix (a0, a1, a2, a3) (c0, c1, c2, c3) lport rport pcb session_id) <= 110).
  { unfold client_prefix. rewrite !zlen_app. pose proof (v4_length a0 a1 a2 a3). pose proof (v4_length c0 c1 c2 c3).
    pose proof (u16_text_length lport Hl). pose proof (u16_text_length rport Hr). pose proof (u16_text_length session_id Hs).
    pose proof (hex_digits_length 16 pcb []) as Hh. cbn [length] in Hh. assert (zlen (hex_digits 16 pcb []) <= 16) by (unfold zlen; lia).
    change (zlen (str "[lwip] [")) with 8. change (zlen (str ":")) with 1. change (zlen (str "->")) with 2.
    change (zlen (str "] [pcb:0x")) with 9. change (zlen (str " session_id: ")) with 13. change (zlen (str "] ")) with 2. lia. }
  unfold client_log. destruct (Z.leb_spec 256 (zlen (client_prefix (a0, a1, a2, a3) (c0, c1, c2, c3) lport rport pcb session_id))); [lia|].
  eexists. split; [reflexivity|]. rewrite zlen_app. unfold zlen at 2. rewrite length_take. lia.
Qed.

(** ** What is set up *)

Section Theorems.
Context (open_fd : Z) (fails : tun_call -> bool) (make_address_v4 : bytes -> option Z).
Notation construct := (construct open_fd fails make_address_v4).

(** The calls of a constructor that succeeds *)
Definition device_calls (outside : bool) (tun_name : bytes) (fd addr mask : Z) : list tun_call :=
  (if outside then [] else [OpenDevice; TunSetIff (ifr_name tun_name)]) ++
  [SdAssign fd; LwipInit; NetifAdd addr mask; NetifSetUp; NetifSetLinkUp; NetifSetPretendTcp; NetifSetDefault;
   TcpNew; TcpBindToNetif; TcpBindNetif; TcpListen; TcpArg; TcpAccept; AsyncRead; DnsStart].

(** When nothing fails, the device is configured as asked: it listens, it reads, its DNS
    server answers under its own address, and it is the one device of the process. *)
Theorem device_set_up tun_name ipaddr netmask dns_port mtu outside_fd addr mask :
  (forall x, fails x = false) -> 0 <= open_fd ->
  make_address_v4 ipaddr = Some addr -> make_address_v4 netmask = Some mask ->
  let fd := if outside_fd =? -1 then open_fd else outside_fd in
  construct tun_name ipaddr netmask dns_port (new_dev mtu outside_fd false) =
  (mkDev true true fd (negb (outside_fd =? -1)) (u16 mtu) (Some (addr, u16 dns_port)) true true
     (device_calls (negb (outside_fd =? -1)) tun_name fd addr mask) [], inl tt).
Proof.
  intros Hf Ho Ha Hm. cbv zeta. unfold TunSetup.construct, open_device, add_netif, add_listener, add_dns, address_v4, try_.
  unfold new_dev, ubind, uget, umod, uret, note, uthrow. cbn. rewrite Ha, Hm.
  destruct (outside_fd =? -1) eqn:E; cbn.
  - destruct (Z.ltb_spec open_fd 0); [lia|]. rewrite !Hf. cbn. reflexivity.
  - rewrite !Hf. cbn. reflexivity.
Qed.

(** *** Errors *)

Definition keeps (P : TUNDev -> Prop) {A} (m : UM A) : Prop := forall s, P s -> P (fst (m s)).
Lemma dev_keeps_bind P {A B} (m : UM A) (k : A -> UM B) : keeps P m -> (forall a, keeps P (k a)) -> keeps P (ubind m k).
Proof. intros Hm Hk s Hs. unfold ubind. specialize (Hm s Hs). destruct (m s) as [s' [a|e]]; [by apply Hk|done]. Qed.
Lemma dev_keeps_ret P {A} (a : A) : keeps P (uret a).
Proof. by intros s. Qed.
Lemma dev_keeps_throw P {A} e : keeps P (@uthrow A e).
Proof. by intros s. Qed.
Lemma keeps_get P : keeps P uget.
Proof. by intros s. Qed.
Definition static_set (s : TUNDev) : Prop := u_static s = true.
Lemma keeps_note x : keeps static_set (note x).
Proof. by intros s. Qed.

(** A constructor that throws leaves [sm_tundev] set: there is no destructor to reset
    it, and no second device can be made. *)
Theorem failed_device_blocks tun_name ipaddr netmask dns_port s s' e :
  u_static s = false -> construct tun_name ipaddr netmask dns_port s = (s', inr e) ->
  u_static s' = true /\
  forall tun_name' ipaddr' netmask' dns_port' mtu' fd',
    exists s2, TunSetup.construct open_fd fails make_address_v4 tun_name' ipaddr' netmask' dns_port'
        (new_dev mtu' fd' (u_static s')) = (s2, inr (runtime_error "_assert(sm_tundev == nullptr)")) /\ u_calls s2 = [].
Proof.
  intros Hs E. assert (Hst : u_static s' = true).
  { change s' with (fst (s', inr e : unit + exn)). rewrite <- E. unfold TunSetup.construct. unfold ubind at 1, uget at 1. rewrite Hs.
    unfold ubind at 1, umod at 1. set (s1 := s <| u_static := true |>). assert (H1 : static_set s1) by done.
    clearbody s1. clear E Hs. revert s1 H1.
    match goal with |- forall s1, _ -> u_static (fst (?m s1)) = true => change (keeps static_set m) end.
    unfold open_device, add_netif, add_listener, add_dns, address_v4, try_.
    repeat first [apply dev_keeps_bind; [|intros ?] | apply dev_keeps_ret | apply dev_keeps_throw | apply keeps_get | apply keeps_note | case_match
                 | intros ? ?; done]. }
  split; [done|]. intros. rewrite Hst. eexists. split; [reflexivity|]. done.
Qed.

(** *** [tcp_remove] *)
Inductive chain (next : gmap nat (option nat)) : option nat -> list nat -> Prop :=
| chain_nil : chain next None []
| chain_cons p q l : next !! p = Some q -> chain next q l -> chain next (Some p) (p :: l).

Lemma chain_delete next p q l : chain next q l -> p ∉ l -> chain (delete p next) q l.
Proof.
  induction 1 as [|x q l Hx _ IH]; intros Hp; [constructor|]. econstructor; [|apply IH; set_solver].
  rewrite lookup_delete_ne; [exact Hx|set_solver].
Qed.
(** Every pcb of a list of lwIP is aborted once, in order; the link of a pcb is read
    before it is freed, and the other pcbs stay. *)
Theorem tcp_remove_aborts_all pcb l next fuel :
  chain next pcb l -> NoDup l -> (length l <= fuel)%nat ->
  exists next', tcp_remove fuel pcb next = Ret (next', l) /\
    forall p, next' !! p = if decide (p ∈ l) then None else next !! p.
Proof.
  intros Hc Hn. revert next pcb fuel Hc. induction Hn as [|p l Hp _ IH]; intros next pcb fuel Hc Hf.
  - inversion Hc; subst. exists next. split; [by destruct fuel|]. intros p. rewrite decide_False by set_solver. done.
  - inversion Hc as [|p' q l' Hq Hc']; subst. destruct fuel as [|fuel]; [cbn in Hf; lia|]. cbn [tcp_remove]. rewrite Hq.
    destruct (IH (delete p next) q fuel) as (next' & -> & Hx); [by apply chain_delete|cbn in Hf; lia|].
    exists next'. split; [done|]. intros x. rewrite Hx. destruct (decide (x = p)) as [->|Hne].
    + rewrite decide_False by done. rewrite decide_True by set_solver. apply lookup_delete_eq.
    + rewrite lookup_delete_ne by done. do 2 case_decide; set_solver.
Qed.

(** [destroy] closes the listener and removes the interface once, and lets another device
    be made. *)
Theorem device_destroyed aborted s :
  u_netif_configured s = true -> u_listener s = true ->
  let r := destroy_lwip aborted s in
  snd r = inl tt /\ u_static (fst r) = false /\ u_netif_configured (fst r) = false /\
  u_calls (fst r) = u_calls s ++ [TcpCloseListener; NetifRemove] ++ map TcpAbort aborted.
Proof.
  intros Hc Hl. unfold destroy_lwip, ubind, uget, note, umod, uret. rewrite Hl. cbn. rewrite Hc. cbn.
  split_and!; [done|done|done|]. by rewrite <- !app_assoc.
Qed.
End Theorems.
End TunSetup.
