(* ===== verification/SslShutdown.v ===== *)
(** * Closing a TLS connection

    [shutdown_ssl_socket] ([src/src/core/utils.h]): an asynchronous TLS shutdown raced
    by a timer.  Both have the same callback; the first that was not cancelled closes
    the socket and cancels the other.  The steps of Asio (an operation becomes ready,
    its handler is run) are a relation. *)

From Stdlib Require Import ZArith Lia String.
From S2P Require Import Prelude Utils.
Local Open Scope Z_scope.

Module SslShutdown.

(** An asynchronous operation: started, ready to run its handler with an error code
    ([None]: success or another error than cancellation), or over *)
Inductive answer := Aborted | Other.
Inductive operation := Started | Ready (a : answer) | Over.
#[export] Instance answer_eq_dec : EqDecision answer.
Proof. solve_decision. Defined.
#[export] Instance operation_eq_dec : EqDecision operation.
Proof. solve_decision. Defined.

(** The socket, the two operations, and how often the socket was closed *)
Record Shutdown := mkShutdown {
  h_open : bool;
  h_shutdown : operation;
  h_timer : operation;
  h_closes : nat
}.
#[export] Instance eta_Shutdown : Settable Shutdown :=
  fun r => mkShutdown (h_open r) (h_shutdown r) (h_timer r) (h_closes r).

(** [cancel]: an operation that has not become ready will be ready with an error. *)
Definition cancel (o : operation) : operation := match o with Started => Ready Aborted | o => o end.

(** [ssl_shutdown_cb] *)
Definition ssl_shutdown_cb (a : answer) (s : Shutdown) : Shutdown :=
  match a with
  | Aborted => s
  | Other => s <| h_timer ::= cancel |> <| h_shutdown ::= cancel |> <| h_open := false |>
               <| h_closes ::= fun n => if h_open s then S n else n |>
  end.

(** [shutdown_ssl_socket]: nothing happens when the socket is closed already. *)
Definition shutdown_ssl_socket (is_open : bool) : Shutdown :=
  if is_open then mkShutdown true Started Started 0 else mkShutdown false Over Over 0.

Inductive step : Shutdown -> Shutdown -> Prop :=
| timer_expires s : h_timer s = Started -> step s (s <| h_timer := Ready Other |>)
| shutdown_ends s a : h_shutdown s = Started -> step s (s <| h_shutdown := Ready a |>)
| timer_runs s a : h_timer s = Ready a -> step s (ssl_shutdown_cb a (s <| h_timer := Over |>))
| shutdown_runs s a : h_shutdown s = Ready a -> step s (ssl_shutdown_cb a (s <| h_shutdown := Over |>)).

Inductive reachable (b : bool) : Shutdown -> Prop :=
| reachable_init : reachable b (shutdown_ssl_socket b)
| reachable_step s s' : reachable b s -> step s s' -> reachable b s'.

(** While the socket is open its timer runs or is about to close it. *)
Definition inv (b : bool) (s : Shutdown) : Prop :=
  (h_open s = true -> h_timer s = Started \/ h_timer s = Ready Other) /\
  h_closes s = (if b && negb (h_open s) then 1 else 0)%nat /\ (h_open s = true -> b = true).

Lemma cb_inv b a s :
  (h_open s = true -> a = Aborted -> h_timer s = Started \/ h_timer s = Ready Other) ->
  h_closes s = (if b && negb (h_open s) then 1 else 0)%nat -> (h_open s = true -> b = true) ->
  inv b (ssl_shutdown_cb a s).
Proof.
  intros Ht Hc Hb. destruct a; cbn [ssl_shutdown_cb]; [by repeat split; auto|]. destruct s as [o sh ti n]; cbn in *.
  split; [done|]. split; [|done]. cbn. destruct o; [rewrite Hb by done; by rewrite Hb in Hc by done; subst|by subst].
Qed.
Lemma reachable_inv b s : reachable b s -> inv b s.
Proof.
  induction 1 as [|s s' _ (H1 & H2 & H3) Hst]; [destruct b; by repeat split; auto|].
  destruct Hst as [s Ht|s a Hs|s a Ht|s a Hs].
  - by repeat split; auto.
  - by repeat split; auto.
  - apply cb_inv; [|done|done]. intros Ho ->. change (h_open s = true) in Ho. apply H1 in Ho as [?|?]; congruence.
  - apply cb_inv; [|done|done]. intros Ho _. by apply H1.
Qed.

(** What the two operations still have to do *)
Definition work (o : operation) : nat := match o with Started => 2 | Ready _ => 1 | Over => 0 end.
Definition left_ (s : Shutdown) : nat := work (h_timer s) + work (h_shutdown s).
Lemma work_cancel o : (work (cancel o) <= work o)%nat.
Proof. destruct o as [|a|]; cbn; lia. Qed.
Lemma step_decreases s s' : step s s' -> (left_ s' < left_ s)%nat.
Proof.
  unfold left_. intros [t H|t a H|t a H|t a H]; destruct t as [o sh ti n]; cbn in H; subst; cbn; try lia.
  all: destruct a; cbn; try lia; match goal with |- context [work (cancel ?o)] => pose proof (work_cancel o); lia end.
Qed.

(** C37: a connection that was open is closed exactly once, whichever of the two ends first and
    even when the shutdown is cancelled; there are at most four steps, and as long as the
    socket is open one can be made. *)
Theorem ssl_shutdown_closes s :
  reachable true s ->
  (h_open s = true -> exists s', step s s') /\
  (h_timer s = Over -> h_open s = false) /\ (h_open s = false -> h_closes s = 1%nat) /\
  forall s', step s s' -> (left_ s' < left_ s <= 4)%nat.
Proof.
  intros Hr. pose proof (reachable_inv _ _ Hr) as (H1 & H2 & _). split_and!.
  - intros Ho. destruct (H1 Ho) as [Ht|Ht]; eexists; [by apply timer_expires|by eapply timer_runs].
  - intros Ht. destruct (h_open s); [|done]. destruct (H1 eq_refl); congruence.
  - intros Ho. by rewrite Ho in H2.
  - intros s' Hs. split; [by apply step_decreases|]. unfold left_. destruct (h_timer s), (h_shutdown s); cbn; lia.
Qed.

Lemma ssl_shutdown_closes_witness :
  let s := ssl_shutdown_cb Other (mkShutdown true (Ready Aborted) Over 0) in
  h_open s = false /\ h_closes s = 1%nat.
Proof.
  set (s0 := mkShutdown true (Ready Aborted) (Ready Other) 0).
  assert (Hr : reachable true s0).
  { eapply reachable_step; [eapply reachable_step; [apply reachable_init|]|].
    - by apply (shutdown_ends _ Aborted).
    - by apply timer_expires. }
  assert (Hs : reachable true (ssl_shutdown_cb Other (mkShutdown true (Ready Aborted) Over 0))).
  { eapply reachable_step; [exact Hr|]. by apply (timer_runs s0 Other). }
  destruct (ssl_shutdown_closes _ Hs) as (_ & H1 & H2 & _).
  cbv zeta. split; [by apply H1|]. apply H2. by apply H1.
Defined.
End SslShutdown.
