(* ===== verification/PipelineChannel.v ===== *)
(** * A pipeline as a channel

    One direction of a pipeline, end to end: commands are written by
    [PipelineRequest::generate] into the [SendDataCache] of the sender, what that
    writes crosses the connection, and the receiver's loop takes commands from
    whatever its reads return.  The composition refines a queue of commands, so the
    data of each session arrives in order, without loss or repetition, whatever the
    interleaving of pushes, writes, handlers that push more, and reads. *)

From Stdlib Require Import ZArith Lia String.
From stdpp Require Import relations.
From S2P Require Import Prelude Utils PipelineProto Caches.
Import SendDataCache PipelineRequest.
Local Open Scope Z_scope.

Module PipelineChannel.

(** ** The specification: a queue of commands *)

Record queue := mkQueue { q_sent : list PipelineRequest; q_got : list PipelineRequest }.
Inductive queue_step : queue -> queue -> Prop :=
| enqueue s g r : queue_step (mkQueue s g) (mkQueue (s ++ [r]) g)
| dequeue s g r : s !! length g = Some r -> queue_step (mkQueue s g) (mkQueue s (g ++ [r])).
Definition empty_queue : queue := mkQueue [] [].

(** What was taken is the head of what was put. *)
Lemma queue_prefix q : rtc queue_step empty_queue q -> q_got q `prefix_of` q_sent q.
Proof.
  intros Hr. remember empty_queue as q0 eqn:E0. assert (H0 : q_got q0 `prefix_of` q_sent q0) by (by subst q0).
  clear E0. induction Hr as [|q1 q2 q3 Hst _ IH]; [done|]. apply IH. clear IH. destruct Hst as [s g r|s g r Hl]; cbn in *.
  - by apply prefix_app_r.
  - destruct H0 as [t ->]. rewrite lookup_app_r in Hl by lia. rewrite Nat.sub_diag in Hl.
    destruct t as [|x t]; [done|]. injection Hl as ->. exists t. by rewrite <- app_assoc.
Qed.

(** ** The implementation *)

Section Channel.
Context {H : Type} (react : H -> error_code -> list (bytes * H)).
(** What the sender writes first (the password and CR LF), and is taken off before the
    first command *)
Context (pre : bytes).

(** The sender's cache, how many octets of commands the receiver has read, its buffer and
    the commands it has handled *)
Record channel := mkChannel {
  ch_cache : @cache H;
  ch_read : nat;
  ch_buf : bytes;
  ch_got : list PipelineRequest
}.
(** The octets of commands that were written so far *)
Definition on_wire (c : @cache H) : bytes := drop (length pre) (written (log c)).

(** A read that returns [n] octets *)
Definition receive (n : nat) (s : channel) : outcome channel :=
  let chunk := take n (drop (ch_read s) (on_wire (ch_cache s))) in
  let data := ch_buf s ++ chunk in
  let! '(got, buf, _) := drain_all (fun r l => l ++ [r]) (S (length data)) data (ch_got s) in
  Ret (mkChannel (ch_cache s) (ch_read s + length chunk) buf got).

(** What handlers and the sessions push are commands. *)
Definition is_command (d : bytes) : Prop := exists f, frame_wf f /\ d = encode f.
Definition op_ok (o : @op H) : Prop :=
  match o with Push d _ => is_command d | Insert _ => False | _ => True end.
Context (react_commands : forall h ec, Forall (fun p => is_command (fst p)) (react h ec)).

Inductive channel_step : channel -> channel -> Prop :=
| ch_op o s : op_ok o ->
    channel_step s (mkChannel (step react (ch_cache s) o) (ch_read s) (ch_buf s) (ch_got s))
| ch_receive n s s' : receive n s = Ret s' -> channel_step s s'.

(** *** The commands that were pushed *)
Definition pieces (l : list (@event H)) : list bytes :=
  flat_map (fun e => match e with Pushed d => [d] | _ => [] end) l.
Definition commands (c : @cache H) (fs : list frame) : Prop :=
  Forall frame_wf fs /\ map encode fs = pieces (log c).
Lemma pieces_app l e : pieces (l ++ e) = pieces l ++ pieces e.
Proof. apply flat_map_app. Qed.
Lemma pushed_pieces l : pushed l = concat (pieces l).
Proof.
  induction l as [|e l IH]; [done|]. cbn. rewrite concat_app. f_equal; [|exact IH].
  destruct e; cbn; by rewrite ?app_nil_r.
Qed.

(** An operation adds events; those that push are commands. *)
Definition event_ok (e : @event H) : Prop := match e with Pushed d => is_command d | _ => True end.
Definition extends (c c' : @cache H) : Prop := exists l, log c' = log c ++ l /\ Forall event_ok l.
Lemma extends_refl c : extends c c.
Proof. exists []. by rewrite app_nil_r. Qed.
Lemma extends_trans c1 c2 c3 : extends c1 c2 -> extends c2 c3 -> extends c1 c3.
Proof.
  intros (l1 & E1 & H1) (l2 & E2 & H2). exists (l1 ++ l2). rewrite E2, E1, app_assoc. split; [done|]. by apply list.Forall_app.
Qed.
Lemma extends_log c c' : log c' = log c -> extends c c'.
Proof. intros E. exists []. by rewrite app_nil_r. Qed.
Lemma extends_emit e c : event_ok e -> extends c (emit e c).
Proof. intros He. exists [e]. split; [done|]. by constructor. Qed.
Lemma extends_send c : extends c (async_send c).
Proof.
  unfold async_send. destruct (_ || _); [apply extends_refl|].
  eapply extends_trans; [|by apply extends_emit]. by apply extends_log.
Qed.
Lemma log_set_queue b d (c : @cache H) : log (set_queue b d c) = log c.
Proof. unfold set_queue. by destruct b. Qed.
Lemma log_set_handlers b d (c : @cache H) : log (set_handlers b d c) = log c.
Proof. unfold set_handlers. by destruct b. Qed.
Lemma extends_push d h c : is_command d -> extends c (push_data d h c).
Proof.
  intros Hd. unfold push_data. eapply extends_trans; [by apply (extends_emit (Registered h))|].
  destruct (destroyed _); [by apply extends_emit|]. eapply extends_trans; [|apply extends_send].
  eapply extends_trans; [|apply extends_log, log_set_handlers].
  eapply extends_trans; [|by apply (extends_emit (Pushed d))]. apply extends_log, log_set_queue.
Qed.
Lemma extends_call ec c h : extends c (call_and_react react ec c h).
Proof.
  unfold call_and_react. eapply extends_trans; [by apply (extends_emit (Called h ec))|].
  generalize (react_commands h ec). generalize (emit (Called h ec) c).
  induction (react h ec) as [|[d h'] l IH]; intros c' Hl; [apply extends_refl|]. cbn.
  apply list.Forall_cons in Hl as [Hd Hl]. eapply extends_trans; [by apply (extends_push d h')|by apply IH].
Qed.
Lemma extends_calls ec hs c : extends c (foldl (call_and_react react ec) c hs).
Proof.
  revert c. induction hs as [|h hs IH]; intros c; [apply extends_refl|]. cbn.
  eapply extends_trans; [apply extends_call|apply IH].
Qed.
Lemma extends_step c o : op_ok o -> extends c (step react c o).
Proof.
  intros Ho. destruct o as [d h|d| |ec| |]; cbn [step].
  - by apply extends_push.
  - done.
  - apply extends_send.
  - unfold write_done. destruct (flight c) as [b|]; [|apply extends_refl].
    eapply extends_trans; [apply (extends_calls ec (handlers_at b c))|]. set (c1 := foldl _ _ _). clearbody c1.
    eapply extends_trans; [apply extends_log, (log_set_handlers b [] c1)|]. set (c2 := set_handlers b [] c1). clearbody c2.
    eapply extends_trans; [apply extends_log, (log_set_queue b (Streambuf.consume_all (queue_at b c2)) c2)|].
    set (c3 := set_queue _ _ _). clearbody c3.
    destruct (ec =? 0); [eapply extends_trans; [|apply extends_send]|]; by apply extends_log.
  - by apply extends_log.
  - unfold destroy. destruct (destroyed c); [apply extends_refl|].
    eapply extends_trans; [by apply (extends_log c (c <| destroyed := true |>))|]. set (c1 := c <| destroyed := true |>). clearbody c1.
    eapply extends_trans; [apply (extends_calls broken_pipe (handler_queue_other c1))|]. set (c2 := foldl _ _ _). clearbody c2.
    eapply extends_trans; [by apply (extends_log c2 (c2 <| handler_queue_other := [] |>))|].
    set (c3 := c2 <| handler_queue_other := [] |>). clearbody c3.
    eapply extends_trans; [apply (extends_calls broken_pipe (handler_queue c3))|]. by apply extends_log.
Qed.

Lemma extends_commands c c' fs : extends c c' -> commands c fs -> exists fs', commands c' (fs ++ fs').
Proof.
  intros (l & El & Hl) [Hw Hm]. assert (Hn : exists fs', Forall frame_wf fs' /\ map encode fs' = pieces l).
  { clear - Hl. induction Hl as [|e l He _ (fs' & Hw & Hm)]; [by exists []|].
    destruct e as [d|h ec|d|h]; try (exists fs'; done). destruct He as (f & Hf & ->).
    exists (f :: fs'). split; [by constructor|]. cbn. by rewrite Hm. }
  destruct Hn as (fs' & Hw' & Hm'). exists fs'. split; [by apply list.Forall_app|].
  by rewrite map_app, Hm, Hm', El, pieces_app.
Qed.

(** *** The octets on the wire *)
Lemma stream_app fs fs' : stream (fs ++ fs') = stream fs ++ stream fs'.
Proof. unfold stream. by rewrite map_app, concat_app. Qed.
Lemma wire_stream c fs : fifo pre c -> commands c fs ->
  exists rest, on_wire c ++ rest = stream fs /\ (current_recv_queue c = [] -> rest = []).
Proof.
  intros Hf [_ Hm]. unfold fifo in Hf. rewrite pushed_pieces, <- Hm in Hf. fold (stream fs) in Hf. unfold on_wire.
  destruct (decide (length pre <= length (written (log c)))%nat) as [Hle|Hgt].
  - exists (current_recv_queue c). split; [|done]. rewrite <- drop_app_le by done. by rewrite Hf, drop_app_length.
  - exists (stream fs). rewrite drop_ge by lia. split; [done|]. intros Hq. rewrite Hq, app_nil_r in Hf. rewrite Hf, length_app in Hgt. lia.
Qed.
Lemma wire_grows c c' : extends c c' -> exists more, on_wire c' = on_wire c ++ more.
Proof.
  intros (l & El & _). unfold on_wire. rewrite El. unfold written. rewrite flat_map_app. fold (written (log c)). fold (written l).
  destruct (decide (length pre <= length (written (log c)))%nat) as [Hle|Hgt].
  - exists (written l). by rewrite drop_app_le.
  - rewrite (drop_ge (written (log c))) by lia. eauto.
Qed.

(** *** The invariant *)
Record chan_inv (s : channel) (fs1 fs2 : list frame) : Prop := {
  ci_cache : inv (ch_cache s);
  ci_fifo : fifo pre (ch_cache s);
  ci_commands : commands (ch_cache s) (fs1 ++ fs2);
  ci_got : ch_got s = map request_of fs1;
  ci_read : (ch_read s <= length (on_wire (ch_cache s)))%nat;
  ci_buf : stream fs1 ++ ch_buf s = take (ch_read s) (on_wire (ch_cache s));
  ci_rest : match fs2 with [] => ch_buf s = [] | f :: _ => zlen (ch_buf s) < zlen (encode f) end
}.

Lemma op_keeps o s fs1 fs2 : op_ok o -> chan_inv s fs1 fs2 ->
  exists new, chan_inv (mkChannel (step react (ch_cache s) o) (ch_read s) (ch_buf s) (ch_got s)) fs1 (fs2 ++ new).
Proof.
  intros Ho [H1 H2 H3 H4 H5 H6 H7]. pose proof (extends_step (ch_cache s) o Ho) as Hx.
  destruct (extends_commands _ _ _ Hx H3) as [new Hnew]. destruct (wire_grows _ _ Hx) as [more Hmore].
  assert (Hi : is_insert o = false) by (by destruct o).
  exists new. split; cbn [ch_cache ch_read ch_buf ch_got].
  - by apply step_inv.
  - by apply step_fifo.
  - by rewrite app_assoc.
  - done.
  - rewrite Hmore, length_app. lia.
  - by rewrite Hmore, take_app_le.
  - destruct fs2 as [|f fs2]; [|done]. cbn. destruct new as [|f new]; [done|]. rewrite H7.
    pose proof (encode_length_min f). zlen_lia.
Qed.

Lemma foldl_snoc_map {A B} (f : A -> B) l acc : foldl (fun l x => l ++ [f x]) acc l = acc ++ map f l.
Proof. revert acc. induction l as [|x l IH]; intros acc; cbn; [by rewrite app_nil_r|]. by rewrite IH, <- app_assoc. Qed.

Lemma receive_keeps n s fs1 fs2 : chan_inv s fs1 fs2 ->
  exists s' g1 g2, receive n s = Ret s' /\ fs2 = g1 ++ g2 /\ chan_inv s' (fs1 ++ g1) g2 /\ ch_cache s' = ch_cache s /\
    ch_read s' = (ch_read s + length (take n (drop (ch_read s) (on_wire (ch_cache s)))))%nat.
Proof.
  intros [H1 H2 H3 H4 H5 H6 H7]. unfold receive. set (wire := on_wire (ch_cache s)) in *.
  set (chunk := take n (drop (ch_read s) wire)).
  destruct (wire_stream _ _ H2 H3) as (rest0 & Hrest & _). fold wire in Hrest.
  assert (Htake : take (ch_read s + length chunk) wire = take (ch_read s) wire ++ chunk).
  { rewrite <- (take_drop (ch_read s) wire) at 1. rewrite take_app_add' by (rewrite length_take; lia).
    f_equal. subst chunk. rewrite length_take, <- take_take. by rewrite (take_ge (drop _ _)). }
  set (rest := drop (ch_read s + length chunk) wire ++ rest0).
  assert (Hs : (ch_buf s ++ chunk) ++ rest = stream fs2).
  { apply (app_inv_head (stream fs1)). rewrite <- stream_app, <- Hrest. subst rest. rewrite !app_assoc, H6, <- Htake.
    by rewrite take_drop. }
  destruct H3 as [Hw Hm]. apply list.Forall_app in Hw as Hw'. destruct Hw' as [_ Hw2].
  destruct (drain_prefix (fun r l => l ++ [r]) fs2 (ch_buf s ++ chunk) rest (ch_got s) _ Hw2 Hs (Nat.lt_succ_diag_r _))
    as (g1 & p & g2 & -> & Hp & Hlt & Hd). rewrite Hd. cbn [obind].
  eexists _, g1, g2. split; [reflexivity|]. split; [done|]. split; [|done]. rewrite foldl_snoc_map.
  split; cbn [ch_cache ch_read ch_buf ch_got]; fold wire.
  - done.
  - done.
  - by rewrite <- app_assoc.
  - by rewrite H4, map_app.
  - subst chunk. rewrite length_take, length_drop. lia.
  - rewrite Htake, <- H6, stream_app, <- !app_assoc. f_equal. apply (app_inv_tail rest). rewrite <- !app_assoc.
    rewrite app_assoc with (l := ch_buf s), Hs, Hp. by rewrite stream_app.
  - done.
Qed.

(** *** The simulation *)
Lemma enqueue_all g rs s : rtc queue_step (mkQueue s g) (mkQueue (s ++ rs) g).
Proof.
  revert s. induction rs as [|r rs IH]; intros s; [by rewrite app_nil_r|].
  eapply rtc_l; [apply (enqueue s g r)|]. change (s ++ r :: rs) with (s ++ [r] ++ rs). rewrite (app_assoc s [r] rs). apply IH.
Qed.
Lemma dequeue_all g rs rest : rtc queue_step (mkQueue (g ++ rs ++ rest) g) (mkQueue (g ++ rs ++ rest) (g ++ rs)).
Proof.
  revert g. induction rs as [|r rs IH]; intros g; [by rewrite app_nil_r|].
  eapply rtc_l; [apply (dequeue _ g r)|].
  - rewrite lookup_app_r by lia. by rewrite Nat.sub_diag.
  - specialize (IH (g ++ [r])). rewrite <- !app_assoc in IH. exact IH.
Qed.
Definition abstract (s : channel) (fs1 fs2 : list frame) : queue := mkQueue (map request_of (fs1 ++ fs2)) (ch_got s).

Lemma channel_step_simulated s s' fs1 fs2 : channel_step s s' -> chan_inv s fs1 fs2 ->
  exists fs1' fs2', chan_inv s' fs1' fs2' /\ rtc queue_step (abstract s fs1 fs2) (abstract s' fs1' fs2').
Proof.
  intros Hst Hi. destruct Hst as [o s Ho|n s s' Hr].
  - destruct (op_keeps o s fs1 fs2 Ho Hi) as [new Hn]. exists fs1, (fs2 ++ new). split; [done|]. unfold abstract. cbn [ch_got].
    rewrite app_assoc, (map_app _ (fs1 ++ fs2) new). apply enqueue_all.
  - destruct (receive_keeps n s fs1 fs2 Hi) as (s1 & g1 & g2 & E & -> & Hi' & _). rewrite Hr in E. injection E as <-.
    exists (fs1 ++ g1), g2. split; [done|]. unfold abstract. rewrite (ci_got _ _ _ Hi), (ci_got _ _ _ Hi').
    rewrite <- app_assoc, !map_app. apply dequeue_all.
Qed.

(** A channel that opens: commands may wait already, nothing was read. *)
Definition opens (c0 : @cache H) : Prop := inv c0 /\ fifo pre c0 /\ exists fs, commands c0 fs.
Definition open_channel (c0 : @cache H) : channel := mkChannel c0 0 [] [].
Lemma channel_simulated c0 s : opens c0 -> rtc channel_step (open_channel c0) s ->
  exists fs1 fs2, chan_inv s fs1 fs2 /\ rtc queue_step empty_queue (abstract s fs1 fs2).
Proof.
  intros (Hi & Hf & fs & Hc) Hr.
  assert (H0 : exists fs1 fs2, chan_inv (open_channel c0) fs1 fs2 /\ rtc queue_step empty_queue (abstract (open_channel c0) fs1 fs2)).
  { exists [], fs. split; [|apply (enqueue_all [] (map request_of fs) [])]. split; try done; cbn; [lia|].
    destruct fs as [|f fs]; [done|]. pose proof (encode_length_min f). zlen_lia. }
  clear Hi Hf Hc. remember (open_channel c0) as s0. clear Heqs0. revert H0.
  induction Hr as [s|s s1 s' Hst _ IH]; [done|]. intros (fs1 & fs2 & Hi & Hq). apply IH.
  destruct (channel_step_simulated _ _ _ _ Hst Hi) as (fs1' & fs2' & Hi' & Hq'). exists fs1', fs2'. split; [done|].
  by etransitivity.
Qed.
End Channel.

(** The data of one session among commands *)
Definition session_data (sid : Z) (rs : list PipelineRequest) : bytes :=
  flat_map (fun r => if bool_decide (command r = DATA) && (session_id r =? sid) then packet_data r else []) rs.
Lemma session_data_prefix sid a b : a `prefix_of` b -> session_data sid a `prefix_of` session_data sid b.
Proof. intros [k ->]. unfold session_data. rewrite flat_map_app. by eexists. Qed.

(** C11: one direction of a pipeline refines a queue of commands: in every run of the
    sender's cache, with handlers that push more commands, and of a receiver whose reads
    return any number of octets, the handled commands are a sequence of steps of the queue
    behind the pushed ones; what a session was handed is a prefix of what was pushed for
    it; a read always succeeds; and when all that was pushed was written and read, all of
    it was handled and the buffer is empty. *)
Theorem pipeline_channel_refines_queue {H} (react : H -> error_code -> list (bytes * H)) pre c0 s :
  (forall h ec, Forall (fun p => is_command (fst p)) (react h ec)) ->
  opens pre c0 -> rtc (channel_step react pre) (open_channel c0) s ->
  exists fs, commands (ch_cache s) fs /\
    rtc queue_step empty_queue (mkQueue (map request_of fs) (ch_got s)) /\
    (forall sid, session_data sid (ch_got s) `prefix_of` session_data sid (map request_of fs)) /\
    (forall n, returns (receive pre n s)) /\
    (current_recv_queue (ch_cache s) = [] -> ch_read s = length (on_wire pre (ch_cache s)) ->
     ch_got s = map request_of fs /\ ch_buf s = []).
Proof.
  intros Hre Ho Hr. destruct (channel_simulated react pre Hre c0 s Ho Hr) as (fs1 & fs2 & Hi & Hq).
  exists (fs1 ++ fs2). pose proof Hi as [H1 H2 H3 H4 H5 H6 H7]. split; [done|]. split; [done|]. split; [|split].
  - intros sid. apply session_data_prefix. exact (queue_prefix _ Hq).
  - intros n. destruct (receive_keeps pre n s fs1 fs2 Hi) as (s' & _ & _ & E & _). by exists s'.
  - intros Hq0 Hread. destruct (wire_stream pre _ _ H2 H3) as (rest & Hw & Hn). rewrite (Hn Hq0), app_nil_r in Hw.
    rewrite Hread, take_ge, Hw, stream_app in H6 by lia. apply app_inv_head in H6.
    destruct fs2 as [|f fs2]; [by rewrite app_nil_r|]. exfalso. rewrite H6 in H7.
    change (stream (f :: fs2)) with (encode f ++ stream fs2) in H7. rewrite zlen_app in H7.
    pose proof (zlen_nonneg (stream fs2)). lia.
Qed.

(** Commands queued while a pipeline connects, then its password in front: such a cache
    opens a channel. *)
Lemma connected_cache_opens {H} (react : H -> error_code -> list (bytes * H)) pre ops :
  (forall h ec, Forall (fun p => is_command (fst p)) (react h ec)) -> Forall op_ok ops ->
  let c := run react (new_cache false) ops in
  destroyed c = false -> written (log c) = [] -> opens pre (insert_data pre (connect c)).
Proof.
  intros Hre Hops c Hd Hw.
  assert (Hi : inv c /\ fifo [] c /\ extends (new_cache false) c).
  { subst c. clear Hd Hw. enough (Hg : forall c, extends (new_cache false) c -> fifo [] c -> inv c ->
      inv (run react c ops) /\ fifo [] (run react c ops) /\ extends (new_cache false) (run react c ops)).
    { apply Hg; [apply extends_refl|done|apply new_cache_inv]. }
    induction Hops as [|o ops Ho _ IH]; intros c Hx Hf Hi; [done|]. apply IH.
    - eapply extends_trans; [exact Hx|]. by apply extends_step.
    - apply step_fifo; [done|by destruct o|done].
    - by apply step_inv. }
  destruct Hi as (Hi & Hf & Hx).
  assert (Hic : inv (connect c)) by (destruct Hi as [? ? ?]; by split).
  assert (Hxi : extends (connect c) (insert_data pre (connect c))).
  { unfold insert_data. destruct (destroyed (connect c)); [apply extends_refl|].
    eapply extends_trans; [|apply extends_send]. apply extends_log, log_set_queue. }
  split; [by apply insert_data_inv|]. split.
  - unfold fifo. rewrite insert_data_front by done. change (written (log (connect c))) with (written (log c)). rewrite Hw.
    change (current_recv_queue (connect c)) with (current_recv_queue c). unfold fifo in Hf. rewrite Hw in Hf. cbn [app] in Hf |- *.
    rewrite Hf. f_equal. assert (Hp : pieces (log (insert_data pre (connect c))) = pieces (log c)).
    { unfold insert_data. change (destroyed (connect c)) with (destroyed c). rewrite Hd. unfold async_send.
      destruct (_ || _); cbn -[pieces set_queue]; rewrite ?pieces_app, ?log_set_queue; cbn; by rewrite ?app_nil_r. }
    by rewrite !pushed_pieces, Hp.
  - assert (H0 : commands (new_cache (H := H) false) []) by (by split).
    destruct (extends_commands _ _ _ Hx H0) as [fs Hfs].
    destruct (extends_commands (connect c) _ ([] ++ fs) Hxi) as [fs' Hfs']; [exact Hfs|]. by eexists.
Qed.

(** *** A concrete run: a command waits while the pipeline connects, two more follow *)
Definition no_react (_ : nat) (_ : error_code) : list (bytes * nat) := [].
Definition demo_pre : bytes := str "pw" ++ CRLF.
Definition demo_frames : list frame := [FConnect 7; FData 7 (str "hello"); FClose 7].
Definition demo_start : @cache nat :=
  insert_data demo_pre (connect (run no_react (new_cache false) [Push (encode (FConnect 7)) 0%nat])).
Lemma demo_opens : opens demo_pre demo_start.
Proof.
  apply (connected_cache_opens no_react demo_pre [Push (encode (FConnect 7)) 0%nat]); [constructor| |done|done].
  constructor; [|constructor]. exists (FConnect 7). by split.
Qed.
Definition demo_ops : list (@op nat) :=
  [Push (encode (FData 7 (str "hello"))) 1%nat; Push (encode (FClose 7)) 2%nat; WriteDone 0; WriteDone 0].
Definition demo_end : @channel nat :=
  mkChannel (run no_react demo_start demo_ops) 18 [] (map request_of demo_frames).

Lemma pipeline_channel_refines_queue_witness :
  exists fs, commands (ch_cache demo_end) fs /\ ch_got demo_end = map request_of fs /\
    session_data 7 (ch_got demo_end) = str "hello".
Proof.
  assert (Hr : rtc (channel_step no_react demo_pre) (open_channel demo_start) demo_end).
  { eapply rtc_l; [apply (ch_receive no_react demo_pre 2); vm_compute; reflexivity|].
    eapply rtc_l; [apply (ch_op no_react demo_pre (Push (encode (FData 7 (str "hello"))) 1%nat)); exists (FData 7 (str "hello")); by split|].
    eapply rtc_l; [apply (ch_op no_react demo_pre (Push (encode (FClose 7)) 2%nat)); exists (FClose 7); by split|].
    eapply rtc_l; [by apply (ch_op no_react demo_pre (WriteDone 0))|].
    eapply rtc_l; [by apply (ch_op no_react demo_pre (WriteDone 0))|].
    eapply rtc_l; [apply (ch_receive no_react demo_pre 10); vm_compute; reflexivity|].
    eapply rtc_l; [apply (ch_receive no_react demo_pre 100); vm_compute; reflexivity|]. apply rtc_refl. }
  destruct (pipeline_channel_refines_queue no_react demo_pre demo_start demo_end) as (fs & Hc & _ & _ & _ & Hend);
    [constructor|apply demo_opens|exact Hr|].
  exists fs. split; [exact Hc|]. split; [apply Hend; vm_compute; reflexivity|]. vm_compute. reflexivity.
Defined.
End PipelineChannel.
